(* ===== verification/_CoqProject ===== *)
-Q . S2P
Prelude.v
Text.v
GoTime.v
GoFormat.v
Millis.v
Types.v
Sql.v
Status.v
Slots.v
Sha256.v
Json.v
Drop.v
Hash.v
Codec.v
Sqlite.v
SqliteStore.v
Tenant.v
Quests.v
QuestsProofs.v
Idempotency.v
Accounts.v
Tokens.v
IdempotencyProofs.v
Isolation.v
Sessions.v
Secrets.v
SecretsProofs.v
Url.v
Migrate.v
Flags.v
NetIP.v
Http.v
Goal.v
Cache.v
Resolver.v
JsonText.v
Wire.v
ResyWire.v
Terminal.v
Prompts.v
Engine.v
Resy.v
ResyProofs.v
Booked.v
LoginCli.v
EngineProofs.v
EngineRun.v
Race.v
Booking.v
Snipe.v
SnipeProofs.v
Subscribe.v
Strategy.v
Plan.v
Service.v
ServiceSteps.v
Adapter.v
Replay.v
ServiceProofs.v
QuestText.v
QuestCli.v
QuestCliProofs.v
UserCli.v
Stream.v
AuditTrail.v
Transport.v
Proxy.v
Config.v
Boot.v
Server.v
Client.v
WireProofs.v
Answers.v
Gate.v
Verbs.v
Revoke.v
Remote.v
EventStream.v
DaemonCli.v
Main.v
