(* ===== verification/Prelude.v ===== *)
(** * Verification of resy-snipe

    resy-snipe books restaurant tables the moment they are released.  A user
    states a goal (venue, date, party, time window); the planner turns it
    into a plan that is identified by a hash; the service stores it as a
    quest and hands an intent to the engine; the engine waits for the
    release, polls or fires, ranks the slots it finds and races to book one;
    every step is stored with an audit event.  A daemon offers the service
    over HTTP to the users it knows by token, the command line uses the
    service directly or through the daemon's client, and the booking site is
    reached through a client of its own.  This development models these parts
    and proves what each promises.

    ** Parts and files

    - Go's own packages, as the program uses them: GoTime (calendar,
      locations, [time.Date], [AddDate], saturating [Sub]), GoFormat and
      Millis (layouts, printing and parsing), Text ([strings]), Url
      ([net/url]), NetIP ([net], [net/netip]), Http ([net/http] headers,
      forms), Json (the canonical writer), JsonText ([encoding/json]: printing
      and reading), Flags ([flag]), Sha256.  They are computable and fixed to
      Go by examples.
    - [internal/domain]: Types (data and errors), Status (state machine and
      [SnipeState.Transition]), Goal ([Goal.Validate]), Hash ([Intent.Hash],
      [IdempotencyKey], plan hashes).
    - [internal/planner]: Drop ([drop.go]), Slots ([slots.go]), Strategy
      ([strategy.go]), Plan ([plan.go]).
    - [internal/store]: Sql (statements, faults and transactions), Codec (the
      JSON and text columns), Sqlite and SqliteStore ([sqlite.go]: snipes,
      events, venues, observed releases), Tenant (the multi-user tables),
      Quests and QuestsProofs ([quests.go], [quest_events.go]), Accounts
      ([users.go], [accounts.go], [seed.go]), Tokens ([tokens.go],
      [audit.go]), Idempotency and IdempotencyProofs, Cache ([cache.go]),
      Sessions (provider sessions in [sqlite.go]), Migrate ([migrate.go]) and
      Isolation (the tables of users, one against another).
    - [internal/resolver]: Resolver ([url.go], [resolver.go] and
      [cmd/resy-snipe/resolver_adapter.go]).
    - [internal/engine]: Engine ([engine.go], [state.go], [run.go],
      [release.go]), EngineProofs, EngineRun, Race and Booking ([race.go]),
      Subscribe ([subscribe.go]).
    - [internal/service]: Service (every verb of [standard_quest.go] and
      [standard_auth.go] but the subscription, with [audit.go],
      [goal_codec.go], [errors.go]), Stream ([SubscribeQuest]),
      ServiceSteps, ServiceProofs, Replay, AuditTrail.
    - [internal/resy] (with [resy/sign] and
      [cmd/resy-snipe/provider_adapter.go]): ResyWire (answers of the site),
      Resy (the client: signed requests, retry, endpoints, keys), ResyProofs,
      Booked.
    - [internal/secrets]: Secrets, SecretsProofs.
    - [internal/transport/http]: Wire (bodies, shared with the client),
      Transport ([wire.go], [errors.go]), Server ([auth.go], handlers,
      [sse.go]), Proxy ([proxy.go], [health.go]), Gate, Verbs, Revoke.
    - [internal/client/http]: Client; both ends together in WireProofs,
      Answers, Remote, EventStream.
    - [internal/daemon] and [cmd/resy-snipe/serve.go]: Config, Boot,
      DaemonCli.
    - [cmd/resy-snipe]: Adapter ([service_store_adapter.go]), Flags
      ([splitFlagsAndPositionals] of [user.go]), Terminal, UserCli (the rest
      of [user.go]), LoginCli ([login.go]), Prompts ([intent.go]), Main ([main.go] up to
      the dry run), Snipe and SnipeProofs ([snipe.go], the end of [main.go]
      and [internal/notify/stdout.go]), DaemonCli ([migrate_secrets.go]),
      QuestText, QuestCli and QuestCliProofs
      ([resolve.go], [quest_plan.go], [quest_create.go], [quest_ops.go]).

    Definitions keep the names of the source; where two packages share one
    it is qualified ([Store.ErrNotFound], [Service.ErrNotFound]), and a
    method is [type_Method].

    ** How the program is modelled

    A fallible function returns [res], a value or an error.  An error keeps
    the structure [errors.Is] sees: sentinels, [fmt.Errorf] with what its %w
    verbs wrap, typed errors.  Time is nanoseconds since the epoch with a
    location; a location is its transitions, so daylight saving is computed.

    A store function is a sequence of statements over lists of rows
    ([SqlOf]); a fault schedule decides which statement fails, and a failed
    one has no effect.  The engine and the service run in a monad over a
    [World] (store, current snipe, clock, notifications, provider calls); an
    [Env] decides what the program does not: the time each step takes, the
    faults, when the context is cancelled, which ready case a select takes,
    and what the provider answers.  Theorems quantify over all of it.

    Interfaces are classes.  [SnipeStore] is what the engine asks of its
    store: the engine's theorems are proved against it and SqliteStore
    discharges it.  [StoreBackend] is the service's store and Adapter its
    instance; [IdempotentBackend] is what Replay asks of one, with the
    multi-user tables as its instance.  [SessionStore] and [Signer] are what
    the booking client asks of its session table and its signer; [WireCodec]
    is a type's JSON form with the law that reading inverts printing;
    [RowChoice] is the row SQLite picks where a query leaves it open.

    The daemon boots over the versions of its schema, the sessions' tables
    and the secrets, runs the migrations that are pending there, and handles
    requests whose route is matched, one after the other, over the same store
    and service; the client is proved against it through the text of the
    bodies and the escaped path of the request.  A command runs in a monad over a terminal (input, output) and
    the world of its service.  The booking site's client runs over a network
    that answers arbitrarily; sealing runs over the sessions' database with
    its two tables.

    The goroutines of the booking race are a step relation ([rstep]) in
    which any of them may move, sending into a channel of the capacity it is
    made with; those of [SubscribeQuest] are any list of
    the inputs its select can see.

    ** What is proved

    - Engine: row, memory, log and notifications stay in step under every
      fault and cancellation (EngineProofs); nothing fires early, polling is
      paced and ends, an undisturbed run reaches Awaiting (EngineRun); a race
      that is joined reports a confirmation if an attempt was confirmed, no
      send blocks, and it ends, while a second confirmation or one in flight
      when the race is blocked is lost, as lemmas show (Race, Booking); each
      subscriber is told once (Subscribe).
    - Service: what creating and cancelling can write, whatever fails
      (ServiceProofs); a keyed verb whose outcome was recorded runs once
      (Replay); a subscriber gets its own quest's history and then its live
      events in order, but for those a full buffer drops (Stream); each verb
      that has an audit row leaves one, and which calls leave none is said
      (AuditTrail).
    - Store: atomic transitions, loading back what was stored, reachable
      tables are well formed (SqliteStore, Codec); migrations run whole, in
      order and once (Migrate); the quest table refines a
      finite map (QuestsProofs); no user changes another's rows, and what a
      call answers depends on them only through the shared ids and keys that
      are named (Isolation); replays find what was recorded until it expires
      (IdempotencyProofs).
    - Planner and domain: drops, strategies, slots and plans follow their
      rules (Drop, Strategy, Slots, Plan); hashes address content (Hash,
      Json); accepted goals are usable (Goal); a booked snipe has passed
      every stage (Status).
    - Resolver: the cache stands in for the provider, unless it is bypassed
      (Resolver).
    - Booking site: an idempotency key is sent once, but for the retry after
      an anti-bot challenge; a confirmation stands for a booking the site
      accepted; a login can be resumed (ResyProofs, Booked).
    - Daemon: only the bearer of a live token is served, as its user (Gate),
      and a revoked one never again (Revoke); goals, quests, errors, filters
      and event streams cross the wire (WireProofs, Answers, EventStream), so
      a verb of the client is the service's verb, for ids that need no
      escaping, and for the others of the id that arrives (Remote); an
      accepted configuration is in bounds (Config), a boot is all or nothing,
      but for the migrations it ran (Boot), and [serve] gives back what it
      takes and changes the tables through the gate only (DaemonCli).
    - Secrets: what is sealed opens, rotation and migration are all or
      nothing, the migration keeping one token of each account
      (SecretsProofs); the command that migrates leaves nothing held
      and nothing half done (DaemonCli).
    - Command line: flags in every spelling and arguments parse in any order
      where they are split (Flags); answers of the prompts make an intent (Prompts), and so
      do the defaults (Main); the report, the exit code and the stored row of
      a snipe agree, unless the row cannot be read back (SnipeProofs); quests are created and cancelled only on the user's word
      (QuestCliProofs); who has logged in can snipe (LoginCli), and seeding
      gives every account an owner (UserCli).

    ** Bounds and hypotheses

    The polling loops run with fuel [fuel_for]: one pass per polling interval
    that is left of the window, plus two; [loops_end] shows that more fuel
    changes nothing.  A prompt asks at most once per byte of input and once
    more ([ask], [ask_loop_fuel]), since each line takes one; the readers of
    JSON text and of event frames recur on the text.  Instants are unbounded and a [Duration] saturates at 64
    bits; theorems that add durations to a clock assume it lies between the
    epoch and year 9999 ([in_era], [four_digit_year]), where the layouts
    print four digits.  Hash theorems speak of the text that is hashed, and
    conclude about digests only for different texts of which it is assumed
    that SHA-256 does not confuse them.  The one
    floating-point quotient of the program, [Hours() / 24], is computed in
    IEEE binary64 ([duration_Hours]).

    ** Parameters

    Code outside the repository is an argument: what the booking site and
    the signer's program answer, the IANA database ([LoadLocation]), the name
    of a zone, [time.Local], the tables of package [unicode], the IP literal
    parser of [net/url], the TOML decoder, [filepath.Clean], BLAKE2b, AES-GCM
    ([aead_laws]), Argon2id, [mlock], the random source, the order in which a
    map is walked, [text/tabwriter] and SQLite's clock ([SqliteClock]).  A
    JSON column holds the value that is marshalled into it.

    ** Not modelled

    Logging and the clock seam, which is the environment's stream of
    instants.  In the store: opening the database, what SQLite makes of the
    migrations' text, and the static tenant check.  In the daemon: what the
    lock file, the data directory, the keyfile and the terminal answer, and
    [RegisterFlags], which nothing calls.  In the transport: the sockets and
    [net/http]'s own server, the matching of route patterns, the route of the
    event stream behind the gate (its text is modelled, not its request), the metrics text
    and [pprof].  In the command line: the usage texts of [flag], and the
    wiring of the parts.  The stub [ListEvents] of the adapter,
    which nobody calls.  The texts of the errors of [net/url], [netip],
    [strconv], [time] and [encoding/json]. *)

From stdpp Require Export base list gmap strings sorting relations.
From Stdlib Require Export ZArith Lia.
From Stdlib Require Import Ascii.

#[global] Open Scope Z_scope.

(** ** Outcomes

    Go's [(T, error)] pair, read the way every caller reads it: a nil
    error means the value is meaningful. *)
Inductive outcome (E A : Type) : Type :=
| Ok (a : A)
| Err (e : E).
Arguments Ok {E A} _.
Arguments Err {E A} _.

Section Outcome.
Context {E : Type}.

#[global] Instance outcome_ret : MRet (outcome E) := λ _ a, Ok a.
#[global] Instance outcome_bind : MBind (outcome E) :=
  λ _ _ f m, match m with Ok a => f a | Err e => Err e end.

#[global] Instance outcome_fmap : FMap (outcome E) :=
  λ _ _ f m, match m with Ok a => Ok (f a) | Err e => Err e end.

Definition is_Ok {A} (m : outcome E A) : bool :=
  match m with Ok _ => true | Err _ => false end.

Lemma is_Ok_true {A} (m : outcome E A) : is_Ok m = true ↔ ∃ a, m = Ok a.
Proof. destruct m; naive_solver. Qed.

Lemma bind_Ok {A B} (m : outcome E A) (f : A → outcome E B) b :
  (m ≫= f) = Ok b ↔ ∃ a, m = Ok a ∧ f a = Ok b.
Proof. destruct m; simpl; naive_solver. Qed.

Lemma bind_Err {A B} (m : outcome E A) (f : A → outcome E B) e :
  (m ≫= f) = Err e ↔ m = Err e ∨ ∃ a, m = Ok a ∧ f a = Err e.
Proof. destruct m; simpl; naive_solver. Qed.
End Outcome.

(** ** Tactics of the development *)

(** Case on whatever the goal or a hypothesis scrutinises next. *)
Ltac case_goal :=
  match goal with
  | |- context [match ?x with _ => _ end] => destruct x eqn:?
  end.
Ltac case_hyp H :=
  match type of H with
  | context [match ?x with _ => _ end] => destruct x eqn:?
  end.
Ltac split_all := repeat match goal with |- _ ∧ _ => split end.
(** Boolean comparisons of integers to propositions. *)
Ltac zb :=
  repeat match goal with
  | H : (_ <? _) = true |- _ => apply Z.ltb_lt in H
  | H : (_ <? _) = false |- _ => apply Z.ltb_ge in H
  | H : (_ <=? _) = true |- _ => apply Z.leb_le in H
  | H : (_ <=? _) = false |- _ => apply Z.leb_gt in H
  | H : (_ =? _) = true |- _ => apply Z.eqb_eq in H
  | H : (_ =? _) = false |- _ => apply Z.eqb_neq in H
  | H : (_ <? _)%nat = true |- _ => apply Nat.ltb_lt in H
  | H : (_ <? _)%nat = false |- _ => apply Nat.ltb_ge in H
  | H : (_ <=? _)%nat = true |- _ => apply Nat.leb_le in H
  | H : (_ <=? _)%nat = false |- _ => apply Nat.leb_gt in H
  | H : (_ && _)%bool = true |- _ => apply andb_true_iff in H as [? ?]
  | H : (_ || _)%bool = false |- _ => apply orb_false_iff in H as [? ?]
  | H : negb _ = true |- _ => apply negb_true_iff in H
  | H : negb _ = false |- _ => apply negb_false_iff in H
  end.

Create HintDb snipe.

(** ** Bounded search by evaluation

    [all_below n p] evaluates [p] on [0 .. n-1]; it turns a statement
    about every integer of a finite range into a computation. *)
Fixpoint all_from (fuel : nat) (i : Z) (p : Z → bool) : bool :=
  match fuel with
  | O => true
  | S f => p i && all_from f (i + 1) p
  end.
Definition all_below (n : Z) (p : Z → bool) : bool := all_from (Z.to_nat n) 0 p.

Lemma all_from_spec fuel i p :
  all_from fuel i p = true → ∀ k, i ≤ k < i + Z.of_nat fuel → p k = true.
Proof.
  revert i; induction fuel as [|f IH]; intros i H k Hk; [lia|].
  simpl in H. apply andb_true_iff in H as [H1 H2].
  destruct (decide (k = i)) as [->|]; [done|]. eapply IH; [exact H2|lia].
Qed.

Lemma all_below_spec n p :
  all_below n p = true → ∀ k, 0 ≤ k < n → p k = true.
Proof. intros H k Hk. eapply all_from_spec; [exact H|lia]. Qed.

(** Let [simpl] compute on string literals. *)
#[global] Arguments String.append !_ _ /.

(** ** Decimal numerals *)

Definition digit (z : Z) : ascii := ascii_of_nat (48 + Z.to_nat z).
Definition digit_val (c : ascii) : option Z :=
  let n := Z.of_nat (nat_of_ascii c) in
  if (48 <=? n) && (n <=? 57) then Some (n - 48) else None.
Definition is_digit (c : ascii) : bool :=
  match digit_val c with Some _ => true | None => false end.

(** The [n] low-order decimal digits of [z], most significant first. *)
Fixpoint digits (n : nat) (z : Z) : string :=
  match n with
  | O => ""
  | S n' => digits n' (z / 10) +:+ String (digit (z mod 10)) ""
  end.

Fixpoint ndigits_go (fuel : nat) (z : Z) : nat :=
  match fuel with
  | O => 1
  | S f => if z <? 10 then 1 else S (ndigits_go f (z / 10))
  end.
Definition ndigits (z : Z) : nat := ndigits_go (S (Z.to_nat (Z.log2 z))) z.

(** [fmt]'s [%0<w>d] (and [%d] at width 0), sign included. *)
Definition fmt_pad (w : nat) (z : Z) : string :=
  if z <? 0 then "-" +:+ digits (Nat.max (w - 1) (ndigits (- z))) (- z)
  else digits (Nat.max w (ndigits z)) z.
Definition fmt_d (z : Z) : string := fmt_pad 0 z.

(** Reading a run of digits. *)
Fixpoint read_digits (acc : Z) (s : string) : option Z :=
  match s with
  | EmptyString => Some acc
  | String c s' =>
      match digit_val c with
      | Some d => read_digits (acc * 10 + d) s'
      | None => None
      end
  end.

Lemma digit_val_digit z : 0 ≤ z < 10 → digit_val (digit z) = Some z.
Proof.
  intros Hz.
  assert (H : all_below 10 (λ k, bool_decide (digit_val (digit k) = Some k)) = true)
    by reflexivity.
  by apply (all_below_spec _ _ H) in Hz as ->%bool_decide_eq_true_1.
Qed.

Lemma is_digit_digit z : 0 ≤ z < 10 → is_digit (digit z) = true.
Proof. intros. unfold is_digit. by rewrite digit_val_digit. Qed.

Lemma length_append s t : String.length (s +:+ t) = (String.length s + String.length t)%nat.
Proof. induction s as [|c s IH]; simpl; [done|]. by rewrite IH. Qed.

Lemma append_nil_r s : s +:+ "" = s.
Proof. induction s as [|c s IH]; simpl; [done|]. by rewrite IH. Qed.

Lemma append_assoc s t u : (s +:+ t) +:+ u = s +:+ (t +:+ u).
Proof. induction s as [|c s IH]; simpl; [done|]. by rewrite IH. Qed.

Lemma append_inj s1 s2 t1 t2 :
  String.length s1 = String.length s2 → s1 +:+ t1 = s2 +:+ t2 → s1 = s2 ∧ t1 = t2.
Proof.
  revert s2; induction s1 as [|c s1 IH]; intros [|c' s2] Hl H; simpl in *; try done.
  injection H as -> H. injection Hl as Hl. apply IH in H as [-> ->]; auto.
Qed.

Lemma length_digits n z : String.length (digits n z) = n.
Proof.
  revert z; induction n as [|n IH]; intros z; simpl; [done|].
  rewrite length_append, IH. simpl. lia.
Qed.

Lemma read_digits_app acc s t :
  read_digits acc (s +:+ t) = read_digits acc s ≫= λ a, read_digits a t.
Proof.
  revert acc; induction s as [|c s IH]; intros acc; simpl; [done|].
  destruct (digit_val c); [apply IH|done].
Qed.

Lemma read_digits_digits n acc z :
  0 ≤ z → read_digits acc (digits n z) = Some (acc * 10 ^ Z.of_nat n + z mod 10 ^ Z.of_nat n).
Proof.
  revert acc z; induction n as [|n IH]; intros acc z Hz.
  - simpl. f_equal. change (10 ^ Z.of_nat 0) with 1. rewrite Z.mod_1_r. lia.
  - cbn [digits]. rewrite read_digits_app, IH by (apply Z.div_pos; lia).
    cbn [mbind option_bind read_digits].
    rewrite digit_val_digit by (apply Z.mod_pos_bound; lia). f_equal.
    rewrite Nat2Z.inj_succ, Z.pow_succ_r by lia.
    rewrite (Z.rem_mul_r z 10) by (try lia; apply Z.pow_nonzero; lia). lia.
Qed.

Lemma read_digits_small n z :
  0 ≤ z < 10 ^ Z.of_nat n → read_digits 0 (digits n z) = Some z.
Proof. intros Hz. rewrite read_digits_digits by lia. f_equal. rewrite Z.mod_small; lia. Qed.

Lemma digits_inj n a b :
  0 ≤ a < 10 ^ Z.of_nat n → 0 ≤ b < 10 ^ Z.of_nat n → digits n a = digits n b → a = b.
Proof.
  intros Ha Hb H. apply (f_equal (read_digits 0)) in H.
  rewrite !read_digits_small in H by done. congruence.
Qed.

Lemma ndigits_go_le fuel w z :
  (1 ≤ w)%nat → 0 ≤ z < 10 ^ Z.of_nat w → (ndigits_go fuel z ≤ w)%nat.
Proof.
  revert w z; induction fuel as [|f IH]; intros w z Hw Hz; simpl; [lia|].
  destruct (z <? 10) eqn:E; zb; [lia|].
  destruct w as [|[|w]]; [lia|change (10 ^ Z.of_nat 1) with 10 in Hz; lia|].
  apply le_n_S, IH; [lia|].
  rewrite (Nat2Z.inj_succ (S w)), Z.pow_succ_r in Hz by lia.
  generalize dependent (10 ^ Z.of_nat (S w)); intros p Hz.
  split; [apply Z.div_pos; lia|apply Z.div_lt_upper_bound; lia].
Qed.

(** A field that fits its width prints at exactly that width. *)
Lemma fmt_pad_fits w z :
  (1 ≤ w)%nat → 0 ≤ z < 10 ^ Z.of_nat w → fmt_pad w z = digits w z.
Proof.
  intros Hw Hz. unfold fmt_pad, ndigits.
  destruct (z <? 0) eqn:E; zb; [lia|].
  by rewrite Nat.max_l by (by apply ndigits_go_le).
Qed.

(** ** Strings whose every byte satisfies a test *)

Fixpoint str_all (p : ascii → bool) (s : string) : bool :=
  match s with
  | EmptyString => true
  | String c s' => p c && str_all p s'
  end.
Definition digits_pass (p : ascii → bool) : Prop := ∀ z, 0 ≤ z < 10 → p (digit z) = true.

Lemma str_all_append p s t : str_all p (s +:+ t) = str_all p s && str_all p t.
Proof. induction s as [|c s IH]; cbn; [done|]. rewrite IH. by destruct (p c). Qed.

Lemma str_all_digits p n z : digits_pass p → str_all p (digits n z) = true.
Proof.
  intros Hp. revert z; induction n as [|n IH]; intros z; cbn [digits]; [done|].
  rewrite str_all_append, IH. cbn [str_all].
  by rewrite Hp by (apply Z.mod_pos_bound; lia).
Qed.

Lemma str_all_fmt_pad p w z :
  digits_pass p → p "-"%char = true → str_all p (fmt_pad w z) = true.
Proof.
  intros Hp Hm. unfold fmt_pad. destruct (z <? 0); [|by apply str_all_digits].
  cbn [str_all String.append]. by rewrite Hm, str_all_digits.
Qed.

(** A test that compares with one non-digit passes the digits. *)
Lemma digits_pass_from p : all_below 10 (λ z, p (digit z)) = true → digits_pass p.
Proof. intros H z Hz. exact (all_below_spec _ _ H z Hz). Qed.

(** ** Strings: the parts of package [strings] the program uses *)

Definition str_contains (s sub : string) : bool :=
  match String.index 0 sub s with Some _ => true | None => false end.
Fixpoint str_join (sep : string) (l : list string) : string :=
  match l with
  | [] => ""
  | [x] => x
  | x :: l' => x +:+ sep +:+ str_join sep l'
  end.
Definition nl : string := String (ascii_of_nat 10) "".
Definition str_eqb (a b : string) : bool := bool_decide (a = b).
Definition is_empty (s : string) : bool := str_eqb s "".

(** [fmt]'s [%q]: the string between double quotes, its quotes, backslashes
    and control characters escaped. *)
Definition dquote : string := String (ascii_of_nat 34) "".
Definition hex_digit (n : nat) : ascii :=
  ascii_of_nat (if (n <? 10)%nat then 48 + n else 87 + n).
Definition q_char (c : ascii) : string :=
  let n := nat_of_ascii c in
  if (n =? 34)%nat then "\" +:+ dquote
  else if (n =? 92)%nat then "\\"
  else if (n =? 10)%nat then "\n" else if (n =? 13)%nat then "\r"
  else if (n =? 9)%nat then "\t"
  else if ((n <? 32) || (n =? 127))%nat
  then "\x" +:+ String (hex_digit (n / 16)) (String (hex_digit (n mod 16)) "")
  else String c "".
Fixpoint q_chars (s : string) : string :=
  match s with
  | EmptyString => ""
  | String c s' => q_char c +:+ q_chars s'
  end.
Definition fmt_q (s : string) : string := dquote +:+ q_chars s +:+ dquote.

(** ** Lists and string tests *)

Lemma str_eqb_true a b : str_eqb a b = true ↔ a = b.
Proof. apply bool_decide_eq_true. Qed.
Lemma str_eqb_refl a : str_eqb a a = true.
Proof. by apply str_eqb_true. Qed.
Lemma str_eqb_neq a b : a ≠ b → str_eqb a b = false.
Proof. intros H. by apply bool_decide_eq_false_2. Qed.

Lemma find_spec {A} (p : A → bool) l x : find p l = Some x → x ∈ l ∧ p x = true.
Proof. intros H. apply find_some in H as [H ?]. by apply list_elem_of_In in H. Qed.

Lemma find_app {A} (p : A → bool) l m :
  find p (l ++ m) = match find p l with Some x => Some x | None => find p m end.
Proof. induction l as [|x l IH]; [done|]. cbn. by destruct (p x). Qed.
