(* ===== verification/Text.v ===== *)
(** * Package [strings] on UTF-8 text

    [TrimSpace] and [Fields] by the byte patterns of Unicode's white space,
    [ToLower] on ASCII; the mapping of non-ASCII text is a table of the
    [unicode] package, passed as an argument. *)

From S2P Require Import Prelude.
From Stdlib Require Import Ascii.

(** ** White space *)

Definition bytes (l : list nat) : string := foldr (λ n s, String (ascii_of_nat n) s) "" l.
(** The runes [unicode.IsSpace] accepts, encoded. *)
Definition space_runes : list string := Eval vm_compute in
  map bytes
    ([[9]; [10]; [11]; [12]; [13]; [32]; [194; 133]; [194; 160]; [225; 154; 128]]
     ++ map (λ n, [226; 128; n]) [128; 129; 130; 131; 132; 133; 134; 135; 136; 137; 138; 168; 169; 175]
     ++ [[226; 129; 159]; [227; 128; 128]])%nat.
Fixpoint strip (p s : string) : option string :=
  match p, s with
  | EmptyString, _ => Some s
  | String c p', String d s' => if Ascii.eqb c d then strip p' s' else None
  | String _ _, EmptyString => None
  end.
(** The rest after one leading rune of white space. *)
Definition strip_space (runes : list string) (s : string) : option string :=
  head (omap (λ r, strip r s) runes).
Fixpoint trim_front (fuel : nat) (runes : list string) (s : string) : string :=
  match fuel with
  | O => s
  | S f => match strip_space runes s with Some s' => trim_front f runes s' | None => s end
  end.
Fixpoint str_rev_app (s acc : string) : string :=
  match s with
  | EmptyString => acc
  | String c s' => str_rev_app s' (String c acc)
  end.
Definition str_rev (s : string) : string := str_rev_app s "".
(** [strings.TrimSpace]: no rune of white space is a suffix of another
    rune, so the tail is trimmed by the reversed patterns. *)
Definition TrimLeft (s : string) : string := trim_front (String.length s) space_runes s.
Definition TrimSpace (s : string) : string :=
  let s := TrimLeft s in
  str_rev (trim_front (String.length s) (map str_rev space_runes) (str_rev s)).

(** [strings.Fields]: the maximal runs without white space. *)
Fixpoint fields_go (fuel : nat) (cur s : string) : list string :=
  let flush := if is_empty cur then [] else [str_rev cur] in
  match fuel with
  | O => flush
  | S f =>
      match strip_space space_runes s with
      | Some s' => flush ++ fields_go f "" s'
      | None =>
          match s with
          | EmptyString => flush
          | String c s' => fields_go f (String c cur) s'
          end
      end
  end.
Definition Fields (s : string) : list string := fields_go (S (String.length s)) "" s.

(** ** Case *)

Definition lower_char (c : ascii) : ascii :=
  let n := nat_of_ascii c in if (65 <=? n)%nat && (n <=? 90)%nat then ascii_of_nat (n + 32) else c.
Fixpoint map_str (f : ascii → ascii) (s : string) : string :=
  match s with EmptyString => EmptyString | String c s' => String (f c) (map_str f s') end.
Definition ascii_only (s : string) : bool := str_all (λ c, (nat_of_ascii c <? 128)%nat) s.
(** [strings.ToLower]: ASCII text is mapped byte by byte, other text through
    the tables of package [unicode]. *)
Definition ToLower (unicode_lower : string → string) (s : string) : string :=
  if ascii_only s then map_str lower_char s else unicode_lower s.

Definition upper_char (c : ascii) : ascii :=
  let n := nat_of_ascii c in if (97 <=? n)%nat && (n <=? 122)%nat then ascii_of_nat (n - 32) else c.
(** [strings.ToUpper], likewise. *)
Definition ToUpper (unicode_upper : string → string) (s : string) : string :=
  if ascii_only s then map_str upper_char s else unicode_upper s.

(** ** Prefixes and suffixes *)

Definition TrimPrefix (s p : string) : string := default s (strip p s).
Definition TrimSuffix (s p : string) : string := default s (str_rev <$> strip (str_rev p) (str_rev s)).

(** ** What trimming guarantees *)

Lemma strip_Some p s r : strip p s = Some r → s = p +:+ r.
Proof.
  revert s. induction p as [|c p IH]; intros s H; cbn in *; [by injection H as ->|].
  destruct s as [|d s]; [done|]. destruct (Ascii.eqb_spec c d) as [->|]; [|done].
  by rewrite (IH s H).
Qed.
Lemma strip_space_Some runes s r :
  strip_space runes s = Some r → ∃ p, p ∈ runes ∧ s = p +:+ r.
Proof.
  unfold strip_space. induction runes as [|p runes IH]; [done|]. cbn.
  destruct (strip p s) as [r'|] eqn:E; cbn.
  - intros [= ->]. exists p. split; [by left|by apply strip_Some].
  - intros H. destruct (IH H) as (q & Hq & ->). exists q. split; [by right|done].
Qed.
Lemma trim_front_done runes fuel s :
  Forall (λ r, r ≠ "") runes → (String.length s ≤ fuel)%nat →
  strip_space runes (trim_front fuel runes s) = None.
Proof.
  intros Hr. revert s. induction fuel as [|f IH]; intros s Hf; cbn.
  - destruct s; [|cbn in Hf; lia]. destruct (strip_space runes "") eqn:E; [|done].
    apply strip_space_Some in E as (p & Hp & E). rewrite Forall_forall in Hr. specialize (Hr p Hp).
    destruct p; [done|done].
  - destruct (strip_space runes s) as [s'|] eqn:E; [|done]. apply IH.
    apply strip_space_Some in E as (p & Hp & ->). rewrite Forall_forall in Hr. specialize (Hr p Hp).
    rewrite length_append in Hf. destruct p; [done|]. cbn in Hf. lia.
Qed.
Lemma trim_front_same runes fuel s : strip_space runes s = None → trim_front fuel runes s = s.
Proof. intros H. destruct fuel; cbn; by rewrite ?H. Qed.

(** Printable ASCII has nothing to trim. *)
Definition word_char (c : ascii) : bool := (33 <=? nat_of_ascii c)%nat && (nat_of_ascii c <=? 126)%nat.
Lemma strip_space_word runes s :
  forallb (λ r, match r with String c _ => negb (word_char c) | EmptyString => false end) runes = true →
  str_all word_char s = true → strip_space runes s = None.
Proof.
  intros Hr Hs. unfold strip_space. induction runes as [|r runes IH]; [done|]. cbn in Hr |- *.
  apply andb_true_iff in Hr as [Hr Hrs]. destruct r as [|d r]; [done|].
  assert (strip (String d r) s = None) as ->; [|by apply IH].
  destruct s as [|c s]; [done|]. cbn in Hs |- *. destruct (Ascii.eqb_spec d c) as [->|]; [|done].
  apply andb_true_iff in Hs as [Hc _]. by rewrite Hc in Hr.
Qed.
Lemma str_rev_app_spec s acc : str_rev_app s acc = str_rev_app s "" +:+ acc.
Proof.
  revert acc. induction s as [|c s IH]; intros acc; cbn; [done|]. rewrite IH, (IH (String c "")), append_assoc. done.
Qed.
Lemma str_rev_snoc s c : str_rev (s +:+ String c "") = String c (str_rev s).
Proof.
  unfold str_rev. induction s as [|d s IH]; cbn; [done|].
  by rewrite str_rev_app_spec, IH, (str_rev_app_spec s (String d "")).
Qed.
Lemma str_rev_cons c s : str_rev (String c s) = str_rev s +:+ String c "".
Proof. unfold str_rev. cbn. apply str_rev_app_spec. Qed.
Lemma str_rev_involutive s : str_rev (str_rev s) = s.
Proof. induction s as [|c s IH]; [done|]. by rewrite str_rev_cons, str_rev_snoc, IH. Qed.
Lemma str_all_rev p s : str_all p (str_rev s) = str_all p s.
Proof.
  induction s as [|c s IH]; [done|]. rewrite str_rev_cons, str_all_append, IH. cbn. rewrite andb_true_r.
  apply andb_comm.
Qed.
Lemma TrimSpace_word s : str_all word_char s = true → TrimSpace s = s.
Proof.
  intros H. unfold TrimSpace, TrimLeft.
  rewrite (trim_front_same space_runes) by (by apply strip_space_word; [vm_compute|]).
  rewrite trim_front_same by (apply strip_space_word; [vm_compute; done|by rewrite str_all_rev]).
  apply str_rev_involutive.
Qed.

Example TrimSpace_example :
  TrimSpace (bytes [32; 9; 226; 128; 168]%nat +:+ "Le Coucou" +:+ bytes [194; 160; 10]%nat) = "Le Coucou".
Proof. vm_compute. reflexivity. Qed.
Example Fields_example : Fields "  a  bc d " = ["a"; "bc"; "d"].
Proof. vm_compute. reflexivity. Qed.
