(* ===== verification/GoTime.v ===== *)
(** * Package [time], as the program uses it

    The proleptic Gregorian calendar, instants with a location,
    [time.Date] and its zone search, [AddDate], saturating [Sub], and the
    layouts the program formats and parses.  This file models the Go
    standard library; the program's own [domain.Date] and
    [domain.WallTime] follow in [Types.v].

    Instants are nanoseconds since the Unix epoch, unbounded: Go's
    [time.Time] spans 292 billion years, so no operation of the program
    wraps.  [Duration] is the 64-bit one, and [Sub] saturates to it. *)

From S2P Require Import Prelude.
From Stdlib Require Import Ascii SpecFloat.

(** ** Calendar *)

Definition leap (y : Z) : bool :=
  (y mod 4 =? 0) && (negb (y mod 100 =? 0) || (y mod 400 =? 0)).
Definition days_in (y m : Z) : Z :=
  if m =? 2 then (if leap y then 29 else 28)
  else if (m =? 4) || (m =? 6) || (m =? 9) || (m =? 11) then 30 else 31.
Definition days_before_month (y m : Z) : Z :=
  (nth (Z.to_nat (m - 1)) [0; 31; 59; 90; 120; 151; 181; 212; 243; 273; 304; 334] 0)
  + (if leap y && (2 <? m) then 1 else 0).
(** Days from 0001-01-01 to the first day of year [y]. *)
Definition days_before_year (y : Z) : Z :=
  let p := y - 1 in 365 * p + p / 4 - p / 100 + p / 400.
(** Days from 0001-01-01; 719162 of them precede 1970-01-01. *)
Definition abs_days (y m d : Z) : Z :=
  days_before_year y + days_before_month y m + (d - 1).
Definition epoch_days : Z := 719162.
Definition days_of_civil (y m d : Z) : Z := abs_days y m d - epoch_days.

Definition month_of_yday (y yday : Z) : Z :=
  match List.find (λ m, days_before_month y m <=? yday)
          [12; 11; 10; 9; 8; 7; 6; 5; 4; 3; 2; 1] with
  | Some m => m
  | None => 1
  end.
Definition civil_of_abs (z : Z) : Z * Z * Z :=
  let n400 := z / 146097 in
  let r := z mod 146097 in
  let n100 := Z.min 3 (r / 36524) in
  let r1 := r - n100 * 36524 in
  let n4 := r1 / 1461 in
  let r2 := r1 - n4 * 1461 in
  let n1 := Z.min 3 (r2 / 365) in
  let yday := r2 - n1 * 365 in
  let yc := 100 * n100 + 4 * n4 + n1 + 1 in
  let m := month_of_yday yc yday in
  (400 * n400 + yc, m, yday - days_before_month yc m + 1).
Definition civil_of_days (z : Z) : Z * Z * Z := civil_of_abs (z + epoch_days).

Definition valid_civil (y m d : Z) : bool :=
  (1 <=? m) && (m <=? 12) && (1 <=? d) && (d <=? days_in y m).

(** *** The two round trips

    The year part is linear arithmetic over [/]; the month part is the
    same for every year of a given length, and is checked by evaluation
    on a leap and a common year. *)
Ltac dm := unfold leap in *; Z.div_mod_to_equations; lia.

Lemma days_before_year_succ y :
  days_before_year (y + 1) = days_before_year y + (if leap y then 366 else 365).
Proof.
  unfold days_before_year, leap. replace (y + 1 - 1) with y by lia.
  destruct (y mod 4 =? 0) eqn:E4, (y mod 100 =? 0) eqn:E100, (y mod 400 =? 0) eqn:E400;
    simpl; zb; Z.div_mod_to_equations; lia.
Qed.

Lemma days_before_year_mono y y' :
  y < y' → days_before_year (y + 1) ≤ days_before_year y'.
Proof. unfold days_before_year. Z.div_mod_to_equations; lia. Qed.

(** The month table depends on the year's length only. *)
Definition month_starts (b : bool) (m : Z) : Z :=
  (nth (Z.to_nat (m - 1)) [0; 31; 59; 90; 120; 151; 181; 212; 243; 273; 304; 334] 0)
  + (if b && (2 <? m) then 1 else 0).
Definition month_len (b : bool) (m : Z) : Z :=
  if m =? 2 then (if b then 29 else 28)
  else if (m =? 4) || (m =? 6) || (m =? 9) || (m =? 11) then 30 else 31.
Definition month_find (b : bool) (yday : Z) : Z :=
  match List.find (λ m, month_starts b m <=? yday)
          [12; 11; 10; 9; 8; 7; 6; 5; 4; 3; 2; 1] with
  | Some m => m
  | None => 1
  end.
Definition month_check (b : bool) (yday : Z) : bool :=
  let m := month_find b yday in
  let d := yday - month_starts b m + 1 in
  (1 <=? m) && (m <=? 12) && (1 <=? d) && (d <=? month_len b m).
Definition month_check_inv (b : bool) (i : Z) : bool :=
  let m := i / 31 + 1 in
  let d := i mod 31 + 1 in
  negb (d <=? month_len b m) ||
  ((month_find b (month_starts b m + (d - 1)) =? m)
   && (month_starts b m + (d - 1) <? (if b then 366 else 365))).

Lemma month_checked (b : bool) : all_below (if b then 366 else 365) (month_check b) = true.
Proof. destruct b; vm_compute; reflexivity. Qed.
Lemma month_checked_inv b : all_below 372 (month_check_inv b) = true.
Proof. destruct b; vm_compute; reflexivity. Qed.

Lemma month_of_yday_ok y yday :
  0 ≤ yday < (if leap y then 366 else 365) →
  valid_civil y (month_of_yday y yday)
    (yday - days_before_month y (month_of_yday y yday) + 1) = true.
Proof.
  intros H. pose proof (month_checked (leap y)) as Hc.
  apply (all_below_spec _ _ Hc) in H. exact H.
Qed.

Lemma valid_civil_bounds y m d :
  valid_civil y m d = true → 1 ≤ m ≤ 12 ∧ 1 ≤ d ≤ 31 ∧ d ≤ days_in y m.
Proof.
  unfold valid_civil. intros Hv. zb. split_all; try lia.
  unfold days_in in *. repeat case_match; lia.
Qed.

Lemma month_of_yday_inv y m d :
  valid_civil y m d = true →
  month_of_yday y (days_before_month y m + (d - 1)) = m ∧
  0 ≤ days_before_month y m + (d - 1) < (if leap y then 366 else 365).
Proof.
  intros (Hm & Hd & Hl)%valid_civil_bounds.
  assert (Hi : 0 ≤ (m - 1) * 31 + (d - 1) < 372) by lia.
  apply (all_below_spec _ _ (month_checked_inv (leap y))) in Hi.
  unfold month_check_inv in Hi.
  assert (E1 : ((m - 1) * 31 + (d - 1)) / 31 = m - 1) by (Z.div_mod_to_equations; lia).
  assert (E2 : ((m - 1) * 31 + (d - 1)) mod 31 = d - 1) by (Z.div_mod_to_equations; lia).
  rewrite E1, E2 in Hi. replace (m - 1 + 1) with m in Hi by lia.
  replace (d - 1 + 1) with d in Hi by lia.
  assert (Hs : 0 ≤ days_before_month y m).
  { unfold days_before_month. assert (Hn : 0 ≤ m - 1) by lia.
    destruct (Z.to_nat (m - 1)) as [|[|[|[|[|[|[|[|[|[|[|[|]]]]]]]]]]]]; simpl;
      repeat case_match; lia. }
  apply orb_true_iff in Hi as [Hi|Hi]; zb.
  - exfalso. assert (month_len (leap y) m = days_in y m) as Hml by reflexivity.
    rewrite Hml in *. lia.
  - split; [assumption|]. split; [lia|assumption].
Qed.

(** A day number determines its year. *)
Lemma abs_days_year_bounds y m d :
  valid_civil y m d = true →
  days_before_year y ≤ abs_days y m d < days_before_year (y + 1).
Proof.
  intros H. apply month_of_yday_inv in H as [_ H].
  rewrite days_before_year_succ. unfold abs_days. lia.
Qed.

Lemma abs_days_inj y m d y' m' d' :
  valid_civil y m d = true → valid_civil y' m' d' = true →
  abs_days y m d = abs_days y' m' d' → (y, m, d) = (y', m', d').
Proof.
  intros Hv Hv' E.
  pose proof (abs_days_year_bounds _ _ _ Hv) as B.
  pose proof (abs_days_year_bounds _ _ _ Hv') as B'.
  assert (y = y') as <-.
  { destruct (Z.lt_trichotomy y y') as [L|[L|L]]; [|done|];
      apply days_before_year_mono in L; lia. }
  apply month_of_yday_inv in Hv as [Hm _], Hv' as [Hm' _].
  unfold abs_days in E.
  assert (E' : days_before_month y m + (d - 1) = days_before_month y m' + (d' - 1)) by lia.
  rewrite E' in Hm. assert (m = m') as <- by congruence.
  repeat f_equal; lia.
Qed.

Lemma cycle_decomp r a b c yday :
  0 ≤ r < 146097 →
  a = Z.min 3 (r / 36524) → b = (r - a * 36524) / 1461 →
  c = Z.min 3 ((r - a * 36524 - b * 1461) / 365) →
  yday = r - a * 36524 - b * 1461 - c * 365 →
  0 ≤ a ≤ 3 ∧ 0 ≤ b ≤ 24 ∧ 0 ≤ c ≤ 3 ∧ 0 ≤ yday ≤ 365 ∧
  (yday = 365 → c = 3 ∧ (b < 24 ∨ a = 3)).
Proof.
  intros Hr Ha Hb Hc Hy.
  assert (H1 : 0 ≤ a ≤ 3 ∧ 0 ≤ r - a * 36524 ≤ 36524 ∧
               (a < 3 → r - a * 36524 < 36524)) by (clear - Hr Ha; Z.div_mod_to_equations; lia).
  clear Ha. set (r1 := r - a * 36524) in *. clearbody r1.
  assert (H2 : 0 ≤ b ≤ 24 ∧ 0 ≤ r1 - b * 1461 < 1461 ∧ (b = 24 → a < 3 → r1 - b * 1461 < 1460))
    by (clear - H1 Hb; Z.div_mod_to_equations; lia).
  clear Hb. set (r2 := r1 - b * 1461) in *. clearbody r2.
  clear - H1 H2 Hc Hy. Z.div_mod_to_equations; lia.
Qed.

Lemma cycle_leap a b k :
  0 ≤ a ≤ 3 → 0 ≤ b ≤ 24 → (b < 24 ∨ a = 3) →
  leap (400 * k + (100 * a + 4 * b + 3 + 1)) = true.
Proof.
  intros Ha Hb Hab. set (y := 400 * k + (100 * a + 4 * b + 3 + 1)).
  assert (E4 : y mod 4 = 0) by (subst y; Z.div_mod_to_equations; lia).
  assert (E : y mod 100 ≠ 0 ∨ y mod 400 = 0) by (subst y; Z.div_mod_to_equations; lia).
  unfold leap. apply andb_true_iff; split; [by apply Z.eqb_eq|].
  apply orb_true_iff. destruct E as [E|E]; [left|right].
  - by apply negb_true_iff, Z.eqb_neq.
  - by apply Z.eqb_eq.
Qed.

Lemma cycle_days a b c k :
  0 ≤ a ≤ 3 → 0 ≤ b ≤ 24 → 0 ≤ c ≤ 3 →
  days_before_year (400 * k + (100 * a + 4 * b + c + 1)) =
  146097 * k + 36524 * a + 1461 * b + 365 * c.
Proof.
  intros. unfold days_before_year.
  set (p := 400 * k + (100 * a + 4 * b + c + 1) - 1).
  assert (E4 : p / 4 = 100 * k + 25 * a + b) by (subst p; Z.div_mod_to_equations; lia).
  assert (E100 : p / 100 = 4 * k + a) by (subst p; Z.div_mod_to_equations; lia).
  assert (E400 : p / 400 = k) by (subst p; Z.div_mod_to_equations; lia).
  cbv zeta. rewrite E4, E100, E400. subst p. lia.
Qed.

Lemma leap_period y k : leap (400 * k + y) = leap y.
Proof.
  unfold leap.
  replace ((400 * k + y) mod 4) with (y mod 4) by (Z.div_mod_to_equations; lia).
  replace ((400 * k + y) mod 100) with (y mod 100) by (Z.div_mod_to_equations; lia).
  replace ((400 * k + y) mod 400) with (y mod 400) by (Z.div_mod_to_equations; lia).
  done.
Qed.

Lemma civil_of_abs_ok z y m d :
  civil_of_abs z = (y, m, d) → abs_days y m d = z ∧ valid_civil y m d = true.
Proof.
  unfold civil_of_abs. cbv zeta.
  pose proof (Z.mod_pos_bound z 146097 ltac:(lia)) as Hr.
  pose proof (Z.div_mod z 146097 ltac:(lia)) as Hz.
  pose proof (cycle_decomp (z mod 146097) _ _ _ _ Hr eq_refl eq_refl eq_refl eq_refl)
    as (Ha & Hb & Hc & Hy & Hl).
  set (r := z mod 146097) in *. set (k := z / 146097) in *.
  set (a := Z.min 3 (r / 36524)) in *. set (b := (r - a * 36524) / 1461) in *.
  set (c := Z.min 3 ((r - a * 36524 - b * 1461) / 365)) in *.
  set (yday := r - a * 36524 - b * 1461 - c * 365) in *.
  set (yc := 100 * a + 4 * b + c + 1) in *.
  assert (Hm : 0 ≤ yday < (if leap yc then 366 else 365)).
  { destruct (decide (yday = 365)) as [E|]; [|destruct (leap yc); lia].
    apply Hl in E as [Ec Eab]. pose proof (cycle_leap a b 0 Ha Hb Eab) as L.
    replace (400 * 0 + (100 * a + 4 * b + 3 + 1)) with yc in L by (subst yc; lia).
    rewrite L. lia. }
  apply month_of_yday_ok in Hm. intros [= <- <- <-].
  split.
  - unfold abs_days, days_before_month. rewrite leap_period.
    pose proof (cycle_days a b c k Ha Hb Hc) as Hd. fold yc in Hd. rewrite Hd.
    change (yday - days_before_month yc (month_of_yday yc yday) + 1 - 1)
      with (yday - (nth (Z.to_nat (month_of_yday yc yday - 1)) [0; 31; 59; 90; 120; 151; 181; 212; 243; 273; 304; 334] 0 + (if leap yc && (2 <? month_of_yday yc yday) then 1 else 0)) + 1 - 1).
    subst yday. lia.
  - unfold valid_civil, days_in in *. by rewrite leap_period.
Qed.

Lemma civil_of_abs_days y m d :
  valid_civil y m d = true → civil_of_abs (abs_days y m d) = (y, m, d).
Proof.
  intros Hv. destruct (civil_of_abs (abs_days y m d)) as [[y' m'] d'] eqn:E.
  apply civil_of_abs_ok in E as [E Hv']. by apply abs_days_inj.
Qed.

Lemma civil_of_days_of_civil y m d :
  valid_civil y m d = true → civil_of_days (days_of_civil y m d) = (y, m, d).
Proof.
  intros H. unfold civil_of_days, days_of_civil.
  replace (abs_days y m d - epoch_days + epoch_days) with (abs_days y m d) by lia.
  by apply civil_of_abs_days.
Qed.

Lemma days_of_civil_of_days z y m d :
  civil_of_days z = (y, m, d) → days_of_civil y m d = z ∧ valid_civil y m d = true.
Proof. intros H. apply civil_of_abs_ok in H as [H ?]. unfold days_of_civil. split; [lia|done]. Qed.

(** ** Locations

    A [*time.Location] is its name, the offset in force before the first
    transition, and the transitions in order: from [when] (Unix seconds)
    on, the zone's offset east of UTC is [off] seconds.  The open-ended
    rule a tzdata file carries for far-future years is expanded into
    transitions as far as a client of the model needs. *)
Record Location := mkLocation {
  loc_name : string;
  loc_base : Z;
  loc_tx : list (Z * Z)
}.
Definition UTC : Location := mkLocation "UTC" 0 [].

Definition alpha : Z := - 2 ^ 63.
Definition omega : Z := 2 ^ 63 - 1.

(** [Location.lookup]: the offset at [sec] and the half-open interval it
    is in force. *)
Fixpoint lookup_go (off start : Z) (tx : list (Z * Z)) (sec : Z) : Z * Z * Z :=
  match tx with
  | [] => (off, start, omega)
  | (w, o) :: tx' => if sec <? w then (off, start, w) else lookup_go o w tx' sec
  end.
Definition lookup_zone (l : Location) (sec : Z) : Z * Z * Z :=
  lookup_go (loc_base l) alpha (loc_tx l) sec.
Definition offset_at (l : Location) (sec : Z) : Z := (lookup_zone l sec).1.1.

(** ** Instants *)

Record Time := mkTime { t_ns : Z; t_loc : Location }.

Definition second : Z := 1000000000.
Definition minute : Z := 60 * second.
Definition hour : Z := 60 * minute.

(** Float64 arithmetic, rounded to the nearest. *)
Definition float_of (z : Z) : spec_float := binary_normalize 53 1024 z 0 false.
Definition float_div (a b : spec_float) : spec_float := SFdiv 53 1024 a b.
(** [int(f)]; of no float that is not finite. *)
Definition float_trunc (f : spec_float) : Z :=
  match f with
  | S754_finite s m e =>
      let a := if 0 <=? e then Z.pos m * 2 ^ e else Z.pos m / 2 ^ (- e) in
      if s then - a else a
  | _ => 0
  end.
(** [Duration.Hours]. *)
Definition duration_Hours (d : Z) : spec_float :=
  SFadd 53 1024 (float_of (Z.quot d hour)) (float_div (float_of (Z.rem d hour)) (float_of hour)).
(** Just below a whole hour the sum may round up to it. *)
Example hours_example :
  map (λ d, float_trunc (duration_Hours d)) [- 90 * minute; 9600 * hour - 1; 2 * hour - 1000] = [-1; 9600; 1].
Proof. vm_compute. reflexivity. Qed.
Definition millisecond : Z := 1000000.

Definition t_unix (t : Time) : Z := t_ns t / second.
(** [Time{}]: January 1, year 1, 00:00 UTC. *)
Definition zero_ns : Z := - 62135596800 * second.
Definition zero_time : Time := mkTime zero_ns UTC.
Definition is_zero_time (t : Time) : bool := t_ns t =? zero_ns.
Definition time_before (t u : Time) : bool := t_ns t <? t_ns u.
Definition time_after (t u : Time) : bool := t_ns u <? t_ns t.
Definition in_loc (t : Time) (l : Location) : Time := mkTime (t_ns t) l.
Definition to_utc (t : Time) : Time := in_loc t UTC.

Definition min_int64 : Z := - 2 ^ 63.
Definition max_int64 : Z := 2 ^ 63 - 1.
(** [t.Sub(u)] saturates at the ends of [Duration]. *)
Definition time_sub (t u : Time) : Z :=
  Z.max min_int64 (Z.min max_int64 (t_ns t - t_ns u)).
Definition time_add (t : Time) (d : Z) : Time := mkTime (t_ns t + d) (t_loc t).

(** Seconds since the epoch on the local clock face. *)
Definition local_secs (t : Time) : Z := t_unix t + offset_at (t_loc t) (t_unix t).
Definition t_date (t : Time) : Z * Z * Z := civil_of_days (local_secs t / 86400).
Definition t_year (t : Time) : Z := (t_date t).1.1.
Definition t_month (t : Time) : Z := (t_date t).1.2.
Definition t_day (t : Time) : Z := (t_date t).2.
Definition t_hour (t : Time) : Z := local_secs t mod 86400 / 3600.
Definition t_minute (t : Time) : Z := local_secs t mod 3600 / 60.
Definition t_second (t : Time) : Z := local_secs t mod 60.
Definition t_nsec (t : Time) : Z := t_ns t mod second.

(** [time.Date] normalises out-of-range fields (month 13 is next January,
    day 0 the last of the previous month), then searches the zone: look
    the offset up as if the clock face were UTC, and look it up again when
    the instant this gives falls outside the zone found. *)
Definition wall_secs (y mo d h mi s : Z) : Z :=
  (days_of_civil (y + (mo - 1) / 12) ((mo - 1) mod 12 + 1) 1 + (d - 1)) * 86400
  + h * 3600 + mi * 60 + s.
Definition zone_search (l : Location) (local : Z) : Z :=
  let '(off, st, en) := lookup_zone l local in
  if off =? 0 then local
  else
    let u := local - off in
    local - (if (u <? st) || (en <=? u) then offset_at l u else off).
Definition go_date (y mo d h mi s ns : Z) (l : Location) : Time :=
  mkTime (zone_search l (wall_secs y mo d h mi s) * second + ns) l.
Definition add_date (t : Time) (years months days : Z) : Time :=
  let '(y, m, d) := t_date t in
  go_date (y + years) (m + months) (d + days) (t_hour t) (t_minute t) (t_second t)
    (t_nsec t) (t_loc t).

(** *** The zone search

    Around the clock face [local], the zone changes at most once in the
    three days either side (no tzdata zone changes twice in a week), and
    the face is shown by some instant (it is not skipped by a transition).
    Then [zone_search] returns an instant that shows it. *)
Definition changes_once_near (l : Location) (local : Z) : Prop :=
  ∃ T o1 o2, Z.abs o1 ≤ 86400 ∧ Z.abs o2 ≤ 86400 ∧
    ∀ u, local - 259200 ≤ u ≤ local + 259200 → offset_at l u = if u <? T then o1 else o2.
Definition shown (l : Location) (local : Z) : Prop :=
  ∃ u, u + offset_at l u = local ∧ local - 259200 ≤ u ≤ local + 259200.

Fixpoint tx_sorted (start : Z) (tx : list (Z * Z)) : Prop :=
  match tx with
  | [] => True
  | (w, _) :: tx' => start ≤ w ∧ tx_sorted w tx'
  end.
Definition loc_sorted (l : Location) : Prop := tx_sorted alpha (loc_tx l).

Lemma lookup_go_start off start tx sec o st en :
  lookup_go off start tx sec = (o, st, en) → tx_sorted start tx → start ≤ st.
Proof.
  revert off start; induction tx as [|[w o'] tx IH]; intros off start H Hs; simpl in *.
  - injection H as <- <- <-. lia.
  - destruct (sec <? w); [injection H as <- <- <-; lia|].
    destruct Hs as [Hw Hs]. specialize (IH _ _ H Hs). lia.
Qed.

Lemma lookup_go_interval off start tx sec o st en u :
  lookup_go off start tx sec = (o, st, en) → tx_sorted start tx →
  st ≤ u < en → (lookup_go off start tx u).1.1 = o.
Proof.
  revert off start; induction tx as [|[w o'] tx IH]; intros off start H Hs Hu; simpl in *.
  - by injection H as <- <- <-.
  - destruct Hs as [Hw Hs]. destruct (sec <? w) eqn:E.
    + injection H as <- <- <-. destruct (u <? w) eqn:E'; zb; [done|lia].
    + pose proof (lookup_go_start _ _ _ _ _ _ _ H Hs).
      destruct (u <? w) eqn:E'; zb; [lia|]. by eapply IH.
Qed.

Lemma zone_search_shows l local :
  loc_sorted l → changes_once_near l local → shown l local →
  zone_search l local + offset_at l (zone_search l local) = local.
Proof.
  intros Hs (T & o1 & o2 & B1 & B2 & HT) (v & Hv & Bv).
  assert (Hoff : offset_at l local = if local <? T then o1 else o2) by (apply HT; lia).
  unfold zone_search.
  destruct (lookup_zone l local) as [[off st] en] eqn:EL.
  assert (E0 : offset_at l local = off) by (unfold offset_at; by rewrite EL).
  destruct (off =? 0) eqn:Ez; zb; [lia|].
  destruct ((local - off <? st) || (en <=? local - off)) eqn:Ei.
  - rewrite HT in Hv by lia.
    assert (Bo : Z.abs off ≤ 86400) by (destruct (local <? T); lia).
    assert (B' : Z.abs (offset_at l (local - off)) ≤ 86400)
      by (rewrite HT by lia; destruct (local - off <? T); lia).
    rewrite (HT (local - offset_at l (local - off))) by lia.
    rewrite (HT (local - off)) in * by lia.
    destruct (local <? T) eqn:E1; destruct (v <? T) eqn:E2;
      destruct (local - off <? T) eqn:E3; try lia;
      match goal with |- context [if ?b then _ else _] => destruct b eqn:? end; zb; lia.
  - zb. assert (offset_at l (local - off) = off) as ->.
    { unfold offset_at, lookup_zone. eapply lookup_go_interval; [exact EL|exact Hs|lia]. }
    lia.
Qed.

(** A zone with no transition: every clock face is shown, at a fixed offset. *)
Definition fixed_zone (name : string) (off : Z) : Location := mkLocation name off [].

Lemma offset_at_fixed n off u : offset_at (fixed_zone n off) u = off.
Proof. done. Qed.

Lemma offset_at_utc u : offset_at UTC u = 0.
Proof. done. Qed.

Lemma fixed_zone_changes_once n off local :
  Z.abs off ≤ 86400 → changes_once_near (fixed_zone n off) local.
Proof. intros H. exists local, off, off. split_all; [lia|lia|]. intros. case_match; done. Qed.

Lemma fixed_zone_shown n off local :
  Z.abs off ≤ 86400 → shown (fixed_zone n off) local.
Proof. intros H. exists (local - off). rewrite offset_at_fixed. lia. Qed.

(** *** Reading back what [time.Date] composed *)

Definition valid_clock (h mi s : Z) : bool :=
  (0 <=? h) && (h <? 24) && (0 <=? mi) && (mi <? 60) && (0 <=? s) && (s <? 60).

Lemma days_of_civil_first y m d :
  days_of_civil y m 1 + (d - 1) = days_of_civil y m d.
Proof. unfold days_of_civil, abs_days. lia. Qed.

Lemma wall_secs_valid y m d h mi s :
  valid_civil y m d = true →
  wall_secs y m d h mi s = days_of_civil y m d * 86400 + h * 3600 + mi * 60 + s.
Proof.
  intros (Hm & _ & _)%valid_civil_bounds. unfold wall_secs.
  replace ((m - 1) / 12) with 0 by (Z.div_mod_to_equations; lia).
  replace ((m - 1) mod 12 + 1) with m by (Z.div_mod_to_equations; lia).
  replace (y + 0) with y by lia. rewrite days_of_civil_first. done.
Qed.

Lemma t_unix_go_date y m d h mi s ns l :
  0 ≤ ns < second → t_unix (go_date y m d h mi s ns l) = zone_search l (wall_secs y m d h mi s).
Proof. intros H. unfold t_unix, go_date; simpl. unfold second in *. Z.div_mod_to_equations; lia. Qed.

(** The instant [time.Date] returns shows exactly the clock face asked
    for, whenever that face exists. *)
Lemma go_date_fields y m d h mi s l :
  valid_civil y m d = true → valid_clock h mi s = true →
  zone_search l (wall_secs y m d h mi s)
    + offset_at l (zone_search l (wall_secs y m d h mi s)) = wall_secs y m d h mi s →
  let t := go_date y m d h mi s 0 l in
  t_date t = (y, m, d) ∧ t_hour t = h ∧ t_minute t = mi ∧ t_second t = s.
Proof.
  intros Hv Hc Hz t. unfold valid_clock in Hc. zb.
  assert (E : local_secs t = wall_secs y m d h mi s).
  { unfold local_secs, t. rewrite t_unix_go_date by (unfold second; lia). exact Hz. }
  unfold t_date, t_hour, t_minute, t_second. rewrite E, wall_secs_valid by done.
  set (D := days_of_civil y m d).
  assert (E1 : (D * 86400 + h * 3600 + mi * 60 + s) / 86400 = D) by (Z.div_mod_to_equations; lia).
  assert (E2 : (D * 86400 + h * 3600 + mi * 60 + s) mod 86400 = h * 3600 + mi * 60 + s)
    by (Z.div_mod_to_equations; lia).
  rewrite E1, E2. split_all.
  - by apply civil_of_days_of_civil.
  - Z.div_mod_to_equations; lia.
  - clear E1 E2 E. Z.div_mod_to_equations; lia.
  - clear E1 E2 E. Z.div_mod_to_equations; lia.
Qed.
