(* ===== verification/GoFormat.v ===== *)
(** * Layouts: formatting and parsing times

    The layouts the program uses with [time.Format] and [time.Parse]:
    [2006-01-02], [15:04:05], [15:04], RFC 3339 with and without
    nanoseconds, and the millisecond layout of the idempotency table; with
    the round trip of the two that are persisted. *)

From S2P Require Import Prelude GoTime.
From Stdlib Require Import Ascii.

(** ** Formatting (in UTC) *)

(** [time]'s zero-padded integer: the sign does not count in the width. *)
Definition append_int (w : nat) (z : Z) : string :=
  if z <? 0 then "-" +:+ digits (Nat.max w (ndigits (- z))) (- z)
  else digits (Nat.max w (ndigits z)) z.

Definition utc (ns : Z) : Time := mkTime ns UTC.
Definition fmt_utc_date (ns : Z) : string :=
  append_int 4 (t_year (utc ns)) +:+ "-" +:+ append_int 2 (t_month (utc ns)) +:+ "-"
  +:+ append_int 2 (t_day (utc ns)).
Definition fmt_utc_clock (ns : Z) : string :=
  append_int 2 (t_hour (utc ns)) +:+ ":" +:+ append_int 2 (t_minute (utc ns)) +:+ ":"
  +:+ append_int 2 (t_second (utc ns)).
(** The fraction without its trailing zeros: digits until nothing is left. *)
Fixpoint frac_digits (n : nat) (z : Z) : string :=
  match n with
  | O => ""
  | S n' =>
      if z =? 0 then ""
      else String (digit (z / 10 ^ Z.of_nat n')) (frac_digits n' (z mod 10 ^ Z.of_nat n'))
  end.
Definition fmt_frac (nsec : Z) : string :=
  if nsec =? 0 then "" else "." +:+ frac_digits 9 nsec.
(** [t.UTC().Format(time.RFC3339Nano)], [... RFC3339] and
    [... "2006-01-02T15:04:05.000Z"]. *)
Definition fmt_rfc3339nano (ns : Z) : string :=
  fmt_utc_date ns +:+ "T" +:+ fmt_utc_clock ns +:+ fmt_frac (t_nsec (utc ns)) +:+ "Z".
Definition fmt_rfc3339 (ns : Z) : string :=
  fmt_utc_date ns +:+ "T" +:+ fmt_utc_clock ns +:+ "Z".
Definition fmt_millis (ns : Z) : string :=
  fmt_utc_date ns +:+ "T" +:+ fmt_utc_clock ns +:+ "."
  +:+ digits 3 (t_nsec (utc ns) / millisecond) +:+ "Z".

(** [t.Format(time.RFC3339Nano)] in the time's own location: the clock face
    there, then Z or the offset in hours and minutes. *)
Definition zone_offset (t : Time) : Z := offset_at (t_loc t) (t_unix t).
Definition face_ns (t : Time) : Z := t_ns t + zone_offset t * second.
Definition fmt_zone (off : Z) : string :=
  if off =? 0 then "Z"
  else
    let z := Z.quot off 60 in
    (if z <? 0 then "-" else "+") +:+ append_int 2 (Z.quot (Z.abs z) 60) +:+ ":"
    +:+ append_int 2 (Z.rem (Z.abs z) 60).
Definition fmt_rfc3339nano_in (t : Time) : string :=
  fmt_utc_date (face_ns t) +:+ "T" +:+ fmt_utc_clock (face_ns t)
  +:+ fmt_frac (t_nsec (utc (face_ns t))) +:+ fmt_zone (zone_offset t).

(** ** Parsing *)

Fixpoint take_num_go (n : nat) (acc : Z) (s : string) : option (Z * string) :=
  match n with
  | O => Some (acc, s)
  | S n' =>
      match s with
      | String c s' => d ← digit_val c; take_num_go n' (acc * 10 + d) s'
      | EmptyString => None
      end
  end.
(** A number of exactly [n] digits ([getnum] with [fixed]). *)
Definition take_num (n : nat) (s : string) : option (Z * string) := take_num_go n 0 s.
(** One or two digits ([getnum] without [fixed]). *)
Definition take_num12 (s : string) : option (Z * string) :=
  match take_num 2 s with Some r => Some r | None => take_num 1 s end.
Definition expect (c : ascii) (s : string) : option string :=
  match s with
  | String c' s' => if bool_decide (c = c') then Some s' else None
  | EmptyString => None
  end.
Definition in_range (lo hi z : Z) : option unit :=
  if (lo <=? z) && (z <? hi) then Some tt else None.
(** Up to [n] significant fraction digits; further ones are dropped. *)
Fixpoint take_frac (n : nat) (s : string) : Z * string :=
  match s with
  | String c s' =>
      match digit_val c with
      | Some d =>
          match n with
          | O => take_frac O s'
          | S n' => let '(v, r) := take_frac n' s' in (d * 10 ^ Z.of_nat n' + v, r)
          end
      | None => (0, s)
      end
  | EmptyString => (0, s)
  end.
(** A fraction after the seconds is read whether or not the layout has one. *)
Definition take_opt_frac (s : string) : Z * string :=
  match s with
  | String c (String c' _ as s') =>
      if (bool_decide (c = "."%char) || bool_decide (c = ","%char)) && is_digit c'
      then take_frac 9 s' else (0, s)
  | _ => (0, s)
  end.
Definition at_end {A} (a : A) (s : string) : option A :=
  match s with EmptyString => Some a | _ => None end.

Definition take_date (s : string) : option (Z * Z * Z * string) :=
  '(y, s) ← take_num 4 s; s ← expect "-" s;
  '(m, s) ← take_num 2 s; _ ← in_range 1 13 m; s ← expect "-" s;
  '(d, s) ← take_num 2 s; Some (y, m, d, s).
Definition take_hm (s : string) : option (Z * Z * string) :=
  '(h, s) ← take_num12 s; _ ← in_range 0 24 h; s ← expect ":" s;
  '(mi, s) ← take_num 2 s; _ ← in_range 0 60 mi; Some (h, mi, s).
Definition take_hms (s : string) : option (Z * Z * Z * Z * string) :=
  '(h, mi, s) ← take_hm s; s ← expect ":" s;
  '(sec, s) ← take_num 2 s; _ ← in_range 0 60 sec;
  let '(ns, s) := take_opt_frac s in Some (h, mi, sec, ns, s).

(** [time.Parse("2006-01-02", s)], [("15:04:05", s)], [("15:04", s)]. *)
Definition parse_ymd (s : string) : option (Z * Z * Z) :=
  '(y, m, d, s) ← take_date s;
  if valid_civil y m d then at_end (y, m, d) s else None.
Definition parse_hms (s : string) : option (Z * Z * Z) :=
  '(h, mi, sec, _, s) ← take_hms s; at_end (h, mi, sec) s.
Definition parse_hm (s : string) : option (Z * Z * Z) :=
  '(h, mi, s) ← take_hm s; at_end (h, mi, 0) s.

Definition take_zone (s : string) : option (Z * string) :=
  match s with
  | String "Z" s' => Some (0, s')
  | String c s' =>
      if bool_decide (c = "+"%char) || bool_decide (c = "-"%char) then
        '(h, s') ← take_num 2 s'; s' ← expect ":" s'; '(m, s') ← take_num 2 s';
        _ ← in_range 0 25 h; _ ← in_range 0 60 m;
        let off := h * 3600 + m * 60 in
        Some (if bool_decide (c = "-"%char) then - off else off, s')
      else None
  | EmptyString => None
  end.
Definition parse_rfc3339nano (s : string) : option Time :=
  '(y, m, d, s) ← take_date s;
  s ← expect "T" s;
  '(h, mi, sec, ns, s) ← take_hms s;
  '(off, s) ← take_zone s;
  if valid_civil y m d then
    at_end (mkTime (t_ns (go_date y m d h mi sec ns UTC) - off * second)
              (if off =? 0 then UTC else fixed_zone "" off)) s
  else None.

(** ** Reading back what was printed *)

(** Years the layouts print in four digits. *)
Definition four_digit_year (ns : Z) : Prop := 0 ≤ t_year (utc ns) < 10000.

Ltac width :=
  simpl;
  unfold four_digit_year in *;
  change (10 ^ Z.of_nat 4) with 10000; change (10 ^ Z.of_nat 2) with 100;
  first [lia | split; lia].


Lemma take_num_go_digits n acc z s :
  0 ≤ z < 10 ^ Z.of_nat n →
  take_num_go n acc (digits n z +:+ s) = Some (acc * 10 ^ Z.of_nat n + z, s).
Proof.
  intros Hz.
  assert (H : ∀ n a u r v, String.length u = n → read_digits a u = Some v →
                take_num_go n a (u +:+ r) = Some (v, r)).
  { clear. induction n as [|n IH]; intros a [|c u] r v Hl Hr; try done.
    - by injection Hr as ->.
    - simpl in *. destruct (digit_val c); [|done]. simpl. apply IH; [congruence|done]. }
  apply H; [apply length_digits|]. rewrite read_digits_digits by lia.
  by rewrite Z.mod_small.
Qed.

Lemma take_num_digits n z s :
  0 ≤ z < 10 ^ Z.of_nat n → take_num n (digits n z +:+ s) = Some (z, s).
Proof. apply take_num_go_digits. Qed.

Lemma take_num12_digits z s : 0 ≤ z < 100 → take_num12 (digits 2 z +:+ s) = Some (z, s).
Proof. intros. unfold take_num12. by rewrite take_num_digits by width. Qed.

Lemma expect_here c s : expect c (String c s) = Some s.
Proof. simpl. by rewrite bool_decide_eq_true_2. Qed.

Lemma in_range_ok lo hi z : lo ≤ z < hi → in_range lo hi z = Some tt.
Proof.
  intros. unfold in_range. destruct (lo <=? z) eqn:E1, (z <? hi) eqn:E2; zb; simpl; done || lia.
Qed.

Lemma append_int_fits w z :
  (1 ≤ w)%nat → 0 ≤ z < 10 ^ Z.of_nat w → append_int w z = digits w z.
Proof.
  intros Hw Hz. unfold append_int, ndigits.
  destruct (z <? 0) eqn:E; zb; [lia|].
  by rewrite Nat.max_l by (by apply ndigits_go_le).
Qed.

Lemma take_frac_digits n z c s :
  0 ≤ z < 10 ^ Z.of_nat n → digit_val c = None →
  take_frac n (frac_digits n z +:+ String c s) = (z, String c s).
Proof.
  intros Hz Hc. revert z Hz; induction n as [|n IH]; intros z Hz.
  - change (10 ^ Z.of_nat 0) with 1 in Hz. cbn [frac_digits String.append take_frac].
    rewrite Hc. f_equal. lia.
  - cbn [frac_digits]. destruct (z =? 0) eqn:E; zb.
    + cbn [String.append take_frac]. rewrite Hc. f_equal. lia.
    + rewrite Nat2Z.inj_succ, Z.pow_succ_r in Hz by lia.
      assert (Hp : 0 < 10 ^ Z.of_nat n) by (apply Z.pow_pos_nonneg; lia).
      set (p := 10 ^ Z.of_nat n) in *.
      cbn [String.append take_frac].
      rewrite digit_val_digit
        by (split; [apply Z.div_pos; lia|apply Z.div_lt_upper_bound; lia]).
      rewrite IH by (apply Z.mod_pos_bound; lia).
      fold p. f_equal. pose proof (Z.div_mod z p). lia.
Qed.

Definition ends_frac (s : string) : Prop :=
  match s with
  | String c _ => digit_val c = None ∧ c ≠ "."%char ∧ c ≠ ","%char
  | EmptyString => False
  end.

Lemma take_opt_frac_fmt ns s :
  0 ≤ ns < second → ends_frac s → take_opt_frac (fmt_frac ns +:+ s) = (ns, s).
Proof.
  intros Hns Hs. destruct s as [|c s]; [done|]. destruct Hs as (Hc & Hdot & Hcomma).
  unfold fmt_frac. destruct (ns =? 0) eqn:E; zb.
  { subst. cbn [String.append take_opt_frac]. destruct s as [|c' s]; [done|].
    by rewrite !bool_decide_eq_false_2. }
  assert (H9 : 0 ≤ ns < 10 ^ Z.of_nat 9) by exact Hns.
  pose proof (take_frac_digits 9 ns c s H9 Hc) as H.
  assert (Hd : is_digit (digit (ns / 10 ^ Z.of_nat 8)) = true).
  { apply is_digit_digit. unfold second in Hns. change (10 ^ Z.of_nat 8) with 100000000.
    Z.div_mod_to_equations; lia. }
  change (frac_digits 9 ns) with
    (if ns =? 0 then "" else String (digit (ns / 10 ^ Z.of_nat 8)) (frac_digits 8 (ns mod 10 ^ Z.of_nat 8))) in *.
  destruct (ns =? 0) eqn:E'; zb; [lia|].
  cbn [String.append] in *. cbn [take_opt_frac]. rewrite Hd. exact H.
Qed.

Lemma utc_fields ns :
  let t := utc ns in
  valid_civil (t_year t) (t_month t) (t_day t) = true ∧
  0 ≤ t_hour t < 24 ∧ 0 ≤ t_minute t < 60 ∧ 0 ≤ t_second t < 60 ∧ 0 ≤ t_nsec t < second ∧
  t_ns (go_date (t_year t) (t_month t) (t_day t) (t_hour t) (t_minute t) (t_second t)
          (t_nsec t) UTC) = ns.
Proof.
  intros t. unfold t_year, t_month, t_day.
  destruct (t_date t) as [[y m] d] eqn:E. simpl.
  apply days_of_civil_of_days in E as [E Hv].
  assert (El : local_secs t = ns / second) by
    (unfold local_secs; change (offset_at (t_loc t) (t_unix t)) with 0; apply Z.add_0_r).
  unfold t_hour, t_minute, t_second, t_nsec. rewrite El in *. simpl in *.
  assert (Hs : 0 < second) by (unfold second; lia).
  split_all; try done; try (Z.div_mod_to_equations; lia).
  rewrite wall_secs_valid, E by done. unfold zone_search, lookup_zone; simpl.
  pose proof (Z.div_mod ns second ltac:(lia)) as Hd.
  set (u := ns / second) in *. clearbody u.
  assert (H : u / 86400 * 86400 + u mod 86400 / 3600 * 3600 + u mod 3600 / 60 * 60 + u mod 60 = u)
    by (Z.div_mod_to_equations; lia).
  rewrite H. lia.
Qed.

Lemma take_date_fmt ns s :
  four_digit_year ns →
  take_date (fmt_utc_date ns +:+ s) = Some (t_year (utc ns), t_month (utc ns), t_day (utc ns), s).
Proof.
  intros Hy. destruct (utc_fields ns) as (Hv & _).
  apply valid_civil_bounds in Hv as (Hm & Hd & _).
  unfold fmt_utc_date. rewrite !append_int_fits by width.
  unfold take_date. rewrite ?append_assoc, take_num_digits by width.
  cbn [mbind option_bind String.append]. rewrite expect_here. cbn [mbind option_bind].
  rewrite ?append_assoc, take_num_digits by width. cbn [mbind option_bind String.append].
  rewrite in_range_ok by lia. cbn [mbind option_bind]. rewrite expect_here. cbn [mbind option_bind].
  rewrite take_num_digits by width. done.
Qed.

Lemma take_hms_fmt ns s :
  ends_frac s →
  take_hms (fmt_utc_clock ns +:+ fmt_frac (t_nsec (utc ns)) +:+ s)
  = Some (t_hour (utc ns), t_minute (utc ns), t_second (utc ns), t_nsec (utc ns), s).
Proof.
  intros Hends.
  destruct (utc_fields ns) as (_ & Hh & Hm & Hs & Hn & _).
  unfold fmt_utc_clock. rewrite !append_int_fits by width.
  unfold take_hms, take_hm. rewrite !append_assoc, take_num12_digits by lia.
  cbn [mbind option_bind String.append]. rewrite in_range_ok by lia.
  cbn [mbind option_bind]. rewrite expect_here. cbn [mbind option_bind].
  rewrite ?append_assoc, take_num_digits by width. cbn [mbind option_bind String.append].
  rewrite in_range_ok by lia. cbn [mbind option_bind]. rewrite expect_here. cbn [mbind option_bind].
  rewrite take_num_digits by width. cbn [mbind option_bind].
  rewrite in_range_ok by lia. cbn [mbind option_bind].
  by rewrite take_opt_frac_fmt.
Qed.

Lemma parse_fmt_rfc3339nano ns :
  four_digit_year ns → parse_rfc3339nano (fmt_rfc3339nano ns) = Some (utc ns).
Proof.
  intros Hy. destruct (utc_fields ns) as (Hv & _ & _ & _ & _ & Hns).
  unfold parse_rfc3339nano, fmt_rfc3339nano. rewrite take_date_fmt by done.
  cbn [mbind option_bind String.append]. rewrite expect_here. cbn [mbind option_bind].
  rewrite take_hms_fmt by done. cbn [mbind option_bind take_zone]. rewrite Hv.
  cbn [at_end]. rewrite Hns. do 2 f_equal. change (0 =? 0) with true. cbn iota.
  unfold utc. f_equal. lia.
Qed.

(** Offsets that print exactly: whole minutes, less than a day. *)
Definition whole_offset (off : Z) : Prop := off mod 60 = 0 ∧ Z.abs off < 86400.

Lemma ends_frac_zone off : ends_frac (fmt_zone off).
Proof. unfold fmt_zone. destruct (off =? 0); [done|]. by destruct (_ <? 0). Qed.

Lemma take_zone_fmt off : whole_offset off → take_zone (fmt_zone off) = Some (off, "").
Proof.
  intros [Hm Ha]. unfold fmt_zone. destruct (off =? 0) eqn:E0; zb; [by subst|].
  assert (Eq : off = 60 * (off / 60)) by (pose proof (Z.div_mod off 60); lia).
  set (z := off / 60) in *. clearbody z.
  replace (Z.quot off 60) with z by (rewrite Eq, Z.mul_comm, Z.quot_mul; lia).
  rewrite Z.quot_div_nonneg, Z.rem_mod_nonneg by lia.
  assert (Hh : 0 ≤ Z.abs z / 60 < 24) by (Z.div_mod_to_equations; lia).
  assert (Hmi : 0 ≤ Z.abs z mod 60 < 60) by (Z.div_mod_to_equations; lia).
  rewrite !append_int_fits by width.
  assert (Ez : Z.abs z = Z.abs z / 60 * 60 + Z.abs z mod 60) by (Z.div_mod_to_equations; lia).
  set (h := Z.abs z / 60) in *. set (mi := Z.abs z mod 60) in *. clearbody h mi.
  destruct (z <? 0) eqn:Es; zb; cbn [String.append take_zone].
  - rewrite (bool_decide_eq_true_2 ("-"%char = "-"%char)) by done. rewrite orb_true_r.
    rewrite take_num_digits by width. cbn [mbind option_bind String.append].
    rewrite expect_here. cbn [mbind option_bind].
    rewrite <- (append_nil_r (digits 2 mi)), take_num_digits by width. cbn [mbind option_bind].
    rewrite !in_range_ok by lia. cbn [mbind option_bind]. do 2 f_equal. lia.
  - rewrite (bool_decide_eq_true_2 ("+"%char = "+"%char)) by done.
    rewrite (bool_decide_eq_false_2 ("+"%char = "-"%char)) by done. cbn [orb].
    rewrite take_num_digits by width. cbn [mbind option_bind String.append].
    rewrite expect_here. cbn [mbind option_bind].
    rewrite <- (append_nil_r (digits 2 mi)), take_num_digits by width. cbn [mbind option_bind].
    rewrite !in_range_ok by lia. cbn [mbind option_bind]. do 2 f_equal. lia.
Qed.

(** Printing in the time's own zone and reading back keeps the instant,
    and the zone's offset at it. *)
Lemma parse_fmt_rfc3339nano_in t :
  four_digit_year (face_ns t) → whole_offset (zone_offset t) →
  ∃ t', parse_rfc3339nano (fmt_rfc3339nano_in t) = Some t' ∧ t_ns t' = t_ns t ∧
        zone_offset t' = zone_offset t ∧ (zone_offset t = 0 → t_loc t' = UTC).
Proof.
  intros Hy Ho. destruct (utc_fields (face_ns t)) as (Hv & _ & _ & _ & _ & Hns).
  unfold parse_rfc3339nano, fmt_rfc3339nano_in. rewrite take_date_fmt by done.
  cbn [mbind option_bind String.append]. rewrite expect_here. cbn [mbind option_bind].
  rewrite take_hms_fmt by apply ends_frac_zone. cbn [mbind option_bind].
  rewrite take_zone_fmt by done. cbn [mbind option_bind]. rewrite Hv. cbn [at_end].
  rewrite Hns. eexists. split; [reflexivity|]. cbn [t_ns t_loc].
  split; [unfold face_ns; lia|]. unfold zone_offset at 1. cbn [t_loc].
  destruct (zone_offset t =? 0) eqn:E; zb; [by rewrite E|]. split; [done|lia].
Qed.

Lemma fmt_rfc3339nano_inj a b :
  four_digit_year a → four_digit_year b → fmt_rfc3339nano a = fmt_rfc3339nano b → a = b.
Proof.
  intros Ha Hb E. apply (f_equal parse_rfc3339nano) in E.
  rewrite !parse_fmt_rfc3339nano in E by done. by injection E.
Qed.

Example parse_date_example : parse_ymd "2026-06-09" = Some (2026, 6, 9).
Proof. vm_compute. reflexivity. Qed.
Example parse_hms_fraction : parse_hms "9:05:30.25" = Some (9, 5, 30).
Proof. vm_compute. reflexivity. Qed.
Example fmt_example :
  fmt_rfc3339nano (t_ns (go_date 2026 5 10 4 0 0 50000000 UTC)) = "2026-05-10T04:00:00.05Z".
Proof. vm_compute. reflexivity. Qed.
