(* ===== verification/Millis.v ===== *)
(** * The timestamp layout of the idempotency table

    ["2006-01-02T15:04:05.000Z"]: reading it back, and the fact the table's
    ORDER BY and pruning rest on, that texts of this layout compare like
    the instants they print. *)

From S2P Require Import Prelude GoTime GoFormat.
From Stdlib Require Import Ascii.

(** [time.Parse("2006-01-02T15:04:05.000Z", s)]. *)
Definition parse_millis (s : string) : option Time :=
  '(y, m, d, s) ← take_date s;
  s ← expect "T" s;
  '(h, mi, s) ← take_hm s; s ← expect ":" s;
  '(sec, s) ← take_num 2 s; _ ← in_range 0 60 sec;
  s ← (match expect "." s with Some s' => Some s' | None => expect "," s end);
  '(ms, s) ← take_num 3 s;
  s ← expect "Z" s;
  if valid_civil y m d
  then at_end (go_date y m d h mi sec (ms * millisecond) UTC) s else None.

(** The instant cut to whole milliseconds. *)
Definition cut_millis (ns : Z) : Z := ns / millisecond * millisecond.

Lemma nsec_millis ns : 0 ≤ t_nsec (utc ns) / millisecond < 1000.
Proof. unfold t_nsec, utc, second, millisecond. cbn [t_ns]. Z.div_mod_to_equations; lia. Qed.

Lemma cut_millis_fields w ns :
  w * second + t_nsec (utc ns) = ns →
  w * second + t_nsec (utc ns) / millisecond * millisecond = cut_millis ns.
Proof.
  unfold cut_millis, t_nsec, utc, second, millisecond. cbn [t_ns]. intros H.
  rewrite <- H at 2. generalize (ns mod 1000000000). intros n.
  replace (w * 1000000000 + n) with (n + w * 1000 * 1000000) by lia.
  rewrite Z.div_add by lia. lia.
Qed.

Lemma go_date_cut y m d h mi s ns :
  t_ns (go_date y m d h mi s (t_nsec (utc ns)) UTC) = ns →
  go_date y m d h mi s (t_nsec (utc ns) / millisecond * millisecond) UTC = utc (cut_millis ns).
Proof.
  unfold go_date. generalize (zone_search UTC (wall_secs y m d h mi s)). intros w.
  cbn [t_ns]. intros H. by rewrite (cut_millis_fields w ns H).
Qed.

Lemma parse_fmt_millis ns :
  four_digit_year ns → parse_millis (fmt_millis ns) = Some (utc (cut_millis ns)).
Proof.
  intros Hy. destruct (utc_fields ns) as (Hv & Hh & Hm & Hs & Hn & Hns).
  pose proof (nsec_millis ns) as Hms.
  unfold parse_millis, fmt_millis. rewrite take_date_fmt by done.
  cbn [mbind option_bind String.append]. rewrite expect_here. cbn [mbind option_bind].
  unfold fmt_utc_clock. rewrite !append_int_fits by width.
  unfold take_hm. rewrite ?append_assoc, take_num12_digits by lia.
  cbn [mbind option_bind String.append]. rewrite in_range_ok by lia.
  cbn [mbind option_bind]. rewrite expect_here. cbn [mbind option_bind].
  rewrite ?append_assoc, take_num_digits by width. cbn [mbind option_bind String.append].
  rewrite in_range_ok by lia. cbn [mbind option_bind]. rewrite expect_here. cbn [mbind option_bind].
  rewrite take_num_digits by width. cbn [mbind option_bind]. rewrite in_range_ok by lia.
  cbn [mbind option_bind String.append]. rewrite expect_here. cbn [mbind option_bind].
  rewrite take_num_digits by exact Hms. cbn [mbind option_bind]. rewrite expect_here.
  cbn [mbind option_bind]. rewrite Hv. cbn [at_end].
  by rewrite (go_date_cut _ _ _ _ _ _ ns Hns).
Qed.

(** ** Texts of digits compare as numbers *)

Definition then_cmp (c c' : comparison) : comparison := match c with Eq => c' | _ => c end.
Lemma then_cmp_Eq c : then_cmp c Eq = c.
Proof. by destruct c. Qed.
Lemma then_cmp_assoc a b c : then_cmp (then_cmp a b) c = then_cmp a (then_cmp b c).
Proof. by destruct a. Qed.

Lemma digit_compare a b :
  0 ≤ a < 10 → 0 ≤ b < 10 → Ascii.compare (digit a) (digit b) = (a ?= b).
Proof.
  intros Ha Hb.
  assert (H : all_below 10 (λ x, all_below 10 (λ y,
    match Ascii.compare (digit x) (digit y), x ?= y with
    | Eq, Eq | Lt, Lt | Gt, Gt => true | _, _ => false end)) = true) by (vm_compute; reflexivity).
  apply (all_below_spec _ _ H) in Ha. apply (all_below_spec _ _ Ha) in Hb. clear H Ha.
  by destruct (Ascii.compare _ _), (a ?= b).
Qed.
Lemma compare_cons c d s t :
  String.compare (String c s) (String d t) = then_cmp (Ascii.compare c d) (String.compare s t).
Proof. cbn. by destruct (Ascii.compare c d). Qed.
Lemma ascii_compare_refl c : Ascii.compare c c = Eq.
Proof. unfold Ascii.compare. apply N.compare_refl. Qed.
Lemma compare_same c s t : String.compare (String c s) (String c t) = String.compare s t.
Proof. by rewrite compare_cons, ascii_compare_refl. Qed.
Lemma div10_compare a b :
  (a ?= b) = then_cmp (a / 10 ?= b / 10) (a mod 10 ?= b mod 10).
Proof.
  destruct (Z.compare_spec (a / 10) (b / 10)); cbn.
  - destruct (Z.compare_spec (a mod 10) (b mod 10)); [apply Z.compare_eq_iff|apply Z.compare_lt_iff|apply Z.compare_gt_iff];
      Z.div_mod_to_equations; lia.
  - apply Z.compare_lt_iff. Z.div_mod_to_equations; lia.
  - apply Z.compare_gt_iff. Z.div_mod_to_equations; lia.
Qed.
Lemma digits_compare n a b s t :
  0 ≤ a < 10 ^ Z.of_nat n → 0 ≤ b < 10 ^ Z.of_nat n →
  String.compare (digits n a +:+ s) (digits n b +:+ t) = then_cmp (a ?= b) (String.compare s t).
Proof.
  revert a b s t. induction n as [|n IH]; intros a b s t Ha Hb.
  - change (10 ^ Z.of_nat 0) with 1 in *. assert (a = 0) as -> by lia. assert (b = 0) as -> by lia. done.
  - rewrite Nat2Z.inj_succ, Z.pow_succ_r in Ha, Hb by lia. cbn [digits].
    rewrite !append_assoc. cbn [String.append].
    rewrite IH, compare_cons, digit_compare, (div10_compare a b), then_cmp_assoc;
      [done|apply Z.mod_pos_bound; lia|apply Z.mod_pos_bound; lia| |];
      (split; [apply Z.div_pos; lia|apply Z.div_lt_upper_bound; lia]).
Qed.

(** ** Fields compare as instants *)

Lemma days_before_month_lt y m m' d :
  1 ≤ m → m < m' ≤ 12 → 1 ≤ d ≤ days_in y m → days_before_month y m + d ≤ days_before_month y m'.
Proof.
  intros Hm Hm' Hd.
  assert (H : ∀ b, all_below 13 (λ i, all_below 13 (λ j,
    negb ((1 <=? i) && (i <? j)) || (month_starts b i + month_len b i <=? month_starts b j))) = true)
    by (intros []; vm_compute; reflexivity).
  specialize (H (leap y)). apply all_below_spec with (k := m) in H; [|lia].
  apply all_below_spec with (k := m') in H; [|lia].
  apply orb_true_iff in H as [H|H].
  { apply negb_true_iff, andb_false_iff in H as [H|H]; zb; lia. }
  zb. change (month_starts (leap y)) with (days_before_month y) in H.
  change (month_len (leap y) m) with (days_in y m) in H. lia.
Qed.
Lemma civil_compare y m d y' m' d' :
  valid_civil y m d = true → valid_civil y' m' d' = true →
  (abs_days y m d ?= abs_days y' m' d') = then_cmp (y ?= y') (then_cmp (m ?= m') (d ?= d')).
Proof.
  intros Hv Hv'. pose proof (abs_days_year_bounds _ _ _ Hv) as B.
  pose proof (abs_days_year_bounds _ _ _ Hv') as B'.
  apply valid_civil_bounds in Hv as (Hm & Hd0 & Hd), Hv' as (Hm' & Hd0' & Hd').
  destruct (Z.compare_spec y y') as [<-|L|L]; cbn.
  - unfold abs_days in *. destruct (Z.compare_spec m m') as [<-|L|L]; cbn.
    + destruct (Z.compare_spec d d'); [apply Z.compare_eq_iff|apply Z.compare_lt_iff|apply Z.compare_gt_iff]; lia.
    + apply Z.compare_lt_iff. pose proof (days_before_month_lt y m m' d ltac:(lia) ltac:(lia) ltac:(lia)). lia.
    + apply Z.compare_gt_iff. pose proof (days_before_month_lt y m' m d' ltac:(lia) ltac:(lia) ltac:(lia)). lia.
  - apply Z.compare_lt_iff. apply days_before_year_mono in L. lia.
  - apply Z.compare_gt_iff. apply days_before_year_mono in L. lia.
Qed.
(** Splitting an instant into quotient and remainder. *)
Lemma split_compare k a b : 0 < k → (a ?= b) = then_cmp (a / k ?= b / k) (a mod k ?= b mod k).
Proof.
  intros Hk. pose proof (Z.div_mod a k ltac:(lia)). pose proof (Z.div_mod b k ltac:(lia)).
  pose proof (Z.mod_pos_bound a k Hk). pose proof (Z.mod_pos_bound b k Hk).
  destruct (Z.compare_spec (a / k) (b / k)) as [E|L|L]; cbn.
  - rewrite E in *. destruct (Z.compare_spec (a mod k) (b mod k));
      [apply Z.compare_eq_iff|apply Z.compare_lt_iff|apply Z.compare_gt_iff]; lia.
  - apply Z.compare_lt_iff. nia.
  - apply Z.compare_gt_iff. nia.
Qed.

Lemma split_face l m : (l ?= m) = then_cmp (l / 86400 ?= m / 86400)
  (then_cmp (l mod 86400 / 3600 ?= m mod 86400 / 3600)
     (then_cmp (l mod 3600 / 60 ?= m mod 3600 / 60) (l mod 60 ?= m mod 60))).
Proof.
  rewrite (split_compare 86400 l m) by done. f_equal.
  rewrite (split_compare 3600 (l mod 86400)) by done. f_equal.
  assert (E : ∀ x, x mod 86400 mod 3600 = x mod 3600) by (intros; Z.div_mod_to_equations; lia).
  rewrite !E, (split_compare 60 (l mod 3600)) by done. f_equal.
  assert (E' : ∀ x, x mod 3600 mod 60 = x mod 60) by (intros; Z.div_mod_to_equations; lia).
  by rewrite !E'.
Qed.

(** Texts of this layout sort as the instants do, to the millisecond. *)
Lemma fmt_millis_compare a b :
  four_digit_year a → four_digit_year b →
  String.compare (fmt_millis a) (fmt_millis b) = (cut_millis a ?= cut_millis b).
Proof.
  intros Ha Hb. assert (Hcut : (cut_millis a ?= cut_millis b) = (a / millisecond ?= b / millisecond)).
  { unfold cut_millis, millisecond. generalize (a / 1000000) (b / 1000000). intros x y.
    destruct (Z.compare_spec x y); [apply Z.compare_eq_iff|apply Z.compare_lt_iff|apply Z.compare_gt_iff]; lia. }
  rewrite Hcut. clear Hcut.
  assert (Ems : ∀ x, x / millisecond / 1000 = x / second)
    by (intros; unfold millisecond, second; by rewrite Z.div_div).
  assert (Emod : ∀ x, x / millisecond mod 1000 = t_nsec (utc x) / millisecond)
    by (intros; unfold t_nsec, utc, millisecond, second; cbn [t_ns]; Z.div_mod_to_equations; lia).
  rewrite (split_compare 1000), !Ems, !Emod, split_face, !then_cmp_assoc by done.
  assert (El : ∀ x, local_secs (utc x) = x / second)
    by (intros; unfold local_secs; change (offset_at _ _) with 0; apply Z.add_0_r).
  pose proof (utc_fields a) as (Va & Ha1 & Ha2 & Ha3 & _).
  pose proof (utc_fields b) as (Vb & Hb1 & Hb2 & Hb3 & _).
  pose proof (nsec_millis a). pose proof (nsec_millis b).
  assert (Ed : (a / second / 86400 ?= b / second / 86400)
    = then_cmp (t_year (utc a) ?= t_year (utc b))
        (then_cmp (t_month (utc a) ?= t_month (utc b)) (t_day (utc a) ?= t_day (utc b)))).
  { rewrite <- (civil_compare _ _ _ _ _ _ Va Vb).
    assert (Eday : ∀ x, abs_days (t_year (utc x)) (t_month (utc x)) (t_day (utc x))
                        = x / second / 86400 + epoch_days).
    { intros x. unfold t_year, t_month, t_day. destruct (t_date (utc x)) as [[y m] d] eqn:E.
      cbn [fst snd]. apply days_of_civil_of_days in E as [E _]. rewrite El in E.
      unfold days_of_civil in E. lia. }
    rewrite !Eday, !(Z.add_comm _ epoch_days). by rewrite Z.add_compare_mono_l. }
  rewrite Ed, !then_cmp_assoc.
  unfold fmt_millis, fmt_utc_date, fmt_utc_clock.
  pose proof (valid_civil_bounds _ _ _ Va). pose proof (valid_civil_bounds _ _ _ Vb).
  rewrite !append_int_fits by width. rewrite ?append_assoc.
  rewrite digits_compare by width. f_equal. cbn [String.append]. rewrite compare_same.
  rewrite ?append_assoc, digits_compare by width. f_equal. cbn [String.append]. rewrite compare_same.
  rewrite ?append_assoc, digits_compare by width. f_equal. cbn [String.append]. rewrite compare_same.
  rewrite ?append_assoc. unfold t_hour, t_minute, t_second in *. rewrite !El in *.
  rewrite digits_compare by width. f_equal. cbn [String.append]. rewrite compare_same.
  rewrite ?append_assoc, digits_compare by width. f_equal. cbn [String.append]. rewrite compare_same.
  rewrite digits_compare by width. f_equal. cbn [String.append]. rewrite compare_same.
  rewrite digits_compare by (change (10 ^ Z.of_nat 3) with 1000; lia).
  change (String.compare "Z" "Z") with Eq. apply then_cmp_Eq.
Qed.
Lemma fmt_millis_leb a b :
  four_digit_year a → four_digit_year b →
  String.leb (fmt_millis a) (fmt_millis b) = (cut_millis a <=? cut_millis b).
Proof. intros Ha Hb. unfold String.leb, Z.leb. by rewrite fmt_millis_compare. Qed.
