(* ===== verification/Types.v ===== *)
(** * Package [domain] and [providers]: the data

    Identifiers, dates and wall times, venues, the sealed unions
    ([VenueQuery], [ReleaseStrategy], [SlotPayload]), [Goal], [Plan],
    [Intent], [SnipeState], the audit [Event], the provider seam's records,
    and the errors with [errors.Is].

    A sealed interface is an inductive type, and a possibly nil one an
    [option].  A string newtype ([UserID], [QuestID], ...) is a string.
    An error is a package-level sentinel, a fresh [errors.New], a
    [fmt.Errorf] with the errors its %w verbs wrap, or one of the typed
    errors the code declares. *)

From S2P Require Import Prelude GoTime GoFormat.

(** ** Dates and wall times: [domain/date.go] *)

Record Date := mkDate { d_year : Z; d_month : Z; d_day : Z }.
Record WallTime := mkWallTime { w_hour : Z; w_minute : Z; w_second : Z }.

#[export] Instance Location_eq_dec : EqDecision Location.
Proof. solve_decision. Defined.
#[export] Instance Time_eq_dec : EqDecision Time.
Proof. solve_decision. Defined.
#[export] Instance Date_eq_dec : EqDecision Date.
Proof. solve_decision. Defined.
#[export] Instance WallTime_eq_dec : EqDecision WallTime.
Proof. solve_decision. Defined.

Definition NewDate (year month day : Z) : Date := mkDate year month day.
Definition date_String (d : Date) : string :=
  fmt_pad 4 (d_year d) +:+ "-" +:+ fmt_pad 2 (d_month d) +:+ "-" +:+ fmt_pad 2 (d_day d).
Definition date_IsZero (d : Date) : bool := bool_decide (d = mkDate 0 0 0).
Definition date_In (d : Date) (loc : Location) : Time :=
  go_date (d_year d) (d_month d) (d_day d) 0 0 0 0 loc.
Definition NewWallTime (h m s : Z) : WallTime := mkWallTime h m s.
Definition wall_String (w : WallTime) : string :=
  fmt_pad 2 (w_hour w) +:+ ":" +:+ fmt_pad 2 (w_minute w) +:+ ":" +:+ fmt_pad 2 (w_second w).

(** ** Status and event types: [domain/status.go], [domain/event.go] *)

Inductive Status :=
| StatusSubmitted | StatusScheduled | StatusDiscovering | StatusAwaiting | StatusFinding
| StatusBooking | StatusBooked | StatusFailed | StatusCanceled | StatusExpired.
#[export] Instance Status_eq_dec : EqDecision Status.
Proof. solve_decision. Defined.

Definition status_String (s : Status) : string :=
  match s with
  | StatusSubmitted => "submitted" | StatusScheduled => "scheduled"
  | StatusDiscovering => "discovering" | StatusAwaiting => "awaiting"
  | StatusFinding => "finding" | StatusBooking => "booking" | StatusBooked => "booked"
  | StatusFailed => "failed" | StatusCanceled => "canceled" | StatusExpired => "expired"
  end.

Notation EventType := string (only parsing).
Definition EventSubmitted : EventType := "submitted".
Definition EventScheduled : EventType := "scheduled".
Definition EventDiscovered : EventType := "discovered".
Definition EventReleased : EventType := "released".
Definition EventFound : EventType := "found".
Definition EventBookAttempted : EventType := "book_attempted".
Definition EventBooked : EventType := "booked".
Definition EventFailed : EventType := "failed".
Definition EventCanceled : EventType := "canceled".
Definition EventExpired : EventType := "expired".
Definition AllEventTypes : list EventType :=
  [EventSubmitted; EventScheduled; EventDiscovered; EventReleased; EventFound;
   EventBookAttempted; EventBooked; EventFailed; EventCanceled; EventExpired].

(** ** Venues: [domain/venue.go] *)

Record VenueRef := mkVenueRef { vr_Provider : string; vr_Ref : string }.
#[export] Instance VenueRef_eq_dec : EqDecision VenueRef.
Proof. solve_decision. Defined.
Definition venueRef_String (v : VenueRef) : string := vr_Provider v +:+ ":" +:+ vr_Ref v.

Record Venue := mkVenue {
  v_Provider : string;
  v_Ref : string;
  v_Name : string;
  v_TZ : option Location
}.
#[export] Instance Venue_eq_dec : EqDecision Venue.
Proof. solve_decision. Defined.
Definition venue_AsRef (v : Venue) : VenueRef := mkVenueRef (v_Provider v) (v_Ref v).

Record BookingPolicy := mkBookingPolicy {
  MaxConcurrent : Z;
  PollFloor : Z;
  DetailsSerial : bool
}.

(** ** Errors *)

Inductive error :=
| ESentinel (msg : string)
| ENew (msg : string)
| EWrap (msg : string) (wrapped : list error)
| EInvalidTransition (from to : Status)
| EAmbiguous (query : string) (candidates : list Venue).

Notation res := (outcome error).

Definition error_String (e : error) : string :=
  match e with
  | ESentinel m | ENew m | EWrap m _ => m
  | EInvalidTransition f t =>
      "invalid status transition: " +:+ status_String f +:+ " -> " +:+ status_String t
  | EAmbiguous q cands =>
      "resolver: venue ambiguous: " +:+ q +:+ " (" +:+ fmt_d (Z.of_nat (length cands))
      +:+ " candidates)"
  end.

(** [errors.Is] against a package-level sentinel, named by its text (no two
    sentinels of the program share theirs).  [AmbiguousError] declares an
    [Is] method for its own. *)
Fixpoint is_sentinel (s : string) (e : error) : bool :=
  match e with
  | ESentinel m => bool_decide (m = s)
  | EWrap _ ws => existsb (is_sentinel s) ws
  | EAmbiguous _ _ => bool_decide (s = "resolver: venue ambiguous")
  | ENew _ | EInvalidTransition _ _ => false
  end.
Definition errors_is (e target : error) : bool :=
  match target with
  | ESentinel s => is_sentinel s e
  | _ => false
  end.
(** [fmt.Errorf("<pre>%w", e)], and with two wrapped errors. *)
Definition wrap (pre : string) (e : error) : error := EWrap (pre +:+ error_String e) [e].

(** [context]'s two errors. *)
Definition Canceled : error := ESentinel "context canceled".
Definition DeadlineExceeded : error := ESentinel "context deadline exceeded".

Lemma errors_is_wrap pre e t : errors_is (wrap pre e) t = errors_is e t.
Proof. destruct t; simpl; by rewrite ?orb_false_r. Qed.
Lemma errors_is_self s : errors_is (ESentinel s) (ESentinel s) = true.
Proof. simpl. by rewrite bool_decide_eq_true_2. Qed.
#[export] Hint Rewrite errors_is_wrap errors_is_self : snipe.

Definition ErrVenueMissingTZ : error := ESentinel "venue: TZ is required".
(** [Venue.Validate]. *)
Definition venue_Validate (v : Venue) : option error :=
  if is_empty (v_Provider v) then Some (ENew "venue: Provider is required")
  else if is_empty (v_Ref v) then Some (ENew "venue: Ref is required")
  else match v_TZ v with None => Some ErrVenueMissingTZ | Some _ => None end.

(** [ParseDate] and [ParseWallTime]; the text of [time]'s own parse errors
    is not modelled. *)
Definition ParseDate (s : string) : res Date :=
  match parse_ymd s with
  | Some (y, m, d) => Ok (mkDate y m d)
  | None => Err (wrap ("date " +:+ fmt_q s +:+ ": ") (ENew "parsing time"))
  end.
Definition ParseWallTime (s : string) : res WallTime :=
  match parse_hms s with
  | Some (h, m, sec) => Ok (mkWallTime h m sec)
  | None =>
      match parse_hm s with
      | Some (h, m, sec) => Ok (mkWallTime h m sec)
      | None => Err (wrap ("walltime " +:+ fmt_q s +:+ ": ") (ENew "parsing time"))
      end
  end.

(** ** Release strategies, slots and intents *)

(** [domain/release.go]; [ReleaseStrategy]'s nil is [None]. *)
Inductive ReleaseStrategy :=
| ExplicitRelease (At : Time)
| DiscoveredRelease (ProbeFrom ProbeUntil : Time)
| ContinuousRelease (Until : Time).

(** [domain/payload_resy.go]; the only [SlotPayload] variant. *)
Record ResySlotPayload := mkResySlotPayload {
  ConfigID : string;
  TemplateID : string;
  SeatingType : string;
  BookToken : string;
  PaymentMethodID : Z
}.
#[export] Instance ResySlotPayload_eq_dec : EqDecision ResySlotPayload.
Proof. solve_decision. Defined.
Inductive SlotPayload := PResy (p : ResySlotPayload).
#[export] Instance SlotPayload_eq_dec : EqDecision SlotPayload.
Proof. solve_decision. Defined.

Record SlotPreference := mkSlotPreference { sp_Time : WallTime; sp_TableType : string }.
#[export] Instance SlotPreference_eq_dec : EqDecision SlotPreference.
Proof. solve_decision. Defined.

Record Intent := mkIntent {
  i_User : string;
  i_Venue : VenueRef;
  i_Date : Date;
  i_PartySize : Z;
  i_SlotPrefs : list SlotPreference;
  i_Release : option ReleaseStrategy
}.

(** ** Snipe state: [domain/snipestate.go] *)

Record Result := mkResult { r_BookedAt : Time; r_ConfirmationID : string }.

(** A [slog.Attr]: a key and a value of the kinds the engine logs. *)
Inductive AttrValue := VString (s : string) | VInt (z : Z) | VTime (t : Time).
Notation Attr := (string * AttrValue)%type.

Record Event := mkEvent { e_Type : EventType; e_At : Time; e_Attrs : list Attr }.

Record SnipeState := mkSnipeState {
  s_ID : string;
  s_Intent : Intent;
  s_status : Status;
  s_ScheduledAt : Time;
  s_Result : option Result;
  s_Events : list Event;
  s_CreatedAt : Time;
  s_UpdatedAt : Time
}.

(** ** Goals and plans: [domain/goal.go], [domain/plan.go] *)

Inductive VenueQuery :=
| VenueQueryURL (URL : string)
| VenueQuerySlug (Slug City : string)
| VenueQueryName (Name : string).
Definition venueQuery_String (q : VenueQuery) : string :=
  match q with
  | VenueQueryURL u => "url=" +:+ u
  | VenueQuerySlug s c => "slug=" +:+ s +:+ " city=" +:+ c
  | VenueQueryName n => "name=" +:+ n
  end.

Inductive TimePriority := PriorityNone | PriorityEarlier | PriorityLater.
#[export] Instance TimePriority_eq_dec : EqDecision TimePriority.
Proof. solve_decision. Defined.
Definition priority_String (p : TimePriority) : string :=
  match p with
  | PriorityEarlier => "earlier" | PriorityLater => "later" | PriorityNone => "none"
  end.

Record TimeWindow := mkTimeWindow {
  tw_Start : WallTime;
  tw_End : WallTime;
  tw_Priority : TimePriority
}.
#[export] Instance TimeWindow_eq_dec : EqDecision TimeWindow.
Proof. solve_decision. Defined.
Definition window_IsZero (w : TimeWindow) : bool :=
  bool_decide (w = mkTimeWindow (mkWallTime 0 0 0) (mkWallTime 0 0 0) PriorityNone).

Record Constraints := mkConstraints { c_TableTypes : list string; c_AnyTable : bool }.

Record Goal := mkGoal {
  g_VenueQuery : option VenueQuery;
  g_Date : Date;
  g_Party : Z;
  g_TimePrefs : TimeWindow;
  g_AccountID : string;
  g_Constraints : Constraints
}.

Record Plan := mkPlan {
  p_Goal : Goal;
  p_Venue : Venue;
  p_DropMoment : Time;
  p_Strategy : option ReleaseStrategy;
  p_FireSchedule : list Time;
  p_SigningRequired : bool;
  p_Hash : string;
  p_Notes : list string;
  p_PlanHashVersion : Z;
  p_ComputedAt : Time
}.

(** ** The provider seam: [providers/provider.go] *)

Record Session := mkSession { se_Provider : string; se_User : string; se_ExpiresAt : Time }.
Definition IsSessionExpired (s : Session) (now : Time) : bool :=
  if is_zero_time (se_ExpiresAt s) then false else negb (time_after (se_ExpiresAt s) now).

Record DateRange := mkDateRange { dr_Start : Date; dr_End : Date; dr_PartySize : Z }.
Record CalendarDay := mkCalendarDay { cd_Date : Date; cd_Available : bool }.
Record Calendar := mkCalendar { cal_Venue : VenueRef; cal_Days : list CalendarDay }.
Record FindRequest := mkFindRequest {
  fr_Venue : VenueRef;
  fr_Date : Date;
  fr_PartySize : Z;
  fr_Times : list WallTime;
  fr_Session : option Session
}.
Record Slot := mkSlot {
  sl_Venue : VenueRef;
  sl_Date : Date;
  sl_Time : WallTime;
  sl_TableType : string;
  sl_PartySize : Z;
  sl_Payload : option SlotPayload
}.
#[export] Instance Slot_eq_dec : EqDecision Slot.
Proof. solve_decision. Defined.
Record Confirmation := mkConfirmation {
  cf_ID : string;
  cf_BookedAt : Time;
  cf_HumanReadable : string
}.

Module Providers.
Definition ErrAuthExpired : error := ESentinel "provider: auth expired".
Definition ErrMFARequired : error := ESentinel "provider: MFA required".
Definition ErrBookTokenExpired : error := ESentinel "provider: book token expired".
Definition ErrSlotTaken : error := ESentinel "provider: slot taken".
Definition ErrRateLimited : error := ESentinel "provider: rate limited".
Definition ErrAntiBotChallenge : error := ESentinel "provider: anti-bot challenge".
Definition ErrInventoryEmpty : error := ESentinel "provider: inventory empty".
Definition ErrVenueNotFound : error := ESentinel "provider: venue not found".
Definition ErrParseFailure : error := ESentinel "provider: parse failure".
End Providers.

Module Store.
Definition ErrNotFound : error := ESentinel "store: not found".
Definition ErrSessionExpired : error := ESentinel "store: session expired".
End Store.
