(* ===== verification/Sql.v ===== *)
(** * SQL statements over a database state

    The shape of every store function of [internal/store]: a sequence of SQL
    statements over a database of type [D], each of which may fail (an I/O
    error, a cancelled context, a busy database) and then has no effect; a
    fault schedule says which.  [in_tx] brackets a transaction, whose
    failure at any point restores the database.  The rules below carry a
    property of the database through a function's statements. *)

From S2P Require Import Prelude GoTime GoFormat Types.

(** What the [n]-th statement of the run does: succeed, or fail with an error. *)
Notation Faults := (nat → option error).
Definition no_faults (fl : Faults) : Prop := ∀ n, fl n = None.
Definition SqlOf (D A : Type) : Type := Faults → nat → D → res A * nat * D.

Section Sql.
Context {D : Type}.
Notation SQL := (SqlOf D).

Definition stmt {A} (f : D → res A * D) : SQL A := λ fl n db,
  match fl n with
  | Some e => (Err e, S n, db)
  | None => let '(r, db') := f db in (r, S n, match r with Ok _ => db' | Err _ => db end)
  end.
Definition query {A} (f : D → res A) : SQL A := stmt (λ db, (f db, db)).
#[global] Instance sql_ret : MRet SQL := λ A a _ n db, (Ok a, n, db).
#[global] Instance sql_bind : MBind SQL := λ A B k m fl n db,
  match m fl n db with
  | (Ok a, n', db') => k a fl n' db'
  | (Err e, n', db') => (Err e, n', db')
  end.
Definition sql_of {A} (m : res A) : SQL A := λ _ n db, (m, n, db).
(** [fmt.Errorf("<pre>%w", err)] around one step. *)
Definition ctx_err {A} (pre : string) (m : SQL A) : SQL A := λ fl n db,
  match m fl n db with
  | (Ok a, n', db') => (Ok a, n', db')
  | (Err e, n', db') => (Err (wrap pre e), n', db')
  end.
(** [db.BeginTx] ... [tx.Commit()], with [defer tx.Rollback()]. *)
Definition in_tx {A} (begin_pre commit_pre : string) (body : SQL A) : SQL A := λ fl n db,
  match ctx_err begin_pre (query (λ _, Ok tt)) fl n db with
  | (Err e, n1, _) => (Err e, n1, db)
  | (Ok _, n1, _) =>
      match body fl n1 db with
      | (Err e, n2, _) => (Err e, n2, db)
      | (Ok a, n2, db2) =>
          match ctx_err commit_pre (query (λ _, Ok tt)) fl n2 db2 with
          | (Err e, n3, _) => (Err e, n3, db)
          | (Ok _, n3, _) => (Ok a, n3, db2)
          end
      end
  end.

(** ** What a function does to the database

    [moves R m]: whatever fails, the database before and after [m] are
    related by [R]; [posts P m]: a successful run ends in a state and a
    result that satisfy [P], which may mention the state before. *)
Definition moves {A} (R : D → D → Prop) (m : SQL A) : Prop := ∀ fl n db, R db (m fl n db).2.
Definition reads {A} (m : SQL A) : Prop := moves eq m.

Lemma moves_stmt {A} (R : D → D → Prop) (f : D → res A * D) :
  (∀ db, R db db) → (∀ db a, (f db).1 = Ok a → R db (f db).2) → moves R (stmt f).
Proof.
  intros Hr Hf fl n db. unfold stmt. destruct (fl n); [apply Hr|].
  specialize (Hf db). destruct (f db) as [[a|e] db']; [by eapply Hf|apply Hr].
Qed.
Lemma moves_query {A} (R : D → D → Prop) (f : D → res A) : (∀ db, R db db) → moves R (query f).
Proof. intros Hr. apply moves_stmt; [done|]. intros db a _. apply Hr. Qed.
Lemma moves_of {A} (R : D → D → Prop) (m : res A) : (∀ db, R db db) → moves R (sql_of m).
Proof. intros Hr fl n db. apply Hr. Qed.
Lemma moves_ret {A} (R : D → D → Prop) (a : A) : (∀ db, R db db) → moves R (mret a : SQL A).
Proof. intros Hr fl n db. apply Hr. Qed.
Lemma moves_bind {A B} (R : D → D → Prop) (m : SQL A) (k : A → SQL B) :
  (∀ a b c, R a b → R b c → R a c) → moves R m → (∀ a, moves R (k a)) → moves R (m ≫= k).
Proof.
  intros Ht Hm Hk fl n db. unfold mbind, sql_bind. specialize (Hm fl n db).
  destruct (m fl n db) as [[[a|e] n'] db']; [|done]. eapply Ht; [exact Hm|apply Hk].
Qed.
Lemma moves_ctx {A} (R : D → D → Prop) pre (m : SQL A) : moves R m → moves R (ctx_err pre m).
Proof. intros Hm fl n db. unfold ctx_err. specialize (Hm fl n db). by destruct (m fl n db) as [[[]]]. Qed.
Lemma moves_tx {A} (R : D → D → Prop) b c (m : SQL A) :
  (∀ db, R db db) → moves R m → moves R (in_tx b c m).
Proof.
  intros Hr Hm fl n db. unfold in_tx, ctx_err, query, stmt. destruct (fl n); [apply Hr|]. cbn.
  specialize (Hm fl (S n) db). destruct (m fl (S n) db) as [[[a|e] n2] db2]; [|apply Hr].
  by destruct (fl n2); [apply Hr|].
Qed.

(** [agrees R m]: run on two databases related by [R], [m] gives the same
    result after the same number of statements, and related databases. *)
Definition agrees {A} (R : D → D → Prop) (m : SQL A) : Prop :=
  ∀ fl n d d', R d d' → (m fl n d).1 = (m fl n d').1 ∧ R (m fl n d).2 (m fl n d').2.

Lemma agrees_stmt {A} (R : D → D → Prop) (f : D → res A * D) :
  (∀ d d', R d d' → (f d).1 = (f d').1 ∧ R (f d).2 (f d').2) → agrees R (stmt f).
Proof.
  intros Hf fl n d d' H. unfold stmt. destruct (fl n); [done|].
  destruct (Hf d d' H) as [E1 E2]. destruct (f d) as [r e], (f d') as [r' e']. cbn in *. subst r'.
  by destruct r.
Qed.
Lemma agrees_query {A} (R : D → D → Prop) (f : D → res A) :
  (∀ d d', R d d' → f d = f d') → agrees R (query f).
Proof. intros Hf. apply agrees_stmt. intros d d' H. split; [by apply Hf|done]. Qed.
Lemma agrees_of {A} (R : D → D → Prop) (m : res A) : agrees R (sql_of m).
Proof. by intros fl n d d' H. Qed.
Lemma agrees_ret {A} (R : D → D → Prop) (a : A) : agrees R (mret a : SQL A).
Proof. by intros fl n d d' H. Qed.
Lemma agrees_bind {A B} (R : D → D → Prop) (m : SQL A) (k : A → SQL B) :
  agrees R m → (∀ a, agrees R (k a)) → agrees R (m ≫= k).
Proof.
  intros Hm Hk fl n d d' H. unfold mbind, sql_bind. destruct (Hm fl n d d' H) as [E1 E2].
  destruct (m fl n d) as [[r k1] e], (m fl n d') as [[r' k2] e']. cbn in *. injection E1 as -> ->.
  destruct r'; [by apply Hk|done].
Qed.
Lemma agrees_ctx {A} (R : D → D → Prop) pre (m : SQL A) : agrees R m → agrees R (ctx_err pre m).
Proof.
  intros Hm fl n d d' H. unfold ctx_err. destruct (Hm fl n d d' H) as [E1 E2].
  destruct (m fl n d) as [[r k1] e], (m fl n d') as [[r' k2] e']. cbn in *. injection E1 as -> ->.
  by destruct r'.
Qed.
End Sql.

#[export] Hint Resolve agrees_stmt agrees_query agrees_of agrees_ret agrees_bind agrees_ctx : snipe.
#[export] Hint Resolve moves_stmt moves_query moves_of moves_ret moves_bind moves_ctx moves_tx : snipe.

(** Run a function's statements down to its cases. *)
Ltac run_sql :=
  unfold in_tx, ctx_err, query, stmt; unfold mbind, sql_bind, mret, sql_ret, sql_of; cbv beta iota zeta.
