(* ===== verification/Status.v ===== *)
(** * The snipe state machine: [domain/status.go], [domain/snipestate.go]

    The transition table, the totality check package initialisation runs
    over it, [SnipeState.Transition], and what every lifetime of a snipe
    must look like under the table. *)

From S2P Require Import Prelude GoTime Types.

Definition AllStatuses : list Status :=
  [StatusSubmitted; StatusScheduled; StatusDiscovering; StatusAwaiting; StatusFinding;
   StatusBooking; StatusBooked; StatusFailed; StatusCanceled; StatusExpired].

Definition IsTerminal (s : Status) : bool :=
  match s with
  | StatusBooked | StatusFailed | StatusCanceled | StatusExpired => true
  | _ => false
  end.

(** The map of maps, as the pairs it lists. *)
Definition allowedTransitions : list (Status * list Status) :=
  [ (StatusSubmitted, [StatusScheduled; StatusDiscovering; StatusCanceled; StatusFailed]);
    (StatusScheduled, [StatusAwaiting; StatusDiscovering; StatusCanceled; StatusFailed; StatusExpired]);
    (StatusDiscovering, [StatusAwaiting; StatusCanceled; StatusFailed; StatusExpired]);
    (StatusAwaiting, [StatusFinding; StatusCanceled; StatusFailed; StatusExpired]);
    (StatusFinding, [StatusBooking; StatusAwaiting; StatusCanceled; StatusFailed; StatusExpired]);
    (StatusBooking, [StatusBooked; StatusFinding; StatusCanceled; StatusFailed]);
    (StatusBooked, []);
    (StatusFailed, []);
    (StatusCanceled, []);
    (StatusExpired, []) ].

Definition allowed_of (from : Status) : option (list Status) :=
  snd <$> List.find (λ p, bool_decide (p.1 = from)) allowedTransitions.

Definition CanTransition (from to : Status) : bool :=
  match allowed_of from with
  | None => false
  | Some allowed => bool_decide (to ∈ allowed)
  end.

Definition validStatus (s : Status) (all : list Status) : bool := bool_decide (s ∈ all).

(** The assertions of [init]: [true] when the program does not panic. *)
Definition init_ok : bool :=
  (length allowedTransitions =? length AllStatuses)%nat &&
  forallb (λ from,
    match allowed_of from with
    | None => false
    | Some tos => forallb (λ to, validStatus to AllStatuses) tos
    end) AllStatuses &&
  forallb (λ s,
    negb (IsTerminal s) || match allowed_of s with Some [] => true | _ => false end)
    AllStatuses.

Definition NewSnipeState (id : string) (intent : Intent) (createdAt : Time) : SnipeState :=
  mkSnipeState id intent StatusSubmitted zero_time None [] createdAt createdAt.

Definition with_status (st : Status) (s : SnipeState) : SnipeState :=
  mkSnipeState (s_ID s) (s_Intent s) st (s_ScheduledAt s) (s_Result s) (s_Events s)
    (s_CreatedAt s) (s_UpdatedAt s).

(** [SnipeState.Transition]: the new state, or the error with the state
    left as it was. *)
Definition Transition (s : SnipeState) (to : Status) : res SnipeState :=
  if CanTransition (s_status s) to then Ok (with_status to s)
  else Err (EInvalidTransition (s_status s) to).

(** ** Lifetimes *)

Definition can_step (a b : Status) : Prop := CanTransition a b = true.

(** [lifetime a l b]: from [a] the machine visits the statuses of [l], in
    order, and is then in [b]. *)
Inductive lifetime : Status → list Status → Status → Prop :=
| lifetime_nil a : lifetime a [] a
| lifetime_cons a b l c : can_step a b → lifetime b l c → lifetime a (b :: l) c.

Lemma lifetime_app a l b m c : lifetime a l b → lifetime b m c → lifetime a (l ++ m) c.
Proof. induction 1; simpl; [done|]. intros. econstructor; eauto. Qed.

Lemma lifetime_snoc a l b c : lifetime a l b → can_step b c → lifetime a (l ++ [c]) c.
Proof. intros H1 H2. eapply lifetime_app; [exact H1|]. econstructor; [exact H2|constructor]. Qed.

Lemma lifetime_last a l x c :
  lifetime a (l ++ [x]) c → ∃ b, lifetime a l b ∧ can_step b x ∧ x = c.
Proof.
  revert a; induction l as [|y l IH]; intros a H; simpl in H; inversion H; subst.
  - match goal with H' : lifetime _ [] _ |- _ => inversion H'; subst end.
    exists a; eauto using lifetime.
  - match goal with H' : lifetime _ (l ++ [x]) _ |- _ => apply IH in H' as (b & ? & ? & ->) end.
    exists b; eauto using lifetime.
Qed.

#[export] Hint Constructors lifetime : snipe.
#[export] Hint Resolve lifetime_app lifetime_snoc : snipe.

Lemma terminal_no_step s t : IsTerminal s = true → CanTransition s t = false.
Proof. destruct s, t; done. Qed.

Lemma nonterminal_fails s :
  IsTerminal s = false → CanTransition s StatusFailed = true ∧ CanTransition s StatusCanceled = true.
Proof. destruct s; done. Qed.

#[export] Hint Resolve terminal_no_step : snipe.

(** The phases a snipe goes through before it may be booked. *)
Definition phase (s : Status) : Z :=
  match s with
  | StatusSubmitted | StatusScheduled | StatusDiscovering => 0
  | StatusAwaiting => 1
  | StatusFinding => 2
  | StatusBooking => 3
  | _ => 4
  end.

Lemma booked_step a b :
  CanTransition a b = true → b = StatusBooked → a = StatusBooking.
Proof. intros H ->. destruct a; done. Qed.

Lemma phase_step a b :
  CanTransition a b = true → (IsTerminal b = false ∨ b = StatusBooked) → phase b ≤ phase a + 1.
Proof. intros H [Ht| ->]; destruct a; try done; destruct b; done. Qed.

Lemma phase_visited a l b p :
  lifetime a l b → (IsTerminal b = false ∨ b = StatusBooked) →
  phase a < p ≤ phase b → ∃ c, c ∈ l ∧ phase c = p.
Proof.
  induction 1 as [a|a b l c Hs Hl IH]; intros Hc Hp; [lia|].
  destruct (decide (phase b = p)) as [E|E]; [exists b; set_solver|].
  assert (Hb : IsTerminal b = false ∨ b = StatusBooked).
  { destruct (IsTerminal b) eqn:Ht; [|by left]. right.
    inversion Hl; subst.
    - destruct Hc; congruence.
    - unfold can_step in *. by rewrite terminal_no_step in *. }
  pose proof (phase_step _ _ Hs Hb).
  destruct IH as (x & Hx & Hpx); [done|lia|]. exists x; set_solver.
Qed.

(** ** Properties *)

(** The transition table passes every assertion package initialisation
    makes (each status has an entry, each listed successor is a status,
    terminal entries are empty), so the program starts; and a status is
    terminal exactly when nothing may follow it. *)
Theorem transition_table_total :
  init_ok = true ∧
  ∀ s, IsTerminal s = true ↔ ∀ t, CanTransition s t = false.
Proof.
  split; [vm_compute; reflexivity|].
  intros s. split; [intros H t; by apply terminal_no_step|].
  intros H. destruct (IsTerminal s) eqn:E; [done|].
  apply nonterminal_fails in E as [E _]. congruence.
Qed.

(** A snipe that ends up Booked has been Awaiting, then Finding, and
    its last status before Booked is Booking: no sequence of legal
    transitions books a snipe without the race. *)
Theorem booked_lifetime l :
  lifetime StatusSubmitted l StatusBooked →
  StatusAwaiting ∈ l ∧ StatusFinding ∈ l ∧ ∃ l', l = l' ++ [StatusBooking; StatusBooked].
Proof.
  intros H.
  assert (Hv : ∀ p, 0 < p ≤ 4 → ∃ c, c ∈ l ∧ phase c = p)
    by (intros p Hp; eapply phase_visited; [exact H|by right|simpl; lia]).
  destruct (Hv 1) as (c1 & H1 & E1); [lia|]. destruct (Hv 2) as (c2 & H2 & E2); [lia|].
  assert (c1 = StatusAwaiting) as -> by (destruct c1; done).
  assert (c2 = StatusFinding) as -> by (destruct c2; done).
  split_all; [done|done|]. clear Hv H1 H2 E1 E2.
  destruct l as [|x l _] using rev_ind; [inversion H|].
  apply lifetime_last in H as (b & Hl & Hs & ->).
  apply booked_step in Hs as ->; [|done].
  destruct l as [|y l _] using rev_ind; [inversion Hl|].
  apply lifetime_last in Hl as (b & _ & _ & ->).
  exists l. by rewrite <- app_assoc.
Qed.

Lemma booked_lifetime_witness :
  StatusAwaiting ∈ [StatusScheduled; StatusAwaiting; StatusFinding; StatusBooking; StatusBooked].
Proof.
  apply (booked_lifetime [StatusScheduled; StatusAwaiting; StatusFinding; StatusBooking; StatusBooked]).
  repeat econstructor; reflexivity.
Defined.
