(* ===== verification/Slots.v ===== *)
(** * Slot expansion: [planner/slots.go]

    [ExpandSlots] turns a time window and the table constraints into the
    race order of the slot preferences.  The walk over the window and the
    in-place reversal are the loops of the code; the closed form they
    compute is [candidate_times].

    Wall times here are the ones [ParseWallTime] produces ([valid_wall]);
    a window made of out-of-range fields can make the code ask for a slice
    of negative capacity, which Go answers with a panic. *)

From S2P Require Import Prelude GoTime GoFormat Types.

Definition SlotStepV1 : Z := 30.
Definition ErrInvalidWindow : error := ESentinel "planner: invalid time window".

Definition valid_wall (w : WallTime) : bool := valid_clock (w_hour w) (w_minute w) (w_second w).

Definition minutesOfDay (w : WallTime) : Z := w_hour w * 60 + w_minute w.
Definition wallTimeFromMinutes (m seconds : Z) : WallTime :=
  mkWallTime (Z.quot m 60) (Z.rem m 60) seconds.

Definition wallTimeAfterPub (a b : WallTime) : bool :=
  if negb (w_hour a =? w_hour b) then w_hour b <? w_hour a
  else if negb (w_minute a =? w_minute b) then w_minute b <? w_minute a
  else w_second b <? w_second a.

(** [for m := startMin; m <= endMin; m += SlotStepV1]. *)
Fixpoint walk (fuel : nat) (m endMin sec : Z) : list WallTime :=
  match fuel with
  | O => []
  | S f =>
      if m <=? endMin then wallTimeFromMinutes m sec :: walk f (m + SlotStepV1) endMin sec
      else []
  end.

(** [for i, j := 0, len(asc)-1; i < j; i, j = i+1, j-1 { swap }]. *)
Fixpoint reverse_in_place (fuel : nat) (i j : Z) (asc : list WallTime) : list WallTime :=
  match fuel with
  | O => asc
  | S f =>
      if i <? j then
        match asc !! Z.to_nat i, asc !! Z.to_nat j with
        | Some x, Some y =>
            reverse_in_place f (i + 1) (j - 1) (<[Z.to_nat j := x]> (<[Z.to_nat i := y]> asc))
        | _, _ => asc
        end
      else asc
  end.

Definition enumerateTimes (window : TimeWindow) : list WallTime :=
  let startMin := minutesOfDay (tw_Start window) in
  let endMin := minutesOfDay (tw_End window) in
  let sec := w_second (tw_Start window) in
  if startMin =? endMin then [wallTimeFromMinutes startMin sec]
  else
    let count := Z.quot (endMin - startMin) SlotStepV1 + 1 in
    let asc := walk (Z.to_nat (count + 1)) startMin endMin sec in
    match tw_Priority window with
    | PriorityLater => reverse_in_place (length asc) 0 (Z.of_nat (length asc) - 1) asc
    | _ => asc
    end.

Definition normalizeTables (c : Constraints) : list string :=
  if c_AnyTable c || bool_decide (length (c_TableTypes c) = 0%nat) then [""]
  else c_TableTypes c.

Definition ExpandSlots (window : TimeWindow) (constraints : Constraints)
    : res (list SlotPreference) :=
  if wallTimeAfterPub (tw_Start window) (tw_End window) then
    Err (EWrap (error_String ErrInvalidWindow +:+ ": start=" +:+ wall_String (tw_Start window)
                +:+ " end=" +:+ wall_String (tw_End window)) [ErrInvalidWindow])
  else
    let times := enumerateTimes window in
    let tables := normalizeTables constraints in
    Ok (flat_map (λ t, map (λ tbl, mkSlotPreference t tbl) tables) times).

(** ** The closed form *)

Definition step_count (window : TimeWindow) : nat :=
  Z.to_nat ((minutesOfDay (tw_End window) - minutesOfDay (tw_Start window)) / SlotStepV1 + 1).
(** The [k]-th candidate, counting from the window's start. *)
Definition candidate (window : TimeWindow) (k : nat) : WallTime :=
  wallTimeFromMinutes (minutesOfDay (tw_Start window) + SlotStepV1 * Z.of_nat k)
    (w_second (tw_Start window)).
Definition candidate_times (window : TimeWindow) : list WallTime :=
  let asc := candidate window <$> seq 0 (step_count window) in
  match tw_Priority window with PriorityLater => reverse asc | _ => asc end.

Lemma walk_closed fuel m endMin sec k :
  (Z.to_nat ((endMin - m) / SlotStepV1 + 1) ≤ fuel)%nat → m ≤ endMin + SlotStepV1 →
  walk fuel m endMin sec =
  (λ i, wallTimeFromMinutes (m + SlotStepV1 * (Z.of_nat i - Z.of_nat k)) sec)
    <$> seq k (Z.to_nat ((endMin - m) / SlotStepV1 + 1)).
Proof.
  unfold SlotStepV1. revert m k; induction fuel as [|f IH]; intros m k Hf Hm.
  - replace (Z.to_nat _) with 0%nat by lia. done.
  - simpl. unfold SlotStepV1. destruct (m <=? endMin) eqn:E; zb.
    + assert (Hd : (endMin - m) / 30 = (endMin - (m + 30)) / 30 + 1)
        by (Z.div_mod_to_equations; lia).
      assert (Hp : 0 ≤ (endMin - (m + 30)) / 30 + 1) by (Z.div_mod_to_equations; lia).
      rewrite (IH (m + 30) (S k)) by lia. rewrite Hd.
      set (n := (endMin - (m + 30)) / 30 + 1) in *.
      replace (Z.to_nat (n + 1)) with (S (Z.to_nat n)) by lia. simpl. f_equal.
      * f_equal. lia.
      * apply list_fmap_ext. intros i x _. f_equal. lia.
    + replace (Z.to_nat _) with 0%nat; [done|]. Z.div_mod_to_equations; lia.
Qed.

Lemma reverse_in_place_lookup fuel i j (l : list WallTime) :
  0 ≤ i → j < Z.of_nat (length l) → j - i < 2 * Z.of_nat fuel →
  ∀ k, 0 ≤ k < Z.of_nat (length l) →
  reverse_in_place fuel i j l !! Z.to_nat k =
  l !! Z.to_nat (if (i <=? k) && (k <=? j) then i + j - k else k).
Proof.
  revert i j l; induction fuel as [|f IH]; intros i j l Hi Hj Hf k Hk.
  - simpl. destruct (i <=? k) eqn:E1, (k <=? j) eqn:E2; zb; simpl; f_equal; lia.
  - simpl. destruct (i <? j) eqn:E; zb.
    + destruct (lookup_lt_is_Some_2 l (Z.to_nat i)) as [x Hx]; [lia|].
      destruct (lookup_lt_is_Some_2 l (Z.to_nat j)) as [y Hy]; [lia|].
      rewrite Hx, Hy, IH by (rewrite ?length_insert; lia).
      destruct (i + 1 <=? k) eqn:A1, (k <=? j - 1) eqn:A2, (i <=? k) eqn:B1, (k <=? j) eqn:B2;
        zb; simpl; try lia.
      * rewrite !list_lookup_insert_ne by lia. do 2 f_equal. lia.
      * assert (k = j) as -> by lia.
        rewrite list_lookup_insert_eq by (rewrite length_insert; lia).
        replace (i + j - j) with i by lia. done.
      * rewrite !list_lookup_insert_ne by lia. done.
      * assert (k = i) as -> by lia.
        rewrite list_lookup_insert_ne, list_lookup_insert_eq by lia.
        replace (i + j - i) with j by lia. done.
      * rewrite !list_lookup_insert_ne by lia. done.
    + destruct (i <=? k) eqn:E1, (k <=? j) eqn:E2; zb; simpl; f_equal; lia.
Qed.

Lemma reverse_in_place_length fuel i j (l : list WallTime) :
  length (reverse_in_place fuel i j l) = length l.
Proof.
  revert i j l; induction fuel as [|f IH]; intros i j l; simpl; [done|].
  repeat case_match; try done. by rewrite IH, !length_insert.
Qed.

Lemma reverse_in_place_reverse (l : list WallTime) :
  reverse_in_place (length l) 0 (Z.of_nat (length l) - 1) l = reverse l.
Proof.
  apply list_eq. intros k.
  destruct (decide (k < length l)%nat) as [Hk|Hk].
  - rewrite <- (Nat2Z.id k) at 1. rewrite reverse_in_place_lookup by lia.
    destruct (0 <=? Z.of_nat k) eqn:E1, (Z.of_nat k <=? Z.of_nat (length l) - 1) eqn:E2; zb;
      try lia; simpl.
    rewrite reverse_lookup by done. f_equal. lia.
  - rewrite !lookup_ge_None_2; [done| |]; rewrite ?reverse_in_place_length, ?length_reverse; lia.
Qed.

Lemma valid_wall_bounds w :
  valid_wall w = true → 0 ≤ w_hour w < 24 ∧ 0 ≤ w_minute w < 60 ∧ 0 ≤ w_second w < 60.
Proof. unfold valid_wall, valid_clock. intros H. zb. lia. Qed.

Lemma after_minutes a b :
  valid_wall a = true → valid_wall b = true → wallTimeAfterPub a b = false →
  minutesOfDay a ≤ minutesOfDay b.
Proof.
  intros Ha%valid_wall_bounds Hb%valid_wall_bounds. unfold wallTimeAfterPub, minutesOfDay.
  destruct (w_hour a =? w_hour b) eqn:E1, (w_minute a =? w_minute b) eqn:E2; simpl; intros;
    zb; nia.
Qed.

Lemma wallTimeFromMinutes_inv m s :
  0 ≤ m → minutesOfDay (wallTimeFromMinutes m s) = m ∧
          w_second (wallTimeFromMinutes m s) = s ∧
          0 ≤ w_minute (wallTimeFromMinutes m s) < 60.
Proof.
  intros Hm. unfold wallTimeFromMinutes, minutesOfDay; simpl.
  rewrite Z.quot_div_nonneg, Z.rem_mod_nonneg by lia.
  split_all; try done; Z.div_mod_to_equations; lia.
Qed.

Lemma enumerateTimes_closed window :
  valid_wall (tw_Start window) = true → valid_wall (tw_End window) = true →
  wallTimeAfterPub (tw_Start window) (tw_End window) = false →
  enumerateTimes window = candidate_times window.
Proof.
  intros Hs He Ha. pose proof (after_minutes _ _ Hs He Ha) as Hm.
  unfold enumerateTimes, candidate_times, step_count.
  set (sM := minutesOfDay (tw_Start window)) in *.
  set (eM := minutesOfDay (tw_End window)) in *.
  assert (Hw : walk (Z.to_nat (Z.quot (eM - sM) SlotStepV1 + 1 + 1)) sM eM (w_second (tw_Start window))
               = candidate window <$> seq 0 (Z.to_nat ((eM - sM) / SlotStepV1 + 1))).
  { rewrite (walk_closed _ _ _ _ 0).
    - apply list_fmap_ext. intros i x _. unfold candidate. fold sM. f_equal. lia.
    - rewrite Z.quot_div_nonneg by (unfold SlotStepV1; lia). lia.
    - unfold SlotStepV1; lia. }
  destruct (sM =? eM) eqn:E; zb.
  - rewrite E, Z.sub_diag. simpl. unfold candidate. fold sM.
    replace (sM + SlotStepV1 * Z.of_nat 0) with sM by lia.
    rewrite E. by destruct (tw_Priority window).
  - rewrite Hw. destruct (tw_Priority window); try done. apply reverse_in_place_reverse.
Qed.

Lemma step_count_pos window :
  minutesOfDay (tw_Start window) ≤ minutesOfDay (tw_End window) → (0 < step_count window)%nat.
Proof. intros H. unfold step_count, SlotStepV1. Z.div_mod_to_equations; lia. Qed.

(** A candidate's minute of the day, its seconds, and the window it stays in. *)
Lemma candidate_spec window k :
  valid_wall (tw_Start window) = true → (k < step_count window)%nat →
  minutesOfDay (candidate window k) = minutesOfDay (tw_Start window) + SlotStepV1 * Z.of_nat k ∧
  w_second (candidate window k) = w_second (tw_Start window) ∧
  minutesOfDay (candidate window k) ≤ minutesOfDay (tw_End window).
Proof.
  intros Hs Hk. apply valid_wall_bounds in Hs as (? & ? & ?).
  unfold candidate. destruct (wallTimeFromMinutes_inv
    (minutesOfDay (tw_Start window) + SlotStepV1 * Z.of_nat k) (w_second (tw_Start window)))
    as (E1 & E2 & _); [unfold minutesOfDay, SlotStepV1; lia|].
  rewrite E1, E2. split_all; [done|done|].
  unfold step_count, SlotStepV1 in *. Z.div_mod_to_equations; lia.
Qed.

(** The order in which the engine will try the times. *)
Definition race_order (p : TimePriority) (a b : WallTime) : Prop :=
  match p with
  | PriorityLater => minutesOfDay b < minutesOfDay a
  | _ => minutesOfDay a < minutesOfDay b
  end.

Lemma candidates_ascending window n m :
  valid_wall (tw_Start window) = true → (n + m ≤ step_count window)%nat →
  StronglySorted (race_order PriorityEarlier) (candidate window <$> seq n m).
Proof.
  intros Hs. revert n; induction m as [|m IH]; intros n Hn; simpl; constructor.
  - apply IH. lia.
  - apply Forall_forall. intros w (k & -> & Hk)%list_elem_of_fmap.
    apply elem_of_seq in Hk. unfold race_order.
    destruct (candidate_spec window n Hs) as (-> & _); [lia|].
    destruct (candidate_spec window k Hs) as (-> & _); [lia|]. unfold SlotStepV1. lia.
Qed.

Lemma StronglySorted_reverse {A} (R S : relation A) (l : list A) :
  (∀ a b, R a b → S b a) → StronglySorted R l → StronglySorted S (reverse l).
Proof.
  intros HRS. induction 1 as [|x l Hl IH Hx]; [constructor|].
  rewrite reverse_cons. revert IH Hx. generalize (reverse_Permutation l).
  generalize (reverse l). intros l' Hp IH Hx. rewrite <- Hp in Hx. clear Hp.
  induction IH as [|y l' Hl' IH' Hy]; simpl; [repeat constructor|].
  inversion Hx; subst. constructor; [by apply IH'|].
  apply Forall_app; split; [done|]. constructor; [by apply HRS|constructor].
Qed.

(** ** Properties *)

Lemma ExpandSlots_Ok window constraints :
  valid_wall (tw_Start window) = true → valid_wall (tw_End window) = true →
  wallTimeAfterPub (tw_Start window) (tw_End window) = false →
  ExpandSlots window constraints =
  Ok (flat_map (λ t, map (mkSlotPreference t) (normalizeTables constraints))
        (candidate_times window)).
Proof. intros Hs He Ha. unfold ExpandSlots. by rewrite Ha, enumerateTimes_closed. Qed.

Lemma length_cross {A B C} (f : A → B → C) (l : list A) (m : list B) :
  length (flat_map (λ a, map (f a) m) l) = (length l * length m)%nat.
Proof. induction l as [|a l IH]; simpl; [done|]. by rewrite length_app, length_map, IH. Qed.

Lemma length_candidate_times window : length (candidate_times window) = step_count window.
Proof.
  unfold candidate_times.
  destruct (tw_Priority window); rewrite ?length_reverse, length_fmap, length_seq; done.
Qed.

Lemma normalizeTables_nonempty c : (0 < length (normalizeTables c))%nat.
Proof.
  unfold normalizeTables. case_match eqn:E; simpl; [lia|].
  apply orb_false_iff in E as [_ E%bool_decide_eq_false_1]. lia.
Qed.

Lemma elem_of_candidate_times window w :
  w ∈ candidate_times window ↔ ∃ k, w = candidate window k ∧ (k < step_count window)%nat.
Proof.
  unfold candidate_times. assert (H : w ∈ candidate window <$> seq 0 (step_count window)
    ↔ ∃ k, w = candidate window k ∧ (k < step_count window)%nat).
  { rewrite list_elem_of_fmap. setoid_rewrite elem_of_seq.
    split; intros (k & -> & ?); exists k; (split; [done|lia]). }
  destruct (tw_Priority window); rewrite ?elem_of_reverse; exact H.
Qed.

Lemma candidate_times_sorted window :
  valid_wall (tw_Start window) = true →
  StronglySorted (race_order (tw_Priority window)) (candidate_times window).
Proof.
  intros Hs. pose proof (candidates_ascending window 0 (step_count window) Hs ltac:(lia)) as H.
  unfold candidate_times. destruct (tw_Priority window); try exact H.
  eapply StronglySorted_reverse; [|exact H]. done.
Qed.

(** For the windows users can write, [ExpandSlots] succeeds with the
    closed form: the times 30 minutes apart from the start up to the end,
    in priority order, each crossed with the normalised table list in the
    user's order; there is always at least one preference. *)
Theorem ExpandSlots_spec window constraints :
  valid_wall (tw_Start window) = true → valid_wall (tw_End window) = true →
  wallTimeAfterPub (tw_Start window) (tw_End window) = false →
  ∃ prefs,
    ExpandSlots window constraints = Ok prefs ∧
    prefs = flat_map (λ t, map (mkSlotPreference t) (normalizeTables constraints))
              (candidate_times window) ∧
    length prefs = (step_count window * length (normalizeTables constraints))%nat ∧
    StronglySorted (race_order (tw_Priority window)) (candidate_times window) ∧
    prefs ≠ [].
Proof.
  intros Hs He Ha. eexists. split; [by apply ExpandSlots_Ok|].
  assert (Hl : length (flat_map (λ t, map (mkSlotPreference t) (normalizeTables constraints))
      (candidate_times window)) = (step_count window * length (normalizeTables constraints))%nat)
    by (by rewrite length_cross, length_candidate_times).
  split_all; [done|done|by apply candidate_times_sorted|].
  intros E. rewrite E in Hl. simpl in Hl.
  pose proof (step_count_pos window (after_minutes _ _ Hs He Ha)).
  pose proof (normalizeTables_nonempty constraints). nia.
Qed.

(** Every preference [ExpandSlots] emits starts at a multiple of 30
    minutes after the window's start, carries a table the user asked for,
    and (when the window's end is not earlier in its minute than its
    start) never lies past the window's end. *)
Theorem ExpandSlots_within_window window constraints prefs p :
  valid_wall (tw_Start window) = true → valid_wall (tw_End window) = true →
  w_second (tw_Start window) ≤ w_second (tw_End window) →
  ExpandSlots window constraints = Ok prefs → p ∈ prefs →
  wallTimeAfterPub (sp_Time p) (tw_End window) = false ∧
  wallTimeAfterPub (tw_Start window) (sp_Time p) = false ∧
  (minutesOfDay (sp_Time p) - minutesOfDay (tw_Start window)) mod SlotStepV1 = 0 ∧
  sp_TableType p ∈ normalizeTables constraints.
Proof.
  intros Hs He Hsec Hx Hp.
  assert (Ha : wallTimeAfterPub (tw_Start window) (tw_End window) = false)
    by (unfold ExpandSlots in Hx; by case_match).
  rewrite ExpandSlots_Ok in Hx by done. injection Hx as <-.
  apply list_elem_of_In, in_flat_map in Hp as (t & Ht & Hp).
  apply in_map_iff in Hp as (tbl & <- & Htbl%list_elem_of_In). simpl.
  apply list_elem_of_In, elem_of_candidate_times in Ht as (k & -> & Hk).
  destruct (candidate_spec window k Hs Hk) as (E1 & E2 & E3).
  assert (E4 : 0 ≤ w_minute (candidate window k) < 60).
  { apply wallTimeFromMinutes_inv. apply valid_wall_bounds in Hs as (? & ? & ?).
    unfold minutesOfDay, SlotStepV1; lia. }
  apply valid_wall_bounds in Hs as (? & ? & ?), He as (? & ? & ?).
  unfold minutesOfDay, SlotStepV1 in *. unfold wallTimeAfterPub.
  set (c := candidate window k) in *. clearbody c.
  split_all; [| | |done].
  - destruct (w_hour c =? w_hour (tw_End window)) eqn:F1; simpl; zb; [|apply Z.ltb_ge; nia].
    destruct (w_minute c =? w_minute (tw_End window)) eqn:F2; simpl; zb; apply Z.ltb_ge; nia.
  - destruct (w_hour (tw_Start window) =? w_hour c) eqn:F1; simpl; zb; [|apply Z.ltb_ge; nia].
    destruct (w_minute (tw_Start window) =? w_minute c) eqn:F2; simpl; zb; apply Z.ltb_ge; nia.
  - rewrite E1. replace (_ - _) with (Z.of_nat k * 30) by lia. apply Z.mod_mul. lia.
Qed.

(** The seconds are inherited from the start: a window may emit a time past
    its own end. *)
Lemma ExpandSlots_seconds_overrun :
  ∃ window prefs p,
    valid_wall (tw_Start window) = true ∧ valid_wall (tw_End window) = true ∧
    ExpandSlots window (mkConstraints [] false) = Ok prefs ∧ p ∈ prefs ∧
    wallTimeAfterPub (sp_Time p) (tw_End window) = true.
Proof.
  exists (mkTimeWindow (mkWallTime 18 0 30) (mkWallTime 19 0 0) PriorityNone).
  eexists. exists (mkSlotPreference (mkWallTime 19 0 30) "").
  split_all; [done|done|vm_compute; reflexivity|set_solver|done].
Qed.

(** ** Witnesses *)

Definition evening : TimeWindow :=
  mkTimeWindow (mkWallTime 18 30 0) (mkWallTime 21 0 0) PriorityLater.

Lemma ExpandSlots_spec_witness :
  ∃ prefs, ExpandSlots evening (mkConstraints ["Bar"; "Parlor"] false) = Ok prefs ∧
           length prefs = 12%nat.
Proof.
  destruct (ExpandSlots_spec evening (mkConstraints ["Bar"; "Parlor"] false))
    as (prefs & H & _ & Hl & _); [reflexivity|reflexivity|reflexivity|].
  exists prefs. split; [exact H|]. rewrite Hl. reflexivity.
Defined.

Lemma ExpandSlots_within_window_witness :
  wallTimeAfterPub (mkWallTime 20 0 0) (mkWallTime 21 0 0) = false.
Proof.
  refine (proj1 (ExpandSlots_within_window evening (mkConstraints ["Bar"] false) _
            (mkSlotPreference (mkWallTime 20 0 0) "Bar") _ _ _ eq_refl _));
    [reflexivity|reflexivity|vm_compute; discriminate|].
  vm_compute. set_solver.
Defined.
