(* ===== verification/Sha256.v ===== *)
(** * SHA-256 and hex, as the program uses them

    [crypto/sha256.Sum256] and [encoding/hex.EncodeToString] on byte
    strings: FIPS 180-4 with 32-bit words as integers below [2^32].  The
    test vectors fix the definition to the standard's. *)

From S2P Require Import Prelude.
From Stdlib Require Import Ascii.

Definition w32 (x : Z) : Z := Z.land x 4294967295.
Definition add32 (x y : Z) : Z := w32 (x + y).
Definition rotr (x n : Z) : Z :=
  Z.lor (Z.shiftr x n) (w32 (Z.shiftl x (32 - n))).
Definition ch (x y z : Z) : Z := Z.lxor (Z.land x y) (Z.land (w32 (Z.lnot x)) z).
Definition maj (x y z : Z) : Z := Z.lxor (Z.lxor (Z.land x y) (Z.land x z)) (Z.land y z).
Definition Sigma0 (x : Z) : Z := Z.lxor (Z.lxor (rotr x 2) (rotr x 13)) (rotr x 22).
Definition Sigma1 (x : Z) : Z := Z.lxor (Z.lxor (rotr x 6) (rotr x 11)) (rotr x 25).
Definition sigma0 (x : Z) : Z := Z.lxor (Z.lxor (rotr x 7) (rotr x 18)) (Z.shiftr x 3).
Definition sigma1 (x : Z) : Z := Z.lxor (Z.lxor (rotr x 17) (rotr x 19)) (Z.shiftr x 10).

(** The constants, from their definition in the standard: the first 32 bits
    of the fractional parts of the cube (square) roots of the first 64 (8)
    primes. *)
Definition prime (n : Z) : bool :=
  (2 <=? n) && forallb (λ d, negb (n mod d =? 0)) (seqZ 2 (n - 2)).
Definition primes : list Z := Eval vm_compute in base.filter (λ n, Is_true (prime n)) (seqZ 0 312).
(** The largest [r] below [2^bits + acc] with [r ^ 3 <= n], bit by bit. *)
Fixpoint cube_root (bits : nat) (n acc : Z) : Z :=
  match bits with
  | O => acc
  | S b =>
      let r := acc + 2 ^ Z.of_nat b in
      cube_root b n (if r * r * r <=? n then r else acc)
  end.
Definition K256 : list Z :=
  Eval vm_compute in map (λ p, w32 (cube_root 36 (Z.shiftl p 96) 0)) primes.
Definition H256 : list Z :=
  Eval vm_compute in map (λ p, w32 (Z.sqrt (Z.shiftl p 64))) (take 8 primes).
Lemma constants_256 : (length K256, hd 0 K256, last K256, H256 !! 7%nat) =
  (64%nat, 0x428a2f98, Some 0xc67178f2, Some 0x5be0cd19).
Proof. reflexivity. Qed.

(** Bytes, padding and words. *)
Fixpoint bytes_of (s : string) : list Z :=
  match s with
  | EmptyString => []
  | String c s' => Z.of_nat (nat_of_ascii c) :: bytes_of s'
  end.
Definition be64 (n : Z) : list Z :=
  map (λ k, Z.land (Z.shiftr n (8 * k)) 255) [7; 6; 5; 4; 3; 2; 1; 0].
Definition pad (m : list Z) : list Z :=
  let len := Z.of_nat (length m) in
  m ++ [128] ++ replicate (Z.to_nat ((55 - len) mod 64)) 0 ++ be64 (8 * len).
Fixpoint words (l : list Z) : list Z :=
  match l with
  | a :: b :: c :: d :: l' =>
      Z.lor (Z.shiftl a 24) (Z.lor (Z.shiftl b 16) (Z.lor (Z.shiftl c 8) d)) :: words l'
  | _ => []
  end.

(** The message schedule, as a sliding window of sixteen words: each step
    emits the oldest and appends its successor. *)
Fixpoint schedule (n : nat) (w : list Z) : list Z :=
  match n with
  | O => []
  | S n' =>
      match w with
      | w0 :: w' =>
          let w1 := nth 0 w' 0 in
          let w9 := nth 8 w' 0 in
          let w14 := nth 13 w' 0 in
          w0 :: schedule n' (w' ++ [add32 (add32 (sigma1 w14) w9) (add32 (sigma0 w1) w0)])
      | [] => []
      end
  end.

Definition round (st : list Z) (kw : Z * Z) : list Z :=
  match st with
  | [a; b; c; d; e; f; g; h] =>
      let t1 := add32 h (add32 (Sigma1 e) (add32 (ch e f g) (add32 kw.1 kw.2))) in
      let t2 := add32 (Sigma0 a) (maj a b c) in
      [add32 t1 t2; a; b; c; add32 d t1; e; f; g]
  | _ => st
  end.
Definition compress (st block : list Z) : list Z :=
  zip_with add32 st (foldl round st (zip K256 (schedule 64 block))).
Fixpoint blocks (fuel : nat) (st ws : list Z) : list Z :=
  match fuel with
  | O => st
  | S f =>
      match ws with
      | [] => st
      | _ => blocks f (compress st (take 16 ws)) (drop 16 ws)
      end
  end.

Definition be32 (x : Z) : list Z :=
  map (λ k, Z.land (Z.shiftr x (8 * k)) 255) [3; 2; 1; 0].
Definition sum256 (s : string) : list Z :=
  let ws := words (pad (bytes_of s)) in
  flat_map be32 (blocks (length ws) H256 ws).

(** [hex.EncodeToString]. *)
Fixpoint hex_encode (l : list Z) : string :=
  match l with
  | [] => ""
  | b :: l' =>
      String (hex_digit (Z.to_nat (b / 16))) (String (hex_digit (Z.to_nat (b mod 16))) (hex_encode l'))
  end.
Definition sha256_hex (s : string) : string := hex_encode (sum256 s).

(** ** The shape of a digest *)

Lemma length_zip_with_add st st' :
  length st = 8%nat → length st' = 8%nat → length (zip_with add32 st st') = 8%nat.
Proof. intros. rewrite length_zip_with. lia. Qed.

Lemma length_round st kw : length (round st kw) = length st.
Proof. do 9 (destruct st as [|? st]; [done|]). done. Qed.

Lemma length_foldl_round st l : length (foldl round st l) = length st.
Proof. revert st; induction l as [|x l IH]; intros st; simpl; [done|]. by rewrite IH, length_round. Qed.

Lemma length_blocks fuel st ws : length st = 8%nat → length (blocks fuel st ws) = 8%nat.
Proof.
  revert st ws; induction fuel as [|f IH]; intros st ws H; simpl; [done|].
  destruct ws; [done|]. apply IH. apply length_zip_with_add; [done|].
  by rewrite length_foldl_round.
Qed.

Lemma length_hex_encode l : String.length (hex_encode l) = (2 * length l)%nat.
Proof. induction l as [|b l IH]; simpl; [done|]. rewrite IH. lia. Qed.

(** A digest is 64 hex digits, whatever the input. *)
Lemma sha256_hex_length s : String.length (sha256_hex s) = 64%nat.
Proof.
  unfold sha256_hex. rewrite length_hex_encode. unfold sum256.
  assert (H : length (blocks (length (words (pad (bytes_of s)))) H256 (words (pad (bytes_of s)))) = 8%nat)
    by (by apply length_blocks).
  destruct (blocks _ _ _) as [|a [|b [|c [|d [|e [|f [|g [|h [|]]]]]]]]]; try done.
Qed.

(** FIPS 180-4's test vectors (one and two blocks). *)
Example sha256_abc :
  sha256_hex "abc" = "ba7816bf8f01cfea414140de5dae2223b00361a396177a9cb410ff61f20015ad".
Proof. vm_compute. reflexivity. Qed.
Example sha256_two_blocks :
  sha256_hex "abcdbcdecdefdefgefghfghighijhijkijkljklmklmnlmnomnopnopq"
  = "248d6a61d20638b8e5c026930c3e6039a33ce45964ff2167f6ecedd419db06c1".
Proof. vm_compute. reflexivity. Qed.
