(* ===== verification/Json.v ===== *)
(** * JSON text: [encoding/json]'s strings and numbers, canonical maps

    The escaping [json.Marshal] applies to a string, integers and booleans;
    the untyped values ([any]) [domain/plan.go] builds and its canonical
    writer; and the prefix-code lemmas that make both printers injective. *)

From S2P Require Import Prelude.
From Stdlib Require Import Ascii.

(** ** [json.Marshal] on strings (HTML escaping on, as by default) *)

Definition byte_of (c : ascii) : Z := Z.of_nat (nat_of_ascii c).
Definition hex2 (n : nat) : string :=
  String (hex_digit (n / 16)) (String (hex_digit (n mod 16)) "").
Definition esc_char (c : ascii) : string :=
  let n := nat_of_ascii c in
  match n with
  | 34%nat => "\" +:+ dquote
  | 92%nat => "\\"
  | 8%nat => "\b" | 12%nat => "\f" | 10%nat => "\n" | 13%nat => "\r" | 9%nat => "\t"
  | 60%nat | 62%nat | 38%nat => "\u00" +:+ hex2 n
  | _ => if (n <? 32)%nat then "\u00" +:+ hex2 n else String c ""
  end.

(** The continuation bytes of a well-formed UTF-8 sequence: whether the
    byte after lead [c] may be [c1], and how many bytes follow. *)
Definition cont (c : ascii) : bool := (128 <=? byte_of c) && (byte_of c <? 192).
Definition utf8_second (c c1 : ascii) : bool :=
  let b := byte_of c in
  let b1 := byte_of c1 in
  cont c1 &&
  (if b =? 224 then 160 <=? b1
   else if b =? 237 then b1 <? 160
   else if b =? 240 then 144 <=? b1
   else if b =? 244 then b1 <? 144
   else true).
Definition utf8_width (c : ascii) : Z :=
  let b := byte_of c in
  if b <? 128 then 1
  else if (194 <=? b) && (b <? 224) then 2
  else if (224 <=? b) && (b <? 240) then 3
  else if (240 <=? b) && (b <? 245) then 4
  else 0.
Definition replacement : string := "\ufffd".

Fixpoint esc (s : string) : string :=
  match s with
  | EmptyString => ""
  | String c s' =>
      if utf8_width c =? 1 then esc_char c +:+ esc s'
      else
        match s' with
        | EmptyString => replacement
        | String c1 s1 =>
            if negb (utf8_second c c1) then replacement +:+ esc s'
            else if utf8_width c =? 2 then String c (String c1 (esc s1))
            else
              match s1 with
              | EmptyString => replacement +:+ esc s'
              | String c2 s2 =>
                  if negb (cont c2) then replacement +:+ esc s'
                  else if utf8_width c =? 3 then
                    if (byte_of c =? 226) && (byte_of c1 =? 128) && (byte_of c2 =? 168)
                    then "\u2028" +:+ esc s2
                    else if (byte_of c =? 226) && (byte_of c1 =? 128) && (byte_of c2 =? 169)
                    then "\u2029" +:+ esc s2
                    else String c (String c1 (String c2 (esc s2)))
                  else if utf8_width c =? 4 then
                    match s2 with
                    | EmptyString => replacement +:+ esc s'
                    | String c3 s3 =>
                        if cont c3 then String c (String c1 (String c2 (String c3 (esc s3))))
                        else replacement +:+ esc s'
                    end
                  else replacement +:+ esc s'
              end
        end
  end.
Definition json_string (s : string) : string := dquote +:+ esc s +:+ dquote.
Definition json_bool (b : bool) : string := if b then "true" else "false".
Definition json_int (z : Z) : string := fmt_d z.

(** ** Untyped values and the canonical writer: [domain/plan.go] *)

(** A Go map is the list of its entries in iteration order. *)
Inductive any :=
| AMap (m : list (string * any))
| AList (l : list any)
| AStrings (l : list string)
| AString (s : string)
| AInt (z : Z)
| ABool (b : bool).

Fixpoint map_get {A} (k : string) (m : list (string * A)) : option A :=
  match m with
  | [] => None
  | (k', v) :: m' => if str_eqb k k' then Some v else map_get k m'
  end.
(** [sort.Strings]. *)
Definition sort_strings (l : list string) : list string := merge_sort String.le l.

(** [writeCanonical]: the keys sorted, each with the text of [x[k]]. *)
Fixpoint writeCanonical (v : any) : string :=
  match v with
  | AMap m =>
      let texts := (fix go m := match m with
                                | [] => []
                                | (k, x) :: m' => (k, writeCanonical x) :: go m'
                                end) m in
      let keys := sort_strings (map fst texts) in
      "{" +:+ str_join "," (map (λ k, json_string k +:+ ":" +:+ default "null" (map_get k texts)) keys)
      +:+ "}"
  | AList l =>
      "[" +:+ str_join ","
        ((fix go l := match l with [] => [] | x :: l' => writeCanonical x :: go l' end) l) +:+ "]"
  | AStrings l => "[" +:+ str_join "," (map json_string l) +:+ "]"
  | AString s => json_string s
  | AInt z => json_int z
  | ABool b => json_bool b
  end.
Definition canonicalMarshal (v : any) : string := writeCanonical v.

(** What a map contributes, given its entries' texts. *)
Definition entry_texts (m : list (string * any)) : list (string * string) :=
  map (λ e, (e.1, writeCanonical e.2)) m.
Definition map_text (texts : list (string * string)) : string :=
  "{" +:+ str_join ","
    (map (λ k, json_string k +:+ ":" +:+ default "null" (map_get k texts))
       (sort_strings (map fst texts))) +:+ "}".

Lemma writeCanonical_map m : writeCanonical (AMap m) = map_text (entry_texts m).
Proof.
  cbn [writeCanonical]. unfold map_text.
  assert (E : (fix go m := match m with
                           | [] => []
                           | (k, x) :: m' => (k, writeCanonical x) :: go m'
                           end) m = entry_texts m).
  { induction m as [|[k x] m IH]; [done|]. cbn. by rewrite IH. }
  by rewrite E.
Qed.

Lemma sort_strings_perm l l' : l ≡ₚ l' → sort_strings l = sort_strings l'.
Proof.
  intros H. apply (Sorted_unique String.le); try apply (Sorted_merge_sort _).
  unfold sort_strings. by rewrite !merge_sort_Permutation.
Qed.

Lemma map_get_Some {A} k v (m : list (string * A)) :
  NoDup (map fst m) → map_get k m = Some v ↔ (k, v) ∈ m.
Proof.
  induction m as [|[k' v'] m IH]; simpl; intros Hn.
  - split; [done|]. intros H%elem_of_nil. done.
  - apply NoDup_cons in Hn as [Hk Hn]. unfold str_eqb.
    destruct (bool_decide_reflect (k = k')) as [->|Hne].
    + split; [intros [= ->]; by left|]. intros [[= ->]|Hin]%elem_of_cons; [done|].
      destruct Hk. apply list_elem_of_In, in_map_iff. exists (k', v). split; [done|].
      by apply list_elem_of_In.
    + rewrite IH by done. split; [by right|]. intros [[= -> ->]|?]%elem_of_cons; done.
Qed.

Lemma map_get_perm {A} k (m m' : list (string * A)) :
  NoDup (map fst m) → m ≡ₚ m' → map_get k m = map_get k m'.
Proof.
  intros Hn Hp. assert (Hn' : NoDup (map fst m')) by (by rewrite <- Hp).
  apply option_eq. intros v. rewrite !map_get_Some by done. by rewrite Hp.
Qed.

Lemma map_text_perm t t' : NoDup (map fst t) → t ≡ₚ t' → map_text t = map_text t'.
Proof.
  intros Hn Hp. unfold map_text. do 3 f_equal.
  rewrite (sort_strings_perm _ (map fst t')) by (by rewrite Hp).
  apply map_ext. intros k. by rewrite (map_get_perm k t t').
Qed.

Lemma map_fst_entry_texts m : map fst (entry_texts m) = map fst m.
Proof. unfold entry_texts. rewrite map_map. by apply map_ext. Qed.

(** ** Prefix codes

    A printed ASCII string, and a printed number before a non-digit, can
    be read off the front of a text in one way only. *)

Definition is_ascii (s : string) : bool := str_all (λ c, byte_of c <? 128) s.

(** One escaped character at the head of a text. *)
Definition hex_val (c : ascii) : nat :=
  let n := nat_of_ascii c in if (n <? 58)%nat then n - 48 else n - 87.
Definition unesc1 (s : string) : option (ascii * string) :=
  match s with
  | String c s' =>
      if Ascii.eqb c "034" then None
      else if negb (Ascii.eqb c "\") then Some (c, s')
      else
        match s' with
        | String d s'' =>
            match nat_of_ascii d with
            | 34%nat => Some ("034"%char, s'') | 92%nat => Some ("\"%char, s'')
            | 98%nat => Some ("008"%char, s'') | 102%nat => Some ("012"%char, s'')
            | 110%nat => Some ("010"%char, s'') | 114%nat => Some ("013"%char, s'')
            | 116%nat => Some ("009"%char, s'')
            | 117%nat =>
                match s'' with
                | String _ (String _ (String a (String b t))) =>
                    Some (ascii_of_nat (16 * hex_val a + hex_val b), t)
                | _ => None
                end
            | _ => None
            end
        | EmptyString => None
        end
  | EmptyString => None
  end.

Lemma unesc1_esc c s : byte_of c <? 128 = true → unesc1 (esc_char c +:+ s) = Some (c, s).
Proof.
  destruct c as [[] [] [] [] [] [] [] []]; intros H; try (by vm_compute in H); reflexivity.
Qed.

Lemma esc_ascii c s : byte_of c <? 128 = true → esc (String c s) = esc_char c +:+ esc s.
Proof. intros H. simpl. unfold utf8_width. by rewrite H. Qed.

Lemma esc_prefix s t u v :
  is_ascii s = true → is_ascii t = true →
  (esc s +:+ dquote +:+ u) = (esc t +:+ dquote +:+ v) → s = t ∧ u = v.
Proof.
  revert t; induction s as [|c s IH]; intros t Hs Ht H;
    destruct t as [|d t]; unfold is_ascii in *; cbn [str_all] in *; zb.
  - simpl in H. by injection H.
  - exfalso. rewrite esc_ascii in H by (by apply Z.ltb_lt).
    rewrite append_assoc in H. apply (f_equal unesc1) in H.
    rewrite unesc1_esc in H by (by apply Z.ltb_lt). done.
  - exfalso. rewrite esc_ascii in H by (by apply Z.ltb_lt).
    rewrite append_assoc in H. apply (f_equal unesc1) in H.
    rewrite unesc1_esc in H by (by apply Z.ltb_lt). done.
  - rewrite !esc_ascii, !append_assoc in H by (by apply Z.ltb_lt).
    apply (f_equal unesc1) in H. rewrite !unesc1_esc in H by (by apply Z.ltb_lt).
    injection H as -> H. apply IH in H as [-> ->]; [done|done|done].
Qed.

Lemma json_string_prefix s t u v :
  is_ascii s = true → is_ascii t = true →
  json_string s +:+ u = json_string t +:+ v → s = t ∧ u = v.
Proof.
  intros Hs Ht H. unfold json_string in H. rewrite !append_assoc in H.
  apply append_inj in H as [_ H]; [|done]. by apply esc_prefix in H.
Qed.

(** Numbers. *)
Fixpoint span_digits (s : string) : string * string :=
  match s with
  | String c s' =>
      if is_digit c then let '(d, r) := span_digits s' in (String c d, r) else ("", s)
  | EmptyString => ("", "")
  end.
Definition stops (s : string) : bool :=
  match s with String c _ => negb (is_digit c) | EmptyString => true end.

Definition all_digits (s : string) : bool := str_all is_digit s.

Lemma all_digits_digits n z : all_digits (digits n z) = true.
Proof. apply str_all_digits. intros k Hk. by apply is_digit_digit. Qed.

Lemma span_digits_app s u :
  all_digits s = true → stops u = true → span_digits (s +:+ u) = (s, u).
Proof.
  intros Hs Hu. induction s as [|c s IH]; unfold all_digits in *; cbn [String.append str_all] in *.
  - destruct u as [|c u]; [done|]. cbn in *. apply negb_true_iff in Hu. by rewrite Hu.
  - apply andb_true_iff in Hs as [Hc Hs]. change (String c s +:+ u) with (String c (s +:+ u)).
    cbn [span_digits]. rewrite Hc. by rewrite IH.
Qed.

Lemma ndigits_go_bound fuel z : 0 ≤ z < 10 ^ Z.of_nat (S fuel) → z < 10 ^ Z.of_nat (ndigits_go fuel z).
Proof.
  revert z; induction fuel as [|f IH]; intros z Hz; cbn [ndigits_go]; [apply Hz|].
  destruct (z <? 10) eqn:E; zb; [change (10 ^ Z.of_nat 1) with 10; lia|].
  rewrite Nat2Z.inj_succ, Z.pow_succ_r by lia.
  rewrite (Nat2Z.inj_succ (S f)), Z.pow_succ_r in Hz by lia.
  assert (H : z / 10 < 10 ^ Z.of_nat (ndigits_go f (z / 10))).
  { apply IH. split; [apply Z.div_pos; lia|]. apply Z.div_lt_upper_bound; lia. }
  pose proof (Z.div_mod z 10 ltac:(lia)). pose proof (Z.mod_pos_bound z 10 ltac:(lia)). lia.
Qed.

Lemma ndigits_bound z : 0 ≤ z → z < 10 ^ Z.of_nat (ndigits z).
Proof.
  intros Hz. unfold ndigits. apply ndigits_go_bound. split; [done|].
  rewrite !Nat2Z.inj_succ, Z2Nat.id by apply Z.log2_nonneg.
  destruct (Z.eq_dec z 0) as [->|]; [simpl; lia|].
  pose proof (Z.log2_spec z ltac:(lia)) as [_ H].
  eapply Z.lt_le_trans; [exact H|]. rewrite (Z.pow_succ_r 10) by (pose proof (Z.log2_nonneg z); lia).
  pose proof (Z.pow_le_mono_l 2 10 (Z.succ (Z.log2 z)) ltac:(lia)).
  pose proof (Z.pow_nonneg 10 (Z.succ (Z.log2 z)) ltac:(lia)). lia.
Qed.

Lemma digits_ndigits_inj a b :
  0 ≤ a → 0 ≤ b → digits (ndigits a) a = digits (ndigits b) b → a = b.
Proof.
  intros Ha Hb H. assert (E : ndigits a = ndigits b).
  { apply (f_equal String.length) in H. by rewrite !length_digits in H. }
  rewrite E in H. eapply digits_inj; [| |exact H].
  - split; [done|]. rewrite <- E. by apply ndigits_bound.
  - split; [done|]. by apply ndigits_bound.
Qed.

Lemma digits_prefix a b u v :
  0 ≤ a → 0 ≤ b → stops u = true → stops v = true →
  digits (ndigits a) a +:+ u = digits (ndigits b) b +:+ v → a = b ∧ u = v.
Proof.
  intros Ha Hb Hu Hv H. apply (f_equal span_digits) in H.
  rewrite !span_digits_app in H by (done || apply all_digits_digits).
  injection H as H ->. split; [by apply digits_ndigits_inj|done].
Qed.

Lemma digits_no_sign z s t : digits (ndigits z) z +:+ s ≠ String "-" t.
Proof.
  intros H. assert (Hn : (1 ≤ ndigits z)%nat).
  { unfold ndigits. cbn [ndigits_go]. case_goal; lia. }
  pose proof (all_digits_digits (ndigits z) z) as Hd.
  destruct (digits (ndigits z) z) as [|c d] eqn:E.
  - apply (f_equal String.length) in E. rewrite length_digits in E. simpl in E. lia.
  - simpl in H. injection H as -> _. done.
Qed.

Lemma fmt_d_prefix a b u v :
  stops u = true → stops v = true → fmt_d a +:+ u = fmt_d b +:+ v → a = b ∧ u = v.
Proof.
  intros Hu Hv H. unfold fmt_d, fmt_pad in H. rewrite !Nat.max_0_l in H.
  destruct (a <? 0) eqn:Ea, (b <? 0) eqn:Eb; zb.
  - injection H as H. apply digits_prefix in H as [? ->]; [split; [lia|done]|lia|lia|done|done].
  - exfalso. symmetry in H. by apply digits_no_sign in H.
  - exfalso. by apply digits_no_sign in H.
  - by apply digits_prefix in H.
Qed.

(** [str_join] over a separator none of the items' prints swallows. *)
Lemma json_strings_prefix l m u v :
  forallb is_ascii l = true → forallb is_ascii m = true →
  str_join "," (map json_string l) +:+ "]" +:+ u = str_join "," (map json_string m) +:+ "]" +:+ v →
  l = m ∧ u = v.
Proof.
  revert m; induction l as [|x l IH]; intros m Hl Hm H.
  - destruct m as [|y m]; [by injection H|].
    destruct m; simpl in H; unfold json_string, dquote in H; discriminate.
  - destruct m as [|y m].
    { destruct l; simpl in H; unfold json_string, dquote in H; discriminate. }
    cbn [forallb] in *. apply andb_true_iff in Hl as [Hx Hl], Hm as [Hy Hm].
    assert (E : ∀ z k w, str_join "," (map json_string (z :: k)) +:+ "]" +:+ w
                = json_string z +:+ match k with
                                    | [] => "]" +:+ w
                                    | _ => "," +:+ str_join "," (map json_string k) +:+ "]" +:+ w
                                    end).
    { intros z [|z' k] w; [done|]. cbn [map str_join]. by rewrite !append_assoc. }
    rewrite !E in H. apply json_string_prefix in H as [-> H]; [|done|done].
    destruct l, m; simpl in H; try discriminate; [by injection H|].
    injection H as H. apply (IH (s0 :: m)) in H as [-> ->]; done.
Qed.

(** ** Properties *)

(** The canonical text of a map does not depend on the order its entries
    are met in: with distinct keys, any iteration order, over entries whose
    values have the same canonical text, gives the same bytes; applied level
    by level this is the promise that identical plans serialise identically
    regardless of map iteration order. *)
Theorem writeCanonical_order m m' m'' :
  NoDup (map fst m) → m ≡ₚ m' →
  Forall2 (λ a b, a.1 = b.1 ∧ writeCanonical a.2 = writeCanonical b.2) m' m'' →
  writeCanonical (AMap m) = writeCanonical (AMap m'').
Proof.
  intros Hn Hp Hf. rewrite !writeCanonical_map.
  assert (E : entry_texts m' = entry_texts m'').
  { clear Hn Hp. induction Hf as [|[k x] [k' y] l l' [Hk Hx] _ IH]; [done|].
    unfold entry_texts in *. cbn in *. by rewrite Hk, Hx, IH. }
  rewrite <- E. apply map_text_perm; [by rewrite map_fst_entry_texts|].
  unfold entry_texts. by rewrite Hp.
Qed.

Lemma writeCanonical_order_witness :
  writeCanonical (AMap [("slug", AString "carbone"); ("city", AString "ny")])
  = writeCanonical (AMap [("city", AString "ny"); ("slug", AString "carbone")]).
Proof.
  apply (writeCanonical_order _ [("city", AString "ny"); ("slug", AString "carbone")]).
  - vm_compute. repeat constructor; set_solver.
  - apply perm_swap.
  - repeat constructor.
Defined.
