(* ===== verification/Drop.v ===== *)
(** * [planner/drop.go]: the drop moment

    When a venue opens its bookings: [ComputeDrop] anchors the target date
    in the venue's calendar, steps back whole calendar days and composes the
    release time of day there; [DiscoveredProbeWindow] brackets a guess.
    [time.Location] values are data of the model (a base offset and sorted
    transitions), so the daylight-saving cases the source documents are
    computed here. *)

From S2P Require Import Prelude GoTime GoFormat Types Slots.

Definition ErrInvalidReleaseDaysAhead : error :=
  ESentinel "planner: releaseDaysAhead must be >= 0".
Definition ErrMissingLocation : error := ESentinel "planner: tz is required".

(** The wall-clock instant of a release [days] calendar days before the
    target: the composition [ComputeDrop] and [bestEffortExplicitDrop] share. *)
Definition release_instant (target : Date) (days : Z) (w : WallTime) (tz : Location) : Time :=
  let anchor := add_date (date_In target tz) 0 0 (- days) in
  go_date (t_year anchor) (t_month anchor) (t_day anchor)
    (w_hour w) (w_minute w) (w_second w) 0 tz.

Definition ComputeDrop (target : Date) (releaseDaysAhead : Z) (releaseTimeLocal : WallTime)
    (tz : option Location) : res Time :=
  match tz with
  | None => Err ErrMissingLocation
  | Some tz =>
      if releaseDaysAhead <? 0 then
        Err (EWrap (error_String ErrInvalidReleaseDaysAhead +:+ ": got " +:+ fmt_d releaseDaysAhead)
               [ErrInvalidReleaseDaysAhead])
      else
        let drop := release_instant target releaseDaysAhead releaseTimeLocal tz in
        Ok (to_utc drop)
  end.

Definition DiscoveredProbeWindow (approxDrop : Time) : Time * Time :=
  let probeLead := 90 * second in
  let probeWidth := 5 * minute in
  let probeFrom := to_utc (time_add approxDrop (- probeLead)) in
  (probeFrom, time_add probeFrom probeWidth).

(** ** Clock faces by day number *)

(** The local clock face [s] seconds into the day numbered [k]. *)
Definition face (k s : Z) : Z := k * 86400 + s.
(** The zone is regular around the face, and the face exists. *)
Definition clear_face (l : Location) (local : Z) : Prop :=
  loc_sorted l ∧ changes_once_near l local ∧ shown l local.

Lemma clear_face_fixed n off local :
  Z.abs off ≤ 86400 → clear_face (fixed_zone n off) local.
Proof.
  intros H. split; [exact I|]. split; [by apply fixed_zone_changes_once|by apply fixed_zone_shown].
Qed.

(** [time.Date] on a clear face reads back that face. *)
Lemma go_date_face y m d h mi s k c l :
  wall_secs y m d h mi s = face k c → 0 ≤ c < 86400 → clear_face l (face k c) →
  let t := go_date y m d h mi s 0 l in
  t_loc t = l ∧ local_secs t = face k c ∧ t_date t = civil_of_days k.
Proof.
  intros Hw Hc (Hs & H1 & H2) t.
  assert (E : local_secs t = face k c).
  { unfold local_secs, t. rewrite t_unix_go_date by (unfold second; lia).
    rewrite Hw. by apply zone_search_shows. }
  split_all; [done|done|]. unfold t_date. rewrite E. f_equal.
  unfold face. Z.div_mod_to_equations; lia.
Qed.

Lemma wall_secs_shift y m d n h mi s :
  valid_civil y m d = true →
  wall_secs y m (d - n) h mi s = face (days_of_civil y m d - n) (h * 3600 + mi * 60 + s).
Proof.
  intros H. pose proof (wall_secs_valid y m d h mi s H) as E.
  unfold wall_secs, face in *. lia.
Qed.

Lemma wall_secs_face y m d h mi s :
  valid_civil y m d = true →
  wall_secs y m d h mi s = face (days_of_civil y m d) (h * 3600 + mi * 60 + s).
Proof. intros H. rewrite wall_secs_valid by done. unfold face. lia. Qed.

Lemma clock_of_face t k c :
  local_secs t = face k c → 0 ≤ c < 86400 →
  t_hour t * 3600 + t_minute t * 60 + t_second t = c ∧
  (c = 0 → t_hour t = 0 ∧ t_minute t = 0 ∧ t_second t = 0).
Proof.
  intros E Hc. unfold t_hour, t_minute, t_second. rewrite E. unfold face.
  split; [Z.div_mod_to_equations; lia|]. intros ->.
  replace (k * 86400 + 0) with (86400 * k) by lia. split_all; Z.div_mod_to_equations; lia.
Qed.

Definition valid_date (d : Date) : bool := valid_civil (d_year d) (d_month d) (d_day d).
Definition day_number (d : Date) : Z := days_of_civil (d_year d) (d_month d) (d_day d).
Definition wall_seconds (w : WallTime) : Z := w_hour w * 3600 + w_minute w * 60 + w_second w.

Lemma wall_seconds_bounds w : valid_wall w = true → 0 ≤ wall_seconds w < 86400.
Proof.
  unfold valid_wall, valid_clock, wall_seconds. intros H. zb. lia.
Qed.

(** The target's midnight. *)
Lemma date_In_face d l :
  valid_date d = true → clear_face l (face (day_number d) 0) →
  t_loc (date_In d l) = l ∧ local_secs (date_In d l) = face (day_number d) 0 ∧
  t_date (date_In d l) = (d_year d, d_month d, d_day d).
Proof.
  intros Hv Hc. unfold date_In.
  destruct (go_date_face (d_year d) (d_month d) (d_day d) 0 0 0 (day_number d) 0 l)
    as (E1 & E2 & E3); [by rewrite wall_secs_face|lia|done|].
  split_all; [done|done|]. rewrite E3. by apply civil_of_days_of_civil.
Qed.

(** Calendar days back from the target's midnight. *)
Lemma anchor_date d n l :
  valid_date d = true → clear_face l (face (day_number d) 0) →
  clear_face l (face (day_number d - n) 0) →
  t_date (add_date (date_In d l) 0 0 (- n)) = civil_of_days (day_number d - n).
Proof.
  intros Hv Hc Hc'. destruct (date_In_face d l Hv Hc) as (El & Es & Ed).
  destruct (clock_of_face _ _ _ Es ltac:(lia)) as [_ Hz]. destruct (Hz eq_refl) as (Eh & Em & Esec).
  assert (En : t_nsec (date_In d l) = 0).
  { unfold t_nsec, date_In, go_date; simpl. unfold second. Z.div_mod_to_equations; lia. }
  unfold add_date. rewrite Ed, Eh, Em, Esec, En, El, !Z.add_0_r.
  replace (d_day d + - n) with (d_day d - n) by lia.
  apply (go_date_face _ _ _ _ _ _ _ 0); [|lia|done].
  rewrite wall_secs_shift by done. done.
Qed.

(** The clock face [release_instant] composes. *)
Lemma release_instant_face d n w l :
  valid_date d = true → valid_wall w = true →
  clear_face l (face (day_number d) 0) → clear_face l (face (day_number d - n) 0) →
  clear_face l (face (day_number d - n) (wall_seconds w)) →
  t_loc (release_instant d n w l) = l ∧
  local_secs (release_instant d n w l) = face (day_number d - n) (wall_seconds w) ∧
  t_date (release_instant d n w l) = civil_of_days (day_number d - n).
Proof.
  intros Hv Hw H1 H2 H3. unfold release_instant, t_year, t_month, t_day.
  rewrite (anchor_date d n l Hv H1 H2).
  destruct (civil_of_days (day_number d - n)) as [[y m] dd] eqn:E. cbn [fst snd].
  pose proof E as (E1 & E2)%days_of_civil_of_days.
  rewrite <- E. apply go_date_face; [|by apply wall_seconds_bounds|done].
  rewrite wall_secs_face by done. by rewrite E1.
Qed.

(** ** Properties *)

(** C27. Whenever the target's midnight, the anchor's midnight and the
    release face each exist once on the venue's clock, [ComputeDrop] returns
    a UTC instant that a clock at the venue shows as the release time of
    day, on the day exactly [releaseDaysAhead] calendar days before the
    target: days are counted on the calendar, whatever transitions lie
    between.  Where one of the three falls into a gap of the clock it need
    not: [ComputeDrop_midnight_gap] is a day early, [ComputeDrop_skipped_face]
    an hour early. *)
Theorem ComputeDrop_spec target n w tz :
  valid_date target = true → 0 ≤ n → valid_wall w = true →
  clear_face tz (face (day_number target) 0) →
  clear_face tz (face (day_number target - n) 0) →
  clear_face tz (face (day_number target - n) (wall_seconds w)) →
  ∃ t, ComputeDrop target n w (Some tz) = Ok t ∧ t_loc t = UTC ∧
    let venue := in_loc t tz in
    t_date venue = civil_of_days (day_number target - n) ∧
    t_hour venue = w_hour w ∧ t_minute venue = w_minute w ∧ t_second venue = w_second w.
Proof.
  intros Hv Hn Hw H1 H2 H3. unfold ComputeDrop.
  destruct (n <? 0) eqn:En; zb; [lia|]. eexists. split; [done|]. split; [done|].
  destruct (release_instant_face target n w tz Hv Hw H1 H2 H3) as (El & Es & Ed).
  set (r := release_instant target n w tz) in *.
  assert (Ev : in_loc (to_utc r) tz = r) by (destruct r; simpl in *; by subst).
  cbv zeta. rewrite Ev. split; [done|].
  pose proof (wall_seconds_bounds w Hw) as Hb.
  unfold valid_wall, valid_clock, wall_seconds in *. zb.
  unfold t_hour, t_minute, t_second. rewrite Es. unfold face. clear Ev Es Ed El.
  split_all; Z.div_mod_to_equations; lia.
Qed.

(** [ComputeDrop] fails exactly without a time zone or with a negative
    day count, each with its own sentinel and checked in that order. *)
Theorem ComputeDrop_errors target n w tz :
  match tz with
  | None => ComputeDrop target n w tz = Err ErrMissingLocation
  | Some l =>
      if n <? 0
      then ∃ e, ComputeDrop target n w tz = Err e ∧
             errors_is e ErrInvalidReleaseDaysAhead = true ∧ errors_is e ErrMissingLocation = false
      else is_Ok (ComputeDrop target n w tz) = true
  end.
Proof.
  destruct tz as [l|]; simpl; [|done]. destruct (n <? 0) eqn:E; [|done].
  eexists. split; [done|]. split; reflexivity.
Qed.

(** The probe window opens 90 seconds before the guess, lasts five minutes
    and is expressed in UTC. *)
Lemma DiscoveredProbeWindow_spec t :
  let '(from, until) := DiscoveredProbeWindow t in
  t_loc from = UTC ∧ t_loc until = UTC ∧
  t_ns from = t_ns t - 90 * second ∧ t_ns until = t_ns from + 300 * second.
Proof. simpl. unfold minute. split_all; [done|done|lia|lia]. Qed.

(** ** New York in 2026, and a zone that springs forward at midnight *)

Definition NewYork2026 : Location :=
  mkLocation "America/New_York" (-18000) [(1772953200, -14400); (1793512800, -18000)].
(** The 2018 spring-forward of Sao Paulo: 2018-11-04 00:00 became 01:00. *)
Definition SaoPaulo2018 : Location :=
  mkLocation "America/Sao_Paulo" (-10800) [(1541300400, -7200); (1550368800, -10800)].

(** The source's worked example: 2026-06-09, 30 days ahead, midnight. *)
Example worked_example :
  ComputeDrop (mkDate 2026 6 9) 30 (mkWallTime 0 0 0) (Some NewYork2026)
  = Ok (go_date 2026 5 10 4 0 0 0 UTC).
Proof. reflexivity. Qed.
(** The spring-forward gap: 02:30 on 2026-03-08 gives 06:30Z. *)
Example spring_forward_gap :
  ComputeDrop (mkDate 2026 3 8) 0 (mkWallTime 2 30 0) (Some NewYork2026)
  = Ok (go_date 2026 3 8 6 30 0 0 UTC).
Proof. reflexivity. Qed.
(** The fall-back overlap: 01:30 on 2026-11-01 gives the earlier one. *)
Example fall_back_overlap :
  ComputeDrop (mkDate 2026 11 1) 0 (mkWallTime 1 30 0) (Some NewYork2026)
  = Ok (go_date 2026 11 1 5 30 0 0 UTC).
Proof. reflexivity. Qed.
(** Where the target's midnight does not exist, its start of day is the
    previous evening and the drop is a day early. *)
Lemma ComputeDrop_midnight_gap :
  t_date (date_In (mkDate 2018 11 4) SaoPaulo2018) = (2018, 11, 3) ∧
  ComputeDrop (mkDate 2018 11 4) 2 (mkWallTime 10 0 0) (Some SaoPaulo2018)
  = Ok (go_date 2018 11 1 13 0 0 0 UTC).
Proof. split; reflexivity. Qed.
(** Spring has no 02:30: the drop is at 01:30. *)
Lemma ComputeDrop_skipped_face :
  ComputeDrop (mkDate 2026 3 10) 2 (mkWallTime 2 30 0) (Some NewYork2026) = Ok (go_date 2026 3 8 6 30 0 0 UTC) ∧
  t_hour (in_loc (go_date 2026 3 8 6 30 0 0 UTC) NewYork2026) = 1.
Proof. split; reflexivity. Qed.

(** Every face of the six months around the March transition is clear,
    but for the hour the transition skips. *)
Lemma ny_clear local :
  - 10 ^ 6 ≤ local - 1772953200 ≤ 10 ^ 7 →
  local < 1772935200 ∨ 1772938800 ≤ local →
  clear_face NewYork2026 local.
Proof.
  intros Hr HT.
  assert (Hoff : ∀ u, u < 1793512800 →
      offset_at NewYork2026 u = if u <? 1772953200 then -18000 else -14400).
  { intros u Hu. unfold offset_at, lookup_zone. simpl.
    destruct (u <? 1772953200) eqn:E; [done|]. destruct (u <? 1793512800) eqn:E'; zb; [done|lia]. }
  split; [simpl; unfold loc_sorted; simpl; split_all; try done; unfold alpha; lia|].
  split.
  - exists 1772953200, (-18000), (-14400). split_all; [lia|lia|].
    intros u Hu. apply Hoff. lia.
  - destruct (local + 18000 <? 1772953200) eqn:E; zb.
    + exists (local + 18000). rewrite Hoff by lia. split; [|lia].
      destruct (_ <? _) eqn:E2; zb; lia.
    + exists (local + 14400). rewrite Hoff by lia. split; [|lia].
      destruct (_ <? _) eqn:E2; zb; lia.
Qed.

(** Thirty calendar days back over the March transition: 10:00 on
    2026-03-08 in New York. *)
Lemma ComputeDrop_spec_witness :
  ∃ t, ComputeDrop (mkDate 2026 4 7) 30 (mkWallTime 10 0 0) (Some NewYork2026) = Ok t ∧
       t_date (in_loc t NewYork2026) = (2026, 3, 8) ∧ t_hour (in_loc t NewYork2026) = 10.
Proof.
  destruct (ComputeDrop_spec (mkDate 2026 4 7) 30 (mkWallTime 10 0 0) NewYork2026)
    as (t & H & _ & Hd & Hh & _);
    [reflexivity|lia|reflexivity
    |apply ny_clear; cbv; intuition congruence
    |apply ny_clear; cbv; intuition congruence
    |apply ny_clear; cbv; intuition congruence|].
  exists t. split; [exact H|]. split; [rewrite Hd; reflexivity|exact Hh].
Defined.
