(* ===== verification/Hash.v ===== *)
(** * Content addressing: intent hashes, booking keys, plan hashes

    [Intent.Hash], [IdempotencyKey] and [Plan.CanonicalBytes]/[WithHash]:
    each is SHA-256 of a text.  What can be proved of them is proved of the
    text: which parts of the value it depends on, and that on the values
    the program builds it determines those parts. *)

From S2P Require Import Prelude GoTime GoFormat Types Slots Drop Sha256 Json.
From Stdlib Require Import Ascii.

Definition utcNanos (t : Time) : string := fmt_rfc3339nano (t_ns t).

(** ** [domain/intent.go]: the intent hash *)

Definition writeReleaseHash (r : option ReleaseStrategy) : string :=
  match r with
  | None => "release=<nil>" +:+ nl
  | Some (ExplicitRelease at_) => "release=explicit at=" +:+ utcNanos at_ +:+ nl
  | Some (DiscoveredRelease from until) =>
      "release=discovered from=" +:+ utcNanos from +:+ " until=" +:+ utcNanos until +:+ nl
  | Some (ContinuousRelease until) => "release=continuous until=" +:+ utcNanos until +:+ nl
  end.
Definition slot_line (p : SlotPreference) : string :=
  "slot=" +:+ wall_String (sp_Time p) +:+ "/" +:+ sp_TableType p +:+ nl.
(** The text the builder accumulates. *)
Definition intent_text (i : Intent) : string :=
  "user=" +:+ i_User i +:+ nl
  +:+ "venue=" +:+ venueRef_String (i_Venue i) +:+ nl
  +:+ "date=" +:+ date_String (i_Date i) +:+ nl
  +:+ "party=" +:+ fmt_d (i_PartySize i) +:+ nl
  +:+ foldr (λ p acc, slot_line p +:+ acc) (writeReleaseHash (i_Release i)) (i_SlotPrefs i).
Definition intent_Hash (i : Intent) : string := sha256_hex (intent_text i).

(** ** [domain/idempotency.go]: one key per booking attempt *)

Definition writeSlotPayloadCanonical (p : option SlotPayload) : string :=
  match p with
  | None => "slot=<nil>" +:+ nl
  | Some (PResy v) =>
      "slot=resy config=" +:+ ConfigID v +:+ " template=" +:+ TemplateID v
      +:+ " seating=" +:+ SeatingType v +:+ nl
  end.
Definition idempotency_text (intentHash : string) (slot : option SlotPayload) (attempt : Z) : string :=
  "intent=" +:+ intentHash +:+ nl
  +:+ writeSlotPayloadCanonical slot
  +:+ "attempt=" +:+ fmt_d attempt +:+ nl.
Definition IdempotencyKey (intentHash : string) (slot : option SlotPayload) (attempt : Z) : string :=
  sha256_hex (idempotency_text intentHash slot attempt).

(** ** [domain/plan.go]: the canonical plan *)

Definition PlanHashVersionV1 : Z := 1.
Definition planHashVersion (p : Plan) : Z :=
  if p_PlanHashVersion p <=? 0 then PlanHashVersionV1 else p_PlanHashVersion p.

Definition canonicalVenueQuery (q : option VenueQuery) : any :=
  match q with
  | Some (VenueQueryURL u) => AMap [("kind", AString "url"); ("url", AString u)]
  | Some (VenueQuerySlug s c) =>
      AMap [("kind", AString "slug"); ("slug", AString s); ("city", AString c)]
  | Some (VenueQueryName n) => AMap [("kind", AString "name"); ("name", AString n)]
  | None => AMap [("kind", AString "nil")]
  end.
Definition canonicalConstraints (c : Constraints) : any :=
  AMap [("table_types", AStrings (sort_strings (c_TableTypes c)));
        ("any_table", ABool (c_AnyTable c))].
Definition canonicalGoal (g : Goal) : any :=
  AMap [("venue_query", canonicalVenueQuery (g_VenueQuery g));
        ("date", AString (date_String (g_Date g)));
        ("party", AInt (g_Party g));
        ("time_prefs",
         AMap [("start", AString (wall_String (tw_Start (g_TimePrefs g))));
               ("end", AString (wall_String (tw_End (g_TimePrefs g))));
               ("priority", AString (priority_String (tw_Priority (g_TimePrefs g))))]);
        ("account_id", AString (g_AccountID g));
        ("constraints", canonicalConstraints (g_Constraints g))].
Definition venue_tz (v : Venue) : string :=
  match v_TZ v with Some l => loc_name l | None => "" end.
Definition canonicalVenue (v : Venue) : any :=
  AMap [("provider", AString (v_Provider v)); ("ref", AString (v_Ref v));
        ("tz", AString (venue_tz v))].
(** Never an error: the union is sealed and every variant is listed. *)
Definition canonicalStrategy (r : option ReleaseStrategy) : res any :=
  match r with
  | None => Ok (AMap [("tag", AString "nil")])
  | Some (ExplicitRelease at_) =>
      Ok (AMap [("tag", AString "explicit"); ("at", AString (utcNanos at_))])
  | Some (DiscoveredRelease from until) =>
      Ok (AMap [("tag", AString "discovered"); ("probe_from", AString (utcNanos from));
                ("probe_until", AString (utcNanos until))])
  | Some (ContinuousRelease until) =>
      Ok (AMap [("tag", AString "continuous"); ("until", AString (utcNanos until))])
  end.
Definition canonicalTimes (ts : list Time) : list string := map utcNanos ts.
Definition canonicalPayload (p : Plan) : res any :=
  strategy ← canonicalStrategy (p_Strategy p);
  Ok (AMap [("goal", canonicalGoal (p_Goal p)); ("venue", canonicalVenue (p_Venue p));
            ("drop_moment", AString (utcNanos (p_DropMoment p))); ("strategy", strategy);
            ("fire_schedule", AStrings (canonicalTimes (p_FireSchedule p)));
            ("signing_required", ABool (p_SigningRequired p))]).
Definition CanonicalBytes (p : Plan) : res string :=
  payload ← canonicalPayload p;
  Ok (canonicalMarshal
        (AMap [("plan_hash_version", AInt (planHashVersion p)); ("payload", payload)])).
Definition ComputeHash (p : Plan) : res string :=
  buf ← CanonicalBytes p;
  Ok ("sha256:" +:+ sha256_hex buf).
Definition with_hash (h : string) (p : Plan) : Plan :=
  mkPlan (p_Goal p) (p_Venue p) (p_DropMoment p) (p_Strategy p) (p_FireSchedule p)
    (p_SigningRequired p) h (p_Notes p) (p_PlanHashVersion p) (p_ComputedAt p).
Definition WithHash (p : Plan) : res Plan :=
  h ← ComputeHash p;
  Ok (with_hash h p).

(** ** Reading fields off a text *)

Definition no_char (c : ascii) (s : string) : bool := str_all (λ d, negb (Ascii.eqb d c)) s.
Definition one_line (s : string) : bool := no_char "010" s.

Lemma field_prefix c x y u v :
  no_char c x = true → no_char c y = true →
  x +:+ String c u = y +:+ String c v → x = y ∧ u = v.
Proof.
  unfold no_char. revert y; induction x as [|d x IH]; intros y Hx Hy H;
    destruct y as [|e y]; simpl in *.
  - by injection H.
  - injection H as <- _. by rewrite Ascii.eqb_refl in Hy.
  - injection H as -> _. by rewrite Ascii.eqb_refl in Hx.
  - injection H as -> H. apply andb_true_iff in Hx as [_ Hx], Hy as [_ Hy].
    by apply IH in H as [-> ->].
Qed.

Lemma line_prefix x y u v :
  one_line x = true → one_line y = true → x +:+ nl +:+ u = y +:+ nl +:+ v → x = y ∧ u = v.
Proof.
  intros Hx Hy H. exact (field_prefix "010" x y u v Hx Hy H).
Qed.

Lemma append_prefix s u v : s +:+ u = s +:+ v → u = v.
Proof. intros H. by apply append_inj in H as [_ H]. Qed.

(** *** Time stamps: no byte but digits and separators, ending in the only Z *)

Definition stamp_pass (p : ascii → bool) : Prop :=
  digits_pass p ∧ p "-"%char = true ∧ p ":"%char = true ∧ p "T"%char = true ∧ p "."%char = true.
Definition stamp_body (ns : Z) : string :=
  fmt_utc_date ns +:+ "T" +:+ fmt_utc_clock ns +:+ fmt_frac (t_nsec (utc ns)).

Lemma stamp_split ns : fmt_rfc3339nano ns = stamp_body ns +:+ "Z".
Proof. unfold fmt_rfc3339nano, stamp_body. by rewrite !append_assoc. Qed.

Lemma str_all_append_int p w z :
  digits_pass p → p "-"%char = true → str_all p (append_int w z) = true.
Proof.
  intros Hp Hm. unfold append_int. destruct (z <? 0); [|by apply str_all_digits].
  cbn [str_all String.append]. by rewrite Hm, str_all_digits.
Qed.

Lemma str_all_frac p n z :
  digits_pass p → 0 ≤ z < 10 ^ Z.of_nat n → str_all p (frac_digits n z) = true.
Proof.
  intros Hp. revert z; induction n as [|n IH]; intros z Hz; cbn [frac_digits]; [done|].
  destruct (z =? 0); [done|]. cbn [str_all].
  rewrite Nat2Z.inj_succ, Z.pow_succ_r in Hz by lia.
  assert (H0 : 0 < 10 ^ Z.of_nat n) by (apply Z.pow_pos_nonneg; lia).
  rewrite Hp by (split; [apply Z.div_pos; lia|apply Z.div_lt_upper_bound; lia]).
  rewrite IH by (apply Z.mod_pos_bound; lia). done.
Qed.

Lemma str_all_stamp p ns : stamp_pass p → str_all p (stamp_body ns) = true.
Proof.
  intros (Hd & Hm & Hc & Ht & Hp). unfold stamp_body, fmt_utc_date, fmt_utc_clock, fmt_frac.
  rewrite !str_all_append, !str_all_append_int by done.
  cbn [str_all]. rewrite Hm, Hc, Ht. cbn [andb].
  destruct (_ =? 0); [done|]. rewrite str_all_append. cbn [str_all]. rewrite Hp.
  cbn [andb]. apply str_all_frac; [done|].
  destruct (utc_fields ns) as (_ & _ & _ & _ & H & _). exact H.
Qed.

Lemma stamp_pass_neq c :
  is_digit c = false → (c ∉ ["-"; ":"; "T"; "."]%char) → stamp_pass (λ d, negb (Ascii.eqb d c)).
Proof.
  intros Hc Hn.
  assert (H : ∀ d, d ≠ c → negb (Ascii.eqb d c) = true)
    by (intros d Hd; by apply negb_true_iff, Ascii.eqb_neq).
  split; [|split_all; apply H; set_solver].
  intros z Hz. apply H. intros E. pose proof (is_digit_digit z Hz). congruence.
Qed.

Lemma utcNanos_prefix a b u v :
  four_digit_year (t_ns a) → four_digit_year (t_ns b) →
  utcNanos a +:+ u = utcNanos b +:+ v → to_utc a = to_utc b ∧ u = v.
Proof.
  intros Ha Hb H. unfold utcNanos in H. rewrite !stamp_split, !append_assoc in H.
  assert (Hz : stamp_pass (λ d, negb (Ascii.eqb d "Z"%char)))
    by (apply stamp_pass_neq; [done|set_solver]).
  apply (field_prefix "Z") in H as [H ->]; [|by apply str_all_stamp|by apply str_all_stamp].
  split; [|done].
  assert (E : t_ns a = t_ns b)
    by (apply fmt_rfc3339nano_inj; [done|done|]; rewrite !stamp_split; by rewrite H).
  unfold to_utc, in_loc. by rewrite E.
Qed.

(** *** Dates and wall times print at a fixed width *)

Definition short_date (d : Date) : bool := valid_date d && (0 <=? d_year d) && (d_year d <? 10000).

Lemma fmt_pad_prefix w a b u v :
  (1 ≤ w)%nat → 0 ≤ a < 10 ^ Z.of_nat w → 0 ≤ b < 10 ^ Z.of_nat w →
  fmt_pad w a +:+ u = fmt_pad w b +:+ v → a = b ∧ u = v.
Proof.
  intros Hw Ha Hb H. rewrite !fmt_pad_fits in H by done.
  apply append_inj in H as [H ->]; [|by rewrite !length_digits].
  split; [by eapply digits_inj|done].
Qed.

Lemma date_String_prefix d e u v :
  short_date d = true → short_date e = true →
  date_String d +:+ u = date_String e +:+ v → d = e ∧ u = v.
Proof.
  unfold short_date, valid_date. intros Hd He H. zb.
  repeat match goal with H : valid_civil _ _ _ = true |- _ =>
    apply valid_civil_bounds in H as (? & ? & _) end.
  unfold date_String in H. rewrite !append_assoc in H.
  apply fmt_pad_prefix in H as [Ey H]; try width. apply append_prefix in H.
  apply fmt_pad_prefix in H as [Em H]; try width. apply append_prefix in H.
  apply fmt_pad_prefix in H as [Ed H]; try width.
  split; [|done]. destruct d, e; simpl in *; congruence.
Qed.

Lemma wall_String_prefix a b u v :
  valid_wall a = true → valid_wall b = true →
  wall_String a +:+ u = wall_String b +:+ v → a = b ∧ u = v.
Proof.
  unfold valid_wall, valid_clock. intros Ha Hb H. zb.
  unfold wall_String in H. rewrite !append_assoc in H.
  apply fmt_pad_prefix in H as [Eh H]; try width. apply append_prefix in H.
  apply fmt_pad_prefix in H as [Em H]; try width. apply append_prefix in H.
  apply fmt_pad_prefix in H as [Es H]; try width.
  split; [|done]. destruct a, b; simpl in *; congruence.
Qed.

(** ** Intents *)

(** What the printers assume: newline-free strings, no colon in the
    provider id, dates and times they print at their usual width. *)
Definition release_times (r : option ReleaseStrategy) : list Time :=
  match r with
  | None => []
  | Some (ExplicitRelease t) | Some (ContinuousRelease t) => [t]
  | Some (DiscoveredRelease a b) => [a; b]
  end.
Definition times_printable (r : option ReleaseStrategy) : Prop :=
  Forall (λ t, four_digit_year (t_ns t)) (release_times r).
Definition pref_printable (p : SlotPreference) : bool :=
  valid_wall (sp_Time p) && one_line (sp_TableType p).
Definition intent_printable (i : Intent) : Prop :=
  (one_line (i_User i) && no_char ":" (vr_Provider (i_Venue i)) && one_line (vr_Ref (i_Venue i))
   && short_date (i_Date i) && forallb pref_printable (i_SlotPrefs i)) = true ∧
  times_printable (i_Release i).

(** The same instants, whatever location they are expressed in. *)
Definition utc_release (r : ReleaseStrategy) : ReleaseStrategy :=
  match r with
  | ExplicitRelease t => ExplicitRelease (to_utc t)
  | DiscoveredRelease a b => DiscoveredRelease (to_utc a) (to_utc b)
  | ContinuousRelease t => ContinuousRelease (to_utc t)
  end.
Definition utc_intent (i : Intent) : Intent :=
  mkIntent (i_User i) (i_Venue i) (i_Date i) (i_PartySize i) (i_SlotPrefs i)
    (utc_release <$> i_Release i).

Lemma intent_text_utc i : intent_text (utc_intent i) = intent_text i.
Proof. by destruct i as [u v d n sp [[]|]]. Qed.

Lemma writeReleaseHash_inj r r' :
  times_printable r → times_printable r' → writeReleaseHash r = writeReleaseHash r' →
  utc_release <$> r = utc_release <$> r'.
Proof.
  unfold times_printable. intros H1 H2 H.
  destruct r as [[a|a b|a]|], r' as [[a'|a' b'|a']|]; try done;
    simpl in H1, H2; repeat match goal with
    | H : Forall _ (_ :: _) |- _ => apply Forall_cons in H as [? H] end;
    simpl in H; repeat match goal with H : String _ _ = String _ _ |- _ => injection H as H end;
    apply utcNanos_prefix in H as [E1 H]; try done; simpl.
  - by rewrite E1.
  - simpl in H. repeat match goal with H : String _ _ = String _ _ |- _ => injection H as H end.
    apply utcNanos_prefix in H as [E2 H]; try done. by rewrite E1, E2.
  - by rewrite E1.
Qed.

Lemma slots_text_inj l m r r' :
  forallb pref_printable l = true → forallb pref_printable m = true →
  foldr (λ p acc, slot_line p +:+ acc) (writeReleaseHash r) l
  = foldr (λ p acc, slot_line p +:+ acc) (writeReleaseHash r') m →
  l = m ∧ writeReleaseHash r = writeReleaseHash r'.
Proof.
  revert m; induction l as [|p l IH]; intros m Hl Hm H; destruct m as [|q m];
    [done|destruct r as [[]|]; done|destruct r' as [[]|]; done|].
  cbn [foldr forallb] in *. unfold pref_printable in Hl, Hm. zb.
  unfold slot_line in H. rewrite !append_assoc in H. apply append_prefix in H.
  apply wall_String_prefix in H as [Et H]; [|done|done]. apply append_prefix in H.
  apply line_prefix in H as [Ett H]; [|done|done].
  apply IH in H as [-> ->]; [|done|done]. split; [|done]. f_equal.
  destruct p, q; simpl in *; congruence.
Qed.

(** The printed intent determines the intent, up to the location the
    release times are expressed in. *)
Lemma intent_text_inj i j :
  intent_printable i → intent_printable j → intent_text i = intent_text j →
  utc_intent i = utc_intent j.
Proof.
  intros [Hi Hri] [Hj Hrj] H. zb. unfold intent_text in H.
  apply append_prefix in H. apply line_prefix in H as [Eu H]; [|done|done].
  apply append_prefix in H. unfold venueRef_String in H. rewrite !append_assoc in H.
  apply (field_prefix ":") in H as [Ep H]; [|done|done].
  apply line_prefix in H as [Er H]; [|done|done].
  apply append_prefix in H. apply date_String_prefix in H as [Ed H]; [|done|done].
  apply append_prefix in H. apply append_prefix in H.
  apply fmt_d_prefix in H as [En H]; [|done|done].
  apply append_prefix in H. apply slots_text_inj in H as [Es H]; [|done|done].
  apply writeReleaseHash_inj in H; [|done|done].
  destruct i as [u [vp vr] d n sp r], j as [u' [vp' vr'] d' n' sp' r']; simpl in *.
  unfold utc_intent; simpl. congruence.
Qed.

(** ** Booking keys *)

Definition slot_identity (p : option SlotPayload) : option (string * string * string) :=
  match p with
  | None => None
  | Some (PResy v) => Some (ConfigID v, TemplateID v, SeatingType v)
  end.
Definition payload_printable (p : option SlotPayload) : bool :=
  match p with
  | None => true
  | Some (PResy v) => no_char " " (ConfigID v) && no_char " " (TemplateID v) && one_line (SeatingType v)
  end.

Lemma payload_text_inj p q u v :
  payload_printable p = true → payload_printable q = true →
  writeSlotPayloadCanonical p +:+ u = writeSlotPayloadCanonical q +:+ v →
  slot_identity p = slot_identity q ∧ u = v.
Proof.
  intros Hp Hq H. destruct p as [[a]|], q as [[b]|]; simpl in Hp, Hq.
  - zb. unfold writeSlotPayloadCanonical in H. rewrite !append_assoc in H.
    apply append_prefix in H.
    apply (field_prefix " ") in H as [Ec H]; [|done|done]. simpl in H.
    repeat match goal with H : String _ _ = String _ _ |- _ => injection H as H end.
    apply (field_prefix " ") in H as [Et H]; [|done|done]. simpl in H.
    repeat match goal with H : String _ _ = String _ _ |- _ => injection H as H end.
    apply line_prefix in H as [Es H]; [|done|done]. simpl. by rewrite Ec, Et, Es.
  - done.
  - done.
  - split; [done|]. by apply append_prefix in H.
Qed.

Lemma idempotency_text_inj h p a h' p' a' :
  one_line h = true → one_line h' = true →
  payload_printable p = true → payload_printable p' = true →
  idempotency_text h p a = idempotency_text h' p' a' →
  h = h' ∧ slot_identity p = slot_identity p' ∧ a = a'.
Proof.
  intros Hh Hh' Hp Hp' H. unfold idempotency_text in H. apply append_prefix in H.
  apply line_prefix in H as [Eh H]; [|done|done].
  apply payload_text_inj in H as [Ep H]; [|done|done]. apply append_prefix in H.
  apply fmt_d_prefix in H as [Ea _]; done.
Qed.

(** ** Plans *)

(** What the engine consumes of a plan. *)
Definition goal_key (g : Goal) :=
  (g_VenueQuery g, g_Date g, g_Party g, g_TimePrefs g, g_AccountID g,
   sort_strings (c_TableTypes (g_Constraints g)), c_AnyTable (g_Constraints g)).
Definition plan_key (p : Plan) :=
  (planHashVersion p, goal_key (p_Goal p),
   (v_Provider (p_Venue p), v_Ref (p_Venue p), venue_tz (p_Venue p)),
   to_utc (p_DropMoment p), utc_release <$> p_Strategy p, map to_utc (p_FireSchedule p),
   p_SigningRequired p).

Definition jfield (k v : string) : string := json_string k +:+ ":" +:+ v.
Definition venueQuery_text (q : option VenueQuery) : string :=
  match q with
  | Some (VenueQueryURL u) =>
      "{" +:+ jfield "kind" (json_string "url") +:+ "," +:+ jfield "url" (json_string u) +:+ "}"
  | Some (VenueQuerySlug s c) =>
      "{" +:+ jfield "city" (json_string c) +:+ "," +:+ jfield "kind" (json_string "slug")
      +:+ "," +:+ jfield "slug" (json_string s) +:+ "}"
  | Some (VenueQueryName n) =>
      "{" +:+ jfield "kind" (json_string "name") +:+ "," +:+ jfield "name" (json_string n) +:+ "}"
  | None => "{" +:+ jfield "kind" (json_string "nil") +:+ "}"
  end.
Definition strategy_text (r : option ReleaseStrategy) : string :=
  match r with
  | None => "{" +:+ jfield "tag" (json_string "nil") +:+ "}"
  | Some (ExplicitRelease t) =>
      "{" +:+ jfield "at" (json_string (utcNanos t)) +:+ ","
      +:+ jfield "tag" (json_string "explicit") +:+ "}"
  | Some (DiscoveredRelease a b) =>
      "{" +:+ jfield "probe_from" (json_string (utcNanos a)) +:+ ","
      +:+ jfield "probe_until" (json_string (utcNanos b)) +:+ ","
      +:+ jfield "tag" (json_string "discovered") +:+ "}"
  | Some (ContinuousRelease t) =>
      "{" +:+ jfield "tag" (json_string "continuous") +:+ ","
      +:+ jfield "until" (json_string (utcNanos t)) +:+ "}"
  end.
Definition strings_text (l : list string) : string :=
  "[" +:+ str_join "," (map json_string l) +:+ "]".
Definition window_text (w : TimeWindow) : string :=
  "{" +:+ jfield "end" (json_string (wall_String (tw_End w))) +:+ ","
  +:+ jfield "priority" (json_string (priority_String (tw_Priority w))) +:+ ","
  +:+ jfield "start" (json_string (wall_String (tw_Start w))) +:+ "}".
Definition goal_text (g : Goal) : string :=
  "{" +:+ jfield "account_id" (json_string (g_AccountID g)) +:+ ","
  +:+ jfield "constraints"
        ("{" +:+ jfield "any_table" (json_bool (c_AnyTable (g_Constraints g))) +:+ ","
         +:+ jfield "table_types" (strings_text (sort_strings (c_TableTypes (g_Constraints g))))
         +:+ "}") +:+ ","
  +:+ jfield "date" (json_string (date_String (g_Date g))) +:+ ","
  +:+ jfield "party" (json_int (g_Party g)) +:+ ","
  +:+ jfield "time_prefs" (window_text (g_TimePrefs g)) +:+ ","
  +:+ jfield "venue_query" (venueQuery_text (g_VenueQuery g)) +:+ "}".
Definition venue_text (v : Venue) : string :=
  "{" +:+ jfield "provider" (json_string (v_Provider v)) +:+ ","
  +:+ jfield "ref" (json_string (v_Ref v)) +:+ ","
  +:+ jfield "tz" (json_string (venue_tz v)) +:+ "}".
Definition plan_text (p : Plan) : string :=
  "{" +:+ jfield "payload"
    ("{" +:+ jfield "drop_moment" (json_string (utcNanos (p_DropMoment p))) +:+ ","
     +:+ jfield "fire_schedule" (strings_text (canonicalTimes (p_FireSchedule p))) +:+ ","
     +:+ jfield "goal" (goal_text (p_Goal p)) +:+ ","
     +:+ jfield "signing_required" (json_bool (p_SigningRequired p)) +:+ ","
     +:+ jfield "strategy" (strategy_text (p_Strategy p)) +:+ ","
     +:+ jfield "venue" (venue_text (p_Venue p)) +:+ "}") +:+ ","
  +:+ jfield "plan_hash_version" (json_int (planHashVersion p)) +:+ "}".

(** A map with concrete keys: sort them by computation, look each up. *)
Ltac sorted_map :=
  rewrite writeCanonical_map; unfold entry_texts; cbn [map fst snd];
  unfold map_text; cbn [map fst snd];
  match goal with |- context [sort_strings ?l] =>
    let l' := eval vm_compute in (sort_strings l) in
    replace (sort_strings l) with l' by (vm_compute; reflexivity)
  end;
  cbn [map str_join map_get];
  repeat match goal with |- context [str_eqb ?a ?b] =>
    let r := eval vm_compute in (str_eqb a b) in change (str_eqb a b) with r
  end;
  unfold jfield, id; cbn [default from_option id]; rewrite ?append_assoc.

Lemma canon_venueQuery q : writeCanonical (canonicalVenueQuery q) = venueQuery_text q.
Proof. destruct q as [[]|]; unfold canonicalVenueQuery, venueQuery_text; sorted_map; reflexivity. Qed.
Lemma canon_constraints c :
  writeCanonical (canonicalConstraints c)
  = "{" +:+ jfield "any_table" (json_bool (c_AnyTable c)) +:+ ","
    +:+ jfield "table_types" (strings_text (sort_strings (c_TableTypes c))) +:+ "}".
Proof.
  unfold canonicalConstraints. generalize (sort_strings (c_TableTypes c)). intros l.
  sorted_map. reflexivity.
Qed.
Lemma canon_window w :
  writeCanonical (AMap [("start", AString (wall_String (tw_Start w)));
                        ("end", AString (wall_String (tw_End w)));
                        ("priority", AString (priority_String (tw_Priority w)))])
  = window_text w.
Proof. unfold window_text. sorted_map. reflexivity. Qed.
Lemma canon_goal g : writeCanonical (canonicalGoal g) = goal_text g.
Proof.
  unfold canonicalGoal, goal_text. rewrite <- canon_constraints, <- canon_window, <- canon_venueQuery.
  generalize (canonicalConstraints (g_Constraints g)) (canonicalVenueQuery (g_VenueQuery g)).
  intros c q. generalize (AMap [("start", AString (wall_String (tw_Start (g_TimePrefs g))));
     ("end", AString (wall_String (tw_End (g_TimePrefs g))));
     ("priority", AString (priority_String (tw_Priority (g_TimePrefs g))))]).
  intros w. sorted_map. reflexivity.
Qed.
Lemma canon_venue v : writeCanonical (canonicalVenue v) = venue_text v.
Proof. unfold canonicalVenue, venue_text. sorted_map. reflexivity. Qed.
Lemma canon_strategy r :
  ∃ a, canonicalStrategy r = Ok a ∧ writeCanonical a = strategy_text r.
Proof.
  destruct r as [[]|]; (eexists; split; [reflexivity|]); unfold strategy_text; sorted_map; reflexivity.
Qed.

Lemma CanonicalBytes_text p : CanonicalBytes p = Ok (plan_text p).
Proof.
  unfold CanonicalBytes, canonicalPayload.
  destruct (canon_strategy (p_Strategy p)) as (a & -> & Ea). cbn [mbind outcome_bind].
  f_equal. unfold canonicalMarshal, plan_text.
  rewrite <- Ea, <- canon_goal, <- canon_venue.
  generalize (canonicalGoal (p_Goal p)) (canonicalVenue (p_Venue p)). intros g v.
  sorted_map. f_equal. f_equal. f_equal.
  sorted_map. reflexivity.
Qed.

(** ASCII strings, dates and times printed at their usual width. *)
Definition query_printable (q : option VenueQuery) : bool :=
  match q with
  | Some (VenueQueryURL u) => is_ascii u
  | Some (VenueQuerySlug s c) => is_ascii s && is_ascii c
  | Some (VenueQueryName n) => is_ascii n
  | None => true
  end.
Definition goal_printable (g : Goal) : bool :=
  query_printable (g_VenueQuery g) && short_date (g_Date g)
  && valid_wall (tw_Start (g_TimePrefs g)) && valid_wall (tw_End (g_TimePrefs g))
  && is_ascii (g_AccountID g) && forallb is_ascii (c_TableTypes (g_Constraints g)).
Definition plan_printable (p : Plan) : Prop :=
  (goal_printable (p_Goal p) && is_ascii (v_Provider (p_Venue p)) && is_ascii (v_Ref (p_Venue p))
   && is_ascii (venue_tz (p_Venue p))) = true ∧
  times_printable (p_Strategy p) ∧ four_digit_year (t_ns (p_DropMoment p)) ∧
  Forall (λ t, four_digit_year (t_ns t)) (p_FireSchedule p).

Lemma ascii_pass : stamp_pass (λ c, byte_of c <? 128).
Proof. split; [by apply digits_pass_from; vm_compute|done]. Qed.
Lemma is_ascii_stamp t : is_ascii (utcNanos t) = true.
Proof.
  unfold utcNanos, is_ascii. rewrite stamp_split, str_all_append.
  by rewrite (str_all_stamp _ _ ascii_pass).
Qed.
Lemma is_ascii_date d : is_ascii (date_String d) = true.
Proof.
  destruct ascii_pass as [Hd _]. unfold is_ascii, date_String.
  by rewrite !str_all_append, !str_all_fmt_pad.
Qed.
Lemma is_ascii_wall w : is_ascii (wall_String w) = true.
Proof.
  destruct ascii_pass as [Hd _]. unfold is_ascii, wall_String.
  by rewrite !str_all_append, !str_all_fmt_pad.
Qed.
Lemma is_ascii_priority p : is_ascii (priority_String p) = true.
Proof. by destruct p. Qed.
Lemma forallb_sort l : forallb is_ascii (sort_strings l) = forallb is_ascii l.
Proof.
  apply eq_iff_eq_true. rewrite !forallb_forall.
  assert (H : sort_strings l ≡ₚ l) by apply merge_sort_Permutation.
  split; intros Hf x Hx; apply Hf, list_elem_of_In; apply list_elem_of_In in Hx.
  - by rewrite H.
  - by rewrite <- H.
Qed.
Lemma forallb_stamps l : forallb is_ascii (canonicalTimes l) = true.
Proof. induction l as [|t l IH]; [done|]. cbn. by rewrite is_ascii_stamp. Qed.
#[export] Hint Resolve is_ascii_stamp is_ascii_date is_ascii_wall is_ascii_priority
  forallb_stamps : snipe.

Lemma utcNanos_inj a b :
  four_digit_year (t_ns a) → four_digit_year (t_ns b) → utcNanos a = utcNanos b →
  to_utc a = to_utc b.
Proof.
  intros Ha Hb H. eapply (utcNanos_prefix a b "" ""); [done|done|by rewrite H].
Qed.
Lemma canonicalTimes_inj l m :
  Forall (λ t, four_digit_year (t_ns t)) l → Forall (λ t, four_digit_year (t_ns t)) m →
  canonicalTimes l = canonicalTimes m → map to_utc l = map to_utc m.
Proof.
  revert m; induction l as [|a l IH]; intros [|b m] Hl Hm H; try done.
  apply Forall_cons in Hl as [Ha Hl], Hm as [Hb Hm]. injection H as H1 H2.
  cbn [map]. f_equal; [by apply utcNanos_inj|by apply IH].
Qed.
Lemma json_bool_prefix b c u v : json_bool b +:+ u = json_bool c +:+ v → b = c ∧ u = v.
Proof. destruct b, c; simpl; intros H; try done; by repeat (injection H as H). Qed.
Lemma strings_text_prefix l m u v :
  forallb is_ascii l = true → forallb is_ascii m = true →
  strings_text l +:+ u = strings_text m +:+ v → l = m ∧ u = v.
Proof.
  intros Hl Hm H. unfold strings_text in H. rewrite !append_assoc in H.
  apply append_prefix in H. by apply json_strings_prefix in H.
Qed.

(** Peel equal literals and JSON strings off both sides. *)
Ltac peel H :=
  unfold jfield in H; rewrite ?append_assoc in H;
  repeat first
    [ apply append_prefix in H
    | apply json_string_prefix in H as [?Ej H];
        [|solve [reflexivity|eauto with snipe]|solve [reflexivity|eauto with snipe]] ];
  try discriminate.

Lemma venueQuery_prefix q r u v :
  query_printable q = true → query_printable r = true →
  venueQuery_text q +:+ u = venueQuery_text r +:+ v → q = r ∧ u = v.
Proof.
  intros Hq Hr H.
  destruct q as [[x|x y|x]|], r as [[x'|x' y'|x']|]; simpl in Hq, Hr;
    repeat match goal with H : andb _ _ = true |- _ => apply andb_true_iff in H as [? ?] end;
    unfold venueQuery_text in H; peel H; subst; done.
Qed.
Lemma strategy_prefix r s u v :
  times_printable r → times_printable s →
  strategy_text r +:+ u = strategy_text s +:+ v → utc_release <$> r = utc_release <$> s ∧ u = v.
Proof.
  unfold times_printable. intros Hr Hs H.
  destruct r as [[a|a b|a]|], s as [[a'|a' b'|a']|]; simpl in Hr, Hs;
    unfold strategy_text in H; peel H;
    repeat match goal with
    | H : Forall _ (_ :: _) |- _ => apply Forall_cons in H as [? H]
    | H : utcNanos _ = utcNanos _ |- _ => apply utcNanos_inj in H; [|done|done]
    end; simpl; (split; [congruence|done]).
Qed.
Lemma window_prefix w x u v :
  valid_wall (tw_Start w) = true → valid_wall (tw_End w) = true →
  valid_wall (tw_Start x) = true → valid_wall (tw_End x) = true →
  window_text w +:+ u = window_text x +:+ v → w = x ∧ u = v.
Proof.
  intros H1 H2 H3 H4 H. unfold window_text in H. peel H. split; [|done].
  destruct w as [s e p], x as [s' e' p']; simpl in *.
  assert (s = s') as -> by (eapply (wall_String_prefix s s' "" ""); [done|done|congruence]).
  assert (e = e') as -> by (eapply (wall_String_prefix e e' "" ""); [done|done|congruence]).
  destruct p, p'; done.
Qed.
Lemma goal_prefix g h u v :
  goal_printable g = true → goal_printable h = true →
  goal_text g +:+ u = goal_text h +:+ v → goal_key g = goal_key h ∧ u = v.
Proof.
  unfold goal_printable. intros Hg Hh H. zb. unfold goal_text in H. peel H.
  apply json_bool_prefix in H as [Ea H]. peel H.
  apply strings_text_prefix in H as [Et H]; [|by rewrite forallb_sort|by rewrite forallb_sort].
  peel H. apply fmt_d_prefix in H as [En H]; [|done|done]. peel H.
  apply window_prefix in H as [Ew H]; [|done|done|done|done]. peel H.
  apply venueQuery_prefix in H as [Eq H]; [|done|done]. peel H.
  split; [|done]. unfold goal_key.
  match goal with E : date_String _ = date_String _ |- _ =>
    apply (f_equal (λ s, s +:+ "")) in E; apply date_String_prefix in E as [Ed _]; [|done|done]
  end. congruence.
Qed.

Lemma plan_text_inj p q :
  plan_printable p → plan_printable q → plan_text p = plan_text q → plan_key p = plan_key q.
Proof.
  intros (Hp & Hps & Hpd & Hpf) (Hq & Hqs & Hqd & Hqf) H. zb.
  unfold plan_text in H. peel H.
  apply strings_text_prefix in H as [Ef H]; [|apply forallb_stamps|apply forallb_stamps].
  peel H. apply goal_prefix in H as [Eg H]; [|done|done]. peel H.
  apply json_bool_prefix in H as [Eb H]. peel H.
  apply strategy_prefix in H as [Es H]; [|done|done]. peel H.
  unfold venue_text in H. peel H.
  apply fmt_d_prefix in H as [Ev _]; [|done|done].
  apply canonicalTimes_inj in Ef; [|done|done].
  match goal with E : utcNanos _ = utcNanos _ |- _ => apply utcNanos_inj in E; [|done|done] end.
  unfold plan_key. congruence.
Qed.

Lemma plan_text_key p q : plan_key p = plan_key q → plan_text p = plan_text q.
Proof.
  unfold plan_key, goal_key. intros H. injection H as Hv Hq Hd Hn Hw Ha Ht Hany Hp Hr Htz Hm Hs Hf Hb.
  assert (Es : strategy_text (p_Strategy p) = strategy_text (p_Strategy q)).
  { assert (E : ∀ r, strategy_text r = strategy_text (utc_release <$> r))
      by (by intros [[]|]).
    by rewrite E, Hs, <- E. }
  assert (Ef : canonicalTimes (p_FireSchedule p) = canonicalTimes (p_FireSchedule q)).
  { assert (E : ∀ l, canonicalTimes l = canonicalTimes (map to_utc l))
      by (intros l; unfold canonicalTimes; rewrite map_map; by apply map_ext).
    by rewrite E, Hf, <- E. }
  assert (Ed : utcNanos (p_DropMoment p) = utcNanos (p_DropMoment q))
    by (unfold utcNanos; by rewrite Hm).
  unfold plan_text, goal_text, venue_text.
  by rewrite Ed, Ef, Es, Hq, Hd, Hn, Hw, Ha, Ht, Hany, Hp, Hr, Htz, Hb, Hv.
Qed.

Lemma WithHash_key p q :
  plan_key p = plan_key q →
  match WithHash p, WithHash q with
  | Ok p', Ok q' => p_Hash p' = p_Hash q'
  | _, _ => True
  end.
Proof.
  intros E. unfold WithHash, ComputeHash. rewrite !CanonicalBytes_text.
  cbn [mbind outcome_bind p_Hash with_hash]. by rewrite (plan_text_key _ _ E).
Qed.

(** ** Properties *)

(** C30. Plan drift detection: on plans whose strings are ASCII and whose
    dates print in four-digit years, the canonical bytes coincide exactly
    when the plans agree on the hash version, the goal, the venue's identity
    and time zone, the drop moment, the strategy, the fire schedule as
    instants and the signing, the table types compared without their order;
    the notes, the computation time and the stored hash play no part.  The
    order of the table types, which the engine follows, is not pinned
    ([CanonicalBytes_table_order]). *)
Theorem CanonicalBytes_drift p q :
  plan_printable p → plan_printable q →
  CanonicalBytes p = CanonicalBytes q ↔ plan_key p = plan_key q.
Proof.
  intros Hp Hq. rewrite !CanonicalBytes_text. split.
  - intros H. apply plan_text_inj; [done|done|].
    exact (f_equal (λ o, match o with Ok s => s | Err _ => "" end) H).
  - intros H. f_equal. by apply plan_text_key.
Qed.

(** [WithHash] always succeeds, changes the hash only, and is stable: it
    depends on [plan_key] alone, so re-hashing a stored plan (its notes,
    computation time or stored hash rewritten) gives the hash it carries,
    the prefix [sha256:] and 64 hex digits. *)
Theorem WithHash_stable p :
  ∃ h, WithHash p = Ok (with_hash h p) ∧ String.length h = 71%nat ∧
    String.substring 0 7 h = "sha256:" ∧
    ∀ q, plan_key q = plan_key p → WithHash q = Ok (with_hash h q).
Proof.
  unfold WithHash, ComputeHash. rewrite CanonicalBytes_text. cbn [mbind outcome_bind].
  eexists. split; [done|]. split.
  { rewrite length_append, sha256_hex_length. done. }
  split; [by destruct (sha256_hex (plan_text p))|].
  intros q Hq. rewrite CanonicalBytes_text. cbn [mbind outcome_bind].
  by rewrite (plan_text_key _ _ Hq).
Qed.

(** The intent hash is content addressing: the hashed texts of two
    intents (newline-free strings, no colon in the provider id, dates and
    times in printable range) are equal exactly when the intents agree on
    every field, release times compared as instants in UTC; so intents that
    agree hash alike, and intents that differ do unless SHA-256 collides. *)
Theorem intent_Hash_content i j :
  intent_printable i → intent_printable j →
  (intent_text i = intent_text j ↔ utc_intent i = utc_intent j) ∧
  (utc_intent i = utc_intent j → intent_Hash i = intent_Hash j) ∧
  (intent_Hash i = intent_Hash j → utc_intent i = utc_intent j ∨
     (intent_text i ≠ intent_text j ∧ sha256_hex (intent_text i) = sha256_hex (intent_text j))).
Proof.
  intros Hi Hj.
  assert (E : intent_text i = intent_text j ↔ utc_intent i = utc_intent j).
  { split; [by apply intent_text_inj|]. intros E.
    by rewrite <- intent_text_utc, <- (intent_text_utc j), E. }
  split; [done|]. split; unfold intent_Hash; [by intros ->%E|].
  intros H. destruct (decide (intent_text i = intent_text j)) as [?%E|?]; auto.
Qed.

(** Booking keys: the text hashed for an attempt determines the intent
    hash, the slot's identity (config, template, seating) and the attempt
    number, and nothing else: a retry of the same attempt sends the same
    key even under a refreshed book token, a different attempt never sends
    the text of another. *)
Theorem IdempotencyKey_content h p a h' p' a' :
  one_line h = true → one_line h' = true →
  payload_printable p = true → payload_printable p' = true →
  (idempotency_text h p a = idempotency_text h' p' a' ↔
   h = h' ∧ slot_identity p = slot_identity p' ∧ a = a') ∧
  (h = h' ∧ slot_identity p = slot_identity p' ∧ a = a' →
   IdempotencyKey h p a = IdempotencyKey h' p' a').
Proof.
  intros Hh Hh' Hp Hp'.
  assert (E : h = h' ∧ slot_identity p = slot_identity p' ∧ a = a' →
              idempotency_text h p a = idempotency_text h' p' a').
  { intros (-> & E & ->). unfold idempotency_text. do 3 f_equal.
    destruct p as [[x]|], p' as [[y]|]; simpl in *; try done. by injection E as -> -> ->. }
  split; [split; [by apply idempotency_text_inj|done]|].
  intros H. unfold IdempotencyKey. by rewrite E.
Qed.

(** A table type with a newline reads as further slot lines: two different
    intents, one hash. *)
Lemma intent_Hash_newline :
  ∃ i j, i_SlotPrefs i ≠ i_SlotPrefs j ∧ intent_Hash i = intent_Hash j.
Proof.
  set (mk := λ sp, mkIntent "u" (mkVenueRef "resy" "1") (mkDate 2026 6 9) 2 sp None).
  exists (mk [mkSlotPreference (mkWallTime 18 0 0) ("Bar" +:+ nl +:+ "slot=18:30:00/Bar")]).
  exists (mk [mkSlotPreference (mkWallTime 18 0 0) "Bar"; mkSlotPreference (mkWallTime 18 30 0) "Bar"]).
  split; [done|]. unfold intent_Hash. f_equal.
Qed.

(** ** Witnesses *)

Definition sample_intent (t : Time) : Intent :=
  mkIntent "user-1" (mkVenueRef "resy" "6194") (mkDate 2026 6 9) 2
    [mkSlotPreference (mkWallTime 18 0 0) "Dining Room"] (Some (ExplicitRelease t)).
Definition drop_ny : Time := go_date 2026 5 10 0 0 0 0 NewYork2026.

Lemma intent_Hash_content_witness :
  intent_Hash (sample_intent drop_ny) = intent_Hash (sample_intent (to_utc drop_ny)).
Proof.
  apply (intent_Hash_content (sample_intent drop_ny) (sample_intent (to_utc drop_ny)));
    [| |reflexivity];
    (split; [reflexivity|repeat constructor; cbv; congruence]).
Defined.

Definition sample_payload (token : string) : option SlotPayload :=
  Some (PResy (mkResySlotPayload "cfg-1" "tpl-1" "Dining Room" token 7)).
Lemma IdempotencyKey_content_witness :
  IdempotencyKey "abc" (sample_payload "t1") 1 = IdempotencyKey "abc" (sample_payload "t2") 1.
Proof.
  apply (IdempotencyKey_content "abc" (sample_payload "t1") 1 "abc" (sample_payload "t2") 1);
    [reflexivity|reflexivity|reflexivity|reflexivity|split; [reflexivity|split; reflexivity]].
Defined.

Definition sample_goal (tables : list string) : Goal :=
  mkGoal (Some (VenueQuerySlug "carbone" "ny")) (mkDate 2026 6 9) 2 evening "acct-1"
    (mkConstraints tables false).
Definition sample_plan (tables notes : list string) : Plan :=
  mkPlan (sample_goal tables) (mkVenue "resy" "6194" "Carbone" (Some NewYork2026))
    (to_utc drop_ny) (Some (ExplicitRelease (to_utc drop_ny))) [to_utc drop_ny] false "" notes 1
    (to_utc drop_ny).
Lemma CanonicalBytes_drift_witness :
  CanonicalBytes (sample_plan ["Bar"; "Parlor"] []) = CanonicalBytes (sample_plan ["Bar"; "Parlor"] ["n"]).
Proof.
  apply (CanonicalBytes_drift (sample_plan ["Bar"; "Parlor"] []) (sample_plan ["Bar"; "Parlor"] ["n"]));
    [| |reflexivity];
    (split; [reflexivity|split_all; repeat constructor; cbv; congruence]).
Defined.

(** Plans that race the tables in different orders share their bytes. *)
Lemma CanonicalBytes_table_order :
  CanonicalBytes (sample_plan ["Bar"; "Parlor"] []) = CanonicalBytes (sample_plan ["Parlor"; "Bar"] []) ∧
  ExpandSlots evening (mkConstraints ["Bar"; "Parlor"] false)
  ≠ ExpandSlots evening (mkConstraints ["Parlor"; "Bar"] false).
Proof.
  split.
  - rewrite !CanonicalBytes_text. apply (f_equal Ok), plan_text_key. vm_compute. reflexivity.
  - vm_compute. congruence.
Qed.
