(* ===== verification/Codec.v ===== *)
(** * The persistence codecs: [store/intent_codec.go], [event_attrs.go],
      [payload_codec.go], the goal codec of [store/quests.go]

    A JSON column is modelled by the Go struct that is marshalled into it
    (the [...JSON] records below, their times already text): encoding/json
    itself is the identity between a struct and its text.  Times, dates
    and wall times do cross as text, printed and parsed. *)

From S2P Require Import Prelude GoTime GoFormat Types Slots Drop Json Hash Status.
From Stdlib Require Import Ascii.

(** ** Times as JSON *)

(** [Time.MarshalJSON]: RFC 3339 in the time's own zone, or an error. *)
Definition json_time (t : Time) : res string :=
  if (t_year (utc (face_ns t)) <? 0) || (10000 <=? t_year (utc (face_ns t))) then
    Err (ENew "Time.MarshalJSON: year outside of range [0,9999]")
  else if 86400 <=? Z.abs (zone_offset t) then
    Err (ENew "Time.MarshalJSON: timezone hour outside of range [0,23]")
  else Ok (fmt_rfc3339nano_in t).
(** With [omitzero]: the field is absent. *)
Definition json_time_omitzero (t : Time) : res (option string) :=
  if is_zero_time t then Ok None else Some <$> json_time t.
Definition unjson_time (s : option string) : res Time :=
  match s with
  | None => Ok zero_time
  | Some s =>
      match parse_rfc3339nano s with
      | Some t => Ok t
      | None => Err (ENew "Time.UnmarshalJSON: not an RFC 3339 time")
      end
  end.

(** ** Intents *)

Record slotPrefJSON := mkSlotPrefJSON { spj_Time : string; spj_TableType : string }.
Record releaseJSON := mkReleaseJSON {
  rj_Kind : string;
  rj_At : option string;
  rj_ProbeFrom : option string;
  rj_ProbeUntil : option string;
  rj_Until : option string
}.
Record intentJSON := mkIntentJSON {
  ij_User : string;
  ij_Venue : VenueRef;
  ij_Date : string;
  ij_PartySize : Z;
  ij_SlotPrefs : list slotPrefJSON;
  ij_Release : option releaseJSON
}.
Definition releaseKindExplicit : string := "explicit".
Definition releaseKindDiscovered : string := "discovered".
Definition releaseKindContinuous : string := "continuous".

Definition encodeRelease (r : option ReleaseStrategy) : res (option releaseJSON) :=
  match r with
  | None => Ok None
  | Some (ExplicitRelease t) =>
      t ← json_time_omitzero t; Ok (Some (mkReleaseJSON releaseKindExplicit t None None None))
  | Some (DiscoveredRelease f u) =>
      f ← json_time_omitzero f; u ← json_time_omitzero u;
      Ok (Some (mkReleaseJSON releaseKindDiscovered None f u None))
  | Some (ContinuousRelease t) =>
      t ← json_time_omitzero t; Ok (Some (mkReleaseJSON releaseKindContinuous None None None t))
  end.
Definition MarshalIntent (i : Intent) : res intentJSON :=
  rel ← encodeRelease (i_Release i);
  Ok (mkIntentJSON (i_User i) (i_Venue i) (date_String (i_Date i)) (i_PartySize i)
        (map (λ p, mkSlotPrefJSON (wall_String (sp_Time p)) (sp_TableType p)) (i_SlotPrefs i)) rel).

(** [json.Unmarshal] has read every time field before the kind is looked at. *)
Definition decodeRelease (j : option releaseJSON) : res (option ReleaseStrategy) :=
  match j with
  | None => Ok None
  | Some j =>
      at_ ← unjson_time (rj_At j); from ← unjson_time (rj_ProbeFrom j);
      until ← unjson_time (rj_ProbeUntil j); cap ← unjson_time (rj_Until j);
      if str_eqb (rj_Kind j) releaseKindExplicit then Ok (Some (ExplicitRelease at_))
      else if str_eqb (rj_Kind j) releaseKindDiscovered then Ok (Some (DiscoveredRelease from until))
      else if str_eqb (rj_Kind j) releaseKindContinuous then Ok (Some (ContinuousRelease cap))
      else Err (ENew ("decodeRelease: unknown kind " +:+ fmt_q (rj_Kind j)))
  end.
Fixpoint decodeSlotPrefs (l : list slotPrefJSON) : res (list SlotPreference) :=
  match l with
  | [] => Ok []
  | p :: l' =>
      match ParseWallTime (spj_Time p) with
      | Err e => Err (wrap ("UnmarshalIntent slot time " +:+ fmt_q (spj_Time p) +:+ ": ") e)
      | Ok w => rest ← decodeSlotPrefs l'; Ok (mkSlotPreference w (spj_TableType p) :: rest)
      end
  end.
Definition UnmarshalIntent (raw : intentJSON) : res Intent :=
  match ParseDate (ij_Date raw) with
  | Err e => Err (wrap "UnmarshalIntent date: " e)
  | Ok d =>
      prefs ← decodeSlotPrefs (ij_SlotPrefs raw);
      rel ← decodeRelease (ij_Release raw);
      Ok (mkIntent (ij_User raw) (ij_Venue raw) d (ij_PartySize raw) prefs rel)
  end.

(** ** Results *)

Record resultJSON := mkResultJSON { resj_BookedAt : string; resj_ConfirmationID : string }.
Definition MarshalResult (r : option Result) : res (option resultJSON) :=
  match r with
  | None => Ok None
  | Some r => t ← json_time (r_BookedAt r); Ok (Some (mkResultJSON t (r_ConfirmationID r)))
  end.
Definition UnmarshalResult (j : option resultJSON) : res (option Result) :=
  match j with
  | None => Ok None
  | Some j =>
      match unjson_time (Some (resj_BookedAt j)) with
      | Err e => Err (wrap "UnmarshalResult: " e)
      | Ok t => Ok (Some (mkResult t (resj_ConfirmationID j)))
      end
  end.

(** ** Event attributes (of the kinds the program logs) *)

Record flatAttr := mkFlatAttr { fa_Key : string; fa_Kind : string; fa_Value : string }.
Definition kind_String (v : AttrValue) : string :=
  match v with VString _ => "String" | VInt _ => "Int64" | VTime _ => "Time" end.
Definition stringifyValue (v : AttrValue) : string :=
  match v with
  | VString s => s
  | VInt z => fmt_d z
  | VTime t => fmt_rfc3339nano (t_ns t)
  end.
Definition EncodeAttrs (attrs : list Attr) : list flatAttr :=
  map (λ a, mkFlatAttr a.1 (kind_String a.2) (stringifyValue a.2)) attrs.

(** [strconv.ParseInt(s, 10, 64)]. *)
Definition parse_digits (s : string) : option Z :=
  match s with EmptyString => None | _ => read_digits 0 s end.
Definition parse_int64 (s : string) : option Z :=
  let signed neg s :=
    z ← parse_digits s;
    let z := if neg : bool then - z else z in
    if (min_int64 <=? z) && (z <=? max_int64) then Some z else None in
  match s with
  | String "-" s' => signed true s'
  | String "+" s' => signed false s'
  | _ => signed false s
  end.
Definition decodeOneAttr (f : flatAttr) : Attr :=
  (fa_Key f,
   if str_eqb (fa_Kind f) "Int64" then
     match parse_int64 (fa_Value f) with Some z => VInt z | None => VString (fa_Value f) end
   else if str_eqb (fa_Kind f) "Time" then
     match parse_rfc3339nano (fa_Value f) with Some t => VTime t | None => VString (fa_Value f) end
   else VString (fa_Value f)).
Definition DecodeAttrs (data : list flatAttr) : list Attr := map decodeOneAttr data.

(** ** Slot payloads *)

Record slotPayloadEnvelope := mkEnvelope { env_Kind : string; env_Payload : ResySlotPayload }.
Definition SlotPayloadKindResy : string := "resy".
Definition MarshalSlotPayload (p : option SlotPayload) : res slotPayloadEnvelope :=
  match p with
  | None => Err (ENew "MarshalSlotPayload: nil payload")
  | Some (PResy v) => Ok (mkEnvelope SlotPayloadKindResy v)
  end.
Definition UnmarshalSlotPayload (env : slotPayloadEnvelope) : res SlotPayload :=
  if str_eqb (env_Kind env) SlotPayloadKindResy then Ok (PResy (env_Payload env))
  else if is_empty (env_Kind env) then Err (ENew "UnmarshalSlotPayload: missing kind discriminator")
  else Err (ENew ("UnmarshalSlotPayload: unknown kind " +:+ fmt_q (env_Kind env))).

(** ** Goals *)

Record venueQueryJSON := mkVenueQueryJSON {
  vqj_Kind : string; vqj_URL : string; vqj_Slug : string; vqj_City : string; vqj_Name : string
}.
Record timeWindowJSON := mkTimeWindowJSON { twj_Start : string; twj_End : string; twj_Priority : string }.
Record goalJSONShape := mkGoalJSON {
  gj_VenueQuery : venueQueryJSON;
  gj_Date : string;
  gj_Party : Z;
  gj_TimePrefs : timeWindowJSON;
  gj_AccountID : string;
  gj_Constraints : Constraints
}.
Definition encodeVenueQuery (q : option VenueQuery) : venueQueryJSON :=
  match q with
  | Some (VenueQueryURL u) => mkVenueQueryJSON "url" u "" "" ""
  | Some (VenueQuerySlug s c) => mkVenueQueryJSON "slug" "" s c ""
  | Some (VenueQueryName n) => mkVenueQueryJSON "name" "" "" "" n
  | None => mkVenueQueryJSON "nil" "" "" "" ""
  end.
Definition decodeVenueQuery (j : venueQueryJSON) : res (option VenueQuery) :=
  if str_eqb (vqj_Kind j) "url" then Ok (Some (VenueQueryURL (vqj_URL j)))
  else if str_eqb (vqj_Kind j) "slug" then Ok (Some (VenueQuerySlug (vqj_Slug j) (vqj_City j)))
  else if str_eqb (vqj_Kind j) "name" then Ok (Some (VenueQueryName (vqj_Name j)))
  else if str_eqb (vqj_Kind j) "nil" || is_empty (vqj_Kind j) then Ok None
  else Err (ENew ("unknown venue_query.kind " +:+ fmt_q (vqj_Kind j))).
Definition parseTimePriority (s : string) : TimePriority :=
  if str_eqb s "earlier" then PriorityEarlier
  else if str_eqb s "later" then PriorityLater else PriorityNone.
Definition MarshalGoal (g : Goal) : goalJSONShape :=
  mkGoalJSON (encodeVenueQuery (g_VenueQuery g)) (date_String (g_Date g)) (g_Party g)
    (mkTimeWindowJSON (wall_String (tw_Start (g_TimePrefs g))) (wall_String (tw_End (g_TimePrefs g)))
       (priority_String (tw_Priority (g_TimePrefs g))))
    (g_AccountID g)
    (mkConstraints (c_TableTypes (g_Constraints g)) (c_AnyTable (g_Constraints g))).
Definition in_UnmarshalGoal {A} (what : string) (m : res A) : res A :=
  match m with Ok a => Ok a | Err e => Err (wrap ("UnmarshalGoal" +:+ what +:+ ": ") e) end.
Definition UnmarshalGoal (raw : goalJSONShape) : res Goal :=
  vq ← in_UnmarshalGoal "" (decodeVenueQuery (gj_VenueQuery raw));
  d ← in_UnmarshalGoal " date" (ParseDate (gj_Date raw));
  start ← in_UnmarshalGoal " time_prefs.start" (ParseWallTime (twj_Start (gj_TimePrefs raw)));
  end_ ← in_UnmarshalGoal " time_prefs.end" (ParseWallTime (twj_End (gj_TimePrefs raw)));
  Ok (mkGoal vq d (gj_Party raw)
        (mkTimeWindow start end_ (parseTimePriority (twj_Priority (gj_TimePrefs raw))))
        (gj_AccountID raw) (gj_Constraints raw)).

(** ** Quest status columns *)

Definition statusDBString (s : Status) : string :=
  match s with
  | StatusSubmitted => "pending"
  | StatusScheduled | StatusDiscovering | StatusAwaiting => "scheduled"
  | StatusFinding | StatusBooking => "firing"
  | StatusBooked => "booked"
  | StatusFailed | StatusExpired => "failed"
  | StatusCanceled => "cancelled"
  end.
Definition parseStatusDB (s : string) : res Status :=
  if str_eqb s "pending" then Ok StatusSubmitted
  else if str_eqb s "scheduled" then Ok StatusScheduled
  else if str_eqb s "firing" then Ok StatusFinding
  else if str_eqb s "booked" then Ok StatusBooked
  else if str_eqb s "failed" then Ok StatusFailed
  else if str_eqb s "cancelled" then Ok StatusCanceled
  else Err (ENew ("unknown quest status " +:+ fmt_q s)).

(** ** Dates and wall times through their text *)

Lemma ParseDate_String d : short_date d = true → ParseDate (date_String d) = Ok d.
Proof.
  unfold short_date, valid_date. intros H. zb.
  pose proof H as Hv. apply valid_civil_bounds in H as (Hm & Hd & _).
  unfold ParseDate, date_String, parse_ymd, take_date.
  rewrite !fmt_pad_fits by width.
  rewrite take_num_digits by width. cbn [mbind option_bind String.append].
  rewrite expect_here. cbn [mbind option_bind].
  rewrite take_num_digits by width. cbn [mbind option_bind String.append].
  rewrite in_range_ok by lia. cbn [mbind option_bind]. rewrite expect_here. cbn [mbind option_bind].
  rewrite <- (append_nil_r (digits 2 (d_day d))), take_num_digits by width.
  cbn [mbind option_bind at_end]. rewrite Hv. by destruct d.
Qed.

Lemma ParseWallTime_String w : valid_wall w = true → ParseWallTime (wall_String w) = Ok w.
Proof.
  unfold valid_wall, valid_clock. intros H. zb.
  unfold ParseWallTime, wall_String, parse_hms, take_hms, take_hm.
  rewrite !fmt_pad_fits by width.
  rewrite take_num12_digits by lia. cbn [mbind option_bind String.append].
  rewrite in_range_ok by lia. cbn [mbind option_bind]. rewrite expect_here. cbn [mbind option_bind].
  rewrite take_num_digits by width. cbn [mbind option_bind String.append].
  rewrite in_range_ok by lia. cbn [mbind option_bind]. rewrite expect_here. cbn [mbind option_bind].
  rewrite <- (append_nil_r (digits 2 (w_second w))), take_num_digits by width.
  cbn [mbind option_bind]. rewrite in_range_ok by lia. by destruct w.
Qed.

(** ** Times through JSON *)

(** A time [json.Marshal] prints without loss. *)
Definition storable (t : Time) : Prop :=
  four_digit_year (face_ns t) ∧ whole_offset (zone_offset t).
(** The same instant, in UTC if the original was, and again printable. *)
Definition same_instant (t t' : Time) : Prop :=
  to_utc t' = to_utc t ∧ (t_loc t = UTC → t' = t) ∧ storable t'.

Lemma storable_utc ns : four_digit_year ns → storable (utc ns).
Proof.
  intros H. split; [|split; [done|change (zone_offset (utc ns)) with 0; lia]].
  unfold face_ns. change (zone_offset (utc ns)) with 0. by rewrite Z.mul_0_l, Z.add_0_r.
Qed.

Lemma json_time_ok t :
  storable t → json_time t = Ok (fmt_rfc3339nano_in t) ∧
  ∃ t', unjson_time (Some (fmt_rfc3339nano_in t)) = Ok t' ∧ same_instant t t'.
Proof.
  intros [Hy Ho]. split.
  - unfold json_time, four_digit_year in *. destruct Ho as [_ Ha].
    destruct (_ <? 0) eqn:E1; zb; [lia|]. destruct (10000 <=? _) eqn:E2; zb; [lia|].
    cbn [orb]. destruct (86400 <=? _) eqn:E3; zb; [lia|done].
  - destruct (parse_fmt_rfc3339nano_in t Hy Ho) as (t' & E & En & Ez & El).
    exists t'. unfold unjson_time. rewrite E. split; [done|].
    split; [unfold to_utc, in_loc; by rewrite En|].
    split; [|unfold storable, face_ns; by rewrite En, Ez].
    intros Hl. assert (Hz : zone_offset t = 0) by (unfold zone_offset; by rewrite Hl).
    specialize (El Hz). destruct t, t'; simpl in *; congruence.
Qed.

Lemma json_time_omitzero_ok t :
  storable t → ∃ s t', json_time_omitzero t = Ok s ∧ unjson_time s = Ok t' ∧ same_instant t t'.
Proof.
  intros H. unfold json_time_omitzero. destruct (is_zero_time t) eqn:Ez.
  - exists None, zero_time. split; [done|]. split; [done|].
    unfold is_zero_time in Ez. zb. split; [unfold to_utc, in_loc; by rewrite Ez|].
    split; [destruct t as [n l]; simpl in *; by intros ->; subst|]. by vm_compute.
  - destruct (json_time_ok t H) as (E & t' & E' & Hs). exists (Some (fmt_rfc3339nano_in t)), t'.
    by rewrite E.
Qed.

Definition same_release (r r' : option ReleaseStrategy) : Prop :=
  utc_release <$> r' = utc_release <$> r ∧ (Forall (λ t, t_loc t = UTC) (release_times r) → r' = r) ∧
  Forall storable (release_times r').

Lemma release_round_trip r :
  Forall storable (release_times r) →
  ∃ j r', encodeRelease r = Ok j ∧ decodeRelease j = Ok r' ∧ same_release r r'.
Proof.
  unfold same_release. intros H. destruct r as [[t|f u|t]|]; cbn [release_times] in *;
    repeat match goal with H : Forall _ (_ :: _) |- _ => apply Forall_cons in H as [? H] end.
  - destruct (json_time_omitzero_ok t) as (s & t' & E & E' & Eu & El & Es); [done|].
    eexists _, _. cbn [encodeRelease]. rewrite E. split; [reflexivity|].
    cbn [decodeRelease rj_At rj_ProbeFrom rj_ProbeUntil rj_Until rj_Kind mbind outcome_bind].
    rewrite E'. split; [reflexivity|]. cbn. rewrite Eu. split; [done|]. split; [|by auto 10].
    intros [Hl _]%Forall_cons. by rewrite El.
  - destruct (json_time_omitzero_ok f) as (s & f' & E & E' & Eu & El & Ef); [done|].
    destruct (json_time_omitzero_ok u) as (s2 & u' & E2 & E2' & Eu2 & El2 & Ef2); [done|].
    eexists _, _. cbn [encodeRelease]. rewrite E. cbn [mbind outcome_bind]. rewrite E2.
    split; [reflexivity|].
    cbn [decodeRelease rj_At rj_ProbeFrom rj_ProbeUntil rj_Until rj_Kind mbind outcome_bind].
    change (unjson_time None) with (Ok (E:=error) zero_time).
    cbn [mbind outcome_bind]. rewrite E'. cbn [mbind outcome_bind]. rewrite E2'.
    split; [reflexivity|]. cbn. rewrite Eu, Eu2. split; [done|]. split; [|by auto 10].
    intros [Hl [Hl2 _]%Forall_cons]%Forall_cons. by rewrite El, El2.
  - destruct (json_time_omitzero_ok t) as (s & t' & E & E' & Eu & El & Es); [done|].
    eexists _, _. cbn [encodeRelease]. rewrite E. split; [reflexivity|].
    cbn [decodeRelease rj_At rj_ProbeFrom rj_ProbeUntil rj_Until rj_Kind mbind outcome_bind].
    change (unjson_time None) with (Ok (E:=error) zero_time).
    cbn [mbind outcome_bind]. rewrite E'. split; [reflexivity|]. cbn. rewrite Eu. split; [done|].
    split; [|by auto 10].
    intros [Hl _]%Forall_cons. by rewrite El.
  - by exists None, None.
Qed.

Lemma slotPrefs_round_trip l :
  forallb (λ p, valid_wall (sp_Time p)) l = true →
  decodeSlotPrefs (map (λ p, mkSlotPrefJSON (wall_String (sp_Time p)) (sp_TableType p)) l) = Ok l.
Proof.
  induction l as [|[w tt] l IH]; intros H; [done|]. cbn in H. zb.
  cbn [map decodeSlotPrefs spj_Time spj_TableType sp_Time sp_TableType].
  rewrite ParseWallTime_String, IH by done. done.
Qed.

(** ** Results and attributes *)

Definition result_storable (r : option Result) : Prop :=
  match r with Some r => storable (r_BookedAt r) | None => True end.
Definition same_result (r r' : option Result) : Prop :=
  match r, r' with
  | Some r, Some r' =>
      r_ConfirmationID r' = r_ConfirmationID r ∧ same_instant (r_BookedAt r) (r_BookedAt r')
  | None, None => True
  | _, _ => False
  end.
Lemma result_round_trip r :
  result_storable r → ∃ j r', MarshalResult r = Ok j ∧ UnmarshalResult j = Ok r' ∧ same_result r r' ∧
    (j = None ↔ r = None).
Proof.
  destruct r as [[t id]|]; cbn; [|intros _; by exists None, None].
  intros H. destruct (json_time_ok t H) as (E & t' & E' & Hs).
  exists (Some (mkResultJSON (fmt_rfc3339nano_in t) id)), (Some (mkResult t' id)).
  rewrite E. split; [done|]. cbn [UnmarshalResult resj_BookedAt]. rewrite E'.
  done.
Qed.

Lemma read_digits_ndigits z : 0 ≤ z → read_digits 0 (digits (ndigits z) z) = Some z.
Proof. intros Hz. apply read_digits_small. split; [done|by apply ndigits_bound]. Qed.

Lemma parse_digits_ndigits z : 0 ≤ z → parse_digits (digits (ndigits z) z) = Some z.
Proof.
  intros Hz. pose proof (read_digits_ndigits z Hz) as H. unfold parse_digits.
  destruct (digits (ndigits z) z) eqn:E; [|done].
  apply (f_equal String.length) in E. rewrite length_digits in E.
  unfold ndigits in E. cbn [ndigits_go] in E. exfalso. revert E. by destruct (z <? 10).
Qed.

Lemma parse_int64_fmt z : min_int64 ≤ z ≤ max_int64 → parse_int64 (fmt_d z) = Some z.
Proof.
  intros Hz. unfold fmt_d, fmt_pad. rewrite !Nat.max_0_l. destruct (z <? 0) eqn:E; zb.
  - cbn [String.append parse_int64]. rewrite parse_digits_ndigits by lia. cbn [mbind option_bind].
    replace (- - z) with z by lia. rewrite (proj2 (Z.leb_le _ _)) by lia.
    by rewrite (proj2 (Z.leb_le _ _)) by lia.
  - unfold parse_int64. destruct (digits (ndigits z) z) as [|c s] eqn:Ed.
    { pose proof (parse_digits_ndigits z E) as H. by rewrite Ed in H. }
    assert (Hc : is_digit c = true).
    { pose proof (all_digits_digits (ndigits z) z) as H. rewrite Ed in H.
      unfold all_digits in H. cbn in H. by apply andb_true_iff in H as [H _]. }
    pose proof (parse_digits_ndigits z E) as H. rewrite Ed in H.
    destruct c as [[] [] [] [] [] [] [] []]; try (by vm_compute in Hc);
      rewrite H; cbn [mbind option_bind];
      rewrite (proj2 (Z.leb_le _ _)) by lia; by rewrite (proj2 (Z.leb_le _ _)) by lia.
Qed.

(** What the attribute codec preserves: strings and integers as they are,
    times as instants. *)
Definition attr_storable (a : Attr) : Prop :=
  match a.2 with
  | VString _ => True
  | VInt z => min_int64 ≤ z ≤ max_int64
  | VTime t => four_digit_year (t_ns t)
  end.
Definition utc_attr (a : Attr) : Attr :=
  (a.1, match a.2 with VTime t => VTime (to_utc t) | v => v end).
Lemma attrs_round_trip l :
  Forall attr_storable l → DecodeAttrs (EncodeAttrs l) = map utc_attr l.
Proof.
  induction 1 as [|[k v] l Hv _ IH]; [done|].
  unfold DecodeAttrs, EncodeAttrs in *. cbn [map]. rewrite IH. f_equal.
  unfold decodeOneAttr, utc_attr. cbn [fa_Key fa_Kind fa_Value fst snd].
  destruct v as [s|z|t]; cbn [kind_String stringifyValue]; cbn in Hv.
  - done.
  - by rewrite parse_int64_fmt.
  - change (str_eqb "Time" "Int64") with false. change (str_eqb "Time" "Time") with true.
    by rewrite parse_fmt_rfc3339nano.
Qed.

Definition intent_storable (i : Intent) : Prop :=
  (short_date (i_Date i) && forallb (λ p, valid_wall (sp_Time p)) (i_SlotPrefs i)) = true ∧
  Forall storable (release_times (i_Release i)).
Definition intent_in_utc (i : Intent) : Prop :=
  Forall (λ t, t_loc t = UTC) (release_times (i_Release i)).

Lemma intent_round_trip i :
  intent_storable i →
  ∃ j i', MarshalIntent i = Ok j ∧ UnmarshalIntent j = Ok i' ∧
    utc_intent i' = utc_intent i ∧ (intent_in_utc i → i' = i) ∧ intent_storable i'.
Proof.
  intros [Hb Hr]. destruct (andb_true_iff (short_date (i_Date i)) (forallb (λ p, valid_wall (sp_Time p)) (i_SlotPrefs i))) as [_ Hk]. zb.
  destruct (release_round_trip _ Hr) as (j & r' & Ej & Er & Eu & El & Es).
  destruct i as [u v d n prefs r]. cbn [i_User i_Venue i_Date i_PartySize i_SlotPrefs i_Release] in *.
  eexists _, _. unfold MarshalIntent. cbn [i_Release]. rewrite Ej. split; [reflexivity|].
  unfold UnmarshalIntent. cbn [ij_Date i_Date]. rewrite ParseDate_String by done.
  cbn [ij_SlotPrefs i_SlotPrefs]. rewrite slotPrefs_round_trip by done.
  cbn [mbind outcome_bind ij_Release]. rewrite Er. split; [reflexivity|].
  split; [unfold utc_intent; cbn; by rewrite Eu|]. split; [|split; [apply Hk; by split|done]]. intros Hl. cbn. by rewrite (El Hl).
Qed.

(** ** Properties *)

(** Persisting an intent is lossless: decoding what [MarshalIntent]
    wrote gives the intent back, identical when its release times are in UTC
    (as the planner makes them), otherwise equal up to the location they are
    expressed in; so the stored intent hashes like the original. *)
Theorem MarshalIntent_round_trip i :
  intent_storable i →
  ∃ j i', MarshalIntent i = Ok j ∧ UnmarshalIntent j = Ok i' ∧
    intent_Hash i' = intent_Hash i ∧ utc_intent i' = utc_intent i ∧
    (intent_in_utc i → i' = i).
Proof.
  intros H. destruct (intent_round_trip i H) as (j & i' & E & E' & Eu & El & _).
  exists j, i'. split; [done|]. split; [done|]. split; [|done].
  unfold intent_Hash. by rewrite <- intent_text_utc, Eu, intent_text_utc.
Qed.

(** Persisting a goal is lossless: [UnmarshalGoal] inverts [MarshalGoal]
    on every goal with a printable date and valid times of day, whatever its
    venue query, priority and constraints. *)
Theorem MarshalGoal_round_trip g :
  short_date (g_Date g) = true →
  valid_wall (tw_Start (g_TimePrefs g)) = true → valid_wall (tw_End (g_TimePrefs g)) = true →
  UnmarshalGoal (MarshalGoal g) = Ok g.
Proof.
  intros Hd Hs He. destruct g as [vq d n [s e p] a [t any_t]].
  cbn [g_Date g_TimePrefs tw_Start tw_End] in *.
  assert (Eq : decodeVenueQuery (encodeVenueQuery vq) = Ok vq) by (by destruct vq as [[]|]).
  assert (Ep : parseTimePriority (priority_String p) = p) by (by destruct p).
  unfold UnmarshalGoal, MarshalGoal.
  cbn [gj_VenueQuery gj_Date gj_Party gj_TimePrefs gj_AccountID gj_Constraints
       twj_Start twj_End twj_Priority g_VenueQuery g_Date g_Party g_TimePrefs g_AccountID
       g_Constraints tw_Start tw_End tw_Priority c_TableTypes c_AnyTable].
  rewrite Eq, ParseDate_String, !ParseWallTime_String, Ep by done. done.
Qed.

(** The quest status column keeps what matters of a status: what is read
    back is terminal iff what was written is, a second trip changes nothing
    (the representative of each bucket is stable), Submitted, Booked and
    Canceled survive exactly, and every status has an accepted spelling. *)
Theorem statusDB_buckets s :
  statusDBString s ∈ ["pending"; "scheduled"; "firing"; "booked"; "failed"; "cancelled"] ∧
  ∃ s', parseStatusDB (statusDBString s) = Ok s' ∧
    IsTerminal s' = IsTerminal s ∧ statusDBString s' = statusDBString s ∧
    (s = StatusSubmitted ∨ s = StatusBooked ∨ s = StatusCanceled → s' = s).
Proof.
  split; [destruct s; set_solver|].
  destruct s; eexists; (split; [vm_compute; reflexivity|]); naive_solver.
Qed.

(** ** Witnesses *)

Lemma sample_storable : intent_storable (sample_intent drop_ny).
Proof.
  split; [reflexivity|]. repeat constructor; try (by vm_compute); cbv; congruence.
Qed.
Lemma MarshalIntent_round_trip_witness :
  ∃ j i', MarshalIntent (sample_intent drop_ny) = Ok j ∧ UnmarshalIntent j = Ok i' ∧
    utc_intent i' = utc_intent (sample_intent drop_ny).
Proof.
  destruct (MarshalIntent_round_trip (sample_intent drop_ny) sample_storable)
    as (j & i' & E & E' & _ & Eu & _). exists j, i'. auto.
Defined.

Lemma MarshalGoal_round_trip_witness :
  UnmarshalGoal (MarshalGoal (sample_goal ["Bar"])) = Ok (sample_goal ["Bar"]).
Proof. apply MarshalGoal_round_trip; reflexivity. Defined.

(** The midnight drop in New York as it is stored: offset and all. *)
Example stored_drop : json_time drop_ny = Ok "2026-05-10T00:00:00-04:00".
Proof. vm_compute. reflexivity. Qed.
