(* ===== verification/Sqlite.v ===== *)
(** * [store/sqlite.go]: the snipe tables

    The database is the lists of rows of its tables, in rowid order.  A
    method is a sequence of SQL statements, each of which may fail (an I/O
    error, a cancelled context, a busy database) and then has no effect:
    a fault schedule says which.  [Begin]/[Commit] bracket a transaction,
    whose failure at any point restores the database. *)

From S2P Require Import Prelude GoTime GoFormat Types Status Slots Drop Json Hash Codec.
From S2P Require Export Sql.

(** ** Rows *)

Record SnipeRow := mkSnipeRow {
  sr_id : string;
  sr_intent_hash : string;
  sr_intent_json : intentJSON;
  sr_status : string;
  sr_scheduled_at : option string;
  sr_result_json : option resultJSON;
  sr_created_at : string;
  sr_updated_at : string
}.
Record EventRow := mkEventRow {
  er_snipe_id : string;
  er_type : string;
  er_at : string;
  er_fields_json : list flatAttr
}.
Record VenueRow := mkVenueRow { vr_provider : string; vr_ref : string; vr_name : string; vr_tz : string }.
Record ObservedRelease := mkObserved {
  ob_Venue : VenueRef;
  ob_LocalTime : WallTime;
  ob_DaysOffset : Z;
  ob_ObservedAt : Time
}.
Record ObservedRow := mkObservedRow {
  or_venue : VenueRef;
  or_local_time : string;
  or_days_offset : Z;
  or_observed_at : string
}.
Record DB := mkDB {
  db_snipes : list SnipeRow;
  db_events : list EventRow;
  db_venues : list VenueRow;
  db_observed : list ObservedRow
}.
Definition empty_db : DB := mkDB [] [] [] [].
Definition set_snipes (l : list SnipeRow) (db : DB) : DB :=
  mkDB l (db_events db) (db_venues db) (db_observed db).
Definition set_events (l : list EventRow) (db : DB) : DB :=
  mkDB (db_snipes db) l (db_venues db) (db_observed db).
Definition set_venues (l : list VenueRow) (db : DB) : DB :=
  mkDB (db_snipes db) (db_events db) l (db_observed db).
Definition set_observed (l : list ObservedRow) (db : DB) : DB :=
  mkDB (db_snipes db) (db_events db) (db_venues db) l.

Notation SQL := (SqlOf DB).

(** ** Columns *)

Definition formatTime (t : Time) : string :=
  if is_zero_time t then "" else fmt_rfc3339nano (t_ns t).
Definition parseTime (s : string) : res Time :=
  if is_empty s then Ok zero_time
  else match parse_rfc3339nano s with
       | Some t => Ok t
       | None => Err (ENew "parsing time")
       end.
Definition nullableTime (t : Time) : option string :=
  if is_zero_time t then None else Some (formatTime t).
Definition parseStatus (s : string) : res Status :=
  match find (λ st, str_eqb (status_String st) s) AllStatuses with
  | Some st => Ok st
  | None => Err (ENew ("unknown status " +:+ fmt_q s))
  end.

(** ** Loading: [forceStatus] *)

Definition statusPaths (target : Status) : list (list Status) :=
  match target with
  | StatusSubmitted => [[StatusSubmitted]]
  | StatusScheduled => [[StatusSubmitted; StatusScheduled]]
  | StatusDiscovering =>
      [[StatusSubmitted; StatusDiscovering]; [StatusSubmitted; StatusScheduled; StatusDiscovering]]
  | StatusAwaiting =>
      [[StatusSubmitted; StatusScheduled; StatusAwaiting];
       [StatusSubmitted; StatusDiscovering; StatusAwaiting]]
  | StatusFinding => [[StatusSubmitted; StatusScheduled; StatusAwaiting; StatusFinding]]
  | StatusBooking =>
      [[StatusSubmitted; StatusScheduled; StatusAwaiting; StatusFinding; StatusBooking]]
  | StatusBooked =>
      [[StatusSubmitted; StatusScheduled; StatusAwaiting; StatusFinding; StatusBooking; StatusBooked]]
  | StatusFailed => [[StatusSubmitted; StatusFailed]]
  | StatusCanceled => [[StatusSubmitted; StatusCanceled]]
  | StatusExpired => [[StatusSubmitted; StatusScheduled; StatusExpired]]
  end.

(** The path from the first occurrence of the current status on. *)
Fixpoint path_from (st : Status) (path : list Status) : list Status :=
  match path with
  | [] => []
  | p :: path' => if bool_decide (p = st) then path else path_from st path'
  end.
(** Walk it; the state keeps the steps taken when one is refused. *)
Fixpoint walk_path (s : SnipeState) (path : list Status) : bool * SnipeState :=
  match path with
  | [] => (true, s)
  | p :: path' =>
      if bool_decide (p = s_status s) then walk_path s path'
      else match Transition s p with
           | Ok s' => walk_path s' path'
           | Err _ => (false, s)
           end
  end.
Fixpoint try_paths (s : SnipeState) (target : Status) (paths : list (list Status)) : res SnipeState :=
  match paths with
  | [] => Err (ENew ("no transition path from " +:+ status_String (s_status s) +:+ " to "
                     +:+ status_String target))
  | path :: paths' =>
      match path_from (s_status s) path with
      | [] => try_paths s target paths'
      | rest =>
          let '(ok, s') := walk_path s rest in
          if ok && bool_decide (s_status s' = target) then Ok s' else try_paths s' target paths'
      end
  end.
Definition forceStatus (s : SnipeState) (target : Status) : res SnipeState :=
  if bool_decide (s_status s = target) then Ok s else try_paths s target (statusPaths target).

Definition with_times (upd sched : Time) (s : SnipeState) : SnipeState :=
  mkSnipeState (s_ID s) (s_Intent s) (s_status s) sched (s_Result s) (s_Events s)
    (s_CreatedAt s) upd.
Definition with_result (r : option Result) (s : SnipeState) : SnipeState :=
  mkSnipeState (s_ID s) (s_Intent s) (s_status s) (s_ScheduledAt s) r (s_Events s)
    (s_CreatedAt s) (s_UpdatedAt s).

Definition in_snipe {A} (id what : string) (m : res A) : res A :=
  match m with Ok a => Ok a | Err e => Err (wrap ("snipe " +:+ id +:+ what +:+ ": ") e) end.
(** [scanSnipeRow]: [None] is [sql.ErrNoRows]. *)
Definition scanSnipeRow (row : option SnipeRow) : res SnipeState :=
  match row with
  | None => Err (wrap "snipe: " Store.ErrNotFound)
  | Some row =>
      let id := sr_id row in
      intent ← match UnmarshalIntent (sr_intent_json row) with
               | Ok i => Ok i
               | Err e => Err (wrap ("decode intent for snipe " +:+ id +:+ ": ") e)
               end;
      status ← in_snipe id "" (parseStatus (sr_status row));
      createdT ← in_snipe id " created_at" (parseTime (sr_created_at row));
      updatedT ← in_snipe id " updated_at" (parseTime (sr_updated_at row));
      schedT ← match sr_scheduled_at row with
               | Some s => in_snipe id " scheduled_at" (parseTime s)
               | None => Ok zero_time
               end;
      let st := with_times updatedT schedT (NewSnipeState id intent createdT) in
      st ← match sr_result_json row with
           | Some j => r ← in_snipe id " result" (UnmarshalResult (Some j)); Ok (with_result r st)
           | None => Ok st
           end;
      in_snipe id (" status " +:+ status_String status) (forceStatus st status)
  end.

(** ** The snipe and event methods *)

Definition find_snipe (id : string) (db : DB) : option SnipeRow :=
  find (λ r, str_eqb (sr_id r) id) (db_snipes db).
Definition has_snipe (id : string) (db : DB) : bool :=
  match find_snipe id db with Some _ => true | None => false end.
Definition constraint_failed (msg : string) : error := ENew ("constraint failed: " +:+ msg).

Definition insert_snipe (row : SnipeRow) (db : DB) : res unit * DB :=
  if has_snipe (sr_id row) db then (Err (constraint_failed "UNIQUE: snipes.id"), db)
  else (Ok tt, set_snipes (db_snipes db ++ [row]) db).
(** [UPDATE snipes SET ... WHERE id=?]; [created_at] is not touched. *)
Definition update_row (new old : SnipeRow) : SnipeRow :=
  mkSnipeRow (sr_id old) (sr_intent_hash new) (sr_intent_json new) (sr_status new)
    (sr_scheduled_at new) (sr_result_json new) (sr_created_at old) (sr_updated_at new).
Definition update_snipe (row : SnipeRow) (db : DB) : res Z * DB :=
  let hit r := str_eqb (sr_id r) (sr_id row) in
  (Ok (Z.of_nat (length (filter hit (db_snipes db)))),
   set_snipes (map (λ r, if hit r then update_row row r else r) (db_snipes db)) db).
Definition insert_event (row : EventRow) (db : DB) : res unit * DB :=
  if has_snipe (er_snipe_id row) db then (Ok tt, set_events (db_events db ++ [row]) db)
  else (Err (constraint_failed "FOREIGN KEY"), db).

(** The row a snipe is written as; [CreateSnipe], [UpdateSnipe] and
    [TransitionSnipe] encode alike, [op] naming the caller in errors. *)
Definition encode_snipe (op : string) (s : SnipeState) : res SnipeRow :=
  ij ← match MarshalIntent (s_Intent s) with
       | Ok j => Ok j | Err e => Err (wrap (op +:+ " encode intent: ") e) end;
  rj ← match MarshalResult (s_Result s) with
       | Ok j => Ok j | Err e => Err (wrap (op +:+ " encode result: ") e) end;
  Ok (mkSnipeRow (s_ID s) (intent_Hash (s_Intent s)) ij (status_String (s_status s))
        (nullableTime (s_ScheduledAt s)) rj (formatTime (s_CreatedAt s)) (formatTime (s_UpdatedAt s))).
Definition event_row (id : string) (ev : Event) : EventRow :=
  mkEventRow id (e_Type ev) (formatTime (e_At ev)) (EncodeAttrs (e_Attrs ev)).
Definition not_found (what id : string) : error :=
  wrap (what +:+ " " +:+ id +:+ ": ") Store.ErrNotFound.

Definition CreateSnipe (s : SnipeState) : SQL unit :=
  row ← sql_of (encode_snipe "CreateSnipe" s);
  ctx_err "CreateSnipe insert: " (stmt (insert_snipe row)).
Definition GetSnipe (id : string) : SQL SnipeState :=
  query (λ db, scanSnipeRow (find_snipe id db)).
Definition UpdateSnipe (s : SnipeState) : SQL unit :=
  row ← sql_of (encode_snipe "UpdateSnipe" s);
  n ← ctx_err "UpdateSnipe: " (stmt (update_snipe row));
  if n =? 0 then sql_of (Err (not_found "UpdateSnipe" (s_ID s))) else mret tt.
Definition TransitionSnipe (s : SnipeState) (ev : Event) : SQL unit :=
  row ← sql_of (encode_snipe "TransitionSnipe" s);
  in_tx "TransitionSnipe begin: " "TransitionSnipe commit: "
    (n ← ctx_err "TransitionSnipe update: " (stmt (update_snipe row));
     if n =? 0 then sql_of (Err (not_found "TransitionSnipe" (s_ID s)))
     else ctx_err "TransitionSnipe append: " (stmt (insert_event (event_row (s_ID s) ev)))).
Definition AppendEvent (id : string) (ev : Event) : SQL unit :=
  ctx_err "AppendEvent: " (stmt (insert_event (event_row id ev))).

Definition scan_event (row : EventRow) : res Event :=
  at_ ← match parseTime (er_at row) with Ok t => Ok t | Err e => Err (wrap "event at: " e) end;
  Ok (mkEvent (er_type row) at_ (DecodeAttrs (er_fields_json row))).
Definition ListEventsBySnipe (id : string) : SQL (list Event) :=
  ctx_err "ListEventsBySnipe: "
    (query (λ db, Ok (filter (λ r, str_eqb (er_snipe_id r) id) (db_events db))))
  ≫= λ rows, sql_of (foldr (λ r acc, e ← scan_event r; l ← acc; Ok (e :: l)) (Ok []) rows).

(** [ORDER BY created_at ASC]: by the column's bytes, ties in rowid order. *)
Fixpoint insert_by {A} (key : A → string) (x : A) (l : list A) : list A :=
  match l with
  | [] => [x]
  | y :: l' => if String.leb (key x) (key y) then x :: l else y :: insert_by key x l'
  end.
Definition sort_by {A} (key : A → string) (l : list A) : list A := foldr (insert_by key) [] l.
Definition ListSnipesByStatus (st : Status) : SQL (list SnipeState) :=
  ctx_err "ListSnipesByStatus: "
    (query (λ db, Ok (sort_by sr_created_at
                        (filter (λ r, str_eqb (sr_status r) (status_String st)) (db_snipes db)))))
  ≫= λ rows, sql_of (foldr (λ r acc, s ← scanSnipeRow (Some r); l ← acc; Ok (s :: l)) (Ok []) rows).

(** ** Venues and observed releases *)

Section Lookups.
(** The time-zone database behind [time.LoadLocation]. *)
Context (LoadLocation : string → res Location).

Definition upsert_venue (row : VenueRow) (db : DB) : res unit * DB :=
  let hit r := str_eqb (vr_provider r) (vr_provider row) && str_eqb (vr_ref r) (vr_ref row) in
  (Ok tt, set_venues (if existsb hit (db_venues db)
                      then map (λ r, if hit r then row else r) (db_venues db)
                      else db_venues db ++ [row]) db).
Definition UpsertVenue (v : Venue) : SQL unit :=
  match venue_Validate v with
  | Some e => sql_of (Err (wrap "UpsertVenue: " e))
  | None =>
      ctx_err "UpsertVenue: "
        (stmt (upsert_venue (mkVenueRow (v_Provider v) (v_Ref v) (v_Name v) (venue_tz v))))
  end.
Definition find_venue (ref : VenueRef) (db : DB) : option VenueRow :=
  find (λ r, str_eqb (vr_provider r) (vr_Provider ref) && str_eqb (vr_ref r) (vr_Ref ref))
    (db_venues db).
Definition GetVenue (ref : VenueRef) : SQL Venue :=
  row ← ctx_err "GetVenue: " (query (λ db, Ok (find_venue ref db)));
  sql_of (match row with
          | None => Err (wrap ("venue " +:+ venueRef_String ref +:+ ": ") Store.ErrNotFound)
          | Some r =>
              match LoadLocation (vr_tz r) with
              | Ok loc => Ok (mkVenue (vr_provider r) (vr_ref r) (vr_name r) (Some loc))
              | Err e => Err (wrap ("venue " +:+ venueRef_String ref +:+ " tz "
                                    +:+ fmt_q (vr_tz r) +:+ ": ") e)
              end
          end).

Definition upsert_observed (row : ObservedRow) (db : DB) : res unit * DB :=
  let hit r := bool_decide (or_venue r = or_venue row) in
  (Ok tt, set_observed (if existsb hit (db_observed db)
                        then map (λ r, if hit r then row else r) (db_observed db)
                        else db_observed db ++ [row]) db).
Definition UpsertObserved (o : ObservedRelease) : SQL unit :=
  ctx_err "UpsertObserved: "
    (stmt (upsert_observed (mkObservedRow (ob_Venue o) (wall_String (ob_LocalTime o))
                              (ob_DaysOffset o) (formatTime (ob_ObservedAt o))))).
Definition find_observed (ref : VenueRef) (db : DB) : option ObservedRow :=
  find (λ r, bool_decide (or_venue r = ref)) (db_observed db).
Definition GetObserved (ref : VenueRef) : SQL ObservedRelease :=
  row ← ctx_err "GetObserved: " (query (λ db, Ok (find_observed ref db)));
  sql_of (match row with
          | None => Err (wrap ("observed " +:+ venueRef_String ref +:+ ": ") Store.ErrNotFound)
          | Some r =>
              match ParseWallTime (or_local_time r) with
              | Err e => Err (wrap ("observed wall time " +:+ fmt_q (or_local_time r) +:+ ": ") e)
              | Ok wt =>
                  match parseTime (or_observed_at r) with
                  | Err e => Err (wrap "observed at: " e)
                  | Ok t => Ok (mkObserved (or_venue r) wt (or_days_offset r) t)
                  end
              end
          end).
End Lookups.

(** ** What a stored snipe keeps *)

Definition snipe_storable (s : SnipeState) : Prop :=
  intent_storable (s_Intent s) ∧ result_storable (s_Result s) ∧
  four_digit_year (t_ns (s_ScheduledAt s)) ∧ four_digit_year (t_ns (s_CreatedAt s)) ∧
  four_digit_year (t_ns (s_UpdatedAt s)).
(** The loaded snipe [s'] against the stored [s]: the identity, the status,
    the intent and the result, times as instants, both storable again; the
    event list is not part of the row, and the creation time is the row's
    own. *)
Definition same_snipe (s s' : SnipeState) : Prop :=
  s_ID s' = s_ID s ∧ s_status s' = s_status s ∧
  utc_intent (s_Intent s') = utc_intent (s_Intent s) ∧
  (intent_in_utc (s_Intent s) → s_Intent s' = s_Intent s) ∧
  same_result (s_Result s) (s_Result s') ∧ intent_storable (s_Intent s') ∧
  s_ScheduledAt s' = to_utc (s_ScheduledAt s) ∧ s_UpdatedAt s' = to_utc (s_UpdatedAt s) ∧
  s_Events s' = [].

Lemma time_column t :
  four_digit_year (t_ns t) → parseTime (formatTime t) = Ok (to_utc t).
Proof.
  intros H. unfold formatTime, parseTime. destruct (is_zero_time t) eqn:Ez.
  - unfold is_zero_time in Ez. zb. cbn. unfold to_utc, in_loc. by rewrite Ez.
  - rewrite parse_fmt_rfc3339nano by done.
    destruct (is_empty (fmt_rfc3339nano (t_ns t))) eqn:E; [|done].
    apply bool_decide_eq_true_1 in E. pose proof (parse_fmt_rfc3339nano _ H) as Hp.
    rewrite E in Hp. done.
Qed.

Lemma parseStatus_String st : parseStatus (status_String st) = Ok st.
Proof. by destruct st. Qed.

Lemma forceStatus_reaches s target :
  s_status s = StatusSubmitted → forceStatus s target = Ok (with_status target s).
Proof.
  destruct s as [id i st sch r ev c u]. cbn [s_status]. intros ->. by destruct target.
Qed.

Definition row_created (c : string) (r : SnipeRow) : SnipeRow :=
  mkSnipeRow (sr_id r) (sr_intent_hash r) (sr_intent_json r) (sr_status r) (sr_scheduled_at r)
    (sr_result_json r) c (sr_updated_at r).
(** Encoding succeeds on storable snipes, and the row decodes to the same
    snipe under whatever creation time it carries. *)
Lemma encode_scan op s :
  snipe_storable s →
  ∃ row, encode_snipe op s = Ok row ∧ sr_id row = s_ID s ∧
    sr_status row = status_String (s_status s) ∧ sr_created_at row = formatTime (s_CreatedAt s) ∧
    ∀ c t, parseTime c = Ok t →
      ∃ s', scanSnipeRow (Some (row_created c row)) = Ok s' ∧ same_snipe s s' ∧ s_CreatedAt s' = t.
Proof.
  intros (Hi & Hr & Hs & Hc & Hu).
  destruct (intent_round_trip _ Hi) as (ij & i' & Ej & Ei & Eu & El & Est).
  destruct (result_round_trip _ Hr) as (rj & r' & Erj & Er & Hres & Hnone).
  unfold encode_snipe. rewrite Ej. cbn [mbind outcome_bind]. rewrite Erj. cbn [mbind outcome_bind].
  eexists. split; [reflexivity|]. split; [done|]. split; [done|]. split; [done|].
  intros c t Hct. unfold scanSnipeRow, row_created.
  cbn [sr_id sr_intent_json sr_status sr_scheduled_at sr_result_json sr_created_at sr_updated_at].
  rewrite Ei. cbn [mbind outcome_bind]. rewrite parseStatus_String. cbn [in_snipe mbind outcome_bind].
  rewrite Hct, time_column by done. cbn [in_snipe mbind outcome_bind].
  assert (Esched : match nullableTime (s_ScheduledAt s) with
                   | Some x => in_snipe (s_ID s) " scheduled_at" (parseTime x)
                   | None => Ok zero_time
                   end = Ok (to_utc (s_ScheduledAt s))).
  { unfold nullableTime. destruct (is_zero_time (s_ScheduledAt s)) eqn:Ez.
    - unfold is_zero_time in Ez. zb. unfold to_utc, in_loc. by rewrite Ez.
    - by rewrite time_column. }
  rewrite Esched. cbn [mbind outcome_bind]. destruct rj as [rj|].
  - rewrite Er. cbn [in_snipe mbind outcome_bind]. rewrite forceStatus_reaches by done.
    eexists. split; [reflexivity|]. split; [|done]. split_all; done.
  - cbn in Er. injection Er as <-.
    cbn [mbind outcome_bind]. rewrite forceStatus_reaches by done.
    eexists. split; [reflexivity|]. split; [|done]. split_all; done.
Qed.

(** ** The abstract store

    What the engine relies on, stated without statements, rows or columns:
    each method either has its whole effect or fails and changes nothing,
    whatever faults occur, and without faults it succeeds when it can.
    [ss_row] is what [GetSnipe] loads, [ss_events] the audit log. *)
Definition same_event (e e' : Event) : Prop :=
  e_Type e' = e_Type e ∧ e_At e' = to_utc (e_At e) ∧ e_Attrs e' = map utc_attr (e_Attrs e).
Definition event_storable (e : Event) : Prop :=
  four_digit_year (t_ns (e_At e)) ∧ Forall attr_storable (e_Attrs e).

Class SnipeStore (St : Type) := {
  ss_wf : St → Prop;
  ss_row : St → string → option SnipeState;
  ss_events : St → string → list Event;
  ss_create : SnipeState → Faults → nat → St → res unit * nat * St;
  ss_get : string → Faults → nat → St → res SnipeState * nat * St;
  ss_transition : SnipeState → Event → Faults → nat → St → res unit * nat * St;
  ss_append : string → Event → Faults → nat → St → res unit * nat * St;
  ss_venue : VenueRef → Faults → nat → St → res Venue * nat * St;
  ss_observe : ObservedRelease → Faults → nat → St → res unit * nat * St;

  ss_create_law s fl n st : snipe_storable s → ss_wf st →
    let '(r, _, st') := ss_create s fl n st in
    ss_wf st' ∧
    match r with
    | Err _ => st' = st
    | Ok _ =>
        ss_row st (s_ID s) = None ∧
        (∃ s', ss_row st' (s_ID s) = Some s' ∧ same_snipe s s' ∧
               s_CreatedAt s' = to_utc (s_CreatedAt s)) ∧
        (∀ id, id ≠ s_ID s → ss_row st' id = ss_row st id) ∧
        (∀ id, ss_events st' id = ss_events st id)
    end;
  ss_get_law id fl n st : ss_wf st →
    let '(r, _, st') := ss_get id fl n st in
    st' = st ∧ match r with Ok s => ss_row st id = Some s ∧ s_ID s = id | Err _ => True end;
  ss_transition_law s ev fl n st : snipe_storable s → event_storable ev → ss_wf st →
    let '(r, _, st') := ss_transition s ev fl n st in
    ss_wf st' ∧
    match r with
    | Err _ => st' = st
    | Ok _ =>
        (∃ old s', ss_row st (s_ID s) = Some old ∧ ss_row st' (s_ID s) = Some s' ∧
                   same_snipe s s' ∧ s_CreatedAt s' = s_CreatedAt old) ∧
        (∃ ev', ss_events st' (s_ID s) = ss_events st (s_ID s) ++ [ev'] ∧ same_event ev ev') ∧
        (∀ id, id ≠ s_ID s → ss_row st' id = ss_row st id ∧ ss_events st' id = ss_events st id)
    end;
  ss_append_law id ev fl n st : event_storable ev → ss_wf st →
    let '(r, _, st') := ss_append id ev fl n st in
    ss_wf st' ∧
    match r with
    | Err _ => st' = st
    | Ok _ =>
        (∀ id', ss_row st' id' = ss_row st id') ∧
        (∃ ev', ss_events st' id = ss_events st id ++ [ev'] ∧ same_event ev ev') ∧
        (∀ id', id' ≠ id → ss_events st' id' = ss_events st id')
    end;
  ss_venue_law ref fl n st : ss_wf st → (ss_venue ref fl n st).2 = st;
  ss_observe_law o fl n st : ss_wf st →
    let st' := (ss_observe o fl n st).2 in
    ss_wf st' ∧ (∀ id, ss_row st' id = ss_row st id) ∧ (∀ id, ss_events st' id = ss_events st id);
  ss_transition_ok s ev fl n st :
    snipe_storable s → ss_wf st → ss_row st (s_ID s) ≠ None → no_faults fl →
    (ss_transition s ev fl n st).1.1 = Ok tt;
  ss_get_ok id s fl n st :
    ss_wf st → ss_row st id = Some s → no_faults fl → (ss_get id fl n st).1.1 = Ok s
}.
