(* ===== verification/SqliteStore.v ===== *)
(** * The SQLite store implements the abstract store

    The invariant of the tables (unique ids, decodable rows, no orphan
    event), the atomicity of every method under every fault schedule, and
    the instance of [SnipeStore]. *)

From S2P Require Import Prelude GoTime GoFormat Types Status Slots Drop Json Hash Codec Sqlite.

Definition row_ok (r : SnipeRow) : Prop := is_Ok (scanSnipeRow (Some r)) = true.
Definition loaded (r : SnipeRow) : option SnipeState :=
  match scanSnipeRow (Some r) with Ok s => Some s | Err _ => None end.
Definition loaded_event (r : EventRow) : option Event :=
  match scan_event r with Ok e => Some e | Err _ => None end.
Definition snipe_row (db : DB) (id : string) : option SnipeState := find_snipe id db ≫= loaded.
Definition snipe_events (db : DB) (id : string) : list Event :=
  omap (λ r, if str_eqb (er_snipe_id r) id then loaded_event r else None) (db_events db).
Record db_wf (db : DB) : Prop := {
  wf_ids : NoDup (map sr_id (db_snipes db));
  wf_rows : Forall row_ok (db_snipes db);
  wf_events : Forall (λ e, is_Ok (scan_event e) = true ∧ has_snipe (er_snipe_id e) db = true) (db_events db)
}.

Lemma db_wf_empty : db_wf empty_db.
Proof. split; constructor. Qed.

(** ** Finding rows *)

Lemma find_snipe_id id db r : find_snipe id db = Some r → sr_id r = id ∧ r ∈ db_snipes db.
Proof. intros [H1 H2]%find_spec. split; [by apply str_eqb_true|done]. Qed.

Lemma find_snipe_append id row db :
  find_snipe id (set_snipes (db_snipes db ++ [row]) db)
  = match find_snipe id db with
    | Some r => Some r
    | None => if str_eqb (sr_id row) id then Some row else None
    end.
Proof. unfold find_snipe, set_snipes. cbn [db_snipes]. rewrite find_app. done. Qed.

Lemma find_snipe_update id row db :
  find_snipe id ((update_snipe row db).2)
  = (if str_eqb id (sr_id row) then update_row row else λ r, r) <$> find_snipe id db.
Proof.
  unfold update_snipe, find_snipe, set_snipes. cbn [snd db_snipes].
  induction (db_snipes db) as [|r l IH]; [done|]. cbn [map find].
  assert (Eid : sr_id (if str_eqb (sr_id r) (sr_id row) then update_row row r else r) = sr_id r)
    by (destruct (str_eqb (sr_id r) (sr_id row)); reflexivity).
  rewrite Eid. destruct (str_eqb (sr_id r) id) eqn:E; [|apply IH].
  apply str_eqb_true in E. subst. cbn. by destruct (str_eqb _ _).
Qed.

Lemma has_snipe_update id row db : has_snipe id ((update_snipe row db).2) = has_snipe id db.
Proof. unfold has_snipe. rewrite find_snipe_update. by destruct (find_snipe id db). Qed.

Lemma has_snipe_append id row db :
  has_snipe id db = true → has_snipe id (set_snipes (db_snipes db ++ [row]) db) = true.
Proof. unfold has_snipe. rewrite find_snipe_append. by destruct (find_snipe id db). Qed.

Lemma update_count row db :
  (update_snipe row db).1 = Ok 0 ↔ has_snipe (sr_id row) db = false.
Proof.
  unfold update_snipe, has_snipe, find_snipe. cbn [fst].
  induction (db_snipes db) as [|r l IH]; [done|]. rewrite filter_cons. cbn [find].
  destruct (str_eqb (sr_id r) (sr_id row)) eqn:E.
  - rewrite decide_True by done. cbn [length]. split; [intros [= H]; lia|done].
  - rewrite decide_False by (by rewrite ?E; intros []). exact IH.
Qed.

Lemma ids_fresh id db : has_snipe id db = false → id ∉ map sr_id (db_snipes db).
Proof.
  unfold has_snipe, find_snipe. intros H Hin.
  apply list_elem_of_In, in_map_iff in Hin as (r & <- & Hr).
  destruct (find _ _) eqn:E; [done|]. pose proof (find_none _ _ E r Hr) as Hn. cbn in Hn.
  by rewrite str_eqb_refl in Hn.
Qed.

Lemma map_ids_update row db : map sr_id (db_snipes (update_snipe row db).2) = map sr_id (db_snipes db).
Proof.
  unfold update_snipe, set_snipes. cbn. rewrite map_map. apply map_ext.
  intros r. by destruct (str_eqb _ _).
Qed.

(** ** The statements preserve the invariant *)

Lemma insert_snipe_wf row db : db_wf db → row_ok row → db_wf (insert_snipe row db).2.
Proof.
  intros [Hi Hr He] Hrow. unfold insert_snipe.
  destruct (has_snipe (sr_id row) db) eqn:E; [done|]. cbn [snd]. split.
  - unfold set_snipes. cbn [db_snipes]. rewrite map_app. cbn [map].
    rewrite Permutation_app_comm. apply NoDup_cons. split; [by apply ids_fresh|done].
  - cbn [set_snipes db_snipes]. apply Forall_app. split; [done|by repeat constructor].
  - cbn [set_snipes db_events]. eapply Forall_impl; [exact He|]. cbn. intros e [? ?].
    split; [done|by apply has_snipe_append].
Qed.

Lemma update_snipe_wf row db :
  db_wf db →
  (∀ r, r ∈ db_snipes db → sr_id r = sr_id row → row_ok r → row_ok (update_row row r)) →
  db_wf (update_snipe row db).2.
Proof.
  intros [Hi Hr He] Hrow. split.
  - by rewrite map_ids_update.
  - unfold update_snipe, set_snipes. cbn. rewrite Forall_forall in *.
    intros r Hin. apply list_elem_of_In, in_map_iff in Hin as (r0 & <- & Hin%list_elem_of_In).
    destruct (str_eqb (sr_id r0) (sr_id row)) eqn:E; [|by apply Hr].
    apply Hrow; [done|by apply str_eqb_true|by apply Hr].
  - change (db_events (update_snipe row db).2) with (db_events db).
    eapply Forall_impl; [exact He|]. intros e [? ?].
    split; [done|by rewrite has_snipe_update].
Qed.

Lemma insert_event_wf row db :
  db_wf db → is_Ok (scan_event row) = true → db_wf (insert_event row db).2.
Proof.
  intros [Hi Hr He] Hrow. unfold insert_event.
  destruct (has_snipe (er_snipe_id row) db) eqn:E; [|done]. cbn [snd]. split; [done|done|].
  cbn [set_events db_events]. apply Forall_app. split.
  - eapply Forall_impl; [exact He|]. cbn. intros e [? ?]. done.
  - repeat constructor; done.
Qed.

Lemma in_snipe_Ok {A} id what (m : res A) a : in_snipe id what m = Ok a → m = Ok a.
Proof. by destruct m. Qed.

(** A decoded snipe's creation time is the row's. *)
Lemma scan_created r s :
  scanSnipeRow (Some r) = Ok s → parseTime (sr_created_at r) = Ok (s_CreatedAt s).
Proof.
  unfold scanSnipeRow. intros H.
  apply bind_Ok in H as (i & _ & H). apply bind_Ok in H as (st & _ & H).
  apply bind_Ok in H as (c & Hc%in_snipe_Ok & H). apply bind_Ok in H as (u & _ & H).
  apply bind_Ok in H as (sc & _ & H). apply bind_Ok in H as (st' & Hst & H).
  apply in_snipe_Ok in H.
  assert (Hb : s_status st' = StatusSubmitted ∧ s_CreatedAt st' = c).
  { destruct (sr_result_json r); [|by injection Hst as <-].
    apply bind_Ok in Hst as (res & _ & Hst). by injection Hst as <-. }
  destruct Hb as [Hb1 Hb2]. rewrite forceStatus_reaches in H by done.
  injection H as <-. by rewrite Hc, <- Hb2.
Qed.

Lemma forceStatus_keeps s t s' : s_status s = StatusSubmitted → forceStatus s t = Ok s' → s_ID s' = s_ID s.
Proof. intros Hs H. rewrite forceStatus_reaches in H by done. by injection H as <-. Qed.

Lemma scan_id r s : scanSnipeRow (Some r) = Ok s → s_ID s = sr_id r.
Proof.
  unfold scanSnipeRow. intros H.
  apply bind_Ok in H as (i & _ & H). apply bind_Ok in H as (st & _ & H).
  apply bind_Ok in H as (c & _ & H). apply bind_Ok in H as (u & _ & H).
  apply bind_Ok in H as (sc & _ & H). apply bind_Ok in H as (st' & Hst & H).
  apply in_snipe_Ok in H.
  assert (Hb : s_status st' = StatusSubmitted ∧ s_ID st' = sr_id r).
  { destruct (sr_result_json r); [|by injection Hst as <-].
    apply bind_Ok in Hst as (res & _ & Hst). by injection Hst as <-. }
  destruct Hb as [Hb1 Hb2]. apply forceStatus_keeps in H; [|done]. by rewrite H.
Qed.

(** Updating a decodable row with an encoded snipe. *)
Lemma update_row_loaded op s row old s0 :
  snipe_storable s → encode_snipe op s = Ok row → sr_id old = s_ID s → loaded old = Some s0 →
  ∃ s', loaded (update_row row old) = Some s' ∧ same_snipe s s' ∧ s_CreatedAt s' = s_CreatedAt s0.
Proof.
  intros Hs He Hid Hl.
  destruct (encode_scan op s Hs) as (row' & E & Eid & _ & _ & Hscan).
  rewrite He in E. injection E as <-.
  assert (Hct : parseTime (sr_created_at old) = Ok (s_CreatedAt s0)).
  { apply scan_created. unfold loaded in Hl. destruct (scanSnipeRow _); [congruence|done]. }
  destruct (Hscan _ _ Hct) as (s' & Es & Hsame & Hc). exists s'. split; [|done].
  unfold loaded, update_row. rewrite Hid, <- Eid. unfold row_created in Es. by rewrite Es.
Qed.

Lemma row_ok_loaded r : row_ok r ↔ ∃ s, loaded r = Some s.
Proof. unfold row_ok, loaded. destruct (scanSnipeRow (Some r)); naive_solver. Qed.

Lemma event_row_loaded id ev :
  event_storable ev →
  ∃ ev', loaded_event (event_row id ev) = Some ev' ∧ same_event ev ev' ∧
    is_Ok (scan_event (event_row id ev)) = true.
Proof.
  intros [Ht Ha]. unfold loaded_event, scan_event, event_row.
  cbn [er_at er_type er_fields_json]. rewrite time_column by done. cbn [mbind outcome_bind].
  rewrite attrs_round_trip by done. eexists. split; [done|]. split; [|done]. by split_all.
Qed.

(** ** Each method, under every fault schedule *)

Lemma encode_id op s row : encode_snipe op s = Ok row → sr_id row = s_ID s.
Proof.
  unfold encode_snipe. intros H. apply bind_Ok in H as (ij & _ & H).
  apply bind_Ok in H as (rj & _ & H). by injection H as <-.
Qed.

Definition after_create (row : SnipeRow) (db : DB) : DB := set_snipes (db_snipes db ++ [row]) db.
Definition after_append (id : string) (ev : Event) (db : DB) : DB :=
  set_events (db_events db ++ [event_row id ev]) db.
Definition after_transition (row : SnipeRow) (id : string) (ev : Event) (db : DB) : DB :=
  after_append id ev (update_snipe row db).2.

Lemma CreateSnipe_cases s fl n db :
  let '(r, _, db') := CreateSnipe s fl n db in
  match r with
  | Err _ => db' = db
  | Ok _ => ∃ row, encode_snipe "CreateSnipe" s = Ok row ∧ has_snipe (s_ID s) db = false ∧
                   db' = after_create row db
  end.
Proof.
  unfold CreateSnipe. run_sql.
  destruct (encode_snipe "CreateSnipe" s) as [row|e] eqn:E; [|done].
  destruct (fl n); [done|].
  unfold insert_snipe. rewrite (encode_id _ _ _ E).
  destruct (has_snipe (s_ID s) db) eqn:Eh; [done|]. by exists row.
Qed.

Lemma AppendEvent_cases id ev fl n db :
  let '(r, _, db') := AppendEvent id ev fl n db in
  match r with
  | Err _ => db' = db
  | Ok _ => has_snipe id db = true ∧ db' = after_append id ev db
  end.
Proof.
  unfold AppendEvent. run_sql. destruct (fl n); [done|].
  unfold insert_event. cbn [er_snipe_id event_row]. by destruct (has_snipe id db) eqn:E.
Qed.

Lemma TransitionSnipe_cases s ev fl n db :
  let '(r, _, db') := TransitionSnipe s ev fl n db in
  match r with
  | Err _ => db' = db
  | Ok _ => ∃ row, encode_snipe "TransitionSnipe" s = Ok row ∧ has_snipe (s_ID s) db = true ∧
                   db' = after_transition row (s_ID s) ev db
  end.
Proof.
  unfold TransitionSnipe. run_sql.
  destruct (encode_snipe "TransitionSnipe" s) as [row|e] eqn:E; [|done].
  pose proof (encode_id _ _ _ E) as Hid.
  destruct (fl n); [done|]. cbv beta iota zeta. destruct (fl (S n)); [done|].
  unfold update_snipe at 1. cbv beta iota zeta.
  pose proof (update_count row db) as Hc. unfold update_snipe in Hc at 1. cbn [fst] in Hc.
  destruct (Z.of_nat _ =? 0) eqn:Ez; [done|]. zb.
  destruct (fl (S (S n))); [done|].
  unfold insert_event. cbn [er_snipe_id event_row].
  change (set_snipes _ db) with (update_snipe row db).2.
  rewrite has_snipe_update. destruct (has_snipe (s_ID s) db) eqn:Eh; [|done].
  destruct (fl (S (S (S n)))); [done|]. by exists row.
Qed.


(** ** What the methods do to the abstract view *)

Lemma snipe_row_none id db : has_snipe id db = false → snipe_row db id = None.
Proof. unfold has_snipe, snipe_row. by destruct (find_snipe id db). Qed.

Lemma row_of_wf id db : db_wf db → has_snipe id db = true → ∃ r s, find_snipe id db = Some r ∧ loaded r = Some s.
Proof.
  intros Hwf H. unfold has_snipe in H. destruct (find_snipe id db) as [r|] eqn:E; [|done].
  apply find_snipe_id in E as [_ Hin].
  pose proof (wf_rows _ Hwf) as Hr. rewrite Forall_forall in Hr. specialize (Hr _ Hin).
  apply row_ok_loaded in Hr as [s Hs]. by exists r, s.
Qed.

Lemma snipe_events_append id ev ev' db id' :
  loaded_event (event_row id ev) = Some ev' →
  snipe_events (after_append id ev db) id'
  = snipe_events db id' ++ (if str_eqb id id' then [ev'] else []).
Proof.
  intros H. unfold snipe_events, after_append. cbn [set_events db_events].
  rewrite omap_app. f_equal. cbn. destruct (str_eqb id id'); [by rewrite H|done].
Qed.

Lemma event_row_ok id ev db :
  db_wf db → event_storable ev → has_snipe id db = true → db_wf (after_append id ev db).
Proof.
  intros Hwf He Hh. destruct (event_row_loaded id ev He) as (_ & _ & _ & Hok).
  pose proof (insert_event_wf (event_row id ev) db Hwf Hok) as H.
  unfold insert_event in H. cbn [er_snipe_id event_row] in H. by rewrite Hh in H.
Qed.

Lemma transition_wf s row ev db :
  db_wf db → snipe_storable s → event_storable ev →
  encode_snipe "TransitionSnipe" s = Ok row → has_snipe (s_ID s) db = true →
  db_wf (after_transition row (s_ID s) ev db).
Proof.
  intros Hwf Hs He E Hh. apply event_row_ok; [|done|by rewrite has_snipe_update].
  apply update_snipe_wf; [done|]. intros r Hin Hid Hok.
  apply row_ok_loaded in Hok as [s0 Hl]. apply row_ok_loaded.
  destruct (update_row_loaded _ _ _ r s0 Hs E) as (s' & H & _);
    [by rewrite Hid, (encode_id _ _ _ E)|done|by exists s'].
Qed.

Lemma snipe_row_transition s row ev db id :
  db_wf db → snipe_storable s → encode_snipe "TransitionSnipe" s = Ok row →
  has_snipe (s_ID s) db = true →
  (id = s_ID s →
   ∃ old s', snipe_row db id = Some old ∧
     snipe_row (after_transition row (s_ID s) ev db) id = Some s' ∧
     same_snipe s s' ∧ s_CreatedAt s' = s_CreatedAt old) ∧
  (id ≠ s_ID s → snipe_row (after_transition row (s_ID s) ev db) id = snipe_row db id).
Proof.
  intros Hwf Hs E Hh. pose proof (encode_id _ _ _ E) as Hid.
  assert (Hf : find_snipe id (after_transition row (s_ID s) ev db)
               = find_snipe id (update_snipe row db).2) by done.
  unfold snipe_row. rewrite Hf, find_snipe_update, Hid. split.
  - intros ->. rewrite str_eqb_refl.
    destruct (row_of_wf _ _ Hwf Hh) as (r & s0 & Er & El). rewrite Er. cbn.
    apply find_snipe_id in Er as [Er _].
    destruct (update_row_loaded _ _ _ r s0 Hs E Er El) as (s' & H & Hsame & Hc).
    exists s0, s'. done.
  - intros Hne. rewrite str_eqb_neq by done. by destruct (find_snipe id db).
Qed.

Lemma TransitionSnipe_ok s ev fl n db :
  snipe_storable s → db_wf db → snipe_row db (s_ID s) ≠ None → no_faults fl →
  (TransitionSnipe s ev fl n db).1.1 = Ok tt.
Proof.
  intros Hs Hwf Hrow Hfl. destruct (encode_scan "TransitionSnipe" s Hs) as (row & E & Hid & _).
  assert (Hh : has_snipe (s_ID s) db = true).
  { destruct (has_snipe (s_ID s) db) eqn:Eh; [done|]. by apply snipe_row_none in Eh. }
  unfold TransitionSnipe. run_sql. rewrite E, !Hfl.
  unfold update_snipe at 1. cbv beta iota zeta.
  pose proof (update_count row db) as Hc. unfold update_snipe in Hc at 1. cbn [fst] in Hc.
  destruct (Z.of_nat _ =? 0) eqn:Ez; zb.
  { rewrite Ez in Hc. apply proj1 in Hc. rewrite Hid, Hh in Hc. by specialize (Hc eq_refl). }
  rewrite !Hfl. unfold insert_event. cbn [er_snipe_id event_row].
  change (set_snipes _ db) with (update_snipe row db).2.
  rewrite has_snipe_update, Hh, !Hfl. done.
Qed.

Lemma same_tables_wf db db' :
  db_snipes db' = db_snipes db → db_events db' = db_events db → db_wf db → db_wf db'.
Proof.
  intros H1 H2 [Hi Hr He]. split; [by rewrite H1|by rewrite H1|].
  rewrite H2. eapply Forall_impl; [exact He|]. cbn. intros e [? Hh]. split; [done|].
  unfold has_snipe, find_snipe in *. by rewrite H1.
Qed.

Lemma UpsertVenue_keeps v fl n db :
  let db' := (UpsertVenue v fl n db).2 in
  db_snipes db' = db_snipes db ∧ db_events db' = db_events db.
Proof. unfold UpsertVenue. run_sql. destruct (venue_Validate v); [done|]. by destruct (fl n). Qed.
Lemma UpsertObserved_keeps o fl n db :
  let db' := (UpsertObserved o fl n db).2 in
  db_snipes db' = db_snipes db ∧ db_events db' = db_events db.
Proof. unfold UpsertObserved. run_sql. by destruct (fl n). Qed.
Lemma GetVenue_keeps ll ref fl n db : (GetVenue ll ref fl n db).2 = db.
Proof. unfold GetVenue. run_sql. by destruct (fl n). Qed.

(** ** The instance

    Over a time-zone database for [GetVenue]. *)

#[export] Program Instance sqlite_store (LoadLocation : string → res Location) : SnipeStore DB := {|
  ss_wf := db_wf;
  ss_row := snipe_row;
  ss_events := snipe_events;
  ss_create := CreateSnipe;
  ss_get := GetSnipe;
  ss_transition := TransitionSnipe;
  ss_append := AppendEvent;
  ss_venue := GetVenue LoadLocation;
  ss_observe := UpsertObserved
|}.
Next Obligation.
  intros _ s fl n db Hs Hwf. pose proof (CreateSnipe_cases s fl n db) as H.
  destruct (CreateSnipe s fl n db) as [[[u|e] k] db']; [|by subst].
  destruct H as (row & E & Hh & ->).
  destruct (encode_scan "CreateSnipe" s Hs) as (row' & E' & Hid & _ & Hc & Hscan).
  rewrite E in E'. injection E' as <-.
  assert (Hct : parseTime (sr_created_at row) = Ok (to_utc (s_CreatedAt s)))
    by (rewrite Hc; apply time_column; by destruct Hs as (_ & _ & _ & ? & _)).
  destruct (Hscan _ _ Hct) as (s' & Es & Hsame & Hcr).
  assert (Er : row_created (sr_created_at row) row = row) by (by destruct row).
  rewrite Er in Es.
  split.
  { pose proof (insert_snipe_wf row db Hwf) as H. unfold insert_snipe in H.
    rewrite Hid, Hh in H. apply H. unfold row_ok. by rewrite Es. }
  split; [by apply snipe_row_none|]. split.
  { exists s'. split; [|done]. unfold snipe_row, after_create. rewrite find_snipe_append.
    unfold has_snipe in Hh. destruct (find_snipe (s_ID s) db); [done|].
    rewrite Hid, str_eqb_refl. cbn. unfold loaded. by rewrite Es. }
  split; [|done]. intros id Hne. unfold snipe_row, after_create. rewrite find_snipe_append.
  destruct (find_snipe id db); [done|]. by rewrite Hid, str_eqb_neq by congruence.
Qed.
Next Obligation.
  intros _ id fl n db Hwf. unfold GetSnipe. run_sql. destruct (fl n); [done|].
  destruct (scanSnipeRow (find_snipe id db)) as [s|e] eqn:E; [|done]. split; [done|].
  unfold snipe_row. destruct (find_snipe id db) as [r|] eqn:Ef; [|done].
  cbn. unfold loaded. rewrite E. split; [done|].
  apply find_snipe_id in Ef as [<- _]. by apply scan_id.
Qed.
Next Obligation.
  intros _ s ev fl n db Hs He Hwf. pose proof (TransitionSnipe_cases s ev fl n db) as H.
  destruct (TransitionSnipe s ev fl n db) as [[[u|e] k] db']; [|by subst].
  destruct H as (row & E & Hh & ->). split; [by apply transition_wf|].
  destruct (event_row_loaded (s_ID s) ev He) as (ev' & El & Hev & _).
  assert (Hevs : ∀ id, snipe_events (after_transition row (s_ID s) ev db) id
            = snipe_events db id ++ (if str_eqb (s_ID s) id then [ev'] else []))
    by (intros id; change (snipe_events db id) with (snipe_events (update_snipe row db).2 id);
        by apply snipe_events_append).
  split; [|split].
  - by apply (snipe_row_transition s row ev db (s_ID s)).
  - exists ev'. by rewrite Hevs, str_eqb_refl.
  - intros id Hne. rewrite Hevs, str_eqb_neq by congruence. rewrite app_nil_r.
    split; [|done]. by apply (snipe_row_transition s row ev db id).
Qed.
Next Obligation.
  intros _ id ev fl n db He Hwf. pose proof (AppendEvent_cases id ev fl n db) as H.
  destruct (AppendEvent id ev fl n db) as [[[u|e] k] db']; [|by subst].
  destruct H as [Hh ->]. destruct (event_row_loaded id ev He) as (ev' & El & Hev & _).
  split; [by apply event_row_ok|]. split; [done|]. split.
  - exists ev'. by rewrite (snipe_events_append id ev ev'), str_eqb_refl.
  - intros id' Hne. rewrite (snipe_events_append id ev ev'), str_eqb_neq by done.
    by rewrite app_nil_r.
Qed.
Next Obligation. intros ll ref fl n db _. apply GetVenue_keeps. Qed.
Next Obligation.
  intros _ o fl n db Hwf. destruct (UpsertObserved_keeps o fl n db) as [E1 E2].
  split; [by apply (same_tables_wf db)|]. unfold snipe_row, snipe_events, find_snipe.
  by rewrite E1, E2.
Qed.
Next Obligation. intros. by apply TransitionSnipe_ok. Qed.
Next Obligation.
  intros _ id s fl n db _ Hrow Hfl. unfold GetSnipe. run_sql. rewrite Hfl.
  unfold snipe_row in Hrow. destruct (find_snipe id db) as [r|]; [|done]. cbn in Hrow.
  unfold loaded in Hrow. destruct (scanSnipeRow (Some r)) as [s1|e] eqn:E; cbn; congruence.
Qed.
(** The laws hold whatever the time-zone database: those about snipes are
    used through this one. *)
Definition store_laws : SnipeStore DB := sqlite_store (λ _, Err (ENew "unknown time zone")).

(** ** Reachable databases *)

(** One call of a writing method, under some faults, with storable data. *)
Inductive store_step : DB → DB → Prop :=
| step_create s fl n db r k db' :
    snipe_storable s → CreateSnipe s fl n db = (r, k, db') → store_step db db'
| step_update s fl n db r k db' :
    snipe_storable s → UpdateSnipe s fl n db = (r, k, db') → store_step db db'
| step_transition s ev fl n db r k db' :
    snipe_storable s → event_storable ev → TransitionSnipe s ev fl n db = (r, k, db') →
    store_step db db'
| step_append id ev fl n db r k db' :
    event_storable ev → AppendEvent id ev fl n db = (r, k, db') → store_step db db'
| step_venue v fl n db r k db' : UpsertVenue v fl n db = (r, k, db') → store_step db db'
| step_observed o fl n db r k db' : UpsertObserved o fl n db = (r, k, db') → store_step db db'.

Lemma UpdateSnipe_cases s fl n db :
  let '(r, _, db') := UpdateSnipe s fl n db in
  db' = db ∨ ∃ row, encode_snipe "UpdateSnipe" s = Ok row ∧ db' = (update_snipe row db).2.
Proof.
  unfold UpdateSnipe. run_sql. destruct (encode_snipe "UpdateSnipe" s) as [row|e] eqn:E; [|by left].
  destruct (fl n); [by left|]. unfold update_snipe at 1. cbv beta iota zeta.
  destruct (_ =? 0); right; by exists row.
Qed.

Lemma store_step_wf db db' : store_step db db' → db_wf db → db_wf db'.
Proof.
  intros H Hwf. destruct H as [s fl n db r k db' Hs E|s fl n db r k db' Hs E
    |s ev fl n db r k db' Hs He E|id ev fl n db r k db' He E|v fl n db r k db' E|o fl n db r k db' E].
  - pose proof (ss_create_law (SnipeStore:=store_laws) s fl n db Hs Hwf) as H. cbn in H. rewrite E in H. by destruct H.
  - pose proof (UpdateSnipe_cases s fl n db) as H. rewrite E in H.
    destruct H as [->|(row & Er & ->)]; [done|].
    apply update_snipe_wf; [done|]. intros old Hin Hid Hok.
    apply row_ok_loaded in Hok as [s0 Hl]. apply row_ok_loaded.
    destruct (update_row_loaded _ _ _ old s0 Hs Er) as (s' & H & _);
      [by rewrite Hid, (encode_id _ _ _ Er)|done|by exists s'].
  - pose proof (ss_transition_law (SnipeStore:=store_laws) s ev fl n db Hs He Hwf) as H. cbn in H. rewrite E in H. by destruct H.
  - pose proof (ss_append_law (SnipeStore:=store_laws) id ev fl n db He Hwf) as H. cbn in H. rewrite E in H. by destruct H.
  - unfold UpsertVenue in E. revert E. run_sql.
    destruct (venue_Validate v); [by intros [= <- <- <-]|].
    destruct (fl n); intros [= <- <- <-]; [done|]. by apply (same_tables_wf db).
  - unfold UpsertObserved in E. revert E. run_sql.
    destruct (fl n); intros [= <- <- <-]; [done|]. by apply (same_tables_wf db).
Qed.

(** A call that reports an error and leaves the database as it was. *)
Definition fails_untouched {A} (m : res A * nat * DB) (db : DB) (cause : error → Prop) : Prop :=
  ∃ e k, m = (Err e, k, db) ∧ cause e.

(** ** Properties *)

(** C5. [TransitionSnipe] is atomic: whatever statements fail (encoding,
    BEGIN, the update, the insert, COMMIT), either the call succeeds and
    both the row and exactly one audit event landed, or it reports an error
    and the database is untouched. *)
Theorem TransitionSnipe_atomic s ev fl n db :
  let '(r, _, db') := TransitionSnipe s ev fl n db in
  match r with
  | Err _ => db' = db
  | Ok _ =>
      ∃ row, encode_snipe "TransitionSnipe" s = Ok row ∧ has_snipe (s_ID s) db = true ∧
        db' = after_transition row (s_ID s) ev db ∧
        db_events db' = db_events db ++ [event_row (s_ID s) ev] ∧
        find_snipe (s_ID s) db' = update_row row <$> find_snipe (s_ID s) db ∧
        (∀ id, id ≠ s_ID s → find_snipe id db' = find_snipe id db)
  end.
Proof.
  pose proof (TransitionSnipe_cases s ev fl n db) as H.
  destruct (TransitionSnipe s ev fl n db) as [[[u|e] k] db']; [|done].
  destruct H as (row & E & Hh & ->). exists row. pose proof (encode_id _ _ _ E) as Hid.
  assert (Hf : ∀ id, find_snipe id (after_transition row (s_ID s) ev db)
               = find_snipe id (update_snipe row db).2) by done.
  split; [done|]. split; [done|]. split; [done|]. split; [done|]. split.
  - by rewrite Hf, find_snipe_update, Hid, str_eqb_refl.
  - intros id Hne. rewrite Hf, find_snipe_update, Hid, str_eqb_neq by done.
    by destruct (find_snipe id db).
Qed.

(** C40. The tables stay well formed (snipe ids unique, every row decodable,
    every event attached to an existing snipe) through any sequence of
    calls, failed ones included. *)
Theorem db_wf_reachable db : rtc store_step empty_db db → db_wf db.
Proof.
  intros H. assert (Hi : ∀ a b, rtc store_step a b → db_wf a → db_wf b).
  { induction 1 as [|a b c Hs _ IH]; [done|]. intros Hw. apply IH. by eapply store_step_wf. }
  eapply Hi; [exact H|apply db_wf_empty].
Qed.

(** What was created or transitioned can be loaded: after a successful
    [CreateSnipe] or [TransitionSnipe] of a storable snipe in any status,
    [GetSnipe] returns it, its status reached by legal transitions only, its
    intent, result and times as stored. *)
Theorem stored_snipe_loads s fl n db k db' :
  db_wf db → snipe_storable s →
  (CreateSnipe s fl n db = (Ok tt, k, db') ∨
   ∃ ev, event_storable ev ∧ TransitionSnipe s ev fl n db = (Ok tt, k, db')) →
  ∀ fl' m, no_faults fl' →
  ∃ s', (GetSnipe (s_ID s) fl' m db').1.1 = Ok s' ∧ same_snipe s s' ∧
        intent_Hash (s_Intent s') = intent_Hash (s_Intent s).
Proof.
  intros Hwf Hs H fl' m Hfl.
  assert (Hrow : ∃ s', snipe_row db' (s_ID s) = Some s' ∧ same_snipe s s').
  { destruct H as [E|(ev & He & E)].
    - pose proof (ss_create_law (SnipeStore:=store_laws) s fl n db Hs Hwf) as H. cbn in H. rewrite E in H.
      destruct H as (_ & _ & (s' & ? & ? & _) & _). by exists s'.
    - pose proof (ss_transition_law (SnipeStore:=store_laws) s ev fl n db Hs He Hwf) as H. cbn in H. rewrite E in H.
      destruct H as (_ & (old & s' & _ & ? & ? & _) & _). by exists s'. }
  destruct Hrow as (s' & Hrow & Hsame). exists s'. split.
  - unfold GetSnipe. run_sql. rewrite Hfl. unfold snipe_row in Hrow.
    destruct (find_snipe (s_ID s) db') as [r|]; [|done]. cbn in Hrow. unfold loaded in Hrow.
    destruct (scanSnipeRow (Some r)); [|done]. cbn. congruence.
  - split; [done|]. destruct Hsame as (_ & _ & Hu & _). unfold intent_Hash.
    by rewrite <- intent_text_utc, Hu, intent_text_utc.
Qed.

(** The calls on a missing snipe report [ErrNotFound]; a second
    [CreateSnipe] of one id fails; neither changes the database. *)
Theorem missing_snipe_errors s ev fl n db :
  no_faults fl → snipe_storable s →
  (has_snipe (s_ID s) db = false →
   fails_untouched (TransitionSnipe s ev fl n db) db (λ e, errors_is e Store.ErrNotFound = true) ∧
   fails_untouched (GetSnipe (s_ID s) fl n db) db (λ e, errors_is e Store.ErrNotFound = true) ∧
   fails_untouched (AppendEvent (s_ID s) ev fl n db) db (λ _, True)) ∧
  (has_snipe (s_ID s) db = true → fails_untouched (CreateSnipe s fl n db) db (λ _, True)).
Proof.
  intros Hfl Hs. unfold fails_untouched. split.
  - intros Hh. split_all.
    + destruct (encode_scan "TransitionSnipe" s Hs) as (row & E & Hid & _).
      unfold TransitionSnipe. run_sql. rewrite E, !Hfl.
      pose proof (update_count row db) as Hc. rewrite Hid in Hc. apply proj2 in Hc. specialize (Hc Hh).
      unfold update_snipe in *. cbn [fst] in Hc. injection Hc as Hc. rewrite Hc. cbv beta iota zeta.
      change (0 =? 0) with true. cbv beta iota zeta. eexists _, _. split; [reflexivity|]. reflexivity.
    + unfold GetSnipe. run_sql. rewrite Hfl. unfold has_snipe in Hh.
      destruct (find_snipe (s_ID s) db); [done|]. cbn. eexists _, _. split; reflexivity.
    + unfold AppendEvent. run_sql. rewrite Hfl. unfold insert_event. cbn [er_snipe_id event_row].
      rewrite Hh. cbn. by eexists _, _.
  - intros Hh. destruct (encode_scan "CreateSnipe" s Hs) as (row & E & Hid & _).
    unfold CreateSnipe. run_sql. rewrite E, Hfl. unfold insert_snipe. rewrite Hid, Hh. cbn.
    by eexists _, _.
Qed.

(** Time columns do not sort as times: a whole second prints after its own
    fractions. *)
Lemma formatTime_text_order :
  ∃ a b, time_before a b = true ∧ String.leb (formatTime b) (formatTime a) = true ∧
         formatTime a ≠ formatTime b.
Proof.
  exists (go_date 2026 5 10 4 0 0 0 UTC), (go_date 2026 5 10 4 0 0 500000000 UTC).
  split; [reflexivity|]. split; [vm_compute; reflexivity|]. vm_compute. congruence.
Qed.

(** ** Witnesses *)

Definition sample_snipe (st : Status) : SnipeState :=
  with_status st (NewSnipeState "q1" (sample_intent drop_ny) (to_utc drop_ny)).
Lemma sample_snipe_storable st : snipe_storable (sample_snipe st).
Proof.
  split; [apply sample_storable|]. split; [done|]. split_all; vm_compute; split; congruence.
Qed.
Definition ok_faults : Faults := λ _, None.
Definition db_of {A} (r : res A * nat * DB) : DB := r.2.
Definition db1 : DB := db_of (CreateSnipe (sample_snipe StatusSubmitted) ok_faults 0%nat empty_db).

Lemma created : CreateSnipe (sample_snipe StatusSubmitted) ok_faults 0%nat empty_db = (Ok tt, 1%nat, db1).
Proof. reflexivity. Qed.

Lemma db_wf_reachable_witness : db_wf db1.
Proof.
  apply db_wf_reachable. eapply rtc_l; [|apply rtc_refl].
  eapply step_create; [apply sample_snipe_storable|exact created].
Defined.

Lemma stored_snipe_loads_witness :
  ∃ s', (GetSnipe "q1" ok_faults 5%nat db1).1.1 = Ok s' ∧ s_status s' = StatusSubmitted.
Proof.
  destruct (stored_snipe_loads (sample_snipe StatusSubmitted) ok_faults 0%nat empty_db 1%nat db1
              db_wf_empty (sample_snipe_storable _) (or_introl created) ok_faults 5%nat)
    as (s' & H & Hs & _); [done|].
  exists s'. split; [exact H|]. exact (proj1 (proj2 Hs)).
Defined.

Lemma missing_snipe_errors_witness :
  fails_untouched (CreateSnipe (sample_snipe StatusSubmitted) ok_faults 0%nat db1) db1 (λ _, True).
Proof.
  apply (missing_snipe_errors (sample_snipe StatusSubmitted)
           (mkEvent EventSubmitted (to_utc drop_ny) []) ok_faults 0%nat db1);
    [done|apply sample_snipe_storable|reflexivity].
Defined.
