(* ===== verification/Tenant.v ===== *)
(** * The multi-user tables of [internal/store]

    The rows of migrations 0002-0004 as SQLite holds them (text, integers,
    NULL as [None]), the database of a daemon as the list of each table's
    rows in rowid order, the constraints an INSERT or UPDATE is checked
    against, and what one user sees of the database.  A JSON column is the
    value whose [json.Marshal] text it holds. *)

From S2P Require Import Prelude GoTime GoFormat Types Status Slots Drop Json Hash Codec Sql.

(** ** Columns *)

(** [t.UnixMilli()], [time.UnixMilli(ms).UTC()], [t.Unix()] and
    [time.Unix(s, 0).UTC()]. *)
Definition unix_milli (t : Time) : Z := t_ns t / millisecond.
Definition of_milli (ms : Z) : Time := mkTime (ms * millisecond) UTC.
Definition of_unix (s : Z) : Time := mkTime (s * second) UTC.
(** A time cut to the precision of its column. *)
Definition to_milli (t : Time) : Time := of_milli (unix_milli t).
Definition to_second (t : Time) : Time := of_unix (t_unix t).
(** An optional text: empty is NULL. *)
Definition nullable (s : string) : option string := if is_empty s then None else Some s.
Definition null_string (o : option string) : string := match o with Some s => s | None => "" end.

Lemma unix_milli_of ms : unix_milli (of_milli ms) = ms.
Proof. apply Z.div_mul. done. Qed.
Lemma t_unix_of s : t_unix (of_unix s) = s.
Proof. apply Z.div_mul. done. Qed.
Lemma null_string_nullable s : null_string (nullable s) = s.
Proof. unfold nullable, is_empty, str_eqb. case_bool_decide; [by subst|done]. Qed.

(** ** Tables *)

(** A column declared INTEGER that also holds text. *)
Inductive Stamp := StampInt (ms : Z) | StampText (s : string).
Record UserRec := mkUserRec {
  us_id : string;
  us_email : string;
  us_hash : string;
  us_role : string;
  us_invited_by : option string;
  us_created_at : Stamp;
  us_disabled_at : option Stamp
}.
Record AccountRec := mkAccountRec {
  ac_id : string;
  ac_user : option string;
  ac_email : string;
  ac_name : string;
  ac_created : Z;
  ac_disabled : option Z
}.
Record TokenRec := mkTokenRec {
  tk_id : string;
  tk_user : string;
  tk_hash : list Z;
  tk_scopes : string;
  tk_label : string;
  tk_created : Z;
  tk_seen : option Z;
  tk_revoked : option Z
}.
Record QuestRec := mkQuestRec {
  qr_id : string;
  qr_user : string;
  qr_account : string;
  qr_goal : goalJSONShape;
  qr_hash : string;
  qr_status : string;
  qr_created : Z;
  qr_updated : Z;
  qr_completed : option Z
}.
Record QuestEventRec := mkQuestEventRec {
  qe_id : Z;
  qe_quest : string;
  qe_user : string;
  qe_type : string;
  qe_at : Z;
  qe_fields : option (list flatAttr)
}.
Record IdemRec := mkIdemRec {
  ik_key : list Z;
  ik_user : string;
  ik_scope : string;
  ik_plain : list Z;
  ik_target : option string;
  ik_code : string;
  ik_err : option string;
  ik_created : string;
  ik_expires : string
}.
Record AuditRec := mkAuditRec {
  au_id : Z;
  au_user : string;
  au_target_user : option string;
  au_action : string;
  au_target : option string;
  au_ok : Z;
  au_code : option string;
  au_ip : option string;
  au_agent : option string;
  au_created : Z;
  au_details : option string
}.

Record TenantDB := mkTenantDB {
  tb_users : list UserRec;
  tb_accounts : list AccountRec;
  tb_tokens : list TokenRec;
  tb_quests : list QuestRec;
  tb_events : list QuestEventRec;
  tb_idem : list IdemRec;
  tb_audit : list AuditRec
}.
Definition empty_tenants : TenantDB := mkTenantDB [] [] [] [] [] [] [].
Definition with_users l d :=
  mkTenantDB l (tb_accounts d) (tb_tokens d) (tb_quests d) (tb_events d) (tb_idem d) (tb_audit d).
Definition with_accounts l d :=
  mkTenantDB (tb_users d) l (tb_tokens d) (tb_quests d) (tb_events d) (tb_idem d) (tb_audit d).
Definition with_tokens l d :=
  mkTenantDB (tb_users d) (tb_accounts d) l (tb_quests d) (tb_events d) (tb_idem d) (tb_audit d).
Definition with_quests l d :=
  mkTenantDB (tb_users d) (tb_accounts d) (tb_tokens d) l (tb_events d) (tb_idem d) (tb_audit d).
Definition with_events l d :=
  mkTenantDB (tb_users d) (tb_accounts d) (tb_tokens d) (tb_quests d) l (tb_idem d) (tb_audit d).
Definition with_idem l d :=
  mkTenantDB (tb_users d) (tb_accounts d) (tb_tokens d) (tb_quests d) (tb_events d) l (tb_audit d).
Definition with_audit l d :=
  mkTenantDB (tb_users d) (tb_accounts d) (tb_tokens d) (tb_quests d) (tb_events d) (tb_idem d) l.

Notation TSQL := (SqlOf TenantDB).

Definition constraint (msg : string) : error := ENew ("constraint failed: " +:+ msg).
Definition has_user (u : string) (d : TenantDB) : bool := existsb (λ r, str_eqb (us_id r) u) (tb_users d).
Definition has_account (a : string) (d : TenantDB) : bool :=
  existsb (λ r, str_eqb (ac_id r) a) (tb_accounts d).
(** [AUTOINCREMENT]: one more than the largest rowid (rows are never
    deleted from these tables). *)
Definition next_id {A} (id : A → Z) (l : list A) : Z := foldr (λ r m, Z.max (id r) m) 0 l + 1.

(** [LIMIT], added to the query when positive. *)
Definition limited {A} (limit : Z) (l : list A) : list A :=
  if 0 <? limit then take (Z.to_nat limit) l else l.

(** ** Rows decoded in order, stopping at the first error *)

Fixpoint each {A B} (f : A → res B) (l : list A) : res (list B) :=
  match l with
  | [] => Ok []
  | x :: l' => y ← f x; ys ← each f l'; Ok (y :: ys)
  end.
Lemma each_Ok {A B} (f : A → res B) l ys : each f l = Ok ys ↔ Forall2 (λ x y, f x = Ok y) l ys.
Proof.
  revert ys. induction l as [|x l IH]; intros ys; cbn.
  - split; [intros [= <-]; constructor|]. by inversion 1.
  - rewrite bind_Ok. split.
    + intros (y & Hy & H). apply bind_Ok in H as (ys' & H & [= <-]). constructor; [done|]. by apply IH.
    + intros H. inversion H as [|? y ? ys' Hy Hys]; subst. exists y. split; [done|].
      apply bind_Ok. exists ys'. split; [by apply IH|done].
Qed.
Lemma each_fmap {A B} (f : A → res B) (g : A → B) l :
  (∀ x, x ∈ l → f x = Ok (g x)) → each f l = Ok (g <$> l).
Proof.
  intros H. apply each_Ok. induction l as [|x l IH]; cbn; constructor; [by apply H; left|].
  apply IH. intros y Hy. apply H. by right.
Qed.

(** ** One user's part of the database *)

Definition own {A} (user : A → string) (u : string) (l : list A) : list A :=
  List.filter (λ r, str_eqb (user r) u) l.
Definition account_user (r : AccountRec) : string := null_string (ac_user r).
(** Two databases look alike to [u]: the same rows of its own in every
    table (audit and event ids aside, which interleave with other users'). *)
Record sees (u : string) (d d' : TenantDB) : Prop := {
  sees_accounts : own account_user u (tb_accounts d) = own account_user u (tb_accounts d');
  sees_tokens : own tk_user u (tb_tokens d) = own tk_user u (tb_tokens d');
  sees_quests : own qr_user u (tb_quests d) = own qr_user u (tb_quests d');
  sees_events : own qe_user u (tb_events d) = own qe_user u (tb_events d');
  sees_idem : own ik_user u (tb_idem d) = own ik_user u (tb_idem d');
  sees_audit : own au_user u (tb_audit d) = own au_user u (tb_audit d')
}.
#[export] Instance sees_equivalence u : Equivalence (sees u).
Proof.
  split.
  - intros d. by split.
  - intros d d' []. by split.
  - intros d d' d'' [] []. split; by etrans.
Qed.

Lemma own_app {A} (user : A → string) u l m : own user u (l ++ m) = own user u l ++ own user u m.
Proof. apply List.filter_app. Qed.
Lemma own_other {A} (user : A → string) u x l : user x ≠ u → own user u (l ++ [x]) = own user u l.
Proof. intros H. rewrite own_app. cbn. rewrite str_eqb_neq by done. by rewrite app_nil_r. Qed.
(** An update that keeps the owner and changes no row of [u]. *)
Lemma own_map {A} (user : A → string) u (f : A → A) l :
  (∀ x, x ∈ l → user (f x) = user x) → (∀ x, x ∈ l → user x = u → f x = x) →
  own user u (map f l) = own user u l.
Proof.
  induction l as [|x l IH]; intros Hu Hid; [done|]. unfold own in *. cbn.
  rewrite Hu by (by left). destruct (str_eqb (user x) u) eqn:E.
  - apply str_eqb_true in E. rewrite (Hid x) by (by left || done). f_equal. apply IH; intros; [apply Hu|apply Hid]; by try right.
  - apply IH; intros; [apply Hu|apply Hid]; by try right.
Qed.
(** A search that only admits rows of [u] sees the same through [own]. *)
Lemma filter_own {A} (user : A → string) u (p : A → bool) l :
  (∀ x, p x = true → user x = u) → List.filter p l = List.filter p (own user u l).
Proof.
  intros H. unfold own. induction l as [|x l IH]; [done|]. cbn.
  destruct (p x) eqn:E.
  - rewrite (H x E), str_eqb_refl. cbn. by rewrite E, IH.
  - destruct (str_eqb (user x) u); cbn; by rewrite ?E.
Qed.
Lemma find_filter {A} (p : A → bool) l : find p l = head (List.filter p l).
Proof. induction l as [|x l IH]; [done|]. cbn. by destruct (p x). Qed.
Lemma find_own {A} (user : A → string) u (p : A → bool) l :
  (∀ x, p x = true → user x = u) → find p l = find p (own user u l).
Proof. intros H. by rewrite !find_filter, (filter_own user u p l H). Qed.
