(* ===== verification/Quests.v ===== *)
(** * [store/quests.go], [store/quest_events.go]: quests and their events

    The quest rows of all users in one table, every statement filtered on
    [user_id]; listing with filters, order and limit; the event stream with
    its INSERT gated on the owner's quest. *)

From S2P Require Import Prelude GoTime GoFormat Types Status Slots Drop Json Hash Codec Sql Tenant.

Record QuestRow := mkQuestRow {
  q_ID : string;
  q_UserID : string;
  q_AccountID : string;
  q_GoalJSON : goalJSONShape;
  q_PlanHash : string;
  q_Status : Status;
  q_CreatedAt : Time;
  q_UpdatedAt : Time;
  q_CompletedAt : option Time
}.
Record QuestListFilter := mkQuestListFilter {
  lf_Status : list Status;
  lf_AccountID : option string;
  lf_Since : option Time;
  lf_Until : option Time;
  lf_Limit : Z;
  lf_Cursor : string
}.

(** ** Rows *)

Definition quest_rec (q : QuestRow) : QuestRec :=
  mkQuestRec (q_ID q) (q_UserID q) (q_AccountID q) (q_GoalJSON q) (q_PlanHash q)
    (statusDBString (q_Status q)) (unix_milli (q_CreatedAt q)) (unix_milli (q_UpdatedAt q))
    (unix_milli <$> q_CompletedAt q).
(** [None] is [sql.ErrNoRows]. *)
Definition scanQuestRow (row : option QuestRec) : res QuestRow :=
  match row with
  | None => Err (wrap "quest: " Store.ErrNotFound)
  | Some r =>
      match parseStatusDB (qr_status r) with
      | Err e => Err (wrap ("quest " +:+ qr_id r +:+ ": ") e)
      | Ok st =>
          Ok (mkQuestRow (qr_id r) (qr_user r) (qr_account r) (qr_goal r) (qr_hash r) st
                (of_milli (qr_created r)) (of_milli (qr_updated r)) (of_milli <$> qr_completed r))
      end
  end.

(** ** Create, read, update *)

Definition insert_quest (r : QuestRec) (d : TenantDB) : res unit * TenantDB :=
  if existsb (λ x, str_eqb (qr_id x) (qr_id r)) (tb_quests d) then (Err (constraint "UNIQUE: quests.id"), d)
  else if negb (has_user (qr_user r) d && has_account (qr_account r) d)
       then (Err (constraint "FOREIGN KEY"), d)
       else (Ok tt, with_quests (tb_quests d ++ [r]) d).
Definition CreateQuest (q : QuestRow) : TSQL unit :=
  if is_empty (q_ID q) || is_empty (q_UserID q) || is_empty (q_AccountID q)
  then sql_of (Err (ENew "CreateQuest: ID, UserID, AccountID are required"))
  else ctx_err "CreateQuest: " (stmt (insert_quest (quest_rec q))).

Definition is_quest (u qid : string) (r : QuestRec) : bool :=
  str_eqb (qr_id r) qid && str_eqb (qr_user r) u.
Definition GetQuest (u qid : string) : TSQL QuestRow :=
  row ← ctx_err "scan quest: " (query (λ d, Ok (find (is_quest u qid) (tb_quests d))));
  sql_of (scanQuestRow row).

Definition set_status (st : string) (updated : Z) (completed : option Z) (r : QuestRec) : QuestRec :=
  mkQuestRec (qr_id r) (qr_user r) (qr_account r) (qr_goal r) (qr_hash r) st (qr_created r) updated completed.
Definition update_quest (u qid st : string) (updated : Z) (completed : option Z) (d : TenantDB)
  : res Z * TenantDB :=
  (Ok (Z.of_nat (length (List.filter (is_quest u qid) (tb_quests d)))),
   with_quests (map (λ r, if is_quest u qid r then set_status st updated completed r else r)
                  (tb_quests d)) d).
Definition UpdateQuestStatus (u qid : string) (newStatus : Status) (completedAt : option Time)
    (updatedAt : Time) : TSQL unit :=
  n ← ctx_err "UpdateQuestStatus: "
        (stmt (update_quest u qid (statusDBString newStatus) (unix_milli updatedAt)
                 (unix_milli <$> completedAt)));
  if n =? 0 then sql_of (Err (wrap ("quest " +:+ qid +:+ ": ") Store.ErrNotFound)) else mret tt.

(** ** Listing *)

(** The status values of the IN list, each once. *)
Fixpoint enum_vals (seen : list string) (l : list Status) : list string :=
  match l with
  | [] => []
  | s :: l' =>
      let v := statusDBString s in
      if existsb (str_eqb v) seen then enum_vals seen l' else v :: enum_vals (v :: seen) l'
  end.
(** The WHERE clause; the cursor is parsed before it. *)
Definition quest_matches (u : string) (f : QuestListFilter) (before : option Time) (r : QuestRec) : bool :=
  str_eqb (qr_user r) u
  && match lf_Status f with
     | [] => true
     | sts => existsb (str_eqb (qr_status r)) (enum_vals [] sts)
     end
  && match lf_AccountID f with Some a => str_eqb (qr_account r) a | None => true end
  && match lf_Since f with Some t => unix_milli t <=? qr_created r | None => true end
  && match lf_Until f with Some t => qr_created r <=? unix_milli t | None => true end
  && match before with Some t => qr_created r <? unix_milli t | None => true end.
(** [ORDER BY created_at DESC, id DESC]. *)
Definition newest_first (a b : QuestRec) : Prop :=
  qr_created b < qr_created a ∨ (qr_created a = qr_created b ∧ String.le (qr_id b) (qr_id a)).
#[export] Instance newest_first_dec : RelDecision newest_first.
Proof. intros a b. unfold newest_first. apply _. Defined.
Definition select_quests (u : string) (f : QuestListFilter) (before : option Time) (d : TenantDB)
  : list QuestRec :=
  limited (lf_Limit f) (merge_sort newest_first (List.filter (quest_matches u f before) (tb_quests d))).
Definition parse_cursor (f : QuestListFilter) : res (option Time) :=
  if is_empty (lf_Cursor f) then Ok None
  else match parse_rfc3339nano (lf_Cursor f) with
       | Some t => Ok (Some t)
       | None => Err (wrap ("ListQuests: cursor " +:+ fmt_q (lf_Cursor f) +:+ ": ") (ENew "parsing time"))
       end.
Definition ListQuests (u : string) (f : QuestListFilter) : TSQL (list QuestRow) :=
  before ← sql_of (parse_cursor f);
  rows ← ctx_err "ListQuests: " (query (λ d, Ok (select_quests u f before d)));
  sql_of (each (λ r, scanQuestRow (Some r)) rows).

(** ** The event stream *)

(** The [fields_json] column: [EncodeAttrs] of no attribute is NULL. *)
Definition encode_fields (attrs : list Attr) : option (list flatAttr) :=
  match attrs with [] => None | _ => Some (EncodeAttrs attrs) end.
Definition decode_fields (o : option (list flatAttr)) : list Attr :=
  match o with None => [] | Some l => DecodeAttrs l end.
Definition insert_quest_event (u qid ty : string) (at_ : Z) (fields : option (list flatAttr))
    (d : TenantDB) : res Z * TenantDB :=
  if existsb (is_quest u qid) (tb_quests d)
  then (Ok 1, with_events (tb_events d ++ [mkQuestEventRec (next_id qe_id (tb_events d)) qid u ty at_ fields]) d)
  else (Ok 0, d).
Definition WriteQuestEvent (u qid : string) (evt : Event) : TSQL unit :=
  if is_empty u || is_empty qid then
    sql_of (Err (ENew "WriteQuestEvent: userID and questID are required"))
  else if is_empty (e_Type evt) then sql_of (Err (ENew "WriteQuestEvent: event type is required"))
  else
    n ← ctx_err "WriteQuestEvent: "
          (stmt (insert_quest_event u qid (e_Type evt) (unix_milli (e_At evt)) (encode_fields (e_Attrs evt))));
    if n =? 0 then sql_of (Err (wrap ("quest " +:+ qid +:+ ": ") Store.ErrNotFound)) else mret tt.

Definition is_event_of (u qid : string) (r : QuestEventRec) : bool :=
  str_eqb (qe_user r) u && str_eqb (qe_quest r) qid.
(** [ORDER BY at ASC, id ASC]. *)
Definition oldest_first (a b : QuestEventRec) : Prop :=
  qe_at a < qe_at b ∨ (qe_at a = qe_at b ∧ qe_id a ≤ qe_id b).
#[export] Instance oldest_first_dec : RelDecision oldest_first.
Proof. intros a b. unfold oldest_first. apply _. Defined.
Definition event_of (r : QuestEventRec) : Event :=
  mkEvent (qe_type r) (of_milli (qe_at r)) (decode_fields (qe_fields r)).
Definition select_events (u qid : string) (limit : Z) (d : TenantDB) : list QuestEventRec :=
  limited limit (merge_sort oldest_first (List.filter (is_event_of u qid) (tb_events d))).
Definition ListQuestEvents (u qid : string) (limit : Z) : TSQL (list Event) :=
  rows ← ctx_err "ListQuestEvents: " (query (λ d, Ok (select_events u qid limit d)));
  mret (map event_of rows).
