(* ===== verification/QuestsProofs.v ===== *)
(** * The quest table refines a map from ids to quests

    The abstract store is a finite map from quest ids to rows, each row
    with its owner; the five operations of [quests.go] are steps of it, and
    a listing is the sorted, filtered, limited image of the map. *)

From S2P Require Import Prelude GoTime GoFormat Types Status Slots Drop Json Hash Codec Sql Tenant Quests.

(** ** The invariant of the two tables *)

Record quests_wf (d : TenantDB) : Prop := {
  qw_ids : NoDup (map qr_id (tb_quests d));
  qw_rows : Forall (λ r, is_Ok (parseStatusDB (qr_status r)) = true) (tb_quests d);
  qw_events : Forall (λ e, existsb (is_quest (qe_user e) (qe_quest e)) (tb_quests d) = true) (tb_events d);
  qw_event_ids : StronglySorted Z.lt (map qe_id (tb_events d))
}.
Lemma quests_wf_empty : quests_wf empty_tenants.
Proof. split; constructor. Qed.

(** The status a row comes back with: the representative of its bucket. *)
Definition bucket (s : Status) : Status :=
  match s with
  | StatusSubmitted => StatusSubmitted
  | StatusScheduled | StatusDiscovering | StatusAwaiting => StatusScheduled
  | StatusFinding | StatusBooking => StatusFinding
  | StatusBooked => StatusBooked
  | StatusFailed | StatusExpired => StatusFailed
  | StatusCanceled => StatusCanceled
  end.
Lemma parseStatusDB_String s : parseStatusDB (statusDBString s) = Ok (bucket s).
Proof. by destruct s. Qed.
Lemma bucket_idemp s : bucket (bucket s) = bucket s.
Proof. by destruct s. Qed.
Lemma bucket_terminal s : IsTerminal (bucket s) = IsTerminal s.
Proof. by destruct s. Qed.
Lemma statusDB_bucket s t : statusDBString s = statusDBString t ↔ bucket s = bucket t.
Proof. destruct s, t; cbn; split; intros E; try done; discriminate E. Qed.
Lemma parseStatusDB_inv x s : parseStatusDB x = Ok s → x = statusDBString s ∧ bucket s = s.
Proof.
  unfold parseStatusDB. intros H.
  repeat (destruct (str_eqb x _) eqn:E in H; [injection H as <-; apply str_eqb_true in E as ->; done|clear E]).
  done.
Qed.

(** A row written and read back: times cut to the millisecond, in UTC. *)
Definition stored (q : QuestRow) : QuestRow :=
  mkQuestRow (q_ID q) (q_UserID q) (q_AccountID q) (q_GoalJSON q) (q_PlanHash q)
    (bucket (q_Status q)) (to_milli (q_CreatedAt q)) (to_milli (q_UpdatedAt q))
    (to_milli <$> q_CompletedAt q).
Lemma scan_quest_rec q : scanQuestRow (Some (quest_rec q)) = Ok (stored q).
Proof.
  unfold scanQuestRow, quest_rec, stored. cbn. rewrite parseStatusDB_String.
  by destruct (q_CompletedAt q).
Qed.

(** ** The abstraction *)

Definition row_of (r : QuestRec) : QuestRow :=
  mkQuestRow (qr_id r) (qr_user r) (qr_account r) (qr_goal r) (qr_hash r)
    (match parseStatusDB (qr_status r) with Ok s => s | Err _ => StatusSubmitted end)
    (of_milli (qr_created r)) (of_milli (qr_updated r)) (of_milli <$> qr_completed r).
Definition quest_map (d : TenantDB) : gmap string QuestRow :=
  list_to_map (map (λ r, (qr_id r, row_of r)) (tb_quests d)).

Lemma scan_row r : is_Ok (parseStatusDB (qr_status r)) = true → scanQuestRow (Some r) = Ok (row_of r).
Proof. unfold scanQuestRow, row_of. by destruct (parseStatusDB (qr_status r)). Qed.
Lemma wf_scan d r : quests_wf d → r ∈ tb_quests d → scanQuestRow (Some r) = Ok (row_of r).
Proof. intros [_ Hr _ _] Hin. apply scan_row. by apply (proj1 (Forall_forall _ _) Hr). Qed.

Lemma map_fst_quests l : (map (λ r, (qr_id r, row_of r)) l).*1 = map qr_id l.
Proof. induction l as [|r l IH]; cbn; [done|]. by rewrite IH. Qed.
Lemma quest_map_Some d id q :
  NoDup (map qr_id (tb_quests d)) →
  quest_map d !! id = Some q ↔ ∃ r, r ∈ tb_quests d ∧ qr_id r = id ∧ row_of r = q.
Proof.
  intros Hnd. unfold quest_map. rewrite <- elem_of_list_to_map by (by rewrite map_fst_quests).
  rewrite list_elem_of_fmap. split.
  - intros (r & E & Hin). injection E as -> ->. by exists r.
  - intros (r & Hin & <- & <-). by exists r.
Qed.
Lemma same_row d r r' :
  NoDup (map qr_id (tb_quests d)) → r ∈ tb_quests d → r' ∈ tb_quests d → qr_id r = qr_id r' → r = r'.
Proof.
  intros Hnd. induction (tb_quests d) as [|x l IH]; [by intros ?%elem_of_nil|].
  cbn in Hnd. apply NoDup_cons in Hnd as [Hx Hnd]. rewrite !elem_of_cons.
  assert (H : ∀ y, y ∈ l → qr_id x ≠ qr_id y).
  { intros y Hy E. apply Hx. rewrite E. apply list_elem_of_fmap. by exists y. }
  intros [->|Hr] [->|Hr'] E; [done| | |by apply IH].
  - by apply H in E.
  - symmetry in E. by apply H in E.
Qed.
Lemma find_quest u id d :
  NoDup (map qr_id (tb_quests d)) →
  match find (is_quest u id) (tb_quests d) with
  | Some r => r ∈ tb_quests d ∧ qr_id r = id ∧ qr_user r = u ∧ quest_map d !! id = Some (row_of r)
  | None => ∀ q, quest_map d !! id = Some q → q_UserID q ≠ u
  end.
Proof.
  intros Hnd. destruct (find _ _) as [r|] eqn:E.
  - apply find_spec in E as [Hin Hq]. unfold is_quest in Hq.
    apply andb_true_iff in Hq as [H1%str_eqb_true H2%str_eqb_true].
    split; [done|]. split; [done|]. split; [done|]. apply quest_map_Some; [done|]. by exists r.
  - intros q (r & Hin & Hid & <-)%quest_map_Some Hu; [|done].
    apply list_elem_of_In in Hin. pose proof (find_none _ _ E r Hin) as Hf.
    unfold is_quest in Hf. cbn in Hu. subst. by rewrite !str_eqb_refl in Hf.
Qed.
Lemma is_quest_own u id : ∀ r, is_quest u id r = true → qr_user r = u.
Proof. intros r [_ H%str_eqb_true]%andb_true_iff. done. Qed.
Lemma existsb_find {A} (p : A → bool) l :
  existsb p l = match find p l with Some _ => true | None => false end.
Proof. induction l as [|x l IH]; [done|]. cbn. destruct (p x); [done|apply IH]. Qed.
Lemma count_find {A} (p : A → bool) l : (length (List.filter p l) = 0)%nat ↔ find p l = None.
Proof. rewrite find_filter. by destruct (List.filter p l). Qed.

(** ** Writes on the map *)

Lemma has_id id d :
  NoDup (map qr_id (tb_quests d)) →
  existsb (λ x, str_eqb (qr_id x) id) (tb_quests d) = true ↔ is_Some (quest_map d !! id).
Proof.
  intros Hnd. rewrite existsb_exists. split.
  - intros (r & Hin%list_elem_of_In & E%str_eqb_true). exists (row_of r).
    apply quest_map_Some; [done|]. by exists r.
  - intros [q (r & Hin & E & _)%quest_map_Some]; [|done]. exists r.
    split; [by apply list_elem_of_In|by apply str_eqb_true].
Qed.
Lemma quest_map_insert r d :
  NoDup (map qr_id (tb_quests d)) → quest_map d !! qr_id r = None →
  quest_map (with_quests (tb_quests d ++ [r]) d) = <[qr_id r := row_of r]> (quest_map d).
Proof.
  intros Hnd Hn. unfold quest_map, with_quests in *. cbn [tb_quests].
  rewrite map_app, list_to_map_app. cbn [map list_to_map foldr].
  rewrite map_union_comm; [|].
  - cbn. by rewrite insert_empty, insert_union_singleton_l.
  - cbn. rewrite insert_empty. by apply map_disjoint_singleton_r.
Qed.
Lemma quest_map_update u id st upd comp d :
  NoDup (map qr_id (tb_quests d)) →
  quest_map (update_quest u id st upd comp d).2
  = match quest_map d !! id with
    | Some q =>
        if bool_decide (q_UserID q = u)
        then <[id := mkQuestRow (q_ID q) (q_UserID q) (q_AccountID q) (q_GoalJSON q) (q_PlanHash q)
                       (match parseStatusDB st with Ok s => s | Err _ => StatusSubmitted end)
                       (q_CreatedAt q) (of_milli upd) (of_milli <$> comp)]> (quest_map d)
        else quest_map d
    | None => quest_map d
    end.
Proof.
  intros Hnd. unfold quest_map, update_quest, with_quests. cbn [snd tb_quests].
  induction (tb_quests d) as [|r l IH]; [done|]. cbn in Hnd. apply NoDup_cons in Hnd as [Hr Hnd].
  specialize (IH Hnd). cbn [map list_to_map foldr fst snd uncurry].
  assert (Hid : qr_id (if is_quest u id r then set_status st upd comp r else r) = qr_id r)
    by (by destruct (is_quest u id r)).
  rewrite Hid. cbn in IH |- *. rewrite IH. destruct (decide (qr_id r = id)) as [Ei|Ni].
  - assert (Hnone : (list_to_map (map (λ r, (qr_id r, row_of r)) l) : gmap string QuestRow) !! id = None).
    { apply not_elem_of_list_to_map. rewrite map_fst_quests. by rewrite <- Ei. }
    rewrite Hnone, Ei, lookup_insert_eq. unfold is_quest. rewrite Ei, str_eqb_refl. cbn [andb row_of q_UserID].
    unfold str_eqb. case_bool_decide; [|done]. by rewrite insert_insert_eq.
  - unfold is_quest. rewrite str_eqb_neq by done. cbn [andb]. rewrite lookup_insert_ne by done.
    destruct (_ !! id); [|done]. case_bool_decide; [|done]. by rewrite insert_insert_ne.
Qed.

Lemma update_quest_keeps u id st upd comp d :
  map qr_id (tb_quests (update_quest u id st upd comp d).2) = map qr_id (tb_quests d) ∧
  ∀ v qid, existsb (is_quest v qid) (tb_quests (update_quest u id st upd comp d).2)
           = existsb (is_quest v qid) (tb_quests d).
Proof.
  unfold update_quest, with_quests. cbn. split.
  - rewrite map_map. apply map_ext. intros r. by destruct (is_quest u id r).
  - intros v qid. induction (tb_quests d) as [|r l IH]; [done|]. cbn. rewrite IH. f_equal.
    destruct (is_quest u id r); done.
Qed.
Lemma next_id_above l : StronglySorted Z.lt (map qe_id l) → StronglySorted Z.lt (map qe_id l ++ [next_id qe_id l]).
Proof.
  assert (Hmax : ∀ l, Forall (λ z, z < next_id qe_id l) (map qe_id l)).
  { intros m. unfold next_id. induction m as [|x m IH]; cbn; [constructor|].
    constructor; [lia|]. eapply Forall_impl; [exact IH|]. cbn. lia. }
  specialize (Hmax l). intros Hs. induction Hs as [|z m Hs IH Hz]; cbn; [repeat constructor|].
  apply Forall_cons in Hmax as [H1 H2]. constructor; [by apply IH|].
  apply Forall_app. split; [done|]. by repeat constructor.
Qed.

(** ** Every operation keeps the invariant *)

Lemma insert_quest_wf q d : quests_wf d → quests_wf (insert_quest (quest_rec q) d).2.
Proof.
  intros Hwf. pose proof Hwf as [Hi Hr He Hs]. unfold insert_quest.
  destruct (existsb _ (tb_quests d)) eqn:E; [done|]. destruct (negb _); [done|]. cbn [snd].
  split; cbn [with_quests tb_quests tb_events]; [| | |done].
  - rewrite map_app, Permutation_app_comm. cbn. apply NoDup_cons. split; [|done].
    intros (r & Hid & Hin)%list_elem_of_fmap. apply not_true_iff_false in E. apply E.
    apply existsb_exists. exists r. split; [by apply list_elem_of_In|by apply str_eqb_true].
  - apply Forall_app. split; [done|]. repeat constructor. cbn. by rewrite parseStatusDB_String.
  - eapply Forall_impl; [exact He|]. cbn. intros e H. by rewrite existsb_app, H.
Qed.
Lemma update_quest_wf u id s upd comp d :
  quests_wf d → quests_wf (update_quest u id (statusDBString s) upd comp d).2.
Proof.
  intros [Hi Hr He Hs]. destruct (update_quest_keeps u id (statusDBString s) upd comp d) as [E1 E2].
  split; [by rewrite E1| | |done].
  - unfold update_quest, with_quests. cbn. rewrite Forall_forall in *. intros r Hin.
    apply list_elem_of_fmap in Hin as (r0 & -> & Hin). destruct (is_quest u id r0); [|by apply Hr].
    cbn. by rewrite parseStatusDB_String.
  - eapply Forall_impl; [exact He|]. intros e H. by rewrite E2.
Qed.
Lemma insert_quest_event_wf u qid ty at_ f d : quests_wf d → quests_wf (insert_quest_event u qid ty at_ f d).2.
Proof.
  intros [Hi Hr He Hs]. unfold insert_quest_event.
  destruct (existsb (is_quest u qid) _) eqn:E; [|done]. split; cbn [snd with_events tb_quests tb_events]; [done|done| |].
  - apply Forall_app. split; [done|]. by repeat constructor.
  - rewrite map_app. cbn [map qe_id]. by apply next_id_above.
Qed.

(** ** The abstract store *)

Inductive QuestOp :=
| OpCreate (q : QuestRow)
| OpGet (u id : string)
| OpUpdate (u id : string) (st : Status) (completed : option Time) (upd : Time)
| OpList (u : string) (f : QuestListFilter).
Inductive QuestAnswer := AnsUnit | AnsRow (q : QuestRow) | AnsRows (l : list QuestRow).
Definition run_quest_op (op : QuestOp) : TSQL QuestAnswer :=
  match op with
  | OpCreate q => _ ← CreateQuest q; mret AnsUnit
  | OpGet u id => q ← GetQuest u id; mret (AnsRow q)
  | OpUpdate u id st completed upd => _ ← UpdateQuestStatus u id st completed upd; mret AnsUnit
  | OpList u f => l ← ListQuests u f; mret (AnsRows l)
  end.

(** What a filter means, on the rows a caller sees: statuses by bucket,
    times to the millisecond. *)
Definition row_matches (u : string) (f : QuestListFilter) (before : option Time) (q : QuestRow) : Prop :=
  q_UserID q = u ∧
  (lf_Status f = [] ∨ ∃ s, s ∈ lf_Status f ∧ bucket s = q_Status q) ∧
  (∀ a, lf_AccountID f = Some a → q_AccountID q = a) ∧
  (∀ t, lf_Since f = Some t → unix_milli t ≤ unix_milli (q_CreatedAt q)) ∧
  (∀ t, lf_Until f = Some t → unix_milli (q_CreatedAt q) ≤ unix_milli t) ∧
  (∀ t, before = Some t → unix_milli (q_CreatedAt q) < unix_milli t).
Definition row_newer (a b : QuestRow) : Prop :=
  unix_milli (q_CreatedAt b) < unix_milli (q_CreatedAt a)
  ∨ (unix_milli (q_CreatedAt a) = unix_milli (q_CreatedAt b) ∧ String.le (q_ID b) (q_ID a)).
(** The quests of a listing: all that match, newest first, then the limit. *)
Definition listing (u : string) (f : QuestListFilter) (before : option Time)
    (A : gmap string QuestRow) (l : list QuestRow) : Prop :=
  ∃ full, StronglySorted row_newer full ∧ NoDup full ∧
    (∀ q, q ∈ full ↔ row_matches u f before q ∧ A !! q_ID q = Some q) ∧ l = limited (lf_Limit f) full.

(** One step of the abstract store, when no statement fails; [refs] says
    whether what a new quest refers to exists. *)
Definition quest_step (op : QuestOp) (refs : bool) (A : gmap string QuestRow) (r : res QuestAnswer)
    (A' : gmap string QuestRow) : Prop :=
  match op with
  | OpCreate q =>
      let refused := A' = A ∧ ∃ e, r = Err e ∧ errors_is e Store.ErrNotFound = false in
      if is_empty (q_ID q) || is_empty (q_UserID q) || is_empty (q_AccountID q) then refused
      else match A !! q_ID q with
           | Some _ => refused
           | None => if refs then r = Ok AnsUnit ∧ A' = <[q_ID q := stored q]> A else refused
           end
  | OpGet u id =>
      A' = A ∧
      match A !! id with
      | Some q => if bool_decide (q_UserID q = u) then r = Ok (AnsRow q)
                  else ∃ e, r = Err e ∧ errors_is e Store.ErrNotFound = true
      | None => ∃ e, r = Err e ∧ errors_is e Store.ErrNotFound = true
      end
  | OpUpdate u id st completed upd =>
      match A !! id with
      | Some q =>
          if bool_decide (q_UserID q = u)
          then r = Ok AnsUnit ∧
               A' = <[id := mkQuestRow (q_ID q) (q_UserID q) (q_AccountID q) (q_GoalJSON q) (q_PlanHash q)
                              (bucket st) (q_CreatedAt q) (to_milli upd) (to_milli <$> completed)]> A
          else A' = A ∧ ∃ e, r = Err e ∧ errors_is e Store.ErrNotFound = true
      | None => A' = A ∧ ∃ e, r = Err e ∧ errors_is e Store.ErrNotFound = true
      end
  | OpList u f =>
      A' = A ∧
      match parse_cursor f with
      | Err e => r = Err e
      | Ok before => ∃ l, r = Ok (AnsRows l) ∧ listing u f before A l
      end
  end.
(** ** Listings *)

Lemma enum_vals_spec seen l v :
  v ∈ enum_vals seen l ↔ v ∉ seen ∧ ∃ s, s ∈ l ∧ statusDBString s = v.
Proof.
  revert seen. induction l as [|s l IH]; intros seen; cbn.
  - split; [by intros ?%elem_of_nil|intros (_ & s & ?%elem_of_nil & _); done].
  - destruct (existsb (str_eqb (statusDBString s)) seen) eqn:E.
    + rewrite IH. apply existsb_exists in E as (w & Hw%list_elem_of_In & <-%str_eqb_true).
      split; [naive_solver set_solver|]. intros (Hn & s' & [->|Hs']%elem_of_cons & <-); [done|]. eauto.
    + assert (Hns : statusDBString s ∉ seen).
      { intros Hin. apply not_true_iff_false in E. apply E, existsb_exists. exists (statusDBString s).
        split; [by apply list_elem_of_In|by apply str_eqb_true]. }
      rewrite elem_of_cons, IH, elem_of_cons. split.
      * intros [->|[Hn (s' & Hs' & <-)]]; [split; [done|]|split; [tauto|]].
        -- exists s. split; [by left|done].
        -- exists s'. split; [by right|done].
      * intros (Hn & s' & [->|Hs']%elem_of_cons & <-); [by left|].
        destruct (decide (statusDBString s' = statusDBString s)) as [->|]; [by left|].
        right. split; [tauto|]. by exists s'.
Qed.
Lemma enum_vals_nodup seen l : NoDup (enum_vals seen l).
Proof.
  revert seen. induction l as [|s l IH]; intros seen; cbn; [constructor|].
  destruct (existsb _ _); [done|]. constructor; [|done]. rewrite enum_vals_spec. set_solver.
Qed.

#[export] Instance newest_first_total : Total newest_first.
Proof.
  intros a b. unfold newest_first. destruct (Z.lt_trichotomy (qr_created a) (qr_created b)) as [|[E|]].
  - by right; left.
  - destruct (total String.le (qr_id a) (qr_id b)); [right|left]; right; by split.
  - by left; left.
Qed.
#[export] Instance newest_first_trans : Transitive newest_first.
Proof.
  intros a b c. unfold newest_first. intros [H|[E H]] [H'|[E' H']]; [left; lia|left; lia|left; lia|].
  right. split; [lia|]. by etrans.
Qed.

Lemma quest_matches_row u f before d r :
  quests_wf d → r ∈ tb_quests d →
  quest_matches u f before r = true ↔ row_matches u f before (row_of r).
Proof.
  intros [_ Hr _ _] Hin. apply (proj1 (Forall_forall _ _) Hr) in Hin.
  apply is_Ok_true in Hin as [st Hst]. pose proof (parseStatusDB_inv _ _ Hst) as [Est Eb].
  unfold quest_matches, row_matches, row_of. cbn [q_UserID q_Status q_AccountID q_CreatedAt].
  rewrite Hst, unix_milli_of, !andb_true_iff, str_eqb_true, Est.
  assert (Hs : match lf_Status f with
               | [] => true | sts => existsb (str_eqb (statusDBString st)) (enum_vals [] sts)
               end = true ↔ lf_Status f = [] ∨ ∃ s, s ∈ lf_Status f ∧ bucket s = st).
  { destruct (lf_Status f) as [|s0 l] eqn:El; [naive_solver|]. rewrite <- El. split.
    - intros (w & Hw%list_elem_of_In & <-%str_eqb_true)%existsb_exists. right.
      apply enum_vals_spec in Hw as (_ & s & Hs & E). exists s. split; [done|].
      apply statusDB_bucket in E. congruence.
    - intros [?|(s & Hs & E)]; [congruence|]. apply existsb_exists. exists (statusDBString st).
      split; [|apply str_eqb_refl]. apply list_elem_of_In, enum_vals_spec. split; [set_solver|].
      exists s. split; [done|]. apply statusDB_bucket. congruence. }
  rewrite Hs. clear Hs.
  assert (Ha : match lf_AccountID f with Some a => str_eqb (qr_account r) a | None => true end = true
               ↔ ∀ a, lf_AccountID f = Some a → qr_account r = a)
    by (destruct (lf_AccountID f); rewrite ?str_eqb_true; naive_solver).
  assert (Hsi : match lf_Since f with Some t => unix_milli t <=? qr_created r | None => true end = true
               ↔ ∀ t, lf_Since f = Some t → unix_milli t ≤ qr_created r)
    by (destruct (lf_Since f); rewrite ?Z.leb_le; naive_solver).
  assert (Hu : match lf_Until f with Some t => qr_created r <=? unix_milli t | None => true end = true
               ↔ ∀ t, lf_Until f = Some t → qr_created r ≤ unix_milli t)
    by (destruct (lf_Until f); rewrite ?Z.leb_le; naive_solver).
  assert (Hb : match before with Some t => qr_created r <? unix_milli t | None => true end = true
               ↔ ∀ t, before = Some t → qr_created r < unix_milli t)
    by (destruct before; rewrite ?Z.ltb_lt; naive_solver).
  tauto.
Qed.

Lemma sorted_rows l : StronglySorted newest_first l → StronglySorted row_newer (map row_of l).
Proof.
  induction 1 as [|r l Hs IH Hr]; cbn; constructor; [done|].
  apply Forall_forall. intros q (r' & -> & Hin)%list_elem_of_fmap.
  pose proof (proj1 (Forall_forall _ _) Hr r' Hin) as H. revert H.
  unfold newest_first, row_newer, row_of. cbn [q_CreatedAt q_ID]. by rewrite !unix_milli_of.
Qed.
Lemma listing_select u f before d :
  quests_wf d → listing u f before (quest_map d) (map row_of (select_quests u f before d)).
Proof.
  intros Hwf. pose proof Hwf as [Hnd _ _ _].
  set (l := List.filter (quest_matches u f before) (tb_quests d)).
  exists (map row_of (merge_sort newest_first l)).
  assert (Hp : merge_sort newest_first l ≡ₚ l) by apply merge_sort_Permutation.
  assert (Hl : ∀ r, r ∈ l ↔ r ∈ tb_quests d ∧ quest_matches u f before r = true).
  { intros r. unfold l. rewrite !list_elem_of_In. apply filter_In. }
  split; [apply sorted_rows, Sorted_StronglySorted; [apply _|apply (Sorted_merge_sort _)]|].
  split; [|split].
  - assert (Hq : NoDup (map q_ID (map row_of (merge_sort newest_first l)))).
    { rewrite map_map. change (λ x, q_ID (row_of x)) with qr_id. rewrite Hp.
      unfold l. clear -Hnd. induction (tb_quests d) as [|r m IH]; cbn in *; [constructor|].
      apply NoDup_cons in Hnd as [Hr Hnd]. destruct (quest_matches u f before r); cbn; [|by apply IH].
      constructor; [|by apply IH]. intros (r' & E & Hin)%list_elem_of_fmap. apply Hr.
      apply list_elem_of_In, filter_In in Hin as [Hin _]. apply list_elem_of_In in Hin.
      apply list_elem_of_fmap. by exists r'. }
    by apply NoDup_fmap_1 in Hq.
  - intros q. rewrite list_elem_of_fmap. split.
    + intros (r & -> & Hin). rewrite Hp, Hl in Hin. destruct Hin as [Hin Hm].
      split; [by apply (quest_matches_row u f before d)|]. apply quest_map_Some; [done|]. by exists r.
    + intros [Hm (r & Hin & Hid & <-)%quest_map_Some]; [|done]. exists r. split; [done|].
      rewrite Hp, Hl. split; [done|]. by apply (quest_matches_row u f before d).
  - unfold select_quests, limited. fold l. destruct (0 <? lf_Limit f); [|done].
    apply (fmap_take row_of).
Qed.

(** ** The operations one by one *)

Lemma create_step q fl n d :
  quests_wf d → fl n = None →
  let '(r, _, d') := run_quest_op (OpCreate q) fl n d in
  quest_step (OpCreate q) (has_user (q_UserID q) d && has_account (q_AccountID q) d) (quest_map d) r (quest_map d').
Proof.
  intros [Hnd _ _ _] Hfl. cbn [run_quest_op quest_step]. unfold CreateQuest.
  destruct (is_empty (q_ID q) || is_empty (q_UserID q) || is_empty (q_AccountID q)); cbn [orb].
  { run_sql. split; [done|]. by eexists. }
  run_sql. rewrite Hfl. unfold insert_quest. destruct (existsb _ (tb_quests d)) eqn:E.
  - apply (has_id (q_ID q) d Hnd) in E as [x Hx]. rewrite Hx. split; [done|]. by eexists.
  - change (qr_user (quest_rec q)) with (q_UserID q). change (qr_account (quest_rec q)) with (q_AccountID q).
    destruct (quest_map d !! q_ID q) eqn:Eq.
    { assert (Hs : is_Some (quest_map d !! q_ID q)) by by eexists.
      apply (has_id (q_ID q) d Hnd) in Hs. change (q_ID q) with (qr_id (quest_rec q)) in Hs. congruence. }
    destruct (has_user _ _ && has_account _ _); cbn [negb]; [|split; [done|]; by eexists].
    split; [done|]. rewrite (quest_map_insert (quest_rec q)); [|done|done]. f_equal.
    pose proof (scan_quest_rec q) as Hscan. rewrite scan_row in Hscan by (cbn; by rewrite parseStatusDB_String).
    congruence.
Qed.
Lemma not_found_wrap pre : errors_is (wrap pre Store.ErrNotFound) Store.ErrNotFound = true.
Proof. rewrite errors_is_wrap. apply errors_is_self. Qed.
Lemma get_step u id fl n d :
  quests_wf d → fl n = None →
  let '(r, _, d') := run_quest_op (OpGet u id) fl n d in
  quest_step (OpGet u id) true (quest_map d) r (quest_map d').
Proof.
  intros Hwf Hfl. pose proof Hwf as [Hnd _ _ _]. cbn [run_quest_op]. unfold GetQuest. run_sql. rewrite Hfl.
  pose proof (find_quest u id d Hnd) as Hf. destruct (find _ _) as [r|]; cbv beta iota.
  - destruct Hf as (Hin & Hid & Hu & Em). rewrite (wf_scan d r Hwf Hin). cbn [quest_step].
    rewrite Em. split; [done|]. by rewrite bool_decide_eq_true_2.
  - cbn [quest_step scanQuestRow]. split; [done|]. destruct (quest_map d !! id) as [q|] eqn:Em.
    + rewrite bool_decide_eq_false_2 by (by apply Hf). eexists. split; [done|apply not_found_wrap].
    + eexists. split; [done|apply not_found_wrap].
Qed.
Lemma update_step u id st completed upd fl n d :
  quests_wf d → fl n = None →
  let '(r, _, d') := run_quest_op (OpUpdate u id st completed upd) fl n d in
  quest_step (OpUpdate u id st completed upd) true (quest_map d) r (quest_map d').
Proof.
  intros Hwf Hfl. pose proof Hwf as [Hnd _ _ _]. cbn [run_quest_op]. unfold UpdateQuestStatus. run_sql. rewrite Hfl.
  pose proof (quest_map_update u id (statusDBString st) (unix_milli upd) (unix_milli <$> completed) d Hnd) as Hm.
  unfold update_quest at 1 in Hm. cbn [snd] in Hm. unfold update_quest. cbv beta iota zeta.
  pose proof (find_quest u id d Hnd) as Hf. destruct (Z.of_nat _ =? 0) eqn:Ec; zb; cbv beta iota; cbn [quest_step].
  - assert (Ef : find (is_quest u id) (tb_quests d) = None) by (apply count_find; lia).
    rewrite Ef in Hf. destruct (quest_map d !! id) as [q|] eqn:Em.
    + specialize (Hf q eq_refl). rewrite bool_decide_eq_false_2 in * by done.
      split; [by rewrite Hm|]. eexists. split; [done|apply not_found_wrap].
    + split; [by rewrite Hm|]. eexists. split; [done|apply not_found_wrap].
  - destruct (find _ _) as [r|] eqn:Ef; [|apply count_find in Ef; lia].
    destruct Hf as (_ & _ & Hu & Em). rewrite Em in Hm |- *.
    rewrite bool_decide_eq_true_2 in * by done. split; [done|]. rewrite Hm, parseStatusDB_String.
    by destruct completed.
Qed.
Lemma list_step u f fl n d :
  quests_wf d → fl n = None →
  let '(r, _, d') := run_quest_op (OpList u f) fl n d in
  quest_step (OpList u f) true (quest_map d) r (quest_map d').
Proof.
  intros Hwf Hfl. cbn [run_quest_op]. unfold ListQuests. run_sql.
  destruct (parse_cursor f) as [before|e] eqn:Ep; cbn [quest_step]; rewrite Ep; [|done].
  rewrite Hfl. cbv beta iota zeta.
  assert (He : each (λ r, scanQuestRow (Some r)) (select_quests u f before d)
               = Ok (map row_of (select_quests u f before d))).
  { apply each_fmap. intros r Hin. apply (wf_scan d); [done|].
    assert (Hsub : ∀ k (l : list QuestRec), r ∈ limited k l → r ∈ l).
    { intros k l. unfold limited. destruct (0 <? k); [|done]. 
      intros Hr. rewrite <- (take_drop (Z.to_nat k) l). apply elem_of_app. by left. }
    apply Hsub in Hin. rewrite merge_sort_Permutation in Hin.
    apply list_elem_of_In, filter_In in Hin as [Hin _]. by apply list_elem_of_In. }
  rewrite He. split; [done|]. eexists. split; [done|]. by apply listing_select.
Qed.

(** A failing statement leaves the map as it was, and its error is no
    "not found" of the store's own. *)
Lemma faulty_step op e fl n d :
  fl n = Some e →
  let '(r, _, d') := run_quest_op op fl n d in
  d' = d ∧ ∃ e', r = Err e' ∧ (errors_is e' Store.ErrNotFound = true → errors_is e Store.ErrNotFound = true).
Proof.
  intros Hfl. destruct op as [q|u id|u id st completed upd|u f]; cbn [run_quest_op];
    unfold CreateQuest, GetQuest, UpdateQuestStatus, ListQuests; run_sql.
  1: destruct (_ || _); [split; [done|]; by eexists|].
  4: unfold parse_cursor; destruct (is_empty _); [|destruct (parse_rfc3339nano _); [|split; [done|]; by eexists]].
  all: rewrite Hfl; split; [done|]; eexists; by rewrite errors_is_wrap.
Qed.
Lemma quest_op_wf op fl n d : quests_wf d → quests_wf (run_quest_op op fl n d).2.
Proof.
  assert (Hm : ∀ A (m : TSQL A), moves (λ d d', quests_wf d → quests_wf d') m →
                 quests_wf d → quests_wf (m fl n d).2) by (intros A m Hm; apply Hm).
  apply Hm. clear. destruct op as [q|u id|u id st completed upd|u f]; cbn [run_quest_op].
  - apply moves_bind; [tauto| |intros; apply moves_ret; tauto]. unfold CreateQuest.
    destruct (_ || _); [by apply moves_of|]. apply moves_ctx, moves_stmt; [done|].
    intros d a _ Hwf. by apply insert_quest_wf.
  - apply moves_bind; [tauto| |intros; apply moves_ret; tauto]. unfold GetQuest.
    apply moves_bind; [tauto|by apply moves_ctx, moves_query|]. intros. by apply moves_of.
  - apply moves_bind; [tauto| |intros; apply moves_ret; tauto]. unfold UpdateQuestStatus.
    apply moves_bind; [tauto| |intros x; destruct (x =? 0); [by apply moves_of|by apply moves_ret]].
    apply moves_ctx, moves_stmt; [done|]. intros d a _ Hwf. by apply update_quest_wf.
  - apply moves_bind; [tauto| |intros; apply moves_ret; tauto]. unfold ListQuests.
    apply moves_bind; [tauto|by apply moves_of|]. intros b. apply moves_bind; [tauto|by apply moves_ctx, moves_query|].
    intros. by apply moves_of.
Qed.

(** The user and the account a new quest refers to exist. *)
Definition refers (op : QuestOp) (d : TenantDB) : bool :=
  match op with OpCreate q => has_user (q_UserID q) d && has_account (q_AccountID q) d | _ => true end.
(** C11. The quest table refines a finite map from ids to quests: every
    operation keeps the table well formed; when its statement fails the map
    is as before and the caller gets an error, which is a "not found" only
    if the failure was; otherwise it is exactly one step of the abstract
    store: create inserts under a fresh id, and refuses a taken or an empty
    one, and a user or an account that is empty or does not exist, all with
    an error that is not "not found"; get and update reach only the owner's
    quest and answer "not found" for a missing one and for another user's
    alike; and a listing is the filtered map, newest first, from before the
    cursor, cut at the limit. *)
Theorem quest_store_refines op fl n d :
  quests_wf d →
  let '(r, _, d') := run_quest_op op fl n d in
  quests_wf d' ∧
  match fl n with
  | Some e => quest_map d' = quest_map d ∧
      ∃ e', r = Err e' ∧ (errors_is e' Store.ErrNotFound = true → errors_is e Store.ErrNotFound = true)
  | None => quest_step op (refers op d) (quest_map d) r (quest_map d')
  end.
Proof.
  intros Hwf. pose proof (quest_op_wf op fl n d Hwf) as Hwf'. destruct (fl n) as [e|] eqn:Hfl.
  - pose proof (faulty_step op e fl n d Hfl) as H. destruct (run_quest_op op fl n d) as [[r k] d'].
    by destruct H as [-> H].
  - assert (H : let '(r, _, d') := run_quest_op op fl n d in quest_step op (refers op d) (quest_map d) r (quest_map d')).
    { destruct op; [by apply create_step|by apply get_step|by apply update_step|by apply list_step]. }
    by destruct (run_quest_op op fl n d) as [[r k] d'].
Qed.

(** ** Samples *)

Definition two_tenants : TenantDB :=
  with_accounts
    [mkAccountRec "acct_1" (Some "usr_1") "ann@example.com" "imported" 1777600000000 None;
     mkAccountRec "acct_2" (Some "usr_2") "bob@example.com" "imported" 1777600000000 None]
    (with_users
       [mkUserRec "usr_1" "ann@example.com" "" "admin" None (StampInt 1777600000000) None;
        mkUserRec "usr_2" "bob@example.com" "" "user" (Some "usr_1") (StampInt 1777600000000) None]
       empty_tenants).
Definition sample_quest (u a id : string) (t : Time) : QuestRow :=
  mkQuestRow id u a (MarshalGoal (sample_goal [])) "hash" StatusSubmitted t t None.
Definition with_one_quest : TenantDB :=
  (run_quest_op (OpCreate (sample_quest "usr_1" "acct_1" "q_1" drop_ny)) (λ _, None) 0%nat two_tenants).2.
Lemma two_tenants_wf : quests_wf two_tenants.
Proof. split; constructor. Qed.
Lemma quest_store_refines_witness :
  quest_map with_one_quest !! "q_1" = Some (stored (sample_quest "usr_1" "acct_1" "q_1" drop_ny)).
Proof.
  pose proof (quest_store_refines (OpCreate (sample_quest "usr_1" "acct_1" "q_1" drop_ny)) (λ _, None) 0%nat
                two_tenants two_tenants_wf) as H.
  unfold with_one_quest. destruct (run_quest_op _ _ _ _) as [[r k] d']. destruct H as [_ [_ H]].
  cbn [snd]. rewrite H. apply lookup_insert_eq.
Defined.
