(* ===== verification/Idempotency.v ===== *)
(** * [store/idempotency.go]: replayable outcomes

    One row per (user, scope, key, payload), upserted under the digest of
    the four; a second digest without the payload finds the uses of the same
    key with another payload. *)

From S2P Require Import Prelude GoTime GoFormat Millis Types Status Slots Sha256 Drop Json Hash Codec Sql Tenant.

Definition IdempotencyOK : string := "ok".
Definition IdempotencyError : string := "error".

Definition idem_key_text (userID scope key payloadHash : string) : string :=
  userID +:+ ":" +:+ scope +:+ ":" +:+ key +:+ ":" +:+ payloadHash.
Definition idem_plain_text (userID scope key : string) : string :=
  userID +:+ ":" +:+ scope +:+ ":" +:+ key.
Definition HashIdempotencyKey (userID scope key payloadHash : string) : list Z :=
  sum256 (idem_key_text userID scope key payloadHash).
Definition HashIdempotencyPlain (userID scope key : string) : list Z :=
  sum256 (idem_plain_text userID scope key).

Definition hash_eqb (a b : list Z) : bool := bool_decide (a = b).

(** ** Writing *)

(** [ON CONFLICT(key_hash) DO UPDATE]: owner, scope and plain hash stay. *)
Definition idem_update (new old : IdemRec) : IdemRec :=
  mkIdemRec (ik_key old) (ik_user old) (ik_scope old) (ik_plain old) (ik_target new) (ik_code new)
    (ik_err new) (ik_created new) (ik_expires new).
Definition upsert_idem (r : IdemRec) (d : TenantDB) : res unit * TenantDB :=
  let hit x := hash_eqb (ik_key x) (ik_key r) in
  if existsb hit (tb_idem d)
  then (Ok tt, with_idem (map (λ x, if hit x then idem_update r x else x) (tb_idem d)) d)
  else if has_user (ik_user r) d then (Ok tt, with_idem (tb_idem d ++ [r]) d)
  else (Err (constraint "FOREIGN KEY"), d).
Definition idem_row (userID scope key payloadHash targetID : string) (errVal : option error)
    (ttl : Z) (now : Time) : IdemRec :=
  mkIdemRec (HashIdempotencyKey userID scope key payloadHash) userID scope
    (HashIdempotencyPlain userID scope key) (nullable targetID)
    (match errVal with Some _ => IdempotencyError | None => IdempotencyOK end)
    (error_String <$> errVal) (fmt_millis (t_ns now)) (fmt_millis (t_ns (time_add now ttl))).
Definition PutIdempotencyResult (userID scope key payloadHash targetID : string)
    (errVal : option error) (ttl : Z) (now : Time) : TSQL unit :=
  if is_empty userID || is_empty scope || is_empty key
  then sql_of (Err (ENew "PutIdempotencyResult: userID, scope, plaintextKey are required"))
  else ctx_err "PutIdempotencyResult: "
         (stmt (upsert_idem (idem_row userID scope key payloadHash targetID errVal ttl now))).

(** ** Looking up *)

Record IdempotencyLookup := mkIdempotencyLookup {
  il_Found : bool;
  il_PayloadMatch : bool;
  il_Expired : bool;
  il_TargetID : string;
  il_ResultCode : string;
  il_ResultErr : string
}.
Definition no_lookup : IdempotencyLookup := mkIdempotencyLookup false false false "" "" "".
Definition found_lookup (exact : bool) (l : IdempotencyLookup) : IdempotencyLookup :=
  mkIdempotencyLookup true exact (il_Expired l) (il_TargetID l) (il_ResultCode l) (il_ResultErr l).

Definition parse_expires (s : string) : res Time :=
  match parse_millis s with
  | Some t => Ok t
  | None =>
      match parse_rfc3339nano s with
      | Some t => Ok t
      | None => Err (wrap ("parse expires_at " +:+ fmt_q s +:+ ": ") (ENew "parsing time"))
      end
  end.
(** [None] is [sql.ErrNoRows], reported as not found. *)
Definition scanIdempotencyRow (row : option IdemRec) (now : Time) : res (option IdempotencyLookup) :=
  match row with
  | None => Ok None
  | Some r =>
      exp ← parse_expires (ik_expires r);
      Ok (Some (mkIdempotencyLookup false false (negb (time_before now exp))
                  (null_string (ik_target r)) (ik_code r) (null_string (ik_err r))))
  end.

Definition exact_idem (userID : string) (keyHash : list Z) (r : IdemRec) : bool :=
  hash_eqb (ik_key r) keyHash && str_eqb (ik_user r) userID.
Definition same_key (userID scope : string) (plain : list Z) (r : IdemRec) : bool :=
  str_eqb (ik_user r) userID && str_eqb (ik_scope r) scope && hash_eqb (ik_plain r) plain.
(** [ORDER BY created_at DESC LIMIT 1]; among equal texts, the first row. *)
Fixpoint latest (l : list IdemRec) : option IdemRec :=
  match l with
  | [] => None
  | r :: l' =>
      match latest l' with
      | Some s => if String.leb (ik_created s) (ik_created r) then Some r else Some s
      | None => Some r
      end
  end.
Definition GetIdempotencyResult (userID scope key payloadHash : string) (now : Time)
    : TSQL IdempotencyLookup :=
  if is_empty userID || is_empty scope || is_empty key
  then sql_of (Err (ENew "GetIdempotencyResult: userID, scope, plaintextKey are required"))
  else
    row ← ctx_err "scan idempotency: "
            (query (λ d, Ok (find (exact_idem userID (HashIdempotencyKey userID scope key payloadHash))
                               (tb_idem d))));
    first ← sql_of (scanIdempotencyRow row now);
    match first with
    | Some l => mret (found_lookup true l)
    | None =>
        row ← ctx_err "scan idempotency: "
                (query (λ d, Ok (latest (List.filter
                   (same_key userID scope (HashIdempotencyPlain userID scope key)) (tb_idem d)))));
        second ← sql_of (scanIdempotencyRow row now);
        match second with
        | Some l => mret (found_lookup false l)
        | None => mret no_lookup
        end
    end.

(** ** Pruning: a text comparison *)

Definition delete_expired (cutoff : string) (d : TenantDB) : res Z * TenantDB :=
  let gone r := String.leb (ik_expires r) cutoff in
  (Ok (Z.of_nat (length (List.filter gone (tb_idem d)))),
   with_idem (List.filter (λ r, negb (gone r)) (tb_idem d)) d).
Definition PruneExpiredIdempotency (now : Time) : TSQL Z :=
  ctx_err "PruneExpiredIdempotency: " (stmt (delete_expired (fmt_millis (t_ns now)))).
