(* ===== verification/Accounts.v ===== *)
(** * [store/accounts.go], [store/users.go], [store/seed.go]: users and
    their accounts

    The users rows every foreign key points at, the accounts bound to them,
    the legacy accounts nobody owns yet and the two ways of claiming them. *)

From S2P Require Import Prelude GoTime GoFormat Millis Types Status Slots Sha256 Drop Json Hash Codec Sql Tenant Text.

Record AccountRow := mkAccountRow {
  a_ID : string;
  a_UserID : string;
  a_ResyEmail : string;
  a_DisplayName : string;
  a_CreatedAt : Time;
  a_DisabledAt : option Time
}.

(** ** Reading accounts *)

Definition account_of (r : AccountRec) : AccountRow :=
  mkAccountRow (ac_id r) (null_string (ac_user r)) (ac_email r) (ac_name r) (of_milli (ac_created r))
    (of_milli <$> ac_disabled r).
Definition scanAccountRow (row : option AccountRec) : res AccountRow :=
  match row with
  | None => Err (wrap "account: " Store.ErrNotFound)
  | Some r => Ok (account_of r)
  end.
(** [user_id = ?] is false of NULL. *)
Definition bound_to (u : string) (r : AccountRec) : bool := bool_decide (ac_user r = Some u).
Definition is_account (u email : string) (r : AccountRec) : bool :=
  bound_to u r && str_eqb (ac_email r) email.
(** [ORDER BY created_at, id]. *)
Definition first_created (a b : AccountRec) : Prop :=
  ac_created a < ac_created b ∨ (ac_created a = ac_created b ∧ String.le (ac_id a) (ac_id b)).
#[export] Instance first_created_dec : RelDecision first_created.
Proof. intros a b. unfold first_created. apply _. Defined.
Definition ListAccountsForUser (u : string) : TSQL (list AccountRow) :=
  if is_empty u then sql_of (Err (ENew "ListAccountsForUser: userID is required"))
  else
    rows ← ctx_err "ListAccountsForUser: "
             (query (λ d, Ok (merge_sort first_created (List.filter (bound_to u) (tb_accounts d)))));
    mret (map account_of rows).
Definition GetAccountByEmail (u email : string) : TSQL AccountRow :=
  if is_empty u || is_empty email
  then sql_of (Err (ENew "GetAccountByEmail: userID and email are required"))
  else
    row ← ctx_err "scan account: " (query (λ d, Ok (find (is_account u email) (tb_accounts d))));
    sql_of (scanAccountRow row).

(** ** Binding *)

Definition set_owner (u : string) (r : AccountRec) : AccountRec :=
  mkAccountRec (ac_id r) (Some u) (ac_email r) (ac_name r) (ac_created r) (ac_disabled r).
(** The rows of an [UPDATE accounts SET user_id = ? WHERE ...], checked
    against UNIQUE (user_id, resy_email) and the foreign key. *)
Definition unique_owner (l : list AccountRec) : bool :=
  bool_decide (NoDup (omap (λ r, (λ u, (u, ac_email r)) <$> ac_user r) l)).
Definition claim (u : string) (hit : AccountRec → bool) (d : TenantDB) : res Z * TenantDB :=
  let n := Z.of_nat (length (List.filter hit (tb_accounts d))) in
  let l := map (λ r, if hit r then set_owner u r else r) (tb_accounts d) in
  if n =? 0 then (Ok 0, d)
  else if negb (unique_owner l) then (Err (constraint "UNIQUE: accounts.user_id, accounts.resy_email"), d)
  else if negb (has_user u d) then (Err (constraint "FOREIGN KEY"), d)
  else (Ok n, with_accounts l d).
Definition unowned (r : AccountRec) : bool := bool_decide (ac_user r = None).
Definition BindLegacyAccountToUser (u email : string) : TSQL string :=
  if is_empty u || is_empty email
  then sql_of (Err (ENew "BindLegacyAccountToUser: userID and email are required"))
  else
    in_tx "BindLegacyAccountToUser: begin: " "BindLegacyAccountToUser: commit: "
      (existing ← ctx_err "BindLegacyAccountToUser: lookup bound: "
                    (query (λ d, Ok (find (is_account u email) (tb_accounts d))));
       match existing with
       | Some r => mret (ac_id r)
       | None =>
           n ← ctx_err "BindLegacyAccountToUser: claim: "
                 (stmt (claim u (λ r, unowned r && str_eqb (ac_email r) email)));
           if n =? 0 then sql_of (Err (wrap ("account for " +:+ email +:+ ": ") Store.ErrNotFound))
           else
             bound ← ctx_err "BindLegacyAccountToUser: lookup claimed: "
                       (query (λ d, match find (is_account u email) (tb_accounts d) with
                                    | Some r => Ok (ac_id r)
                                    | None => Err (ENew "sql: no rows in result set")
                                    end));
             mret bound
       end).

(** ** [users.go] *)

Record UserRow := mkUserRow {
  u_ID : string;
  u_Email : string;
  u_Role : string;
  u_CreatedAt : Time;
  u_InvitedBy : option string;
  u_DisabledAt : option Time
}.
(** Milliseconds, or one of the two text layouts; empty is the zero time. *)
Definition parseUserTimestamp (s : string) : res Time :=
  if is_empty s then Ok zero_time
  else
    match parse_int64 s with
    | Some ms => Ok (of_milli ms)
    | None =>
        match parse_millis s with
        | Some t => Ok t
        | None =>
            match parse_rfc3339nano s with
            | Some t => Ok t
            | None => Err (ENew ("unrecognized timestamp " +:+ fmt_q s))
            end
        end
    end.
Definition in_user {A} (what id : string) (m : res A) : res A :=
  match m with
  | Ok a => Ok a
  | Err e => Err (wrap ("ListUsers: parse " +:+ what +:+ " for " +:+ id +:+ ": ") e)
  end.
(** Scanned into a string, as every column of this query is. *)
Definition stamp_text (c : Stamp) : string := match c with StampInt ms => fmt_d ms | StampText s => s end.
Definition user_row (r : UserRec) : res UserRow :=
  ts ← in_user "created_at" (us_id r) (parseUserTimestamp (stamp_text (us_created_at r)));
  dt ← (match us_disabled_at r with
        | Some c => if is_empty (stamp_text c) then Ok None
                    else t ← in_user "disabled_at" (us_id r) (parseUserTimestamp (stamp_text c)); Ok (Some t)
        | None => Ok None
        end);
  Ok (mkUserRow (us_id r) (us_email r) (us_role r) ts
        (match us_invited_by r with Some i => nullable i | None => None end) dt).
(** [ORDER BY created_at, id]: integers before text. *)
Definition stamp_cmp (a b : Stamp) : comparison :=
  match a, b with
  | StampInt x, StampInt y => x ?= y
  | StampInt _, StampText _ => Lt
  | StampText _, StampInt _ => Gt
  | StampText x, StampText y => String.compare x y
  end.
Definition first_user (a b : UserRec) : Prop :=
  match stamp_cmp (us_created_at a) (us_created_at b) with
  | Lt => True
  | Eq => String.le (us_id a) (us_id b)
  | Gt => False
  end.
#[export] Instance first_user_dec : RelDecision first_user.
Proof. intros a b. unfold first_user. destruct (stamp_cmp _ _); apply _. Defined.
Definition ListUsers : TSQL (list UserRow) :=
  rows ← ctx_err "ListUsers: query: " (query (λ d, Ok (merge_sort first_user (tb_users d))));
  sql_of (each user_row rows).

(** ** [seed.go] *)

Definition ErrSeedFailed : error := ESentinel "store: operator seed failed".
(** [fmt.Errorf("%w: <what>: %w", ErrSeedFailed, err)]. *)
Definition seed_failed {A} (what : string) (m : TSQL A) : TSQL A := λ fl n db,
  match m fl n db with
  | (Ok a, n', db') => (Ok a, n', db')
  | (Err e, n', db') =>
      (Err (EWrap (error_String ErrSeedFailed +:+ ": " +:+ what +:+ ": " +:+ error_String e)
              [ErrSeedFailed; e]), n', db')
  end.
Definition seed_error (what : string) : error :=
  EWrap (error_String ErrSeedFailed +:+ ": " +:+ what) [ErrSeedFailed].
Record SeedOpts := mkSeedOpts { so_Email : string; so_PasswordHash : string; so_UserID : string }.

Section Seed.
(** [unicode]'s lower-case table, and SQLite's clock at each statement. *)
Context (unicode_lower : string → string) (sqlite_now : nat → Z).

Definition deriveOperatorID (email : string) : string :=
  "usr_" +:+ hex_encode (take 4 (sum256 (ToLower unicode_lower (TrimSpace email)))).
(** [INSERT OR IGNORE]: the id, the email and the single operator (a row
    nobody invited) are unique. *)
Definition insert_operator (r : UserRec) (d : TenantDB) : res unit * TenantDB :=
  if existsb (λ x, str_eqb (us_id x) (us_id r) || str_eqb (us_email x) (us_email r)
                   || bool_decide (us_invited_by x = None)) (tb_users d)
  then (Ok tt, d) else (Ok tt, with_users (tb_users d ++ [r]) d).
Definition SeedOperator (opts : SeedOpts) : TSQL string :=
  let email := TrimSpace (so_Email opts) in
  if is_empty email then sql_of (Err (seed_error "email is required"))
  else
    let userID := TrimSpace (so_UserID opts) in
    let userID := if is_empty userID then deriveOperatorID email else userID in
    _ ← seed_failed "insert operator"
          (λ fl n, stmt (insert_operator (mkUserRec userID email (so_PasswordHash opts) "admin" None
                      (StampText (fmt_millis (sqlite_now n))) None)) fl n);
    got ← seed_failed "lookup operator"
            (query (λ d, Ok (us_id <$> find (λ r, str_eqb (us_email r) email) (tb_users d))));
    sql_of (match got with
            | Some id => Ok id
            | None => Err (seed_error "operator row missing after insert")
            end).
Definition BackfillOperatorAccounts (operatorID : string) : TSQL Z :=
  if is_empty (TrimSpace operatorID) then sql_of (Err (seed_error "operatorID is required"))
  else seed_failed "update accounts" (stmt (claim operatorID unowned)).
End Seed.
