(* ===== verification/Tokens.v ===== *)
(** * [store/tokens.go], [store/audit.go]: bearer tokens and the audit log

    Token rows keyed by a public id with a unique digest of the secret; and
    one audit row per service call, stamped by SQLite's own clock. *)

From S2P Require Import Prelude GoTime GoFormat Types Status Slots Drop Json Hash Codec Sql Tenant.

(** ** Tokens *)

Record TokenRow := mkTokenRow {
  t_ID : string;
  t_UserID : string;
  t_Hash : list Z;
  t_Scopes : string;
  t_Label : string;
  t_CreatedAt : Time;
  t_LastSeen : option Time;
  t_RevokedAt : option Time
}.
Definition no_hash (h : list Z) : bool := match h with [] => true | _ => false end.
Definition known_scope (s : string) : bool := str_eqb s "user" || str_eqb s "operator".

Definition insert_token (r : TokenRec) (d : TenantDB) : res unit * TenantDB :=
  if existsb (λ x, str_eqb (tk_id x) (tk_id r)) (tb_tokens d)
  then (Err (constraint "UNIQUE: tokens.id"), d)
  else if existsb (λ x, bool_decide (tk_hash x = tk_hash r)) (tb_tokens d)
  then (Err (constraint "UNIQUE: tokens.hash"), d)
  else if negb (has_user (tk_user r) d) then (Err (constraint "FOREIGN KEY"), d)
  else (Ok tt, with_tokens (tb_tokens d ++ [r]) d).
Definition InsertToken (t : TokenRow) : TSQL unit :=
  if is_empty (t_ID t) || is_empty (t_UserID t) || no_hash (t_Hash t) || is_empty (t_Scopes t)
     || is_empty (t_Label t)
  then sql_of (Err (ENew "InsertToken: id, user_id, hash, scopes, and label are required"))
  else if negb (known_scope (t_Scopes t))
  then sql_of (Err (ENew ("InsertToken: scopes must be 'user' or 'operator', got " +:+ fmt_q (t_Scopes t))))
  else if is_zero_time (t_CreatedAt t)
  then sql_of (Err (ENew "InsertToken: createdAt is required (Law 7)"))
  else ctx_err "InsertToken: "
         (stmt (insert_token (mkTokenRec (t_ID t) (t_UserID t) (t_Hash t) (t_Scopes t) (t_Label t)
                                (t_unix (t_CreatedAt t)) None None))).

Definition token_of (r : TokenRec) : TokenRow :=
  mkTokenRow (tk_id r) (tk_user r) (tk_hash r) (tk_scopes r) (tk_label r) (of_unix (tk_created r))
    (of_unix <$> tk_seen r) (of_unix <$> tk_revoked r).
Definition scanTokenRow (row : option TokenRec) : res TokenRow :=
  match row with None => Err Store.ErrNotFound | Some r => Ok (token_of r) end.
Definition live_hash (h : list Z) (r : TokenRec) : bool :=
  bool_decide (tk_hash r = h) && bool_decide (tk_revoked r = None).
Definition FindTokenByHash (h : list Z) : TSQL TokenRow :=
  if no_hash h then sql_of (Err (ENew "FindTokenByHash: hash is required"))
  else
    row ← ctx_err "scanTokenRow: " (query (λ d, Ok (find (live_hash h) (tb_tokens d))));
    sql_of (scanTokenRow row).
(** [ORDER BY created_at, id]. *)
Definition first_issued (a b : TokenRec) : Prop :=
  tk_created a < tk_created b ∨ (tk_created a = tk_created b ∧ String.le (tk_id a) (tk_id b)).
#[export] Instance first_issued_dec : RelDecision first_issued.
Proof. intros a b. unfold first_issued. apply _. Defined.
Definition ListTokensForUser (u : string) : TSQL (list TokenRow) :=
  if is_empty u then sql_of (Err (ENew "ListTokensForUser: userID is required"))
  else
    rows ← ctx_err "ListTokensForUser: "
             (query (λ d, Ok (merge_sort first_issued
                                (List.filter (λ r, str_eqb (tk_user r) u) (tb_tokens d)))));
    mret (map token_of rows).

Definition is_live_token (u id : string) (r : TokenRec) : bool :=
  str_eqb (tk_id r) id && str_eqb (tk_user r) u && bool_decide (tk_revoked r = None).
Definition stamp_revoked (s : Z) (r : TokenRec) : TokenRec :=
  mkTokenRec (tk_id r) (tk_user r) (tk_hash r) (tk_scopes r) (tk_label r) (tk_created r) (tk_seen r) (Some s).
Definition stamp_seen (s : Z) (r : TokenRec) : TokenRec :=
  mkTokenRec (tk_id r) (tk_user r) (tk_hash r) (tk_scopes r) (tk_label r) (tk_created r) (Some s) (tk_revoked r).
Definition update_tokens (hit : TokenRec → bool) (f : TokenRec → TokenRec) (d : TenantDB) : res Z * TenantDB :=
  (Ok (Z.of_nat (length (List.filter hit (tb_tokens d)))),
   with_tokens (map (λ r, if hit r then f r else r) (tb_tokens d)) d).
Definition RevokeToken (u id : string) (now : Time) : TSQL unit :=
  if is_empty u || is_empty id
  then sql_of (Err (ENew "RevokeToken: userID and tokenID are required"))
  else if is_zero_time now then sql_of (Err (ENew "RevokeToken: now is required (Law 7)"))
  else
    affected ← ctx_err "RevokeToken: "
                 (stmt (update_tokens (is_live_token u id) (stamp_revoked (t_unix now))));
    if affected =? 0 then sql_of (Err Store.ErrNotFound) else mret tt.
Definition TouchTokenSeen (h : list Z) (now : Time) : TSQL unit :=
  if no_hash h then sql_of (Err (ENew "TouchTokenSeen: hash is required"))
  else if is_zero_time now then sql_of (Err (ENew "TouchTokenSeen: now is required (Law 7)"))
  else
    _ ← ctx_err "TouchTokenSeen: " (stmt (update_tokens (live_hash h) (stamp_seen (t_unix now))));
    mret tt.

(** ** The audit log *)

Definition ErrAuditWrite : error := ESentinel "store: audit write failed".
Record AuditEventInput := mkAuditEventInput {
  ai_UserID : string;
  ai_TargetUserID : option string;
  ai_Action : string;
  ai_TargetID : string;
  ai_OK : bool;
  ai_ErrorCode : string;
  ai_IP : string;
  ai_UserAgent : string;
  ai_DetailsJSON : string
}.
Record AuditEventRow := mkAuditEventRow {
  ae_ID : Z;
  ae_UserID : string;
  ae_TargetUserID : option string;
  ae_Action : string;
  ae_TargetID : string;
  ae_OK : bool;
  ae_ErrorCode : string;
  ae_IP : string;
  ae_UserAgent : string;
  ae_CreatedAt : Time;
  ae_DetailsJSON : string
}.
Record AuditEventFilter := mkAuditEventFilter {
  af_Action : string;
  af_Since : option Time;
  af_Until : option Time;
  af_Limit : Z
}.

Section Audit.
(** SQLite's clock at each statement, in nanoseconds. *)
Context (sqlite_now : nat → Z).

Definition audit_error (what : string) : error :=
  EWrap (error_String ErrAuditWrite +:+ ": " +:+ what) [ErrAuditWrite].
(** [CAST(strftime('%s', 'now') AS INTEGER) * 1000]. *)
Definition now_seconds_ms (n : nat) : Z := sqlite_now n / second * 1000.
Definition insert_audit (e : AuditEventInput) (created : Z) (d : TenantDB) : res unit * TenantDB :=
  let target := match ai_TargetUserID e with Some t => nullable t | None => None end in
  if negb (has_user (ai_UserID e) d && match target with Some t => has_user t d | None => true end)
  then (Err (constraint "FOREIGN KEY"), d)
  else
    (Ok tt, with_audit (tb_audit d ++
      [mkAuditRec (next_id au_id (tb_audit d)) (ai_UserID e) target (ai_Action e)
         (nullable (ai_TargetID e)) (if ai_OK e then 1 else 0) (nullable (ai_ErrorCode e))
         (nullable (ai_IP e)) (nullable (ai_UserAgent e)) created (nullable (ai_DetailsJSON e))]) d).
Definition WriteAuditEvent (e : AuditEventInput) : TSQL unit :=
  if is_empty (ai_UserID e) then sql_of (Err (audit_error "actor UserID is required"))
  else if is_empty (ai_Action e) then sql_of (Err (audit_error "action is required"))
  else λ fl n db,
    match stmt (insert_audit e (now_seconds_ms n)) fl n db with
    | (Ok a, n', db') => (Ok a, n', db')
    | (Err err, n', db') =>
        (Err (EWrap (error_String ErrAuditWrite +:+ ": " +:+ error_String err) [ErrAuditWrite; err]), n', db')
    end.
End Audit.

Definition audit_matches (u : string) (f : AuditEventFilter) (r : AuditRec) : bool :=
  str_eqb (au_user r) u
  && (is_empty (af_Action f) || str_eqb (au_action r) (af_Action f))
  && match af_Since f with Some t => unix_milli t <=? au_created r | None => true end
  && match af_Until f with Some t => au_created r <=? unix_milli t | None => true end.
(** [ORDER BY created_at DESC, id DESC]. *)
Definition latest_audit (a b : AuditRec) : Prop :=
  au_created b < au_created a ∨ (au_created a = au_created b ∧ au_id b ≤ au_id a).
#[export] Instance latest_audit_dec : RelDecision latest_audit.
Proof. intros a b. unfold latest_audit. apply _. Defined.
Definition audit_of (r : AuditRec) : AuditEventRow :=
  mkAuditEventRow (au_id r) (au_user r) (au_target_user r) (au_action r) (null_string (au_target r))
    (au_ok r =? 1) (null_string (au_code r)) (null_string (au_ip r)) (null_string (au_agent r))
    (of_milli (au_created r)) (null_string (au_details r)).
Definition ListAuditEvents (u : string) (f : AuditEventFilter) : TSQL (list AuditEventRow) :=
  rows ← ctx_err "ListAuditEvents: "
           (query (λ d, Ok (limited (af_Limit f)
              (merge_sort latest_audit (List.filter (audit_matches u f) (tb_audit d))))));
  mret (map audit_of rows).
