(* ===== verification/IdempotencyProofs.v ===== *)
(** * Replays find the outcome that was recorded

    What a lookup answers after a recorded outcome, for the same payload,
    for another payload under the same key, and for any other key; pruning
    removes exactly the rows a lookup already calls expired. *)

From S2P Require Import Prelude GoTime GoFormat Millis Types Status Slots Sha256 Drop Json Hash Codec Sql Tenant.
From S2P Require Import Idempotency QuestsProofs.

(** ** The table *)

Definition row_times_ok (r : IdemRec) : Prop :=
  ∃ c e, ik_created r = fmt_millis c ∧ ik_expires r = fmt_millis e ∧ four_digit_year c ∧ four_digit_year e.
Record idem_wf (d : TenantDB) : Prop := {
  iw_keys : NoDup (map ik_key (tb_idem d));
  iw_times : Forall row_times_ok (tb_idem d)
}.
(** No row of the table has this call's digest for another call's inputs. *)
Definition key_is_ours (u scope key payload : string) (d : TenantDB) : Prop :=
  ∀ r, r ∈ tb_idem d → ik_key r = HashIdempotencyKey u scope key payload →
    ik_user r = u ∧ ik_scope r = scope ∧ ik_plain r = HashIdempotencyPlain u scope key.

(** The instant a row stops being authoritative. *)
Definition expiry (now : Time) (ttl : Z) : Time := utc (cut_millis (t_ns now + ttl)).
Lemma parse_expires_fmt ns : four_digit_year ns → parse_expires (fmt_millis ns) = Ok (utc (cut_millis ns)).
Proof. intros H. unfold parse_expires. by rewrite parse_fmt_millis. Qed.
Lemma scan_row_ok u scope key payload target err ttl now now' :
  four_digit_year (t_ns now + ttl) →
  ∀ r, ik_expires r = ik_expires (idem_row u scope key payload target err ttl now) →
  ik_target r = ik_target (idem_row u scope key payload target err ttl now) →
  ik_code r = ik_code (idem_row u scope key payload target err ttl now) →
  ik_err r = ik_err (idem_row u scope key payload target err ttl now) →
  scanIdempotencyRow (Some r) now'
  = Ok (Some (mkIdempotencyLookup false false (negb (time_before now' (expiry now ttl))) target
         (match err with Some _ => IdempotencyError | None => IdempotencyOK end)
         (match err with Some e => error_String e | None => "" end))).
Proof.
  intros Hy r E1 E2 E3 E4. unfold scanIdempotencyRow. rewrite E1, E2, E3, E4. cbn [idem_row ik_expires ik_target ik_code ik_err].
  rewrite parse_expires_fmt by done. cbn [mbind outcome_bind]. rewrite null_string_nullable.
  by destruct err.
Qed.

(** ** After a put *)

Section Put.
Context (u scope key payload target : string) (err : option error) (ttl : Z) (now : Time).
Hypothesis Hargs : u ≠ "" ∧ scope ≠ "" ∧ key ≠ "".
Hypothesis Hy : four_digit_year (t_ns now) ∧ four_digit_year (t_ns now + ttl).

Notation row := (idem_row u scope key payload target err ttl now).
Notation put d := (upsert_idem row d).2.
Definition outcome_of : IdempotencyLookup :=
  mkIdempotencyLookup false false false target
    (match err with Some _ => IdempotencyError | None => IdempotencyOK end)
    (match err with Some e => error_String e | None => "" end).
(** The answer at a later instant. *)
Definition answer_at (now' : Time) (exact : bool) : IdempotencyLookup :=
  mkIdempotencyLookup true exact (negb (time_before now' (expiry now ttl))) target
    (il_ResultCode outcome_of) (il_ResultErr outcome_of).

Lemma args_nonempty : is_empty u || is_empty scope || is_empty key = false.
Proof. destruct Hargs as (H1 & H2 & H3). unfold is_empty. by rewrite !str_eqb_neq. Qed.

Lemma put_cases d :
  has_user u d = true →
  tb_idem (put d) =
    if existsb (λ x, hash_eqb (ik_key x) (ik_key row)) (tb_idem d)
    then map (λ x, if hash_eqb (ik_key x) (ik_key row) then idem_update row x else x) (tb_idem d)
    else tb_idem d ++ [row].
Proof.
  intros Hh. unfold upsert_idem. destruct (existsb _ _); [done|].
  change (ik_user row) with u. by rewrite Hh.
Qed.
Lemma put_find d :
  has_user u d = true → key_is_ours u scope key payload d → idem_wf d →
  ∃ r, find (exact_idem u (HashIdempotencyKey u scope key payload)) (tb_idem (put d)) = Some r ∧
    ik_expires r = ik_expires row ∧ ik_target r = ik_target row ∧ ik_code r = ik_code row ∧ ik_err r = ik_err row.
Proof.
  intros Hh Hk _. rewrite put_cases by done. change (ik_key row) with (HashIdempotencyKey u scope key payload).
  set (h := HashIdempotencyKey u scope key payload) in *.
  destruct (existsb _ _) eqn:E.
  - unfold key_is_ours in Hk. fold h in Hk. revert Hk E. induction (tb_idem d) as [|x l IH]; intros Hk E; [done|].
    cbn [map find existsb] in *. unfold exact_idem, hash_eqb in *. destruct (bool_decide (ik_key x = h)) eqn:Ex.
    + apply bool_decide_eq_true_1 in Ex. destruct (Hk x ltac:(by left) Ex) as (Eu & _).
      cbn [idem_update ik_key ik_user]. rewrite Ex, Eu, bool_decide_eq_true_2, str_eqb_refl by done.
      eexists. split; [reflexivity|]. by split_all.
    + rewrite Ex. cbn [andb] in *. apply IH; [|done]. intros r Hr. apply Hk. by right.
  - rewrite find_app. destruct (find _ (tb_idem d)) as [r|] eqn:Ef.
    + apply find_spec in Ef as [Hin Hr]. exfalso. apply not_true_iff_false in E. apply E, existsb_exists.
      exists r. split; [by apply list_elem_of_In|]. by apply andb_true_iff in Hr as [Hr _].
    + cbn [find]. unfold exact_idem, hash_eqb. cbn [idem_row ik_key ik_user].
      rewrite bool_decide_eq_true_2, str_eqb_refl by done. eexists. by split_all.
Qed.
Lemma put_wf d : idem_wf d → idem_wf (put d).
Proof.
  intros [Hk Ht]. assert (Hrow : row_times_ok row) by (destruct Hy; by eexists _, _).
  unfold upsert_idem. destruct (existsb _ _) eqn:E; [|destruct (has_user _ _); [|done]]; cbn [snd].
  - split; cbn [with_idem tb_idem].
    + rewrite map_map. rewrite (map_ext _ ik_key); [done|]. intros x. by destruct (hash_eqb _ _).
    + apply Forall_forall. intros x (y & -> & Hin)%list_elem_of_fmap.
      pose proof (proj1 (Forall_forall _ _) Ht y Hin) as Hy'. destruct (hash_eqb _ _); [|done].
      destruct Hrow as (c & e & ? & ? & ? & ?). by exists c, e.
  - split; cbn [with_idem tb_idem].
    + rewrite map_app, Permutation_app_comm. cbn. apply NoDup_cons. split; [|done].
      intros (x & Hx & Hin)%list_elem_of_fmap. apply not_true_iff_false in E. apply E, existsb_exists.
      exists x. split; [by apply list_elem_of_In|]. by apply bool_decide_eq_true_2.
    + apply Forall_app. split; [done|]. by repeat constructor.
Qed.

(** The same payload: the recorded outcome, until it expires. *)
Lemma get_same d now' fl n :
  has_user u d = true → key_is_ours u scope key payload d → idem_wf d → fl n = None →
  (GetIdempotencyResult u scope key payload now' fl n (put d)).1.1 = Ok (answer_at now' true).
Proof.
  intros Hh Hk Hwf Hfl. destruct (put_find d Hh Hk Hwf) as (r & Ef & E1 & E2 & E3 & E4).
  unfold GetIdempotencyResult. rewrite args_nonempty. run_sql. rewrite Hfl, Ef. cbv beta iota.
  destruct Hy as [_ Hy2]. rewrite (scan_row_ok u scope key payload target err ttl now now' Hy2 r) by done. done.
Qed.

(** Another payload under the same key, when that use is the latest. *)
Lemma latest_unique l r :
  r ∈ l → (∀ x, x ∈ l → x = r ∨ String.leb (ik_created r) (ik_created x) = false) → latest l = Some r.
Proof.
  induction l as [|x l IH]; [by intros ?%elem_of_nil|]. intros Hin Hx. cbn.
  apply elem_of_cons in Hin as [<-|Hl]; [|].
  2: { rewrite (IH Hl) by (intros y Hyl; apply Hx; by right).
       destruct (Hx x ltac:(by left)) as [->|E]; [|by rewrite E]. by destruct (String.leb _ _). }
  - destruct (latest l) as [y|] eqn:El; [|done].
    assert (Hy' : y ∈ l).
    { clear -El. revert y El. induction l as [|z l IH]; [done|]. cbn. intros y.
      destruct (latest l) as [w|]; [|intros [= ->]; by left].
      destruct (String.leb _ _); intros [= <-]; [by left|right; by apply IH]. }
    destruct (Hx y ltac:(by right)) as [->|E]; [by destruct (String.leb _ _)|].
    destruct (String.leb (ik_created y) (ik_created r)) eqn:E'; [done|].
    unfold String.leb in *. rewrite String.compare_antisym in E. by destruct (String.compare _ _).
Qed.
Lemma put_same_key d :
  has_user u d = true → key_is_ours u scope key payload d → idem_wf d →
  ∃ r, r ∈ List.filter (same_key u scope (HashIdempotencyPlain u scope key)) (tb_idem (put d)) ∧
    ik_created r = ik_created row ∧ ik_expires r = ik_expires row ∧ ik_target r = ik_target row ∧
    ik_code r = ik_code row ∧ ik_err r = ik_err row ∧
    ∀ x, x ∈ List.filter (same_key u scope (HashIdempotencyPlain u scope key)) (tb_idem (put d)) →
      x = r ∨ (x ∈ tb_idem d ∧ ik_key x ≠ HashIdempotencyKey u scope key payload).
Proof.
  intros Hh Hk [Hnd _]. rewrite put_cases by done.
  change (ik_key row) with (HashIdempotencyKey u scope key payload).
  set (h := HashIdempotencyKey u scope key payload) in *. set (pl := HashIdempotencyPlain u scope key).
  assert (Hsk : ∀ x, ik_user x = u → ik_scope x = scope → ik_plain x = pl → same_key u scope pl x = true).
  { intros x E1 E2 E3. unfold same_key, hash_eqb. rewrite E1, E2, E3, !str_eqb_refl. by apply bool_decide_eq_true_2. }
  destruct (existsb _ _) eqn:E.
  - apply existsb_exists in E as (y & Hy'%list_elem_of_In & Ey%bool_decide_eq_true_1).
    destruct (Hk y Hy' Ey) as (Eu & Es & Ep). exists (idem_update row y).
    split; [|split_all; try done].
    + apply list_elem_of_In, filter_In. split; [|by apply Hsk].
      apply list_elem_of_In, list_elem_of_fmap. exists y. split; [|done].
      unfold hash_eqb. by rewrite bool_decide_eq_true_2.
    + intros x Hx. apply list_elem_of_In, filter_In in Hx as [Hx _].
      apply list_elem_of_In, list_elem_of_fmap in Hx as (z & -> & Hz).
      unfold hash_eqb. case_bool_decide as Ez; [|by right]. left. f_equal.
      clear -Hnd Hz Hy' Ez Ey. rewrite <- Ey in Ez. clear Ey.
      induction (tb_idem d) as [|w l IH]; [by apply elem_of_nil in Hz|].
      cbn in Hnd. apply NoDup_cons in Hnd as [Hw Hnd].
      assert (H : ∀ a, a ∈ l → ik_key w ≠ ik_key a) by (intros a Ha Ew; apply Hw; rewrite Ew; apply list_elem_of_fmap; by exists a).
      apply elem_of_cons in Hz as [->|Hz], Hy' as [->|Hy']; [done| | |by apply IH].
      * by apply H in Hy'.
      * by apply H in Hz.
  - exists row. split; [|split_all; try done].
    + apply list_elem_of_In, filter_In. split; [|by apply Hsk]. apply in_app_iff. right. by left.
    + intros x Hx. apply list_elem_of_In, filter_In in Hx as [Hx _].
      apply in_app_iff in Hx as [Hx|[<-|[]]]; [right|by left]. apply list_elem_of_In in Hx. split; [done|].
      intros Ex. apply not_true_iff_false in E. apply E, existsb_exists. exists x.
      split; [by apply list_elem_of_In|]. by apply bool_decide_eq_true_2.
Qed.
Lemma get_conflict payload' d now' fl n :
  has_user u d = true → key_is_ours u scope key payload d → idem_wf d → (∀ k, fl k = None) →
  HashIdempotencyKey u scope key payload' ≠ HashIdempotencyKey u scope key payload →
  find (exact_idem u (HashIdempotencyKey u scope key payload')) (tb_idem d) = None →
  (∀ x c, x ∈ tb_idem d → same_key u scope (HashIdempotencyPlain u scope key) x = true →
     ik_created x = fmt_millis c → four_digit_year c → cut_millis c < cut_millis (t_ns now)) →
  (GetIdempotencyResult u scope key payload' now' fl n (put d)).1.1 = Ok (answer_at now' false).
Proof.
  intros Hh Hk Hwf Hfl Hne Hnone Hfresh.
  destruct (put_same_key d Hh Hk Hwf) as (r & Hin & Ec & E1 & E2 & E3 & E4 & Hothers).
  unfold GetIdempotencyResult. rewrite args_nonempty. run_sql. rewrite !Hfl. cbv beta iota zeta.
  assert (Ef : find (exact_idem u (HashIdempotencyKey u scope key payload')) (tb_idem (put d)) = None).
  { rewrite put_cases by done. destruct (existsb _ _).
    - clear -Hnone Hne. induction (tb_idem d) as [|x l IH]; [done|]. cbn [map find] in *.
      destruct (exact_idem _ _ x) eqn:Ex in Hnone; [done|].
      destruct (hash_eqb (ik_key x) (ik_key row)) eqn:Eh.
      + apply bool_decide_eq_true_1 in Eh. cbn [ik_key idem_row] in Eh. unfold exact_idem, hash_eqb. cbn [idem_update ik_key].
        rewrite Eh, bool_decide_eq_false_2 by done. by apply IH.
      + rewrite Ex. by apply IH.
    - rewrite find_app, Hnone. cbn [find]. unfold exact_idem, hash_eqb. cbn [idem_row ik_key].
      by rewrite bool_decide_eq_false_2. }
  rewrite Ef. change (scanIdempotencyRow None now') with (@Ok error (option IdempotencyLookup) None).
  cbv beta iota. rewrite (latest_unique _ r Hin).
  - destruct Hy as [_ Hy2]. rewrite Hfl; cbv beta iota. rewrite (scan_row_ok u scope key payload target err ttl now now' Hy2 r) by done. done.
  - intros x Hx. destruct (Hothers x Hx) as [|[Hxd _]]; [by left|right].
    destruct Hwf as [_ Ht]. destruct (proj1 (Forall_forall _ _) Ht x Hxd) as (c & e & Exc & _ & Hc & _).
    apply list_elem_of_In, filter_In in Hx as [_ Hx]. specialize (Hfresh x c Hxd Hx Exc Hc).
    rewrite Ec, Exc. cbn [idem_row ik_created]. destruct Hy as [Hy1 _]. rewrite fmt_millis_leb by done.
    apply Z.leb_gt. exact Hfresh.
Qed.
End Put.

(** ** Any other call's answer is untouched *)

Lemma idem_unaffected u scope key payload target err ttl now u' scope' key' payload' now' d fl n :
  key_is_ours u scope key payload d →
  HashIdempotencyKey u' scope' key' payload' ≠ HashIdempotencyKey u scope key payload →
  (u', scope', HashIdempotencyPlain u' scope' key') ≠ (u, scope, HashIdempotencyPlain u scope key) →
  (GetIdempotencyResult u' scope' key' payload' now' fl n
     (upsert_idem (idem_row u scope key payload target err ttl now) d).2).1.1
  = (GetIdempotencyResult u' scope' key' payload' now' fl n d).1.1.
Proof.
  intros Hk Hne Hpl. set (row := idem_row u scope key payload target err ttl now).
  set (h := HashIdempotencyKey u scope key payload) in *.
  set (h' := HashIdempotencyKey u' scope' key' payload') in *.
  set (pl' := HashIdempotencyPlain u' scope' key') in *.
  assert (Hsk : ∀ x, ik_user x = u → ik_scope x = scope → ik_plain x = HashIdempotencyPlain u scope key →
                 same_key u' scope' pl' x = false).
  { intros x E1 E2 E3. destruct (same_key u' scope' pl' x) eqn:E; [|done]. exfalso. apply Hpl.
    unfold same_key in E. rewrite !andb_true_iff, !str_eqb_true in E. destruct E as [[Eu Es] E].
    apply bool_decide_eq_true_1 in E. congruence. }
  assert (Hex : ∀ x, ik_key x = h → exact_idem u' h' x = false).
  { intros x E. unfold exact_idem, hash_eqb. by rewrite E, bool_decide_eq_false_2. }
  assert (H : find (exact_idem u' h') (tb_idem (upsert_idem row d).2) = find (exact_idem u' h') (tb_idem d) ∧
              List.filter (same_key u' scope' pl') (tb_idem (upsert_idem row d).2)
              = List.filter (same_key u' scope' pl') (tb_idem d)).
  { unfold upsert_idem. change (ik_key row) with h. destruct (existsb _ _); [|destruct (has_user _ _); [|done]];
      cbn [snd with_idem tb_idem].
    - revert Hk. unfold key_is_ours. fold h. clear -Hsk Hex.
      induction (tb_idem d) as [|x l IH]; intros Hk; [done|]. cbn [map find List.filter].
      destruct IH as [IH1 IH2]; [intros r Hr; apply Hk; by right|].
      destruct (hash_eqb (ik_key x) h) eqn:Eh; [|by rewrite IH1, IH2].
      apply bool_decide_eq_true_1 in Eh. destruct (Hk x ltac:(by left) Eh) as (E1 & E2 & E3).
      rewrite (Hex x Eh), (Hex (idem_update row x) Eh), (Hsk x E1 E2 E3), (Hsk (idem_update row x) E1 E2 E3).
      done.
    - rewrite find_app, List.filter_app. cbn [find List.filter].
      rewrite (Hex row eq_refl), (Hsk row eq_refl eq_refl eq_refl), app_nil_r. by destruct (find _ _). }
  destruct H as [H1 H2]. unfold GetIdempotencyResult. destruct (_ || _); [done|]. run_sql. fold h' pl'.
  rewrite H1. destruct (fl n); [done|]. cbv beta iota.
  destruct (scanIdempotencyRow (find _ _) now') as [[l|]|e]; [done| |done].
  cbv beta iota. rewrite H2. destruct (fl (S n)); [done|]. cbv beta iota.
  by destruct (scanIdempotencyRow (latest _) now') as [[l|]|e].
Qed.

Lemma put_state u scope key payload target err ttl now n d :
  u ≠ "" ∧ scope ≠ "" ∧ key ≠ "" →
  (PutIdempotencyResult u scope key payload target err ttl now (λ _, None) n d).2
  = (upsert_idem (idem_row u scope key payload target err ttl now) d).2.
Proof.
  intros Ha. unfold PutIdempotencyResult. rewrite args_nonempty by done. run_sql.
  unfold upsert_idem. destruct (existsb _ _); [done|]. by destruct (has_user _ _).
Qed.

(** Once an outcome is recorded, a call with the same key and payload
    finds it, target and error text included, and finds it expired exactly
    from the recorded instant plus the TTL (cut to the millisecond) on; the
    same key with a payload it was not used with is reported as a mismatch,
    provided this use is the key's latest; and the answer to every other
    user, scope or key is what it was, as long as no two of the inputs
    involved share a SHA-256 digest. *)
Theorem idempotency_replay u scope key payload target err ttl now d now' n :
  u ≠ "" ∧ scope ≠ "" ∧ key ≠ "" → four_digit_year (t_ns now) ∧ four_digit_year (t_ns now + ttl) →
  has_user u d = true → key_is_ours u scope key payload d → idem_wf d →
  let d' := (PutIdempotencyResult u scope key payload target err ttl now (λ _, None) n d).2 in
  let get u scope key payload := (GetIdempotencyResult u scope key payload now' (λ _, None) n d').1.1 in
  idem_wf d' ∧
  get u scope key payload = Ok (answer_at target err ttl now now' true) ∧
  (∀ payload',
     HashIdempotencyKey u scope key payload' ≠ HashIdempotencyKey u scope key payload →
     find (exact_idem u (HashIdempotencyKey u scope key payload')) (tb_idem d) = None →
     (∀ x c, x ∈ tb_idem d → same_key u scope (HashIdempotencyPlain u scope key) x = true →
        ik_created x = fmt_millis c → four_digit_year c → cut_millis c < cut_millis (t_ns now)) →
     get u scope key payload' = Ok (answer_at target err ttl now now' false)) ∧
  (∀ u' scope' key' payload',
     HashIdempotencyKey u' scope' key' payload' ≠ HashIdempotencyKey u scope key payload →
     (u', scope', HashIdempotencyPlain u' scope' key') ≠ (u, scope, HashIdempotencyPlain u scope key) →
     get u' scope' key' payload'
     = (GetIdempotencyResult u' scope' key' payload' now' (λ _, None) n d).1.1).
Proof.
  intros Ha Hy Hh Hk Hwf d' get.
  pose proof (put_state u scope key payload target err ttl now n d Ha) as Ed. fold d' in Ed.
  subst get. cbv beta. rewrite Ed. clear Ed d'.
  split; [by apply put_wf|]. split; [by apply get_same|]. split.
  - intros payload' H1 H2 H3. by apply get_conflict.
  - intros. by apply idem_unaffected.
Qed.

(** Pruning removes exactly the rows a lookup at that instant reports
    as expired, so it changes no answer but "expired" to "not found". *)
Theorem prune_expired now d n :
  idem_wf d → four_digit_year (t_ns now) →
  let '(r, _, d') := PruneExpiredIdempotency now (λ _, None) n d in
  (∀ x, x ∈ tb_idem d' ↔ x ∈ tb_idem d ∧
     ∃ l, scanIdempotencyRow (Some x) now = Ok (Some l) ∧ il_Expired l = false) ∧
  r = Ok (Z.of_nat (length (tb_idem d)) - Z.of_nat (length (tb_idem d'))) ∧ idem_wf d'.
Proof.
  intros [Hk Ht] Hy. unfold PruneExpiredIdempotency. run_sql. unfold delete_expired. cbn [with_idem tb_idem].
  set (gone := λ r, String.leb (ik_expires r) (fmt_millis (t_ns now))).
  assert (Hlen : ∀ l : list IdemRec, Z.of_nat (length (List.filter gone l))
            = Z.of_nat (length l) - Z.of_nat (length (List.filter (λ r, negb (gone r)) l))).
  { induction l as [|x l IH]; [done|]. cbn. destruct (gone x); cbn [negb length]; lia. }
  assert (Hsub : List.filter (λ r, negb (gone r)) (tb_idem d) `sublist_of` tb_idem d).
  { induction (tb_idem d) as [|x l IH]; [constructor|]. cbn.
    inversion Ht; subst. inversion Hk; subst. destruct (negb (gone x)); constructor; by apply IH. }
  split; [|split; [by rewrite Hlen|]].
  - intros x. rewrite !list_elem_of_In, filter_In.
    split; intros [Hin Hx]; (split; [done|]); apply list_elem_of_In in Hin;
      destruct (proj1 (Forall_forall _ _) Ht x Hin) as (c & e & _ & Ee & _ & He);
      unfold scanIdempotencyRow, gone in *; rewrite Ee, parse_expires_fmt in * by done.
    + cbn. eexists. split; [done|]. cbn. apply negb_true_iff in Hx. rewrite fmt_millis_leb in Hx by done.
      zb. apply negb_false_iff. unfold time_before, utc. cbn [t_ns]. apply Z.ltb_lt.
      unfold cut_millis, millisecond in *. Z.div_mod_to_equations; lia.
    + destruct Hx as (l & [= <-] & Hx). cbn in Hx. apply negb_false_iff in Hx.
      unfold time_before, utc in Hx. cbn [t_ns] in Hx. zb. apply negb_true_iff. rewrite fmt_millis_leb by done.
      apply Z.leb_gt. unfold cut_millis, millisecond in *. Z.div_mod_to_equations; lia.
  - split; cbn [with_idem tb_idem].
    + eapply sublist_NoDup; [exact Hk|]. by apply (fmap_sublist ik_key).
    + apply Forall_forall. intros x Hx%list_elem_of_In. apply filter_In in Hx as [Hx%list_elem_of_In _].
      by apply (proj1 (Forall_forall _ _) Ht).
Qed.

(** ** Samples *)

Definition t0 : Time := go_date 2026 5 1 9 0 0 0 UTC.
Definition day_ttl : Z := 24 * hour.
Definition recorded : TenantDB :=
  (PutIdempotencyResult "usr_1" "create_quest" "k1" "p1" "q_1" None day_ttl t0 (λ _, None) 0%nat two_tenants).2.
Lemma two_tenants_idem : idem_wf two_tenants.
Proof. split; constructor. Qed.
Lemma t0_years : four_digit_year (t_ns t0) ∧ four_digit_year (t_ns t0 + day_ttl).
Proof. split; vm_compute; split; congruence. Qed.
Lemma idempotency_replay_witness :
  (GetIdempotencyResult "usr_1" "create_quest" "k1" "p1" (time_add t0 hour) (λ _, None) 0%nat recorded).1.1
  = Ok (answer_at "q_1" None day_ttl t0 (time_add t0 hour) true) ∧
  il_Expired (answer_at "q_1" None day_ttl t0 (time_add t0 hour) true) = false.
Proof.
  split; [|vm_compute; reflexivity].
  assert (Hk : key_is_ours "usr_1" "create_quest" "k1" "p1" two_tenants)
    by (intros r Hr; destruct (not_elem_of_nil r Hr)).
  pose proof (idempotency_replay "usr_1" "create_quest" "k1" "p1" "q_1" None day_ttl t0 two_tenants
           (time_add t0 hour) 0%nat ltac:(by split_all) t0_years eq_refl Hk two_tenants_idem) as H.
  cbv zeta in H. destruct H as (_ & H & _). exact H.
Defined.
Lemma recorded_wf : idem_wf recorded.
Proof.
  unfold recorded. rewrite put_state by by split_all. apply put_wf; [exact t0_years|exact two_tenants_idem].
Qed.
Lemma prune_expired_witness : tb_idem (PruneExpiredIdempotency (time_add t0 day_ttl) (λ _, None) 0%nat recorded).2 = [].
Proof.
  pose proof (prune_expired (time_add t0 day_ttl) recorded 0%nat recorded_wf ltac:(vm_compute; split; congruence)) as H.
  destruct (PruneExpiredIdempotency _ _ _ _) as [[r k] d'] eqn:E. destruct H as (H & _ & _). cbn [snd].
  destruct (tb_idem d') as [|x l] eqn:El; [done|]. exfalso.
  destruct (proj1 (H x) ltac:(by left)) as (Hin & l' & Hs & Hx). clear -Hin Hs Hx.
  unfold recorded in Hin. rewrite put_state in Hin by by split_all. cbn [upsert_idem two_tenants] in Hin.
  apply list_elem_of_singleton in Hin as ->. revert Hs. vm_compute. intros [= <-]. discriminate Hx.
Defined.

(** The exact-payload row is looked up before the key's other uses and its
    expiry does not matter there: a key whose first use has expired, and
    that is live again with another payload, is answered "expired" instead
    of "mismatch" when it comes back with the first payload. *)
Definition reused : TenantDB :=
  (PutIdempotencyResult "usr_1" "create_quest" "k1" "p2" "q_2" None day_ttl (time_add t0 (30 * hour))
     (λ _, None) 0%nat recorded).2.
Lemma expired_row_hides_conflict :
  let get p := (GetIdempotencyResult "usr_1" "create_quest" "k1" p (time_add t0 (31 * hour))
                  (λ _, None) 0%nat reused).1.1 in
  (il_Expired <$> get "p1") = Ok true ∧
  (il_PayloadMatch <$> get "p3") = Ok false ∧ (il_Expired <$> get "p3") = Ok false.
Proof. vm_compute. split_all; reflexivity. Qed.
(** Joined with colons, different inputs can have the same digest. *)
Lemma colon_collision :
  HashIdempotencyKey "usr:create_quest:x" "create_quest" "k" "p"
  = HashIdempotencyKey "usr" "create_quest" "x:create_quest:k" "p".
Proof. unfold HashIdempotencyKey. apply (f_equal sum256). reflexivity. Qed.
