(* ===== verification/Isolation.v ===== *)
(** * No user sees or touches another user's rows

    Every store function a service call can reach, as one operation with
    the user it is called for: its writes leave every other user's part of
    the database as it was, and its answer depends on that user's own rows
    alone. *)

From S2P Require Import Prelude GoTime GoFormat Millis Types Status Slots Sha256 Drop Json Hash Codec Sql Tenant.
From S2P Require Import Quests QuestsProofs Idempotency Accounts Tokens.

Section Isolation.
Context (sqlite_now : nat → Z).

Inductive StoreOp :=
| SQuest (op : QuestOp)
| SWriteEvent (u qid : string) (e : Event)
| SListEvents (u qid : string) (limit : Z)
| SListAccounts (u : string)
| SGetAccount (u email : string)
| SBindAccount (u email : string)
| SPutIdem (u scope key payload target : string) (err : option error) (ttl : Z) (now : Time)
| SGetIdem (u scope key payload : string) (now : Time)
| SInsertToken (t : TokenRow)
| SListTokens (u : string)
| SRevokeToken (u id : string) (now : Time)
| SWriteAudit (e : AuditEventInput)
| SListAudit (u : string) (f : AuditEventFilter).
Inductive StoreAnswer :=
| RUnit | RQuest (a : QuestAnswer) | REvents (l : list Event) | RAccounts (l : list AccountRow)
| RAccount (a : AccountRow) | RId (id : string) | RLookup (l : IdempotencyLookup)
| RTokens (l : list TokenRow) | RAudit (l : list AuditEventRow).
Definition run_op (op : StoreOp) : TSQL StoreAnswer :=
  match op with
  | SQuest op => a ← run_quest_op op; mret (RQuest a)
  | SWriteEvent u qid e => _ ← WriteQuestEvent u qid e; mret RUnit
  | SListEvents u qid limit => l ← ListQuestEvents u qid limit; mret (REvents l)
  | SListAccounts u => l ← ListAccountsForUser u; mret (RAccounts l)
  | SGetAccount u email => a ← GetAccountByEmail u email; mret (RAccount a)
  | SBindAccount u email => i ← BindLegacyAccountToUser u email; mret (RId i)
  | SPutIdem u scope key payload target err ttl now =>
      _ ← PutIdempotencyResult u scope key payload target err ttl now; mret RUnit
  | SGetIdem u scope key payload now => l ← GetIdempotencyResult u scope key payload now; mret (RLookup l)
  | SInsertToken t => _ ← InsertToken t; mret RUnit
  | SListTokens u => l ← ListTokensForUser u; mret (RTokens l)
  | SRevokeToken u id now => _ ← RevokeToken u id now; mret RUnit
  | SWriteAudit e => _ ← WriteAuditEvent sqlite_now e; mret RUnit
  | SListAudit u f => l ← ListAuditEvents u f; mret (RAudit l)
  end.
(** The user the operation is called for. *)
Definition op_user (op : StoreOp) : string :=
  match op with
  | SQuest (OpCreate q) => q_UserID q
  | SQuest (OpGet u _) | SQuest (OpUpdate u _ _ _ _) | SQuest (OpList u _)
  | SWriteEvent u _ _ | SListEvents u _ _ | SListAccounts u | SGetAccount u _ | SBindAccount u _
  | SPutIdem u _ _ _ _ _ _ _ | SGetIdem u _ _ _ _ | SListTokens u | SRevokeToken u _ _
  | SListAudit u _ => u
  | SInsertToken t => t_UserID t
  | SWriteAudit e => ai_UserID e
  end.
(** Operations whose answer other users' rows can change: the ones that a
    uniqueness constraint or a foreign key may refuse, and binding, which
    looks for a row nobody owns. *)
Definition own_answer (op : StoreOp) : bool :=
  match op with
  | SQuest (OpCreate _) | SBindAccount _ _ | SPutIdem _ _ _ _ _ _ _ _ | SInsertToken _ | SWriteAudit _ => false
  | _ => true
  end.
(** What such an operation can learn beyond its user's own rows: whether an
    id or a digest is taken, whether the users and accounts it refers to
    exist, and, binding, the accounts of that address that nobody owns. *)
Definition shared (op : StoreOp) (d : TenantDB) : list bool * list AccountRec :=
  match op with
  | SQuest (OpCreate q) =>
      ([existsb (λ x, str_eqb (qr_id x) (q_ID q)) (tb_quests d); has_user (q_UserID q) d; has_account (q_AccountID q) d], [])
  | SBindAccount u email =>
      let hit r := unowned r && str_eqb (ac_email r) email in
      ([has_user u d; unique_owner (map (λ r, if hit r then set_owner u r else r) (tb_accounts d))],
       List.filter hit (tb_accounts d))
  | SPutIdem u scope key payload _ _ _ _ =>
      ([existsb (λ x, hash_eqb (ik_key x) (HashIdempotencyKey u scope key payload)) (tb_idem d); has_user u d], [])
  | SInsertToken t =>
      ([existsb (λ x, str_eqb (tk_id x) (t_ID t)) (tb_tokens d);
        existsb (λ x, bool_decide (tk_hash x = t_Hash t)) (tb_tokens d); has_user (t_UserID t) d], [])
  | SWriteAudit e =>
      ([has_user (ai_UserID e) d;
        match ai_TargetUserID e with Some t => match nullable t with Some t => has_user t d | None => true end | None => true end], [])
  | _ => ([], [])
  end.
(** The digest of an idempotency key is not that of another user's row. *)
Definition no_key_clash (op : StoreOp) (d : TenantDB) : Prop :=
  match op with
  | SPutIdem u scope key payload _ _ _ _ =>
      ∀ r, r ∈ tb_idem d → ik_key r = HashIdempotencyKey u scope key payload → ik_user r = u
  | _ => True
  end.

Definition is_put (op : StoreOp) : bool := match op with SPutIdem _ _ _ _ _ _ _ _ => true | _ => false end.

(** ** Writes *)

Section Writes.
Context (v : string).
Hypothesis Hv : v ≠ "".

Ltac view := split; cbn [snd with_users with_accounts with_tokens with_quests with_events with_idem with_audit
  tb_users tb_accounts tb_tokens tb_quests tb_events tb_idem tb_audit]; try done.

Lemma sees_quests_write d l : own qr_user v l = own qr_user v (tb_quests d) → sees v d (with_quests l d).
Proof. intros H. by view. Qed.
Lemma create_sees q d : q_UserID q ≠ v → sees v d (insert_quest (quest_rec q) d).2.
Proof.
  intros Hn. unfold insert_quest. destruct (existsb _ _); [done|]. destruct (negb _); [done|].
  view. by rewrite own_other.
Qed.
Lemma update_sees u id st upd comp d : u ≠ v → sees v d (update_quest u id st upd comp d).2.
Proof.
  intros Hn. unfold update_quest. cbn [snd]. view. symmetry. apply own_map; intros x _.
  - by destruct (is_quest u id x).
  - intros Hx. destruct (is_quest u id x) eqn:E; [|done]. apply is_quest_own in E. congruence.
Qed.
Lemma event_sees u qid ty at_ f d : u ≠ v → sees v d (insert_quest_event u qid ty at_ f d).2.
Proof.
  intros Hn. unfold insert_quest_event. destruct (existsb _ _); [|done]. view. by rewrite own_other.
Qed.
Lemma claim_sees u p d : u ≠ v → sees v d (claim u (λ r, unowned r && p r) d).2.
Proof.
  intros Hn. unfold claim. destruct (_ =? 0); [done|]. destruct (negb _); [done|]. destruct (negb _); [done|].
  view. induction (tb_accounts d) as [|r l IH]; [done|]. unfold own in *. cbn [map List.filter].
  destruct (unowned r && p r) eqn:E.
  - apply andb_true_iff in E as [E%bool_decide_eq_true_1 _].
    assert (E1 : account_user r = "") by (unfold account_user; by rewrite E).
    rewrite E1, (str_eqb_neq (account_user (set_owner u r)) v), str_eqb_neq by congruence || done. exact IH.
  - destruct (str_eqb _ v); [|exact IH]. by f_equal.
Qed.
Lemma idem_sees u scope key payload target err ttl now d :
  u ≠ v → (∀ r, r ∈ tb_idem d → ik_key r = HashIdempotencyKey u scope key payload → ik_user r = u) →
  sees v d (upsert_idem (idem_row u scope key payload target err ttl now) d).2.
Proof.
  intros Hn Hc. unfold upsert_idem. destruct (existsb _ _).
  - view. symmetry. apply own_map; intros x Hx.
    + by destruct (hash_eqb _ _).
    + intros Hu. unfold hash_eqb. case_bool_decide as E; [|done]. apply Hc in E; [|done]. congruence.
  - destruct (has_user _ _); [|done]. view. by rewrite own_other.
Qed.
Lemma insert_token_sees r d : tk_user r ≠ v → sees v d (insert_token r d).2.
Proof.
  intros Hn. unfold insert_token. repeat (destruct (existsb _ _); [done|]). destruct (negb _); [done|].
  view. by rewrite own_other.
Qed.
Lemma revoke_sees u id s d : u ≠ v → sees v d (update_tokens (is_live_token u id) (stamp_revoked s) d).2.
Proof.
  intros Hn. unfold update_tokens. cbn [snd]. view. symmetry. apply own_map; intros x _.
  - by destruct (is_live_token u id x).
  - intros Hx. destruct (is_live_token u id x) eqn:E; [|done].
    apply andb_true_iff in E as [[_ E%str_eqb_true]%andb_true_iff _]. congruence.
Qed.
Lemma audit_sees e t d : ai_UserID e ≠ v → sees v d (insert_audit e t d).2.
Proof. intros Hn. unfold insert_audit. destruct (negb _); [done|]. view. by rewrite own_other. Qed.

(** One step: reads change nothing, a write is one of the above. *)
Ltac quiet_step :=
  first [ by apply moves_query | by apply moves_of | by apply moves_ret
        | apply moves_ctx | apply moves_tx; [reflexivity|]
        | apply moves_bind; [by intros ? ? ? -> | |intros ?]
        | apply moves_stmt; [reflexivity|intros ? ? _]
        | case_goal ].
Lemma op_quiet op :
  (∀ u sc k p tg er ttl now, op ≠ SPutIdem u sc k p tg er ttl now) → op_user op ≠ v →
  moves (sees v) (run_op op).
Proof.
  intros Hc Hn. destruct op as [[q|u id|u id st c t|u f]|u qid e|u qid l|u|u em|u em|u sc k p tg er ttl now
    |u sc k p now|t|u|u id now|e|u f]; cbn [run_op run_quest_op op_user] in *; try by eapply Hc in Hn.
  - unfold CreateQuest. repeat quiet_step. by apply create_sees.
  - unfold GetQuest. repeat quiet_step.
  - unfold UpdateQuestStatus. repeat quiet_step. by apply update_sees.
  - unfold ListQuests. repeat quiet_step.
  - unfold WriteQuestEvent. repeat quiet_step. by apply event_sees.
  - unfold ListQuestEvents. repeat quiet_step.
  - unfold ListAccountsForUser. repeat quiet_step.
  - unfold GetAccountByEmail. repeat quiet_step.
  - unfold BindLegacyAccountToUser. repeat quiet_step. by apply claim_sees.
  - exfalso. by eapply Hc.
  - unfold GetIdempotencyResult. repeat quiet_step.
  - unfold InsertToken. repeat quiet_step. by apply insert_token_sees.
  - unfold ListTokensForUser. repeat quiet_step.
  - unfold RevokeToken. repeat quiet_step. by apply revoke_sees.
  - apply moves_bind; [by intros ? ? ? -> | |intros; by apply moves_ret].
    intros fl n d. unfold WriteAuditEvent. do 2 (destruct (is_empty _); [done|]).
    unfold stmt. destruct (fl n); [done|].
    pose proof (audit_sees e (now_seconds_ms sqlite_now n) d Hn) as H.
    by destruct (insert_audit e _ d) as [[?|?] d'].
  - unfold ListAuditEvents. repeat quiet_step.
Qed.
Lemma put_quiet u sc k p tg er ttl now fl n d :
  u ≠ v → no_key_clash (SPutIdem u sc k p tg er ttl now) d →
  sees v d (run_op (SPutIdem u sc k p tg er ttl now) fl n d).2.
Proof.
  intros Hn Hc. cbn [run_op]. unfold PutIdempotencyResult. run_sql. destruct (_ || _); [done|].
  destruct (fl n); [done|]. pose proof (idem_sees u sc k p tg er ttl now d Hn Hc) as H.
  by destruct (upsert_idem _ d) as [[?|?] d'].
Qed.
End Writes.

(** ** Reads *)

Section Reads.
Context (u : string).
Hypothesis Hu : u ≠ "".

Lemma find_sees {A} (user : A → string) (p : A → bool) l l' :
  (∀ x, p x = true → user x = u) → own user u l = own user u l' → find p l = find p l'.
Proof. intros Hp H. by rewrite (find_own user u p l Hp), (find_own user u p l' Hp), H. Qed.
Lemma filter_sees {A} (user : A → string) (p : A → bool) l l' :
  (∀ x, p x = true → user x = u) → own user u l = own user u l' → List.filter p l = List.filter p l'.
Proof. intros Hp H. by rewrite (filter_own user u p l Hp), (filter_own user u p l' Hp), H. Qed.
Lemma own_map_sees {A} (user : A → string) (p : A → bool) (f : A → A) l l' :
  (∀ x, user (f x) = user x) → (∀ x, p x = true → user x = u) → own user u l = own user u l' →
  own user u (map (λ x, if p x then f x else x) l) = own user u (map (λ x, if p x then f x else x) l').
Proof.
  intros Hf _. assert (E : ∀ m, own user u (map (λ x, if p x then f x else x) m)
                              = map (λ x, if p x then f x else x) (own user u m)).
  { unfold own. induction m as [|x m IH]; [done|]. cbn.
    assert (Ex : user (if p x then f x else x) = user x) by (by destruct (p x)). rewrite Ex.
    destruct (str_eqb (user x) u); cbn; by rewrite IH. }
  intros H. by rewrite !E, H.
Qed.
Lemma bound_own : ∀ r, bound_to u r = true → account_user r = u.
Proof. intros r H%bool_decide_eq_true_1. unfold account_user. by rewrite H. Qed.

Ltac reads_step :=
  first [ by apply agrees_of | by apply agrees_ret | apply agrees_ctx
        | apply agrees_bind; [|intros ?] | apply agrees_query; intros ? ? [] | case_goal ].
Lemma agrees_answer {A} (R : TenantDB → TenantDB → Prop) (m : TSQL A) fl n d d' :
  agrees R m → R d d' → (m fl n d).1 = (m fl n d').1.
Proof. intros Hm H. by apply Hm. Qed.
Definition is_write_event (op : StoreOp) : bool := match op with SWriteEvent _ _ _ => true | _ => false end.
(** The id a new event gets depends on everybody's events, the answer does
    not. *)
Lemma event_answer op fl n d d' :
  is_write_event op = true → op_user op = u → sees u d d' → (run_op op fl n d).1 = (run_op op fl n d').1.
Proof.
  destruct op as [|v qid e| | | | | | | | | | |]; try done. intros _ Hop H. cbn [op_user run_op] in *. subst v.
  unfold WriteQuestEvent. run_sql. do 2 (destruct (_ : bool); [done|]). destruct (fl n); [done|].
  unfold insert_quest_event.
  rewrite !existsb_find, (find_sees qr_user _ _ _ (is_quest_own u qid) (sees_quests _ _ _ H)).
  by destruct (find _ _).
Qed.
Lemma op_agrees op fl n d d' :
  op_user op = u → own_answer op = true → sees u d d' →
  (run_op op fl n d).1 = (run_op op fl n d').1.
Proof.
  intros Hop Ha Hs. destruct (is_write_event op) eqn:Ew; [by apply event_answer|].
  revert Hs. apply agrees_answer. revert Ew. destruct op as [[q|v id|v id st c t|v f]|v qid e|v qid l|v|v em|v em|v sc k p tg er ttl now
    |v sc k p now|t|v|v id now|e|v f]; try discriminate Ha; cbn [run_op run_quest_op op_user is_write_event] in *; subst v; intros Ew; try done; clear d d'.
  - unfold GetQuest. repeat reads_step. f_equal. by eapply find_sees; [apply is_quest_own|].
  - unfold UpdateQuestStatus. repeat reads_step. apply agrees_stmt. intros d d' []. unfold update_quest.
    cbn [fst snd]. split.
    + do 3 f_equal. by eapply filter_sees; [apply is_quest_own|].
    + split; try done. cbn [with_quests tb_quests]. apply own_map_sees; [done|apply is_quest_own|done].
  - unfold ListQuests. repeat reads_step. f_equal. unfold select_quests. do 2 f_equal.
    eapply filter_sees; [|done]. intros x Hx. unfold quest_matches in Hx. zb. by apply str_eqb_true.
  - unfold ListQuestEvents. repeat reads_step. unfold select_events. do 3 f_equal.
    eapply filter_sees; [|done]. intros x Hx. unfold is_event_of in Hx. zb. by apply str_eqb_true.
  - unfold ListAccountsForUser. repeat reads_step. do 2 f_equal. by eapply filter_sees; [apply bound_own|].
  - unfold GetAccountByEmail. repeat reads_step. f_equal. eapply find_sees; [|done].
    intros x Hx. unfold is_account in Hx. zb. by apply bound_own.
  - unfold GetIdempotencyResult. repeat reads_step; f_equal.
    + eapply find_sees; [|done]. intros x Hx. unfold exact_idem in Hx. zb. by apply str_eqb_true.
    + f_equal. eapply filter_sees; [|done]. intros x Hx. unfold same_key in Hx. zb. by apply str_eqb_true.
  - unfold ListTokensForUser. repeat reads_step. do 2 f_equal. eapply filter_sees; [|done].
    intros x Hx. by apply str_eqb_true.
  - unfold RevokeToken. repeat reads_step. apply agrees_stmt. intros d d' []. unfold update_tokens.
    assert (Hl : ∀ x, is_live_token u id x = true → tk_user x = u)
      by (intros x Hx; unfold is_live_token in Hx; zb; by apply str_eqb_true).
    cbn [fst snd]. split.
    + do 3 f_equal. by eapply filter_sees.
    + split; try done. cbn [with_tokens tb_tokens]. by apply own_map_sees.
  - unfold ListAuditEvents. repeat reads_step. do 3 f_equal.
    eapply filter_sees; [|done]. intros x Hx. unfold audit_matches in Hx. zb. by apply str_eqb_true.
Qed.

(** *** Operations a constraint may refuse *)

Lemma claimed_find email l :
  find (is_account u email) l = None →
  find (is_account u email) (map (λ r, if unowned r && str_eqb (ac_email r) email then set_owner u r else r) l)
  = head (map (set_owner u) (List.filter (λ r, unowned r && str_eqb (ac_email r) email) l)).
Proof.
  induction l as [|r l IH]; [done|]. cbn [find map List.filter]. destruct (is_account u email r) eqn:Er; [done|].
  intros H. destruct (unowned r && str_eqb (ac_email r) email) eqn:Eh; [|by rewrite Er; apply IH].
  apply andb_true_iff in Eh as [_ Ee]. cbn [map head].
  assert (is_account u email (set_owner u r) = true) as ->; [|done].
  unfold is_account, bound_to. cbn. rewrite Ee, andb_true_r. by apply bool_decide_eq_true_2.
Qed.
Lemma bind_agrees email fl n d d' :
  sees u d d' → shared (SBindAccount u email) d = shared (SBindAccount u email) d' →
  (BindLegacyAccountToUser u email fl n d).1 = (BindLegacyAccountToUser u email fl n d').1.
Proof.
  intros Hs [= Hh Hun Hf]. unfold BindLegacyAccountToUser. run_sql. destruct (_ || _); [done|].
  destruct (fl n); [done|]. destruct (fl (S n)); [done|].
  assert (Ha : find (is_account u email) (tb_accounts d) = find (is_account u email) (tb_accounts d')).
  { eapply find_sees; [|apply (sees_accounts _ _ _ Hs)]. intros x Hx. unfold is_account in Hx. zb. by apply bound_own. }
  rewrite <- Ha. destruct (find _ (tb_accounts d)) as [row|] eqn:Er; [by destruct (fl _)|].
  destruct (fl (S (S n))); [done|]. unfold claim. rewrite <- Hf, <- Hun, <- Hh.
  destruct (Z.of_nat _ =? 0) eqn:En; [by cbn|]. destruct (negb (unique_owner _)); [done|]. destruct (negb _); [done|].
  cbv beta iota zeta. rewrite En. destruct (fl (S (S (S n)))); [done|]. cbn [with_accounts tb_accounts].
  rewrite (claimed_find email (tb_accounts d)), (claimed_find email (tb_accounts d')), <- Hf by congruence.
  destruct (head _); [|done]. by destruct (fl _).
Qed.
Ltac test_case :=
  match goal with |- context [if ?b then _ else _] => lazymatch type of b with bool => destruct b end end.
Lemma refused_agrees op fl n d d' :
  op_user op = u → own_answer op = false → sees u d d' → shared op d = shared op d' →
  (run_op op fl n d).1 = (run_op op fl n d').1.
Proof.
  intros Hop Ha Hs Hsh.
  destruct op as [[q|v id|v id st c t|v f]|v qid e|v qid l|v|v em|v em|v sc k p tg er ttl now|v sc k p now|t|v|v id now|e|v f];
    try discriminate Ha; cbn [run_op run_quest_op op_user] in *.
  - injection Hsh as H1 H2 H3. unfold CreateQuest, insert_quest. run_sql. destruct (_ || _); [done|].
    destruct (fl n); [done|]. cbn [quest_rec qr_id qr_user qr_account]. rewrite H1, H2, H3.
    test_case; [done|]. by test_case.
  - subst v. pose proof (bind_agrees em fl n d d' Hs Hsh) as H. unfold mbind, sql_bind.
    destruct (BindLegacyAccountToUser _ _ _ _ d) as [[r i] b], (BindLegacyAccountToUser _ _ _ _ d') as [[r' i'] b'].
    cbn in H. injection H as -> ->. by destruct r'.
  - injection Hsh as H1 H2. unfold PutIdempotencyResult, upsert_idem. run_sql. destruct (_ || _); [done|].
    destruct (fl n); [done|]. cbn [idem_row ik_key ik_user]. rewrite H1, H2. test_case; [done|]. by test_case.
  - injection Hsh as H1 H2 H3. unfold InsertToken, insert_token. run_sql. do 3 (test_case; [done|]).
    destruct (fl n); [done|]. cbn [tk_id tk_hash tk_user]. rewrite H1, H2, H3.
    do 2 (test_case; [done|]). by test_case.
  - injection Hsh as H1 H2. unfold WriteAuditEvent, insert_audit, mbind, sql_bind, stmt, mret, sql_ret.
    do 2 (destruct (is_empty _); [done|]). destruct (fl n); [done|]. rewrite H1.
    assert (E : ∀ x, match match ai_TargetUserID e with Some t => nullable t | None => None end with Some t => has_user t x | None => true end
              = match ai_TargetUserID e with Some t => match nullable t with Some t => has_user t x | None => true end | None => true end)
      by (intros x; by destruct (ai_TargetUserID e)).
    rewrite !E, H2. by destruct (negb _).
Qed.
End Reads.

(** C6. Tenancy, whatever fails.  An operation called for one user leaves
    every row of every other user as it was; one that records an idempotency
    result does so provided its digest is not that of another user's row,
    which the colons in the digested text do not rule out
    ([colon_collision]).  Its answer is the same in any two databases that
    hold the same rows of that user and agree on what [shared] says.  For
    reads, updates and revocations that is nothing, so nothing of the others
    shows; an insert that a constraint may refuse can tell whether an id or a
    digest is taken and whether what it refers to exists, and binding also
    sees the accounts of the address that nobody owns. *)
Theorem tenant_isolation op fl n d :
  op_user op ≠ "" →
  (∀ v, v ≠ "" → v ≠ op_user op → no_key_clash op d → sees v d (run_op op fl n d).2) ∧
  (∀ d', sees (op_user op) d d' → shared op d = shared op d' → (run_op op fl n d).1 = (run_op op fl n d').1) ∧
  (own_answer op = true → ∀ d', shared op d = shared op d').
Proof.
  intros Hu. split; [|split].
  - intros v Hv Hn Hc. destruct (is_put op) eqn:Ep.
    + destruct op; try discriminate Ep. by apply put_quiet.
    + apply op_quiet; [done|intros ? ? ? ? ? ? ? ? ->; discriminate Ep|done].
  - intros d' Hs Hsh. destruct (own_answer op) eqn:Ha; [by eapply op_agrees|by eapply refused_agrees].
  - intros Ha d'. by destruct op as [[]| | | | | | | | | | | |].
Qed.
End Isolation.

(** Cancelling, creating with an id that another user's quest has, and
    recording an outcome. *)
Definition bobs_quest : QuestRow := sample_quest "usr_2" "acct_2" "q_1" drop_ny.
Definition bobs_outcome : StoreOp := SPutIdem "usr_2" "create_quest" "k1" "p" "q_9" None hour drop_ny.
Lemma tenant_isolation_witness :
  sees "usr_2" with_one_quest
    (run_op (λ _, 0) (SQuest (OpUpdate "usr_1" "q_1" StatusCanceled None drop_ny)) (λ _, None) 0%nat
       with_one_quest).2 ∧
  (run_op (λ _, 0) (SQuest (OpCreate bobs_quest)) (λ _, None) 0%nat with_one_quest).1
  = (run_op (λ _, 0) (SQuest (OpCreate bobs_quest)) (λ _, None) 0%nat
       (run_quest_op (OpUpdate "usr_1" "q_1" StatusCanceled None drop_ny) (λ _, None) 0%nat with_one_quest).2).1 ∧
  sees "usr_1" with_one_quest (run_op (λ _, 0) bobs_outcome (λ _, None) 0%nat with_one_quest).2.
Proof.
  split; [|split].
  - destruct (tenant_isolation (λ _, 0) (SQuest (OpUpdate "usr_1" "q_1" StatusCanceled None drop_ny))
      (λ _, None) 0%nat with_one_quest) as [H _]; [done|]. by apply H.
  - destruct (tenant_isolation (λ _, 0) (SQuest (OpCreate bobs_quest)) (λ _, None) 0%nat with_one_quest)
      as (_ & H & _); [done|].
    apply H; [by constructor; vm_compute|by vm_compute].
  - destruct (tenant_isolation (λ _, 0) bobs_outcome (λ _, None) 0%nat with_one_quest) as [H _]; [done|].
    apply H; [done|done|]. intros r Hr. destruct (not_elem_of_nil r Hr).
Defined.
