(* ===== verification/Sessions.v ===== *)
(** * [store/sqlite.go]: provider sessions

    The [sessions] table next to the multi-user tables, whose accounts it
    refers to: [UpsertSession], [GetSession], [DeleteSession].  A join that
    matches several rows yields one of them, SQLite's choice. *)

From S2P Require Import Prelude GoTime GoFormat Types Status Slots Drop Json Hash Codec Sql Sqlite SqliteStore Tenant Text Accounts.

Record SessionRec := mkSessionRec {
  sn_account : string;
  sn_provider : string;
  sn_jwt : string;
  sn_exp : string;
  sn_created : string;
  sn_updated : string
}.
Record SessionDB := mkSessionDB { sd_tenant : TenantDB; sd_sessions : list SessionRec }.
Notation SSQL := (SqlOf SessionDB).
Record SessionRow := mkSessionRow {
  ses_UserID : string;
  ses_Provider : string;
  ses_JWT : string;
  ses_ExpiresAt : Time;
  ses_CreatedAt : Time;
  ses_UpdatedAt : Time
}.
(** A function of the multi-user tables, run on the whole database. *)
Definition on_tenant {A} (m : TSQL A) : SSQL A := λ fl n d,
  let '(r, n', t) := m fl n (sd_tenant d) in (r, n', mkSessionDB t (sd_sessions d)).

(** The row a query returns of those that match. *)
Class RowChoice := {
  choose : ∀ {A}, list A → option A;
  choose_in : ∀ {A} (l : list A) a, choose l = Some a → a ∈ l;
  choose_some : ∀ {A} (l : list A), l ≠ [] → is_Some (choose l)
}.

(** ** Writing *)

Definition legacy_id (email : string) : string := "acct_legacy_" +:+ email.
(** [WHERE user_id IS NULL AND resy_email = ?]. *)
Definition is_legacy (email : string) (a : AccountRec) : bool := unowned a && str_eqb (ac_email a) email.
Definition insert_account (a : AccountRec) (d : SessionDB) : res unit * SessionDB :=
  let t := sd_tenant d in
  if existsb (λ x, str_eqb (ac_id x) (ac_id a)) (tb_accounts t) then (Err (constraint "UNIQUE: accounts.id"), d)
  else (Ok tt, mkSessionDB (with_accounts (tb_accounts t ++ [a]) t) (sd_sessions d)).
Definition same_session (acct provider : string) (r : SessionRec) : bool :=
  str_eqb (sn_account r) acct && str_eqb (sn_provider r) provider.
(** [ON CONFLICT(account_id, provider) DO UPDATE]. *)
Definition put_session (r : SessionRec) (d : SessionDB) : res unit * SessionDB :=
  if negb (existsb (λ a, str_eqb (ac_id a) (sn_account r)) (tb_accounts (sd_tenant d)))
  then (Err (constraint "FOREIGN KEY"), d)
  else
    let hit := same_session (sn_account r) (sn_provider r) in
    (Ok tt,
     mkSessionDB (sd_tenant d)
       (if existsb hit (sd_sessions d)
        then map (λ o, if hit o then mkSessionRec (sn_account o) (sn_provider o) (sn_jwt r) (sn_exp r) (sn_created o) (sn_updated r)
                       else o) (sd_sessions d)
        else sd_sessions d ++ [r])).
Definition legacy_account (s : SessionRow) : AccountRec :=
  mkAccountRec (legacy_id (ses_UserID s)) None (ses_UserID s) "legacy-v1" (unix_milli (ses_CreatedAt s)) None.
Definition session_rec (acct : string) (s : SessionRow) : SessionRec :=
  mkSessionRec acct (ses_Provider s) (ses_JWT s) (formatTime (ses_ExpiresAt s)) (formatTime (ses_CreatedAt s))
    (formatTime (ses_UpdatedAt s)).
Definition UpsertSession (s : SessionRow) : SSQL unit :=
  in_tx "UpsertSession: begin: " "UpsertSession: commit: "
    (found ← ctx_err "UpsertSession: lookup account: "
               (query (λ d, Ok (find (is_legacy (ses_UserID s)) (tb_accounts (sd_tenant d)))));
     acct ← (match found with
             | Some a => mret (ac_id a)
             | None =>
                 _ ← ctx_err "UpsertSession: ensure account: " (stmt (insert_account (legacy_account s)));
                 mret (legacy_id (ses_UserID s))
             end : SSQL string);
     ctx_err "UpsertSession: " (stmt (put_session (session_rec acct s)))).
Definition DeleteSession (user provider : string) : SSQL unit :=
  ctx_err "DeleteSession: " (stmt (λ d,
    (Ok tt, mkSessionDB (sd_tenant d)
              (List.filter (λ r, negb (str_eqb (sn_provider r) provider
                                       && existsb (λ a, str_eqb (ac_id a) (sn_account r) && str_eqb (ac_email a) user)
                                            (tb_accounts (sd_tenant d))))
                 (sd_sessions d))))).

(** ** Reading *)

(** The join: the sessions of the provider with an account of that address. *)
Definition sessions_of (user provider : string) (d : SessionDB) : list SessionRec :=
  List.filter (λ r, str_eqb (sn_provider r) provider
                    && existsb (λ a, str_eqb (ac_id a) (sn_account r) && str_eqb (ac_email a) user)
                         (tb_accounts (sd_tenant d)))
    (sd_sessions d).
Definition in_column {A} (what : string) (m : res A) : res A :=
  match m with Ok a => Ok a | Err e => Err (wrap ("session " +:+ what +:+ ": ") e) end.
Definition session_row (user : string) (r : SessionRec) : res SessionRow :=
  exp ← in_column "exp" (parseTime (sn_exp r));
  created ← in_column "created_at" (parseTime (sn_created r));
  updated ← in_column "updated_at" (parseTime (sn_updated r));
  Ok (mkSessionRow user (sn_provider r) (sn_jwt r) exp created updated).
Definition expired_at (exp now_ : Time) : bool := negb (is_zero_time exp) && negb (time_after exp now_).
Definition GetSession `{RowChoice} (user provider : string) (now_ : Time) : SSQL SessionRow :=
  found ← ctx_err "GetSession: " (query (λ d, Ok (choose (sessions_of user provider d))));
  sql_of (match found with
          | None => Err (wrap ("session " +:+ user +:+ "/" +:+ provider +:+ ": ") Store.ErrNotFound)
          | Some r =>
              s ← session_row user r;
              if expired_at (ses_ExpiresAt s) now_
              then Err (wrap ("session " +:+ user +:+ "/" +:+ provider +:+ " exp " +:+ fmt_rfc3339 (t_ns (ses_ExpiresAt s))
                              +:+ ": ") Store.ErrSessionExpired)
              else Ok s
          end).

(** ** What a write does *)

Definition with_account (a : AccountRec) (d : SessionDB) : SessionDB :=
  mkSessionDB (with_accounts (tb_accounts (sd_tenant d) ++ [a]) (sd_tenant d)) (sd_sessions d).
Definition legacy_of (email : string) (d : SessionDB) : option AccountRec :=
  find (is_legacy email) (tb_accounts (sd_tenant d)).
(** No foreign row holds the id a new account would get. *)
Definition id_free (email : string) (d : SessionDB) : Prop :=
  existsb (λ x, str_eqb (ac_id x) (legacy_id email)) (tb_accounts (sd_tenant d)) = false.
Definition upsertable (s : SessionRow) (d : SessionDB) : Prop :=
  legacy_of (ses_UserID s) d = None → id_free (ses_UserID s) d.
Definition upserted (s : SessionRow) (d : SessionDB) : SessionDB :=
  match legacy_of (ses_UserID s) d with
  | Some a => (put_session (session_rec (ac_id a) s) d).2
  | None => (put_session (session_rec (legacy_id (ses_UserID s)) s) (with_account (legacy_account s) d)).2
  end.
Lemma put_session_Ok r d :
  existsb (λ a, str_eqb (ac_id a) (sn_account r)) (tb_accounts (sd_tenant d)) = true →
  put_session r d = (Ok tt, (put_session r d).2).
Proof. unfold put_session. by intros ->. Qed.
Lemma has_account_found f l a : find f l = Some a → existsb (λ x, str_eqb (ac_id x) (ac_id a)) l = true.
Proof. intros [H _]%find_some. apply existsb_exists. exists a. split; [done|apply str_eqb_refl]. Qed.
Lemma has_account_new a l : existsb (λ x, str_eqb (ac_id x) (ac_id a)) (l ++ [a]) = true.
Proof. rewrite existsb_app. cbn. by rewrite str_eqb_refl, !orb_true_r. Qed.
(** All or nothing, whatever fails; nothing fails but the statements and the
    primary key. *)
Lemma UpsertSession_run s fl n d :
  match UpsertSession s fl n d with
  | (Err _, _, d') => d' = d
  | (Ok _, _, d') => upsertable s d ∧ d' = upserted s d
  end.
Proof.
  unfold UpsertSession, upserted, upsertable, legacy_of. run_sql. destruct (fl n); [done|]. destruct (fl (S n)); [done|].
  destruct (find _ _) as [a|] eqn:Ef.
  - destruct (fl (S (S n))); [done|].
    rewrite (put_session_Ok (session_rec (ac_id a) s) d) by (by eapply has_account_found).
    by destruct (fl (S (S (S n)))).
  - destruct (fl (S (S n))); [done|]. unfold insert_account. cbn [ac_id legacy_account].
    unfold id_free. destruct (existsb _ _); [done|]. destruct (fl (S (S (S n)))); [done|].
    fold (with_account (legacy_account s) d).
    rewrite (put_session_Ok (session_rec (legacy_id (ses_UserID s)) s)) by (apply (has_account_new (legacy_account s))).
    by destruct (fl (S (S (S (S n))))).
Qed.
Lemma UpsertSession_done s fl n d : no_faults fl → upsertable s d → (UpsertSession s fl n d).1.1 = Ok tt.
Proof.
  intros Hf. unfold UpsertSession, upsertable, legacy_of. run_sql. rewrite !Hf.
  destruct (find _ _) as [a|] eqn:Ef; intros Hu; rewrite !Hf.
  - rewrite (put_session_Ok (session_rec (ac_id a) s) d) by (by eapply has_account_found). by rewrite Hf.
  - unfold insert_account. cbn [ac_id legacy_account]. specialize (Hu eq_refl). unfold id_free in Hu. rewrite Hu, !Hf.
    fold (with_account (legacy_account s) d).
    rewrite (put_session_Ok (session_rec (legacy_id (ses_UserID s)) s)) by (apply (has_account_new (legacy_account s))).
    by rewrite Hf.
Qed.

(** ** Reading back *)

Definition session_key (r : SessionRec) : string * string := (sn_account r, sn_provider r).
Record sessions_wf (d : SessionDB) : Prop := {
  one_per_key : NoDup (map session_key (sd_sessions d));
  stamps_parse : Forall (λ r, is_Ok (parseTime (sn_created r)) = true) (sd_sessions d)
}.
Definition account_for (email : string) (d : SessionDB) : string :=
  match legacy_of email d with Some a => ac_id a | None => legacy_id email end.
(** Nobody has claimed the address: every account that has it is the one a
    login writes under. *)
Definition unclaimed (email : string) (d : SessionDB) : Prop :=
  ∀ a, In a (tb_accounts (sd_tenant d)) → ac_email a = email → ac_id a = account_for email d.
Definition read_back (t : Time) : Time := if is_zero_time t then zero_time else utc (t_ns t).
Definition keepable (t : Time) : Prop := is_zero_time t = true ∨ four_digit_year (t_ns t).

Lemma parse_format_time t : keepable t → parseTime (formatTime t) = Ok (read_back t).
Proof.
  unfold parseTime, formatTime, read_back. intros H. destruct (is_zero_time t) eqn:E; [done|].
  destruct H as [H|H]; [congruence|]. rewrite (parse_fmt_rfc3339nano _ H).
  destruct (is_empty _) eqn:Ee; [|done]. unfold is_empty, str_eqb in Ee. apply bool_decide_eq_true_1 in Ee.
  pose proof (parse_fmt_rfc3339nano _ H) as Hp. by rewrite Ee in Hp.
Qed.
Lemma same_session_spec acct p r : same_session acct p r = true ↔ session_key r = (acct, p).
Proof.
  unfold same_session, session_key, str_eqb. rewrite andb_true_iff, !bool_decide_eq_true.
  split; [by intros [-> ->]|by intros [= -> ->]].
Qed.
Lemma filter_none acct p l : (acct, p) ∉ map session_key l → List.filter (same_session acct p) l = [].
Proof.
  induction l as [|x l IH]; [done|]. cbn [map List.filter]. rewrite not_elem_of_cons. intros [Hx Hl].
  destruct (same_session acct p x) eqn:E; [apply same_session_spec in E; congruence|by apply IH].
Qed.
Lemma filter_one acct p l o :
  NoDup (map session_key l) → In o l → same_session acct p o = true → List.filter (same_session acct p) l = [o].
Proof.
  induction l as [|x l IH]; [done|]. cbn [map]. intros [Hx Hl]%NoDup_cons Ho Hs. cbn [List.filter].
  pose proof Hs as Hk. apply same_session_spec in Hk. destruct Ho as [->|Ho].
  - rewrite Hs. f_equal. apply filter_none. by rewrite <- Hk.
  - destruct (same_session acct p x) eqn:E; [|by apply IH]. apply same_session_spec in E. exfalso. apply Hx.
    rewrite E, <- Hk. apply list_elem_of_In, in_map, Ho.
Qed.
(** The row a login leaves: the creation time of the first one stays. *)
Definition kept_row (s : SessionRow) (d : SessionDB) : SessionRec :=
  let new := session_rec (account_for (ses_UserID s) d) s in
  match find (same_session (sn_account new) (sn_provider new)) (sd_sessions d) with
  | Some o => mkSessionRec (sn_account new) (sn_provider new) (sn_jwt new) (sn_exp new) (sn_created o) (sn_updated new)
  | None => new
  end.
Lemma find_existsb {A} (f : A → bool) l : existsb f l = match find f l with Some _ => true | None => false end.
Proof. induction l as [|x l IH]; cbn; [done|]. by destruct (f x). Qed.
(** The accounts after a login. *)
Definition accounts_after (s : SessionRow) (d : SessionDB) : list AccountRec :=
  match legacy_of (ses_UserID s) d with
  | Some _ => tb_accounts (sd_tenant d)
  | None => tb_accounts (sd_tenant d) ++ [legacy_account s]
  end.
Lemma upserted_accounts s d : tb_accounts (sd_tenant (upserted s d)) = accounts_after s d.
Proof.
  unfold upserted, accounts_after. destruct (legacy_of _ _); unfold put_session; by destruct (negb _).
Qed.
Lemma upserted_sessions s d :
  sd_sessions (upserted s d)
  = let new := session_rec (account_for (ses_UserID s) d) s in
    let hit := same_session (sn_account new) (sn_provider new) in
    if existsb hit (sd_sessions d)
    then map (λ o, if hit o then mkSessionRec (sn_account o) (sn_provider o) (sn_jwt new) (sn_exp new) (sn_created o) (sn_updated new)
                   else o) (sd_sessions d)
    else sd_sessions d ++ [new].
Proof.
  unfold upserted, account_for. destruct (legacy_of _ _) as [a|] eqn:E; unfold put_session.
  - unfold legacy_of in E. cbn [sn_account session_rec]. by rewrite (has_account_found _ _ _ E).
  - cbn [sn_account session_rec with_account sd_tenant tb_accounts with_accounts].
    change (legacy_id (ses_UserID s)) with (ac_id (legacy_account s)). by rewrite has_account_new.
Qed.
Lemma kept_alone s d :
  sessions_wf d →
  List.filter (same_session (account_for (ses_UserID s) d) (ses_Provider s)) (sd_sessions (upserted s d)) = [kept_row s d].
Proof.
  intros [Hn _]. rewrite upserted_sessions. unfold kept_row. cbn [sn_account sn_provider session_rec].
  set (acct := account_for (ses_UserID s) d). set (p := ses_Provider s).
  rewrite find_existsb. destruct (find (same_session acct p) (sd_sessions d)) as [o|] eqn:Ef.
  - apply find_some in Ef as [Hin Hs]. pose proof (filter_one acct p _ o Hn Hin Hs) as Hf.
    apply same_session_spec in Hs. injection Hs as <- <-.
    assert (Hm : ∀ (f : SessionRec → SessionRec) l, (∀ x, same_session (sn_account o) (sn_provider o) (f x) = same_session (sn_account o) (sn_provider o) x) →
      List.filter (same_session (sn_account o) (sn_provider o)) (map f l)
      = map f (List.filter (same_session (sn_account o) (sn_provider o)) l)).
    { intros f l Hfx. induction l as [|x l IH]; [done|]. cbn. rewrite Hfx, IH.
      by destruct (same_session (sn_account o) (sn_provider o) x). }
    rewrite Hm, Hf.
    + cbn [map]. destruct (same_session _ _ o) eqn:Eo; [done|]. unfold same_session in Eo. by rewrite !str_eqb_refl in Eo.
    + intros x. by destruct (same_session (sn_account o) (sn_provider o) x) eqn:Ex.
  - rewrite List.filter_app. rewrite filter_none.
    + cbn. unfold same_session. cbn. by rewrite !str_eqb_refl.
    + intros Hin. apply list_elem_of_In, in_map_iff in Hin as (x & Hk & Hx).
      apply same_session_spec in Hk. by rewrite (find_none _ _ Ef x Hx) in Hk.
Qed.
Lemma is_legacy_email e a : is_legacy e a = true → ac_email a = e ∧ ac_user a = None.
Proof. unfold is_legacy, unowned, str_eqb. by intros [H1%bool_decide_eq_true_1 H2%bool_decide_eq_true_1]%andb_true_iff. Qed.
Lemma joined_account s d x :
  unclaimed (ses_UserID s) d →
  existsb (λ a, str_eqb (ac_id a) x && str_eqb (ac_email a) (ses_UserID s)) (accounts_after s d)
  = str_eqb x (account_for (ses_UserID s) d).
Proof.
  intros Hu. apply eq_true_iff_eq. rewrite existsb_exists. unfold str_eqb at 3. rewrite bool_decide_eq_true. split.
  - intros (a & Hin & [Hi He]%andb_true_iff). unfold str_eqb in Hi, He. apply bool_decide_eq_true_1 in Hi as <-, He.
    unfold accounts_after in Hin. pose proof (Hu a) as Ha. unfold account_for in Ha |- *.
    destruct (legacy_of (ses_UserID s) d); [by apply Ha|].
    apply in_app_iff in Hin as [Hin|[<-|[]]]; [by apply Ha|done].
  - intros ->. unfold account_for, accounts_after. destruct (legacy_of _ _) as [a|] eqn:E.
    + unfold legacy_of in E. apply find_some in E as [Hin [He _]%is_legacy_email]. exists a. split; [done|].
      by rewrite He, !str_eqb_refl.
    + exists (legacy_account s). split; [apply in_app_iff; right; by left|]. cbn. by rewrite !str_eqb_refl.
Qed.
Lemma sessions_of_upserted s d :
  sessions_wf d → unclaimed (ses_UserID s) d →
  sessions_of (ses_UserID s) (ses_Provider s) (upserted s d) = [kept_row s d].
Proof.
  intros Hw Hu. rewrite <- (kept_alone s d Hw). unfold sessions_of. rewrite upserted_accounts.
  apply filter_ext. intros r. rewrite (joined_account s d _ Hu). unfold same_session. apply andb_comm.
Qed.
Lemma choose_one `{RowChoice} {A} (a : A) : choose [a] = Some a.
Proof.
  destruct (choose_some [a] ltac:(done)) as [x Hx]. pose proof (choose_in _ _ Hx) as Hi.
  apply list_elem_of_singleton in Hi as ->. done.
Qed.
Definition outlives (s : SessionRow) (now_ : Time) : bool := negb (expired_at (read_back (ses_ExpiresAt s)) now_).

Definition comes_back (s : SessionRow) (now_ : Time) (r : res SessionRow) : Prop :=
  match r with
  | Ok r => outlives s now_ = true ∧ ses_UserID r = ses_UserID s ∧ ses_Provider r = ses_Provider s
            ∧ ses_JWT r = ses_JWT s ∧ ses_ExpiresAt r = read_back (ses_ExpiresAt s)
            ∧ ses_UpdatedAt r = read_back (ses_UpdatedAt s)
  | Err e => outlives s now_ = false ∧ errors_is e Store.ErrSessionExpired = true
  end.
Lemma get_upserted `{RowChoice} s d fl n now_ :
  sessions_wf d → unclaimed (ses_UserID s) d → no_faults fl →
  keepable (ses_ExpiresAt s) → keepable (ses_CreatedAt s) → keepable (ses_UpdatedAt s) →
  let '(r, _, d') := GetSession (ses_UserID s) (ses_Provider s) now_ fl n (upserted s d) in
  comes_back s now_ r ∧ d' = upserted s d.
Proof.
  intros Hw Hu Hf He Hc Hp. unfold GetSession. run_sql. rewrite Hf, sessions_of_upserted by done. rewrite choose_one.
  unfold session_row, comes_back, outlives.
  assert (Hk : sn_provider (kept_row s d) = ses_Provider s ∧ sn_jwt (kept_row s d) = ses_JWT s
               ∧ sn_exp (kept_row s d) = formatTime (ses_ExpiresAt s) ∧ sn_updated (kept_row s d) = formatTime (ses_UpdatedAt s)
               ∧ is_Ok (parseTime (sn_created (kept_row s d))) = true).
  { unfold kept_row. destruct (find _ _) as [o|] eqn:Ef; cbn; split_all; try done.
    - apply find_some in Ef as [Ho _]. pose proof (stamps_parse _ Hw) as Hs. rewrite Forall_forall in Hs.
      by apply Hs, list_elem_of_In.
    - by rewrite parse_format_time. }
  destruct Hk as (-> & -> & -> & -> & Hok). rewrite !parse_format_time by done.
  destruct (parseTime (sn_created (kept_row s d))); [|done]. cbn. split; [|done].
  destruct (expired_at (read_back (ses_ExpiresAt s)) now_); cbn; [split; [done|]|done].
  by rewrite bool_decide_eq_true_2.
Qed.

(** A stored session comes back.  For an address nobody has claimed, a
    successful [UpsertSession] makes [GetSession] return that session, with
    the token and the expiry it was given, until the expiry is reached, and
    [ErrSessionExpired] from then on; a later login replaces the token and
    keeps the row's first creation time.  A failed one changes nothing. *)
Theorem session_kept `{RowChoice} s d fl n fl' n' now_ :
  sessions_wf d → unclaimed (ses_UserID s) d → no_faults fl' →
  keepable (ses_ExpiresAt s) → keepable (ses_CreatedAt s) → keepable (ses_UpdatedAt s) →
  match UpsertSession s fl n d with
  | (Err _, _, d') => d' = d
  | (Ok _, _, d') =>
      match (GetSession (ses_UserID s) (ses_Provider s) now_ fl' n' d').1.1 with
      | Ok r => outlives s now_ = true ∧ ses_UserID r = ses_UserID s ∧ ses_Provider r = ses_Provider s
                ∧ ses_JWT r = ses_JWT s ∧ ses_ExpiresAt r = read_back (ses_ExpiresAt s)
                ∧ ses_UpdatedAt r = read_back (ses_UpdatedAt s)
      | Err e => outlives s now_ = false ∧ errors_is e Store.ErrSessionExpired = true
      end
  end.
Proof.
  intros Hw Hu Hf He Hc Hp. pose proof (UpsertSession_run s fl n d) as Hr.
  destruct (UpsertSession s fl n d) as [[[?|e] n1] d']; [|done]. destruct Hr as [_ ->].
  pose proof (get_upserted s d fl' n' now_ Hw Hu Hf He Hc Hp) as Hg.
  destruct (GetSession _ _ _ _ _ _) as [[r ?] ?]. by destruct Hg as [Hg _].
Qed.
(** SQLite returning the first row it finds. *)
#[export] Program Instance first_row : RowChoice := {| choose _ l := head l |}.
Next Obligation. intros A [|x l] a; cbn; [done|]. intros [= ->]. by left. Qed.
Next Obligation. intros A [|x l] H; [done|]. by exists x. Qed.
Definition example_time (h : Z) : Time := utc (1780000000 * second + h * hour).
Definition example_row (jwt : string) (h : Z) : SessionRow :=
  mkSessionRow "ana@example.com" "resy" jwt (example_time h) (example_time 0) (example_time 0).
Definition no_sessions : SessionDB := mkSessionDB empty_tenants [].
Lemma session_kept_witness :
  match UpsertSession (example_row "jwt" 24) ok_faults 0%nat no_sessions with
  | (Err _, _, d') => d' = no_sessions
  | (Ok _, _, d') =>
      match (GetSession "ana@example.com" "resy" (example_time 3) ok_faults 0%nat d').1.1 with
      | Ok r => outlives (example_row "jwt" 24) (example_time 3) = true ∧ ses_UserID r = "ana@example.com"
                ∧ ses_Provider r = "resy" ∧ ses_JWT r = "jwt" ∧ ses_ExpiresAt r = read_back (example_time 24)
                ∧ ses_UpdatedAt r = read_back (example_time 0)
      | Err e => outlives (example_row "jwt" 24) (example_time 3) = false ∧ errors_is e Store.ErrSessionExpired = true
      end
  end.
Proof.
  apply (session_kept (example_row "jwt" 24) no_sessions ok_faults 0%nat ok_faults 0%nat (example_time 3)).
  - split; [by constructor|by constructor].
  - by intros a [].
  - done.
  - right. vm_compute. by split.
  - right. vm_compute. by split.
  - right. vm_compute. by split.
Defined.

(** ** Logging in again *)

(** No account knows the address yet. *)
Definition fresh_address (e : string) (d : SessionDB) : Prop :=
  ∀ a, In a (tb_accounts (sd_tenant d)) → ac_email a ≠ e ∧ ac_id a ≠ legacy_id e.
Lemma claimed_refused s d fl n :
  legacy_of (ses_UserID s) d = None → existsb (λ x, str_eqb (ac_id x) (legacy_id (ses_UserID s))) (tb_accounts (sd_tenant d)) = true →
  is_Ok (UpsertSession s fl n d).1.1 = false ∧ (UpsertSession s fl n d).2 = d.
Proof.
  intros Hl He. pose proof (UpsertSession_run s fl n d) as Hr. destruct (UpsertSession s fl n d) as [[[?|e] n1] d']; [|done].
  destruct Hr as [Hu _]. specialize (Hu Hl). unfold id_free in Hu. congruence.
Qed.
Lemma bound_accounts u e fl n t id n' t' :
  (∀ a, In a (tb_accounts t) → is_account u e a = false) →
  BindLegacyAccountToUser u e fl n t = (Ok id, n', t') →
  tb_accounts t' = map (λ r, if unowned r && str_eqb (ac_email r) e then set_owner u r else r) (tb_accounts t).
Proof.
  intros Hno. unfold BindLegacyAccountToUser. destruct (_ || _); [done|]. run_sql.
  destruct (fl n); [done|]. destruct (fl (S n)); [done|].
  destruct (find (is_account u e) (tb_accounts t)) as [r|] eqn:Ef.
  - apply find_some in Ef as [Hi Ha]. by rewrite (Hno r Hi) in Ha.
  - destruct (fl (S (S n))); [done|]. unfold claim. set (hit := λ r, _).
    destruct (Z.of_nat _ =? 0); [done|]. destruct (negb _); [done|]. destruct (negb _); [done|].
    destruct (Z.of_nat _ =? 0); [done|]. destruct (fl (S (S (S n)))); [done|].
    cbn. clear Ef. destruct (find _ _); [|done]. cbn. destruct (fl (S (S (S (S n))))); [done|]. by intros [= _ _ <-].
Qed.
Lemma map_owned u e l :
  find (is_legacy e) (map (λ r, if unowned r && str_eqb (ac_email r) e then set_owner u r else r) l) = None.
Proof.
  induction l as [|x l IH]; [done|]. cbn. destruct (unowned x && str_eqb (ac_email x) e) eqn:E.
  - unfold is_legacy at 1, unowned at 1. cbn. by rewrite IH.
  - unfold is_legacy at 1. by rewrite E.
Qed.

(** A user cannot log in twice.  The first login for a new address
    stores its session under a fresh account row that nobody owns, which the
    service then binds to the user.  From then on every login for that
    address, by anyone and with every statement succeeding, fails on the
    account's primary key and stores nothing: an expired session cannot be
    renewed. *)
Theorem second_login_refused u e s1 d fl1 n1 k1 d1 fl2 n2 id k2 d2 :
  fresh_address e d → ses_UserID s1 = e →
  UpsertSession s1 fl1 n1 d = (Ok tt, k1, d1) →
  on_tenant (BindLegacyAccountToUser u e) fl2 n2 d1 = (Ok id, k2, d2) →
  ∀ s2 fl n, ses_UserID s2 = e →
    is_Ok (UpsertSession s2 fl n d2).1.1 = false ∧ (UpsertSession s2 fl n d2).2 = d2.
Proof.
  intros Hfresh Hs1 Hup Hbind s2 fl n Hs2.
  pose proof (UpsertSession_run s1 fl1 n1 d) as Hr. rewrite Hup in Hr. destruct Hr as [_ ->].
  unfold on_tenant in Hbind. destruct (BindLegacyAccountToUser _ _ _ _ _) as [[r k] t] eqn:Eb.
  injection Hbind as -> -> <-.
  assert (Hacc : accounts_after s1 d = tb_accounts (sd_tenant d) ++ [legacy_account s1]).
  { unfold accounts_after, legacy_of. rewrite Hs1. destruct (find _ _) as [a|] eqn:E; [|done].
    apply find_some in E as [Hi [He _]%is_legacy_email]. by destruct (Hfresh a Hi). }
  apply bound_accounts in Eb.
  - rewrite upserted_accounts, Hacc in Eb. apply claimed_refused; rewrite ?Hs2; unfold legacy_of; cbn [sd_tenant]; rewrite Eb.
    + apply map_owned.
    + rewrite map_app, existsb_app. cbn [map existsb]. apply orb_true_iff. right. rewrite orb_false_r.
      rewrite <- Hs1. destruct (_ && _); apply str_eqb_refl.
  - intros a. rewrite upserted_accounts, Hacc, in_app_iff. unfold is_account, bound_to. intros [Hi|[<-|[]]].
    + destruct (Hfresh a Hi) as [He _]. unfold str_eqb. rewrite (bool_decide_eq_false_2 (ac_email a = e)) by done.
      apply andb_false_r.
    + done.
Qed.
Definition example_tenant : SessionDB :=
  mkSessionDB (mkTenantDB [mkUserRec "usr_1" "ana@example.com" "" "admin" None (StampInt 0) None] [] [] [] [] [] []) [].
Lemma second_login_refused_witness :
  let d1 := (UpsertSession (example_row "jwt" 24) ok_faults 0%nat example_tenant).2 in
  let d2 := (on_tenant (BindLegacyAccountToUser "usr_1" "ana@example.com") ok_faults 0%nat d1).2 in
  is_Ok (UpsertSession (example_row "renewed" 48) ok_faults 0%nat d2).1.1 = false
  ∧ (UpsertSession (example_row "renewed" 48) ok_faults 0%nat d2).2 = d2.
Proof.
  refine (second_login_refused "usr_1" "ana@example.com" (example_row "jwt" 24) example_tenant ok_faults 0%nat _ _
            ok_faults 0%nat (legacy_id "ana@example.com") _ _ _ eq_refl _ _ (example_row "renewed" 48) ok_faults 0%nat eq_refl).
  - by intros a [].
  - vm_compute. reflexivity.
  - vm_compute. reflexivity.
Defined.
