(* ===== verification/Secrets.v ===== *)
(** * [internal/secrets]: credentials sealed at rest

    [kind.go], [key.go], [kdf.go], [meta.go], [sealer.go], [rotate.go] and
    [migrate.go], over the tables of Sessions with [secrets] and
    [secrets_meta].  AES-GCM and Argon2id are arguments; what the code relies
    on is [aead_laws].  So are the random source, the clock and [mlock]. *)

From S2P Require Import Prelude Text GoTime GoFormat Types Status Slots Drop Json Hash Codec Sql Tenant Accounts Sessions.
From Stdlib Require Import Ascii.

Definition ErrNotFound : error := ESentinel "secrets: not found".
Definition ErrTampered : error := ESentinel "secrets: AEAD verification failed".
Definition ErrInvalidKeyfile : error := ESentinel "secrets: invalid keyfile".
Definition ErrMixedVersion : error := ESentinel "secrets: mixed-version rows".

(** ** Tables *)

Record SecretRec := mkSecretRec {
  sc_user : string;
  sc_account : string;
  sc_kind : string;
  sc_ct : string;
  sc_nonce : string;
  sc_version : Z;
  sc_created : Z
}.
Record MetaRec := mkMetaRec { mt_salt : string; mt_version : Z; mt_created : Z }.
Record SecretsDB := mkSecretsDB { sx_sessions : SessionDB; sx_secrets : list SecretRec; sx_meta : option MetaRec }.
Notation XSQL := (SqlOf SecretsDB).
Definition with_secrets (l : list SecretRec) (d : SecretsDB) : SecretsDB := mkSecretsDB (sx_sessions d) l (sx_meta d).
Definition sx_tenant (d : SecretsDB) : TenantDB := sd_tenant (sx_sessions d).

(** ** [kind.go] and [key.go] *)

Definition KindResyPassword : string := "resy_password".
Definition KindResySessionJWT : string := "resy_session_jwt".
Definition kind_Valid (k : string) : bool := str_eqb k KindResyPassword || str_eqb k KindResySessionJWT.
Definition KeyLen : nat := 32.
Definition SaltLen : nat := 32.
Definition NonceLen : nat := 12.
(** The buffer of a [*Key]; [None] once it is closed, or nil. *)
Notation Key := (option string) (only parsing).
Definition key_ok (k : Key) : bool := match k with Some b => (String.length b =? KeyLen)%nat | None => false end.

Section Crypto.
Context (aead_Seal : string → string → string → string → string)
        (aead_Open : string → string → string → string → option string)
        (IDKey : string → string → string)
        (mlock : option error)
        (rand : nat → nat → res string)
        (clock : nat → Time).

Definition newKey (src : string) : res string :=
  if negb (String.length src =? KeyLen)%nat then Err (ENew "secrets: key must be 32 bytes")
  else match mlock with Some e => Err e | None => Ok src end.

(** ** [kdf.go] *)

Definition DeriveKeyFromPassphrase (passphrase salt : string) : res string :=
  if is_empty passphrase then Err (ENew "secrets: DeriveKeyFromPassphrase: empty passphrase")
  else if negb (String.length salt =? SaltLen)%nat
  then Err (ENew ("secrets: DeriveKeyFromPassphrase: salt length " +:+ fmt_d (Z.of_nat (String.length salt)) +:+ ", want 32"))
  else newKey (IDKey passphrase salt).
Definition isWorldOrGroupReadable (perm : Z) : bool := negb (Z.land perm 63 =? 0).
Definition hex_val (c : ascii) : option Z :=
  let n := Z.of_nat (nat_of_ascii c) in
  if (48 <=? n) && (n <=? 57) then Some (n - 48)
  else if (97 <=? n) && (n <=? 102) then Some (n - 87)
  else if (65 <=? n) && (n <=? 70) then Some (n - 55)
  else None.
(** [hex.DecodeString] of an even number of characters: the bytes, or the
    first that is no digit. *)
Fixpoint hex_Decode (s : string) : string + ascii :=
  match s with
  | String a (String b s') =>
      match hex_val a with
      | None => inr a
      | Some x =>
          match hex_val b with
          | None => inr b
          | Some y => match hex_Decode s' with
                      | inl r => inl (String (ascii_of_nat (Z.to_nat (16 * x + y))) r)
                      | inr c => inr c
                      end
          end
      end
  | _ => inl ""
  end.
(** [hex.InvalidByteError]: the byte as a code point, with the character if
    it prints. *)
Definition invalid_byte (c : ascii) : error :=
  let n := nat_of_ascii c in
  let upper m := ascii_of_nat (if (m <? 10)%nat then 48 + m else 55 + m) in
  let shown := if (n <? 128)%nat then (32 <=? n)%nat && (n <? 127)%nat else (160 <? n)%nat && negb (n =? 173)%nat in
  let rune := if (n <? 128)%nat then String c "" else bytes [(192 + n / 64)%nat; (128 + n mod 64)%nat] in
  ENew ("encoding/hex: invalid byte: U+00" +:+ String (upper (n / 16)%nat) (String (upper (n mod 16)%nat) "")
        +:+ (if shown then " '" +:+ rune +:+ "'" else "")).
(** [%o]. *)
Fixpoint octal_digits (fuel : nat) (z : Z) (acc : string) : string :=
  match fuel with
  | O => acc
  | S fuel =>
      let acc := String (ascii_of_nat (Z.to_nat (48 + z mod 8))) acc in
      if z <? 8 then acc else octal_digits fuel (z / 8) acc
  end.
(** A mode has at most eleven octal digits. *)
Definition fmt_o (z : Z) : string := octal_digits 11 z "".
Example hex_examples :
  hex_Decode "416a" = inl "Aj" ∧ hex_Decode "4g" = inr "g"%char ∧ error_String (invalid_byte "g") = "encoding/hex: invalid byte: U+0067 'g'"
  ∧ fmt_o 420 = "644".
Proof. vm_compute. done. Qed.
(** [strings.TrimRight] with the cutset of CR and LF. *)
Definition eol (c : ascii) : bool := (nat_of_ascii c =? 10)%nat || (nat_of_ascii c =? 13)%nat.
Fixpoint TrimRight_eol (s : string) : string :=
  match s with
  | "" => ""
  | String c s' => let r := TrimRight_eol s' in if is_empty r && eol c then "" else String c r
  end.
Record FileInfo := mkFileInfo { fi_dir : bool; fi_perm : Z }.
(** The arguments are what [os.Stat], [os.Open] and reading answer. *)
Definition ReadKeyfile (path : string) (stat : res FileInfo) (open : option error) (read : res string) : res string :=
  match stat with
  | Err e => Err (wrap "secrets: ReadKeyfile stat: " e)
  | Ok info =>
      if fi_dir info then Err (EWrap (error_String ErrInvalidKeyfile +:+ ": " +:+ path +:+ " is a directory") [ErrInvalidKeyfile])
      else if isWorldOrGroupReadable (fi_perm info)
      then Err (EWrap (error_String ErrInvalidKeyfile +:+ ": " +:+ path +:+ " permissions " +:+ fmt_o (fi_perm info) +:+ " leak to group/other") [ErrInvalidKeyfile])
      else
        match open with
        | Some e => Err (wrap "secrets: ReadKeyfile open: " e)
        | None =>
            match read with
            | Err e => Err (wrap "secrets: ReadKeyfile read: " e)
            | Ok buf =>
                let hexStr := TrimRight_eol (String.substring 0 256 buf) in
                if negb (String.length hexStr =? 2 * KeyLen)%nat
                then Err (EWrap (error_String ErrInvalidKeyfile +:+ ": " +:+ path +:+ " has "
                                 +:+ fmt_d (Z.of_nat (String.length hexStr)) +:+ " hex chars, want 64") [ErrInvalidKeyfile])
                else match hex_Decode hexStr with
                     | inr c => Err (EWrap (error_String ErrInvalidKeyfile +:+ ": " +:+ path +:+ ": " +:+ error_String (invalid_byte c))
                                       [ErrInvalidKeyfile; invalid_byte c])
                     | inl raw => newKey raw
                     end
            end
        end
  end.

(** ** Random bytes and the clock, one draw each *)

(** [rand.Read] into a buffer of that length. *)
Definition draw (len : nat) : XSQL string := λ _ n d, (rand len n, S n, d).
Definition now_ms : XSQL Z := λ _ n d, (Ok (unix_milli (clock n)), S n, d).
Definition x_fail {A} (e : error) : XSQL A := sql_of (Err e).

(** ** [meta.go] *)

Record Meta := mkMeta { KDFSalt : string; ActiveVersion : Z }.
Definition insert_meta (m : MetaRec) (d : SecretsDB) : res unit * SecretsDB :=
  (Ok tt, match sx_meta d with Some _ => d | None => mkSecretsDB (sx_sessions d) (sx_secrets d) (Some m) end).
Definition LoadOrInitMeta : XSQL Meta :=
  salt ← ctx_err "secrets: generate salt: " (draw SaltLen);
  ms ← now_ms;
  _ ← ctx_err "secrets: insert meta: " (stmt (insert_meta (mkMetaRec salt 1 ms)));
  got ← ctx_err "secrets: read meta: " (query (λ d, Ok (sx_meta d)));
  sql_of (match got with
          | None => Err (ENew "secrets: meta row missing after upsert")
          | Some m =>
              if negb (String.length (mt_salt m) =? SaltLen)%nat
              then Err (ENew ("secrets: meta salt length " +:+ fmt_d (Z.of_nat (String.length (mt_salt m))) +:+ ", want 32"))
              else Ok (mkMeta (mt_salt m) (mt_version m))
          end).

(** ** [sealer.go] *)

(** [se_aead] is the key the cipher was built with: [Close] wipes [se_key]
    and leaves the cipher. *)
Record Sealer := mkSealer { se_aead : string; se_key : Key; se_version : Z }.
Definition NewSealer (key : Key) (meta : Meta) : res Sealer :=
  match key with
  | Some b => if key_ok key then Ok (mkSealer b key (ActiveVersion meta)) else Err (ENew "secrets: NewSealer: bad key")
  | None => Err (ENew "secrets: NewSealer: bad key")
  end.
Definition sealer_Close (s : Sealer) : Sealer := mkSealer (se_aead s) None (se_version s).
Definition adSeparator : string := bytes [31]%nat.
Definition associatedData (user account kind : string) : string :=
  user +:+ adSeparator +:+ account +:+ adSeparator +:+ kind.
Definition is_secret (user account kind : string) (r : SecretRec) : bool :=
  str_eqb (sc_user r) user && str_eqb (sc_account r) account && str_eqb (sc_kind r) kind.
Definition references_ok (r : SecretRec) (d : SecretsDB) : bool :=
  has_user (sc_user r) (sx_tenant d) && has_account (sc_account r) (sx_tenant d).
(** [ON CONFLICT (user_id, account_id, kind) DO UPDATE] of every column else. *)
Definition put_secret (r : SecretRec) (d : SecretsDB) : res unit * SecretsDB :=
  if negb (references_ok r d) then (Err (constraint "FOREIGN KEY"), d)
  else
    let hit := is_secret (sc_user r) (sc_account r) (sc_kind r) in
    (Ok tt, with_secrets (if existsb hit (sx_secrets d) then map (λ o, if hit o then r else o) (sx_secrets d)
                          else sx_secrets d ++ [r]) d).
Definition sealed_row (s : Sealer) (user account kind plaintext nonce : string) (ms : Z) : SecretRec :=
  mkSecretRec user account kind (aead_Seal (se_aead s) nonce plaintext (associatedData user account kind)) nonce
    (se_version s) ms.
Definition Seal (s : Sealer) (user account kind plaintext : string) : XSQL unit :=
  if is_empty user || is_empty account then x_fail (ENew "secrets: Seal: userID and accountID required")
  else if negb (kind_Valid kind) then x_fail (ENew ("secrets: Seal: unknown kind " +:+ fmt_q kind))
  else
    nonce ← ctx_err "secrets: Seal: generate nonce: " (draw NonceLen);
    ms ← now_ms;
    ctx_err "secrets: Seal: " (stmt (put_secret (sealed_row s user account kind plaintext nonce ms))).
Definition tampered : error := EWrap (error_String ErrTampered +:+ ": cipher: message authentication failed") [ErrTampered; ENew "cipher: message authentication failed"].
Definition open_row (s : Sealer) (r : SecretRec) : res string :=
  if negb (String.length (sc_nonce r) =? NonceLen)%nat
  then Err (ENew ("secrets: Open: stored nonce length " +:+ fmt_d (Z.of_nat (String.length (sc_nonce r))) +:+ ", want 12"))
  else match aead_Open (se_aead s) (sc_nonce r) (sc_ct r) (associatedData (sc_user r) (sc_account r) (sc_kind r)) with
       | Some p => Ok p
       | None => Err tampered
       end.
Definition Open (s : Sealer) (user account kind : string) : XSQL string :=
  if is_empty user || is_empty account then x_fail (ENew "secrets: Open: userID and accountID required")
  else if negb (kind_Valid kind) then x_fail (ENew ("secrets: Open: unknown kind " +:+ fmt_q kind))
  else
    got ← ctx_err "secrets: Open: query: " (query (λ d, Ok (find (is_secret user account kind) (sx_secrets d))));
    sql_of (match got with None => Err ErrNotFound | Some r => open_row s r end).
Definition ListKinds (user account : string) : XSQL (list string) :=
  if is_empty user || is_empty account then x_fail (ENew "secrets: List: userID and accountID required")
  else ctx_err "secrets: List: "
         (query (λ d, Ok (map sc_kind (List.filter (λ r, str_eqb (sc_user r) user && str_eqb (sc_account r) account) (sx_secrets d))))).
Definition Delete (user account kind : string) : XSQL unit :=
  if is_empty user || is_empty account then x_fail (ENew "secrets: Delete: userID and accountID required")
  else if negb (kind_Valid kind) then x_fail (ENew ("secrets: Delete: unknown kind " +:+ fmt_q kind))
  else
    hit ← ctx_err "secrets: Delete: " (stmt (λ d,
      (Ok (existsb (is_secret user account kind) (sx_secrets d)),
       with_secrets (List.filter (λ r, negb (is_secret user account kind r)) (sx_secrets d)) d)));
    sql_of (if hit : bool then Ok tt else Err ErrNotFound).

(** ** [rotate.go] *)

Definition stale (v : Z) (r : SecretRec) : bool := negb (sc_version r =? v).
Definition stale_name (r : SecretRec) : string :=
  "(" +:+ sc_user r +:+ "," +:+ sc_account r +:+ "," +:+ sc_kind r +:+ ")@v" +:+ fmt_d (sc_version r).
Definition CheckMixedVersion : XSQL unit :=
  l ← ctx_err "secrets: CheckMixedVersion: "
        (query (λ d, Ok (match sx_meta d with None => [] | Some m => List.filter (stale (mt_version m)) (sx_secrets d) end)));
  sql_of (match l with
          | [] => Ok tt
          | _ => Err (EWrap (error_String ErrMixedVersion +:+ ": " +:+ String.concat ", " (map stale_name l)) [ErrMixedVersion])
          end).
Fixpoint for_each {A} (f : A → XSQL unit) (l : list A) : XSQL unit :=
  match l with [] => mret tt | x :: l' => _ ← f x; for_each f l' end.
(** [UPDATE secrets ... WHERE] the key of the row. *)
Definition reseal (r : SecretRec) (ct nonce : string) (version : Z) (d : SecretsDB) : res unit * SecretsDB :=
  (Ok tt, with_secrets (map (λ o, if is_secret (sc_user r) (sc_account r) (sc_kind r) o
                                  then mkSecretRec (sc_user o) (sc_account o) (sc_kind o) ct nonce version (sc_created o)
                                  else o) (sx_secrets d)) d).
(** What GCM does with a nonce of another length: it panics, and the row is
    not checked first. *)
Definition gcm_panic : error := ENew "panic: crypto/cipher: incorrect nonce length given to GCM".
Definition is_panic (e : error) : bool := match e with ENew m => str_eqb m (error_String gcm_panic) | _ => false end.
Definition rotate_row (s : Sealer) (new : string) (version : Z) (r : SecretRec) : XSQL unit :=
  let ad := associatedData (sc_user r) (sc_account r) (sc_kind r) in
  if negb (String.length (sc_nonce r) =? NonceLen)%nat then x_fail gcm_panic
  else match aead_Open (se_aead s) (sc_nonce r) (sc_ct r) ad with
       | None => x_fail (wrap ("secrets: Rotate open " +:+ sc_user r +:+ "/" +:+ sc_account r +:+ "/" +:+ sc_kind r +:+ ": ")
                           (ENew "cipher: message authentication failed"))
       | Some plaintext =>
           nonce ← ctx_err "secrets: Rotate generate nonce: " (draw NonceLen);
           ctx_err "secrets: Rotate update: " (stmt (reseal r (aead_Seal new nonce plaintext ad) nonce version))
       end.
Definition bump_version (version : Z) (d : SecretsDB) : res unit * SecretsDB :=
  (Ok tt, mkSecretsDB (sx_sessions d) (sx_secrets d) ((λ m, mkMetaRec (mt_salt m) version (mt_created m)) <$> sx_meta d)).
Definition rotate_tx (s : Sealer) (new : string) : XSQL unit :=
  in_tx "secrets: Rotate begin: " "secrets: Rotate commit: "
    (batch ← ctx_err "secrets: Rotate select: " (query (λ d, Ok (sx_secrets d)));
     _ ← for_each (rotate_row s new (se_version s + 1)) batch;
     ctx_err "secrets: Rotate bump version: " (stmt (bump_version (se_version s + 1)))).
(** The sealer and the two keys afterwards.  Every return wipes the new key,
    a panic does not. *)
Record Rotated := mkRotated { ro_result : res unit; ro_sealer : Sealer; ro_new : Key; ro_old : Key; ro_db : SecretsDB }.
Definition Rotate (s : Sealer) (new : Key) (fl : Faults) (n : nat) (d : SecretsDB) : Rotated :=
  match new with
  | Some b =>
      if key_ok new then
        match rotate_tx s b fl n d with
        | (Err e, _, d') => mkRotated (Err e) s (if is_panic e then new else None) (se_key s) d'
        | (Ok _, _, d') => mkRotated (Ok tt) (mkSealer b new (se_version s + 1)) new None d'
        end
      else mkRotated (Err (ENew "secrets: Rotate: bad new key")) s new (se_key s) d
  | None => mkRotated (Err (ENew "secrets: Rotate: bad new key")) s new (se_key s) d
  end.

(** ** [migrate.go] *)

Record MigrationReport := mkMigrationReport { mr_Migrated : Z; mr_Skipped : Z; mr_Errors : list error }.
Record PlainRow := mkPlainRow { pl_account : string; pl_jwt : string; pl_user : option string }.
(** The LEFT JOIN: the user of the account, NULL without one. *)
Definition plain_rows (d : SecretsDB) : list PlainRow :=
  map (λ r, mkPlainRow (sn_account r) (sn_jwt r)
              (find (λ a, str_eqb (ac_id a) (sn_account r)) (tb_accounts (sx_tenant d)) ≫= ac_user))
    (List.filter (λ r, negb (is_empty (sn_jwt r))) (sd_sessions (sx_sessions d))).
Definition set_jwt (jwt : string) (r : SessionRec) : SessionRec :=
  mkSessionRec (sn_account r) (sn_provider r) jwt (sn_exp r) (sn_created r) (sn_updated r).
Definition clear_plaintext (account : string) (d : SecretsDB) : res unit * SecretsDB :=
  (Ok tt, mkSecretsDB (mkSessionDB (sx_tenant d)
                         (map (λ r, if str_eqb (sn_account r) account then set_jwt "" r else r) (sd_sessions (sx_sessions d))))
            (sx_secrets d) (sx_meta d)).
Definition insert_secret (r : SecretRec) (d : SecretsDB) : res unit * SecretsDB :=
  if existsb (is_secret (sc_user r) (sc_account r) (sc_kind r)) (sx_secrets d) then (Err (constraint "UNIQUE: secrets"), d)
  else if negb (references_ok r d) then (Err (constraint "FOREIGN KEY"), d)
  else (Ok tt, with_secrets (sx_secrets d ++ [r]) d).
Definition m_ctx {A} (what : string) (m : XSQL A) : XSQL A := ctx_err ("secrets: MigratePlaintextSessions: " +:+ what +:+ ": ") m.
(** Whether the row was migrated, or skipped. *)
Definition migrate_row (s : Sealer) (r : PlainRow) : XSQL bool :=
  match pl_user r with
  | None => mret false
  | Some user =>
      if is_empty user then mret false
      else
        exists_ ← m_ctx "check existing" (query (λ d, Ok (existsb (is_secret user (pl_account r) KindResySessionJWT) (sx_secrets d))));
        if exists_ : bool then
          _ ← m_ctx "zero existing plaintext" (stmt (clear_plaintext (pl_account r)));
          mret false
        else
          known ← m_ctx "verify user" (query (λ d, Ok (has_user user (sx_tenant d))));
          if negb known
          then x_fail (ENew ("secrets: MigratePlaintextSessions: account " +:+ pl_account r +:+ " references missing user " +:+ user))
          else
            nonce ← m_ctx "nonce" (draw NonceLen);
            ms ← now_ms;
            _ ← m_ctx "insert secret" (stmt (insert_secret (sealed_row s user (pl_account r) KindResySessionJWT (pl_jwt r) nonce ms)));
            _ ← m_ctx "clear plaintext" (stmt (clear_plaintext (pl_account r)));
            mret true
  end.
Definition counted (migrated : bool) (r : MigrationReport) : MigrationReport :=
  if migrated then mkMigrationReport (mr_Migrated r + 1) (mr_Skipped r) (mr_Errors r)
  else mkMigrationReport (mr_Migrated r) (mr_Skipped r + 1) (mr_Errors r).
Fixpoint migrate_batch (s : Sealer) (l : list PlainRow) (report : MigrationReport) : XSQL MigrationReport :=
  match l with
  | [] => mret report
  | r :: l' => m ← migrate_row s r; migrate_batch s l' (counted m report)
  end.
Definition migrate_all (s : Sealer) : XSQL MigrationReport :=
  batch ← m_ctx "query sessions" (query (λ d, Ok (plain_rows d)));
  migrate_batch s batch (mkMigrationReport 0 0 []).
(** A transaction that is rolled back. *)
Definition rolled_back {A} (begin_pre : string) (body : XSQL A) : XSQL A := λ fl n d,
  match ctx_err begin_pre (query (λ _, Ok tt)) fl n d with
  | (Err e, n1, _) => (Err e, n1, d)
  | (Ok _, n1, _) => let '(r, n2, _) := body fl n1 d in (r, n2, d)
  end.
Definition migrate_begin : string := "secrets: MigratePlaintextSessions: begin: ".
Definition MigratePlaintextSessions (s : Sealer) (dryRun : bool) : XSQL MigrationReport :=
  if dryRun then rolled_back migrate_begin (migrate_all s)
  else in_tx migrate_begin "secrets: MigratePlaintextSessions: commit: " (migrate_all s).
End Crypto.
