(* ===== verification/SecretsProofs.v ===== *)
(** * What sealing promises

    A sealed secret opens to its plaintext and no other secret is touched; a
    rotation re-encrypts everything or nothing; the migration of plaintext
    tokens seals what it clears. *)

From S2P Require Import Prelude Text GoTime GoFormat Types Status Slots Drop Json Hash Codec Sql Sqlite SqliteStore Tenant Accounts Sessions Secrets.
From Stdlib Require Import Ascii.

(** ** Rows by their key *)

Definition secret_key (r : SecretRec) : string * string * string := (sc_user r, sc_account r, sc_kind r).
Definition secrets_wf (d : SecretsDB) : Prop := NoDup (map secret_key (sx_secrets d)).
Lemma is_secret_spec u a k r : is_secret u a k r = true ↔ secret_key r = (u, a, k).
Proof.
  unfold is_secret, secret_key, str_eqb. rewrite !andb_true_iff, !bool_decide_eq_true.
  split; [by intros [[-> ->] ->]|by intros [= -> -> ->]].
Qed.
Lemma is_secret_self r : is_secret (sc_user r) (sc_account r) (sc_kind r) r = true.
Proof. by apply is_secret_spec. Qed.
Lemma is_secret_key u a k r r' : secret_key r = secret_key r' → is_secret u a k r = is_secret u a k r'.
Proof. intros H. apply eq_true_iff_eq. by rewrite !is_secret_spec, H. Qed.
Lemma find_by_key u a k l m : Forall2 (λ r r', secret_key r = secret_key r') l m →
  match find (is_secret u a k) l, find (is_secret u a k) m with
  | Some r, Some r' => ∃ i, l !! i = Some r ∧ m !! i = Some r'
  | None, None => True
  | _, _ => False
  end.
Proof.
  induction 1 as [|r r' l m Hk _ IH]; [done|]. cbn. rewrite <- (is_secret_key u a k _ _ Hk).
  destruct (is_secret u a k r); [by exists 0%nat|].
  destruct (find _ l), (find _ m); try done. destruct IH as (i & ? & ?). by exists (S i).
Qed.
(** An update of one row of a table without duplicates. *)
Lemma map_one_key (f : SecretRec → SecretRec) r l1 l2 :
  NoDup (map secret_key (l1 ++ r :: l2)) →
  map (λ o, if is_secret (sc_user r) (sc_account r) (sc_kind r) o then f o else o) (l1 ++ r :: l2) = l1 ++ f r :: l2.
Proof.
  rewrite map_app. cbn. intros Hn. apply NoDup_app in Hn as (_ & H1 & [H2 _]%NoDup_cons).
  assert (Hid : ∀ l, (∀ o, In o l → secret_key o ≠ secret_key r) →
            map (λ o, if is_secret (sc_user r) (sc_account r) (sc_kind r) o then f o else o) l = l).
  { intros l Hl. rewrite <- (map_id l) at 2. apply map_ext_in. intros o Ho.
    destruct (is_secret _ _ _ o) eqn:E; [|done]. apply is_secret_spec in E. by destruct (Hl o Ho). }
  rewrite !map_app. cbn. rewrite is_secret_self, !Hid; [done| |].
  - intros o Ho E. apply H2. rewrite <- E. by apply list_elem_of_In, in_map.
  - intros o Ho E. apply (H1 (secret_key o)); [by apply list_elem_of_In, in_map|]. rewrite E. by left.
Qed.

Section Crypto.
Context (aead_Seal : string → string → string → string → string)
        (aead_Open : string → string → string → string → option string)
        (rand : nat → nat → res string)
        (clock : nat → Time).
(** What GCM and [crypto/rand] document. *)
Record aead_laws : Prop := {
  open_sealed : ∀ k n p ad, String.length n = NonceLen → aead_Open k n (aead_Seal k n p ad) ad = Some p;
  rand_length : ∀ len n b, rand len n = Ok b → String.length b = len
}.
Hypothesis laws : aead_laws.
#[local] Notation Open := (Open aead_Open).
#[local] Notation open_row := (open_row aead_Open).
#[local] Notation Seal := (Seal aead_Seal rand clock).
#[local] Notation Rotate := (Rotate aead_Seal aead_Open rand).

Lemma open_sealed_row s u a k p nonce ms :
  String.length nonce = NonceLen → open_row s (sealed_row aead_Seal s u a k p nonce ms) = Ok p.
Proof.
  intros Hn. unfold Secrets.open_row, sealed_row. cbn. rewrite Hn, Nat.eqb_refl. cbn. by rewrite (open_sealed laws).
Qed.

(** ** Sealing and opening *)

Lemma find_put hit (r : SecretRec) l : hit r = true →
  find hit (if existsb hit l then map (λ o, if hit o then r else o) l else l ++ [r]) = Some r.
Proof.
  intros Hr. destruct (existsb hit l) eqn:E.
  - induction l as [|o l IH]; [done|]. cbn in E |- *. destruct (hit o) eqn:Eo; [by rewrite Hr|]. rewrite Eo. by apply IH.
  - induction l as [|o l IH]; cbn in E |- *; [by rewrite Hr|]. apply orb_false_iff in E as [-> E]. by apply IH.
Qed.
Lemma find_put_other u a k u' a' k' (r : SecretRec) l :
  secret_key r = (u, a, k) → (u', a', k') ≠ (u, a, k) →
  find (is_secret u' a' k')
    (if existsb (is_secret u a k) l then map (λ o, if is_secret u a k o then r else o) l else l ++ [r])
  = find (is_secret u' a' k') l.
Proof.
  intros Hr Hne. assert (Hf : is_secret u' a' k' r = false).
  { apply not_true_is_false. rewrite is_secret_spec, Hr. congruence. }
  destruct (existsb _ l).
  - induction l as [|o l IH]; [done|]. cbn. destruct (is_secret u a k o) eqn:Eo; [|by rewrite IH].
    rewrite Hf, IH. apply is_secret_spec in Eo. by rewrite (is_secret_key u' a' k' o r), Hf by congruence.
  - induction l as [|o l IH]; cbn; [by rewrite Hf|]. by rewrite IH.
Qed.
Lemma Open_find s u a k fl n d d' :
  find (is_secret u a k) (sx_secrets d) = find (is_secret u a k) (sx_secrets d') →
  (Open s u a k fl n d).1.1 = (Open s u a k fl n d').1.1.
Proof.
  intros H. unfold Secrets.Open. destruct (_ || _); [done|]. destruct (negb _); [done|]. run_sql. destruct (fl n); [done|]. by rewrite H.
Qed.

(** A sealed secret opens.  After a successful [Seal], [Open] returns the
    plaintext that was sealed, and every other secret, of that account or
    another, opens exactly as before; a failed one changes nothing. *)
Theorem seal_open s u a k p fl n d :
  match Seal s u a k p fl n d with
  | (Err _, _, d') => d' = d
  | (Ok _, _, d') =>
      (∀ fl' n', no_faults fl' → (Open s u a k fl' n' d').1.1 = Ok p) ∧
      ∀ u' a' k' fl' n', (u', a', k') ≠ (u, a, k) → (Open s u' a' k' fl' n' d').1.1 = (Open s u' a' k' fl' n' d).1.1
  end.
Proof.
  unfold Secrets.Seal. destruct (is_empty u || is_empty a) eqn:E1; [done|]. destruct (negb (kind_Valid k)) eqn:E2; [done|].
  run_sql. unfold draw, now_ms. destruct (rand NonceLen n) as [nonce|] eqn:En; [|done]. apply (rand_length laws) in En.
  destruct (fl (S (S n))); [done|]. unfold put_secret. destruct (negb (references_ok _ d)); [done|]. split.
  - intros fl' n' Hf. unfold Secrets.Open. rewrite E1, E2. run_sql. rewrite Hf. cbn [sx_secrets with_secrets].
    rewrite find_put by apply is_secret_self. cbn. by apply open_sealed_row.
  - intros u' a' k' fl' n' Hne. apply Open_find. cbn [sx_secrets with_secrets]. by apply find_put_other.
Qed.

(** ** Rotation *)

(** The same secret under the new key. *)
Record rekeyed (s : Sealer) (new : string) (v : Z) (r r' : SecretRec) : Prop := {
  rk_key : secret_key r' = secret_key r;
  rk_version : sc_version r' = v;
  rk_opens : ∃ p, open_row s r = Ok p ∧ ∀ key ver, open_row (mkSealer new key ver) r' = Ok p
}.
Lemma rotate_row_spec s new v r fl n d :
  match rotate_row aead_Seal aead_Open rand s new v r fl n d with
  | (Err _, _, d') => True
  | (Ok _, _, d') => ∃ ct nonce, d' = (reseal r ct nonce v d).2 ∧
      ∀ o, secret_key o = secret_key r → rekeyed s new v r (mkSecretRec (sc_user o) (sc_account o) (sc_kind o) ct nonce v (sc_created o))
  end.
Proof.
  unfold rotate_row. destruct (negb _) eqn:En; [done|].
  destruct (aead_Open _ _ _ _) as [p|] eqn:Eo; [|done]. run_sql. unfold draw.
  destruct (rand NonceLen n) as [nonce|] eqn:Er; [|done]. apply (rand_length laws) in Er. destruct (fl (S n)); [done|].
  eexists _, nonce. split; [reflexivity|]. intros o Ho. split; [done|done|]. exists p. split.
  - unfold Secrets.open_row. by rewrite En, Eo.
  - intros key ver. injection Ho as H1 H2 H3. unfold Secrets.open_row. cbn. rewrite Er, Nat.eqb_refl, H1, H2, H3. cbn.
    by rewrite (open_sealed laws).
Qed.
Lemma rotate_rows_spec s new v l : ∀ l1 fl n d,
  secrets_wf d → sx_secrets d = l1 ++ l →
  match for_each (rotate_row aead_Seal aead_Open rand s new v) l fl n d with
  | (Err _, _, _) => True
  | (Ok _, _, d') => ∃ l', d' = with_secrets (l1 ++ l') d ∧ Forall2 (rekeyed s new v) l l'
  end.
Proof.
  induction l as [|r l IH]; intros l1 fl n d Hw Hd; cbn [for_each].
  - exists []. split; [|done]. destruct d. unfold with_secrets. cbn in *. by rewrite Hd.
  - unfold mbind, sql_bind. pose proof (rotate_row_spec s new v r fl n d) as Hr.
    destruct (rotate_row _ _ _ _ _ _ _ _ _ _) as [[[?|e] n1] d1]; [|done]. destruct Hr as (ct & nonce & -> & Hr).
    specialize (Hr r eq_refl). set (r' := mkSecretRec (sc_user r) (sc_account r) (sc_kind r) ct nonce v (sc_created r)) in *.
    assert (E : (reseal r ct nonce v d).2 = with_secrets (l1 ++ r' :: l) d).
    { unfold reseal. cbn [snd]. f_equal. rewrite Hd. apply (map_one_key (λ o, mkSecretRec _ _ _ ct nonce v (sc_created o))).
      by rewrite <- Hd. }
    rewrite E. specialize (IH (l1 ++ [r']) fl n1 (with_secrets (l1 ++ r' :: l) d)).
    destruct (for_each _ l _ _ _) as [[[?|e] n2] d2]; [|done]. destruct IH as (l' & -> & Hl').
    + unfold secrets_wf in *. cbn. rewrite Hd in Hw. rewrite !map_app in *. cbn in *. done.
    + cbn. by rewrite <- app_assoc.
    + exists (r' :: l'). split; [|by constructor]. unfold with_secrets. cbn. by rewrite <- app_assoc.
Qed.
Lemma rotate_tx_spec s new fl n d :
  secrets_wf d →
  match rotate_tx aead_Seal aead_Open rand s new fl n d with
  | (Err _, _, d') => d' = d
  | (Ok _, _, d') => ∃ l', Forall2 (rekeyed s new (se_version s + 1)) (sx_secrets d) l' ∧
                     d' = (bump_version (se_version s + 1) (with_secrets l' d)).2
  end.
Proof.
  intros Hw. unfold rotate_tx. unfold in_tx, ctx_err, query, stmt, mbind, sql_bind. destruct (fl n); [done|]. destruct (fl (S n)); [done|].
  pose proof (rotate_rows_spec s new (se_version s + 1) (sx_secrets d) [] fl (S (S n)) d Hw eq_refl) as H.
  destruct (for_each _ _ _ _ _) as [[[?|e] n2] d2]; [|done]. destruct H as (l' & -> & Hl).
  destruct (fl n2); [done|]. cbn [bump_version]. destruct (fl (S n2)); [done|]. by exists l'.
Qed.
Lemma rekeyed_open s new v key ver u a k fl n d d' :
  Forall2 (rekeyed s new v) (sx_secrets d) (sx_secrets d') →
  (Open (mkSealer new key ver) u a k fl n d').1.1 = (Open s u a k fl n d).1.1.
Proof.
  intros H. unfold Secrets.Open. destruct (_ || _); [done|]. destruct (negb _); [done|]. run_sql. destruct (fl n); [done|].
  pose proof (find_by_key u a k (sx_secrets d) (sx_secrets d')) as Hf.
  destruct (find _ (sx_secrets d)), (find _ (sx_secrets d')); try done.
  - destruct Hf as (i & H1 & H2); [eapply Forall2_impl; [exact H|]; by intros ? ? []|].
    destruct (Forall2_lookup_lr _ _ _ _ _ _ H H1 H2) as [_ _ (p & -> & ->)]. done.
  - destruct Hf. eapply Forall2_impl; [exact H|]. by intros ? ? [].
  - destruct Hf. eapply Forall2_impl; [exact H|]. by intros ? ? [].
Qed.
Definition all_at (v : Z) (d : SecretsDB) : Prop := Forall (λ r, sc_version r = v) (sx_secrets d).
Lemma CheckMixedVersion_ok v d fl n :
  no_faults fl → all_at v d → (∀ m, sx_meta d = Some m → mt_version m = v) → (CheckMixedVersion fl n d).1.1 = Ok tt.
Proof.
  intros Hf Ha Hm. unfold CheckMixedVersion. run_sql. rewrite Hf. destruct (sx_meta d) as [m|]; [|done]. rewrite (Hm m) by done.
  assert (E : List.filter (stale v) (sx_secrets d) = []); [|by rewrite E].
  unfold all_at in Ha. induction Ha as [|r l Hr _ IH]; [done|]. cbn. unfold stale at 1. by rewrite Hr, Z.eqb_refl.
Qed.

(** C23. A rotation is all or nothing.  When [Rotate] fails, at whatever
    statement, the database and the sealer are as they were and the new key
    is wiped, but for the panic on a stored nonce of another length; when it succeeds, the old key is wiped, every secret opens
    under the new sealer to what it opened to before, no row was added or
    lost, the versions agree, so that the next boot's check passes, and the
    sessions are untouched. *)
Theorem rotate_atomic s new b fl n d :
  secrets_wf d → new = Some b → key_ok new = true →
  let o := Rotate s new fl n d in
  match ro_result o with
  | Err e => ro_db o = d ∧ ro_sealer o = s ∧ ro_old o = se_key s ∧ (is_panic e = false → ro_new o = None)
  | Ok _ =>
      ro_old o = None ∧ ro_new o = new ∧ se_key (ro_sealer o) = new ∧ se_version (ro_sealer o) = se_version s + 1 ∧
      sx_sessions (ro_db o) = sx_sessions d ∧ map secret_key (sx_secrets (ro_db o)) = map secret_key (sx_secrets d) ∧
      (∀ u a k fl' n', (Open (ro_sealer o) u a k fl' n' (ro_db o)).1.1 = (Open s u a k fl' n' d).1.1) ∧
      (∀ fl' n', no_faults fl' → (CheckMixedVersion fl' n' (ro_db o)).1.1 = Ok tt)
  end.
Proof.
  intros Hw -> Hk. unfold Secrets.Rotate. rewrite Hk. pose proof (rotate_tx_spec s b fl n d Hw) as H.
  destruct (rotate_tx _ _ _ _ _ _ _ _) as [[[?|e] n1] d']; cbn; [|split_all; [done..|by intros ->]]. destruct H as (l' & Hl & ->). split_all; try done.
  - cbn. clear -Hl. induction Hl as [|r r' l m [E _ _] _ IH]; [done|]. cbn. by rewrite E, IH.
  - intros u0 a0 k0 fl' n'. by eapply rekeyed_open.
  - intros fl' n' Hf. apply (CheckMixedVersion_ok (se_version s + 1)); [done| |].
    + unfold all_at. cbn. clear -Hl. induction Hl as [|r r' l m [_ E _] _ IH]; constructor; auto.
    + cbn. intros m Hm. apply fmap_Some in Hm as (m0 & _ & ->). done.
Qed.
(** Nothing but a fault, the random source or a row that does not open stops
    it. *)
Lemma rotate_rows_done s new v l : ∀ fl n d,
  no_faults fl → (∀ len n, is_Ok (rand len n) = true) → Forall (λ r, is_Ok (open_row s r) = true) l →
  is_Ok (for_each (rotate_row aead_Seal aead_Open rand s new v) l fl n d).1.1 = true.
Proof.
  induction l as [|r l IH]; intros fl n d Hf Hr; [done|]. intros [Ho Hl]%Forall_cons. cbn [for_each]. unfold mbind, sql_bind.
  unfold rotate_row at 1. unfold Secrets.open_row in Ho. destruct (negb _); [done|].
  destruct (aead_Open _ _ _ _) as [p|]; [|done]. unfold ctx_err, stmt, draw, mbind, sql_bind. specialize (Hr NonceLen n) as Hrn.
  destruct (rand NonceLen n) as [nonce|]; [|done]. rewrite Hf. cbn [reseal]. by apply IH.
Qed.
Lemma rotate_done s new b fl n d :
  no_faults fl → (∀ len n, is_Ok (rand len n) = true) → Forall (λ r, is_Ok (open_row s r) = true) (sx_secrets d) →
  new = Some b → key_ok new = true → ro_result (Rotate s new fl n d) = Ok tt.
Proof.
  intros Hf Hr Ho -> Hk. unfold Secrets.Rotate. rewrite Hk. unfold rotate_tx. unfold in_tx, ctx_err, query, stmt, mbind, sql_bind. rewrite !Hf.
  pose proof (rotate_rows_done s b (se_version s + 1) (sx_secrets d) fl (S (S n)) d Hf Hr Ho) as H.
  destruct (for_each _ _ _ _ _) as [[[?|e] n2] d2]; [|done]. rewrite Hf. cbn [bump_version]. by rewrite Hf.
Qed.

(** ** The migration *)

#[local] Notation migrate_row := (migrate_row aead_Seal rand clock).
#[local] Notation migrate_batch := (migrate_batch aead_Seal rand clock).
#[local] Notation MigratePlaintextSessions := (MigratePlaintextSessions aead_Seal rand clock).

(** The user an account is bound to. *)
Definition owner (d : SecretsDB) (account : string) : option string :=
  find (λ a, str_eqb (ac_id a) account) (tb_accounts (sx_tenant d)) ≫= ac_user.
Definition is_bound (o : option string) : bool := match o with Some u => negb (is_empty u) | None => false end.
Definition sealed_jwt (d : SecretsDB) (p : PlainRow) : bool :=
  match pl_user p with Some u => existsb (is_secret u (pl_account p) KindResySessionJWT) (sx_secrets d) | None => false end.
Definition new_secret (s : Sealer) (p : PlainRow) (r : SecretRec) : Prop :=
  ∃ u nonce ms, pl_user p = Some u ∧ String.length nonce = NonceLen ∧
    r = sealed_row aead_Seal s u (pl_account p) KindResySessionJWT (pl_jwt p) nonce ms.
Definition added (r : SecretRec) (d : SecretsDB) : SecretsDB := with_secrets (sx_secrets d ++ [r]) d.
Definition cleared (account : string) (d : SecretsDB) : SecretsDB := (clear_plaintext account d).2.
Lemma migrate_row_spec s p fl n d :
  match migrate_row s p fl n d with
  | (Err _, _, _) => True
  | (Ok migrated, n', d') =>
      if is_bound (pl_user p) then
        migrated = negb (sealed_jwt d p) ∧
        if migrated then ∃ r, new_secret s p r ∧ d' = cleared (pl_account p) (added r d) else d' = cleared (pl_account p) d
      else migrated = false ∧ d' = d ∧ n' = n
  end.
Proof.
  unfold Secrets.migrate_row, sealed_jwt. destruct (pl_user p) as [u|] eqn:Eu; [|done]. cbn [is_bound]. destruct (is_empty u); [done|].
  unfold m_ctx. run_sql. destruct (fl n); [done|]. cbn [negb]. destruct (existsb _ (sx_secrets d)) eqn:Ex.
  - by destruct (fl (S n)).
  - destruct (fl (S n)); [done|]. destruct (has_user _ _); [|done]. cbn [negb]. unfold draw, now_ms.
    destruct (rand NonceLen (S (S n))) as [nonce|] eqn:En; [|done]. apply (rand_length laws) in En.
    destruct (fl _); [done|]. unfold insert_secret. cbn [sc_user sc_account sc_kind sealed_row]. rewrite Ex.
    destruct (negb (references_ok _ d)); [done|]. destruct (fl _); [done|]. split; [done|]. eexists. split; [|reflexivity].
    by eexists _, nonce, _.
Qed.
(** No row before [p] is of its account and user. *)
Definition first_in (l : list PlainRow) (p : PlainRow) : Prop :=
  ∃ l1 l2, l = l1 ++ p :: l2 ∧ ∀ q, In q l1 → pl_account q = pl_account p → pl_user q ≠ pl_user p.
Lemma first_in_app l l' p : first_in l p → first_in (l ++ l') p.
Proof. intros (l1 & l2 & -> & H). exists l1, (l2 ++ l'). split; [by rewrite <- app_assoc|done]. Qed.
(** What a batch has done after the rows [l]. *)
Record progress (s : Sealer) (d0 : SecretsDB) (l : list PlainRow) (report : MigrationReport) (d : SecretsDB) (new : list SecretRec) : Prop := {
  pg_tenant : sx_tenant d = sx_tenant d0;
  pg_meta : sx_meta d = sx_meta d0;
  pg_sessions : sd_sessions (sx_sessions d)
    = map (λ r, if existsb (λ p, str_eqb (pl_account p) (sn_account r) && is_bound (pl_user p)) l then set_jwt "" r else r)
        (sd_sessions (sx_sessions d0));
  pg_secrets : sx_secrets d = sx_secrets d0 ++ new;
  pg_new : Forall (λ r, ∃ p, first_in l p ∧ is_bound (pl_user p) = true ∧ sealed_jwt d0 p = false ∧ new_secret s p r) new;
  pg_sealed : ∀ p, In p l → is_bound (pl_user p) = true → sealed_jwt d p = true;
  pg_count : mr_Migrated report = Z.of_nat (length new) ∧ mr_Migrated report + mr_Skipped report = Z.of_nat (length l)
}.
Lemma set_jwt_twice (r : SessionRec) : set_jwt "" (set_jwt "" r) = set_jwt "" r.
Proof. done. Qed.
Lemma counted_total b report : mr_Migrated (counted b report) + mr_Skipped (counted b report) = mr_Migrated report + mr_Skipped report + 1.
Proof. destruct b; cbn; lia. Qed.
Lemma sealed_app d0 new d p : sx_secrets d = sx_secrets d0 ++ new → sealed_jwt d0 p = true → sealed_jwt d p = true.
Proof. unfold sealed_jwt. intros ->. destruct (pl_user p); [|done]. rewrite existsb_app. by intros ->. Qed.
Lemma unsealed_before d0 new d p : sx_secrets d = sx_secrets d0 ++ new → sealed_jwt d p = false → sealed_jwt d0 p = false.
Proof. intros E H. apply not_true_is_false. intros Ht. eapply sealed_app in Ht; [|exact E]. congruence. Qed.
Lemma progress_step s d0 l report d new p d1 extra b :
  progress s d0 l report d new → is_bound (pl_user p) = true →
  sx_sessions d1 = sx_sessions d → sx_meta d1 = sx_meta d → sx_secrets d1 = sx_secrets d ++ extra →
  Forall (λ r, sealed_jwt d p = false ∧ new_secret s p r) extra → length extra = (if b : bool then 1 else 0)%nat →
  sealed_jwt d1 p = true →
  progress s d0 (l ++ [p]) (counted b report) (cleared (pl_account p) d1) (new ++ extra).
Proof.
  intros [H1 H2 H3 H4 H5 H6 [H7 H8]] Hb E1 E2 E3 Hx Hlen Hs.
  split; cbn [cleared clear_plaintext snd sx_secrets sx_sessions sd_sessions sx_meta]; rewrite ?E2; try done.
  - rewrite <- H1. unfold sx_tenant. cbn. by rewrite E1.
  - rewrite E1, H3, map_map. apply map_ext. intros r. rewrite existsb_app. cbn. rewrite Hb, orb_false_r, andb_true_r.
    destruct (existsb _ l); cbn; unfold str_eqb; cbn [sn_account set_jwt];
      destruct (decide (pl_account p = sn_account r)) as [->|Hn]; rewrite ?(bool_decide_eq_true_2 (sn_account r = sn_account r)) by done;
      rewrite ?(bool_decide_eq_false_2 (pl_account p = sn_account r)), ?(bool_decide_eq_false_2 (sn_account r = pl_account p)) by congruence; done.
  - by rewrite E3, H4, app_assoc.
  - apply Forall_app. split; (eapply Forall_impl; [eassumption|]).
    + intros r (q & Hq & ?). exists q. split; [by apply first_in_app|done].
    + intros r [Hn ?]. exists p. split_all; [|done|by eapply unsealed_before|done].
      exists l, []. split; [done|]. intros q Hq Ha Hu. specialize (H6 q Hq). rewrite Hu in H6. specialize (H6 Hb).
      unfold sealed_jwt in H6, Hn. rewrite Ha, Hu in H6. congruence.
  - intros q Hq Hbq. apply in_app_iff in Hq as [Hq|[<-|[]]]; [|exact Hs]. change (sealed_jwt d1 q = true).
    eapply sealed_app; [exact E3|]. exact (H6 q Hq Hbq).
  - rewrite counted_total, !length_app. cbn. rewrite Hlen. destruct b; cbn; lia.
Qed.
Lemma progress_skip s d0 l report d new p :
  progress s d0 l report d new → is_bound (pl_user p) = false → progress s d0 (l ++ [p]) (counted false report) d new.
Proof.
  intros [H1 H2 H3 H4 H5 H6 [H7 H8]] Hb. split; try done.
  - rewrite H3. apply map_ext. intros r. rewrite existsb_app. cbn. by rewrite Hb, andb_false_r, !orb_false_r.
  - eapply Forall_impl; [exact H5|]. intros r (q & Hq & ?). exists q. split; [by apply first_in_app|done].
  - intros q Hq Hbq. apply in_app_iff in Hq as [Hq|[<-|[]]]; [exact (H6 q Hq Hbq)|congruence].
  - rewrite counted_total, length_app. cbn. lia.
Qed.
Lemma new_secret_sealed s d p r : new_secret s p r → is_bound (pl_user p) = true → sealed_jwt (added r d) p = true.
Proof.
  intros (u & nonce & ms & Eu & _ & ->) _. unfold sealed_jwt, added. rewrite Eu. cbn. rewrite existsb_app. cbn.
  unfold is_secret. cbn. by rewrite !str_eqb_refl, orb_true_r.
Qed.
Lemma migrate_batch_spec s d0 l2 : ∀ l1 report fl n d new,
  progress s d0 l1 report d new →
  match migrate_batch s l2 report fl n d with
  | (Err _, _, _) => True
  | (Ok report', _, d') => ∃ new', progress s d0 (l1 ++ l2) report' d' new'
  end.
Proof.
  induction l2 as [|p l2 IH]; intros l1 report fl n d new Hp; cbn [Secrets.migrate_batch].
  - exists new. by rewrite app_nil_r.
  - unfold mbind, sql_bind. pose proof (migrate_row_spec s p fl n d) as Hr.
    destruct (migrate_row s p fl n d) as [[[b|e] n1] d1]; [|done].
    assert (Hs : ∃ new1, progress s d0 (l1 ++ [p]) (counted b report) d1 new1).
    { destruct (is_bound (pl_user p)) eqn:Hb.
      - destruct Hr as [-> Hr]. destruct (sealed_jwt d p) eqn:Es; cbn [negb] in Hr |- *.
        + subst d1. exists (new ++ []). apply (progress_step s d0 l1 report d new p d [] false); try done. by rewrite app_nil_r.
        + destruct Hr as (r & Hr & ->). exists (new ++ [r]).
          apply (progress_step s d0 l1 report d new p (added r d) [r] true); try done.
          * by constructor; [|constructor].
          * by eapply new_secret_sealed.
      - destruct Hr as (-> & -> & _). exists new. by apply progress_skip. }
    destruct Hs as (new1 & Hs). specialize (IH _ _ fl n1 d1 new1 Hs).
    destruct (migrate_batch s l2 _ _ _ _) as [[[?|e] ?] ?]; [|done]. by rewrite <- app_assoc in IH.
Qed.
Lemma progress_nil s d : progress s d [] (mkMigrationReport 0 0 []) d [].
Proof. split; try done; [by rewrite map_id|by rewrite app_nil_r]. Qed.
Lemma migrate_all_spec s fl n d :
  match migrate_all aead_Seal rand clock s fl n d with
  | (Err _, _, _) => True
  | (Ok report, _, d') => ∃ new, progress s d (plain_rows d) report d' new
  end.
Proof.
  unfold migrate_all, m_ctx, ctx_err, query, stmt, mbind, sql_bind. destruct (fl n); [done|].
  exact (migrate_batch_spec s d (plain_rows d) [] (mkMigrationReport 0 0 []) fl (S n) d [] (progress_nil s d)).
Qed.
(** Rows of accounts nobody owns are all that is left. *)
Lemma unbound_batch s l report fl n d :
  Forall (λ p, is_bound (pl_user p) = false) l →
  migrate_batch s l report fl n d = (Ok (mkMigrationReport (mr_Migrated report) (mr_Skipped report + Z.of_nat (length l)) (mr_Errors report)), n, d).
Proof.
  intros Hl. revert report. induction Hl as [|p l Hp _ IH]; intros report; cbn [Secrets.migrate_batch length].
  - rewrite Z.add_0_r. by destruct report.
  - unfold mbind, sql_bind. unfold Secrets.migrate_row. destruct (pl_user p) as [u|]; cbn in Hp; [apply negb_false_iff in Hp; rewrite Hp|];
      cbn [mret sql_ret]; unfold mret, sql_ret; rewrite IH; cbn [counted mr_Migrated mr_Skipped]; do 4 f_equal; lia.
Qed.

(** A row of [sessions] whose token the migration is after. *)
Definition plain_of (d : SecretsDB) (r : SessionRec) : PlainRow := mkPlainRow (sn_account r) (sn_jwt r) (owner d (sn_account r)).
Lemma plain_rows_in d p :
  In p (plain_rows d) ↔ ∃ r, In r (sd_sessions (sx_sessions d)) ∧ sn_jwt r ≠ "" ∧ p = plain_of d r.
Proof.
  unfold plain_rows. rewrite in_map_iff. split.
  - intros (r & <- & [Hr Hj]%filter_In). exists r. split_all; [done| |done]. intros E. by rewrite E in Hj.
  - intros (r & Hr & Hj & ->). exists r. split; [done|]. apply filter_In. split; [done|].
    unfold is_empty, str_eqb. by rewrite bool_decide_eq_false_2.
Qed.
Lemma cleared_bound d r :
  In r (sd_sessions (sx_sessions d)) →
  (if existsb (λ p, str_eqb (pl_account p) (sn_account r) && is_bound (pl_user p)) (plain_rows d) then set_jwt "" r else r)
  = if is_bound (owner d (sn_account r)) then set_jwt "" r else r.
Proof.
  intros Hr. destruct (decide (sn_jwt r = "")) as [E|Hn].
  { assert (Hs : set_jwt "" r = r) by (destruct r; cbn in *; by subst). rewrite Hs. by destruct (existsb _ _), (is_bound _). }
  destruct (is_bound (owner d (sn_account r))) eqn:Eb.
  - rewrite (proj2 (existsb_exists _ _)); [done|]. exists (plain_of d r). split; [apply plain_rows_in; by exists r|].
    cbn. by rewrite Eb, str_eqb_refl.
  - destruct (existsb _ _) eqn:Ex; [|done]. apply existsb_exists in Ex as (p & Hp & [Ha Hb]%andb_true_iff).
    apply plain_rows_in in Hp as (q & _ & _ & ->). cbn in Ha, Hb. apply str_eqb_true in Ha. congruence.
Qed.
(** The sessions afterwards: the tokens of bound accounts are gone. *)
Definition without_tokens (d : SecretsDB) : list SessionRec :=
  map (λ r, if is_bound (owner d (sn_account r)) then set_jwt "" r else r) (sd_sessions (sx_sessions d)).
Lemma progress_sessions s d report d' new :
  progress s d (plain_rows d) report d' new → sd_sessions (sx_sessions d') = without_tokens d.
Proof. intros H. rewrite (pg_sessions _ _ _ _ _ _ H). apply map_ext_in. intros r Hr. by apply cleared_bound. Qed.
Lemma progress_left s d report d' new :
  progress s d (plain_rows d) report d' new → Forall (λ p, is_bound (pl_user p) = false) (plain_rows d').
Proof.
  intros H. apply Forall_forall. intros p Hp%list_elem_of_In. apply plain_rows_in in Hp as (r & Hr & Hj & ->).
  rewrite (progress_sessions _ _ _ _ _ H) in Hr. apply in_map_iff in Hr as (q & <- & Hq).
  assert (E : ∀ a, owner d' a = owner d a) by (intros a; unfold owner; by rewrite (pg_tenant _ _ _ _ _ _ H)).
  unfold plain_of. cbn [pl_user]. rewrite E.
  destruct (is_bound (owner d (sn_account q))) eqn:Eb; [by destruct Hj|exact Eb].
Qed.
(** The first session row, in the order of the table, in which an account has
    a token. *)
Definition first_token (d : SecretsDB) (account : string) : option SessionRec :=
  find (λ q, str_eqb (sn_account q) account && negb (is_empty (sn_jwt q))) (sd_sessions (sx_sessions d)).
Lemma first_token_in d account r :
  first_token d account = Some r → In r (sd_sessions (sx_sessions d)) ∧ sn_account r = account ∧ sn_jwt r ≠ "".
Proof.
  intros [Hin [Ha%str_eqb_true Hj]%andb_true_iff]%find_some. split_all; [done..|]. intros E. by rewrite E in Hj.
Qed.
Lemma first_plain_row d account :
  find (λ p, str_eqb (pl_account p) account) (plain_rows d) = plain_of d <$> first_token d account.
Proof.
  unfold plain_rows, first_token. induction (sd_sessions (sx_sessions d)) as [|q l IH]; [done|]. cbn.
  destruct (is_empty (sn_jwt q)) eqn:Ej; cbn; [by rewrite andb_false_r|]. rewrite andb_true_r. by destruct (str_eqb _ _).
Qed.
Lemma first_in_token d p :
  first_in (plain_rows d) p → ∃ r, first_token d (pl_account p) = Some r ∧ p = plain_of d r.
Proof.
  intros (l1 & l2 & E & H). pose proof (first_plain_row d (pl_account p)) as Hf.
  assert (Hu : ∀ q, In q (plain_rows d) → pl_user q = owner d (pl_account q))
    by (intros q (? & _ & _ & ->)%plain_rows_in; done).
  rewrite E in Hf, Hu. rewrite find_app in Hf. destruct (find _ l1) as [q|] eqn:Eq.
  - apply find_some in Eq as [Hq Ha%str_eqb_true]. destruct (H q Hq Ha).
    by rewrite (Hu q), (Hu p), Ha by (rewrite in_app_iff; cbn; auto).
  - cbn in Hf. rewrite str_eqb_refl in Hf. destruct (first_token _ _) as [r|]; [|done]. injection Hf as ->. by exists r.
Qed.
Lemma find_new s d report d' new u r :
  progress s d (plain_rows d) report d' new → first_token d (sn_account r) = Some r →
  owner d (sn_account r) = Some u → u ≠ "" → sealed_jwt d (plain_of d r) = false →
  ∃ nonce ms, String.length nonce = NonceLen ∧
    find (is_secret u (sn_account r) KindResySessionJWT) (sx_secrets d')
    = Some (sealed_row aead_Seal s u (sn_account r) KindResySessionJWT (sn_jwt r) nonce ms).
Proof.
  intros H Hfirst Hu Hne Hs. destruct (first_token_in _ _ _ Hfirst) as (Hr & _ & Hj).
  assert (Hp : sealed_jwt d' (plain_of d r) = true).
  { apply (pg_sealed _ _ _ _ _ _ H); [apply plain_rows_in; by exists r|]. cbn. rewrite Hu. unfold is_bound, is_empty, str_eqb.
    by rewrite bool_decide_eq_false_2. }
  unfold sealed_jwt, plain_of in Hp, Hs. cbn in Hp, Hs. rewrite Hu in Hp, Hs.
  rewrite find_existsb in Hp. destruct (find _ (sx_secrets d')) as [x|] eqn:Ef; [|done]. apply find_some in Ef as [Hin Hx].
  rewrite (pg_secrets _ _ _ _ _ _ H) in Hin. apply in_app_iff in Hin as [Hin|Hin].
  { assert (existsb (is_secret u (sn_account r) KindResySessionJWT) (sx_secrets d) = true); [|congruence].
    apply existsb_exists. by exists x. }
  pose proof (pg_new _ _ _ _ _ _ H) as Hnew. rewrite Forall_forall in Hnew. apply list_elem_of_In in Hin. apply Hnew in Hin.
  destruct Hin as (p & Hp' & Hb & _ & (u' & nonce & ms & Eu & Hlen & ->)).
  apply first_in_token in Hp' as (q & Hq & ->). cbn in Eu, Hq. unfold is_secret in Hx. cbn in Hx.
  apply andb_true_iff in Hx as [[Hx1 Hx2]%andb_true_iff _]. apply str_eqb_true in Hx1 as ->, Hx2. cbn.
  exists nonce, ms. split; [done|]. rewrite Hx2, Hfirst in Hq. by injection Hq as <-.
Qed.

(** What was sealed opens as before when rows are added behind it. *)
Lemma open_kept s u a k fl n d d' new :
  existsb (is_secret u a k) (sx_secrets d) = true → sx_secrets d' = sx_secrets d ++ new →
  (Open s u a k fl n d').1.1 = (Open s u a k fl n d).1.1.
Proof.
  intros Hx E. unfold Secrets.Open. destruct (_ || _); [done|]. destruct (negb _); [done|]. run_sql. rewrite E.
  rewrite find_existsb in Hx. rewrite find_app. destruct (find _ (sx_secrets d)); [|done]. by destruct (fl n).
Qed.

(** C24. The migration seals one token of each account before it clears them
    all.  When it fails nothing has changed, and a dry run reports what a run
    would and changes nothing.  A run that succeeds empties the token column
    of every account that has a user and of no other.  Of each such account
    (of an id that is not empty) the first token, in the order of the table, opens again under the
    account's user, unless a token was already sealed for them, which then
    stays as it was; what else the column held of that account is gone.
    Secrets that were there stay, what is added is counted as migrated, and
    every row is counted once.  A second run finds nothing to migrate. *)
Theorem migration_seals s dry fl n d :
  match MigratePlaintextSessions s dry fl n d with
  | (Err _, _, d') => d' = d
  | (Ok report, _, d') =>
      mr_Migrated report + mr_Skipped report = Z.of_nat (length (plain_rows d)) ∧
      if dry : bool then d' = d
      else
        sd_sessions (sx_sessions d') = without_tokens d ∧ sx_tenant d' = sx_tenant d ∧ sx_meta d' = sx_meta d ∧
        (∃ new, sx_secrets d' = sx_secrets d ++ new ∧ mr_Migrated report = Z.of_nat (length new)) ∧
        (∀ account r u fl' n',
           first_token d account = Some r → owner d account = Some u → u ≠ "" → account ≠ "" → no_faults fl' →
           (Open s u account KindResySessionJWT fl' n' d').1.1
           = if existsb (is_secret u account KindResySessionJWT) (sx_secrets d)
             then (Open s u account KindResySessionJWT fl' n' d).1.1 else Ok (sn_jwt r)) ∧
        (MigratePlaintextSessions s true fl n d).1.1 = Ok report ∧
        (∀ fl' n', no_faults fl' →
           ∃ k, MigratePlaintextSessions s false fl' n' d' = (Ok (mkMigrationReport 0 k []), S (S (S n')), d'))
  end.
Proof.
  unfold Secrets.MigratePlaintextSessions, rolled_back, in_tx, ctx_err, query, stmt.
  pose proof (migrate_all_spec s fl (S n) d) as H. destruct dry; (destruct (fl n) eqn:Ef; [done|]).
  - destruct (migrate_all _ _ _ _ _ _ _) as [[[report|e] n2] d2]; [|done]. destruct H as (new & H). split; [apply H|done].
  - destruct (migrate_all aead_Seal rand clock s fl (S n) d) as [[[report|e] n2] d2] eqn:Em; [|done]. destruct H as (new & H).
    destruct (fl n2); [done|]. split; [apply H|]. split_all.
    + by eapply progress_sessions.
    + apply H.
    + apply H.
    + exists new. split; apply H.
    + intros account r u fl' n' Hfirst Hu Hu' Ha Hf. destruct (first_token_in _ _ _ Hfirst) as (_ & Ea & _). subst account.
      destruct (existsb _ _) eqn:Es; [eapply open_kept; [exact Es|apply H]|].
      destruct (find_new s d report d2 new u r H Hfirst Hu Hu') as (nonce & ms & Hl & Hfind).
      { unfold sealed_jwt, plain_of. cbn. by rewrite Hu. }
      unfold Secrets.Open, is_empty. rewrite !str_eqb_neq by done. cbn [orb].
      change (negb (kind_Valid KindResySessionJWT)) with false. cbv iota. run_sql. rewrite Hf, Hfind. cbn. by apply open_sealed_row.
    + done.
    + intros fl' n' Hf. exists (Z.of_nat (length (plain_rows d2))). rewrite !Hf.
      unfold migrate_all, m_ctx, ctx_err, query, stmt, mbind, sql_bind. rewrite Hf.
      rewrite unbound_batch by (by eapply progress_left). by rewrite Hf.
Qed.
End Crypto.

(** ** What is left over *)

Lemma token_read_blank user r s : session_row user r = Ok s → sn_jwt r = "" → ses_JWT s = "".
Proof.
  unfold session_row. intros H Hj. apply bind_Ok in H as (? & _ & H). apply bind_Ok in H as (? & _ & H). apply bind_Ok in H as (? & _ & [= <-]).
  exact Hj.
Qed.
(** Reading a session does not open what the migration sealed: for an address
    whose accounts all have a user, what [GetSession] finds afterwards, and
    so the session a client resumes, carries no token. *)
Lemma migrated_session_blank `{RowChoice} user provider now_ fl n d d' s :
  sd_sessions d' = without_tokens d → sd_tenant d' = sx_tenant d →
  (∀ a, In a (tb_accounts (sx_tenant d)) → ac_email a = user → is_bound (owner d (ac_id a)) = true) →
  (GetSession user provider now_ fl n d').1.1 = Ok s → ses_JWT s = "".
Proof.
  intros Hs Ht Hb. unfold GetSession. run_sql. destruct (fl n); [done|].
  destruct (choose (sessions_of user provider d')) as [r|] eqn:Ec; [|done]. apply choose_in, list_elem_of_In in Ec.
  unfold sessions_of in Ec. rewrite Hs, Ht in Ec. apply filter_In in Ec as [Hin [_ Hj]%andb_true_iff].
  apply in_map_iff in Hin as (q & <- & Hq). apply existsb_exists in Hj as (a & Ha & [Hi He]%andb_true_iff).
  apply str_eqb_true in Hi, He. specialize (Hb a Ha He). rewrite Hi in Hb.
  assert (Hacc : is_bound (owner d (sn_account q)) = true)
    by (destruct (is_bound (owner d (sn_account q))) eqn:E; [done|]; cbn in Hb; by rewrite E in Hb).
  rewrite Hacc. intros H0. apply bind_Ok in H0 as (s' & H1 & H2). destruct (expired_at _ _); [done|]. injection H2 as <-.
  by eapply (token_read_blank user); [exact H1|].
Qed.

(** ** A concrete cipher *)

(** The key, the nonce and the data, followed by the plaintext; it opens what
    begins with them. *)
Definition toy_Seal (k n p ad : string) : string := k +:+ n +:+ ad +:+ p.
Definition toy_Open (k n c ad : string) : option string := strip (k +:+ n +:+ ad) c.
Definition repeated (c : string) (len : nat) : string := String.concat "" (repeat c len).
Definition toy_rand (len k : nat) : res string := Ok (repeated "n" len).
Lemma strip_app_self p r : strip p (p +:+ r) = Some r.
Proof. induction p as [|c p IH]; [done|]. cbn. by rewrite Ascii.eqb_refl. Qed.
Lemma repeated_length len : String.length (repeated "n" len) = len.
Proof.
  unfold repeated. induction len as [|len IH]; [done|]. cbn. destruct len; [done|].
  rewrite <- IH at 2. reflexivity.
Qed.
Lemma toy_laws : aead_laws toy_Seal toy_Open toy_rand.
Proof.
  split.
  - intros k n p ad _. unfold toy_Seal, toy_Open.
    replace (k +:+ n +:+ ad +:+ p) with ((k +:+ n +:+ ad) +:+ p); [apply strip_app_self|].
    induction k as [|c k IH]; cbn; [|by rewrite IH]. induction n as [|c n IH]; cbn; [done|by rewrite IH].
  - intros len k b [= <-]. apply repeated_length.
Qed.
Definition toy_clock (n : nat) : Time := utc (1780000000 * second).
Definition old_key : string := repeated "a" 32.
Definition fresh_key : string := repeated "b" 32.
Definition toy_sealer : Sealer := mkSealer old_key (Some old_key) 1.
(** A user with a bound account, a plaintext token and a sealed password. *)
Definition toy_db : SecretsDB :=
  mkSecretsDB
    (mkSessionDB (mkTenantDB [mkUserRec "usr_1" "ana@example.com" "" "admin" None (StampInt 0) None]
                    [mkAccountRec "acct_1" (Some "usr_1") "ana@example.com" "" 0 None] [] [] [] [] [])
       [mkSessionRec "acct_1" "resy" "tok" "" "" ""])
    [] (Some (mkMetaRec (repeated "s" 32) 1 0)).
Definition with_password : SecretsDB := Eval vm_compute in
  (Seal toy_Seal toy_rand toy_clock toy_sealer "usr_1" "acct_1" KindResyPassword "hunter2" ok_faults 0%nat toy_db).2.
Lemma seal_open_witness :
  (Open toy_Open toy_sealer "usr_1" "acct_1" KindResyPassword ok_faults 0%nat with_password).1.1 = Ok "hunter2".
Proof.
  pose proof (seal_open toy_Seal toy_Open toy_rand toy_clock toy_laws toy_sealer "usr_1" "acct_1" KindResyPassword "hunter2"
                ok_faults 0%nat toy_db) as H.
  assert (E : Seal toy_Seal toy_rand toy_clock toy_sealer "usr_1" "acct_1" KindResyPassword "hunter2" ok_faults 0%nat toy_db
              = (Ok tt, 3%nat, with_password)) by (vm_compute; reflexivity).
  rewrite E in H. exact (proj1 H ok_faults 0%nat (λ _, eq_refl)).
Defined.
Definition toy_rotated : Rotated := Rotate toy_Seal toy_Open toy_rand toy_sealer (Some fresh_key) ok_faults 0%nat with_password.
Lemma rotate_atomic_witness :
  (Open toy_Open (ro_sealer toy_rotated) "usr_1" "acct_1" KindResyPassword ok_faults 0%nat (ro_db toy_rotated)).1.1
  = (Open toy_Open toy_sealer "usr_1" "acct_1" KindResyPassword ok_faults 0%nat with_password).1.1.
Proof.
  assert (Hw : secrets_wf with_password) by (repeat constructor; intros H%elem_of_nil; done).
  pose proof (rotate_atomic toy_Seal toy_Open toy_rand toy_laws toy_sealer (Some fresh_key) fresh_key ok_faults 0%nat
                with_password Hw eq_refl eq_refl) as H.
  change (Rotate toy_Seal toy_Open toy_rand toy_sealer (Some fresh_key) ok_faults 0%nat with_password) with toy_rotated in H.
  assert (E : ro_result toy_rotated = Ok tt) by (vm_compute; reflexivity).
  cbv zeta in H. rewrite E in H. exact (proj1 (proj2 (proj2 (proj2 (proj2 (proj2 (proj2 H)))))) "usr_1" "acct_1" KindResyPassword ok_faults 0%nat).
Defined.
Definition toy_migrated : SecretsDB := Eval vm_compute in
  (MigratePlaintextSessions toy_Seal toy_rand toy_clock toy_sealer false ok_faults 0%nat with_password).2.
Lemma migration_seals_witness :
  sd_sessions (sx_sessions toy_migrated) = without_tokens with_password ∧
  (Open toy_Open toy_sealer "usr_1" "acct_1" KindResySessionJWT ok_faults 0%nat toy_migrated).1.1 = Ok "tok".
Proof.
  pose proof (migration_seals toy_Seal toy_Open toy_rand toy_clock toy_laws toy_sealer false ok_faults 0%nat with_password) as H.
  assert (E : ∃ n, MigratePlaintextSessions toy_Seal toy_rand toy_clock toy_sealer false ok_faults 0%nat with_password
              = (Ok (mkMigrationReport 1 0 []), n, toy_migrated)) by (eexists; vm_compute; reflexivity).
  destruct E as [n E]. rewrite E in H. destruct H as (_ & H1 & _ & _ & _ & H2 & _). split; [exact H1|].
  exact (H2 "acct_1" (mkSessionRec "acct_1" "resy" "tok" "" "" "") "usr_1" ok_faults 0%nat eq_refl eq_refl ltac:(done) ltac:(done) (λ _, eq_refl)).
Defined.

(** [Seal] does not take the lock of [Rotate]: one that encrypted before the
    commit and inserts after it leaves a row under the old key and version,
    which the new sealer cannot open and the next boot refuses. *)
Lemma seal_during_rotation :
  let d1 := (rotate_tx toy_Seal toy_Open toy_rand toy_sealer fresh_key ok_faults 0%nat with_password).2 in
  let d2 := (Seal toy_Seal toy_rand toy_clock toy_sealer "usr_1" "acct_1" KindResyPassword "changed" ok_faults 0%nat d1).2 in
  (Open toy_Open (ro_sealer toy_rotated) "usr_1" "acct_1" KindResyPassword ok_faults 0%nat d2).1.1 = Err tampered ∧
  is_Ok (CheckMixedVersion ok_faults 0%nat d2).1.1 = false.
Proof. vm_compute. by split. Qed.
