(* ===== verification/Url.v ===== *)
(** * [net/url.Parse], as the resolver and [Goal.Validate] use it

    Scheme, authority, path and query of an absolute URL, with the
    percent-decoding of each part and the errors that make a parse fail.
    A bracketed IP literal is the argument [ip_literal]: what it accepts
    has changed between Go releases. *)

From S2P Require Import Prelude Types Text.
From Stdlib Require Import Ascii.

Record URL := mkURL {
  url_Scheme : string;
  url_Opaque : string;
  url_Host : string;
  url_Path : string;
  url_RawQuery : string
}.

(** ** Cutting strings *)

(** [strings.Cut] at the first byte [c]. *)
Fixpoint cut (c : ascii) (s : string) : string * option string :=
  match s with
  | EmptyString => ("", None)
  | String d s' =>
      if Ascii.eqb c d then ("", Some s')
      else let '(a, b) := cut c s' in (String d a, b)
  end.
Definition before (c : ascii) (s : string) : string := (cut c s).1.
Definition after (c : ascii) (s : string) : string := match (cut c s).2 with Some r => r | None => "" end.
Definition has_char (c : ascii) (s : string) : bool := match (cut c s).2 with Some _ => true | None => false end.
(** At the last byte [c]. *)
Fixpoint cut_last (c : ascii) (s : string) : option (string * string) :=
  match s with
  | EmptyString => None
  | String d s' =>
      match cut_last c s' with
      | Some (a, b) => Some (String d a, b)
      | None => if Ascii.eqb c d then Some ("", s') else None
      end
  end.
(** [strings.Split] on one byte. *)
Fixpoint split_on (c : ascii) (s : string) : list string :=
  match s with
  | EmptyString => [""]
  | String d s' =>
      if Ascii.eqb c d then "" :: split_on c s'
      else match split_on c s' with
           | x :: l => String d x :: l
           | [] => [String d ""]
           end
  end.
Definition starts_with (p s : string) : bool := match strip p s with Some _ => true | None => false end.
Fixpoint last_char (s : string) : option ascii :=
  match s with EmptyString => None | String c EmptyString => Some c | String _ s' => last_char s' end.
Definition ends_with (c : ascii) (s : string) : bool :=
  match last_char s with Some d => Ascii.eqb c d | None => false end.
Fixpoint drop_last (s : string) : string :=
  match s with EmptyString => "" | String _ EmptyString => "" | String c s' => String c (drop_last s') end.

(** ** Percent-decoding *)

Definition hex_value (c : ascii) : option nat :=
  let n := nat_of_ascii c in
  if (48 <=? n)%nat && (n <=? 57)%nat then Some (n - 48)%nat
  else if (97 <=? n)%nat && (n <=? 102)%nat then Some (n - 87)%nat
  else if (65 <=? n)%nat && (n <=? 70)%nat then Some (n - 55)%nat
  else None.
Inductive EscMode := EncodePath | EncodeHost | EncodeUser | EncodeFragment | EncodeQuery.
#[export] Instance EscMode_eq_dec : EqDecision EscMode.
Proof. solve_decision. Defined.
Definition alnum (c : ascii) : bool :=
  let n := nat_of_ascii c in
  ((48 <=? n) && (n <=? 57) || (65 <=? n) && (n <=? 90) || (97 <=? n) && (n <=? 122))%nat.
(** The ASCII bytes a host may hold unescaped. *)
Definition host_byte (c : ascii) : bool :=
  let n := nat_of_ascii c in
  (128 <=? n)%nat || alnum c
  || existsb (Ascii.eqb c) (String.list_ascii_of_string "-_.~!$&'()*+,;=:[]<>") || (n =? 34)%nat.
Definition escape_error : error := ENew "invalid URL escape".
(** [unescape]; [None] is an error. *)
Fixpoint unescape (mode : EscMode) (s : string) : option string :=
  match s with
  | EmptyString => Some ""
  | String "%" (String a (String b s')) =>
      x ← hex_value a; y ← hex_value b;
      let n := (16 * x + y)%nat in
      if bool_decide (mode = EncodeHost) && (x <? 8)%nat && negb (n =? 37)%nat then None
      else r ← unescape mode s'; Some (String (ascii_of_nat n) r)
  | String "%" _ => None
  | String "+" s' =>
      r ← unescape mode s'; Some (String (if bool_decide (mode = EncodeQuery) then " " else "+")%char r)
  | String c s' =>
      if bool_decide (mode = EncodeHost) && negb (host_byte c) then None
      else r ← unescape mode s'; Some (String c r)
  end.

(** ** The parser *)

Definition is_letter (c : ascii) : bool :=
  let n := nat_of_ascii c in ((65 <=? n) && (n <=? 90) || (97 <=? n) && (n <=? 122))%nat.
Definition scheme_rest (c : ascii) : bool :=
  is_digit c || existsb (Ascii.eqb c) (String.list_ascii_of_string "+-.").
(** [getScheme]: the scheme and the rest, no scheme, or an error. *)
Fixpoint get_scheme (first : bool) (s : string) : option (option (string * string)) :=
  match s with
  | EmptyString => Some None
  | String c s' =>
      let go := match get_scheme false s' with
                | Some (Some (a, b)) => Some (Some (String c a, b))
                | r => r
                end in
      if is_letter c then go
      else if scheme_rest c then (if first then Some None else go)
      else if Ascii.eqb c ":" then (if first then None else Some (Some ("", s')))
      else Some None
  end.
Definition ctl_byte (c : ascii) : bool := let n := nat_of_ascii c in ((n <? 32) || (n =? 127))%nat.
Definition valid_port (s : string) : bool :=
  match s with EmptyString => true | String ":" s' => str_all is_digit s' | _ => false end.
Definition valid_userinfo (s : string) : bool :=
  str_all (λ c, alnum c || existsb (Ascii.eqb c) (String.list_ascii_of_string "-._:~!$&'()*+,;=%@")) s.

Section Parse.
(** The decoded host of a text that starts with a bracket. *)
Context (ip_literal : string → option string).

Definition parse_host (host : string) : option string :=
  if starts_with "[" host then ip_literal host
  else match cut_last ":" host with
       | Some (_, port) => if valid_port (String ":" port) then unescape EncodeHost host else None
       | None => unescape EncodeHost host
       end.
Definition parse_authority (authority : string) : option string :=
  match cut_last "@" authority with
  | None => parse_host authority
  | Some (userinfo, host) =>
      h ← parse_host host;
      if negb (valid_userinfo userinfo) then None
      else
        _ ← unescape EncodeUser (before ":" userinfo);
        _ ← unescape EncodeUser (after ":" userinfo);
        Some h
  end.
Definition split_query (rest : string) : string * string :=
  if ends_with "?" rest && negb (has_char "?" (drop_last rest)) then (drop_last rest, "")
  else (before "?" rest, after "?" rest).
Definition parse_rest (scheme rest : string) : option URL :=
  let '(rest, query) := split_query rest in
  if negb (starts_with "/" rest) && negb (is_empty scheme)
  then Some (mkURL scheme rest "" "" query)
  else if negb (starts_with "/" rest) && has_char ":" (before "/" rest) then None
  else
    match strip "//" rest with
    | Some authority =>
        if is_empty scheme && starts_with "///" rest
        then p ← unescape EncodePath rest; Some (mkURL scheme "" "" p query)
        else
          h ← parse_authority (before "/" authority);
          p ← unescape EncodePath (if has_char "/" authority then String "/" (after "/" authority) else "");
          Some (mkURL scheme "" h p query)
    | None => p ← unescape EncodePath rest; Some (mkURL scheme "" "" p query)
    end.
(** [url.Parse]: [None] is an error. *)
Definition url_Parse (raw : string) : option URL :=
  let u := before "#" raw in
  let frag := after "#" raw in
  url ← (if str_all (λ c, negb (ctl_byte c)) u then
           if str_eqb u "*" then Some (mkURL "" "" "" "*" "")
           else match get_scheme true u with
                | None => None
                | Some None => parse_rest "" u
                | Some (Some (s, rest)) => parse_rest (map_str lower_char s) rest
                end
         else None);
  if is_empty frag then Some url else _ ← unescape EncodeFragment frag; Some url.
End Parse.

(** [URL.Hostname]: the host without a port, a literal without its brackets. *)
Definition url_Hostname (u : URL) : string :=
  let host := url_Host u in
  let host := match cut_last ":" host with
              | Some (h, port) => if valid_port (String ":" port) then h else host
              | None => host
              end in
  match host with
  | String "[" h => if ends_with "]" h then drop_last h else host
  | _ => host
  end.

(** [URL.Query().Get(key)]: the first value under the key; pairs with a
    semicolon or a bad escape are skipped. *)
Definition query_pair (key pair : string) : option string :=
  if has_char ";" pair || is_empty pair then None
  else
    k ← unescape EncodeQuery (before "=" pair);
    v ← unescape EncodeQuery (after "=" pair);
    if str_eqb k key then Some v else None.
Definition query_Get (rawQuery key : string) : string :=
  match omap (query_pair key) (split_on "&" rawQuery) with v :: _ => v | [] => "" end.

Example url_example :
  url_Parse (λ _, None) "HTTPS://user:pw@WWW.Resy.com:443/cities/new%20york/venues/x/?date=2026-05-01&seats=2#top"
  = Some (mkURL "https" "" "WWW.Resy.com:443" "/cities/new york/venues/x/" "date=2026-05-01&seats=2").
Proof. vm_compute. reflexivity. Qed.

(** ** Cutting printed text *)

Definition free (c : ascii) (s : string) : bool := str_all (λ d, negb (Ascii.eqb c d)) s.
Lemma free_app c s t : free c (s +:+ t) = free c s && free c t.
Proof. apply str_all_append. Qed.
Lemma free_fmt_d c z : is_digit c = false → Ascii.eqb c "-" = false → free c (fmt_d z) = true.
Proof.
  intros Hd Hm. apply str_all_fmt_pad; [|by rewrite Hm].
  intros d H. destruct (Ascii.eqb_spec c (digit d)) as [->|]; [|done]. by rewrite is_digit_digit in Hd.
Qed.
Lemma cut_free c s : free c s = true → cut c s = (s, None).
Proof.
  unfold free. induction s as [|d s IH]; cbn; [done|]. destruct (Ascii.eqb c d); [done|]. cbn. intros H. by rewrite IH.
Qed.
Lemma cut_app c s t : free c s = true → cut c (s +:+ String c t) = (s, Some t).
Proof.
  unfold free. induction s as [|d s IH]; cbn; [by rewrite Ascii.eqb_refl|].
  destruct (Ascii.eqb c d); [done|]. cbn. intros H. by rewrite IH.
Qed.
Lemma has_char_free c s : free c s = true → has_char c s = false.
Proof. intros H. unfold has_char. by rewrite cut_free. Qed.
Lemma has_char_app c s t : free c s = true → has_char c (s +:+ String c t) = true.
Proof. intros H. unfold has_char. by rewrite cut_app. Qed.
Lemma cut_last_free c s : free c s = true → cut_last c s = None.
Proof.
  unfold free. induction s as [|d s IH]; cbn; [done|]. destruct (Ascii.eqb c d); [done|]. cbn. intros H. by rewrite IH.
Qed.
Lemma cut_last_app c s t : free c t = true → cut_last c (s +:+ String c t) = Some (s, t).
Proof.
  intros H. induction s as [|d s IH]; cbn; [by rewrite cut_last_free, Ascii.eqb_refl|]. by rewrite IH.
Qed.
Lemma split_on_free c s : free c s = true → split_on c s = [s].
Proof.
  unfold free. induction s as [|d s IH]; cbn; [done|]. destruct (Ascii.eqb c d); [done|]. cbn. intros H. by rewrite IH.
Qed.
Lemma split_on_app c s t : free c s = true → split_on c (s +:+ String c t) = s :: split_on c t.
Proof.
  unfold free. induction s as [|d s IH]; cbn; [by rewrite Ascii.eqb_refl|].
  destruct (Ascii.eqb c d); [done|]. cbn. intros H. by rewrite IH.
Qed.
