(* ===== verification/Migrate.v ===== *)
(** * [store/migrate.go]: bringing the schema up to date

    The numbered files that are embedded in the binary, and [Migrate], which
    applies those the database has not recorded, each in a transaction of its
    own.  What SQLite makes of a body is an argument; the directory is a list
    of entries, and a map is walked in any order. *)

From S2P Require Import Prelude Text Url GoTime GoFormat Types Codec Sql.
From Stdlib Require Import Ascii.

Record Entry := mkEntry { en_Name : string; en_IsDir : bool; en_Body : res string }.
Record migration := mkMigration { version : Z; name : string; body : string }.
Definition ErrSchemaNewer : error := ESentinel "store: schema is newer than this binary; downgrade refused".
(** [strings.HasSuffix]. *)
Definition has_suffix (p s : string) : bool := match strip (str_rev p) (str_rev s) with Some _ => true | None => false end.
Fixpoint load (entries : list Entry) (seen : list (Z * string)) : res (list migration) :=
  match entries with
  | [] => Ok []
  | e :: rest =>
      if en_IsDir e || negb (has_suffix ".sql" (en_Name e)) then load rest seen
      else
        match cut "_" (TrimSuffix (en_Name e) ".sql") with
        | (String _ _ as num, Some nm) =>
            match parse_int64 num with
            | None => Err (wrap ("migration " +:+ fmt_q (en_Name e) +:+ ": bad version: ") (ENew "strconv.Atoi"))
            | Some v =>
                match find (λ p, p.1 =? v) seen with
                | Some (_, prev) => Err (ENew ("duplicate version " +:+ fmt_d v +:+ ": " +:+ fmt_q prev +:+ " and " +:+ fmt_q (en_Name e)))
                | None =>
                    b ← match en_Body e with Ok b => Ok b | Err x => Err (wrap ("reading " +:+ en_Name e +:+ ": ") x) end;
                    migs ← load rest ((v, en_Name e) :: seen);
                    Ok (mkMigration v nm b :: migs)
                end
            end
        | _ => Err (ENew ("migration " +:+ fmt_q (en_Name e) +:+ " must be NNNN_name.sql"))
        end
  end.
Definition older (a b : migration) : Prop := version a ≤ version b.
#[export] Instance older_dec : RelDecision older.
Proof. intros a b. unfold older. apply _. Defined.
Definition loadMigrations (dir : res (list Entry)) : res (list migration) :=
  match dir with
  | Err e => Err (wrap "reading embedded migrations: " e)
  | Ok [] => Err (ENew "no embedded migrations found")
  | Ok entries =>
      migs ← load entries [];
      match migs with [] => Err (ENew "no .sql migrations matched naming convention") | _ => Ok (merge_sort older migs) end
  end.
Definition max_version (l : list Z) : Z := foldl Z.max 0 l.
Definition EmbeddedMaxVersion (dir : res (list Entry)) : res Z :=
  migs ← loadMigrations dir; Ok (max_version (map version migs)).

(** The version table, once it exists, and everything else. *)
Record SchemaDB (Data : Type) := mkSchemaDB { sd_versions : option (list (Z * string)); sd_data : Data }.
Arguments mkSchemaDB {Data} _ _.
Arguments sd_versions {Data} _.
Arguments sd_data {Data} _.

Section Migrate.
Context {Data : Type} (exec : string → Data → res Data) (walk : list Z → list Z) (dir : res (list Entry)).
Notation DB := (SchemaDB Data).
Notation SQL := (SqlOf DB).

Definition ensure (d : DB) : res unit * DB :=
  (Ok tt, mkSchemaDB (Some (default [] (sd_versions d))) (sd_data d)).
Definition recorded (d : DB) : list (Z * string) := default [] (sd_versions d).
Definition readApplied : SQL (list Z) :=
  ctx_err "reading schema_migrations: "
    (query (λ d, match sd_versions d with
                 | None => Err (ENew "no such table: schema_migrations")
                 | Some l => Ok (map fst l)
                 end)).
Definition AppliedMaxVersion : SQL Z := applied ← readApplied; mret (max_version applied).
Definition run_body (m : migration) (d : DB) : res unit * DB :=
  match exec (body m) (sd_data d) with
  | Ok x => (Ok tt, mkSchemaDB (sd_versions d) x)
  | Err e => (Err e, d)
  end.
Definition record_version (m : migration) (d : DB) : res unit * DB :=
  if existsb (λ p, p.1 =? version m) (recorded d)
  then (Err (ENew "constraint failed: UNIQUE: schema_migrations.version"), d)
  else (Ok tt, mkSchemaDB (Some (recorded d ++ [(version m, name m)])) (sd_data d)).
Definition applyOne (m : migration) : SQL unit :=
  in_tx "begin: " "commit: "
    (_ ← ctx_err "executing body: " (stmt (run_body m));
     ctx_err "recording version: " (stmt (record_version m))).
Definition refuse_newer (applied : list Z) (migs : list migration) : res unit :=
  let top := max_version (map version migs) in
  match find (λ v, top <? v) (walk applied) with
  | Some v => Err (EWrap (error_String ErrSchemaNewer +:+ ": schema v" +:+ fmt_d v +:+ " is newer than this binary's max v" +:+ fmt_d top)
                     [ErrSchemaNewer])
  | None => Ok tt
  end.
Definition applied_in (applied : list Z) (m : migration) : bool := existsb (Z.eqb (version m)) applied.
Fixpoint apply_all (applied : list Z) (migs : list migration) : SQL unit :=
  match migs with
  | [] => mret tt
  | m :: rest =>
      if applied_in applied m then apply_all applied rest
      else
        _ ← ctx_err ("applying " +:+ fmt_pad 4 (version m) +:+ "_" +:+ name m +:+ ": ") (applyOne m);
        apply_all applied rest
  end.
Definition Migrate : SQL unit :=
  _ ← ctx_err "ensuring schema_migrations: " (stmt ensure);
  applied ← readApplied;
  migs ← sql_of (loadMigrations dir);
  _ ← sql_of (refuse_newer applied migs);
  apply_all applied migs.
End Migrate.

(** ** What a run leaves behind *)

Section Proofs.
Context {Data : Type} (exec : string → Data → res Data) (walk : list Z → list Z) (dir : res (list Entry)).
Hypothesis walk_all : ∀ l, Permutation (walk l) l.
Notation DB := (SchemaDB Data).
Notation Migrate := (Migrate exec walk dir).

Definition stamp (m : migration) : Z * string := (version m, name m).
Definition pending (applied : list Z) (migs : list migration) : list migration :=
  List.filter (λ m, negb (applied_in applied m)) migs.
Fixpoint run_bodies (l : list migration) (x : Data) : res Data :=
  match l with [] => Ok x | m :: l => y ← exec (body m) x; run_bodies l y end.
(** The files number the migrations without repeats, and they come out in
    order. *)
Lemma load_seen entries seen migs :
  load entries seen = Ok migs → NoDup (map version migs) ∧ Forall (λ m, version m ∉ seen.*1) migs.
Proof.
  revert seen migs. induction entries as [|e rest IH]; intros seen migs H; cbn in H; [injection H as <-; split; constructor|].
  destruct (_ || _); [by apply IH|]. destruct (cut _ _) as [[|c num] [nm|]]; try done.
  destruct (parse_int64 _) as [v|]; [|done]. destruct (find _ seen) as [[]|] eqn:F; [done|].
  destruct (en_Body e) as [b|]; [|done]. cbn in H. destruct (load rest _) as [l|] eqn:E; [|done]. injection H as <-.
  apply IH in E as [Hn Hs]. rewrite Forall_forall in Hs. split.
  - cbn. constructor; [|done]. intros (m & E & Hm)%list_elem_of_fmap. apply (Hs m Hm). cbn. rewrite <- E. by left.
  - constructor; [|apply Forall_forall; intros m Hm Hi; apply (Hs m Hm); cbn; by right].
    intros ([v' nm'] & E & Hi)%list_elem_of_fmap. apply list_elem_of_In in Hi.
    pose proof (find_none _ _ F _ Hi) as Hf. cbn in *. subst v'. by rewrite Z.eqb_refl in Hf.
Qed.
#[local] Instance older_total : Total older.
Proof. intros a b. unfold older. lia. Qed.
#[local] Instance older_trans : Transitive older.
Proof. intros a b c. unfold older. lia. Qed.
Lemma loaded_order migs : loadMigrations dir = Ok migs → NoDup (map version migs) ∧ StronglySorted older migs.
Proof.
  unfold loadMigrations. destruct dir as [[|e l]|]; [done| |done]. cbn [mbind outcome_bind].
  destruct (load (e :: l) []) as [ms|] eqn:E; [|done]. destruct ms as [|m ms]; [done|]. intros [= <-].
  apply load_seen in E as [Hn _]. split; [|apply StronglySorted_merge_sort; apply _].
  by rewrite merge_sort_Permutation.
Qed.

(** One migration: applied and recorded, or nothing. *)
Lemma applyOne_cases m fl n (d : DB) :
  let '(r, _, d') := applyOne exec m fl n d in
  match r with
  | Ok _ => ∃ x, exec (body m) (sd_data d) = Ok x ∧ d' = mkSchemaDB (Some (recorded d ++ [stamp m])) x
  | Err _ => d' = d
  end ∧
  (no_faults fl → is_Ok (exec (body m) (sd_data d)) = true → version m ∉ (recorded d).*1 → r = Ok tt).
Proof.
  unfold applyOne. run_sql. unfold run_body, record_version, recorded. destruct (fl n) eqn:F0; [split; [done|]; intros Hf; by rewrite Hf in F0|].
  destruct (fl (S n)) eqn:F1; [split; [done|]; intros Hf; by rewrite Hf in F1|].
  destruct (exec _ _) as [x|e] eqn:Ex; cbn; [|by split]. destruct (fl (S (S n))) eqn:F2; [split; [done|]; intros Hf; by rewrite Hf in F2|].
  cbn [sd_versions sd_data]. destruct (existsb _ _) eqn:Ee; cbn.
  - split; [done|]. intros _ _ Hn. destruct Hn. apply existsb_exists in Ee as (p & Hp & Hv). zb.
    apply list_elem_of_fmap. exists p. split; [done|by apply list_elem_of_In].
  - destruct (fl (S (S (S n)))) eqn:F3; [split; [done|]; intros Hf; by rewrite Hf in F3|]. split; [by exists x|done].
Qed.
Lemma apply_all_spec applied migs : ∀ fl n (d : DB) vs, sd_versions d = Some vs →
  let '(r, _, d') := apply_all exec applied migs fl n d in
  ∃ done, done `prefix_of` pending applied migs ∧ sd_versions d' = Some (vs ++ map stamp done) ∧
    run_bodies done (sd_data d) = Ok (sd_data d') ∧ (r = Ok tt → done = pending applied migs) ∧
    (no_faults fl → is_Ok (run_bodies (pending applied migs) (sd_data d)) = true →
     NoDup (vs.*1 ++ map version (pending applied migs)) → r = Ok tt).
Proof.
  induction migs as [|m migs IH]; intros fl n d vs Hv; cbn.
  { exists []. rewrite app_nil_r. split_all; done. }
  unfold pending. cbn [List.filter]. destruct (applied_in applied m); cbn [negb]; [by apply IH|]. fold (pending applied migs).
  unfold mbind, sql_bind, ctx_err. pose proof (applyOne_cases m fl n d) as H.
  destruct (applyOne exec m fl n d) as [[[[]|e] n1] d1]; destruct H as [H Hg].
  - destruct H as (x & Ex & ->). unfold recorded in *. rewrite Hv in *. cbn [default] in *.
    specialize (IH fl n1 (mkSchemaDB (Some (vs ++ [stamp m])) x) _ eq_refl).
    destruct (apply_all exec applied migs fl n1 _) as [[r n2] d2]. destruct IH as (l & Hp & Hs & Hr & Hd & Hok). cbn [sd_data] in *.
    exists (m :: l). split; [by apply prefix_cons|]. split; [by rewrite Hs, <- app_assoc|]. split; [cbn; by rewrite Ex|].
    split; [intros Hk; by rewrite (Hd Hk)|]. intros Hf Hb Hn. apply Hok; [done| |].
    + cbn in Hb. by rewrite Ex in Hb.
    + rewrite fmap_app. cbn. by rewrite <- app_assoc.
  - subst d1. exists []. rewrite app_nil_r. split; [apply prefix_nil|]. do 3 (split; [done|]). intros Hf Hb Hn.
    assert (He : Err e = Ok tt) by (apply Hg; [done| |]; [cbn in Hb; by destruct (exec _ _)|];
      unfold recorded; rewrite Hv; cbn in Hn |- *; apply NoDup_app in Hn as (_ & Hn & _); intros Hi; apply (Hn _ Hi); by left). done.
Qed.
Lemma refuse_spec applied migs :
  match refuse_newer walk applied migs with
  | Ok _ => Forall (λ v, v ≤ max_version (map version migs)) applied
  | Err e => errors_is e ErrSchemaNewer = true ∧ ∃ v, v ∈ applied ∧ max_version (map version migs) < v
  end.
Proof.
  unfold refuse_newer. destruct (find _ _) as [v|] eqn:E.
  - split; [reflexivity|]. apply find_some in E as [Hv Hl]. cbv beta in Hl. exists v. apply list_elem_of_In in Hv. rewrite walk_all in Hv. zb. by split.
  - apply Forall_forall. intros v Hv. rewrite <- (walk_all applied) in Hv. apply list_elem_of_In in Hv.
    pose proof (find_none _ _ E v Hv) as Hl. cbv beta in Hl. zb. lia.
Qed.
(** A complete table has nothing pending. *)
Lemma pending_none applied migs : Forall (λ m, version m ∈ applied) migs → pending applied migs = [].
Proof.
  induction 1 as [|m migs Hm _ IH]; [done|]. unfold pending in *. cbn.
  assert (E : applied_in applied m = true) by (apply existsb_exists; exists (version m); split; [by apply list_elem_of_In|apply Z.eqb_refl]).
  by rewrite E.
Qed.
Lemma pending_recorded applied migs : Forall (λ m, version m ∈ applied ++ map version (pending applied migs)) migs.
Proof.
  apply Forall_forall. intros m Hm. rewrite elem_of_app. destruct (applied_in applied m) eqn:E.
  - left. apply existsb_exists in E as (v & Hv & Ev). zb. subst v. by apply list_elem_of_In.
  - right. apply list_elem_of_fmap. exists m. split; [done|]. apply list_elem_of_In, filter_In. rewrite E. split; [by apply list_elem_of_In|done].
Qed.
Lemma pending_fresh applied migs : NoDup applied → NoDup (map version migs) → NoDup (applied ++ map version (pending applied migs)).
Proof.
  intros Ha Hm. apply NoDup_app. split; [done|]. split.
  - intros v Hv (m & -> & Hi)%list_elem_of_fmap. apply list_elem_of_In, filter_In in Hi as [_ Hi]. apply negb_true_iff in Hi.
    assert (applied_in applied m = true); [|congruence]. apply existsb_exists. exists (version m).
    split; [by apply list_elem_of_In|apply Z.eqb_refl].
  - unfold pending. induction migs as [|m migs IH]; [constructor|]. cbn in *. apply NoDup_cons in Hm as [Hm1 Hm2].
    destruct (negb _); [|by apply IH]. cbn. constructor; [|by apply IH]. intros (m' & E & Hi)%list_elem_of_fmap.
    apply Hm1, list_elem_of_fmap. exists m'. split; [done|]. apply list_elem_of_In, filter_In in Hi as [Hi _]. by apply list_elem_of_In.
Qed.
Lemma stamps_versions l : (map stamp l).*1 = map version l.
Proof. induction l as [|m l IH]; [done|]. cbn. by f_equal. Qed.
Lemma Migrate_cases fl n (d : DB) :
  let '(r, _, d') := Migrate fl n d in
  (is_Ok r = false ∧ sd_data d' = sd_data d ∧ recorded d' = recorded d) ∨
  ∃ migs k d1, loadMigrations dir = Ok migs ∧ refuse_newer walk (recorded d).*1 migs = Ok tt ∧
    sd_versions d1 = Some (recorded d) ∧ sd_data d1 = sd_data d ∧
    apply_all exec (recorded d).*1 migs fl (S (S n)) d1 = (r, k, d').
Proof.
  unfold Migrate.Migrate, readApplied. unfold mbind at 1 2 3 4, sql_bind, ctx_err at 1 2, query, stmt, sql_of, ensure. fold (recorded d).
  destruct (fl n); [by left|]. cbn. destruct (fl (S n)); [by left|].
  destruct (loadMigrations dir) as [migs|e] eqn:El; [|by left]. destruct (refuse_newer _ _ _) as [[]|e] eqn:Er; [|by left].
  destruct (apply_all _ _ _ _ _ _) as [[r k] d'] eqn:Ea. right. by exists migs, k, (mkSchemaDB (Some (recorded d)) (sd_data d)).
Qed.

Lemma max_version_ge l v : v ∈ l → v ≤ max_version l.
Proof.
  unfold max_version. assert (H : ∀ a, a ≤ foldl Z.max a l ∧ (v ∈ l → v ≤ foldl Z.max a l)); [|apply H].
  induction l as [|x l IH]; intros a; cbn; [split; [lia|by intros ?%elem_of_nil]|]. specialize (IH (Z.max a x)) as [H1 H2].
  split; [lia|]. intros [-> | Hv]%elem_of_cons; [lia|auto].
Qed.
Lemma apply_none applied migs fl n (d : DB) : pending applied migs = [] → apply_all exec applied migs fl n d = (Ok tt, n, d).
Proof.
  induction migs as [|m migs IH]; [done|]. unfold pending. cbn. destruct (applied_in applied m); [exact IH|done].
Qed.
Lemma Migrate_settled migs fl n (d : DB) :
  loadMigrations dir = Ok migs → Forall (λ m, version m ∈ (recorded d).*1) migs → refuse_newer walk (recorded d).*1 migs = Ok tt →
  let '(r, _, d') := Migrate fl n d in
  sd_data d' = sd_data d ∧ recorded d' = recorded d ∧ (no_faults fl → r = Ok tt).
Proof.
  intros El Ha Er. apply pending_none in Ha. unfold Migrate.Migrate, readApplied.
  unfold mbind at 1 2 3 4, sql_bind, ctx_err at 1 2, query, stmt, sql_of, ensure. fold (recorded d).
  destruct (fl n) eqn:F0; [split_all; [done|done|intros Hf; by rewrite Hf in F0]|]. cbn.
  destruct (fl (S n)) eqn:F1; [split_all; [done|done|intros Hf; by rewrite Hf in F1]|]. fold (recorded d).
  change (map fst (recorded d)) with ((recorded d).*1). rewrite El, Er.
  by rewrite apply_none.
Qed.

(** What a run comes to, stated for those that run it on the way: the first
    of the pending migrations ran and are recorded, after a success all. *)
Record brought (d d' : DB) (l : list migration) : Prop := {
  br_pending : l = [] ∨ ∃ migs, loadMigrations dir = Ok migs ∧ l `prefix_of` pending (recorded d).*1 migs;
  br_recorded : recorded d' = recorded d ++ map stamp l;
  br_ran : run_bodies l (sd_data d) = Ok (sd_data d')
}.
Definition all_applied (d : DB) (l : list migration) : Prop :=
  ∃ migs, loadMigrations dir = Ok migs ∧ l = pending (recorded d).*1 migs.
Lemma Migrate_brings fl n (d : DB) :
  let '(r, _, d') := Migrate fl n d in ∃ l, brought d d' l ∧ (r = Ok tt → all_applied d l).
Proof.
  pose proof (Migrate_cases fl n d) as H. destruct (Migrate fl n d) as [[r k] d'].
  destruct H as [(Hr & Ed & Er)|(migs & k' & d1 & El & _ & Ev & Ed & Ea)].
  - exists []. split; [|by intros ->]. split; [by left|by rewrite Er, app_nil_r|cbn; by rewrite Ed].
  - pose proof (apply_all_spec (recorded d).*1 migs fl (S (S n)) d1 _ Ev) as Hs. rewrite Ea, Ed in Hs.
    destruct Hs as (l & Hp & Hv & Hb & Hok & _). exists l. split; [|intros Hk; exists migs; by rewrite Hok].
    split; [right; by exists migs|unfold recorded; by rewrite Hv|done].
Qed.

(** C32. [Migrate] never leaves half a migration.  Whichever statement fails,
    the database is either as it was or has had the first of the files it had
    not recorded run on it, in the order of their numbers, each whole and each
    recorded as it ran; a success means all of them.  A database that records
    a number above every file's is refused and untouched.  A second run after
    a success changes nothing, and succeeds if its statements do; and if the
    statements do and every body runs, the first one succeeds. *)
Theorem Migrate_spec fl n (d : DB) :
  NoDup (recorded d).*1 →
  let '(r, _, d') := Migrate fl n d in
  let was := (recorded d).*1 in
  (is_Ok r = false ∧ sd_data d' = sd_data d ∧ recorded d' = recorded d) ∨
  ∃ migs done, loadMigrations dir = Ok migs ∧ StronglySorted older migs ∧
    Forall (λ v, v ≤ max_version (map version migs)) was ∧
    done `prefix_of` pending was migs ∧ recorded d' = recorded d ++ map stamp done ∧
    run_bodies done (sd_data d) = Ok (sd_data d') ∧
    (r = Ok tt → done = pending was migs ∧
       ∀ fl' m, let '(r2, _, d2) := Migrate fl' m d' in
         sd_data d2 = sd_data d' ∧ recorded d2 = recorded d' ∧ (no_faults fl' → r2 = Ok tt)) ∧
    (no_faults fl → is_Ok (run_bodies (pending was migs) (sd_data d)) = true → r = Ok tt).
Proof.
  intros Hn. cbv zeta. pose proof (Migrate_cases fl n d) as H. destruct (Migrate fl n d) as [[r k] d'].
  destruct H as [H|(migs & k' & d1 & El & Er & Ev & Ed & Ea)]; [by left|right].
  pose proof (loaded_order migs El) as [Hd Ho]. pose proof (refuse_spec (recorded d).*1 migs) as Hr. rewrite Er in Hr.
  pose proof (apply_all_spec (recorded d).*1 migs fl (S (S n)) d1 _ Ev) as Hs. rewrite Ea, Ed in Hs.
  destruct Hs as (l & Hp & Hv & Hb & Hok & Hgo). exists migs, l. do 4 (split; [done|]).
  assert (Hrec : recorded d' = recorded d ++ map stamp l) by (unfold recorded; by rewrite Hv). split; [done|]. split; [done|].
  split; [|intros Hf Hx; apply Hgo; [done..|by apply pending_fresh]].
  intros Hk. specialize (Hok Hk). split; [done|]. intros fl' m. subst l. apply (Migrate_settled migs); [done| |].
  - rewrite Hrec, fmap_app, stamps_versions. apply pending_recorded.
  - clear Er. unfold refuse_newer. destruct (find _ _) as [v|] eqn:F; [|done]. apply find_some in F as [Hv1 Hv2]. cbv beta in Hv2.
    apply list_elem_of_In in Hv1. rewrite walk_all, Hrec, fmap_app, stamps_versions in Hv1. zb.
    apply elem_of_app in Hv1 as [Hv1|Hv1]; [rewrite Forall_forall in Hr; specialize (Hr v Hv1); lia|].
    apply list_elem_of_fmap in Hv1 as (m' & -> & Hm). apply list_elem_of_In, filter_In in Hm as [Hm _]. apply list_elem_of_In in Hm.
    assert (version m' ≤ max_version (map version migs)); [|lia].
    apply max_version_ge, list_elem_of_fmap. by exists m'.
Qed.
End Proofs.

(** ** The four files of the repository *)

Definition embedded : res (list Entry) :=
  Ok [mkEntry "0001_initial.sql" false (Ok "initial"); mkEntry "0002_v2_multi_user.sql" false (Ok "multi");
      mkEntry "0003_idempotency.sql" false (Ok "idempotency"); mkEntry "0004_tokens_reshape.sql" false (Ok "tokens")].
(** What was run, in order; ["multi"] fails on an empty database. *)
Definition run_log (b : string) (l : list string) : res (list string) :=
  if str_eqb b "multi" && bool_decide (l = []) then Err (ENew "no such table: accounts") else Ok (l ++ [b]).
Example EmbeddedMaxVersion_example : EmbeddedMaxVersion embedded = Ok 4.
Proof. reflexivity. Qed.
Definition first_boot : SchemaDB (list string) := mkSchemaDB None [].
Definition migrated := Migrate run_log (λ l, l) embedded (λ _, None) 0%nat first_boot.
Lemma Migrate_spec_witness :
  migrated.1.1 = Ok tt ∧
  recorded migrated.2 = [(1, "initial"); (2, "v2_multi_user"); (3, "idempotency"); (4, "tokens_reshape")] ∧
  sd_data migrated.2 = ["initial"; "multi"; "idempotency"; "tokens"].
Proof.
  pose proof (Migrate_spec run_log (λ l, l) embedded (λ l, reflexivity l) (λ _, None) 0%nat first_boot (NoDup_nil_2)) as H.
  fold migrated in H. assert (Er : migrated.1.1 = Ok tt) by (vm_compute; reflexivity). split; [exact Er|].
  destruct migrated as [[r k] d']. cbn [fst snd] in *. subst r. destruct H as [[H _]|(migs & l & El & _ & _ & _ & Hr & Hb & Hk & _)].
  { discriminate H. }
  destruct (Hk eq_refl) as [-> _]. rewrite Hr. vm_compute in El. injection El as <-. split; [vm_compute; reflexivity|].
  revert Hb. generalize (sd_data d'). intros x Hb. vm_compute in Hb. injection Hb as <-. reflexivity.
Defined.
(** A crash while the third is committed, then another start. *)
Example migrate_resumes :
  let '(r, _, d) := Migrate run_log (λ l, l) embedded (λ n, if (n =? 10)%nat then Some (ENew "disk I/O error") else None) 0%nat first_boot in
  is_Ok r = false ∧ recorded d = [(1, "initial"); (2, "v2_multi_user")] ∧
  Migrate run_log (λ l, l) embedded (λ _, None) 0%nat d = (Ok tt, 10%nat, migrated.2).
Proof. vm_compute. split_all; reflexivity. Qed.
Example newer_refused :
  let d := mkSchemaDB (Some [(5, "later")]) ["later"] in
  match Migrate run_log (λ l, l) embedded (λ _, None) 0%nat d with
  | (Err e, _, d') => errors_is e ErrSchemaNewer = true ∧ d' = d
  | _ => False
  end.
Proof. vm_compute. split; reflexivity. Qed.
