(* ===== verification/Flags.v ===== *)
(** * Go's [flag] package, and the order of arguments

    [flag.FlagSet.Parse] with [ContinueOnError], as the commands of
    [cmd/resy-snipe] use it, the readers of its values ([strconv.ParseInt]
    with base 0, [strconv.ParseBool], [time.ParseDuration]), and
    [splitFlagsAndPositionals] of [user.go], which puts flags first.  The
    usage text that [flag] prints is not modelled. *)

From S2P Require Import Prelude Text Url GoTime GoFormat Types Codec.
From Stdlib Require Import Ascii SpecFloat.

(** ** [strconv] *)

Inductive NumRes := NumOk (z : Z) | NumSyntax | NumRange.
Definition lower_ascii (c : ascii) : ascii := ascii_of_nat (Nat.lor (nat_of_ascii c) 32).
Definition digit36 (c : ascii) : option Z :=
  match digit_val c with
  | Some d => Some d
  | None =>
      let n := Z.of_nat (nat_of_ascii (lower_ascii c)) in
      if (97 <=? n) && (n <=? 122) then Some (n - 87) else None
  end.
(** The digits of [ParseUint], underscores skipped when the base was 0. *)
Fixpoint uint_digits (base : Z) (under : bool) (n : Z) (s : string) : NumRes :=
  match s with
  | "" => NumOk n
  | String c s' =>
      if under && Ascii.eqb c "_" then uint_digits base under n s'
      else match digit36 c with
           | None => NumSyntax
           | Some d =>
               if base <=? d then NumSyntax
               else if 2 ^ 64 <=? n * base + d then NumRange else uint_digits base under (n * base + d) s'
           end
  end.
Definition has_underscore (s : string) : bool := has_char "_" s.
(** The base a prefix names, and the digits. *)
Definition int_base (s : string) : Z * string :=
  match s with
  | String "0" (String c (String d s')) =>
      let l := lower_ascii c in
      if Ascii.eqb l "b" then (2, String d s') else if Ascii.eqb l "o" then (8, String d s')
      else if Ascii.eqb l "x" then (16, String d s') else (8, String c (String d s'))
  | String "0" s' => (8, s')
  | _ => (10, s)
  end.
(** [underscoreOK]: [prev] is the kind of the character before. *)
Inductive Seen := SeenStart | SeenDigit | SeenUnderscore | SeenOther.
Fixpoint underscores (hex : bool) (prev : Seen) (s : string) : bool :=
  match s with
  | "" => match prev with SeenUnderscore => false | _ => true end
  | String c s' =>
      let n := nat_of_ascii (lower_ascii c) in
      if is_digit c || hex && (97 <=? n)%nat && (n <=? 102)%nat then underscores hex SeenDigit s'
      else if Ascii.eqb c "_"
           then match prev with SeenDigit => underscores hex SeenUnderscore s' | _ => false end
           else match prev with SeenUnderscore => false | _ => underscores hex SeenOther s' end
  end.
Definition underscoreOK (s : string) : bool :=
  match s with
  | String "0" (String c s') =>
      let l := lower_ascii c in
      if Ascii.eqb l "b" || Ascii.eqb l "o" then underscores false SeenDigit s'
      else if Ascii.eqb l "x" then underscores true SeenDigit s' else underscores false SeenStart s
  | _ => underscores false SeenStart s
  end.
(** [strconv.ParseUint(s, 0, 64)] and [strconv.ParseInt(s, 0, 64)]. *)
Definition ParseUint0 (s : string) : NumRes :=
  if is_empty s then NumSyntax
  else let '(base, digits) := int_base s in
       match uint_digits base true 0 digits with
       | NumOk n => if has_underscore s && negb (underscoreOK s) then NumSyntax else NumOk n
       | r => r
       end.
Definition ParseInt0 (s : string) : NumRes :=
  let '(neg, s') := match s with
                    | String "-" r => (true, r) | String "+" r => (false, r) | _ => (false, s) end in
  match ParseUint0 s' with
  | NumOk n =>
      if negb neg && (2 ^ 63 <=? n) || neg && (2 ^ 63 <? n) then NumRange
      else NumOk (if neg then - n else n)
  | r => r
  end.
Definition ParseBool (s : string) : option bool :=
  if existsb (str_eqb s) ["1"; "t"; "T"; "true"; "TRUE"; "True"] then Some true
  else if existsb (str_eqb s) ["0"; "f"; "F"; "false"; "FALSE"; "False"] then Some false
  else None.

(** ** [time.ParseDuration] *)

(** Digits below 2^63, or the overflow. *)
Fixpoint leadingInt (n : Z) (s : string) : option (Z * string) :=
  match s with
  | String c s' =>
      match digit_val c with
      | Some d =>
          if (2 ^ 63) / 10 <? n then None
          else if 2 ^ 63 <? n * 10 + d then None else leadingInt (n * 10 + d) s'
      | None => Some (n, s)
      end
  | "" => Some (n, "")
  end.
(** The digits after the point, as far as they fit, and their scale. *)
Fixpoint leadingFraction (f scale : Z) (over : bool) (s : string) : Z * Z * string :=
  match s with
  | String c s' =>
      match digit_val c with
      | Some d =>
          if over then leadingFraction f scale true s'
          else if (2 ^ 63 - 1) / 10 <? f then leadingFraction f scale true s'
          else if 2 ^ 63 <? f * 10 + d then leadingFraction f scale true s'
          else leadingFraction (f * 10 + d) (scale * 10) false s'
      | None => (f, scale, s)
      end
  | "" => (f, scale, "")
  end.
Definition unitMap (u : string) : option Z :=
  if str_eqb u "ns" then Some 1
  else if str_eqb u "us" || str_eqb u (bytes [194; 181; 115]%nat) || str_eqb u (bytes [206; 188; 115]%nat) then Some 1000
  else if str_eqb u "ms" then Some millisecond
  else if str_eqb u "s" then Some second
  else if str_eqb u "m" then Some minute
  else if str_eqb u "h" then Some hour
  else None.
Fixpoint unit_name (s : string) : string * string :=
  match s with
  | String c s' => if is_digit c || Ascii.eqb c "." then ("", s) else let '(u, r) := unit_name s' in (String c u, r)
  | "" => ("", "")
  end.
Definition float_mul (a b : spec_float) : spec_float := SFmul 53 1024 a b.
(** One number with its unit, in nanoseconds. *)
Definition duration_part (s : string) : option (Z * string) :=
  match leadingInt 0 s with
  | None => None
  | Some (v, s1) =>
      let pre := negb (String.length s1 =? String.length s)%nat in
      let '(f, scale, s2, post) :=
        match s1 with
        | String "." r => let '(f, scale, r') := leadingFraction 0 1 false r in
                          (f, scale, r', negb (String.length r' =? String.length r)%nat)
        | _ => (0, 1, s1, false)
        end in
      if negb pre && negb post then None
      else let '(u, s3) := unit_name s2 in
           match unitMap u with
           | None => None
           | Some unit =>
               if (2 ^ 63) / unit <? v then None
               else
                 let v := v * unit in
                 let v := if 0 <? f then v + float_trunc (float_mul (float_of f) (float_div (float_of unit) (float_of scale))) else v in
                 if 2 ^ 63 <? v then None else Some (v, s3)
           end
  end.
(** Every part takes a character, so the length is enough. *)
Fixpoint duration_parts (fuel : nat) (d : Z) (s : string) : option Z :=
  match fuel with
  | O => None
  | S fuel =>
      match s with
      | "" => Some d
      | String c _ =>
          if negb (is_digit c || Ascii.eqb c ".") then None
          else match duration_part s with
               | None => None
               | Some (v, s') => if 2 ^ 63 <? d + v then None else duration_parts fuel (d + v) s'
               end
      end
  end.
Definition ParseDuration (s : string) : option Z :=
  let '(neg, s') := match s with
                    | String "-" r => (true, r) | String "+" r => (false, r) | _ => (false, s) end in
  if str_eqb s' "0" then Some 0
  else if is_empty s' then None
  else match duration_parts (S (String.length s')) 0 s' with
       | None => None
       | Some d => if neg then Some (- d) else if 2 ^ 63 - 1 <? d then None else Some d
       end.
Example duration_examples :
  map ParseDuration ["30m"; "1h15m30.918s"; "-1.5h"; "0"; ".5s"; "5"; "h"; "9223372036854775808ns"; "-9223372036854775808ns"; ""]
  = [Some (30 * minute); Some 4530918000000; Some (- 90 * minute); Some 0; Some 500000000; None; None; None; Some (- 2 ^ 63); None].
Proof. vm_compute. reflexivity. Qed.
Example int_examples :
  map ParseInt0 ["2"; "-0x1F"; "1_000"; "010"; "0b11"; "1__0"; "0x"; ""; "9223372036854775808"; "-9223372036854775808"; "0_7"]
  = [NumOk 2; NumOk (-31); NumOk 1000; NumOk 8; NumOk 3; NumSyntax; NumSyntax; NumSyntax; NumRange; NumOk (- 2 ^ 63); NumOk 7].
Proof. vm_compute. reflexivity. Qed.

(** ** [flag] *)

Inductive FlagValue :=
| FString (s : string)
| FInt (z : Z)
| FBool (b : bool)
| FDuration (ns : Z).
(** The flags that are defined with their values, and the ones that were set. *)
Record FlagSet := mkFlagSet { fs_formal : gmap string FlagValue; fs_actual : list string }.
Definition NewFlagSet (l : list (string * FlagValue)) : FlagSet := mkFlagSet (list_to_map l) [].
Definition ErrHelp : error := ESentinel "flag: help requested".
Definition parse_error : error := ENew "parse error".
Definition num_error (r : NumRes) : res FlagValue :=
  match r with NumOk z => Ok (FInt z) | NumSyntax => Err parse_error | NumRange => Err (ENew "value out of range") end.
(** [Value.Set]. *)
Definition set_value (old : FlagValue) (s : string) : res FlagValue :=
  match old with
  | FString _ => Ok (FString s)
  | FInt _ => num_error (ParseInt0 s)
  | FBool _ => match ParseBool s with Some b => Ok (FBool b) | None => Err parse_error end
  | FDuration _ => match ParseDuration s with Some d => Ok (FDuration d) | None => Err parse_error end
  end.
Definition is_bool_flag (v : FlagValue) : bool := match v with FBool _ => true | _ => false end.
Definition put_flag (name : string) (v : FlagValue) (fs : FlagSet) : FlagSet :=
  mkFlagSet (<[name := v]> (fs_formal fs)) (fs_actual fs ++ [name]).
Definition set_flag (name value : string) (old : FlagValue) (fs : FlagSet) : res FlagSet :=
  match set_value old value with
  | Ok v => Ok (put_flag name v fs)
  | Err e =>
      Err (EWrap ((if is_bool_flag old then "invalid boolean value " else "invalid value ") +:+ fmt_q value
                  +:+ (if is_bool_flag old then " for -" else " for flag -") +:+ name +:+ ": " +:+ error_String e) [e])
  end.
(** What an argument is to the parser. *)
Inductive Token :=
| TStop
| TTerminator
| TBad
| TFlag (name : string) (value : option string).
Definition cut_eq (name : string) : string * option string :=
  match name with
  | "" => ("", None)
  | String c r => let '(a, b) := cut "=" r in (String c a, b)
  end.
Definition flag_token (s : string) : Token :=
  match s with
  | String "-" (String c r) =>
      if Ascii.eqb c "-" && is_empty r then TTerminator
      else
        let name := if Ascii.eqb c "-" then r else String c r in
        match name with
        | "" => TBad
        | String d _ =>
            if Ascii.eqb d "-" || Ascii.eqb d "=" then TBad
            else let '(n, v) := cut_eq name in TFlag n v
        end
  | _ => TStop
  end.
(** [parseOne] in a loop: the flags, and the arguments left. *)
Fixpoint Parse (fs : FlagSet) (args : list string) : res (FlagSet * list string) :=
  match args with
  | [] => Ok (fs, [])
  | s :: rest =>
      match flag_token s with
      | TStop => Ok (fs, args)
      | TTerminator => Ok (fs, rest)
      | TBad => Err (ENew ("bad flag syntax: " +:+ s))
      | TFlag name value =>
          match fs_formal fs !! name with
          | None => if existsb (str_eqb name) ["help"; "h"] then Err ErrHelp
                    else Err (ENew ("flag provided but not defined: -" +:+ name))
          | Some old =>
              if is_bool_flag old
              then fs' ← set_flag name (default "true" value) old fs; Parse fs' rest
              else match value, rest with
                   | Some v, _ => fs' ← set_flag name v old fs; Parse fs' rest
                   | None, v :: rest' => fs' ← set_flag name v old fs; Parse fs' rest'
                   | None, [] => Err (ENew ("flag needs an argument: -" +:+ name))
                   end
          end
      end
  end.
Definition get_string (fs : FlagSet) (name : string) : string :=
  match fs_formal fs !! name with Some (FString s) => s | _ => "" end.
Definition get_int (fs : FlagSet) (name : string) : Z := match fs_formal fs !! name with Some (FInt z) => z | _ => 0 end.
Definition get_bool (fs : FlagSet) (name : string) : bool := match fs_formal fs !! name with Some (FBool b) => b | _ => false end.
Definition get_duration (fs : FlagSet) (name : string) : Z := match fs_formal fs !! name with Some (FDuration d) => d | _ => 0 end.
Definition was_set (fs : FlagSet) (name : string) : bool := existsb (str_eqb name) (fs_actual fs).

(** ** [user.go]: flags first *)

Definition isKnownBoolFlag (name : string) : bool := existsb (str_eqb name) ["h"; "help"; "yes"].
Fixpoint TrimLeft_dash (s : string) : string := match s with String "-" r => TrimLeft_dash r | _ => s end.
Definition dashed (s : string) : bool := match s with String "-" _ => true | _ => false end.
Fixpoint splitFlagsAndPositionals (args : list string) : list string * list string :=
  match args with
  | [] => ([], [])
  | a :: rest =>
      if str_eqb a "--" then ([], rest)
      else if dashed a && negb (str_eqb a "-") then
        match rest with
        | v :: rest' =>
            if negb (has_char "=" a) && negb (dashed v) && negb (isKnownBoolFlag (TrimLeft_dash a))
            then let '(f, p) := splitFlagsAndPositionals rest' in (a :: v :: f, p)
            else let '(f, p) := splitFlagsAndPositionals rest in (a :: f, p)
        | [] => ([a], [])
        end
      else let '(f, p) := splitFlagsAndPositionals rest in (f, a :: p)
  end.
(** What the commands make of both: the flags, and every positional. *)
Definition parse_anywhere (fs : FlagSet) (args : list string) : res (FlagSet * list string) :=
  let '(flags, positionals) := splitFlagsAndPositionals args in
  '(fs', remaining) ← Parse fs flags;
  Ok (fs', positionals ++ remaining).

(** ** Fuel *)

Lemma leadingInt_length n s r : leadingInt n s = Some r → (String.length r.2 ≤ String.length s)%nat.
Proof.
  revert n. induction s as [|c s IH]; intros n; cbn; [by intros [= <-]|].
  destruct (digit_val c); [|by intros [= <-]]. destruct (_ <? _); [done|]. destruct (_ <? _); [done|]. intros H%IH. lia.
Qed.
Lemma leadingFraction_length f sc o s : (String.length (leadingFraction f sc o s).2 ≤ String.length s)%nat.
Proof.
  revert f sc o. induction s as [|c s IH]; intros f sc o; cbn; [lia|]. destruct (digit_val c); [|cbn; lia].
  destruct o; [specialize (IH f sc true); lia|]. destruct (_ <? _); [specialize (IH f sc true); lia|].
  destruct (_ <? _); [specialize (IH f sc true); lia|]. specialize (IH (f * 10 + z) (sc * 10) false). lia.
Qed.
Lemma unit_name_length s : String.length s = (String.length (unit_name s).1 + String.length (unit_name s).2)%nat.
Proof.
  induction s as [|c s IH]; cbn; [done|]. destruct (_ || _); [done|]. destruct (unit_name s). cbn in *. lia.
Qed.
Lemma unitMap_nonempty u k : unitMap u = Some k → (0 < String.length u)%nat.
Proof. destruct u; [done|cbn; lia]. Qed.
Lemma duration_part_shorter s v r : duration_part s = Some (v, r) → (String.length r < String.length s)%nat.
Proof.
  unfold duration_part. destruct (leadingInt 0 s) as [[n s1]|] eqn:E1; [|done]. apply leadingInt_length in E1. cbn in E1.
  set (frac := match s1 with String "." _ => _ | _ => _ end).
  assert (Hf : (String.length frac.1.2 ≤ String.length s1)%nat).
  { subst frac. destruct s1 as [|c s1]; [cbn; lia|]. destruct (Ascii.eqb_spec c ".") as [->|Hn].
    - pose proof (leadingFraction_length 0 1 false s1). destruct (leadingFraction _ _ _ _) as [[? ?] ?]. cbn in *. lia.
    - destruct c as [[] [] [] [] [] [] [] []]; cbn; try lia; by destruct Hn. }
  destruct frac as [[[f sc] s2] post]. cbn in Hf. destruct (_ && _); [done|].
  pose proof (unit_name_length s2) as Hu. destruct (unit_name s2) as [u s3]. cbn in Hu.
  destruct (unitMap u) eqn:Em; [|done]. apply unitMap_nonempty in Em. destruct (_ <? _); [done|]. destruct (_ <? _); [done|].
  intros [= _ <-]. lia.
Qed.
(** Any more fuel than the length gives the same. *)
Lemma duration_fuel fuel s : ∀ d,
  (String.length s < fuel)%nat → duration_parts fuel d s = duration_parts (S (String.length s)) d s.
Proof.
  enough (H : ∀ n fuel s d, (String.length s < fuel)%nat → (fuel ≤ n)%nat → ∀ fuel', (String.length s < fuel')%nat →
    duration_parts fuel d s = duration_parts fuel' d s).
  { intros d Hl. by apply (H fuel); [| |lia]. }
  clear. intros n. induction n as [|n IH]; intros fuel s d Hl Hn fuel' Hl'; [lia|].
  destruct fuel as [|fuel]; [lia|]. destruct fuel' as [|fuel']; [lia|]. cbn. destruct s as [|c s]; [done|].
  destruct (negb _); [done|]. destruct (duration_part _) as [[v r]|] eqn:E; [|done]. apply duration_part_shorter in E.
  destruct (_ <? _); [done|]. cbn in *. apply IH; lia.
Qed.

(** ** Arguments in any order *)

(** A flag is written with one dash or two; [--] ends the flags. *)
Inductive Dash := One | Two.
Inductive Arg :=
| Positional (p : string)
| Joined (dash : Dash) (name value : string)
| Paired (dash : Dash) (name value : string)
| Switch (dash : Dash) (name : string).
Definition dashes (d : Dash) : string := match d with One => "-" | Two => "--" end.
Definition render (a : Arg) : list string :=
  match a with
  | Positional p => [p]
  | Joined d n v => [dashes d +:+ n +:+ "=" +:+ v]
  | Paired d n v => [dashes d +:+ n; v]
  | Switch d n => [dashes d +:+ n]
  end.
(** What follows a terminator, if there is one. *)
Definition terminated (rest : option (list string)) : list string := match rest with Some l => "--" :: l | None => [] end.
Definition name_ok (n : string) : bool :=
  match n with String c _ => negb (Ascii.eqb c "-") | "" => false end && free "=" n.
(** Only the flags of [isKnownBoolFlag] stand alone, and no value that stands
    apart begins with a dash. *)
Definition arg_ok (a : Arg) : bool :=
  match a with
  | Positional p => negb (dashed p) || str_eqb p "-"
  | Joined _ n _ => name_ok n
  | Paired _ n v => name_ok n && negb (isKnownBoolFlag n) && negb (dashed v)
  | Switch _ n => name_ok n && isKnownBoolFlag n
  end.
Definition is_flag_arg (a : Arg) : bool := match a with Positional _ => false | _ => true end.
Definition positional (a : Arg) : list string := match a with Positional p => [p] | _ => [] end.
Lemma dash_name d n : name_ok n = true →
  str_eqb (dashes d +:+ n) "--" = false ∧ str_eqb (dashes d +:+ n) "-" = false ∧ TrimLeft_dash (dashes d +:+ n) = n ∧
  dashed (dashes d +:+ n) = true.
Proof.
  destruct n as [|c n]; [done|]. unfold name_ok. intros [Hc _]%andb_true_iff. apply negb_true_iff, Ascii.eqb_neq in Hc.
  assert (Ht : TrimLeft_dash (String c n) = String c n) by (destruct c as [[] [] [] [] [] [] [] []]; done).
  destruct d; split_all; try done; unfold str_eqb; apply bool_decide_eq_false_2; cbn; congruence.
Qed.
Lemma joined_name d n v : name_ok n = true →
  str_eqb (dashes d +:+ n +:+ "=" +:+ v) "--" = false ∧ str_eqb (dashes d +:+ n +:+ "=" +:+ v) "-" = false ∧
  has_char "=" (dashes d +:+ n +:+ "=" +:+ v) = true ∧ dashed (dashes d +:+ n +:+ "=" +:+ v) = true.
Proof.
  destruct n as [|c n]; [done|]. unfold name_ok. intros [Hc Hf]%andb_true_iff. apply negb_true_iff, Ascii.eqb_neq in Hc.
  destruct d; (split_all; [unfold str_eqb; apply bool_decide_eq_false_2; cbn; congruence|done| |done]).
  - change (dashes One +:+ String c n +:+ "=" +:+ v) with (String "-" (String c n) +:+ String "=" v). apply has_char_app. exact Hf.
  - change (dashes Two +:+ String c n +:+ "=" +:+ v) with (String "-" (String "-" (String c n)) +:+ String "=" v).
    apply has_char_app. exact Hf.
Qed.
Lemma split_step a l :
  arg_ok a = true →
  splitFlagsAndPositionals (render a ++ l)
  = let '(f, p) := splitFlagsAndPositionals l in
    ((if is_flag_arg a then render a else []) ++ f, positional a ++ p).
Proof.
  destruct a as [p|d n v|d n v|d n]; cbn [arg_ok render positional is_flag_arg app]; intros H; cbn [splitFlagsAndPositionals].
  - apply orb_true_iff in H as [H|H].
    + apply negb_true_iff in H. rewrite H. destruct (str_eqb p "--") eqn:E; [apply str_eqb_true in E; by subst|].
      by destruct (splitFlagsAndPositionals l).
    + apply str_eqb_true in H as ->. by destruct (splitFlagsAndPositionals l).
  - destruct (joined_name d n v H) as (-> & -> & -> & ->). cbn [andb negb]. destruct l as [|x l]; [done|].
    by destruct (splitFlagsAndPositionals (x :: l)).
  - apply andb_true_iff in H as [[Hn Hb]%andb_true_iff Hv]. destruct (dash_name d n Hn) as (-> & -> & -> & ->). rewrite Hb, Hv.
    unfold name_ok in Hn. apply andb_true_iff in Hn as [_ Hf].
    assert (Hc : has_char "=" (dashes d +:+ n) = false) by (apply has_char_free; destruct d; exact Hf).
    rewrite Hc. cbn [andb negb]. by destruct (splitFlagsAndPositionals l).
  - apply andb_true_iff in H as [Hn Hb]. destruct (dash_name d n Hn) as (-> & -> & -> & ->). rewrite Hb.
    cbn [andb negb]. destruct l as [|x l]; [done|].
    rewrite andb_false_r. by destruct (splitFlagsAndPositionals (x :: l)).
Qed.
Lemma split_args args rest :
  forallb arg_ok args = true →
  splitFlagsAndPositionals (flat_map render args ++ terminated rest)
  = (flat_map render (List.filter is_flag_arg args), flat_map positional args ++ default [] rest).
Proof.
  induction args as [|a args IH]; [by destruct rest|]. cbn [forallb flat_map List.filter]. intros [Ha Hl]%andb_true_iff.
  rewrite <- app_assoc, split_step by done. rewrite IH by done. by destruct a.
Qed.

(** What a flag means to a flag set that defines it. *)
Definition flag_for (fs : FlagSet) (a : Arg) : bool :=
  match a with
  | Positional _ => false
  | Joined _ n _ => match fs_formal fs !! n with Some _ => true | None => false end
  | Paired _ n _ => match fs_formal fs !! n with Some v => negb (is_bool_flag v) | None => false end
  | Switch _ n => match fs_formal fs !! n with Some v => is_bool_flag v | None => false end
  end.
Definition apply_flag (a : Arg) (fs : FlagSet) : res FlagSet :=
  let set n v := match fs_formal fs !! n with Some old => set_flag n v old fs | None => Ok fs end in
  match a with Positional _ => Ok fs | Joined _ n v => set n v | Paired _ n v => set n v | Switch _ n => set n "true" end.
Fixpoint apply_flags (args : list Arg) (fs : FlagSet) : res FlagSet :=
  match args with [] => Ok fs | a :: args => fs' ← apply_flag a fs; apply_flags args fs' end.
Lemma set_value_kind old s v : set_value old s = Ok v → is_bool_flag v = is_bool_flag old.
Proof.
  destruct old; cbn; [by intros [= <-]| | |]; [|by destruct (ParseBool s); [intros [= <-]|]|by destruct (ParseDuration s); [intros [= <-]|]].
  by destruct (ParseInt0 s); cbn; [intros [= <-]| |].
Qed.
Lemma set_flag_for n v old fs fs' a :
  fs_formal fs !! n = Some old → set_flag n v old fs = Ok fs' → flag_for fs' a = flag_for fs a.
Proof.
  intros Hn. unfold set_flag. destruct (set_value old v) as [x|] eqn:E; [|done]. intros [= <-]. apply set_value_kind in E.
  assert (H : ∀ m, is_bool_flag <$> fs_formal (put_flag n x fs) !! m = is_bool_flag <$> fs_formal fs !! m).
  { intros m. cbn. destruct (decide (n = m)) as [->|Hne]; [by rewrite lookup_insert_eq, Hn; cbn; rewrite E|by rewrite lookup_insert_ne]. }
  destruct a as [p|d m w|d m w|d m]; cbn [flag_for]; [done| | |]; specialize (H m);
    destruct (fs_formal (put_flag n x fs) !! m), (fs_formal fs !! m); cbn in H; try done; by injection H as ->.
Qed.
Lemma flag_token_name d n : name_ok n = true → flag_token (dashes d +:+ n) = TFlag n None.
Proof.
  destruct n as [|c n]; [done|]. unfold name_ok. intros [Hc Hf]%andb_true_iff. apply negb_true_iff in Hc.
  assert (Hd : Ascii.eqb c "=" = false) by (cbn in Hf; apply andb_true_iff in Hf as [Hf _]; destruct c as [[] [] [] [] [] [] [] []]; done).
  assert (Hcut : cut_eq (String c n) = (String c n, None)).
  { cbn [cut_eq]. rewrite cut_free; [done|]. cbn in Hf. by apply andb_true_iff in Hf as [_ Hf]. }
  destruct d; cbn [dashes String.append flag_token]; [rewrite Hc; cbn [andb]; rewrite Hc, Hd|rewrite Ascii.eqb_refl; cbn [andb is_empty]; rewrite Hc, Hd];
    cbn [orb]; by rewrite Hcut.
Qed.
Lemma flag_token_joined d n v : name_ok n = true → flag_token (dashes d +:+ n +:+ "=" +:+ v) = TFlag n (Some v).
Proof.
  destruct n as [|c n]; [done|]. unfold name_ok. intros [Hc Hf]%andb_true_iff. apply negb_true_iff in Hc.
  assert (Hd : Ascii.eqb c "=" = false) by (cbn in Hf; apply andb_true_iff in Hf as [Hf _]; destruct c as [[] [] [] [] [] [] [] []]; done).
  assert (Hcut : cut_eq (String c (n +:+ "=" +:+ v)) = (String c n, Some v)).
  { change ("=" +:+ v) with (String "=" v). cbn [cut_eq]. by rewrite (cut_app "=" n v) by (cbn in Hf; by apply andb_true_iff in Hf as [_ Hf]). }
  destruct d; cbn [dashes String.append flag_token]; [rewrite Hc; cbn [andb]; rewrite Hc, Hd|rewrite Ascii.eqb_refl; cbn [andb is_empty]; rewrite Hc, Hd];
    cbn [orb]; change (String c (n +:+ String "=" v)) with (String c (n +:+ "=" +:+ v)); by rewrite Hcut.
Qed.
Lemma Parse_flags args : ∀ fs,
  forallb is_flag_arg args = true → forallb arg_ok args = true → forallb (flag_for fs) args = true →
  Parse fs (flat_map render args) = (fs' ← apply_flags args fs; Ok (fs', [])).
Proof.
  induction args as [|a args IH]; intros fs; [done|]. cbn [forallb]. intros [Ha Hl]%andb_true_iff [Ho Hol]%andb_true_iff [Hf Hfl]%andb_true_iff.
  assert (Hgo : ∀ n v old, fs_formal fs !! n = Some old →
    (fs' ← set_flag n v old fs; Parse fs' (flat_map render args))
    = (fs' ← (fs' ← set_flag n v old fs; apply_flags args fs'); Ok (fs', []))).
  { intros n v old Hn. destruct (set_flag n v old fs) as [fs'|] eqn:E; [|done]. cbn. apply IH; [done|done|].
    rewrite <- Hfl. clear -Hn E. induction args as [|x args IH]; [done|]. cbn. by rewrite IH, (set_flag_for n v old fs fs' x Hn E). }
  destruct a as [p|d n v|d n v|d n]; cbn [arg_ok flag_for] in Ho, Hf; [done| | |]; cbn [flat_map render app apply_flags apply_flag Parse].
  - rewrite flag_token_joined by done. destruct (fs_formal fs !! n) as [old|] eqn:En; [|done].
    destruct (is_bool_flag old); cbn [default]; by apply Hgo.
  - apply andb_true_iff in Ho as [[Hn _]%andb_true_iff _]. rewrite flag_token_name by done.
    destruct (fs_formal fs !! n) as [old|] eqn:En; [|done]. apply negb_true_iff in Hf. rewrite Hf. by apply Hgo.
  - apply andb_true_iff in Ho as [Hn _]. rewrite flag_token_name by done.
    destruct (fs_formal fs !! n) as [old|] eqn:En; [|done]. rewrite Hf. cbn [default]. by apply Hgo.
Qed.
Lemma forallb_filter {A} (p q : A → bool) l : forallb p l = true → forallb p (List.filter q l) = true.
Proof. rewrite !forallb_forall. intros H x [Hx _]%filter_In. by apply H. Qed.
Lemma forallb_filter_self {A} (p : A → bool) l : forallb p (List.filter p l) = true.
Proof. rewrite forallb_forall. by intros x [_ H]%filter_In. Qed.

(** C36. The commands take flags and positional arguments in any order,
    flags with one dash or two, their values behind an equals sign or apart,
    and a terminator after which nothing is a flag.  When no value that
    stands apart begins with a dash and the switches of [isKnownBoolFlag],
    and no other flag, stand alone, parsing gives the flags applied in their
    order, with the first error among them, and all the positionals in
    theirs, those behind the terminator as they are. *)
Theorem flags_anywhere fs args rest :
  forallb arg_ok args = true → forallb (flag_for fs) (List.filter is_flag_arg args) = true →
  parse_anywhere fs (flat_map render args ++ terminated rest)
  = (fs' ← apply_flags (List.filter is_flag_arg args) fs; Ok (fs', flat_map positional args ++ default [] rest)).
Proof.
  intros Ha Hf. unfold parse_anywhere. rewrite split_args by done.
  rewrite Parse_flags by (done || apply forallb_filter_self || by apply forallb_filter).
  destruct (apply_flags _ fs); [|done]. cbn. by rewrite app_nil_r.
Qed.
(** [user invite x@y.io --role=admin], with more behind it. *)
Lemma flags_anywhere_witness :
  let fs := NewFlagSet [("role", FString "member"); ("reason", FString ""); ("yes", FBool false)] in
  let args := [Switch Two "yes"; Positional "x@y.io"; Joined Two "role" "admin"; Paired One "reason" "no"; Positional "-"] in
  let rest := Some ["-yes=0"; "--"] in
  let line := flat_map render args ++ terminated rest in
  line = ["--yes"; "x@y.io"; "--role=admin"; "-reason"; "no"; "-"; "--"; "-yes=0"; "--"]
  ∧ parse_anywhere fs line
    = (fs' ← apply_flags (List.filter is_flag_arg args) fs; Ok (fs', flat_map positional args ++ default [] rest))
  ∧ match parse_anywhere fs line with
    | Ok (fs', ps) =>
        get_string fs' "role" = "admin" ∧ get_string fs' "reason" = "no" ∧ get_bool fs' "yes" = true ∧
        ps = ["x@y.io"; "-"; "-yes=0"; "--"]
    | Err _ => False
    end.
Proof.
  split; [reflexivity|]. split; [|vm_compute; done].
  apply flags_anywhere; vm_compute; reflexivity.
Defined.
