(* ===== verification/NetIP.v ===== *)
(** * Packages [net] and [net/netip]: addresses

    [ParseIP] (with [netip.ParseAddr]), [SplitHostPort], [ParseCIDR] and
    [IPNet.Contains], as the daemon's proxy and loopback checks use them, and
    [ParseAddrPort] and [ParsePrefix], which its configuration is validated
    with.
    An [IP] is its bytes, most significant first: sixteen of them, the IPv4
    ones behind [v4InV6Prefix], or four after [To4].  The text of the
    package's errors is not modelled. *)

From S2P Require Import Prelude Text Json Url.
From Stdlib Require Import Ascii.

Notation IP := (list Z).
Definition v4InV6Prefix : list Z := [0; 0; 0; 0; 0; 0; 0; 0; 0; 0; 255; 255].
Definition To4 (ip : IP) : option IP :=
  if (length ip =? 4)%nat then Some ip
  else if (length ip =? 16)%nat && bool_decide (take 12 ip = v4InV6Prefix) then Some (drop 12 ip)
  else None.

(** ** [netip.ParseAddr] *)

(** One decimal field: digits, no leading zero, at most 255. *)
Definition v4_field (s : string) : option Z :=
  match s with
  | EmptyString => None
  | String c EmptyString => digit_val c
  | String c _ =>
      if Ascii.eqb c "0" then None
      else v ← read_digits 0 s; if 255 <? v then None else Some v
  end.
Definition parseIPv4Fields (s : string) : option IP :=
  match split_on "." s with
  | [a; b; c; d] => a ← v4_field a; b ← v4_field b; c ← v4_field c; d ← v4_field d; Some [a; b; c; d]
  | _ => None
  end.
(** The leading hexadecimal digits: their number, value, and the rest. *)
Fixpoint hex_run (n : nat) (acc : Z) (s : string) : nat * Z * string :=
  match s with
  | String c s' =>
      match hex_value c with
      | Some v => hex_run (S n) (16 * acc + Z.of_nat v) s'
      | None => (n, acc, s)
      end
  | EmptyString => (n, acc, s)
  end.
(** The loop over the groups: the bytes so far and where the ellipsis was.
    Every pass adds two bytes, so eight of them fill the address. *)
Fixpoint v6_groups (fuel : nat) (ip : IP) (ellipsis : option nat) (s : string) : option (IP * option nat * string) :=
  match fuel with
  | O => Some (ip, ellipsis, s)
  | S f =>
      let '(off, acc, rest) := hex_run 0 0 s in
      if (off =? 0)%nat || (4 <? off)%nat then None
      else if starts_with "." rest then
        if bool_decide (ellipsis = None) && negb (length ip =? 12)%nat then None
        else if (16 <? length ip + 4)%nat then None
        else v4 ← parseIPv4Fields s; Some (ip ++ v4, ellipsis, "")
      else
        let ip := ip ++ [acc / 256; acc mod 256] in
        match rest with
        | EmptyString => Some (ip, ellipsis, "")
        | String c s' =>
            if negb (Ascii.eqb c ":") then None
            else match s' with
                 | EmptyString => None
                 | String d s2 =>
                     if Ascii.eqb d ":" then
                       match ellipsis with
                       | Some _ => None
                       | None => if is_empty s2 then Some (ip, Some (length ip), "")
                                 else v6_groups f ip (Some (length ip)) s2
                       end
                     else v6_groups f ip ellipsis s'
                 end
        end
  end.
Definition v6_finish (r : IP * option nat * string) : option IP :=
  let '(ip, ellipsis, s) := r in
  if negb (is_empty s) then None
  else if (length ip <? 16)%nat then
    e ← ellipsis; Some (take e ip ++ replicate (16 - length ip) 0 ++ drop e ip)
  else match ellipsis with Some _ => None | None => Some ip end.
Definition parse_groups (s : string) : option IP :=
  match strip "::" s with
  | Some "" => Some (replicate 16 0)
  | Some s' => v6_groups 8 [] (Some 0%nat) s' ≫= v6_finish
  | None => v6_groups 8 [] None s ≫= v6_finish
  end.
(** With its zone, which is what follows a percent sign. *)
Definition parseIPv6 (s : string) : option (IP * string) :=
  match cut "%" s with
  | (s, None) => ip ← parse_groups s; Some (ip, "")
  | (s, Some zone) => if is_empty zone then None else ip ← parse_groups s; Some (ip, zone)
  end.
(** Four bytes or sixteen, and the zone.  The first of a dot, a colon and a
    percent sign decides. *)
Fixpoint first_mark (s : string) : option ascii :=
  match s with
  | EmptyString => None
  | String c s' => if Ascii.eqb c "." || Ascii.eqb c ":" || Ascii.eqb c "%" then Some c else first_mark s'
  end.
Definition ParseAddr (s : string) : option (IP * string) :=
  match first_mark s with
  | Some "."%char => ip ← parseIPv4Fields s; Some (ip, "")
  | Some ":"%char => parseIPv6 s
  | _ => None
  end.
(** Most callers refuse a zone. *)
Definition ParseAddr_plain (s : string) : option IP :=
  '(ip, zone) ← ParseAddr s; if is_empty zone then Some ip else None.
Definition As16 (ip : IP) : IP := if (length ip =? 4)%nat then v4InV6Prefix ++ ip else ip.
Definition ParseIP (s : string) : option IP := As16 <$> ParseAddr_plain s.

(** ** [netip.ParseAddrPort] and [netip.ParsePrefix] *)

Definition ParseAddrPort (s : string) : option (IP * string * Z) :=
  match cut_last ":" s with
  | None => None
  | Some (ip, port) =>
      if is_empty ip || is_empty port then None
      else
        let bracketed := starts_with "[" ip in
        ip ← (if bracketed then (if ends_with "]" ip then Some (drop_last (TrimPrefix ip "[")) else None) else Some ip);
        port ← read_digits 0 port;
        if 65535 <? port then None
        else '(addr, zone) ← ParseAddr ip;
             if Bool.eqb bracketed (length addr =? 4)%nat then None else Some (addr, zone, port)
  end.
Definition prefix_bits (bits : string) : option Z :=
  match bits with
  | String c (String _ _) => if (byte_of c <? 49) || (57 <? byte_of c) then None else read_digits 0 bits
  | String c EmptyString => digit_val c
  | EmptyString => None
  end.
Definition ParsePrefix (s : string) : option (IP * Z) :=
  match cut_last "/" s with
  | None => None
  | Some (addr, bits) =>
      ip ← ParseAddr_plain addr;
      n ← prefix_bits bits;
      if 8 * Z.of_nat (length ip) <? n then None else Some (ip, n)
  end.

(** ** [SplitHostPort], the host *)

Definition SplitHostPort (hostport : string) : option string :=
  match cut_last ":" hostport with
  | None => None
  | Some (host, port) =>
      match strip "[" hostport with
      | Some s =>
          if negb (has_char "]" s) then None
          else
            let host := before "]" s in
            let rest := after "]" s in
            match rest with
            | EmptyString => None
            | String c port =>
                if negb (Ascii.eqb c ":") || has_char ":" port then None
                else if has_char "[" s || has_char "]" rest then None
                else Some host
            end
      | None =>
          if has_char ":" host then None
          else if has_char "[" hostport || has_char "]" hostport then None
          else Some host
      end
  end.

(** ** [ParseCIDR] and [Contains] *)

Record IPNet := mkIPNet { n_IP : IP; n_Mask : list Z }.
Definition mask_byte (n : Z) : Z := if n <=? 0 then 0 else if 8 <=? n then 255 else 256 - 2 ^ (8 - n).
Definition CIDRMask (n : Z) (bytes : nat) : list Z :=
  map (λ j, mask_byte (n - 8 * Z.of_nat j)) (seq 0 bytes).
Definition mask_with (ip m : list Z) : list Z := zip_with Z.land ip m.
Definition ParseCIDR (s : string) : option IPNet :=
  match cut "/" s with
  | (_, None) => None
  | (addr, Some mask) =>
      ip ← ParseAddr_plain addr;
      n ← (if is_empty mask then None else read_digits 0 mask);
      if 8 * Z.of_nat (length ip) <? n then None
      else
        let m := CIDRMask n (length ip) in
        Some (mkIPNet (mask_with ip m) m)
  end.
(** [networkNumberAndMask]: an IPv4 network in sixteen bytes is cut to four,
    mask and all. *)
Definition networkNumberAndMask (n : IPNet) : option (IP * list Z) :=
  match To4 (n_IP n) with
  | Some nn =>
      if (length (n_Mask n) =? 4)%nat then Some (nn, n_Mask n)
      else if (length (n_Mask n) =? 16)%nat then Some (nn, drop 12 (n_Mask n)) else None
  | None => if (length (n_IP n) =? 16)%nat && (length (n_Mask n) =? 16)%nat then Some (n_IP n, n_Mask n) else None
  end.
Definition Contains (n : IPNet) (ip : IP) : bool :=
  match networkNumberAndMask n with
  | None => false
  | Some (nn, m) =>
      let ip := default ip (To4 ip) in
      (length ip =? length nn)%nat && bool_decide (mask_with nn m = mask_with ip m)
  end.
Definition IsLoopback (ip : IP) : bool :=
  match To4 ip with
  | Some ip4 => bool_decide (head ip4 = Some 127)
  | None => bool_decide (ip = replicate 15 0 ++ [1])
  end.

Example parse_ip_examples :
  ParseIP "192.168.1.9" = Some (v4InV6Prefix ++ [192; 168; 1; 9]) ∧
  ParseIP "::ffff:10.0.0.1" = Some (v4InV6Prefix ++ [10; 0; 0; 1]) ∧
  ParseIP "fd00::1:2" = Some ([253; 0] ++ replicate 11 0 ++ [1; 0; 2]) ∧
  map ParseIP ["1.2.3"; "1.2.3.04"; "1.2.3.256"; "::1%eth0"; "1:2:3:4:5:6:7"; "1::2::3"; "1:2:3:4:5:6:7::8"; ""; "::12345"]
    = repeat None 9.
Proof. repeat split; vm_compute; reflexivity. Qed.
Example addr_port_examples :
  ParseAddrPort "127.0.0.1:7765" = Some ([127; 0; 0; 1], "", 7765) ∧
  ParseAddrPort "[::1%lo]:80" = Some (replicate 15 0 ++ [1], "lo", 80) ∧
  map ParseAddrPort ["localhost:80"; ":80"; "::1:80"; "[1.2.3.4]:80"; "1.2.3.4:"; "1.2.3.4:65536"; "1.2.3.4"] = repeat None 7.
Proof. repeat split; vm_compute; reflexivity. Qed.
Example prefix_examples :
  ParsePrefix "fd00::/8" = Some (253 :: replicate 15 0, 8) ∧
  map ParsePrefix ["10.0.0.0/33"; "10.0.0.0/08"; " 10.0.0.0/8"; ""; "10.0.0.0"; "::1%lo/8"] = repeat None 6.
Proof. split; vm_compute; reflexivity. Qed.
Example split_host_port_examples :
  map SplitHostPort ["127.0.0.1:80"; "[::1]:80"; "::1"; "localhost"; "[::1]"; "[::1]x:80"; "a[b:80"; ":80"]
    = [Some "127.0.0.1"; Some "::1"; None; None; None; None; None; Some ""].
Proof. vm_compute. reflexivity. Qed.

(** ** Dotted addresses *)

Definition dotted (a b c d : Z) : string := fmt_d a +:+ "." +:+ fmt_d b +:+ "." +:+ fmt_d c +:+ "." +:+ fmt_d d.
Lemma v4_field_fmt z : 0 ≤ z < 256 → v4_field (fmt_d z) = Some z.
Proof.
  assert (H : all_below 256 (λ k, bool_decide (v4_field (fmt_d k) = Some k)) = true) by (vm_compute; reflexivity).
  intros Hz. by apply (all_below_spec _ _ H) in Hz as ->%bool_decide_eq_true_1.
Qed.
Lemma free_dotted c a b d e :
  is_digit c = false → Ascii.eqb c "-" = false → Ascii.eqb c "." = false → free c (dotted a b d e) = true.
Proof. intros H1 H2 H3. unfold dotted. rewrite !free_app, !free_fmt_d by done. unfold free. cbn. by rewrite H3. Qed.
Lemma first_mark_app s t :
  str_all (λ c, negb (Ascii.eqb c "." || Ascii.eqb c ":" || Ascii.eqb c "%")) s = true →
  first_mark (s +:+ String "." t) = Some "."%char.
Proof. induction s as [|c s IH]; cbn; [done|]. destruct (_ || _); cbn; [done|]. apply IH. Qed.
Lemma ParseIP_dotted a b c d :
  0 ≤ a < 256 → 0 ≤ b < 256 → 0 ≤ c < 256 → 0 ≤ d < 256 →
  ParseIP (dotted a b c d) = Some (v4InV6Prefix ++ [a; b; c; d]).
Proof.
  intros Ha Hb Hc Hd. unfold ParseIP, ParseAddr_plain, ParseAddr.
  assert (first_mark (dotted a b c d) = Some "."%char) as ->.
  { unfold dotted. cbn [String.append]. apply first_mark_app, str_all_fmt_pad; [|done].
    apply digits_pass_from. vm_compute. reflexivity. }
  unfold parseIPv4Fields, dotted. cbn [String.append].
  assert (Hf : ∀ z, free "." (fmt_d z) = true) by (intros; apply free_fmt_d; reflexivity).
  rewrite !split_on_app, split_on_free by apply Hf.
  by rewrite !v4_field_fmt by done.
Qed.
Lemma SplitHostPort_plain host port :
  free ":" host = true → free "[" host = true → free "]" host = true →
  free ":" port = true → free "[" port = true → free "]" port = true →
  SplitHostPort (host +:+ ":" +:+ port) = Some host.
Proof.
  intros H1 H2 H3 P1 P2 P3. unfold SplitHostPort. cbn [String.append]. rewrite cut_last_app by done.
  assert (strip "[" (host +:+ String ":" port) = None) as ->.
  { destruct host as [|c h]; [done|]. unfold free in H2. cbn [str_all] in H2. cbn [strip String.append].
    by destruct (Ascii.eqb "[" c). }
  rewrite (has_char_free ":" host) by done.
  rewrite !has_char_free; [done| |]; change (String ":" port) with (":" +:+ port); by rewrite !free_app, ?H2, ?H3, ?P2, ?P3.
Qed.

(** ** The text of an address *)

Definition addr_char (c : ascii) : bool :=
  Ascii.eqb c "." || Ascii.eqb c ":" || bool_decide (is_Some (hex_value c)).
Lemma addr_char_word : ∀ c, addr_char c = true → word_char c = true ∧ Ascii.eqb "/" c = false.
Proof. intros [[] [] [] [] [] [] [] []]; vm_compute; intros; split; congruence. Qed.
Lemma digit_addr_char : ∀ c, is_digit c = true → addr_char c = true.
Proof. intros [[] [] [] [] [] [] [] []]; vm_compute; congruence. Qed.
Lemma str_all_impl p q s : (∀ c, p c = true → q c = true) → str_all p s = true → str_all q s = true.
Proof.
  intros Hpq. induction s as [|c s IH]; cbn; [done|]. intros [Hc Hs]%andb_true_iff. by rewrite Hpq, IH.
Qed.
Lemma read_digits_all acc s z : read_digits acc s = Some z → str_all is_digit s = true.
Proof.
  revert acc. induction s as [|c s IH]; intros acc; cbn; [done|]. unfold is_digit.
  destruct (digit_val c); [|done]. apply IH.
Qed.
Lemma v4_field_all s z : v4_field s = Some z → str_all addr_char s = true.
Proof.
  intros H. apply (str_all_impl is_digit); [apply digit_addr_char|]. destruct s as [|c [|d s]]; [done| |].
  - cbn in H |- *. unfold is_digit. by rewrite H.
  - unfold v4_field in H. destruct (Ascii.eqb c "0"); [done|]. apply bind_Some in H as (v & H & _).
    by apply read_digits_all in H.
Qed.
Lemma split_on_all c p s : p c = true → Forall (λ x, str_all p x = true) (split_on c s) → str_all p s = true.
Proof.
  intros Hc. induction s as [|d s IH]; cbn; [done|]. destruct (Ascii.eqb_spec c d) as [->|].
  - intros [_ H]%Forall_cons. rewrite Hc. by apply IH.
  - destruct (split_on c s) as [|x l] eqn:E; intros [Hx H]%Forall_cons; cbn in Hx.
    + destruct s as [|e s]; cbn in E; [done|]. destruct (Ascii.eqb c e); [done|]. by destruct (split_on c s).
    + apply andb_true_iff in Hx as [-> Hx]. apply IH. by constructor.
Qed.
Lemma parseIPv4Fields_all s ip : parseIPv4Fields s = Some ip → length ip = 4%nat ∧ str_all addr_char s = true.
Proof.
  unfold parseIPv4Fields. intros H. destruct (split_on "." s) as [|x [|y [|z [|u []]]]] eqn:E; try done.
  repeat (apply bind_Some in H as (? & ?%v4_field_all & H)). injection H as <-. split; [done|].
  apply (split_on_all "."); [done|]. rewrite E. by repeat constructor.
Qed.
Lemma hex_run_all n acc s n' v rest :
  hex_run n acc s = (n', v, rest) → ∃ h, s = h +:+ rest ∧ str_all addr_char h = true.
Proof.
  revert n acc. induction s as [|c s IH]; intros n acc; cbn.
  - intros [= <- <- <-]. by exists "".
  - destruct (hex_value c) as [x|] eqn:Ec.
    + intros (h & -> & Hh)%IH. exists (String c h). split; [done|]. cbn. rewrite Hh, andb_true_r.
      unfold addr_char. by rewrite Ec, bool_decide_eq_true_2, orb_true_r by eauto.
    + intros [= <- <- <-]. by exists "".
Qed.
Lemma v6_groups_all fuel ip e s ip' e' :
  v6_groups fuel ip e s = Some (ip', e', "") → str_all addr_char s = true.
Proof.
  revert ip e s. induction fuel as [|f IH]; intros ip e s; cbn; [by intros [= _ _ ->]|].
  destruct (hex_run 0 0 s) as [[off acc] rest] eqn:Eh. destruct (_ || _); [done|].
  apply hex_run_all in Eh as (h & -> & Hh). destruct (starts_with "." rest).
  - destruct (_ && _); [done|]. case_match; [done|].
    intros (v4 & Hv%parseIPv4Fields_all & _)%bind_Some. by destruct Hv.
  - rewrite str_all_append, Hh. cbn [andb]. destruct rest as [|c s']; [done|].
    destruct (Ascii.eqb_spec c ":") as [->|]; [|done]. destruct s' as [|d s2]; [done|]. cbn [negb].
    destruct (Ascii.eqb_spec d ":") as [->|].
    + destruct e; [done|]. destruct (is_empty s2) eqn:E2; [|by intros H%IH].
      unfold is_empty, str_eqb in E2. by apply bool_decide_eq_true_1 in E2 as ->.
    + by intros H%IH.
Qed.
Lemma v6_finish_all r ip : v6_finish r = Some ip → r.2 = "".
Proof.
  destruct r as [[ip' e] s]. cbn. destruct (is_empty s) eqn:E; [|done]. intros _.
  unfold is_empty, str_eqb in E. by apply bool_decide_eq_true_1 in E.
Qed.
Lemma parse_groups_all s ip : parse_groups s = Some ip → str_all addr_char s = true.
Proof.
  assert (Hg : ∀ ip0 e t, v6_groups 8 ip0 e t ≫= v6_finish = Some ip → str_all addr_char t = true).
  { intros ip0 e t ([[i' e'] s'] & H & Hf)%bind_Some. pose proof (v6_finish_all _ _ Hf) as Hs. cbn in Hs. subst s'.
    by apply v6_groups_all in H. }
  unfold parse_groups. destruct (strip "::" s) as [s'|] eqn:E; [|apply Hg].
  apply strip_Some in E as ->. rewrite str_all_append. change (str_all addr_char "::") with true. cbn [andb].
  destruct s'; [done|apply Hg].
Qed.
Lemma cut_None c s t : cut c s = (t, None) → s = t.
Proof.
  revert t. induction s as [|d s IH]; intros t; cbn; [by intros [= <-]|].
  destruct (Ascii.eqb c d); [done|]. destruct (cut c s) as [a b]. intros [= <- ->]. by rewrite (IH a).
Qed.
Lemma ParseAddr_plain_all s ip : ParseAddr_plain s = Some ip → str_all addr_char s = true.
Proof.
  unfold ParseAddr_plain. intros ([ip' zone] & H & Hz)%bind_Some. unfold ParseAddr in H.
  destruct (first_mark s) as [c|]; [|done]. destruct c as [[] [] [] [] [] [] [] []]; try done.
  - apply bind_Some in H as (? & H%parseIPv4Fields_all & _). by destruct H.
  - unfold parseIPv6 in H. destruct (cut "%" s) as [t [z|]] eqn:Ec.
    + destruct (is_empty z) eqn:Ez; [done|]. apply bind_Some in H as (? & _ & [= <- <-]). by rewrite Ez in Hz.
    + apply bind_Some in H as (? & H & _). apply parse_groups_all in H.
      by rewrite (cut_None _ _ _ Ec).
Qed.
Lemma addr_free s : str_all addr_char s = true → free "/" s = true.
Proof. apply str_all_impl. intros c H%addr_char_word. by destruct H as [_ ->]. Qed.
Lemma cut_last_Some c s a b : cut_last c s = Some (a, b) → s = a +:+ String c b.
Proof.
  revert a b. induction s as [|d s IH]; intros a b; cbn; [done|].
  destruct (cut_last c s) as [[x y]|] eqn:E.
  - intros [= <- <-]. by rewrite (IH x y).
  - destruct (Ascii.eqb_spec c d) as [->|]; [|done]. by intros [= <- <-].
Qed.
Lemma prefix_bits_digits s n : prefix_bits s = Some n → read_digits 0 s = Some n ∧ is_empty s = false.
Proof.
  unfold prefix_bits. destruct s as [|c [|d s]]; [done| |].
  - cbn. intros H. by rewrite H.
  - destruct (_ || _); [done|]. intros H. by rewrite H.
Qed.
(** What [ParsePrefix] accepts, [ParseCIDR] does, with nothing to trim. *)
Lemma ParsePrefix_CIDR s r :
  ParsePrefix s = Some r → TrimSpace s = s ∧ is_empty s = false ∧ is_Some (ParseCIDR s).
Proof.
  unfold ParsePrefix. destruct (cut_last "/" s) as [[addr bits]|] eqn:E; [|done]. apply cut_last_Some in E as ->.
  intros (ip & Hip & (n & [Hn Hb]%prefix_bits_digits & Hlen)%bind_Some)%bind_Some.
  pose proof (ParseAddr_plain_all addr ip Hip) as Ha. split_all.
  - apply TrimSpace_word. rewrite str_all_append. cbn [str_all]. change (word_char "/") with true.
    rewrite (str_all_impl addr_char word_char) by (done || (intros c H; by apply addr_char_word in H as [])).
    cbn [andb]. apply read_digits_all in Hn. revert Hn. apply str_all_impl.
    intros c Hc. apply digit_addr_char, addr_char_word in Hc. by destruct Hc.
  - by destruct addr.
  - unfold ParseCIDR. rewrite cut_app by (by apply addr_free). rewrite Hip. cbn [mbind option_bind]. rewrite Hb, Hn.
    cbn [mbind option_bind]. destruct (_ <? _); [done|]. eauto.
Qed.
