(* ===== verification/Http.v ===== *)
(** * Requests as [net/http] and [net/url] write them

    Header names, [url.Values.Encode] and [base64], as the booking site's
    client uses them. *)

From S2P Require Import Prelude Text Json Url.
From Stdlib Require Import Ascii.

(** ** Headers *)

(** The bytes of a token. *)
Definition token_char (c : ascii) : bool :=
  bool_decide (is_Some (digit_val c)) || str_contains "abcdefghijklmnopqrstuvwxyzABCDEFGHIJKLMNOPQRSTUVWXYZ" (String c "")
  || str_contains "!#$%&'*+-.^_`|~" (String c "").
(** A letter is a capital after a hyphen and at the start. *)
Fixpoint canonical_go (upper : bool) (s : string) : string :=
  match s with
  | EmptyString => ""
  | String c s' => String (if upper then upper_char c else lower_char c) (canonical_go (Ascii.eqb c "-") s')
  end.
(** [CanonicalMIMEHeaderKey]: a name that is no token stays as it is. *)
Definition CanonicalHeaderKey (s : string) : string := if str_all token_char s then canonical_go true s else s.
Notation Header := (gmap string string).
(** [Header.Set], for a header whose every name has one value. *)
Definition header_Set (k v : string) (h : Header) : Header := <[CanonicalHeaderKey k := v]> h.

(** ** Query strings and forms *)

Definition unreserved (c : ascii) : bool :=
  alnum c || Ascii.eqb c "-" || Ascii.eqb c "_" || Ascii.eqb c "." || Ascii.eqb c "~".
Definition upper_hex (n : nat) : ascii := ascii_of_nat (if (n <? 10)%nat then 48 + n else 55 + n).
Definition escape_char (c : ascii) : string :=
  if unreserved c then String c ""
  else if Ascii.eqb c " " then "+"
  else let n := nat_of_ascii c in String "%" (String (upper_hex (n / 16)) (String (upper_hex (n mod 16)) "")).
Fixpoint QueryEscape (s : string) : string :=
  match s with EmptyString => "" | String c s' => escape_char c +:+ QueryEscape s' end.
(** [PathEscape], for one element of a path, and the path as [URL.String]
    writes it. *)
Definition percent (c : ascii) : string :=
  let n := nat_of_ascii c in String "%" (String (upper_hex (n / 16)) (String (upper_hex (n mod 16)) "")).
Fixpoint escape_but (keep : ascii → bool) (s : string) : string :=
  match s with EmptyString => "" | String c s' => (if keep c then String c "" else percent c) +:+ escape_but keep s' end.
Definition segment_char (c : ascii) : bool := unreserved c || str_contains "$&+:=@" (String c "").
Definition path_char (c : ascii) : bool := unreserved c || str_contains "$&+,/:;=@" (String c "").
Definition PathEscape (s : string) : string := escape_but segment_char s.
Definition EscapedPath (s : string) : string := escape_but path_char s.
(** [Values] with one value per key; [Encode] sorts by key. *)
Definition key_order (a b : string * string) : Prop := String.le a.1 b.1.
#[export] Instance key_order_dec : RelDecision key_order.
Proof. intros a b. unfold key_order. apply _. Defined.
Definition pair_text (kv : string * string) : string := QueryEscape kv.1 +:+ "=" +:+ QueryEscape kv.2.
Definition Encode (vs : list (string * string)) : string := str_join "&" (map pair_text (merge_sort key_order vs)).

(** ** [encoding/base64] *)

Definition sextet (url : bool) (c : ascii) : option Z :=
  let n := byte_of c in
  if (65 <=? n) && (n <=? 90) then Some (n - 65)
  else if (97 <=? n) && (n <=? 122) then Some (n - 71)
  else if (48 <=? n) && (n <=? 57) then Some (n + 4)
  else if n =? (if url then 45 else 43) then Some 62
  else if n =? (if url then 95 else 47) then Some 63
  else None.
Definition byte_str (z : Z) : string := String (ascii_of_nat (Z.to_nat (z mod 256))) "".
Definition three (a b c d : Z) : string :=
  byte_str (4 * a + b / 16) +:+ byte_str (16 * b + c / 4) +:+ byte_str (64 * c + d).
(** Line ends are skipped; the spare bits of a short last group are not
    looked at. *)
Definition without_newlines (s : string) : list ascii :=
  List.filter (λ c, negb (byte_of c =? 10) && negb (byte_of c =? 13)) (String.list_ascii_of_string s).
Fixpoint decode_raw (url : bool) (l : list ascii) : option string :=
  match l with
  | [] => Some ""
  | [a; b] => a ← sextet url a; b ← sextet url b; Some (byte_str (4 * a + b / 16))
  | [a; b; c] =>
      a ← sextet url a; b ← sextet url b; c ← sextet url c;
      Some (byte_str (4 * a + b / 16) +:+ byte_str (16 * b + c / 4))
  | a :: b :: c :: d :: l' =>
      a ← sextet url a; b ← sextet url b; c ← sextet url c; d ← sextet url d;
      r ← decode_raw url l'; Some (three a b c d +:+ r)
  | [_] => None
  end.
(** [RawURLEncoding.DecodeString]. *)
Definition RawURLDecode (s : string) : option string := decode_raw true (without_newlines s).
(** [StdEncoding.DecodeString]: whole groups, the last one padded. *)
Definition is_pad (c : ascii) : bool := Ascii.eqb c "=".
Fixpoint decode_padded (l : list ascii) : option string :=
  match l with
  | [] => Some ""
  | a :: b :: c :: d :: l' =>
      if is_pad c then (if is_pad d && bool_decide (l' = []) then decode_raw false [a; b] else None)
      else if is_pad d then (if bool_decide (l' = []) then decode_raw false [a; b; c] else None)
      else
        x ← decode_raw false [a; b; c; d];
        r ← decode_padded l'; Some (x +:+ r)
  | _ => None
  end.
Definition StdDecode (s : string) : option string := decode_padded (without_newlines s).

Example canonical_examples :
  map CanonicalHeaderKey ["x-resy-idempotency-key"; "CONTENT-type"; "bad header"]
  = ["X-Resy-Idempotency-Key"; "Content-Type"; "bad header"].
Proof. vm_compute. reflexivity. Qed.
Example encode_example :
  Encode [("struct_payment_method", "{1}"); ("book_token", "a+b/c d&e=f")]
  = "book_token=a%2Bb%2Fc+d%26e%3Df&struct_payment_method=%7B1%7D".
Proof. vm_compute. reflexivity. Qed.
Example base64_examples :
  (RawURLDecode "aGVsbG8td29ybGQ_", RawURLDecode "aGk", RawURLDecode "aGk=", StdDecode "aGk=", StdDecode "aGk", StdDecode "aA==")
  = (Some "hello-world?", Some "hi", None, Some "hi", None, Some "h").
Proof. vm_compute. reflexivity. Qed.

(** ** What is escaped is unescaped *)

Lemma unescape_char c u : unescape EncodeQuery (escape_char c +:+ u) = r ← unescape EncodeQuery u; Some (String c r).
Proof. destruct c as [[] [] [] [] [] [] [] []]; reflexivity. Qed.
Lemma unescape_QueryEscape s : unescape EncodeQuery (QueryEscape s) = Some s.
Proof. induction s as [|c s IH]; [done|]. cbn [QueryEscape]. by rewrite unescape_char, IH. Qed.

Lemma unescape_but keep s : keep "%"%char = false → unescape EncodePath (escape_but keep s) = Some s.
Proof.
  intros Hk. induction s as [|c s IH]; [done|]. cbn [escape_but].
  assert (H : ∀ r, unescape EncodePath (percent c +:+ r) = (x ← unescape EncodePath r; Some (String c x)))
    by (intros r; destruct c as [[] [] [] [] [] [] [] []]; reflexivity).
  destruct (keep c) eqn:E; [|by rewrite H, IH].
  assert (Hc : c ≠ "%"%char) by (intros ->; congruence). revert Hc. clear E H. change (String c "" +:+ ?r) with (String c r).
  destruct c as [[] [] [] [] [] [] [] []]; intros Hc; try (cbn [unescape]; by rewrite IH). by destruct Hc.
Qed.
Lemma escape_but_longer keep s : (String.length s ≤ String.length (escape_but keep s))%nat.
Proof. induction s as [|c s IH]; [done|]. cbn. destruct (keep c); cbn; lia. Qed.
Lemma escape_but_id keep s : escape_but keep s = s ↔ str_all keep s = true.
Proof.
  induction s as [|c s IH]; [done|]. cbn. destruct (keep c); cbn.
  { rewrite <- IH. split; [by intros [= H]|by intros ->]. }
  split; [|done].
  intros H. exfalso. pose proof (escape_but_longer keep s) as Hl. injection H as _ H.
  apply (f_equal String.length) in H. cbn in H. lia.
Qed.

(** ** What a form says is read from its text *)

Lemma escape_free : ∀ c d, In d ["&"; "="; ";"]%char → free d (escape_char c) = true.
Proof.
  intros c d Hd. destruct Hd as [<-|[<-|[<-|[]]]]; destruct c as [[] [] [] [] [] [] [] []]; reflexivity.
Qed.
Lemma QueryEscape_free d s : In d ["&"; "="; ";"]%char → free d (QueryEscape s) = true.
Proof. intros Hd. induction s as [|c s IH]; [done|]. cbn [QueryEscape]. by rewrite free_app, escape_free, IH. Qed.
Lemma pair_text_free d kv : In d ["&"; ";"]%char → free d (pair_text kv) = true.
Proof.
  intros Hd. unfold pair_text. rewrite !free_app, !QueryEscape_free by (destruct Hd as [<-|[<-|[]]]; cbn; auto).
  by destruct Hd as [<-|[<-|[]]].
Qed.
Lemma split_on_join c l :
  l ≠ [] → Forall (λ s, free c s = true) l → split_on c (str_join (String c "") l) = l.
Proof.
  induction l as [|s l IH]; [done|]. intros _ [Hs Hl]%Forall_cons. destruct l as [|t l].
  - cbn. by apply split_on_free.
  - change (str_join (String c "") (s :: t :: l)) with (s +:+ String c (str_join (String c "") (t :: l))).
    rewrite split_on_app by done. by rewrite IH.
Qed.
Lemma query_pair_text key k v : query_pair key (pair_text (k, v)) = if str_eqb k key then Some v else None.
Proof.
  unfold query_pair. rewrite has_char_free by (apply pair_text_free; cbn; auto). unfold pair_text, before, after. cbn [fst snd].
  destruct (is_empty _) eqn:E.
  { unfold is_empty, str_eqb in E. apply bool_decide_eq_true_1 in E. apply (f_equal String.length) in E.
    rewrite !length_append in E. cbn in E. lia. }
  cbn [orb]. change ("=" +:+ QueryEscape v) with (String "=" (QueryEscape v)).
  rewrite cut_app by (apply QueryEscape_free; cbn; auto). cbn [fst snd]. by rewrite !unescape_QueryEscape.
Qed.
Lemma omap_one {A B} (f : A → option B) l a b :
  NoDup l → In a l → f a = Some b → (∀ x, In x l → x ≠ a → f x = None) → omap f l = [b].
Proof.
  intros Hn Ha Hf Hx. induction l as [|x l IH]; [done|]. apply NoDup_cons in Hn as [Hxl Hn].
  assert (Hnone : ∀ l', (∀ y, In y l' → f y = None) → omap f l' = []).
  { clear. induction l' as [|y l' IH]; intros H; [done|]. cbn. rewrite (H y) by (by left). apply IH. intros z Hz. apply H. by right. }
  destruct Ha as [->|Ha]; cbn.
  - rewrite Hf. f_equal. apply Hnone. intros y Hy. apply Hx; [by right|]. intros ->. by apply Hxl, list_elem_of_In.
  - rewrite (Hx x); [|by left|intros ->; by apply Hxl, list_elem_of_In]. apply IH; auto. intros y Hy. apply Hx. by right.
Qed.
(** A form whose keys differ gives back every value. *)
Lemma query_Get_Encode vs k v : NoDup (map fst vs) → In (k, v) vs → query_Get (Encode vs) k = v.
Proof.
  intros Hn Hin. unfold query_Get, Encode. pose proof (merge_sort_Permutation key_order vs) as Hp.
  set (l := merge_sort key_order vs) in *. assert (Hl : In (k, v) l) by (apply list_elem_of_In; rewrite Hp; by apply list_elem_of_In).
  change "&" with (String "&" ""). rewrite split_on_join.
  - assert (Ho : omap (query_pair k) (map pair_text l) = omap (λ kv, query_pair k (pair_text kv)) l)
      by (clear; induction l as [|x l IH]; [done|]; cbn; by rewrite IH).
    rewrite Ho, (omap_one _ l (k, v) v); [done| |done| |].
    + eapply NoDup_fmap_1. rewrite Hp. exact Hn.
    + by rewrite query_pair_text, str_eqb_refl.
    + intros [k' v'] Hx Hne. rewrite query_pair_text. unfold str_eqb. case_bool_decide as Hk; [|done]. subst k'.
      destruct Hne. f_equal. apply list_elem_of_In in Hl, Hx. rewrite Hp in Hl, Hx.
      apply list_elem_of_lookup in Hl as [i Hi], Hx as [j Hj].
      assert (i = j) as ->; [|congruence].
      apply (NoDup_lookup (map fst vs) i j k Hn); change (map fst vs) with (fst <$> vs); rewrite list_lookup_fmap.
      * by rewrite Hi.
      * by rewrite Hj.
  - destruct l; [done|discriminate].
  - apply List.Forall_map, Forall_forall. intros x _. apply pair_text_free. cbn. auto.
Qed.
