(* ===== verification/Goal.v ===== *)
(** * [domain/goal.go]: what a goal must satisfy, and how it prints *)

From S2P Require Import Prelude GoTime GoFormat Types Status Slots Drop Json Hash Text Url.
From Stdlib Require Import Ascii.

Definition ErrGoalDateInPast : error := ESentinel "goal: date is in the past".
Definition ErrGoalDateZero : error := ESentinel "goal: date is required".
Definition ErrGoalPartyNonPositive : error := ESentinel "goal: party must be positive".
Definition ErrGoalTimeWindowEmpty : error := ESentinel "goal: time window is required".
Definition ErrGoalTimeWindowInverted : error := ESentinel "goal: time window start is after end".
Definition ErrGoalVenueQueryMissing : error := ESentinel "goal: venue query is required".
Definition ErrGoalVenueQueryHost : error := ESentinel "goal: venue URL host is not a Resy domain".
Definition ErrGoalAccountMissing : error := ESentinel "goal: account id is required".

Definition resyHosts : list string := ["resy.com"; "www.resy.com"].

Section Goal.
(** A bracketed host, and [unicode]'s lower-case table (Url.v, Text.v). *)
Context (ip_literal : string → option string) (unicode_lower : string → string).

Definition blank (s : string) : bool := is_empty (TrimSpace s).
Definition known_host (h : string) : bool := existsb (str_eqb h) resyHosts.
(** [None] is a nil error. *)
Definition validateVenueQuery (q : VenueQuery) : option error :=
  match q with
  | VenueQueryURL u =>
      if blank u then Some ErrGoalVenueQueryMissing
      else
        match url_Parse ip_literal u with
        | None => Some (wrap "goal: invalid venue url: " (ENew "parse"))
        | Some url =>
            if known_host (ToLower unicode_lower (url_Hostname url)) then None
            else Some ErrGoalVenueQueryHost
        end
  | VenueQuerySlug slug city => if blank slug || blank city then Some ErrGoalVenueQueryMissing else None
  | VenueQueryName name => if blank name then Some ErrGoalVenueQueryMissing else None
  end.
Definition todayStart (now : Time) : Time :=
  let u := to_utc now in go_date (t_year u) (t_month u) (t_day u) 0 0 0 0 UTC.
Definition wallTimeAfter (a b : WallTime) : bool :=
  if negb (w_hour a =? w_hour b) then w_hour b <? w_hour a
  else if negb (w_minute a =? w_minute b) then w_minute b <? w_minute a
  else w_second b <? w_second a.
Definition goal_Validate (g : Goal) (now : Time) : option error :=
  match g_VenueQuery g with
  | None => Some ErrGoalVenueQueryMissing
  | Some q =>
      match validateVenueQuery q with
      | Some e => Some e
      | None =>
          if is_empty (g_AccountID g) then Some ErrGoalAccountMissing
          else if date_IsZero (g_Date g) then Some ErrGoalDateZero
          else if time_before (date_In (g_Date g) UTC) (todayStart now) then Some ErrGoalDateInPast
          else if g_Party g <=? 0 then Some ErrGoalPartyNonPositive
          else if window_IsZero (g_TimePrefs g) then Some ErrGoalTimeWindowEmpty
          else if wallTimeAfter (tw_Start (g_TimePrefs g)) (tw_End (g_TimePrefs g))
               then Some ErrGoalTimeWindowInverted
          else None
      end
  end.
End Goal.

(** [Goal.String]. *)
Definition goal_String (g : Goal) : string :=
  "Goal{" +:+ nl
  +:+ (match g_VenueQuery g with
       | Some q => "  venue:   " +:+ venueQuery_String q +:+ nl
       | None => "  venue:   <nil>" +:+ nl
       end)
  +:+ "  date:    " +:+ date_String (g_Date g) +:+ nl
  +:+ "  party:   " +:+ fmt_d (g_Party g) +:+ nl
  +:+ "  window:  " +:+ wall_String (tw_Start (g_TimePrefs g)) +:+ ".."
  +:+ wall_String (tw_End (g_TimePrefs g)) +:+ " priority="
  +:+ priority_String (tw_Priority (g_TimePrefs g)) +:+ nl
  +:+ "  account: " +:+ g_AccountID g +:+ nl
  +:+ (match c_TableTypes (g_Constraints g) with
       | [] => ""
       | l => "  tables:  " +:+ str_join "," l +:+ nl
       end)
  +:+ (if c_AnyTable (g_Constraints g) then "  tables:  <any>" +:+ nl else "")
  +:+ "}".

(** ** What validation guarantees *)

Definition wall_seconds (w : WallTime) : Z := w_hour w * 3600 + w_minute w * 60 + w_second w.
Lemma wallTimeAfter_spec a b :
  valid_wall a = true → valid_wall b = true →
  wallTimeAfter a b = (wall_seconds b <? wall_seconds a).
Proof.
  unfold valid_wall, valid_clock, wallTimeAfter, wall_seconds. intros Ha Hb. zb.
  destruct (w_hour a =? w_hour b) eqn:E1; cbn [negb]; zb;
    [destruct (w_minute a =? w_minute b) eqn:E2; cbn [negb]; zb|];
    apply eq_true_iff_eq; rewrite !Z.ltb_lt; lia.
Qed.
(** Days since the epoch, in UTC. *)
Definition date_days (d : Date) : Z := days_of_civil (d_year d) (d_month d) (d_day d).
Lemma date_In_utc d : valid_date d = true → t_ns (date_In d UTC) = date_days d * 86400 * second.
Proof.
  intros Hv. unfold date_In, go_date. cbn [t_ns]. unfold valid_date in Hv.
  rewrite wall_secs_valid by done. unfold zone_search, lookup_zone. cbn.
  unfold date_days. unfold second. lia.
Qed.
Lemma todayStart_ns now : t_ns (todayStart now) = t_ns now / (86400 * second) * (86400 * second).
Proof.
  unfold todayStart. destruct (utc_fields (t_ns now)) as (Hv & _).
  change (to_utc now) with (utc (t_ns now)). unfold go_date. cbn [t_ns].
  rewrite wall_secs_valid by done. unfold zone_search, lookup_zone. cbn [loc_tx UTC lookup_go].
  unfold t_year, t_month, t_day in *. destruct (t_date (utc (t_ns now))) as [[y m] d] eqn:E.
  cbn [fst snd] in *. apply days_of_civil_of_days in E as [E _].
  assert (El : local_secs (utc (t_ns now)) = t_ns now / second) by
    (unfold local_secs; change (offset_at _ _) with 0; apply Z.add_0_r).
  rewrite El, Z.div_div in E by done. rewrite E. rewrite (Z.mul_comm second 86400).
  cbn. unfold second. lia.
Qed.

Section Validation.
Context (ip_literal : string → option string) (unicode_lower : string → string).

(** A query the resolver can work with. *)
Definition query_usable (q : VenueQuery) : Prop :=
  match q with
  | VenueQueryURL u =>
      TrimSpace u ≠ "" ∧ ∃ url, url_Parse ip_literal u = Some url ∧
        ToLower unicode_lower (url_Hostname url) ∈ resyHosts
  | VenueQuerySlug slug city => TrimSpace slug ≠ "" ∧ TrimSpace city ≠ ""
  | VenueQueryName name => TrimSpace name ≠ ""
  end.
Lemma blank_spec s : blank s = true ↔ TrimSpace s = "".
Proof. unfold blank, is_empty. apply str_eqb_true. Qed.
Lemma known_host_spec h : known_host h = true ↔ h ∈ resyHosts.
Proof.
  unfold known_host. rewrite existsb_exists. split.
  - intros (x & Hx%list_elem_of_In & ->%str_eqb_true). done.
  - intros H. exists h. split; [by apply list_elem_of_In|apply str_eqb_refl].
Qed.
Lemma validateVenueQuery_spec q :
  validateVenueQuery ip_literal unicode_lower q = None ↔ query_usable q.
Proof.
  destruct q as [u|s c|n]; cbn [validateVenueQuery query_usable].
  - rewrite <- (blank_spec u). destruct (blank u); [naive_solver|].
    destruct (url_Parse ip_literal u) as [url|]; [|naive_solver].
    destruct (known_host _) eqn:E.
    + apply known_host_spec in E. naive_solver.
    + split; [done|]. intros (_ & x & [= ->] & Hx%known_host_spec). congruence.
  - rewrite <- (blank_spec s), <- (blank_spec c). destruct (blank s), (blank c); naive_solver.
  - rewrite <- (blank_spec n). destruct (blank n); naive_solver.
Qed.

(** A goal of well-formed dates and times is accepted exactly when its
    venue query is usable (a URL only on a Resy host), it names an account,
    its date is not before the current UTC day, its party is positive and
    its window is neither the zero window nor inverted; and an accepted
    goal is never refused by the planner's slot expansion. *)
Theorem goal_Validate_spec g now :
  valid_date (g_Date g) = true → valid_wall (tw_Start (g_TimePrefs g)) = true →
  valid_wall (tw_End (g_TimePrefs g)) = true →
  (goal_Validate ip_literal unicode_lower g now = None ↔
   (∃ q, g_VenueQuery g = Some q ∧ query_usable q) ∧ g_AccountID g ≠ "" ∧
   t_ns now / (86400 * second) ≤ date_days (g_Date g) ∧ 0 < g_Party g ∧
   window_IsZero (g_TimePrefs g) = false ∧
   wall_seconds (tw_Start (g_TimePrefs g)) ≤ wall_seconds (tw_End (g_TimePrefs g))) ∧
  (goal_Validate ip_literal unicode_lower g now = None →
   ∃ prefs, ExpandSlots (g_TimePrefs g) (g_Constraints g) = Ok prefs ∧ prefs ≠ []).
Proof.
  intros Hd Hs He.
  assert (Hz : date_IsZero (g_Date g) = false).
  { unfold date_IsZero. apply bool_decide_eq_false_2. intros E. by rewrite E in Hd. }
  assert (Hp : time_before (date_In (g_Date g) UTC) (todayStart now) = false ↔
               t_ns now / (86400 * second) ≤ date_days (g_Date g)).
  { unfold time_before. rewrite date_In_utc, todayStart_ns, Z.ltb_ge by done. unfold second.
    split; intros; nia. }
  pose proof (wallTimeAfter_spec _ _ Hs He) as Hw.
  unfold goal_Validate. destruct (g_VenueQuery g) as [q|]; [|naive_solver].
  pose proof (validateVenueQuery_spec q) as Hq.
  destruct (validateVenueQuery ip_literal unicode_lower q) as [e|]; [naive_solver|].
  rewrite Hz, Hw. unfold is_empty.
  destruct (str_eqb (g_AccountID g) "") eqn:Ea.
  { apply str_eqb_true in Ea. naive_solver. }
  apply bool_decide_eq_false_1 in Ea.
  destruct (time_before _ _) eqn:Et.
  { split; [|done]. split; [done|]. intros (_ & _ & Hc & _). by apply Hp in Hc. }
  apply proj1 in Hp. specialize (Hp eq_refl).
  destruct (g_Party g <=? 0) eqn:Epa; zb; [split; [|done]; split; [done|]; intros (_ & _ & _ & ? & _); lia|].
  destruct (window_IsZero _); [naive_solver|].
  destruct (wall_seconds _ <? wall_seconds _) eqn:Ew; zb;
    [split; [|done]; split; [done|]; intros (_ & _ & _ & _ & _ & ?); lia|].
  split; [split; [intros _|done]; split_all; try done; exists q; split; [done|by apply Hq]|].
  intros _. eexists. split; [apply ExpandSlots_Ok; try done|].
  - intros E. apply (f_equal length) in E. rewrite length_cross, length_candidate_times in E by done.
    assert (Hsc : (0 < step_count (g_TimePrefs g))%nat).
    { unfold step_count, SlotStepV1. unfold wall_seconds in Ew. unfold valid_wall, valid_clock in Hs, He. zb.
      unfold minutesOfDay in *. Z.div_mod_to_equations; lia. }
    assert (Hnt : (0 < length (normalizeTables (g_Constraints g)))%nat).
    { unfold normalizeTables. destruct (c_AnyTable _); cbn; [lia|]. case_bool_decide; cbn; lia. }
    cbn in E. nia.
Qed.
End Validation.

Lemma goal_Validate_spec_witness :
  ∃ prefs, ExpandSlots (g_TimePrefs (sample_goal [])) (g_Constraints (sample_goal [])) = Ok prefs ∧ prefs ≠ [].
Proof.
  apply (goal_Validate_spec (λ _, None) (λ s, s) (sample_goal []) zero_time); vm_compute; reflexivity.
Defined.
