(* ===== verification/Cache.v ===== *)
(** * [store/cache.go]: the resolver's two caches

    Venues by (slug, city) and search results by normalised name, with the
    second each was stored; shared by all users. *)

From S2P Require Import Prelude GoTime GoFormat Types Status Slots Drop Json Hash Codec Sql Tenant.

Definition ErrCacheMiss : error := ESentinel "store: cache miss".
Record VenueCacheEntry := mkVenueCacheEntry {
  vc_Slug : string;
  vc_City : string;
  vc_Venue : Venue;
  vc_CachedAt : Time
}.
Record NameSearchCacheEntry := mkNameSearchCacheEntry {
  nc_Query : string;
  nc_Hits : list Venue;
  nc_CachedAt : Time
}.

(** ** The tables *)

Record venueJSON := mkVenueJSON { vj_Provider : string; vj_Ref : string; vj_Name : string; vj_TZ : string }.
Record VenueCacheRec := mkVenueCacheRec {
  vcr_slug : string;
  vcr_city : string;
  vcr_venue : venueJSON;
  vcr_at : Z
}.
Record NameCacheRec := mkNameCacheRec { ncr_query : string; ncr_hits : list venueJSON; ncr_at : Z }.
Record CacheDB := mkCacheDB { cb_venues : list VenueCacheRec; cb_names : list NameCacheRec }.
Definition empty_cache : CacheDB := mkCacheDB [] [].
Notation CSQL := (SqlOf CacheDB).

Definition encodeVenue (v : Venue) : venueJSON :=
  mkVenueJSON (v_Provider v) (v_Ref v) (v_Name v) (venue_tz v).

Section Cache.
(** The time-zone database behind [time.LoadLocation]. *)
Context (LoadLocation : string → res Location).

Definition decode_venue (j : venueJSON) : res Venue :=
  if is_empty (vj_TZ j) then Ok (mkVenue (vj_Provider j) (vj_Ref j) (vj_Name j) None)
  else
    match LoadLocation (vj_TZ j) with
    | Ok loc => Ok (mkVenue (vj_Provider j) (vj_Ref j) (vj_Name j) (Some loc))
    | Err e => Err (wrap ("cache: load tz " +:+ fmt_q (vj_TZ j) +:+ ": ") e)
    end.

(** Replace the row with the same key, or append: [ON CONFLICT DO UPDATE]. *)
Definition upsert {A} (hit : A → bool) (row : A) (l : list A) : list A :=
  if existsb hit l then map (λ x, if hit x then row else x) l else l ++ [row].
Definition venue_key (slug city : string) (r : VenueCacheRec) : bool :=
  str_eqb (vcr_slug r) slug && str_eqb (vcr_city r) city.
Definition name_key (q : string) (r : NameCacheRec) : bool := str_eqb (ncr_query r) q.

Definition UpsertVenueCache (e : VenueCacheEntry) : CSQL unit :=
  if is_empty (vc_Slug e) || is_empty (vc_City e)
  then sql_of (Err (ENew "UpsertVenueCache: slug and city are required"))
  else
    ctx_err "UpsertVenueCache: "
      (stmt (λ d, (Ok tt, mkCacheDB
         (upsert (venue_key (vc_Slug e) (vc_City e))
            (mkVenueCacheRec (vc_Slug e) (vc_City e) (encodeVenue (vc_Venue e)) (t_unix (vc_CachedAt e)))
            (cb_venues d)) (cb_names d)))).
Definition GetVenueCache (slug city : string) : CSQL VenueCacheEntry :=
  row ← ctx_err "GetVenueCache: " (query (λ d, Ok (find (venue_key slug city) (cb_venues d))));
  sql_of (match row with
          | None => Err (wrap ("venue " +:+ slug +:+ "/" +:+ city +:+ ": ") ErrCacheMiss)
          | Some r =>
              match decode_venue (vcr_venue r) with
              | Ok v => Ok (mkVenueCacheEntry slug city v (of_unix (vcr_at r)))
              | Err e => Err (wrap "GetVenueCache: " e)
              end
          end).
Definition UpsertNameSearchCache (q : string) (hits : list Venue) (cachedAt : Time) : CSQL unit :=
  if is_empty q then sql_of (Err (ENew "UpsertNameSearchCache: query is required"))
  else
    ctx_err "UpsertNameSearchCache: "
      (stmt (λ d, (Ok tt, mkCacheDB (cb_venues d)
         (upsert (name_key q) (mkNameCacheRec q (map encodeVenue hits) (t_unix cachedAt)) (cb_names d))))).
Definition GetNameSearchCache (q : string) : CSQL NameSearchCacheEntry :=
  row ← ctx_err "GetNameSearchCache: " (query (λ d, Ok (find (name_key q) (cb_names d))));
  sql_of (match row with
          | None => Err (wrap ("name " +:+ fmt_q q +:+ ": ") ErrCacheMiss)
          | Some r =>
              match each decode_venue (ncr_hits r) with
              | Ok l => Ok (mkNameSearchCacheEntry q l (of_unix (ncr_at r)))
              | Err e => Err (wrap "GetNameSearchCache: " e)
              end
          end).

(** ** Reading back what was stored *)

(** A venue whose zone the database knows under its name. *)
Definition venue_cacheable (v : Venue) : Prop :=
  match v_TZ v with
  | Some loc => loc_name loc ≠ "" ∧ LoadLocation (loc_name loc) = Ok loc
  | None => True
  end.
Lemma decode_encode v : venue_cacheable v → decode_venue (encodeVenue v) = Ok v.
Proof.
  unfold venue_cacheable, decode_venue, encodeVenue, venue_tz, is_empty.
  destruct v as [p r n [loc|]]; cbn; [|done].
  intros [Hn Hl]. by rewrite str_eqb_neq, Hl.
Qed.
Lemma find_upsert {A} (hit : A → bool) row l : hit row = true → find hit (upsert hit row l) = Some row.
Proof.
  intros Hr. unfold upsert. destruct (existsb hit l) eqn:E.
  - induction l as [|x l IH]; [done|]. cbn in *. destruct (hit x) eqn:Ex; [by rewrite Hr|].
    rewrite Ex. by apply IH.
  - rewrite find_app. destruct (find hit l) as [x|] eqn:Ef; [|cbn; by rewrite Hr].
    apply find_spec in Ef as [Hin Hx]. exfalso. apply not_true_iff_false in E. apply E, existsb_exists.
    exists x. split; [by apply list_elem_of_In|done].
Qed.
Lemma find_upsert_other {A} (hit p : A → bool) row l :
  p row = false → (∀ x, hit x = true → p x = false) → find p (upsert hit row l) = find p l.
Proof.
  intros Hr Hp. unfold upsert. destruct (existsb hit l).
  - induction l as [|x l IH]; [done|]. cbn. destruct (hit x) eqn:Ex.
    + by rewrite Hr, (Hp x Ex), IH.
    + destruct (p x); [done|]. apply IH.
  - rewrite find_app. cbn. rewrite Hr. by destruct (find p l).
Qed.
End Cache.
