(* ===== verification/Resolver.v ===== *)
(** * [resolver]: from a venue query to a venue

    URL parsing, and the cache-fronted resolution of [StandardResolver] over
    the cache tables, with the provider behind it answering as it likes. *)

From S2P Require Import Prelude GoTime GoFormat Types Status Slots Drop Json Hash Codec Sql Tenant Text Url Cache.
From Stdlib Require Import Ascii.

(** ** [errors.go] *)

Definition ErrInvalidURL : error := ESentinel "resolver: invalid url".
Definition ErrNotResyHost : error := ESentinel "resolver: not a resy host".
Definition ErrNotVenueURL : error := ESentinel "resolver: not a venue url".
Definition ErrVenueNotFound : error := ESentinel "resolver: venue not found".
Definition ErrVenueAmbiguous : error := ESentinel "resolver: venue ambiguous".
Definition ErrResolverCacheMiss : error := ESentinel "resolver: cache miss".
(** [fmt.Errorf("%w: <detail>", sentinel)]. *)
Definition detailed (sentinel : error) (detail : string) : error :=
  EWrap (error_String sentinel +:+ ": " +:+ detail) [sentinel].

(** ** [url.go] *)

Record URLHints := mkURLHints {
  uh_Slug : string;
  uh_City : string;
  uh_Date : option Date;
  uh_Party : option Z
}.
Definition resolver_hosts : list string := ["resy.com"; "www.resy.com"].
Definition trim_slash_suffix (s : string) : string := if ends_with "/" s then drop_last s else s.
Definition parseDateParam (s : string) : option Date :=
  if is_empty s then None else match ParseDate s with Ok d => Some d | Err _ => None end.
(** [strconv.Atoi] reads an [int]: 64 bits. *)
Definition parsePartyParam (s : string) : option Z :=
  if is_empty s then None
  else n ← parse_int64 s; if n <? 0 then None else Some n.
Definition canonicalURL (scheme host city slug : string) (trailingSlash : bool) : string :=
  scheme +:+ "://" +:+ host +:+ "/cities/" +:+ city +:+ "/venues/" +:+ slug
  +:+ (if trailingSlash then "/" else "").

Section URLs.
Context (ip_literal : string → option string) (unicode_lower : string → string).
Notation Lower := (ToLower unicode_lower).

(** Slug, city and whether the path ended in a slash. *)
Definition splitVenuePath (p : string) : option (string * string * bool) :=
  let trimmed := match p with String "/" p' => p' | _ => p end in
  let hadTrailingSlash := ends_with "/" trimmed in
  let trimmed := trim_slash_suffix trimmed in
  if is_empty trimmed then None
  else
    match split_on "/" trimmed with
    | p0 :: p1 :: p2 :: p3 :: _ =>
        if negb (str_eqb p0 "cities" && str_eqb p2 "venues") then None
        else
          let rawCity := TrimSpace p1 in
          let rawSlug := TrimSpace p3 in
          if is_empty rawCity || is_empty rawSlug then None
          else Some (Lower rawSlug, Lower rawCity, hadTrailingSlash)
    | _ => None
    end.
Definition ParseResyURL (raw : string) : res (string * URLHints) :=
  let trimmed := TrimSpace raw in
  if is_empty trimmed then Err (detailed ErrInvalidURL "empty input")
  else
    match url_Parse ip_literal trimmed with
    | None => Err (detailed ErrInvalidURL "parse")
    | Some u =>
        let scheme := Lower (url_Scheme u) in
        if negb (str_eqb scheme "http" || str_eqb scheme "https")
        then Err (detailed ErrInvalidURL ("scheme " +:+ fmt_q (url_Scheme u) +:+ " is not http(s)"))
        else
          let host := Lower (url_Hostname u) in
          if is_empty host then Err (detailed ErrInvalidURL "missing host")
          else if negb (existsb (str_eqb host) resolver_hosts)
          then Err (detailed ErrNotResyHost ("host " +:+ fmt_q host))
          else
            match splitVenuePath (url_Path u) with
            | None => Err (detailed ErrNotVenueURL ("path " +:+ fmt_q (url_Path u)))
            | Some (slug, city, slash) =>
                Ok (canonicalURL scheme host city slug slash,
                    mkURLHints slug city (parseDateParam (query_Get (url_RawQuery u) "date"))
                      (parsePartyParam (query_Get (url_RawQuery u) "seats")))
            end
    end.
End URLs.

(** ** [resolver.go] *)

(** What the resolver did to the outside, in order. *)
Inductive RCall := AskVenue (slug city : string) | AskName (name : string).
Record RWorld := mkRWorld {
  rw_cache : CacheDB;
  rw_sql : nat;
  rw_step : nat;
  rw_calls : list RCall
}.
Record REnv := mkREnv {
  re_faults : Faults;
  re_now : nat → Time;
  re_ttl : Z;
  re_venue : nat → string → string → res Venue;
  re_name : nat → string → res (list Venue);
  re_load : string → res Location;
  re_ip : string → option string;
  re_lower : string → string;
  (** [-no-cache]: the reads of [noCacheReadShim] all miss. *)
  re_noCache : bool
}.
Definition DefaultTTL : Z := 24 * hour.

Section Resolver.
Context (env : REnv).

Definition RM (A : Type) : Type := RWorld → res A * RWorld.
#[global] Instance rm_ret : MRet RM := λ A a w, (Ok a, w).
#[global] Instance rm_bind : MBind RM := λ A B k m w,
  match m w with (Ok a, w') => k a w' | (Err e, w') => (Err e, w') end.
Definition r_fail {A} (e : error) : RM A := λ w, (Err e, w).
Definition r_of {A} (m : res A) : RM A := λ w, (m, w).
Definition r_attempt {A} (m : RM A) : RM (res A) := λ w, let '(r, w') := m w in (Ok r, w').
Definition r_tick (w : RWorld) : RWorld := mkRWorld (rw_cache w) (rw_sql w) (S (rw_step w)) (rw_calls w).
Definition r_now : RM Time := λ w, (Ok (re_now env (rw_step w)), r_tick w).
Definition r_sql {A} (m : CSQL A) : RM A := λ w,
  let '(r, n, c) := m (re_faults env) (rw_sql w) (rw_cache w) in
  (r, mkRWorld c n (S (rw_step w)) (rw_calls w)).
Definition r_ask {A} (c : RCall) (f : nat → res A) : RM A := λ w,
  (f (rw_step w), mkRWorld (rw_cache w) (rw_sql w) (S (rw_step w)) (rw_calls w ++ [c])).

(** The adapter of [cmd/resy-snipe/resolver_adapter.go]. *)
Definition fold_miss {A} (m : RM A) : RM A := λ w,
  match m w with
  | (Ok a, w') => (Ok a, w')
  | (Err e, w') => (Err (if errors_is e ErrCacheMiss then ErrResolverCacheMiss else e), w')
  end.
Definition cache_GetVenue (slug city : string) : RM (Venue * Time) :=
  if re_noCache env then r_fail ErrResolverCacheMiss else
  fold_miss (e ← r_sql (GetVenueCache (re_load env) slug city); mret (vc_Venue e, vc_CachedAt e)).
Definition cache_UpsertVenue (slug city : string) (v : Venue) (at_ : Time) : RM unit :=
  r_sql (UpsertVenueCache (mkVenueCacheEntry slug city v at_)).
Definition cache_GetName (q : string) : RM (list Venue * Time) :=
  if re_noCache env then r_fail ErrResolverCacheMiss else
  fold_miss (e ← r_sql (GetNameSearchCache (re_load env) q); mret (nc_Hits e, nc_CachedAt e)).
Definition cache_UpsertName (q : string) (hits : list Venue) (at_ : Time) : RM unit :=
  r_sql (UpsertNameSearchCache q hits at_).

Definition isStale (cachedAt : Time) : RM bool :=
  now ← r_now; mret (re_ttl env <? time_sub now cachedAt).
Definition normalizeNameQuery (q : string) : string :=
  str_join " " (Fields (ToLower (re_lower env) q)).
Definition pickFromHits (q : string) (hits : list Venue) : res Venue :=
  match hits with
  | [] => Err (wrap ("name=" +:+ fmt_q q +:+ ": ") ErrVenueNotFound)
  | [v] => Ok v
  | _ => Err (EAmbiguous q hits)
  end.
(** The cached value if there is one, and whether it is fresh. *)
Definition fresh {A} (cached : res (A * Time)) : RM bool :=
  match cached with
  | Ok (_, at_) => stale ← isStale at_; mret (negb stale)
  | Err _ => mret false
  end.
(** [r.log.Warn("resolver.stale_served", ..., r.clock.Now().Sub(...))]. *)
Definition warn_stale : RM unit := _ ← r_now; mret tt.

Definition resolveSlug (slug city : string) : RM Venue :=
  let slug := TrimSpace slug in
  let city := TrimSpace city in
  if is_empty slug || is_empty city then r_fail (detailed ErrInvalidURL "slug and city are required")
  else
    cached ← r_attempt (cache_GetVenue slug city);
    f ← fresh cached;
    match cached, f with
    | Ok (v, _), true => mret v
    | _, _ =>
        fetched ← r_attempt (r_ask (AskVenue slug city) (λ k, re_venue env k slug city));
        match fetched with
        | Err e =>
            match cached with
            | Ok (v, _) =>
                if negb (errors_is e Providers.ErrVenueNotFound) then _ ← warn_stale; mret v
                else r_fail (wrap ("slug=" +:+ slug +:+ " city=" +:+ city +:+ ": ") ErrVenueNotFound)
            | Err _ =>
                if errors_is e Providers.ErrVenueNotFound
                then r_fail (wrap ("slug=" +:+ slug +:+ " city=" +:+ city +:+ ": ") ErrVenueNotFound)
                else r_fail e
            end
        | Ok v =>
            now ← r_now;
            _ ← r_attempt (cache_UpsertVenue slug city v now);
            mret v
        end
    end.
Definition resolveURL (raw : string) : RM Venue :=
  match ParseResyURL (re_ip env) (re_lower env) raw with
  | Ok (_, hints) => resolveSlug (uh_Slug hints) (uh_City hints)
  | Err e => r_fail e
  end.
Definition resolveName (name : string) : RM Venue :=
  let trimmed := TrimSpace name in
  if is_empty trimmed then r_fail (detailed ErrInvalidURL "name is required")
  else
    let key := normalizeNameQuery trimmed in
    cached ← r_attempt (cache_GetName key);
    f ← fresh cached;
    match cached, f with
    | Ok (hits, _), true => r_of (pickFromHits trimmed hits)
    | _, _ =>
        fetched ← r_attempt (r_ask (AskName trimmed) (λ k, re_name env k trimmed));
        match fetched with
        | Err e =>
            match cached with
            | Ok (hits, _) => _ ← warn_stale; r_of (pickFromHits trimmed hits)
            | Err _ => r_fail e
            end
        | Ok hits =>
            now ← r_now;
            _ ← r_attempt (cache_UpsertName key hits now);
            r_of (pickFromHits trimmed hits)
        end
    end.
Definition Resolve (q : option VenueQuery) : RM Venue :=
  match q with
  | None => r_fail ErrInvalidURL
  | Some (VenueQueryURL u) => resolveURL u
  | Some (VenueQuerySlug slug city) => resolveSlug slug city
  | Some (VenueQueryName name) => resolveName name
  end.
End Resolver.

(** ** What one resolution does, the cache answering *)

Section Spec.
Context (env : REnv).

(** The cache key a query comes down to. *)
Definition venue_key_of (q : option VenueQuery) : option (string * string) :=
  let trimmed slug city :=
    if is_empty (TrimSpace slug) || is_empty (TrimSpace city) then None
    else Some (TrimSpace slug, TrimSpace city) in
  match q with
  | Some (VenueQueryURL raw) =>
      match ParseResyURL (re_ip env) (re_lower env) raw with
      | Ok (_, h) => trimmed (uh_Slug h) (uh_City h)
      | Err _ => None
      end
  | Some (VenueQuerySlug slug city) => trimmed slug city
  | _ => None
  end.
(** The cached venue under a key and when it was stored. *)
Definition lookup_venue (slug city : string) (c : CacheDB) : option (Venue * Time) :=
  r ← find (venue_key slug city) (cb_venues c);
  match decode_venue (re_load env) (vcr_venue r) with
  | Ok v => Some (v, of_unix (vcr_at r))
  | Err _ => None
  end.
Definition store_venue (slug city : string) (v : Venue) (t : Time) (c : CacheDB) : CacheDB :=
  mkCacheDB (upsert (venue_key slug city) (mkVenueCacheRec slug city (encodeVenue v) (t_unix t)) (cb_venues c))
    (cb_names c).
Definition slug_not_found (slug city : string) : error :=
  wrap ("slug=" +:+ slug +:+ " city=" +:+ city +:+ ": ") ErrVenueNotFound.

Lemma venue_key_of_spec q slug city :
  venue_key_of q = Some (slug, city) →
  ∃ s c, (∀ w, Resolve env q w = resolveSlug env s c w) ∧ TrimSpace s = slug ∧ TrimSpace c = city
         ∧ is_empty slug = false ∧ is_empty city = false.
Proof.
  intros H. unfold venue_key_of in H.
  assert (∀ s c, (if is_empty (TrimSpace s) || is_empty (TrimSpace c) then None
                  else Some (TrimSpace s, TrimSpace c)) = Some (slug, city) →
    TrimSpace s = slug ∧ TrimSpace c = city ∧ is_empty slug = false ∧ is_empty city = false) as Hk.
  { intros s c. destruct (_ || _) eqn:E; [done|]. intros [= <- <-]. by apply orb_false_iff in E as [-> ->]. }
  destruct q as [[raw|s c|]|]; [| |done|done].
  - destruct (ParseResyURL _ _ raw) as [[u h]|] eqn:E; [|done]. apply Hk in H.
    exists (uh_Slug h), (uh_City h). split; [|done]. intros w. unfold Resolve, resolveURL. by rewrite E.
  - apply Hk in H. by exists s, c.
Qed.
(** What a resolution sees of the cache. *)
Definition seen (slug city : string) (c : CacheDB) : option (Venue * Time) :=
  if re_noCache env then None else lookup_venue slug city c.
(** The cache read of a resolution. *)
Lemma cache_read slug city w :
  no_faults (re_faults env) →
  ∃ n k, ∀ r, seen slug city (rw_cache w) = r →
  let w1 := mkRWorld (rw_cache w) n k (rw_calls w) in
  match r with
  | Some e => k = S (rw_step w) ∧ cache_GetVenue env slug city w = (Ok e, w1)
  | None => ∃ e, cache_GetVenue env slug city w = (Err e, w1)
  end.
Proof.
  intros Hf. unfold seen, cache_GetVenue. destruct (re_noCache env).
  { exists (rw_sql w), (rw_step w). intros r <-. exists ErrResolverCacheMiss. by destruct w. }
  exists (S (rw_sql w)), (S (rw_step w)). intros r <-.
  unfold fold_miss, mbind, rm_bind, r_sql, GetVenueCache, lookup_venue.
  run_sql. rewrite (Hf (rw_sql w)). cbv beta iota.
  destruct (find (venue_key slug city) (cb_venues (rw_cache w))) as [r|]; cbn; [|by eexists].
  destruct (decode_venue (re_load env) (vcr_venue r)) as [v|e]; cbn; [done|by eexists].
Qed.
Lemma cache_write slug city v t w :
  no_faults (re_faults env) → is_empty slug = false → is_empty city = false →
  cache_UpsertVenue env slug city v t w
  = (Ok tt, mkRWorld (store_venue slug city v t (rw_cache w)) (S (rw_sql w)) (S (rw_step w)) (rw_calls w)).
Proof.
  intros Hf Hs Hc. unfold cache_UpsertVenue, r_sql, UpsertVenueCache. cbn [vc_Slug vc_City]. rewrite Hs, Hc. cbn [orb].
  run_sql. by rewrite (Hf (rw_sql w)).
Qed.

(** An entry within the TTL answers alone. *)
Lemma Resolve_fresh q w slug city v at_ :
  no_faults (re_faults env) → venue_key_of q = Some (slug, city) →
  seen slug city (rw_cache w) = Some (v, at_) →
  time_sub (re_now env (S (rw_step w))) at_ ≤ re_ttl env →
  ∃ w', Resolve env q w = (Ok v, w') ∧ rw_cache w' = rw_cache w ∧ rw_calls w' = rw_calls w.
Proof.
  intros Hf Hq Hl Ht. apply venue_key_of_spec in Hq as (s & c & Hr & Hs & Hc & He1 & He2).
  rewrite Hr. unfold resolveSlug. rewrite Hs, Hc, He1, He2. cbv beta iota zeta. cbn [orb].
  destruct (cache_read slug city w Hf) as (n & k & Hrd). specialize (Hrd _ Hl). cbv beta iota zeta in Hrd.
  destruct Hrd as [-> Hrd].
  unfold mbind at 1, rm_bind at 1, r_attempt at 1. rewrite Hrd. cbv beta iota.
  unfold fresh, isStale, r_now. unfold mbind, rm_bind, mret, rm_ret. cbv beta iota zeta.
  cbn [rw_step]. rewrite (proj2 (Z.ltb_ge _ _) Ht). cbn. by eexists.
Qed.

(** What a resolution that must ask returns. *)
Definition asked (slug city : string) (cached : option (Venue * Time)) (answer : res Venue) : res Venue :=
  match answer with
  | Ok v => Ok v
  | Err e =>
      if errors_is e Providers.ErrVenueNotFound then Err (slug_not_found slug city)
      else match cached with Some (v, _) => Ok v | None => Err e end
  end.
Definition stale_at (w : RWorld) (cached : option (Venue * Time)) : Prop :=
  match cached with
  | Some (_, at_) => re_ttl env < time_sub (re_now env (S (rw_step w))) at_
  | None => True
  end.
Lemma Resolve_asks q w slug city :
  no_faults (re_faults env) → venue_key_of q = Some (slug, city) →
  stale_at w (seen slug city (rw_cache w)) →
  ∃ k t w', Resolve env q w = (asked slug city (seen slug city (rw_cache w)) (re_venue env k slug city), w')
    ∧ rw_calls w' = rw_calls w ++ [AskVenue slug city]
    ∧ rw_cache w' = match re_venue env k slug city with
                    | Ok v => store_venue slug city v (re_now env t) (rw_cache w)
                    | Err _ => rw_cache w
                    end.
Proof.
  intros Hf Hq Ht. apply venue_key_of_spec in Hq as (s & c & Hr & Hs & Hc & He1 & He2).
  rewrite Hr. unfold resolveSlug. rewrite Hs, Hc, He1, He2. cbv beta iota zeta. cbn [orb].
  destruct (cache_read slug city w Hf) as (n & k & Hrd). specialize (Hrd _ eq_refl). cbv beta iota zeta in Hrd.
  unfold mbind at 1, rm_bind at 1, r_attempt at 1.
  destruct (seen slug city (rw_cache w)) as [[v at_]|].
  - destruct Hrd as [-> Hrd]. rewrite Hrd. cbv beta iota. unfold fresh, isStale, r_now, r_ask, warn_stale, r_fail, r_attempt.
    unfold mbind, rm_bind, mret, rm_ret, r_now. cbv beta iota zeta. cbn in Ht.
    cbn [rw_step]. rewrite (proj2 (Z.ltb_lt _ _) Ht). cbn [negb rw_step rw_cache rw_sql rw_calls r_tick].
    do 2 eexists. destruct (re_venue env _ slug city) as [v'|e] eqn:Ev.
    + rewrite cache_write by done. cbn. eexists. rewrite Ev. by split_all.
    + destruct (errors_is e Providers.ErrVenueNotFound) eqn:Ee; cbn [negb]; cbv beta iota;
        eexists; rewrite Ev; cbn [asked]; rewrite Ee; by split_all.
  - destruct Hrd as [e0 Hrd]. rewrite Hrd. cbv beta iota. unfold fresh, r_now, r_ask, r_fail, r_attempt.
    unfold mbind, rm_bind, mret, rm_ret, r_now. cbv beta iota zeta.
    cbn [negb rw_step rw_cache rw_sql rw_calls r_tick].
    do 2 eexists. destruct (re_venue env _ slug city) as [v'|e] eqn:Ev.
    + rewrite cache_write by done. cbn. eexists. rewrite Ev. by split_all.
    + destruct (errors_is e Providers.ErrVenueNotFound) eqn:Ee; cbn [negb]; cbv beta iota;
        eexists; rewrite Ev; cbn [asked]; rewrite Ee; by split_all.
  Unshelve. all: exact 0%nat.
Qed.
End Spec.

(** ** Resolutions of other venues leave an entry alone *)

#[local] Create HintDb keep.

Section Frame.
Context (slug city : string).
Notation entry c := (find (venue_key slug city) (cb_venues c)).

(** A step that keeps the entry, whatever fails. *)
Definition keeps {A} (m : RM A) : Prop := ∀ w, entry (rw_cache (m w).2) = entry (rw_cache w).
Lemma keeps_of {A} (r : res A) : keeps (r_of r).
Proof. done. Qed.
Lemma keeps_ret {A} (a : A) : keeps (mret a : RM A).
Proof. done. Qed.
Lemma keeps_bind {A B} (m : RM A) (k : A → RM B) : keeps m → (∀ a, keeps (k a)) → keeps (m ≫= k).
Proof.
  intros Hm Hk w. unfold mbind, rm_bind. specialize (Hm w). destruct (m w) as [[a|e] w']; [|done].
  by rewrite (Hk a w').
Qed.
Lemma keeps_attempt {A} (m : RM A) : keeps m → keeps (r_attempt m).
Proof. intros Hm w. unfold r_attempt. specialize (Hm w). by destruct (m w). Qed.
Lemma keeps_fold {A} (m : RM A) : keeps m → keeps (fold_miss m).
Proof. intros Hm w. unfold fold_miss. specialize (Hm w). by destruct (m w) as [[]]. Qed.
Lemma keeps_now env : keeps (r_now env).
Proof. done. Qed.
Lemma keeps_ask {A} c (f : nat → res A) : keeps (r_ask c f).
Proof. done. Qed.
Lemma keeps_sql {A} env (m : CSQL A) :
  moves (λ c c', entry c' = entry c) m → keeps (r_sql env m).
Proof.
  intros Hm w. unfold r_sql. specialize (Hm (re_faults env) (rw_sql w) (rw_cache w)).
  by destruct (m _ _ _) as [[r n] c].
Qed.
Hint Resolve keeps_of keeps_ret keeps_bind keeps_attempt keeps_fold keeps_now keeps_ask : keep.
(** Reads move nothing, and a row of another key is not the entry's. *)
Ltac entry_moves :=
  apply moves_ctx, moves_stmt; [done|]; intros ? ? _; cbn; try done.
Lemma keeps_GetVenue env s c : keeps (cache_GetVenue env s c).
Proof.
  unfold cache_GetVenue. destruct (re_noCache env); [done|].
  apply keeps_fold, keeps_bind; [|done]. apply keeps_sql, moves_bind; [by intros ??? -> |by entry_moves|].
  intros row. by apply moves_of.
Qed.
Lemma keeps_GetName env q : keeps (cache_GetName env q).
Proof.
  unfold cache_GetName. destruct (re_noCache env); [done|].
  apply keeps_fold, keeps_bind; [|done]. apply keeps_sql, moves_bind; [by intros ??? -> |by entry_moves|].
  intros row. by apply moves_of.
Qed.
Lemma keeps_UpsertName env q hits t : keeps (cache_UpsertName env q hits t).
Proof.
  apply keeps_sql. unfold UpsertNameSearchCache. destruct (is_empty q); [by apply moves_of|by entry_moves].
Qed.
Lemma keeps_UpsertVenue env s c v t : (s, c) ≠ (slug, city) → keeps (cache_UpsertVenue env s c v t).
Proof.
  intros Hne. apply keeps_sql. unfold UpsertVenueCache. destruct (_ || _); [by apply moves_of|].
  entry_moves. apply find_upsert_other; unfold venue_key; cbn.
  - apply andb_false_iff. destruct (str_eqb s slug) eqn:E1; [|by left]. right.
    destruct (str_eqb c city) eqn:E2; [|done]. apply str_eqb_true in E1, E2. by subst.
  - intros x Hx. apply andb_true_iff in Hx as [H1 H2]. apply str_eqb_true in H1, H2. subst.
    apply andb_false_iff. destruct (str_eqb (vcr_slug x) slug) eqn:E1; [|by left]. right.
    destruct (str_eqb (vcr_city x) city) eqn:E2; [|done]. apply str_eqb_true in E1, E2. by subst.
Qed.
Hint Resolve keeps_GetVenue keeps_GetName keeps_UpsertName keeps_UpsertVenue : keep.
Lemma keeps_fresh {A} env (cached : res (A * Time)) : keeps (fresh env cached).
Proof. destruct cached as [[]|]; [|done]. by apply keeps_bind; [apply keeps_bind|]. Qed.
Lemma keeps_warn env : keeps (warn_stale env).
Proof. by apply keeps_bind. Qed.
Hint Resolve keeps_fresh keeps_warn : keep.
Lemma keeps_fail {A} (e : error) : keeps (r_fail e : RM A).
Proof. done. Qed.
Hint Resolve keeps_fail : keep.

Lemma keeps_resolveSlug env s c :
  (TrimSpace s, TrimSpace c) ≠ (slug, city) → keeps (resolveSlug env s c).
Proof.
  intros Hne. unfold resolveSlug. cbv zeta. destruct (_ || _); [auto with keep|].
  apply keeps_bind; [auto with keep|]. intros cached. apply keeps_bind; [auto with keep|]. intros f.
  destruct cached as [[v at_]|e], f; try auto with keep;
    (apply keeps_bind; [auto with keep|]; intros [v'|e']);
    try (destruct (errors_is _ _); cbn [negb]; auto with keep);
    (apply keeps_bind; [auto with keep|]; intros t; apply keeps_bind; auto with keep).
Qed.
Lemma keeps_resolveName env name : keeps (resolveName env name).
Proof.
  unfold resolveName. cbv zeta. destruct (is_empty _); [auto with keep|].
  apply keeps_bind; [auto with keep|]. intros cached. apply keeps_bind; [auto with keep|]. intros f.
  destruct cached as [[v at_]|e], f; try auto with keep;
    (apply keeps_bind; [auto with keep|]; intros [hits|]; auto with keep);
    (apply keeps_bind; [auto with keep|]; intros t; apply keeps_bind; auto with keep).
Qed.
Lemma keeps_Resolve env q : venue_key_of env q ≠ Some (slug, city) → keeps (Resolve env q).
Proof.
  assert (∀ s c, (if is_empty (TrimSpace s) || is_empty (TrimSpace c) then None
                  else Some (TrimSpace s, TrimSpace c)) ≠ Some (slug, city) → keeps (resolveSlug env s c)) as Hk.
  { intros s c H. destruct (is_empty (TrimSpace s) || is_empty (TrimSpace c)) eqn:E.
    - intros w. unfold resolveSlug. cbv zeta. by rewrite E.
    - apply keeps_resolveSlug. congruence. }
  destruct q as [[raw|s c|name]|]; intros H; cbn [Resolve venue_key_of] in *.
  - unfold resolveURL. destruct (ParseResyURL _ _ raw) as [[u h]|]; [by apply Hk|done].
  - by apply Hk.
  - apply keeps_resolveName.
  - done.
Qed.
End Frame.

(** ** The theorem *)

(** Resolutions one after the other, each in its own environment. *)
Fixpoint resolve_all (l : list (REnv * option VenueQuery)) (w : RWorld) : RWorld :=
  match l with [] => w | (env, q) :: l' => resolve_all l' (Resolve env q w).2 end.
Lemma resolve_all_keeps slug city l w :
  Forall (λ eq, venue_key_of eq.1 eq.2 ≠ Some (slug, city)) l →
  find (venue_key slug city) (cb_venues (rw_cache (resolve_all l w)))
  = find (venue_key slug city) (cb_venues (rw_cache w)).
Proof.
  intros H. revert w. induction H as [|[env q] l Hne H IH]; intros w; [done|]. cbn.
  rewrite IH. by apply keeps_Resolve.
Qed.
Lemma lookup_stored env slug city v t c c' :
  venue_cacheable (re_load env) v →
  find (venue_key slug city) (cb_venues c') = find (venue_key slug city) (cb_venues (store_venue slug city v t c)) →
  lookup_venue env slug city c' = Some (v, to_second t).
Proof.
  intros Hv Hc. unfold lookup_venue. rewrite Hc. cbn [cb_venues store_venue].
  rewrite find_upsert by (unfold venue_key; cbn; by rewrite !str_eqb_refl). cbn. by rewrite decode_encode.
Qed.

(** C28. The cache stands in for the provider, when its statements succeed and
    the venue's zone can be loaded again.  Once a resolution has asked
    the provider about a slug and city and got a venue, and whatever other
    venues and names are resolved afterwards, whatever fails in them, a
    resolution of the same place, by slug or by any spelling of its URL:
    within the TTL of the second it was stored, returns that venue without
    asking; past the TTL, or without the cache, asks exactly once and returns
    the provider's new answer, or the remembered venue when the provider
    fails (without the cache, its error), or [ErrVenueNotFound] when the
    provider says there is no such venue.  Whatever error it answers, that
    one too, the cache stays as it is; the design has the row deleted when
    the venue is not found. *)
Theorem Resolve_remembers env q w slug city v l env' q' :
  no_faults (re_faults env) → venue_key_of env q = Some (slug, city) →
  (∀ k, re_venue env k slug city = Ok v) →
  rw_calls (Resolve env q w).2 ≠ rw_calls w →
  Forall (λ eq, venue_key_of eq.1 eq.2 ≠ Some (slug, city)) l →
  no_faults (re_faults env') → venue_key_of env' q' = Some (slug, city) →
  venue_cacheable (re_load env') v →
  (Resolve env q w).1 = Ok v ∧
  ∃ i, let at_ := to_second (re_now env i) in
  let w2 := resolve_all l (Resolve env q w).2 in
  let '(r, w3) := Resolve env' q' w2 in
  (re_noCache env' = false → (∀ k, time_sub (re_now env' k) at_ ≤ re_ttl env') →
     r = Ok v ∧ rw_calls w3 = rw_calls w2 ∧ rw_cache w3 = rw_cache w2) ∧
  (re_noCache env' = true ∨ (∀ k, re_ttl env' < time_sub (re_now env' k) at_) →
     rw_calls w3 = rw_calls w2 ++ [AskVenue slug city] ∧
     ∃ k, match re_venue env' k slug city with
          | Ok v' => r = Ok v' ∧ ∃ j, rw_cache w3 = store_venue slug city v' (re_now env' j) (rw_cache w2)
          | Err e =>
              rw_cache w3 = rw_cache w2 ∧
              if errors_is e Providers.ErrVenueNotFound
              then ∃ e', r = Err e' ∧ errors_is e' ErrVenueNotFound = true
              else r = if re_noCache env' then Err e else Ok v
          end).
Proof.
  intros Hf Hq Hv Hcalls Hl Hf' Hq' Hc.
  assert (∃ i, (Resolve env q w).1 = Ok v ∧
    rw_cache (Resolve env q w).2 = store_venue slug city v (re_now env i) (rw_cache w)) as (i & Hr & Hw).
  { assert (stale_at env w (seen env slug city (rw_cache w))) as Hst.
    { destruct (seen env slug city (rw_cache w)) as [[v0 a0]|] eqn:E; [|done]. cbn.
      destruct (Z.le_gt_cases (time_sub (re_now env (S (rw_step w))) a0) (re_ttl env)) as [Hle|]; [|lia].
      destruct (Resolve_fresh env q w slug city v0 a0 Hf Hq E Hle) as (w' & E' & _ & Hsame).
      rewrite E' in Hcalls. done. }
    destruct (Resolve_asks env q w slug city Hf Hq Hst) as (k & t & w' & E & _ & Hw). exists t.
    rewrite E. cbn. rewrite Hw, Hv. done. }
  split; [done|]. exists i. cbv zeta. destruct (Resolve env' q' _) as [r w3] eqn:E'.
  pose proof (resolve_all_keeps slug city l (Resolve env q w).2 Hl) as Hk. rewrite Hw in Hk.
  pose proof (lookup_stored env' slug city v _ _ _ Hc Hk) as Hlk. split.
  - intros Hn Ht. assert (Hsn : seen env' slug city (rw_cache (resolve_all l (Resolve env q w).2)) = Some (v, to_second (re_now env i)))
      by (unfold seen; by rewrite Hn).
    destruct (Resolve_fresh env' q' _ slug city v _ Hf' Hq' Hsn (Ht _)) as (w' & E & H1 & H2).
    rewrite E in E'. by injection E' as <- <-.
  - intros Ht.
    destruct (Resolve_asks env' q' (resolve_all l (Resolve env q w).2) slug city Hf' Hq') as (k & t & w' & E & H1 & H2).
    { unfold seen. destruct Ht as [-> | Ht]; [done|]. destruct (re_noCache env'); [done|]. rewrite Hlk. apply Ht. }
    rewrite E in E'. injection E' as <- <-. split; [done|]. exists k. unfold seen. rewrite Hlk. unfold asked.
    destruct (re_venue env' k slug city) as [v'|e]; [by eauto|]. split; [done|].
    destruct (errors_is e Providers.ErrVenueNotFound); [|by destruct (re_noCache env')].
    eexists. split; [done|]. unfold slug_not_found. by rewrite errors_is_wrap.
Qed.

(** ** A concrete place *)

Definition ny_load (name : string) : res Location :=
  if str_eqb name (loc_name NewYork2026) then Ok NewYork2026 else Err (ENew ("unknown time zone " +:+ name)).
Definition sample_venue : Venue := mkVenue "resy" "101" "Le Coucou" (Some NewYork2026).
(** The provider knows the venue; a clock that moves a second per step. *)
Definition sample_renv (start ttl : Z) (answer : res Venue) : REnv :=
  mkREnv (λ _, None) (λ k, mkTime ((start + Z.of_nat k) * second) UTC) ttl (λ _ _ _, answer)
    (λ _ _, Ok []) ny_load (λ _, None) (λ s, s) false.
Definition empty_rworld : RWorld := mkRWorld empty_cache 0 0 [].
Definition le_coucou : option VenueQuery := Some (VenueQuerySlug " le-coucou" "ny ").
Definition le_coucou_url : option VenueQuery :=
  Some (VenueQueryURL "https://WWW.resy.com/cities/NY/venues/Le-Coucou?seats=2&utm=x").
Lemma sample_venue_cacheable : venue_cacheable ny_load sample_venue.
Proof. split; [discriminate|reflexivity]. Qed.

(** Two days later, under an hour's TTL and with the provider down, the
    remembered venue is served for the URL. *)
Lemma Resolve_remembers_witness :
  (Resolve (sample_renv 0 DefaultTTL (Ok sample_venue)) le_coucou empty_rworld).1 = Ok sample_venue ∧
  (Resolve (sample_renv 172800 hour (Err (ENew "connection refused"))) le_coucou_url
     (Resolve (sample_renv 0 DefaultTTL (Ok sample_venue)) le_coucou empty_rworld).2).1 = Ok sample_venue.
Proof.
  pose proof (Resolve_remembers (sample_renv 0 DefaultTTL (Ok sample_venue)) le_coucou empty_rworld
    "le-coucou" "ny" sample_venue [] (sample_renv 172800 hour (Err (ENew "connection refused"))) le_coucou_url
    (λ _, eq_refl) ltac:(vm_compute; reflexivity) (λ _, eq_refl) ltac:(vm_compute; discriminate)
    (List.Forall_nil _) (λ _, eq_refl) ltac:(vm_compute; reflexivity) sample_venue_cacheable) as [H1 (i & H2)].
  split; [exact H1|vm_compute; reflexivity].
Defined.
