(* ===== verification/JsonText.v ===== *)
(** * [encoding/json]: documents, their text, and reading it back

    A document is a tree; a number keeps its literal.  [json_text] is what
    [Marshal] prints of one and [parse_json] what [Unmarshal] reads: the
    grammar of RFC 8259, with Go's treatment of surrogates and of bytes that
    are not UTF-8 (the nesting limit of 10000 is left out). *)

From S2P Require Import Prelude Text Json.
From Stdlib Require Import Ascii.

Inductive json :=
| JNull
| JBool (b : bool)
| JNum (literal : string)
| JStr (s : string)
| JArr (l : list json)
| JObj (m : list (string * json)).

(** ** Printing *)

Fixpoint json_text (j : json) : string :=
  match j with
  | JNull => "null"
  | JBool b => json_bool b
  | JNum n => n
  | JStr s => json_string s
  | JArr l =>
      "[" +:+ str_join "," ((fix go l := match l with [] => [] | x :: l' => json_text x :: go l' end) l) +:+ "]"
  | JObj m =>
      "{" +:+ str_join "," ((fix go m := match m with
                                         | [] => []
                                         | (k, x) :: m' => (json_string k +:+ ":" +:+ json_text x) :: go m'
                                         end) m) +:+ "}"
  end.

(** ** Reading *)

Definition is_ws (c : ascii) : bool :=
  (byte_of c =? 32) || (byte_of c =? 9) || (byte_of c =? 10) || (byte_of c =? 13).
Fixpoint skip_ws (s : string) : string :=
  match s with String c s' => if is_ws c then skip_ws s' else s | EmptyString => "" end.
Definition hex4 (a b c d : ascii) : option Z :=
  let v x := let n := byte_of x in
    if (48 <=? n) && (n <=? 57) then Some (n - 48)
    else if (97 <=? n) && (n <=? 102) then Some (n - 87)
    else if (65 <=? n) && (n <=? 70) then Some (n - 55)
    else None in
  a ← v a; b ← v b; c ← v c; d ← v d; Some (4096 * a + 256 * b + 16 * c + d).
Definition byte (z : Z) : ascii := ascii_of_nat (Z.to_nat z).
(** [utf8.AppendRune]. *)
Definition rune_error : string := String (byte 239) (String (byte 191) (String (byte 189) "")).
Definition encode_rune (r : Z) (s : string) : string :=
  if r <? 128 then String (byte r) s
  else if r <? 2048 then String (byte (192 + r / 64)) (String (byte (128 + r mod 64)) s)
  else if (55296 <=? r) && (r <? 57344) then rune_error +:+ s
  else if r <? 65536 then
    String (byte (224 + r / 4096)) (String (byte (128 + (r / 64) mod 64)) (String (byte (128 + r mod 64)) s))
  else
    String (byte (240 + r / 262144)) (String (byte (128 + (r / 4096) mod 64))
      (String (byte (128 + (r / 64) mod 64)) (String (byte (128 + r mod 64)) s))).
Definition prepend (f : string → string) (r : option (string * string)) : option (string * string) :=
  match r with Some (s, t) => Some (f s, t) | None => None end.
Definition unescaped (d : ascii) : option ascii :=
  match nat_of_ascii d with
  | 34%nat => Some "034"%char | 92%nat => Some "\"%char | 47%nat => Some "/"%char
  | 98%nat => Some "008"%char | 102%nat => Some "012"%char | 110%nat => Some "010"%char
  | 114%nat => Some "013"%char | 116%nat => Some "009"%char
  | _ => None
  end.
(** The body of a string, up to its closing quote. *)
Fixpoint unquote (s : string) : option (string * string) :=
  match s with
  | EmptyString => None
  | String c s' =>
      if byte_of c =? 34 then Some ("", s')
      else if byte_of c =? 92 then
        match s' with
        | EmptyString => None
        | String d s1 =>
            if byte_of d =? 117 then
              match s1 with
              | String a (String b (String e (String f s2))) =>
                  match hex4 a b e f with
                  | None => None
                  | Some r =>
                      if (55296 <=? r) && (r <? 56320) then
                        match s2 with
                        | String bs (String u (String a' (String b' (String e' (String f' s3))))) =>
                            match (if (byte_of bs =? 92) && (byte_of u =? 117) then hex4 a' b' e' f' else None) with
                            | Some r2 =>
                                if (56320 <=? r2) && (r2 <? 57344)
                                then prepend (encode_rune (65536 + (r - 55296) * 1024 + (r2 - 56320))) (unquote s3)
                                else prepend (String.append rune_error) (unquote s2)
                            | None => prepend (String.append rune_error) (unquote s2)
                            end
                        | _ => prepend (String.append rune_error) (unquote s2)
                        end
                      else prepend (encode_rune r) (unquote s2)
                  end
              | _ => None
              end
            else match unescaped d with
                 | Some e => prepend (String e) (unquote s1)
                 | None => None
                 end
        end
      else if byte_of c <? 32 then None
      else if utf8_width c =? 1 then prepend (String c) (unquote s')
      else
        let bad := prepend (String.append rune_error) (unquote s') in
        match s' with
        | String c1 s1 =>
            if negb (utf8_second c c1) then bad
            else if utf8_width c =? 2 then prepend (λ t, String c (String c1 t)) (unquote s1)
            else
              match s1 with
              | String c2 s2 =>
                  if negb (cont c2) then bad
                  else if utf8_width c =? 3 then prepend (λ t, String c (String c1 (String c2 t))) (unquote s2)
                  else
                    match s2 with
                    | String c3 s3 =>
                        if (utf8_width c =? 4) && cont c3
                        then prepend (λ t, String c (String c1 (String c2 (String c3 t)))) (unquote s3)
                        else bad
                    | EmptyString => bad
                    end
              | EmptyString => bad
              end
        | EmptyString => bad
        end
  end.

(** A number literal: sign, integer without leading zeros, fraction,
    exponent. *)
Definition take_digits1 (s : string) : option (string * string) :=
  match span_digits s with (EmptyString, _) => None | p => Some p end.
Definition take_sign (s : string) : string * string :=
  match s with
  | String c s' => if (byte_of c =? 43) || (byte_of c =? 45) then (String c "", s') else ("", s)
  | EmptyString => ("", "")
  end.
Definition take_fraction (s : string) : option (string * string) :=
  match s with
  | String c s' => if byte_of c =? 46 then prepend (String c) (take_digits1 s') else Some ("", s)
  | EmptyString => Some ("", "")
  end.
Definition take_exponent (s : string) : option (string * string) :=
  match s with
  | String c s' =>
      if (byte_of c =? 101) || (byte_of c =? 69) then
        let '(sg, s') := take_sign s' in prepend (λ d, String c (sg +:+ d)) (take_digits1 s')
      else Some ("", s)
  | EmptyString => Some ("", "")
  end.
Definition take_integer (s : string) : option (string * string) :=
  match s with
  | String c s' => if byte_of c =? 48 then Some (String c "", s') else take_digits1 s
  | EmptyString => None
  end.
Definition take_number (s : string) : option (string * string) :=
  let '(sg, s) := match s with
                  | String c s' => if byte_of c =? 45 then (String c "", s') else ("", s)
                  | EmptyString => ("", "")
                  end in
  '(i, s) ← take_integer s; '(f, s) ← take_fraction s; '(e, s) ← take_exponent s;
  Some (sg +:+ i +:+ f +:+ e, s).

Fixpoint drop_prefix (p s : string) : option string :=
  match p, s with
  | EmptyString, _ => Some s
  | String a p', String b s' => if Ascii.eqb a b then drop_prefix p' s' else None
  | _, EmptyString => None
  end.
(** After an element: a comma and more, or the closing bracket. *)
Definition after_item (close : Z) (s : string) : option (bool * string) :=
  match skip_ws s with
  | String c s' =>
      if byte_of c =? 44 then Some (true, s') else if byte_of c =? close then Some (false, s') else None
  | EmptyString => None
  end.
Definition closes (close : Z) (s : string) : option string :=
  match skip_ws s with
  | String c s' => if byte_of c =? close then Some s' else None
  | EmptyString => None
  end.
Definition opening_quote (s : string) : option string :=
  match skip_ws s with String c s' => if byte_of c =? 34 then Some s' else None | EmptyString => None end.
Definition colon (s : string) : option string :=
  match skip_ws s with String c s' => if byte_of c =? 58 then Some s' else None | EmptyString => None end.
Fixpoint parse_value (fuel : nat) (s : string) : option (json * string) :=
  match fuel with
  | O => None
  | S f =>
      match skip_ws s with
      | EmptyString => None
      | String c s' as t =>
          if byte_of c =? 34 then '(x, r) ← unquote s'; Some (JStr x, r)
          else if byte_of c =? 91 then
            match closes 93 s' with
            | Some r => Some (JArr [], r)
            | None => '(l, r) ← parse_items f s'; Some (JArr l, r)
            end
          else if byte_of c =? 123 then
            match closes 125 s' with
            | Some r => Some (JObj [], r)
            | None => '(m, r) ← parse_members f s'; Some (JObj m, r)
            end
          else if byte_of c =? 116 then r ← drop_prefix "true" t; Some (JBool true, r)
          else if byte_of c =? 102 then r ← drop_prefix "false" t; Some (JBool false, r)
          else if byte_of c =? 110 then r ← drop_prefix "null" t; Some (JNull, r)
          else '(n, r) ← take_number t; Some (JNum n, r)
      end
  end
with parse_items (fuel : nat) (s : string) : option (list json * string) :=
  match fuel with
  | O => None
  | S f =>
      '(x, r) ← parse_value f s;
      '(more, r) ← after_item 93 r;
      if more : bool then '(l, r) ← parse_items f r; Some (x :: l, r) else Some ([x], r)
  end
with parse_members (fuel : nat) (s : string) : option (list (string * json) * string) :=
  match fuel with
  | O => None
  | S f =>
      s ← opening_quote s;
      '(k, r) ← unquote s;
      r ← colon r;
      '(x, r) ← parse_value f r;
      '(more, r) ← after_item 125 r;
      if more : bool then '(m, r) ← parse_members f r; Some ((k, x) :: m, r) else Some ([(k, x)], r)
  end.
(** Two steps a byte are enough: a step that reads no byte is followed by
    one that does. *)
Definition parse_json (s : string) : option json :=
  '(j, r) ← parse_value (2 * String.length s + 2) s;
  match skip_ws r with EmptyString => Some j | _ => None end.

Definition quotes (s : string) : string := map_str (λ c, if (nat_of_ascii c =? 39)%nat then "034" else c)%char s.
Example parse_example :
  parse_json (quotes " {'a\u0041\u20ac' : [1, -2.50e+3 ,true], 'b':{ }, 'c':null}")
  = Some (JObj [("aA" +:+ encode_rune 8364 "", JArr [JNum "1"; JNum "-2.50e+3"; JBool true]); ("b", JObj []); ("c", JNull)]).
Proof. vm_compute. reflexivity. Qed.
Example parse_rejects :
  map (parse_json ∘ quotes) ["[1,]"; "01"; "{'a':1,}"; "'\x'"; "tru"; "1 2"; ""] = repeat None 7.
Proof. vm_compute. reflexivity. Qed.

(** ** Reading back what was printed *)

(** Well-formed UTF-8. *)
Inductive utf8 : string → Prop :=
| utf8_nil : utf8 ""
| utf8_1 c s : byte_of c <? 128 = true → utf8 s → utf8 (String c s)
| utf8_2 c c1 s : utf8_width c = 2 → utf8_second c c1 = true → utf8 s → utf8 (String c (String c1 s))
| utf8_3 c c1 c2 s :
    utf8_width c = 3 → utf8_second c c1 = true → cont c2 = true → utf8 s → utf8 (String c (String c1 (String c2 s)))
| utf8_4 c c1 c2 c3 s :
    utf8_width c = 4 → utf8_second c c1 = true → cont c2 = true → cont c3 = true → utf8 s →
    utf8 (String c (String c1 (String c2 (String c3 s)))).
Lemma ascii_utf8 s : is_ascii s = true → utf8 s.
Proof.
  unfold is_ascii. induction s as [|c s IH]; cbn [str_all]; intros H; [constructor|].
  apply andb_true_iff in H as [Hc Hs]. by apply utf8_1; [|apply IH].
Qed.

Lemma unquote_char c u : byte_of c <? 128 = true → unquote (esc_char c +:+ u) = prepend (String c) (unquote u).
Proof.
  destruct c as [[] [] [] [] [] [] [] []]; intros H; try (by vm_compute in H);
    cbn; destruct (unquote u) as [[]|]; reflexivity.
Qed.
Lemma wide_lead c : 2 ≤ utf8_width c → 128 ≤ byte_of c.
Proof. unfold utf8_width. destruct (byte_of c <? 128) eqn:E; zb; lia. Qed.
(** A byte of a longer sequence is none of the special ones. *)
Lemma unquote_lead c :
  2 ≤ utf8_width c →
  (byte_of c =? 34) = false ∧ (byte_of c =? 92) = false ∧ (byte_of c <? 32) = false ∧ (utf8_width c =? 1) = false.
Proof.
  intros H. pose proof (wide_lead c H).
  split_all; [apply Z.eqb_neq|apply Z.eqb_neq|apply Z.ltb_ge|apply Z.eqb_neq]; lia.
Qed.
Ltac wide c :=
  let H := fresh in pose proof (unquote_lead c ltac:(lia)) as H; destruct H as (-> & -> & -> & ->).
Lemma unquote_2 c c1 u :
  utf8_width c = 2 → utf8_second c c1 = true →
  unquote (String c (String c1 u)) = prepend (λ t, String c (String c1 t)) (unquote u).
Proof. intros Hw Hs. cbn [unquote]. wide c. by rewrite Hs, Hw. Qed.
Lemma unquote_3 c c1 c2 u :
  utf8_width c = 3 → utf8_second c c1 = true → cont c2 = true →
  unquote (String c (String c1 (String c2 u))) = prepend (λ t, String c (String c1 (String c2 t))) (unquote u).
Proof. intros Hw Hs H2. cbn [unquote]. wide c. by rewrite Hs, H2, Hw. Qed.
Lemma unquote_4 c c1 c2 c3 u :
  utf8_width c = 4 → utf8_second c c1 = true → cont c2 = true → cont c3 = true →
  unquote (String c (String c1 (String c2 (String c3 u))))
  = prepend (λ t, String c (String c1 (String c2 (String c3 t)))) (unquote u).
Proof. intros Hw Hs H2 H3. cbn [unquote]. wide c. by rewrite Hs, H2, H3, Hw. Qed.
Lemma byte_of_inj c n : byte_of c = n → c = byte n.
Proof.
  unfold byte_of, byte. intros <-. by rewrite Nat2Z.id, ascii_nat_embedding.
Qed.
Lemma unquote_esc s t : utf8 s → unquote (esc s +:+ dquote +:+ t) = Some (s, t).
Proof.
  induction 1 as [|c s Hc _ IH|c c1 s Hw Hs _ IH|c c1 c2 s Hw Hs H2 _ IH|c c1 c2 c3 s Hw Hs H2 H3 _ IH].
  - reflexivity.
  - rewrite esc_ascii, append_assoc, unquote_char by done. by rewrite IH.
  - cbn [esc]. pose proof (unquote_lead c ltac:(lia)) as (_ & _ & _ & ->). rewrite Hs, Hw. cbn [negb Z.eqb Pos.eqb].
    cbn [String.append]. rewrite unquote_2 by done. by rewrite IH.
  - cbn [esc]. pose proof (unquote_lead c ltac:(lia)) as (_ & _ & _ & ->). rewrite Hs, H2, Hw. cbn [negb Z.eqb Pos.eqb].
    destruct (_ && _ && (byte_of c2 =? 168)) eqn:E1; [|destruct (_ && _ && (byte_of c2 =? 169)) eqn:E2].
    + zb. rewrite (byte_of_inj c 226), (byte_of_inj c1 128), (byte_of_inj c2 168) by done.
      change (unquote (("\u2028" +:+ esc s) +:+ dquote +:+ t))
        with (prepend (encode_rune 8232) (unquote (esc s +:+ dquote +:+ t))). by rewrite IH.
    + zb. rewrite (byte_of_inj c 226), (byte_of_inj c1 128), (byte_of_inj c2 169) by done.
      change (unquote (("\u2029" +:+ esc s) +:+ dquote +:+ t))
        with (prepend (encode_rune 8233) (unquote (esc s +:+ dquote +:+ t))). by rewrite IH.
    + cbn [String.append]. rewrite unquote_3 by done. by rewrite IH.
  - cbn [esc]. pose proof (unquote_lead c ltac:(lia)) as (_ & _ & _ & ->). rewrite Hs, H2, H3, Hw. cbn [negb Z.eqb Pos.eqb].
    cbn [String.append]. rewrite unquote_4 by done. by rewrite IH.
Qed.

(** *** Numbers *)

Definition number_ends (s : string) : bool :=
  match s with
  | String c _ => negb (is_digit c) && negb (byte_of c =? 46) && negb (byte_of c =? 101) && negb (byte_of c =? 69)
  | EmptyString => true
  end.
Definition number_starts (s : string) : bool :=
  match s with String c _ => is_digit c || (byte_of c =? 45) | EmptyString => false end.
Definition good_number (n : string) : Prop :=
  number_starts n = true ∧ ∀ rest, number_ends rest = true → take_number (n +:+ rest) = Some (n, rest).

Lemma ndigits_go_low fuel z : 1 ≤ z → 10 ^ Z.of_nat (ndigits_go fuel z - 1) ≤ z.
Proof.
  revert z; induction fuel as [|f IH]; intros z Hz; cbn [ndigits_go]; [exact Hz|].
  destruct (z <? 10) eqn:E; zb; [exact Hz|].
  assert (H1 : 1 ≤ z / 10) by (apply Z.div_le_lower_bound; lia).
  specialize (IH _ H1). assert (Hn : (1 ≤ ndigits_go f (z / 10))%nat) by (destruct f; simpl; try case_goal; lia).
  replace (Z.of_nat (S (ndigits_go f (z / 10)) - 1)) with (Z.succ (Z.of_nat (ndigits_go f (z / 10) - 1))) by lia.
  rewrite Z.pow_succ_r by lia. pose proof (Z.mul_div_le z 10). lia.
Qed.
Lemma digits_lead n z :
  10 ^ Z.of_nat n ≤ z < 10 ^ Z.of_nat (S n) →
  ∃ c d, digits (S n) z = String c d ∧ is_digit c = true ∧ (byte_of c =? 48) = false.
Proof.
  revert z; induction n as [|n IH]; intros z Hz.
  - change (10 ^ Z.of_nat 0) with 1 in Hz. change (10 ^ Z.of_nat 1) with 10 in Hz.
    exists (digit z), "". cbn [digits String.append]. rewrite Z.mod_small by lia. split; [done|].
    split; [apply is_digit_digit; lia|]. assert (H : all_below 10 (λ k, (k =? 0) || negb (byte_of (digit k) =? 48)) = true)
      by reflexivity. pose proof (all_below_spec _ _ H z ltac:(lia)) as Hk. cbv beta in Hk.
    apply orb_true_iff in Hk as [Hk|Hk]; zb; lia.
  - destruct (IH (z / 10)) as (c & d & E & Hc & H0).
    { rewrite !Nat2Z.inj_succ, !Z.pow_succ_r in * by lia.
      split; [apply Z.div_le_lower_bound; lia|apply Z.div_lt_upper_bound; lia]. }
    exists c, (d +:+ String (digit (z mod 10)) "").
    change (digits (S (S n)) z) with (digits (S n) (z / 10) +:+ String (digit (z mod 10)) ""). by rewrite E.
Qed.
Lemma ends_stop rest : number_ends rest = true → stops rest = true.
Proof. destruct rest as [|c r]; [done|]. cbn. intros H. zb. by rewrite H. Qed.
Lemma number_tail rest :
  number_ends rest = true → take_fraction rest = Some ("", rest) ∧ take_exponent rest = Some ("", rest).
Proof.
  destruct rest as [|c r]; [done|]. cbn. destruct (byte_of c =? 46); [by rewrite andb_false_r|].
  destruct (byte_of c =? 101); [by rewrite andb_false_r|]. destruct (byte_of c =? 69); [by rewrite andb_false_r|]. done.
Qed.
Lemma take_integer_digits z rest :
  0 ≤ z → stops rest = true →
  take_integer (digits (ndigits z) z +:+ rest) = Some (digits (ndigits z) z, rest).
Proof.
  intros Hz Hr. destruct (decide (z = 0)) as [->|Hn]; [reflexivity|].
  pose proof (ndigits_bound z Hz) as Hb. pose proof (ndigits_go_low (S (Z.to_nat (Z.log2 z))) z ltac:(lia)) as Hl.
  fold (ndigits z) in Hl. destruct (ndigits z) as [|n] eqn:E; [change (10 ^ Z.of_nat 0) with 1 in Hb; lia|].
  replace (S n - 1)%nat with n in Hl by lia.
  destruct (digits_lead n z (conj Hl Hb)) as (c & d & Ed & Hc & H0).
  pose proof (all_digits_digits (S n) z) as Ha. rewrite Ed in *. cbn [String.append take_integer]. rewrite H0.
  unfold take_digits1. change (String c (d +:+ rest)) with (String c d +:+ rest).
  by rewrite span_digits_app.
Qed.
Lemma digit_not_sign c : is_digit c = true → (byte_of c =? 45) = false.
Proof.
  unfold is_digit, digit_val, byte_of. intros H. apply Z.eqb_neq. intros E. rewrite E in H. done.
Qed.
Lemma digits_cons z : 0 ≤ z → ∃ c d, digits (ndigits z) z = String c d ∧ is_digit c = true.
Proof.
  intros Hz. pose proof (all_digits_digits (ndigits z) z) as Ha. pose proof (ndigits_bound z Hz) as Hb.
  destruct (digits (ndigits z) z) as [|c d] eqn:E.
  - exfalso. apply (f_equal String.length) in E. rewrite length_digits in E. simpl in E. rewrite E in Hb.
    change (10 ^ Z.of_nat 0) with 1 in Hb. assert (z = 0) as -> by lia. discriminate E.
  - exists c, d. split; [done|]. unfold all_digits in Ha. cbn in Ha. by zb.
Qed.
Lemma fmt_d_number z : good_number (fmt_d z).
Proof.
  unfold fmt_d, fmt_pad. rewrite !Nat.max_0_l. destruct (z <? 0) eqn:Ez; zb; split.
  - reflexivity.
  - intros rest Hr. unfold take_number. cbn [String.append].
    change (byte_of "-" =? 45) with true. cbv iota beta.
    rewrite take_integer_digits by (lia || by apply ends_stop). cbn [mbind option_bind].
    destruct (number_tail rest Hr) as [-> E]. cbn [mbind option_bind]. rewrite E. cbn [mbind option_bind].
    by rewrite !append_nil_r.
  - destruct (digits_cons z Ez) as (c & d & -> & Hc). cbn. by rewrite Hc.
  - intros rest Hr. destruct (digits_cons z Ez) as (c & d & E & Hc).
    pose proof (take_integer_digits z rest Ez (ends_stop _ Hr)) as Ht. rewrite E in *. cbn [String.append] in *.
    unfold take_number. rewrite digit_not_sign by done. rewrite Ht. cbn [mbind option_bind].
    destruct (number_tail rest Hr) as [-> E']. cbn [mbind option_bind]. rewrite E'. cbn [mbind option_bind].
    by rewrite !append_nil_r.
Qed.

(** *** Documents *)

Section JsonInd.
Context (P : json → Prop).
Hypotheses (Hnull : P JNull) (Hbool : ∀ b, P (JBool b)) (Hnum : ∀ n, P (JNum n)) (Hstr : ∀ s, P (JStr s)).
Hypotheses (Harr : ∀ l, Forall P l → P (JArr l)) (Hobj : ∀ m, Forall (λ kv, P kv.2) m → P (JObj m)).
Fixpoint json_tree_ind (j : json) : P j :=
  match j with
  | JNull => Hnull
  | JBool b => Hbool b
  | JNum n => Hnum n
  | JStr s => Hstr s
  | JArr l =>
      Harr l ((fix go l : Forall P l :=
                 match l with [] => List.Forall_nil _ | x :: l' => List.Forall_cons _ _ _ (json_tree_ind x) (go l') end) l)
  | JObj m =>
      Hobj m ((fix go m : Forall (λ kv, P kv.2) m :=
                 match m with
                 | [] => List.Forall_nil _
                 | kv :: m' => List.Forall_cons _ kv _ (json_tree_ind (snd kv)) (go m')
                 end) m)
  end.
End JsonInd.

(** Strings of well-formed text and literals that are numbers. *)
Fixpoint json_ok (j : json) : Prop :=
  match j with
  | JNull | JBool _ => True
  | JNum n => good_number n
  | JStr s => utf8 s
  | JArr l => (fix go l := match l with [] => True | x :: l' => json_ok x ∧ go l' end) l
  | JObj m => (fix go m := match m with [] => True | (k, x) :: m' => utf8 k ∧ json_ok x ∧ go m' end) m
  end.
Definition member_text (kv : string * json) : string := json_string kv.1 +:+ ":" +:+ json_text kv.2.
Definition items_text (l : list json) : string := str_join "," (map json_text l).
Definition members_text (m : list (string * json)) : string := str_join "," (map member_text m).
Lemma text_arr l : json_text (JArr l) = "[" +:+ items_text l +:+ "]".
Proof. reflexivity. Qed.
Lemma text_obj m : json_text (JObj m) = "{" +:+ members_text m +:+ "}".
Proof.
  cbn [json_text]. unfold members_text. do 2 f_equal. f_equal.
  induction m as [|[k x] m IH]; [done|]. cbn [map]. by rewrite <- IH.
Qed.
Lemma ok_arr l : json_ok (JArr l) ↔ Forall json_ok l.
Proof. induction l as [|x l IH]; cbn [json_ok] in *; [done|]. by rewrite Forall_cons, <- IH. Qed.
Lemma ok_obj m : json_ok (JObj m) ↔ Forall (λ kv, utf8 kv.1 ∧ json_ok kv.2) m.
Proof.
  induction m as [|[k x] m IH]; cbn [json_ok] in *; [done|]. rewrite Forall_cons, <- IH. cbn. tauto.
Qed.

(** What a document starts with. *)
Definition head_ok (c : ascii) : bool := negb (is_ws c) && negb (byte_of c =? 93) && negb (byte_of c =? 125).
Lemma digit_head c : is_digit c = true → head_ok c = true.
Proof.
  unfold is_digit, digit_val, head_ok, is_ws, byte_of. intros H.
  destruct ((48 <=? _) && _) eqn:E; [|done]. zb. set (n := Z.of_nat _) in *.
  repeat match goal with |- context [n =? ?k] => replace (n =? k) with false by (symmetry; apply Z.eqb_neq; lia) end. done.
Qed.
Lemma text_head j : json_ok j → ∃ c s, json_text j = String c s ∧ head_ok c = true.
Proof.
  destruct j as [|[]|n|s|l|m]; intros H; try (do 2 eexists; split; [reflexivity|reflexivity]).
  destruct H as [H _]. destruct n as [|c n]; [done|]. exists c, n. split; [done|]. cbn in H.
  apply orb_true_iff in H as [H|H]; [by apply digit_head|]. apply Z.eqb_eq, byte_of_inj in H as ->. reflexivity.
Qed.
Lemma skip_head c s : head_ok c = true → skip_ws (String c s) = String c s.
Proof. unfold head_ok. intros H. cbn. by destruct (is_ws c). Qed.
Lemma closes_head c s k : head_ok c = true → k = 93 ∨ k = 125 → closes k (String c s) = None.
Proof.
  intros H Hk. unfold closes. rewrite skip_head by done. unfold head_ok in H.
  destruct Hk as [-> | ->]; [destruct (byte_of c =? 93)|destruct (byte_of c =? 125)]; rewrite ?andb_false_r in H; done.
Qed.

(** Calls of the parser on the way through a document. *)
Fixpoint cost (j : json) : nat :=
  match j with
  | JArr l => S ((fix go l := match l with [] => O | x :: l' => S (cost x + go l') end) l)
  | JObj m => S ((fix go m := match m with [] => O | (_, x) :: m' => S (cost x + go m') end) m)
  | _ => 1%nat
  end.
Definition items_cost (l : list json) : nat := sum_list_with (S ∘ cost) l.
Definition members_cost (m : list (string * json)) : nat := sum_list_with (S ∘ cost ∘ snd) m.
Lemma cost_arr l : cost (JArr l) = S (items_cost l).
Proof. reflexivity. Qed.
Lemma cost_obj m : cost (JObj m) = S (members_cost m).
Proof. cbn. f_equal. induction m as [|[k x] m IH]; [done|]. cbn. by rewrite IH. Qed.

Definition reads_back (j : json) : Prop :=
  json_ok j → ∀ fuel rest, (cost j ≤ fuel)%nat → number_ends rest = true →
  parse_value fuel (json_text j +:+ rest) = Some (j, rest).
Lemma parse_scalar_number n fuel rest :
  good_number n → number_ends rest = true → parse_value (S fuel) (n +:+ rest) = Some (JNum n, rest).
Proof.
  intros [Hs Hn] Hr. specialize (Hn rest Hr). destruct n as [|c n]; [done|]. cbn in Hs.
  cbn [String.append] in *. cbn [parse_value].
  assert (Hh : head_ok c = true ∧ ∀ k, k = 34 ∨ k = 91 ∨ k = 123 ∨ k = 116 ∨ k = 102 ∨ k = 110 → (byte_of c =? k) = false).
  { apply orb_true_iff in Hs as [Hs|Hs].
    - split; [by apply digit_head|]. intros k Hk. apply Z.eqb_neq. unfold is_digit, digit_val in Hs.
      fold (byte_of c) in Hs. destruct ((48 <=? _) && _) eqn:E; [|done]. zb. lia.
    - apply Z.eqb_eq, byte_of_inj in Hs as ->. split; [reflexivity|]. intros k Hk. apply Z.eqb_neq. change (byte_of (byte 45)) with 45. lia. }
  destruct Hh as [Hh Hk]. rewrite skip_head by done. do 6 (rewrite Hk by auto 7). by rewrite Hn.
Qed.
Lemma parse_items_text l fuel rest :
  Forall reads_back l → Forall json_ok l → l ≠ [] → (items_cost l ≤ fuel)%nat →
  parse_items fuel (items_text l +:+ "]" +:+ rest) = Some (l, rest).
Proof.
  intros Hr Hok. revert fuel. induction l as [|x l IH]; [done|]. intros fuel _ Hf.
  apply Forall_cons in Hr as [Hx Hr], Hok as [Ox Ok']. unfold items_cost in *. cbn in Hf.
  destruct fuel as [|f]; [lia|]. cbn [parse_items].
  destruct l as [|y l].
  - unfold items_text. cbn [map str_join]. rewrite Hx by (done || lia). reflexivity.
  - unfold items_text in *. change (str_join "," (map json_text (x :: y :: l)))
      with (json_text x +:+ "," +:+ str_join "," (map json_text (y :: l))).
    rewrite !append_assoc, Hx by (done || lia). cbn [mbind option_bind].
    change (after_item 93 ("," +:+ str_join "," (map json_text (y :: l)) +:+ "]" +:+ rest))
      with (Some (true, str_join "," (map json_text (y :: l)) +:+ "]" +:+ rest)).
    cbn [mbind option_bind]. rewrite IH by (done || lia). reflexivity.
Qed.
Lemma colon_here t : colon (":" +:+ t) = Some t.
Proof. reflexivity. Qed.
Lemma quoted_text k t : utf8 k → ∃ u, json_string k +:+ t = String "034" u ∧ unquote u = Some (k, t).
Proof.
  intros Hk. exists (esc k +:+ dquote +:+ t). split; [|by apply unquote_esc].
  unfold json_string. by rewrite !append_assoc.
Qed.
Lemma parse_members_text m fuel rest :
  Forall (λ kv, reads_back kv.2) m → Forall (λ kv, utf8 kv.1 ∧ json_ok kv.2) m → m ≠ [] →
  (members_cost m ≤ fuel)%nat →
  parse_members fuel (members_text m +:+ "}" +:+ rest) = Some (m, rest).
Proof.
  intros Hr Hok. revert fuel. induction m as [|[k x] m IH]; [done|]. intros fuel _ Hf.
  apply Forall_cons in Hr as [Hx Hr], Hok as [[Hk Ox] Ok']. unfold members_cost in *. cbn in Hf, Hx, Hk, Ox.
  destruct fuel as [|f]; [lia|]. cbn [parse_members].
  assert (Hm : ∀ t, ∃ u, member_text (k, x) +:+ t = String "034" u ∧ unquote u = Some (k, ":" +:+ json_text x +:+ t)).
  { intros t. unfold member_text. cbn [fst snd]. rewrite !append_assoc. by apply quoted_text. }
  destruct m as [|y m].
  - unfold members_text. cbn [map str_join]. destruct (Hm ("}" +:+ rest)) as (u & -> & Hu).
    change (opening_quote (String "034" u)) with (Some u). cbn [mbind option_bind]. rewrite Hu.
    cbn [mbind option_bind]. rewrite colon_here. cbn [mbind option_bind]. rewrite Hx by (done || lia). reflexivity.
  - unfold members_text in *. change (str_join "," (map member_text ((k, x) :: y :: m)))
      with (member_text (k, x) +:+ "," +:+ str_join "," (map member_text (y :: m))).
    rewrite !append_assoc. destruct (Hm ("," +:+ str_join "," (map member_text (y :: m)) +:+ "}" +:+ rest)) as (u & -> & Hu).
    change (opening_quote (String "034" u)) with (Some u). cbn [mbind option_bind]. rewrite Hu.
    cbn [mbind option_bind]. rewrite colon_here. cbn [mbind option_bind]. rewrite Hx by (done || lia). cbn [mbind option_bind].
    change (after_item 125 ("," +:+ str_join "," (map member_text (y :: m)) +:+ "}" +:+ rest))
      with (Some (true, str_join "," (map member_text (y :: m)) +:+ "}" +:+ rest)).
    cbn [mbind option_bind]. rewrite IH by (done || lia). reflexivity.
Qed.
Lemma items_head l : Forall json_ok l → l ≠ [] → ∃ c s, items_text l = String c s ∧ head_ok c = true.
Proof.
  intros Hok Hl. destruct l as [|x l]; [done|]. apply Forall_cons in Hok as [Hx _].
  destruct (text_head x Hx) as (c & s & E & Hc). destruct l as [|y l].
  - exists c, s. done.
  - exists c, (s +:+ "," +:+ items_text (y :: l)). split; [|done].
    change (items_text (x :: y :: l)) with (json_text x +:+ "," +:+ items_text (y :: l)). by rewrite E.
Qed.
Lemma members_head m : m ≠ [] → ∃ s, members_text m = String "034" s.
Proof.
  intros Hl. destruct m as [|[k x] m]; [done|]. destruct m as [|y m].
  - eexists. unfold members_text, member_text, json_string, dquote. cbn [map str_join String.append]. reflexivity.
  - eexists. change (members_text ((k, x) :: y :: m)) with (member_text (k, x) +:+ "," +:+ members_text (y :: m)).
    unfold member_text, json_string, dquote. cbn [fst String.append]. reflexivity.
Qed.
Lemma json_reads_back j : reads_back j.
Proof.
  induction j as [|b|n|s|l IH|m IH] using json_tree_ind; intros Hok fuel rest Hf Hr.
  - destruct fuel as [|f]; [cbn in Hf; lia|reflexivity].
  - destruct fuel as [|f]; [cbn in Hf; lia|]. by destruct b.
  - destruct fuel as [|f]; [cbn in Hf; lia|]. by apply parse_scalar_number.
  - destruct fuel as [|f]; [cbn in Hf; lia|]. destruct (quoted_text s rest Hok) as (u & E & Hu).
    cbn [json_text]. rewrite E. cbn [parse_value]. change (skip_ws (String "034" u)) with (String "034" u).
    change (byte_of "034" =? 34) with true. cbv iota. by rewrite Hu.
  - rewrite cost_arr in Hf. destruct fuel as [|f]; [lia|]. apply ok_arr in Hok. rewrite text_arr, !append_assoc. cbn [String.append].
    cbn [parse_value]. rewrite (skip_head "[") by done. cbn iota.
    destruct l as [|x l]; [reflexivity|]. destruct (items_head (x :: l) Hok ltac:(done)) as (c & s & E & Hc).
    rewrite E. cbn [String.append]. rewrite closes_head by auto. 
    change (byte_of "[" =? 34) with false. change (byte_of "[" =? 91) with true. cbv iota.
    pose proof (parse_items_text (x :: l) f rest IH Hok ltac:(done) ltac:(lia)) as H. rewrite E in H.
    cbn [String.append] in H. by rewrite H.
  - rewrite cost_obj in Hf. destruct fuel as [|f]; [lia|]. apply ok_obj in Hok. rewrite text_obj, !append_assoc. cbn [String.append].
    cbn [parse_value]. rewrite (skip_head "{") by done. cbn iota.
    destruct m as [|x m]; [reflexivity|]. destruct (members_head (x :: m) ltac:(done)) as (s & E).
    rewrite E. cbn [String.append]. rewrite (closes_head "034") by auto.
    change (byte_of "{" =? 34) with false. change (byte_of "{" =? 91) with false. change (byte_of "{" =? 123) with true. cbv iota.
    pose proof (parse_members_text (x :: m) f rest IH Hok ltac:(done) ltac:(lia)) as H. rewrite E in H.
    cbn [String.append] in H. by rewrite H.
Qed.

Lemma json_string_length s : (2 ≤ String.length (json_string s))%nat.
Proof. unfold json_string, dquote. rewrite !length_append. cbn. lia. Qed.
Definition short (j : json) : Prop := (cost j ≤ 2 * String.length (json_text j))%nat.
Lemma items_short l :
  Forall short l → (items_cost l ≤ 2 * String.length (items_text l) + 1)%nat.
Proof.
  unfold items_cost, items_text. induction 1 as [|x l Hx _ IH]; [cbn; lia|]. unfold short in Hx.
  destruct l as [|y l]; cbn [sum_list_with map str_join compose] in *; [lia|]. unfold compose in *.
  rewrite !length_append. change (String.length ",") with 1%nat. lia.
Qed.
Lemma members_short m :
  Forall (λ kv, short kv.2) m → (members_cost m ≤ 2 * String.length (members_text m))%nat.
Proof.
  unfold members_cost, members_text. induction 1 as [|[k x] m Hx _ IH]; [cbn; lia|]. unfold short in Hx. cbn [snd] in Hx.
  assert (Hm : (3 + String.length (json_text x) ≤ String.length (member_text (k, x)))%nat).
  { unfold member_text. rewrite !length_append. pose proof (json_string_length k). cbn [fst snd String.length]. lia. }
  destruct m as [|y m]; cbn [sum_list_with map str_join compose snd] in *; unfold compose in *; [lia|].
  rewrite !length_append. change (String.length ",") with 1%nat. cbn [snd]. lia.
Qed.
Lemma cost_short j : json_ok j → short j.
Proof.
  induction j as [|b|n|s|l IH|m IH] using json_tree_ind; intros Hok; unfold short.
  - cbn; lia.
  - destruct b; cbn; lia.
  - destruct Hok as [H _]. destruct n; [done|]. cbn. lia.
  - cbn [json_text cost]. pose proof (json_string_length s). lia.
  - rewrite cost_arr, text_arr, !length_append. cbn [String.length]. apply ok_arr in Hok.
    assert (H : Forall short l) by (clear -IH Hok; induction IH; [done|]; inversion Hok; subst; constructor; auto).
    apply items_short in H. lia.
  - rewrite cost_obj, text_obj, !length_append. cbn [String.length]. apply ok_obj in Hok.
    assert (H : Forall (λ kv, short kv.2) m)
      by (clear -IH Hok; induction IH; [done|]; inversion Hok as [|? ? []]; subst; constructor; auto).
    apply members_short in H. lia.
Qed.
(** A printed document, with white space behind it or not, reads back. *)
Lemma parse_json_text j ws :
  json_ok j → skip_ws ws = "" → parse_json (json_text j +:+ ws) = Some j.
Proof.
  intros Hok Hw. unfold parse_json.
  assert (Hn : number_ends ws = true).
  { destruct ws as [|c w]; [done|]. cbn in Hw. destruct (is_ws c) eqn:E; [|done].
    unfold is_ws in E. rewrite !orb_true_iff, !Z.eqb_eq in E.
    destruct E as [[[E|E]|E]|E]; apply byte_of_inj in E as ->; reflexivity. }
  rewrite (json_reads_back j Hok) by (rewrite ?length_append; pose proof (cost_short j Hok); done || (unfold short in *; lia)).
  cbn [mbind option_bind]. by rewrite Hw.
Qed.
