(* ===== verification/Wire.v ===== *)
(** * The bodies of the daemon's HTTP surface

    [encoding/json] on structs: a codec class with the instances for the
    basic kinds, and the wire structs of [transport/http/wire.go].  The
    client declares the same structs with the same tags in
    [client/http/wire.go], so one record stands for both; what each side
    puts into them and takes out of them follows in Transport.v and
    Client.v. *)

From S2P Require Import Prelude Text Json JsonText GoTime GoFormat Types Status Slots Drop Hash Codec.
From Stdlib Require Import Ascii.

(** ** Marshalling and unmarshalling *)

(** [of_json j old] is [Unmarshal] of [j] into a variable that holds [old];
    [None] when it returns an error. *)
Class WireCodec (A : Type) := {
  zero_val : A;
  to_json : A → json;
  of_json : json → A → option A
}.
Definition Marshal {A} `{WireCodec A} (a : A) : string := json_text (to_json a).
Definition Unmarshal {A} `{WireCodec A} (s : string) : option A := j ← parse_json s; of_json j zero_val.
(** What was marshalled is read back. *)
Definition survives {A} `{WireCodec A} (a : A) : Prop := of_json (to_json a) zero_val = Some a.

#[export] Instance wire_string : WireCodec string := {|
  zero_val := "";
  to_json s := JStr s;
  of_json j old := match j with JStr s => Some s | JNull => Some old | _ => None end
|}.
#[export] Instance wire_bool : WireCodec bool := {|
  zero_val := false;
  to_json b := JBool b;
  of_json j old := match j with JBool b => Some b | JNull => Some old | _ => None end
|}.
(** [int] is 64 bits wide. *)
#[export] Instance wire_int : WireCodec Z := {|
  zero_val := 0;
  to_json z := JNum (fmt_d z);
  of_json j old := match j with JNum n => parse_int64 n | JNull => Some old | _ => None end
|}.
(** A pointer. *)
#[export] Instance wire_pointer {A} `{WireCodec A} : WireCodec (option A) := {|
  zero_val := None;
  to_json p := match p with Some a => to_json a | None => JNull end;
  of_json j old :=
    match j with
    | JNull => Some None
    | _ => a ← of_json j (match old with Some a => a | None => zero_val end); Some (Some a)
    end
|}.
(** A slice; an element is decoded into the one it replaces. *)
Fixpoint decode_items {A} `{WireCodec A} (l : list json) (old : list A) : option (list A) :=
  match l with
  | [] => Some []
  | j :: l' =>
      a ← of_json j (match old with a :: _ => a | [] => zero_val end);
      rest ← decode_items l' (tail old);
      Some (a :: rest)
  end.
#[export] Instance wire_slice {A} `{WireCodec A} : WireCodec (list A) := {|
  zero_val := [];
  to_json l := JArr (map to_json l);
  of_json j old := match j with JNull => Some [] | JArr l => decode_items l old | _ => None end
|}.
(** An [any] is kept as the document. *)
#[export] Instance wire_any : WireCodec json := {| zero_val := JNull; to_json j := j; of_json j _ := Some j |}.
(** A map with string keys, which are printed in order. *)
Definition by_key (a b : string * json) : Prop := String.le a.1 b.1.
#[export] Instance by_key_dec : RelDecision by_key.
Proof. intros a b. unfold by_key. apply _. Defined.
Fixpoint of_members {A} `{WireCodec A} (m : list (string * json)) (old : gmap string A) : option (gmap string A) :=
  match m with
  | [] => Some old
  | (k, j) :: m' => v ← of_json j zero_val; of_members m' (<[k := v]> old)
  end.
#[export] Instance wire_map {A} `{WireCodec A} : WireCodec (gmap string A) := {|
  zero_val := ∅;
  to_json m := JObj (merge_sort by_key (map (λ kv, (kv.1, to_json kv.2)) (map_to_list m)));
  of_json j old := match j with JNull => Some ∅ | JObj l => of_members l old | _ => None end
|}.

(** *** Structs *)

Definition fld {A} `{WireCodec A} (name : string) (a : A) : list (string * json) := [(name, to_json a)].
(** With [omitempty]. *)
Definition fld_omit {A} `{WireCodec A} (empty : A → bool) (name : string) (a : A) : list (string * json) :=
  if empty a then [] else fld name a.
Definition no_items {A} (l : list A) : bool := match l with [] => true | _ => false end.
Definition is_nil {A} (p : option A) : bool := match p with None => true | Some _ => false end.
Definition no_entries {A} (m : gmap string A) : bool := no_items (map_to_list m).

(** A member goes to the field of its name, or of its name up to letter
    case ([K] and long s fold to letters too). *)
Fixpoint fold_name (s : string) : string :=
  match s with
  | String a (String b (String c s' as s1) as t) =>
      if (byte_of a =? 226) && (byte_of b =? 132) && (byte_of c =? 170) then String "k" (fold_name s')
      else if (byte_of a =? 197) && (byte_of b =? 191) then String "s" (fold_name s1)
      else String (lower_char a) (fold_name t)
  | String a (String b s' as t) =>
      if (byte_of a =? 197) && (byte_of b =? 191) then String "s" (fold_name s')
      else String (lower_char a) (fold_name t)
  | String a s' => String (lower_char a) (fold_name s')
  | EmptyString => ""
  end.
Definition field_named (names : list string) (k : string) : option string :=
  if existsb (str_eqb k) names then Some k else find (λ n, str_eqb (fold_name n) (fold_name k)) names.
Definition goes_to (names : list string) (name k : string) : bool :=
  match field_named names k with Some n => str_eqb n name | None => false end.
Fixpoint field {A} `{WireCodec A} (names : list string) (name : string) (m : list (string * json)) (old : A)
    : option A :=
  match m with
  | [] => Some old
  | (k, j) :: m' =>
      if goes_to names name k then a ← of_json j old; field names name m' a else field names name m' old
  end.
Definition of_object {A} (old : A) (f : list (string * json) → option A) (j : json) : option A :=
  match j with JNull => Some old | JObj m => f m | _ => None end.

(** ** The wire structs *)

Record venueQueryWire := mkVenueQueryWire {
  vqw_Kind : string; vqw_URL : string; vqw_Slug : string; vqw_City : string; vqw_Name : string
}.
#[export] Instance wire_venueQuery : WireCodec venueQueryWire := {|
  zero_val := mkVenueQueryWire "" "" "" "" "";
  to_json w := JObj (concat [fld "kind" (vqw_Kind w); fld_omit is_empty "url" (vqw_URL w)
   ; fld_omit is_empty "slug" (vqw_Slug w); fld_omit is_empty "city" (vqw_City w)
   ; fld_omit is_empty "name" (vqw_Name w)]);
  of_json j o := of_object o (λ m,
    let f {A} {C : WireCodec A} := @field A C ["kind"; "url"; "slug"; "city"; "name"] in
    k ← f "kind" m (vqw_Kind o); u ← f "url" m (vqw_URL o); s ← f "slug" m (vqw_Slug o);
    c ← f "city" m (vqw_City o); n ← f "name" m (vqw_Name o);
    Some (mkVenueQueryWire k u s c n)) j
|}.
Record timeWindowWire := mkTimeWindowWire { tww_Start : string; tww_End : string; tww_Priority : string }.
#[export] Instance wire_timeWindow : WireCodec timeWindowWire := {|
  zero_val := mkTimeWindowWire "" "" "";
  to_json w := JObj (concat [fld "start" (tww_Start w); fld "end" (tww_End w)
   ; fld_omit is_empty "priority" (tww_Priority w)]);
  of_json j o := of_object o (λ m,
    let f {A} {C : WireCodec A} := @field A C ["start"; "end"; "priority"] in
    s ← f "start" m (tww_Start o); e ← f "end" m (tww_End o); p ← f "priority" m (tww_Priority o);
    Some (mkTimeWindowWire s e p)) j
|}.
Record constraintsWire := mkConstraintsWire { cw_TableTypes : list string; cw_AnyTable : bool }.
#[export] Instance wire_constraints : WireCodec constraintsWire := {|
  zero_val := mkConstraintsWire [] false;
  to_json w := JObj (concat [fld_omit no_items "table_types" (cw_TableTypes w); fld_omit negb "any_table" (cw_AnyTable w)]);
  of_json j o := of_object o (λ m,
    let f {A} {C : WireCodec A} := @field A C ["table_types"; "any_table"] in
    t ← f "table_types" m (cw_TableTypes o); a ← f "any_table" m (cw_AnyTable o);
    Some (mkConstraintsWire t a)) j
|}.
Record goalWire := mkGoalWire {
  gw_VenueQuery : venueQueryWire;
  gw_Date : string;
  gw_Party : Z;
  gw_TimePrefs : timeWindowWire;
  gw_AccountID : string;
  gw_Constraints : constraintsWire
}.
#[export] Instance wire_goal : WireCodec goalWire := {|
  zero_val := mkGoalWire zero_val "" 0 zero_val "" zero_val;
  to_json w := JObj (concat [fld "venue_query" (gw_VenueQuery w); fld "date" (gw_Date w); fld "party" (gw_Party w)
   ; fld "time_prefs" (gw_TimePrefs w); fld "account_id" (gw_AccountID w)
   ; fld "constraints" (gw_Constraints w)]);
  of_json j o := of_object o (λ m,
    let f {A} {C : WireCodec A} := @field A C ["venue_query"; "date"; "party"; "time_prefs"; "account_id"; "constraints"] in
    q ← f "venue_query" m (gw_VenueQuery o); d ← f "date" m (gw_Date o); p ← f "party" m (gw_Party o);
    t ← f "time_prefs" m (gw_TimePrefs o); a ← f "account_id" m (gw_AccountID o);
    c ← f "constraints" m (gw_Constraints o);
    Some (mkGoalWire q d p t a c)) j
|}.
Record venueWire := mkVenueWire {
  vw_Provider : string;
  vw_Ref : string;
  vw_Name : string;
  vw_TZ : string
}.
#[export] Instance wire_venue : WireCodec venueWire := {|
  zero_val := mkVenueWire "" "" "" "";
  to_json w := JObj (concat [fld "provider" (vw_Provider w); fld "ref" (vw_Ref w);
    fld_omit is_empty "name" (vw_Name w); fld "tz" (vw_TZ w)]);
  of_json j o := of_object o (λ m,
    let f {A} {C : WireCodec A} := @field A C ["provider"; "ref"; "name"; "tz"] in
    x0 ← f "provider" m (vw_Provider o); x1 ← f "ref" m (vw_Ref o); x2 ← f "name" m (vw_Name o);
    x3 ← f "tz" m (vw_TZ o);
    Some (mkVenueWire x0 x1 x2 x3)) j
|}.
Record strategyWire := mkStrategyWire {
  sw_Tag : string;
  sw_At : string;
  sw_ProbeFrom : string;
  sw_ProbeUntil : string;
  sw_Until : string
}.
#[export] Instance wire_strategy : WireCodec strategyWire := {|
  zero_val := mkStrategyWire "" "" "" "" "";
  to_json w := JObj (concat [fld "tag" (sw_Tag w); fld_omit is_empty "at" (sw_At w);
    fld_omit is_empty "probe_from" (sw_ProbeFrom w); fld_omit is_empty "probe_until" (sw_ProbeUntil w);
    fld_omit is_empty "until" (sw_Until w)]);
  of_json j o := of_object o (λ m,
    let f {A} {C : WireCodec A} := @field A C ["tag"; "at"; "probe_from"; "probe_until"; "until"] in
    x0 ← f "tag" m (sw_Tag o); x1 ← f "at" m (sw_At o); x2 ← f "probe_from" m (sw_ProbeFrom o);
    x3 ← f "probe_until" m (sw_ProbeUntil o); x4 ← f "until" m (sw_Until o);
    Some (mkStrategyWire x0 x1 x2 x3 x4)) j
|}.
Record planWire := mkPlanWire {
  pw_Goal : goalWire;
  pw_Venue : venueWire;
  pw_DropMoment : string;
  pw_Strategy : strategyWire;
  pw_FireSchedule : list string;
  pw_SigningRequired : bool;
  pw_Hash : string;
  pw_Notes : list string;
  pw_PlanHashVersion : Z;
  pw_ComputedAt : string
}.
#[export] Instance wire_plan : WireCodec planWire := {|
  zero_val := mkPlanWire zero_val zero_val "" zero_val [] false "" [] 0 "";
  to_json w := JObj (concat [fld "goal" (pw_Goal w); fld "venue" (pw_Venue w);
    fld "drop_moment" (pw_DropMoment w); fld "strategy" (pw_Strategy w);
    fld_omit no_items "fire_schedule" (pw_FireSchedule w); fld "signing_required" (pw_SigningRequired w);
    fld_omit is_empty "hash" (pw_Hash w); fld_omit no_items "notes" (pw_Notes w);
    fld "plan_hash_version" (pw_PlanHashVersion w); fld "computed_at" (pw_ComputedAt w)]);
  of_json j o := of_object o (λ m,
    let f {A} {C : WireCodec A} := @field A C
      ["goal"; "venue"; "drop_moment"; "strategy"; "fire_schedule"; "signing_required"; "hash"; "notes"; "plan_hash_version"; "computed_at"] in
    x0 ← f "goal" m (pw_Goal o); x1 ← f "venue" m (pw_Venue o); x2 ← f "drop_moment" m (pw_DropMoment o);
    x3 ← f "strategy" m (pw_Strategy o); x4 ← f "fire_schedule" m (pw_FireSchedule o);
    x5 ← f "signing_required" m (pw_SigningRequired o); x6 ← f "hash" m (pw_Hash o);
    x7 ← f "notes" m (pw_Notes o); x8 ← f "plan_hash_version" m (pw_PlanHashVersion o);
    x9 ← f "computed_at" m (pw_ComputedAt o);
    Some (mkPlanWire x0 x1 x2 x3 x4 x5 x6 x7 x8 x9)) j
|}.
Record questSummaryWire := mkQuestSummaryWire {
  qw_ID : string;
  qw_UserID : string;
  qw_AccountID : string;
  qw_Status : string;
  qw_CreatedAt : string;
  qw_UpdatedAt : string;
  qw_CompletedAt : option string;
  qw_PlanHash : string
}.
#[export] Instance wire_summary : WireCodec questSummaryWire := {|
  zero_val := mkQuestSummaryWire "" "" "" "" "" "" None "";
  to_json w := JObj (concat [fld "id" (qw_ID w); fld "user_id" (qw_UserID w); fld "account_id" (qw_AccountID w);
    fld "status" (qw_Status w); fld "created_at" (qw_CreatedAt w); fld "updated_at" (qw_UpdatedAt w);
    fld_omit is_nil "completed_at" (qw_CompletedAt w); fld_omit is_empty "plan_hash" (qw_PlanHash w)]);
  of_json j o := of_object o (λ m,
    let f {A} {C : WireCodec A} := @field A C
      ["id"; "user_id"; "account_id"; "status"; "created_at"; "updated_at"; "completed_at"; "plan_hash"] in
    x0 ← f "id" m (qw_ID o); x1 ← f "user_id" m (qw_UserID o); x2 ← f "account_id" m (qw_AccountID o);
    x3 ← f "status" m (qw_Status o); x4 ← f "created_at" m (qw_CreatedAt o);
    x5 ← f "updated_at" m (qw_UpdatedAt o); x6 ← f "completed_at" m (qw_CompletedAt o);
    x7 ← f "plan_hash" m (qw_PlanHash o);
    Some (mkQuestSummaryWire x0 x1 x2 x3 x4 x5 x6 x7)) j
|}.
Record eventWire := mkEventWire {
  ew_Type : string;
  ew_At : string;
  ew_Attrs : gmap string string
}.
#[export] Instance wire_event : WireCodec eventWire := {|
  zero_val := mkEventWire "" "" ∅;
  to_json w := JObj (concat [fld "type" (ew_Type w); fld "at" (ew_At w); fld_omit no_entries "attrs" (ew_Attrs w)]);
  of_json j o := of_object o (λ m,
    let f {A} {C : WireCodec A} := @field A C ["type"; "at"; "attrs"] in
    x0 ← f "type" m (ew_Type o); x1 ← f "at" m (ew_At o); x2 ← f "attrs" m (ew_Attrs o);
    Some (mkEventWire x0 x1 x2)) j
|}.
Record questStateWire := mkQuestStateWire {
  ow_Summary : questSummaryWire;
  ow_Goal : goalWire;
  ow_Plan : planWire;
  ow_Events : list eventWire
}.
#[export] Instance wire_state : WireCodec questStateWire := {|
  zero_val := mkQuestStateWire zero_val zero_val zero_val [];
  to_json w := JObj (concat [fld "summary" (ow_Summary w); fld "goal" (ow_Goal w); fld "plan" (ow_Plan w);
    fld "events" (ow_Events w)]);
  of_json j o := of_object o (λ m,
    let f {A} {C : WireCodec A} := @field A C ["summary"; "goal"; "plan"; "events"] in
    x0 ← f "summary" m (ow_Summary o); x1 ← f "goal" m (ow_Goal o); x2 ← f "plan" m (ow_Plan o);
    x3 ← f "events" m (ow_Events o);
    Some (mkQuestStateWire x0 x1 x2 x3)) j
|}.
Record accountWire := mkAccountWire {
  aw_ID : string;
  aw_UserID : string;
  aw_Email : string;
  aw_DisplayName : string;
  aw_CreatedAt : string;
  aw_DisabledAt : option string
}.
#[export] Instance wire_account : WireCodec accountWire := {|
  zero_val := mkAccountWire "" "" "" "" "" None;
  to_json w := JObj (concat [fld "id" (aw_ID w); fld "user_id" (aw_UserID w); fld "email" (aw_Email w);
    fld_omit is_empty "display_name" (aw_DisplayName w); fld "created_at" (aw_CreatedAt w);
    fld_omit is_nil "disabled_at" (aw_DisabledAt w)]);
  of_json j o := of_object o (λ m,
    let f {A} {C : WireCodec A} := @field A C
      ["id"; "user_id"; "email"; "display_name"; "created_at"; "disabled_at"] in
    x0 ← f "id" m (aw_ID o); x1 ← f "user_id" m (aw_UserID o); x2 ← f "email" m (aw_Email o);
    x3 ← f "display_name" m (aw_DisplayName o); x4 ← f "created_at" m (aw_CreatedAt o);
    x5 ← f "disabled_at" m (aw_DisabledAt o);
    Some (mkAccountWire x0 x1 x2 x3 x4 x5)) j
|}.

(** *** Requests and responses *)

Record resolveVenueRequest := mkResolveVenueRequest {
  rvr_VenueQuery : venueQueryWire
}.
#[export] Instance wire_resolveVenueRequest : WireCodec resolveVenueRequest := {|
  zero_val := mkResolveVenueRequest zero_val;
  to_json w := JObj (concat [fld "venue_query" (rvr_VenueQuery w)]);
  of_json j o := of_object o (λ m,
    let f {A} {C : WireCodec A} := @field A C ["venue_query"] in
    x0 ← f "venue_query" m (rvr_VenueQuery o);
    Some (mkResolveVenueRequest x0)) j
|}.
Record planQuestRequest := mkPlanQuestRequest {
  pqr_Goal : goalWire
}.
#[export] Instance wire_planQuestRequest : WireCodec planQuestRequest := {|
  zero_val := mkPlanQuestRequest zero_val;
  to_json w := JObj (concat [fld "goal" (pqr_Goal w)]);
  of_json j o := of_object o (λ m,
    let f {A} {C : WireCodec A} := @field A C ["goal"] in
    x0 ← f "goal" m (pqr_Goal o);
    Some (mkPlanQuestRequest x0)) j
|}.
Record planQuestResponse := mkPlanQuestResponse {
  pqp_Plan : planWire
}.
#[export] Instance wire_planQuestResponse : WireCodec planQuestResponse := {|
  zero_val := mkPlanQuestResponse zero_val;
  to_json w := JObj (concat [fld "plan" (pqp_Plan w)]);
  of_json j o := of_object o (λ m,
    let f {A} {C : WireCodec A} := @field A C ["plan"] in
    x0 ← f "plan" m (pqp_Plan o);
    Some (mkPlanQuestResponse x0)) j
|}.
Record createQuestRequest := mkCreateQuestRequest {
  cqr_Goal : goalWire;
  cqr_PlanHash : option string;
  cqr_IdempotencyKey : option string
}.
#[export] Instance wire_createQuestRequest : WireCodec createQuestRequest := {|
  zero_val := mkCreateQuestRequest zero_val None None;
  to_json w := JObj (concat [fld "goal" (cqr_Goal w); fld_omit is_nil "plan_hash" (cqr_PlanHash w);
    fld_omit is_nil "idempotency_key" (cqr_IdempotencyKey w)]);
  of_json j o := of_object o (λ m,
    let f {A} {C : WireCodec A} := @field A C ["goal"; "plan_hash"; "idempotency_key"] in
    x0 ← f "goal" m (cqr_Goal o); x1 ← f "plan_hash" m (cqr_PlanHash o);
    x2 ← f "idempotency_key" m (cqr_IdempotencyKey o);
    Some (mkCreateQuestRequest x0 x1 x2)) j
|}.
Record createQuestResponse := mkCreateQuestResponse {
  cqp_ID : string
}.
#[export] Instance wire_createQuestResponse : WireCodec createQuestResponse := {|
  zero_val := mkCreateQuestResponse "";
  to_json w := JObj (concat [fld "id" (cqp_ID w)]);
  of_json j o := of_object o (λ m,
    let f {A} {C : WireCodec A} := @field A C ["id"] in
    x0 ← f "id" m (cqp_ID o);
    Some (mkCreateQuestResponse x0)) j
|}.
Record listQuestsResponse := mkListQuestsResponse {
  lqp_Quests : list questSummaryWire
}.
#[export] Instance wire_listQuestsResponse : WireCodec listQuestsResponse := {|
  zero_val := mkListQuestsResponse [];
  to_json w := JObj (concat [fld "quests" (lqp_Quests w)]);
  of_json j o := of_object o (λ m,
    let f {A} {C : WireCodec A} := @field A C ["quests"] in
    x0 ← f "quests" m (lqp_Quests o);
    Some (mkListQuestsResponse x0)) j
|}.
Record cancelQuestRequest := mkCancelQuestRequest {
  xqr_Reason : string;
  xqr_IdempotencyKey : option string
}.
#[export] Instance wire_cancelQuestRequest : WireCodec cancelQuestRequest := {|
  zero_val := mkCancelQuestRequest "" None;
  to_json w := JObj (concat [fld_omit is_empty "reason" (xqr_Reason w);
    fld_omit is_nil "idempotency_key" (xqr_IdempotencyKey w)]);
  of_json j o := of_object o (λ m,
    let f {A} {C : WireCodec A} := @field A C ["reason"; "idempotency_key"] in
    x0 ← f "reason" m (xqr_Reason o); x1 ← f "idempotency_key" m (xqr_IdempotencyKey o);
    Some (mkCancelQuestRequest x0 x1)) j
|}.
Record loginRequest := mkLoginRequest {
  lgr_Email : string;
  lgr_Password : string
}.
#[export] Instance wire_loginRequest : WireCodec loginRequest := {|
  zero_val := mkLoginRequest "" "";
  to_json w := JObj (concat [fld "email" (lgr_Email w); fld "password" (lgr_Password w)]);
  of_json j o := of_object o (λ m,
    let f {A} {C : WireCodec A} := @field A C ["email"; "password"] in
    x0 ← f "email" m (lgr_Email o); x1 ← f "password" m (lgr_Password o);
    Some (mkLoginRequest x0 x1)) j
|}.
Record loginResponse := mkLoginResponse {
  lgp_AccountID : string
}.
#[export] Instance wire_loginResponse : WireCodec loginResponse := {|
  zero_val := mkLoginResponse "";
  to_json w := JObj (concat [fld "account_id" (lgp_AccountID w)]);
  of_json j o := of_object o (λ m,
    let f {A} {C : WireCodec A} := @field A C ["account_id"] in
    x0 ← f "account_id" m (lgp_AccountID o);
    Some (mkLoginResponse x0)) j
|}.
Record listAccountsResponse := mkListAccountsResponse {
  lap_Accounts : list accountWire
}.
#[export] Instance wire_listAccountsResponse : WireCodec listAccountsResponse := {|
  zero_val := mkListAccountsResponse [];
  to_json w := JObj (concat [fld "accounts" (lap_Accounts w)]);
  of_json j o := of_object o (λ m,
    let f {A} {C : WireCodec A} := @field A C ["accounts"] in
    x0 ← f "accounts" m (lap_Accounts o);
    Some (mkListAccountsResponse x0)) j
|}.
Record issueTokenRequest := mkIssueTokenRequest {
  itr_Label : string;
  itr_Scope : string
}.
#[export] Instance wire_issueTokenRequest : WireCodec issueTokenRequest := {|
  zero_val := mkIssueTokenRequest "" "";
  to_json w := JObj (concat [fld "label" (itr_Label w); fld "scope" (itr_Scope w)]);
  of_json j o := of_object o (λ m,
    let f {A} {C : WireCodec A} := @field A C ["label"; "scope"] in
    x0 ← f "label" m (itr_Label o); x1 ← f "scope" m (itr_Scope o);
    Some (mkIssueTokenRequest x0 x1)) j
|}.
Record issueTokenResponse := mkIssueTokenResponse {
  itp_ID : string;
  itp_Token : string;
  itp_Label : string;
  itp_Scope : string;
  itp_CreatedAt : string
}.
#[export] Instance wire_issueTokenResponse : WireCodec issueTokenResponse := {|
  zero_val := mkIssueTokenResponse "" "" "" "" "";
  to_json w := JObj (concat [fld "id" (itp_ID w); fld "token" (itp_Token w); fld "label" (itp_Label w);
    fld "scope" (itp_Scope w); fld "created_at" (itp_CreatedAt w)]);
  of_json j o := of_object o (λ m,
    let f {A} {C : WireCodec A} := @field A C ["id"; "token"; "label"; "scope"; "created_at"] in
    x0 ← f "id" m (itp_ID o); x1 ← f "token" m (itp_Token o); x2 ← f "label" m (itp_Label o);
    x3 ← f "scope" m (itp_Scope o); x4 ← f "created_at" m (itp_CreatedAt o);
    Some (mkIssueTokenResponse x0 x1 x2 x3 x4)) j
|}.
Record tokenResponse := mkTokenResponse {
  tkp_ID : string;
  tkp_Scope : string;
  tkp_Label : string;
  tkp_CreatedAt : string;
  tkp_LastSeen : option string;
  tkp_RevokedAt : option string
}.
#[export] Instance wire_tokenResponse : WireCodec tokenResponse := {|
  zero_val := mkTokenResponse "" "" "" "" None None;
  to_json w := JObj (concat [fld "id" (tkp_ID w); fld "scope" (tkp_Scope w); fld "label" (tkp_Label w);
    fld "created_at" (tkp_CreatedAt w); fld_omit is_nil "last_seen" (tkp_LastSeen w);
    fld_omit is_nil "revoked_at" (tkp_RevokedAt w)]);
  of_json j o := of_object o (λ m,
    let f {A} {C : WireCodec A} := @field A C
      ["id"; "scope"; "label"; "created_at"; "last_seen"; "revoked_at"] in
    x0 ← f "id" m (tkp_ID o); x1 ← f "scope" m (tkp_Scope o); x2 ← f "label" m (tkp_Label o);
    x3 ← f "created_at" m (tkp_CreatedAt o); x4 ← f "last_seen" m (tkp_LastSeen o);
    x5 ← f "revoked_at" m (tkp_RevokedAt o);
    Some (mkTokenResponse x0 x1 x2 x3 x4 x5)) j
|}.
(** The daemon answers with a [map[string]any] of the one key, the client
    with this struct. *)
Record listTokensResponse := mkListTokensResponse {
  ltp_Tokens : list tokenResponse
}.
#[export] Instance wire_listTokensResponse : WireCodec listTokensResponse := {|
  zero_val := mkListTokensResponse [];
  to_json w := JObj (concat [fld "tokens" (ltp_Tokens w)]);
  of_json j o := of_object o (λ m,
    let f {A} {C : WireCodec A} := @field A C ["tokens"] in
    x0 ← f "tokens" m (ltp_Tokens o);
    Some (mkListTokensResponse x0)) j
|}.
(** [errors.go]. *)
Record Envelope := mkErrorEnvelope {
  en_Code : string;
  en_Message : string;
  en_Details : gmap string json
}.
#[export] Instance wire_envelope : WireCodec Envelope := {|
  zero_val := mkErrorEnvelope "" "" ∅;
  to_json w := JObj (concat [fld "code" (en_Code w); fld "message" (en_Message w);
    fld_omit no_entries "details" (en_Details w)]);
  of_json j o := of_object o (λ m,
    let f {A} {C : WireCodec A} := @field A C ["code"; "message"; "details"] in
    x0 ← f "code" m (en_Code o); x1 ← f "message" m (en_Message o); x2 ← f "details" m (en_Details o);
    Some (mkErrorEnvelope x0 x1 x2)) j
|}.

(** ** What is marshalled is read back *)

Lemma string_survives (s : string) : survives s.
Proof. reflexivity. Qed.
Lemma bool_survives (b : bool) : survives b.
Proof. reflexivity. Qed.
Lemma int_survives z : min_int64 ≤ z ≤ max_int64 → survives z.
Proof. intros H. unfold survives. cbn. by apply parse_int64_fmt. Qed.
Lemma slice_survives {A} `{WireCodec A} (l : list A) : Forall survives l → survives l.
Proof.
  intros Hl. unfold survives. cbn. induction Hl as [|a l Ha _ IH]; [done|]. cbn.
  unfold survives in Ha. rewrite Ha. cbn. cbn in IH. by rewrite IH.
Qed.
Lemma pointer_survives {A} `{WireCodec A} (p : option A) :
  match p with Some a => survives a ∧ to_json a ≠ JNull | None => True end → survives p.
Proof.
  destruct p as [a|]; [|done]. intros [Ha Hn]. unfold survives in *. cbn. destruct (to_json a) eqn:E; rewrite ?Ha; done.
Qed.
Lemma text_pointer_survives (p : option string) : survives p.
Proof. apply pointer_survives. by destruct p. Qed.
Create HintDb wire.
#[export] Hint Resolve string_survives bool_survives int_survives slice_survives text_pointer_survives : wire.

Lemma of_members_map {A} `{WireCodec A} (m : gmap string A) :
  (∀ k a, m !! k = Some a → survives a) → survives m.
Proof.
  intros Hs. unfold survives. cbn [of_json to_json wire_map zero_val].
  set (l := map (λ kv : string * A, (kv.1, to_json kv.2)) (map_to_list m)).
  assert (Hp : ∃ l', merge_sort by_key l = map (λ kv, (kv.1, to_json kv.2)) l' ∧ l' ≡ₚ map_to_list m).
  { assert (P : merge_sort by_key l ≡ₚ l) by apply merge_sort_Permutation.
    apply Permutation_map_inv in P as (l' & E & P). exists l'. split; [done|]. by symmetry. }
  destruct Hp as (l' & -> & Hp). clear l.
  assert (Hl : Forall (λ kv, survives kv.2) l').
  { rewrite Hp. apply Forall_forall. intros [k a] Hin. apply elem_of_map_to_list in Hin. by eapply Hs. }
  assert (E : ∀ old, of_members (map (λ kv, (kv.1, to_json kv.2)) l') old = Some (fold_left (λ o kv, <[kv.1 := kv.2]> o) l' old)).
  { clear -Hl. induction Hl as [|[k a] l0 Ha _ IH]; [done|]. intros old. cbn. unfold survives in Ha. cbn in Ha. rewrite Ha.
    cbn. apply IH. }
  rewrite E. f_equal. clear E Hl Hs.
  assert (Hn : NoDup l'.*1) by (rewrite Hp; apply NoDup_fst_map_to_list).
  transitivity (list_to_map l' : gmap string A); [|by rewrite (list_to_map_proper l' _ Hn Hp), list_to_map_to_list].
  assert (G : ∀ o, fold_left (λ o kv, <[kv.1 := kv.2]> o) l' o = (list_to_map l' : gmap string A) ∪ o).
  { clear Hp. induction l' as [|[k a] l' IH]; intros o; cbn; [by rewrite map_empty_union|].
    apply NoDup_cons in Hn as [Hk Hn]. rewrite IH by done.
    rewrite <- insert_union_l, insert_union_r by (by apply not_elem_of_list_to_map_1). done. }
  rewrite G. by rewrite map_union_empty.
Qed.
(** Reading an object field by field. *)
Section Fields.
Context {A B : Type} `{!WireCodec A} `{!WireCodec B} (names : list string) (name : string).
Lemma field_skip k (b : B) m (a : A) : goes_to names name k = false → field names name (fld k b ++ m) a = field names name m a.
Proof. intros H. cbn. by rewrite H. Qed.
Lemma field_skip_omit e k (b : B) m (a : A) :
  goes_to names name k = false → field names name (fld_omit e k b ++ m) a = field names name m a.
Proof. intros H. unfold fld_omit. destruct (e b); [done|by apply field_skip]. Qed.
Lemma field_hit k m (a o : A) :
  o = zero_val → survives a → goes_to names name k = true →
  field names name (fld k a ++ m) o = field names name m a.
Proof. intros -> Ha H. cbn. unfold survives in Ha. by rewrite H, Ha. Qed.
Lemma field_hit_omit (e : A → bool) k m (a o : A) :
  o = zero_val → survives a → (e a = true → a = zero_val) → goes_to names name k = true →
  field names name (fld_omit e k a ++ m) o = field names name m a.
Proof. intros -> Ha He H. unfold fld_omit. destruct (e a) eqn:E; [by rewrite He|by apply field_hit]. Qed.
End Fields.
Lemma bind_eq {A B} (m : option A) (f : A → option B) a r : m = Some a → f a = r → m ≫= f = r.
Proof. by intros ->. Qed.
Lemma is_empty_zero s : is_empty s = true → s = zero_val.
Proof. apply str_eqb_true. Qed.
Lemma no_items_zero {A} `{WireCodec A} (l : list A) : no_items l = true → l = zero_val.
Proof. by destruct l. Qed.
Lemma is_nil_zero {A} `{WireCodec A} (p : option A) : is_nil p = true → p = zero_val.
Proof. by destruct p. Qed.
Lemma no_entries_zero {A} `{WireCodec A} (m : gmap string A) : no_entries m = true → m = zero_val.
Proof. intros Hm. apply map_to_list_empty_iff. by destruct (map_to_list m) eqn:E; [|unfold no_entries in Hm; rewrite E in Hm]. Qed.
Lemma negb_zero b : negb b = true → b = zero_val.
Proof. apply negb_true_iff. Qed.
#[export] Hint Resolve is_empty_zero no_items_zero is_nil_zero no_entries_zero negb_zero : wire.
(** One field of an object: the members before it are skipped, its own is
    read or was left out, the rest is skipped. *)
Ltac one_field :=
  repeat first [rewrite field_skip by (vm_compute; reflexivity) | rewrite field_skip_omit by (vm_compute; reflexivity)];
  eapply eq_trans;
    [first [apply field_hit | apply field_hit_omit]; [reflexivity|auto with wire..|vm_compute; reflexivity]|];
  repeat first [rewrite field_skip by (vm_compute; reflexivity) | rewrite field_skip_omit by (vm_compute; reflexivity)];
  reflexivity.
Tactic Notation "fields" reference(codec) constr(w) :=
  unfold survives, codec; cbn [to_json of_json of_object concat];
  repeat (eapply bind_eq; [one_field|]); by destruct w.

Lemma venueQuery_survives (w : venueQueryWire) : survives w.
Proof. fields wire_venueQuery w. Qed.
Lemma timeWindow_survives (w : timeWindowWire) : survives w.
Proof. fields wire_timeWindow w. Qed.
Lemma constraints_survives (w : constraintsWire) : survives w.
Proof.
  assert (H : survives (cw_TableTypes w)) by (apply slice_survives, Forall_true; auto with wire).
  fields wire_constraints w.
Qed.
Lemma goal_survives (w : goalWire) : min_int64 ≤ gw_Party w ≤ max_int64 → survives w.
Proof.
  intros Hp%int_survives. pose proof (venueQuery_survives (gw_VenueQuery w)).
  pose proof (timeWindow_survives (gw_TimePrefs w)). pose proof (constraints_survives (gw_Constraints w)).
  fields wire_goal w.
Qed.
Lemma strings_survive (l : list string) : survives l.
Proof. apply slice_survives, Forall_true. auto with wire. Qed.
Lemma venue_survives (w : venueWire) : survives w.
Proof. fields wire_venue w. Qed.
Lemma strategy_survives (w : strategyWire) : survives w.
Proof. fields wire_strategy w. Qed.
Lemma plan_survives (w : planWire) :
  min_int64 ≤ gw_Party (pw_Goal w) ≤ max_int64 → min_int64 ≤ pw_PlanHashVersion w ≤ max_int64 → survives w.
Proof.
  intros Hg%goal_survives Hv%int_survives. pose proof (venue_survives (pw_Venue w)).
  pose proof (strategy_survives (pw_Strategy w)). pose proof (strings_survive (pw_FireSchedule w)).
  pose proof (strings_survive (pw_Notes w)). fields wire_plan w.
Qed.
Lemma summary_survives (w : questSummaryWire) : survives w.
Proof. pose proof (text_pointer_survives (qw_CompletedAt w)). fields wire_summary w. Qed.
Lemma event_survives (w : eventWire) : survives w.
Proof.
  assert (H : survives (ew_Attrs w)) by (apply of_members_map; auto with wire). fields wire_event w.
Qed.
Lemma state_survives (w : questStateWire) :
  min_int64 ≤ gw_Party (ow_Goal w) ≤ max_int64 → survives (ow_Plan w) → survives w.
Proof.
  intros Hg%goal_survives Hp. pose proof (summary_survives (ow_Summary w)).
  assert (survives (ow_Events w)) by (apply slice_survives, Forall_true, event_survives). fields wire_state w.
Qed.
Lemma account_survives (w : accountWire) : survives w.
Proof. pose proof (text_pointer_survives (aw_DisabledAt w)). fields wire_account w. Qed.
Lemma token_survives (w : tokenResponse) : survives w.
Proof.
  pose proof (text_pointer_survives (tkp_LastSeen w)). pose proof (text_pointer_survives (tkp_RevokedAt w)).
  fields wire_tokenResponse w.
Qed.
Lemma any_survives (j : json) : survives j.
Proof. reflexivity. Qed.
Lemma envelope_survives (w : Envelope) : survives w.
Proof.
  assert (H : survives (en_Details w)) by (apply of_members_map; intros; apply any_survives).
  fields wire_envelope w.
Qed.
Lemma createQuestRequest_survives (w : createQuestRequest) :
  min_int64 ≤ gw_Party (cqr_Goal w) ≤ max_int64 → survives w.
Proof.
  intros Hg%goal_survives. pose proof (text_pointer_survives (cqr_PlanHash w)).
  pose proof (text_pointer_survives (cqr_IdempotencyKey w)). fields wire_createQuestRequest w.
Qed.
Lemma createQuestResponse_survives (w : createQuestResponse) : survives w.
Proof. fields wire_createQuestResponse w. Qed.
Lemma cancelQuestRequest_survives (w : cancelQuestRequest) : survives w.
Proof. pose proof (text_pointer_survives (xqr_IdempotencyKey w)). fields wire_cancelQuestRequest w. Qed.
Lemma planQuestRequest_survives (w : planQuestRequest) :
  min_int64 ≤ gw_Party (pqr_Goal w) ≤ max_int64 → survives w.
Proof. intros Hg%goal_survives. fields wire_planQuestRequest w. Qed.
Lemma planQuestResponse_survives (w : planQuestResponse) : survives (pqp_Plan w) → survives w.
Proof. intros H. fields wire_planQuestResponse w. Qed.
Lemma listQuestsResponse_survives (w : listQuestsResponse) : survives w.
Proof.
  assert (survives (lqp_Quests w)) by (apply slice_survives, Forall_true, summary_survives).
  fields wire_listQuestsResponse w.
Qed.
