(* ===== verification/ResyWire.v ===== *)
(** * [internal/resy]: what the booking site answers

    The response bodies of [types.go] with the envelope of [auth.go], and the
    expiry of a session's token ([session.go]).  A field the code does not
    name is skipped by the decoder, and so has no counterpart. *)

From S2P Require Import Prelude Text Json JsonText Url Http GoTime GoFormat Types Status Slots Drop Hash Codec Wire.
From Stdlib Require Import Ascii.

(** A [struct{}]: any object. *)
#[export] Instance wire_empty : WireCodec unit := {|
  zero_val := tt;
  to_json _ := JObj [];
  of_json j _ := match j with JNull => Some tt | JObj _ => Some tt | _ => None end
|}.

(** ** [types.go] *)

Record AuthPaymentBlob := mkAuthPaymentBlob { apb_ID : Z }.
#[export] Instance wire_authPayment : WireCodec AuthPaymentBlob := {|
  zero_val := mkAuthPaymentBlob 0;
  to_json w := JObj (fld "id" (apb_ID w));
  of_json j o := of_object o (λ m, i ← field ["id"] "id" m (apb_ID o); Some (mkAuthPaymentBlob i)) j
|}.
(** With the [AuthResponse] it embeds. *)
Record authResponseEnvelope := mkAuthResponseEnvelope {
  are_ID : Z; are_Email : string; are_FirstName : string; are_LastName : string; are_Token : string;
  are_Mobile : string; are_Payment : AuthPaymentBlob; are_MFARequired : bool; are_ChallengeID : string;
  are_ChallengeType : string
}.
#[export] Instance wire_authResponse : WireCodec authResponseEnvelope := {|
  zero_val := mkAuthResponseEnvelope 0 "" "" "" "" "" zero_val false "" "";
  to_json w := JObj (concat [fld "id" (are_ID w); fld "em_address" (are_Email w); fld "first_name" (are_FirstName w);
    fld "last_name" (are_LastName w); fld "token" (are_Token w); fld "mobile_number" (are_Mobile w);
    fld "payment_method" (are_Payment w); fld "mfa_required" (are_MFARequired w); fld "challenge_id" (are_ChallengeID w);
    fld "challenge_type" (are_ChallengeType w)]);
  of_json j o := of_object o (λ m,
    let f {A} {C : WireCodec A} := @field A C ["id"; "em_address"; "first_name"; "last_name"; "token"; "mobile_number";
                                    "payment_method"; "mfa_required"; "challenge_id"; "challenge_type"] in
    i ← f "id" m (are_ID o); e ← f "em_address" m (are_Email o); fn ← f "first_name" m (are_FirstName o);
    ln ← f "last_name" m (are_LastName o); t ← f "token" m (are_Token o); mo ← f "mobile_number" m (are_Mobile o);
    p ← f "payment_method" m (are_Payment o); mf ← f "mfa_required" m (are_MFARequired o);
    ci ← f "challenge_id" m (are_ChallengeID o); ct ← f "challenge_type" m (are_ChallengeType o);
    Some (mkAuthResponseEnvelope i e fn ln t mo p mf ci ct)) j
|}.
Record FindSlotConfig := mkFindSlotConfig { fsc_Token : string; fsc_Type : string; fsc_ID : Z }.
#[export] Instance wire_slotConfig : WireCodec FindSlotConfig := {|
  zero_val := mkFindSlotConfig "" "" 0;
  to_json w := JObj (concat [fld "token" (fsc_Token w); fld "type" (fsc_Type w); fld "id" (fsc_ID w)]);
  of_json j o := of_object o (λ m,
    let f {A} {C : WireCodec A} := @field A C ["token"; "type"; "id"] in
    t ← f "token" m (fsc_Token o); y ← f "type" m (fsc_Type o); i ← f "id" m (fsc_ID o);
    Some (mkFindSlotConfig t y i)) j
|}.
Record FindSlotDate := mkFindSlotDate { fsd_Start : string; fsd_End : string }.
#[export] Instance wire_slotDate : WireCodec FindSlotDate := {|
  zero_val := mkFindSlotDate "" "";
  to_json w := JObj (concat [fld "start" (fsd_Start w); fld "end" (fsd_End w)]);
  of_json j o := of_object o (λ m,
    let f {A} {C : WireCodec A} := @field A C ["start"; "end"] in
    s ← f "start" m (fsd_Start o); e ← f "end" m (fsd_End o); Some (mkFindSlotDate s e)) j
|}.
Record FindSlot := mkFindSlot { fs_Config : FindSlotConfig; fs_Date : FindSlotDate }.
#[export] Instance wire_findSlot : WireCodec FindSlot := {|
  zero_val := mkFindSlot zero_val zero_val;
  to_json w := JObj (concat [fld "config" (fs_Config w); fld "date" (fs_Date w)]);
  of_json j o := of_object o (λ m,
    let f {A} {C : WireCodec A} := @field A C ["config"; "date"] in
    c ← f "config" m (fs_Config o); d ← f "date" m (fs_Date o); Some (mkFindSlot c d)) j
|}.
Record FindVenueIdent := mkFindVenueIdent { fvi_Name : string }.
#[export] Instance wire_venueIdent : WireCodec FindVenueIdent := {|
  zero_val := mkFindVenueIdent "";
  to_json w := JObj (fld "name" (fvi_Name w));
  of_json j o := of_object o (λ m, n ← field ["name"] "name" m (fvi_Name o); Some (mkFindVenueIdent n)) j
|}.
Record FindVenue := mkFindVenue { fv_Slots : list FindSlot; fv_Venue : FindVenueIdent }.
#[export] Instance wire_findVenue : WireCodec FindVenue := {|
  zero_val := mkFindVenue [] zero_val;
  to_json w := JObj (concat [fld "slots" (fv_Slots w); fld "venue" (fv_Venue w)]);
  of_json j o := of_object o (λ m,
    let f {A} {C : WireCodec A} := @field A C ["slots"; "venue"] in
    s ← f "slots" m (fv_Slots o); v ← f "venue" m (fv_Venue o); Some (mkFindVenue s v)) j
|}.
Record FindResults := mkFindResults { fre_Venues : list FindVenue }.
#[export] Instance wire_findResults : WireCodec FindResults := {|
  zero_val := mkFindResults [];
  to_json w := JObj (fld "venues" (fre_Venues w));
  of_json j o := of_object o (λ m, v ← field ["venues"] "venues" m (fre_Venues o); Some (mkFindResults v)) j
|}.
Record FindResponse := mkFindResponse { fr_Results : FindResults }.
#[export] Instance wire_findResponse : WireCodec FindResponse := {|
  zero_val := mkFindResponse zero_val;
  to_json w := JObj (fld "results" (fr_Results w));
  of_json j o := of_object o (λ m, r ← field ["results"] "results" m (fr_Results o); Some (mkFindResponse r)) j
|}.
Record DetailsBookToken := mkDetailsBookToken { dbt_Value : string }.
#[export] Instance wire_bookToken : WireCodec DetailsBookToken := {|
  zero_val := mkDetailsBookToken "";
  to_json w := JObj (fld "value" (dbt_Value w));
  of_json j o := of_object o (λ m, v ← field ["value"] "value" m (dbt_Value o); Some (mkDetailsBookToken v)) j
|}.
Record DetailsPaymentMethod := mkDetailsPaymentMethod { dpm_ID : Z; dpm_Display : string }.
#[export] Instance wire_paymentMethod : WireCodec DetailsPaymentMethod := {|
  zero_val := mkDetailsPaymentMethod 0 "";
  to_json w := JObj (concat [fld "id" (dpm_ID w); fld "display" (dpm_Display w)]);
  of_json j o := of_object o (λ m,
    let f {A} {C : WireCodec A} := @field A C ["id"; "display"] in
    i ← f "id" m (dpm_ID o); d ← f "display" m (dpm_Display o); Some (mkDetailsPaymentMethod i d)) j
|}.
Record DetailsUser := mkDetailsUser { du_PaymentMethods : list DetailsPaymentMethod }.
#[export] Instance wire_detailsUser : WireCodec DetailsUser := {|
  zero_val := mkDetailsUser [];
  to_json w := JObj (fld "payment_methods" (du_PaymentMethods w));
  of_json j o := of_object o (λ m,
    p ← field ["payment_methods"] "payment_methods" m (du_PaymentMethods o); Some (mkDetailsUser p)) j
|}.
Record DetailsResponse := mkDetailsResponse { dr_BookToken : DetailsBookToken; dr_User : DetailsUser }.
#[export] Instance wire_details : WireCodec DetailsResponse := {|
  zero_val := mkDetailsResponse zero_val zero_val;
  to_json w := JObj (concat [fld "book_token" (dr_BookToken w); fld "user" (dr_User w)]);
  of_json j o := of_object o (λ m,
    let f {A} {C : WireCodec A} := @field A C ["book_token"; "user"] in
    b ← f "book_token" m (dr_BookToken o); u ← f "user" m (dr_User o); Some (mkDetailsResponse b u)) j
|}.
Record BookResponse := mkBookResponse { br_ResyToken : string; br_ReservationID : Z }.
#[export] Instance wire_bookResponse : WireCodec BookResponse := {|
  zero_val := mkBookResponse "" 0;
  to_json w := JObj (concat [fld "resy_token" (br_ResyToken w); fld "reservation_id" (br_ReservationID w)]);
  of_json j o := of_object o (λ m,
    let f {A} {C : WireCodec A} := @field A C ["resy_token"; "reservation_id"] in
    t ← f "resy_token" m (br_ResyToken o); r ← f "reservation_id" m (br_ReservationID o);
    Some (mkBookResponse t r)) j
|}.
Record VenueIdentBlock := mkVenueIdentBlock { vib_Resy : Z }.
#[export] Instance wire_identBlock : WireCodec VenueIdentBlock := {|
  zero_val := mkVenueIdentBlock 0;
  to_json w := JObj (fld "resy" (vib_Resy w));
  of_json j o := of_object o (λ m, r ← field ["resy"] "resy" m (vib_Resy o); Some (mkVenueIdentBlock r)) j
|}.
Record VenueLocale := mkVenueLocale { vl_Currency : string; vl_TimeZone : string }.
#[export] Instance wire_venueLocale : WireCodec VenueLocale := {|
  zero_val := mkVenueLocale "" "";
  to_json w := JObj (concat [fld "currency" (vl_Currency w); fld "time_zone" (vl_TimeZone w)]);
  of_json j o := of_object o (λ m,
    let f {A} {C : WireCodec A} := @field A C ["currency"; "time_zone"] in
    c ← f "currency" m (vl_Currency o); z ← f "time_zone" m (vl_TimeZone o); Some (mkVenueLocale c z)) j
|}.
Record VenueResponse := mkVenueResponse { vre_ID : VenueIdentBlock; vre_Name : string; vre_URLSlug : string; vre_Locale : VenueLocale }.
#[export] Instance wire_venueResponse : WireCodec VenueResponse := {|
  zero_val := mkVenueResponse zero_val "" "" zero_val;
  to_json w := JObj (concat [fld "id" (vre_ID w); fld "name" (vre_Name w); fld "url_slug" (vre_URLSlug w); fld "locale" (vre_Locale w)]);
  of_json j o := of_object o (λ m,
    let f {A} {C : WireCodec A} := @field A C ["id"; "name"; "url_slug"; "locale"] in
    i ← f "id" m (vre_ID o); n ← f "name" m (vre_Name o); s ← f "url_slug" m (vre_URLSlug o);
    l ← f "locale" m (vre_Locale o); Some (mkVenueResponse i n s l)) j
|}.
Record SearchRequest := mkSearchRequest { sq_Query : string; sq_PerPage : Z; sq_Types : list string }.
#[export] Instance wire_searchRequest : WireCodec SearchRequest := {|
  zero_val := mkSearchRequest "" 0 [];
  to_json w := JObj (concat [fld "query" (sq_Query w); fld "per_page" (sq_PerPage w); fld "types" (sq_Types w)]);
  of_json j o := of_object o (λ m,
    let f {A} {C : WireCodec A} := @field A C ["query"; "per_page"; "types"] in
    q ← f "query" m (sq_Query o); p ← f "per_page" m (sq_PerPage o); t ← f "types" m (sq_Types o);
    Some (mkSearchRequest q p t)) j
|}.
Record SearchHitLocation := mkSearchHitLocation { shl_Code : string; shl_Name : string }.
#[export] Instance wire_hitLocation : WireCodec SearchHitLocation := {|
  zero_val := mkSearchHitLocation "" "";
  to_json w := JObj (concat [fld "code" (shl_Code w); fld "name" (shl_Name w)]);
  of_json j o := of_object o (λ m,
    let f {A} {C : WireCodec A} := @field A C ["code"; "name"] in
    c ← f "code" m (shl_Code o); n ← f "name" m (shl_Name o); Some (mkSearchHitLocation c n)) j
|}.
Record SearchHit := mkSearchHit { sh_ID : VenueIdentBlock; sh_Name : string; sh_URLSlug : string; sh_Location : SearchHitLocation }.
#[export] Instance wire_searchHit : WireCodec SearchHit := {|
  zero_val := mkSearchHit zero_val "" "" zero_val;
  to_json w := JObj (concat [fld "id" (sh_ID w); fld "name" (sh_Name w); fld "url_slug" (sh_URLSlug w); fld "location" (sh_Location w)]);
  of_json j o := of_object o (λ m,
    let f {A} {C : WireCodec A} := @field A C ["id"; "name"; "url_slug"; "location"] in
    i ← f "id" m (sh_ID o); n ← f "name" m (sh_Name o); s ← f "url_slug" m (sh_URLSlug o);
    l ← f "location" m (sh_Location o); Some (mkSearchHit i n s l)) j
|}.
Record SearchBody := mkSearchBody { sb_Hits : list SearchHit }.
#[export] Instance wire_searchBody : WireCodec SearchBody := {|
  zero_val := mkSearchBody [];
  to_json w := JObj (fld "hits" (sb_Hits w));
  of_json j o := of_object o (λ m, h ← field ["hits"] "hits" m (sb_Hits o); Some (mkSearchBody h)) j
|}.
Record SearchResponse := mkSearchResponse { sr_Search : SearchBody }.
#[export] Instance wire_searchResponse : WireCodec SearchResponse := {|
  zero_val := mkSearchResponse zero_val;
  to_json w := JObj (fld "search" (sr_Search w));
  of_json j o := of_object o (λ m, s ← field ["search"] "search" m (sr_Search o); Some (mkSearchResponse s)) j
|}.
Record CalendarInventory := mkCalendarInventory { ci_Reservation : string; ci_EventTimes : string }.
#[export] Instance wire_inventory : WireCodec CalendarInventory := {|
  zero_val := mkCalendarInventory "" "";
  to_json w := JObj (concat [fld "reservation" (ci_Reservation w); fld_omit is_empty "event_times" (ci_EventTimes w)]);
  of_json j o := of_object o (λ m,
    let f {A} {C : WireCodec A} := @field A C ["reservation"; "event_times"] in
    r ← f "reservation" m (ci_Reservation o); e ← f "event_times" m (ci_EventTimes o); Some (mkCalendarInventory r e)) j
|}.
Record CalendarScheduled := mkCalendarScheduled { cs_Date : string; cs_Inventory : CalendarInventory }.
#[export] Instance wire_scheduled : WireCodec CalendarScheduled := {|
  zero_val := mkCalendarScheduled "" zero_val;
  to_json w := JObj (concat [fld "date" (cs_Date w); fld "inventory" (cs_Inventory w)]);
  of_json j o := of_object o (λ m,
    let f {A} {C : WireCodec A} := @field A C ["date"; "inventory"] in
    d ← f "date" m (cs_Date o); i ← f "inventory" m (cs_Inventory o); Some (mkCalendarScheduled d i)) j
|}.
Record CalendarResponse := mkCalendarResponse { cr_Scheduled : list CalendarScheduled }.
#[export] Instance wire_calendarResponse : WireCodec CalendarResponse := {|
  zero_val := mkCalendarResponse [];
  to_json w := JObj (fld "scheduled" (cr_Scheduled w));
  of_json j o := of_object o (λ m, s ← field ["scheduled"] "scheduled" m (cr_Scheduled o); Some (mkCalendarResponse s)) j
|}.

(** ** [session.go] *)

Definition errMissingJWTExp : error := ENew "resy: JWT has no exp claim".
Record jwtClaims := mkJwtClaims { jc_Exp : Z }.
#[export] Instance wire_claims : WireCodec jwtClaims := {|
  zero_val := mkJwtClaims 0;
  to_json w := JObj (fld "exp" (jc_Exp w));
  of_json j o := of_object o (λ m, e ← field ["exp"] "exp" m (jc_Exp o); Some (mkJwtClaims e)) j
|}.
(** [time.Unix(s, 0)]: the seconds since the year 1 wrap at 64 bits. *)
Definition unix_to_internal : Z := 62135596800.
Definition wrap64 (z : Z) : Z := (z + 2 ^ 63) mod 2 ^ 64 - 2 ^ 63.
Definition time_Unix (s : Z) : Time := utc ((wrap64 (s + unix_to_internal) - unix_to_internal) * second).
Definition parseJWTExp (token : string) : res Time :=
  match split_on "." token with
  | [_; part; _] =>
      match (match RawURLDecode part with Some p => Some p | None => StdDecode part end) with
      | None => Err (wrap "resy: decode JWT payload: " (ENew "illegal base64 data"))
      | Some payload =>
          match (Unmarshal payload : option jwtClaims) with
          | None => Err (wrap "resy: parse JWT claims: " (ENew "json"))
          | Some c => if jc_Exp c =? 0 then Err errMissingJWTExp else Ok (time_Unix (jc_Exp c))
          end
      end
  | parts => Err (ENew ("resy: not a JWT (got " +:+ fmt_d (Z.of_nat (length parts)) +:+ " parts, want 3)"))
  end.

(** ** A body is read by field name, whatever else it holds *)

Example find_body_example :
  Unmarshal (quotes ("{'query':{'day':'x'},'results':{'venues':[{'venue':{'id':{'resy':5},'name':'Carbone'},'slots':["
                     +:+ "{'config':{'id':77,'token':'rgs://1','type':'Dining Room'},'date':{'end':'','start':'2026-06-09 19:30:00'}}]}]}}"))
  = Some (mkFindResponse (mkFindResults
            [mkFindVenue [mkFindSlot (mkFindSlotConfig "rgs://1" "Dining Room" 77) (mkFindSlotDate "2026-06-09 19:30:00" "")]
               (mkFindVenueIdent "Carbone")])).
Proof. vm_compute. reflexivity. Qed.
(** The middle part of a token is the text of an object with [exp]. *)
Example jwt_examples :
  (parseJWTExp "h.eyJleHAiOjE3ODAwMDAwMDB9.s", parseJWTExp "h.e30.s", is_Ok (parseJWTExp "h.s"), is_Ok (parseJWTExp "h.!.s"))
  = (Ok (utc (1780000000 * second)), Err errMissingJWTExp, false, false).
Proof. vm_compute. reflexivity. Qed.
