(* ===== verification/Terminal.v ===== *)
(** * The terminal of a command

    What the commands of [cmd/resy-snipe] read and print: standard input read
    by lines, the text written so far, and the world the command works on.
    [promptRaw] of [intent.go] and the confirmation of [quest create] and
    [quest cancel]; the loops of the prompts, which every line shortens. *)

From S2P Require Import Prelude Text Url GoTime GoFormat Types Codec.
From Stdlib Require Import Ascii.

(** [tm_end] is what a read past the last byte answers; [None] is [io.EOF]. *)
Record Term (W : Type) := mkTerm { tm_world : W; tm_in : string; tm_end : option error; tm_out : string }.
Arguments mkTerm {W} _ _ _ _.
Arguments tm_world {W} _.
Arguments tm_in {W} _.
Arguments tm_end {W} _.
Arguments tm_out {W} _.

Definition errEOF : error := ESentinel "EOF".

Section Terminal.
Context {W : Type}.
Definition CM (A : Type) : Type := Term W → res A * Term W.
#[local] Instance cm_ret : MRet CM := λ A a t, (Ok a, t).
#[local] Instance cm_bind : MBind CM := λ A B k m t,
  match m t with (Ok a, t') => k a t' | (Err e, t') => (Err e, t') end.
Definition c_fail {A} (e : error) : CM A := λ t, (Err e, t).
Definition of_res {A} (r : res A) : CM A := λ t, (r, t).
(** [fmt.Errorf("<pre>%w", err)] around a step. *)
Definition c_wrapped {A} (pre : string) (m : CM A) : CM A := λ t,
  let '(r, t') := m t in (match r with Ok a => Ok a | Err e => Err (wrap pre e) end, t').
Definition c_attempt {A} (m : CM A) : CM (res A) := λ t, let '(r, t') := m t in (Ok r, t').
(** A step of the world. *)
Definition on_world {A} (f : W → res A * W) : CM A := λ t,
  let '(r, w) := f (tm_world t) in (r, mkTerm w (tm_in t) (tm_end t) (tm_out t)).
(** [fprintf]: a failed write is dropped by the source. *)
Definition put (s : string) : CM unit := λ t, (Ok tt, mkTerm (tm_world t) (tm_in t) (tm_end t) (tm_out t +:+ s)).
Definition put_line (s : string) : CM unit := put (s +:+ nl).

Definition newline : ascii := ascii_of_nat 10.
(** [bufio.Reader.ReadString] up to a newline, and the condition under which
    its error counts: [err != nil && (err != io.EOF || raw == "")]. *)
Definition read_line : CM string := λ t,
  match cut newline (tm_in t) with
  | (l, Some rest) => (Ok (l +:+ nl), mkTerm (tm_world t) rest (tm_end t) (tm_out t))
  | (l, None) =>
      (match tm_end t with
       | Some e => Err e
       | None => if is_empty l then Err errEOF else Ok l
       end, mkTerm (tm_world t) "" (tm_end t) (tm_out t))
  end.
Definition promptRaw (label defaultVal : string) : CM string :=
  _ ← put (label +:+ " [" +:+ defaultVal +:+ "]: ");
  raw ← read_line;
  mret (TrimSpace raw).
(** A prompt that asks until the answer is accepted; a refusal prints its
    reason. *)
Fixpoint ask_loop {A} (fuel : nat) (label defaultVal : string) (accept : string → A + string) : CM A :=
  match fuel with
  | O => c_fail errEOF
  | S fuel =>
      raw ← promptRaw label defaultVal;
      match accept raw with
      | inl a => mret a
      | inr reason => _ ← put reason; ask_loop fuel label defaultVal accept
      end
  end.
(** Every line read takes a byte of the input: as many rounds as it has
    bytes, and the one that finds it empty. *)
Definition ask {A} (label defaultVal : string) (accept : string → A + string) : CM A := λ t,
  ask_loop (S (String.length (tm_in t))) label defaultVal accept t.
(** [y] or [yes], in any case, on one line. *)
Definition is_yes (lower : string → string) (raw : string) : bool :=
  let ans := ToLower lower (TrimSpace raw) in str_eqb ans "y" || str_eqb ans "yes".

(** ** Reading *)

Lemma cut_length c s : match cut c s with
                       | (l, Some r) => (String.length r < String.length s)%nat
                       | (l, None) => l = s
                       end.
Proof.
  induction s as [|d s IH]; [done|]. cbn. destruct (Ascii.eqb c d); [cbn; lia|].
  destruct (cut c s) as [l [r|]]; cbn; [lia|by f_equal].
Qed.
Lemma read_line_shorter t s t' : read_line t = (Ok s, t') → (String.length (tm_in t') < String.length (tm_in t))%nat.
Proof.
  unfold read_line. pose proof (cut_length newline (tm_in t)) as H. destruct (cut newline (tm_in t)) as [l [r|]].
  - intros [= _ <-]. exact H.
  - subst l. destruct (tm_end t); [done|]. destruct (tm_in t); [done|]. intros [= _ <-]. cbn. lia.
Qed.
Lemma promptRaw_shorter label d t s t' :
  promptRaw label d t = (Ok s, t') → (String.length (tm_in t') < String.length (tm_in t))%nat.
Proof.
  unfold promptRaw, mbind, cm_bind, put. destruct (read_line _) as [[raw|e] t1] eqn:E; [|done]. intros [= _ <-].
  apply read_line_shorter in E. exact E.
Qed.
(** Any more rounds give the same. *)
Lemma ask_loop_fuel {A} label d (accept : string → A + string) n : ∀ t m,
  (String.length (tm_in t) < n)%nat → (n ≤ m)%nat → ask_loop m label d accept t = ask_loop n label d accept t.
Proof.
  induction n as [|n IH]; intros t m Hl Hm; [lia|]. destruct m as [|m]; [lia|]. cbn [ask_loop]. unfold mbind at 1 3, cm_bind.
  destruct (promptRaw label d t) as [[raw|e] t1] eqn:E; [|done]. apply promptRaw_shorter in E.
  destruct (accept raw); [done|]. unfold mbind, cm_bind, put. apply IH; cbn; lia.
Qed.
(** What a prompt returns was accepted. *)
Lemma ask_loop_accepts {A} label d (accept : string → A + string) n : ∀ t a t',
  ask_loop n label d accept t = (Ok a, t') → ∃ raw, accept (TrimSpace raw) = inl a.
Proof.
  induction n as [|n IH]; intros t a t'; [done|]. cbn [ask_loop]. unfold mbind at 1, cm_bind.
  unfold promptRaw, mbind at 1 2, cm_bind, put. destruct (read_line _) as [[raw|e] t1]; [|done]. cbn.
  destruct (accept (TrimSpace raw)) as [b|] eqn:E; [intros [= <- <-]; by exists raw|]. unfold mbind, cm_bind. apply IH.
Qed.
Lemma ask_accepts {A} label d (accept : string → A + string) t a t' :
  ask label d accept t = (Ok a, t') → ∃ raw, accept (TrimSpace raw) = inl a.
Proof. apply ask_loop_accepts. Qed.
Lemma cm_bind_inv {A B} (k : A → CM B) (m : CM A) t r t' :
  cm_bind A B k m t = (r, t') →
  (∃ e, m t = (Err e, t') ∧ r = Err e) ∨ (∃ a t1, m t = (Ok a, t1) ∧ k a t1 = (r, t')).
Proof.
  unfold cm_bind. destruct (m t) as [[a|e] t1]; [|intros [= <- <-]; left; by exists e]. intros H. right. by exists a, t1.
Qed.
Lemma wrapped_cm_inv {A} pre (m : CM A) t r t' :
  c_wrapped pre m t = (r, t') → ∃ r0, m t = (r0, t') ∧ r = match r0 with Ok a => Ok a | Err e => Err (wrap pre e) end.
Proof. unfold c_wrapped. destruct (m t) as [r0 t1]. intros [= <- <-]. by exists r0. Qed.
Lemma attempt_cm_inv {A} (m : CM A) t r t' : c_attempt m t = (r, t') → ∃ r0, m t = (r0, t') ∧ r = Ok r0.
Proof. unfold c_attempt. destruct (m t) as [r0 t1]. intros [= <- <-]. by exists r0. Qed.
(** The line the next read takes. *)
Definition first_line (t : Term W) : string :=
  match cut newline (tm_in t) with (l, Some _) => l +:+ nl | (l, None) => l end.
Lemma read_line_inv t r t' :
  read_line t = (r, t') →
  tm_world t' = tm_world t ∧ tm_out t' = tm_out t ∧ match r with Ok l => l = first_line t | Err _ => True end.
Proof.
  unfold read_line, first_line. destruct (cut newline (tm_in t)) as [l [rest|]]; [by intros [= <- <-]|].
  destruct (tm_end t); [by intros [= <- <-]|]. destruct (is_empty l); by intros [= <- <-].
Qed.
Lemma prompt_inv label d t r t' :
  promptRaw label d t = (r, t') →
  tm_world t' = tm_world t ∧ (∃ s, tm_out t' = tm_out t +:+ s) ∧
  match r with Ok s => s = TrimSpace (first_line t) | Err _ => True end.
Proof.
  unfold promptRaw. intros H. apply cm_bind_inv in H as [(e & [=] & _)|([] & t1 & [= <-] & H)].
  apply cm_bind_inv in H as [(e & H & ->)|(raw & t2 & H & H')]; apply read_line_inv in H as (E1 & E2 & E3).
  - split; [done|]. split; [by eexists|done].
  - injection H' as <- <-. split; [done|]. split; [by eexists|by subst raw].
Qed.
End Terminal.
Arguments CM W A : clear implicits.
