(* ===== verification/Prompts.v ===== *)
(** * The snipe of the command line: [cmd/resy-snipe/intent.go]

    The flags, their defaults, the interactive prompts and the intent they
    make.  [time.Local] is an argument; the text of [time]'s parse errors and
    the usage text are not modelled. *)

From S2P Require Import Prelude Text Url Flags GoTime GoFormat Types Codec ResyWire Terminal.
From Stdlib Require Import Ascii.

#[local] Existing Instances cm_ret cm_bind.

Definition strategyExplicit : string := "explicit".
Definition strategyDiscovered : string := "discovered".
Definition strategyContinuous : string := "continuous".
Record cliOptions := mkCliOptions {
  interactive : bool;
  resDate : string;
  partySize : Z;
  venueID : Z;
  resTimes : string;
  tableTypes : string;
  snipeDate : string;
  snipeTime : string;
  releaseStrategy : string;
  retryWindow : Z;
  logLevel : string;
  o_user : string;
  snipeTimeProvided : bool;
  releaseStrategyProvided : bool
}.
Definition defaultRetryWindow : Z := 30 * minute.

(** ** Flags *)

Definition snipe_flags : FlagSet := NewFlagSet [
  ("interactive", FBool false); ("date", FString ""); ("party-size", FInt (-1)); ("venue-id", FInt (-1));
  ("res-times", FString ""); ("table-types", FString ""); ("snipe-date", FString ""); ("snipe-time", FString "");
  ("release-strategy", FString ""); ("retry-window", FDuration defaultRetryWindow); ("log-level", FString "info");
  ("user", FString "")].
Definition parseFlags (args : list string) : res cliOptions :=
  match Parse snipe_flags args with
  | Err e => Err (wrap "parsing flags: " e)
  | Ok (fs, _) =>
      Ok (mkCliOptions (get_bool fs "interactive") (get_string fs "date") (get_int fs "party-size") (get_int fs "venue-id")
            (get_string fs "res-times") (get_string fs "table-types") (get_string fs "snipe-date") (get_string fs "snipe-time")
            (get_string fs "release-strategy") (get_duration fs "retry-window") (get_string fs "log-level") (get_string fs "user")
            (was_set fs "snipe-time") (was_set fs "release-strategy"))
  end.
Definition blank (s : string) : bool := is_empty (TrimSpace s).
(** [t.Format("2006-01-02")]. *)
Definition fmt_date (t : Time) : string := fmt_utc_date (face_ns t).
Definition applyDefaults (o : cliOptions) (now : Time) : cliOptions :=
  let date := if blank (resDate o) then fmt_date (add_date now 0 0 7) else resDate o in
  mkCliOptions (interactive o) date (if partySize o <? 0 then 2 else partySize o) (venueID o)
    (if blank (resTimes o) then "18:45:00" else resTimes o) (tableTypes o)
    (if blank (snipeDate o) then date else snipeDate o)
    (if blank (snipeTime o) then "00:00" else snipeTime o)
    (releaseStrategy o) (retryWindow o) (logLevel o) (o_user o) (snipeTimeProvided o) (releaseStrategyProvided o).

(** ** Lists *)

Definition parseCommaList (input : string) : list string :=
  List.filter (λ p, negb (is_empty p)) (map TrimSpace (split_on "," input)).
(** [strings.EqualFold] with a word of letters that fold with no other rune. *)
Definition EqualFold_word (s word : string) : bool := str_eqb (map_str lower_char s) word.
Definition parseTableTypesInput (input : string) : list string :=
  List.filter (λ v, negb (EqualFold_word v "none" || EqualFold_word v "nil")) (parseCommaList input).

(** ** Prompts *)

Definition or_default (raw d : string) : string := if is_empty raw then d else raw.
Definition accept_date (d raw : string) : string + string :=
  let raw := or_default raw d in
  match parse_ymd raw with Some _ => inl raw | None => inr ("Invalid date. Use YYYY-MM-DD." +:+ nl) end.
Definition accept_clock (d raw : string) : string + string :=
  let raw := or_default raw d in
  match parse_hm raw with Some _ => inl raw | None => inr ("Invalid time. Use HH:MM (24h)." +:+ nl) end.
Definition accept_int (d : Z) (raw : string) : Z + string :=
  if is_empty raw then inl d
  else match parse_int64 raw with Some z => inl z | None => inr ("Please enter a number." +:+ nl) end.
Definition accept_venue (d : Z) (raw : string) : Z + string :=
  if is_empty raw then
    if 0 <? d then inl d else inr ("Venue id is required. Enter a positive integer." +:+ nl)
  else match parse_int64 raw with
       | Some z => if z <=? 0 then inr ("Invalid venue id. Enter a positive integer." +:+ nl) else inl z
       | None => inr ("Invalid venue id. Enter a positive integer." +:+ nl)
       end.
Definition bad_time (t : string) : bool := negb (is_Ok (ParseWallTime t)).
Definition accept_times (d raw : string) : string + string :=
  let raw := or_default raw d in
  let times := parseCommaList raw in
  match times with
  | [] => inr ("Provide at least one reservation time." +:+ nl)
  | _ => match find bad_time times with
         | Some t => inr ("Invalid time " +:+ fmt_q t +:+ ". Use HH:MM or HH:MM:SS." +:+ nl)
         | None => inl raw
         end
  end.

Section Prompts.
Context {W : Type}.
Notation CM := (CM W).
Definition promptDate (label d : string) : CM string := ask label d (accept_date d).
Definition promptClockTime (label d : string) : CM string := ask label d (accept_clock d).
Definition promptInt (label : string) (d : Z) : CM Z := ask label (fmt_d d) (accept_int d).
Definition promptVenue (d : Z) : CM Z :=
  _ ← put_line "Look up a venue id with `resy-snipe venue resolve <url>` first, then paste the numeric id below.";
  ask "Venue id" (if 0 <? d then fmt_d d else "") (accept_venue d).
Definition promptResTimes (label d : string) : CM string := ask label d (accept_times d).
Definition promptTableTypes (label d : string) : CM string :=
  raw ← promptRaw label d;
  mret (or_default raw d).
Definition runInteractive (o : cliOptions) : CM cliOptions :=
  date ← promptDate "Reservation date (YYYY-MM-DD)" (resDate o);
  party ← promptInt "Party size" (partySize o);
  venue ← promptVenue (venueID o);
  times ← promptResTimes "Reservation times (comma-separated, HH:MM)" (resTimes o);
  tables ← promptTableTypes "Table types (comma-separated, optional, or 'none')" (tableTypes o);
  sdate ← promptDate "Snipe date (YYYY-MM-DD)" (snipeDate o);
  stime ← promptClockTime "Snipe time (HH:MM)" (snipeTime o);
  mret (mkCliOptions (interactive o) date party venue times tables sdate stime (releaseStrategy o) (retryWindow o)
          (logLevel o) (o_user o) (snipeTimeProvided o) (releaseStrategyProvided o)).
End Prompts.

(** ** The intent *)

Section Intent.
Context (Local : Location) (lower : string → string).

Definition buildScheduledTime (dateInput timeInput : string) : res Time :=
  match parse_ymd (TrimSpace dateInput) with
  | None => Err (ENew ("invalid snipe date " +:+ fmt_q dateInput))
  | Some (y, m, d) =>
      match parse_hm (TrimSpace timeInput) with
      | None => Err (ENew ("invalid snipe time " +:+ fmt_q timeInput))
      | Some (h, mi, _) =>
          let datePart := go_date y m d 0 0 0 0 Local in
          Ok (go_date (t_year datePart) (t_month datePart) (t_day datePart) h mi 0 0 Local)
      end
  end.
Definition chosen_strategy (o : cliOptions) : string :=
  if negb (releaseStrategyProvided o) || is_empty (releaseStrategy o)
  then if snipeTimeProvided o then strategyExplicit else strategyDiscovered
  else releaseStrategy o.
Definition buildRelease (o : cliOptions) (now : Time) : res ReleaseStrategy :=
  let strategy := chosen_strategy o in
  at_ ← buildScheduledTime (snipeDate o) (snipeTime o);
  let s := ToLower lower strategy in
  if str_eqb s strategyExplicit then Ok (ExplicitRelease at_)
  else if str_eqb s strategyDiscovered
  then Ok (DiscoveredRelease (time_add at_ (wrap64 (- retryWindow o))) (time_add at_ (retryWindow o)))
  else if str_eqb s strategyContinuous then Ok (ContinuousRelease (time_add now (retryWindow o)))
  else Err (ENew ("invalid -release-strategy " +:+ fmt_q (releaseStrategy o) +:+ " (want explicit|discovered|continuous)")).
(** One preference per time and table, in that order; any table when none is
    named. *)
Definition slots_at (tables : list string) (wt : WallTime) : list SlotPreference :=
  match tables with [] => [mkSlotPreference wt ""] | _ => map (mkSlotPreference wt) tables end.
Fixpoint slot_prefs (tables times : list string) : res (list SlotPreference) :=
  match times with
  | [] => Ok []
  | t :: times =>
      match ParseWallTime t with
      | Err e => Err (wrap "res-times: " e)
      | Ok wt => rest ← slot_prefs tables times; Ok (slots_at tables wt ++ rest)
      end
  end.
Definition toIntent (o : cliOptions) (now : Time) : res Intent :=
  if partySize o <? 1 then Err (ENew ("party-size must be >= 1, got " +:+ fmt_d (partySize o)))
  else if venueID o <=? 0 then Err (ENew "venue-id is required")
  else if blank (resDate o) then Err (ENew "date is required")
  else
    date ← ParseDate (TrimSpace (resDate o));
    match parseCommaList (resTimes o) with
    | [] => Err (ENew "res-times: at least one reservation time is required")
    | times =>
        slots ← slot_prefs (parseTableTypesInput (tableTypes o)) times;
        release ← buildRelease o now;
        Ok (mkIntent "" (mkVenueRef "resy" (fmt_d (venueID o))) date (partySize o) slots (Some release))
    end.
End Intent.

(** ** What a date or a time is made of *)

Lemma word_digit c d : digit_val c = Some d → word_char c = true.
Proof.
  unfold digit_val. destruct ((48 <=? _) && _) eqn:E; [|done]. intros _. apply andb_true_iff in E as [E1 E2].
  unfold word_char. apply andb_true_iff. split; apply Nat.leb_le; lia.
Qed.
Lemma take_num_word n s z r : take_num n s = Some (z, r) → str_all word_char r = true → str_all word_char s = true.
Proof.
  unfold take_num. generalize 0 as acc. revert s z r. induction n as [|n IH]; intros s z r acc; cbn; [by intros [= _ <-]|].
  destruct s as [|c s]; [done|]. destruct (digit_val c) as [d|] eqn:E; [|done]. cbn. intros H Hr.
  rewrite (word_digit c d E). by eapply IH.
Qed.
Lemma take_num12_word s z r : take_num12 s = Some (z, r) → str_all word_char r = true → str_all word_char s = true.
Proof.
  unfold take_num12. destruct (take_num 2 s) eqn:E; [intros [= ->]; by eapply take_num_word|by apply take_num_word].
Qed.
Lemma expect_word c s r : expect c s = Some r → word_char c = true → str_all word_char r = true → str_all word_char s = true.
Proof. destruct s as [|d s]; [done|]. cbn. destruct (bool_decide_reflect (c = d)) as [->|]; [|done]. intros [= ->] -> ->. done. Qed.
Lemma parse_ymd_word s r : parse_ymd s = Some r → str_all word_char s = true.
Proof.
  unfold parse_ymd, take_date, mbind, option_bind. destruct (take_num 4 s) as [[y s1]|] eqn:E1; [|done]. cbv beta iota.
  destruct (expect "-" s1) as [s2|] eqn:E2; [|done]. cbv beta iota. destruct (take_num 2 s2) as [[m s3]|] eqn:E3; [|done]. cbv beta iota.
  destruct (in_range 1 13 m); [|done]. cbv beta iota. destruct (expect "-" s3) as [s4|] eqn:E4; [|done]. cbv beta iota.
  destruct (take_num 2 s4) as [[d s5]|] eqn:E5; [|done]. cbv beta iota. destruct (valid_civil y m d); [|done].
  destruct s5 as [|]; [|done]. intros _.
  eapply take_num_word; [done|]. eapply expect_word; [done..|]. eapply take_num_word; [done|]. eapply expect_word; [done..|].
  by eapply take_num_word.
Qed.
Lemma parse_hm_word s r : parse_hm s = Some r → str_all word_char s = true.
Proof.
  unfold parse_hm, take_hm, mbind, option_bind. destruct (take_num12 s) as [[h s1]|] eqn:E1; [|done]. cbv beta iota. destruct (in_range 0 24 h); [|done]. cbv beta iota.
  destruct (expect ":" s1) as [s2|] eqn:E2; [|done]. cbv beta iota. destruct (take_num 2 s2) as [[mi s3]|] eqn:E3; [|done]. cbv beta iota.
  destruct (in_range 0 60 mi); [|done]. cbv beta iota. destruct s3 as [|]; [|done]. intros _.
  eapply take_num12_word; [done|]. eapply expect_word; [done..|]. by eapply take_num_word.
Qed.

(** ** What the prompts accept *)

Lemma accept_date_inv d raw s : accept_date d raw = inl s → is_Some (parse_ymd s) ∧ TrimSpace s = s.
Proof.
  unfold accept_date. destruct (parse_ymd _) as [x|] eqn:E; [|done]. intros [= <-]. rewrite E. split; [by eexists|].
  by eapply TrimSpace_word, parse_ymd_word.
Qed.
Lemma accept_clock_inv d raw s : accept_clock d raw = inl s → is_Some (parse_hm s) ∧ TrimSpace s = s.
Proof.
  unfold accept_clock. destruct (parse_hm _) as [x|] eqn:E; [|done]. intros [= <-]. rewrite E. split; [by eexists|].
  by eapply TrimSpace_word, parse_hm_word.
Qed.
Lemma accept_venue_inv d raw z : accept_venue d raw = inl z → 0 < z.
Proof.
  unfold accept_venue. destruct (is_empty raw).
  - destruct (Z.ltb_spec 0 d); [intros [= <-]|]; done.
  - destruct (parse_int64 raw) as [v|]; [|done]. destruct (Z.leb_spec v 0); [done|]. by intros [= <-].
Qed.
Lemma accept_times_inv d raw s :
  accept_times d raw = inl s → parseCommaList s ≠ [] ∧ Forall (λ t, is_Ok (ParseWallTime t) = true) (parseCommaList s).
Proof.
  unfold accept_times. destruct (parseCommaList _) as [|t l] eqn:E; [done|]. destruct (find bad_time _) eqn:F; [done|].
  intros [= <-]. rewrite E. split; [done|]. apply Forall_forall. intros x Hx. apply list_elem_of_In in Hx.
  pose proof (find_none _ _ F x Hx) as H. unfold bad_time in H. by apply negb_false_iff.
Qed.
Record answered (o o' : cliOptions) : Prop := {
  an_date : is_Some (parse_ymd (resDate o')) ∧ TrimSpace (resDate o') = resDate o';
  an_venue : 0 < venueID o';
  an_times : parseCommaList (resTimes o') ≠ [] ∧ Forall (λ t, is_Ok (ParseWallTime t) = true) (parseCommaList (resTimes o'));
  an_sdate : is_Some (parse_ymd (snipeDate o')) ∧ TrimSpace (snipeDate o') = snipeDate o';
  an_stime : is_Some (parse_hm (snipeTime o')) ∧ TrimSpace (snipeTime o') = snipeTime o';
  an_rest : chosen_strategy o' = chosen_strategy o ∧ retryWindow o' = retryWindow o
}.
Lemma runInteractive_answered {W} o (t : Term W) o' t' : runInteractive o t = (Ok o', t') → answered o o'.
Proof.
  unfold runInteractive. intros H.
  apply cm_bind_inv in H as [(? & _ & [=])|(date & t1 & H1 & H)].
  apply cm_bind_inv in H as [(? & _ & [=])|(party & t2 & _ & H)].
  apply cm_bind_inv in H as [(? & _ & [=])|(venue & t3 & H3 & H)].
  apply cm_bind_inv in H as [(? & _ & [=])|(times & t4 & H4 & H)].
  apply cm_bind_inv in H as [(? & _ & [=])|(tables & t5 & _ & H)].
  apply cm_bind_inv in H as [(? & _ & [=])|(sdate & t6 & H6 & H)].
  apply cm_bind_inv in H as [(? & _ & [=])|(stime & t7 & H7 & H)].
  injection H as <- _.
  apply ask_accepts in H1 as (? & H1%accept_date_inv). apply ask_accepts in H4 as (? & H4%accept_times_inv).
  apply ask_accepts in H6 as (? & H6%accept_date_inv). apply ask_accepts in H7 as (? & H7%accept_clock_inv).
  unfold promptVenue in H3. apply cm_bind_inv in H3 as [(? & _ & [=])|([] & t8 & _ & H3)].
  apply ask_accepts in H3 as (? & H3%accept_venue_inv). by split.
Qed.
(** The preferences are the product of times and tables, in order. *)
Lemma slot_prefs_ok tables times :
  Forall (λ t, is_Ok (ParseWallTime t) = true) times →
  ∃ walls, map ParseWallTime times = map Ok walls ∧ slot_prefs tables times = Ok (flat_map (slots_at tables) walls).
Proof.
  induction times as [|t times IH]; intros H; [by exists []|]. apply Forall_cons in H as [Ht H]. destruct (IH H) as (walls & E & Es).
  destruct (ParseWallTime t) as [wt|] eqn:Et; [|done]. exists (wt :: walls). cbn. by rewrite Et, E, Es.
Qed.
Lemma slots_at_length tables wt : length (slots_at tables wt) = Nat.max 1 (length tables).
Proof. destruct tables; [done|]. cbn [slots_at]. rewrite length_map. cbn. lia. Qed.
Lemma prefs_length tables walls : length (flat_map (slots_at tables) walls) = (length walls * Nat.max 1 (length tables))%nat.
Proof. induction walls as [|w walls IH]; [done|]. cbn [flat_map length]. rewrite length_app, IH, slots_at_length. lia. Qed.
Definition known_strategy (lower : string → string) (s : string) : Prop :=
  ToLower lower s ∈ [strategyExplicit; strategyDiscovered; strategyContinuous].
(** The release an instant, the window and the present make. *)
Definition released (at_ now : Time) (window : Z) (r : option ReleaseStrategy) : Prop :=
  match r with
  | Some (ExplicitRelease a) => a = at_
  | Some (DiscoveredRelease from until) => from = time_add at_ (wrap64 (- window)) ∧ until = time_add at_ window
  | Some (ContinuousRelease until) => until = time_add now window
  | None => False
  end.
Lemma scheduled_ok Local d t : TrimSpace d = d → TrimSpace t = t → is_Some (parse_ymd d) → is_Some (parse_hm t) →
  is_Ok (buildScheduledTime Local d t) = true.
Proof. unfold buildScheduledTime. intros -> -> [[[y m] dd] ->] [[[h mi] sec] ->]. done. Qed.
Lemma buildRelease_ok Local lower o now at_ :
  buildScheduledTime Local (snipeDate o) (snipeTime o) = Ok at_ → known_strategy lower (chosen_strategy o) →
  ∃ r, buildRelease Local lower o now = Ok r ∧ released at_ now (retryWindow o) (Some r).
Proof.
  intros Ha Hk. unfold buildRelease, known_strategy in *. rewrite Ha. cbn [mbind outcome_bind].
  rewrite !elem_of_cons, elem_of_nil in Hk. destruct Hk as [-> | [-> | [-> |[]]]]; cbn; eexists; done.
Qed.

(** What the prompts accept makes an intent.  When the interactive
    prompts end, the options make an intent for the venue, the day and the
    party given, with every time crossed with every table in the order
    given, each once, released as the options say at the instant of the
    snipe date and time; the one thing the prompts let through is a party
    below one. *)
Theorem interactive_intent {W} Local lower o now (t : Term W) o' t' :
  runInteractive o t = (Ok o', t') → known_strategy lower (chosen_strategy o) →
  match toIntent Local lower o' now with
  | Err _ => partySize o' < 1
  | Ok i =>
      1 ≤ partySize o' ∧ i_PartySize i = partySize o' ∧ 0 < venueID o' ∧ i_Venue i = mkVenueRef "resy" (fmt_d (venueID o')) ∧
      ParseDate (resDate o') = Ok (i_Date i) ∧
      ∃ walls at_, map ParseWallTime (parseCommaList (resTimes o')) = map Ok walls ∧
        i_SlotPrefs i = flat_map (slots_at (parseTableTypesInput (tableTypes o'))) walls ∧
        (0 < length walls)%nat ∧
        length (i_SlotPrefs i) = (length walls * Nat.max 1 (length (parseTableTypesInput (tableTypes o'))))%nat ∧
        buildScheduledTime Local (snipeDate o') (snipeTime o') = Ok at_ ∧ released at_ now (retryWindow o) (i_Release i)
  end.
Proof.
  intros H%runInteractive_answered Hk. destruct H as [[[ymd Hd] Td] Hv [Hn Ht] [Hs Ts] [Hm Tm] [Hc Hw]].
  unfold toIntent, blank. destruct (Z.ltb_spec (partySize o') 1) as [|Hp]; [done|].
  destruct (Z.leb_spec (venueID o') 0); [lia|]. rewrite Td.
  destruct (is_empty (resDate o')) eqn:Ee; [apply str_eqb_true in Ee; by rewrite Ee in Hd|].
  unfold ParseDate. rewrite Hd. destruct ymd as [[y m] d]. cbn [mbind outcome_bind].
  destruct (slot_prefs_ok (parseTableTypesInput (tableTypes o')) _ Ht) as (walls & Ew & Es).
  destruct (parseCommaList (resTimes o')) as [|t0 ts] eqn:El; [done|]. rewrite Es.
  pose proof (scheduled_ok Local _ _ Ts Tm Hs Hm) as Ha.
  destruct (buildScheduledTime Local (snipeDate o') (snipeTime o')) as [at_|] eqn:Ea; [|done].
  rewrite <- Hc in Hk. destruct (buildRelease_ok Local lower o' now at_ Ea Hk) as (r & -> & Hr). rewrite Hw in Hr.
  do 5 (split; [lia || done|]). exists walls, at_. repeat (split; [done|]). repeat split; try done.
  - destruct walls; [done|cbn; lia].
  - apply prefs_length.
Qed.
(** A dinner for two at either of two times and tables, answered at the
    prompts, with a wrong date on the way. *)
Definition typed (lines : list string) : Term unit := mkTerm tt (str_join nl lines +:+ nl) None "".
Definition asked : cliOptions :=
  mkCliOptions true "2026-06-16" 2 (-1) "18:45:00" "" "2026-06-16" "00:00" "" defaultRetryWindow "info" "" false false.
Definition answers : Term unit := typed ["soon"; "2026-06-20"; ""; "0"; "834"; "19:00, 19:30"; "Bar,none,Patio"; "2026-06-06"; "9:00"].
Lemma interactive_intent_witness :
  match runInteractive asked answers with
  | (Ok o', _) =>
      match toIntent UTC (λ s, s) o' zero_time with
      | Ok i => length (i_SlotPrefs i) = 4%nat ∧ i_Venue i = mkVenueRef "resy" "834" ∧ i_PartySize i = 2
      | Err _ => False
      end
  | _ => False
  end.
Proof.
  destruct (runInteractive asked answers) as [[o'|e] t'] eqn:E; [|by vm_compute in E].
  assert (Hk : known_strategy (λ s, s) (chosen_strategy asked)) by (unfold known_strategy; rewrite !elem_of_cons; right; left; reflexivity).
  pose proof (interactive_intent UTC (λ s, s) asked zero_time answers o' t' E Hk) as H.
  vm_compute in E. injection E as <- _. destruct (toIntent _ _ _ _) as [i|] eqn:Ei; [|by vm_compute in Ei].
  destruct H as (_ & -> & _ & -> & _ & walls & at_ & _ & _ & _ & _). vm_compute in Ei. injection Ei as <-. done.
Defined.
