(* ===== verification/Engine.v ===== *)
(** * [engine]: submitting, scheduling and releasing a snipe

    [engine.go], [state.go], [run.go] and [release.go] over an abstract
    store.  The world holds the store, the one snipe being driven, the
    clock, the notifications emitted and the provider calls made.  The
    environment decides everything the program does not: how much time each
    step takes, which SQL statements fail, when the context is cancelled,
    who wins a select, and what the provider answers. *)

From S2P Require Import Prelude GoTime GoFormat Types Status Slots Drop Json Hash Codec Sqlite.

Definition LogKeySnipeID : string := "snipe_id".
Definition LogKeyVenueRef : string := "venue_ref".
Definition LogKeyIntentHash : string := "intent_hash".

Record Notification := mkNotification {
  n_SnipeID : string;
  n_From : option Status;
  n_To : Status;
  n_Event : Event
}.

Inductive Call := CallCalendar (venue : VenueRef) (r : DateRange) | CallFind (req : FindRequest).

Record Provider := mkProvider {
  pv_Calendar : nat → VenueRef → DateRange → res Calendar;
  pv_Find : nat → FindRequest → res (list Slot)
}.

Record Env := mkEnv {
  en_faults : Faults;
  en_tick : nat → Z;
  en_done : nat → bool;
  en_deadline : bool;
  en_timer_first : nat → bool;
  en_loc : Location;
  en_provider : option Provider;
  en_policy : BookingPolicy
}.
(** Time does not run backwards, a cancelled context stays cancelled, and
    the length of a slice is an [int]. *)
Record env_ok (env : Env) : Prop := {
  tick_nonneg : ∀ k, 0 ≤ en_tick env k;
  done_stays : ∀ j k, (j ≤ k)%nat → en_done env j = true → en_done env k = true;
  find_len : ∀ pv k req slots, en_provider env = Some pv → pv_Find pv k req = Ok slots →
    Z.of_nat (length slots) ≤ max_int64
}.

Record World (St : Type) := mkWorld {
  w_store : St;
  w_sql : nat;
  w_step : nat;
  w_now : Z;
  w_inner : SnipeState;
  w_emitted : list Notification;
  w_calls : list (Z * Call)
}.
Arguments mkWorld {St} _ _ _ _ _ _ _.
Arguments w_store {St} _.
Arguments w_sql {St} _.
Arguments w_step {St} _.
Arguments w_now {St} _.
Arguments w_inner {St} _.
Arguments w_emitted {St} _.
Arguments w_calls {St} _.

Definition defaultBookingPolicy : BookingPolicy := mkBookingPolicy 4 (100 * millisecond) true.
Definition errUnsupportedReleaseStrategy : error :=
  ESentinel "engine: unsupported release strategy".

Section Engine.
Context {St : Type} `{!SnipeStore St} (env : Env).

(** ** Steps *)

Definition M (A : Type) : Type := World St → res A * World St.
#[local] Instance m_ret : MRet M := λ A a w, (Ok a, w).
#[local] Instance m_bind : MBind M := λ A B k m w,
  match m w with (Ok a, w') => k a w' | (Err e, w') => (Err e, w') end.
Definition fail {A} (e : error) : M A := λ w, (Err e, w).
(** [fmt.Errorf("<pre>%w", err)] around a step. *)
Definition wrapped {A} (pre : string) (m : M A) : M A := λ w,
  match m w with (Ok a, w') => (Ok a, w') | (Err e, w') => (Err (wrap pre e), w') end.

(** The result of a step as a value: [err] is inspected, not returned. *)
Definition attempt {A} (m : M A) : M (res A) := λ w, let '(r, w') := m w in (Ok r, w').

Definition ctx_error : error := if en_deadline env then DeadlineExceeded else Canceled.
(** Every step takes its time. *)
Definition tick (w : World St) : World St :=
  mkWorld (w_store w) (w_sql w) (S (w_step w)) (w_now w + en_tick env (w_step w)) (w_inner w)
    (w_emitted w) (w_calls w).
Definition set_store (st : St) (n : nat) (w : World St) : World St :=
  mkWorld st n (w_step w) (w_now w) (w_inner w) (w_emitted w) (w_calls w).
Definition set_inner (s : SnipeState) (w : World St) : World St :=
  mkWorld (w_store w) (w_sql w) (w_step w) (w_now w) s (w_emitted w) (w_calls w).
Definition add_emitted (n : Notification) (w : World St) : World St :=
  mkWorld (w_store w) (w_sql w) (w_step w) (w_now w) (w_inner w) (w_emitted w ++ [n]) (w_calls w).
Definition add_call (c : Call) (w : World St) : World St :=
  mkWorld (w_store w) (w_sql w) (w_step w) (w_now w) (w_inner w) (w_emitted w)
    (w_calls w ++ [(w_now w, c)]).
Definition pass (d : Z) (w : World St) : World St :=
  mkWorld (w_store w) (w_sql w) (w_step w) (w_now w + d) (w_inner w) (w_emitted w) (w_calls w).

(** [clock.Now()]. *)
Definition now : M Time := λ w, let w := tick w in (Ok (mkTime (w_now w) (en_loc env)), w).
(** [ctx.Err()]. *)
Definition ctx_Err : M (option error) := λ w,
  (Ok (if en_done env (w_step w) then Some ctx_error else None), tick w).
(** A store call; under a cancelled context every statement fails with the
    context's error. *)
Definition store_call {A} (f : Faults → nat → St → res A * nat * St) : M A := λ w,
  let fl := if en_done env (w_step w) then λ _, Some ctx_error else en_faults env in
  let '(r, n, st) := f fl (w_sql w) (w_store w) in
  (r, set_store st n (tick w)).
(** A provider call, recorded with the instant it is made. *)
Definition provider_call {A} (c : Call) (f : nat → res A) : M A := λ w,
  (f (w_step w), tick (add_call c w)).
(** [waitWithCtx]: the timer, or the context's error if it is done first
    (when both are ready either may win). *)
Definition waitWithCtx (d : Z) : M unit := λ w,
  if d <=? 0 then (Ok tt, w)
  else if en_done env (w_step w) && negb (en_timer_first env (w_step w))
       then (Err ctx_error, tick w)
       else (Ok tt, pass d (tick w)).
Definition inner : M SnipeState := λ w, (Ok (w_inner w), w).
(** [s.inner = ...]. *)
Definition swap (s : SnipeState) : M unit := λ w, (Ok tt, set_inner s w).
(** [emit], after the persist; delivery itself is in Subscribe.v. *)
Definition emit (n : Notification) : M unit := λ w, (Ok tt, add_emitted n w).

(** ** [engine.go] *)

Definition Load (id : string) : M SnipeState :=
  s ← wrapped ("engine: load " +:+ id +:+ ": ") (store_call (ss_get id));
  _ ← swap s;
  mret s.

Definition submitted_attrs (id : string) (intent : Intent) : list Attr :=
  [(LogKeySnipeID, VString id); (LogKeyIntentHash, VString (intent_Hash intent));
   (LogKeyVenueRef, VString (venueRef_String (i_Venue intent)))].
Definition Submit (id : string) (intent : Intent) : M SnipeState :=
  now_ ← now;
  let s := NewSnipeState id intent now_ in
  _ ← wrapped ("engine: create " +:+ id +:+ ": ") (store_call (ss_create s));
  let ev := mkEvent EventSubmitted now_ (submitted_attrs id intent) in
  _ ← wrapped ("engine: append submitted event " +:+ id +:+ ": ") (store_call (ss_append id ev));
  _ ← emit (mkNotification id None StatusSubmitted ev);
  _ ← swap s;
  mret s.

(** ** [state.go] *)

(** The candidate clone with its new status and times. *)
Definition candidate (s : SnipeState) (to : Status) (sched upd : Time) : SnipeState :=
  mkSnipeState (s_ID s) (s_Intent s) to sched (s_Result s) (s_Events s) (s_CreatedAt s) upd.
(** Persist, then swap, then emit. *)
Definition persist_swap (from to : Status) (cand : SnipeState) (ev : Event) : M unit :=
  _ ← wrapped ("engine: persist transition " +:+ status_String from +:+ " -> "
               +:+ status_String to +:+ ": ") (store_call (ss_transition cand ev));
  _ ← swap cand;
  emit (mkNotification (s_ID cand) (Some from) to ev).

Definition transition (to : Status) (eventType : EventType) (attrs : list Attr) : M unit :=
  s ← inner;
  let from := s_status s in
  if negb (CanTransition from to) then fail (EInvalidTransition from to)
  else
    now_ ← now;
    persist_swap from to (candidate s to (s_ScheduledAt s) now_)
      (mkEvent eventType now_ ((LogKeySnipeID, VString (s_ID s)) :: attrs)).

(** [run.go]'s own copy, which also stamps [ScheduledAt]. *)
Definition transitionToScheduled (scheduledAt : Time) : M unit :=
  s ← inner;
  let from := s_status s in
  if negb (CanTransition from StatusScheduled) then fail (EInvalidTransition from StatusScheduled)
  else
    now_ ← now;
    persist_swap from StatusScheduled (candidate s StatusScheduled scheduledAt now_)
      (mkEvent EventScheduled now_
         [(LogKeySnipeID, VString (s_ID s)); ("scheduled_at", VTime scheduledAt);
          (LogKeyVenueRef, VString (venueRef_String (i_Venue (s_Intent s))))]).

(** ** [release.go] *)

Definition pollInterval : Z := Z.max (PollFloor (en_policy env)) (100 * millisecond).

Definition calendarContainsAvailable (cal : Calendar) (target : Date) : bool :=
  existsb (λ d, bool_decide (cd_Date d = target) && cd_Available d) (cal_Days cal).

Definition lookupVenueTZ (ref : VenueRef) : M Location :=
  v ← store_call (ss_venue ref);
  match v_TZ v with
  | Some tz => mret tz
  | None => fail (ENew "engine: cached venue has nil TZ")
  end.
(** [int(target.Sub(now).Hours() / 24)]: whole days, truncated. *)
Definition whole_days (d : Z) : Z := float_trunc (float_div (duration_Hours d) (float_of 24)).
Definition observed_row (intent : Intent) (now_ : Time) (loc : Location) : ObservedRelease :=
  let l := in_loc now_ loc in
  mkObserved (i_Venue intent) (mkWallTime (t_hour l) (t_minute l) (t_second l))
    (whole_days (time_sub (date_In (i_Date intent) loc) now_)) now_.
(** Without the venue's zone, UTC. *)
Definition recordObserved (intent : Intent) (now_ : Time) : M unit :=
  r ← attempt (lookupVenueTZ (i_Venue intent));
  let loc := match r with Ok l => l | Err _ => UTC end in
  store_call (ss_observe (observed_row intent now_ loc)).

Definition venue_attr (s : SnipeState) : Attr :=
  (LogKeyVenueRef, VString (venueRef_String (i_Venue (s_Intent s)))).

Definition advanceToDiscovering (from until : Time) : M unit :=
  s ← inner;
  if bool_decide (s_status s = StatusDiscovering) then mret tt
  else transition StatusDiscovering EventDiscovered
         [venue_attr s; ("probe_from", VTime from); ("probe_until", VTime until)].

(** One pass of the discovery loop: [None] means go round again. *)
Definition discovered_pass (pv : Provider) (until : Time) : M (option unit) :=
  s ← inner;
  c ← ctx_Err;
  match c with
  | Some e => fail e
  | None =>
      n ← now;
      if negb (time_before n until) then
        _ ← transition StatusFailed EventFailed
              [("reason", VString "discovered_window_expired"); ("probe_until", VTime until)];
        mret (Some tt)
      else
        let range := mkDateRange (i_Date (s_Intent s)) (i_Date (s_Intent s)) (i_PartySize (s_Intent s)) in
        cal ← wrapped "engine: discovered Calendar: "
                (provider_call (CallCalendar (i_Venue (s_Intent s)) range)
                   (λ k, pv_Calendar pv k (i_Venue (s_Intent s)) range));
        if calendarContainsAvailable cal (i_Date (s_Intent s)) then
          n ← now;
          _ ← attempt (recordObserved (s_Intent s) n);
          _ ← transition StatusAwaiting EventReleased [venue_attr s; ("observed_at", VTime n)];
          mret (Some tt)
        else
          _ ← waitWithCtx pollInterval;
          mret None
  end.

(** One pass of the continuous loop. *)
Definition continuous_pass (pv : Provider) (until : Time) : M (option unit) :=
  s ← inner;
  c ← ctx_Err;
  match c with
  | Some e => fail e
  | None =>
      n ← now;
      if negb (time_before n until) then
        _ ← transition StatusExpired EventExpired
              [("reason", VString "continuous_window_expired"); ("until", VTime until)];
        mret (Some tt)
      else
        let req := mkFindRequest (i_Venue (s_Intent s)) (i_Date (s_Intent s))
                     (i_PartySize (s_Intent s)) [] None in
        found ← attempt (provider_call (CallFind req) (λ k, pv_Find pv k req));
        match found with
        | Err e =>
            if errors_is e Providers.ErrInventoryEmpty then
              _ ← waitWithCtx pollInterval; mret None
            else fail (wrap "engine: continuous Find: " e)
        | Ok [] => _ ← waitWithCtx pollInterval; mret None
        | Ok slots =>
            _ ← transition StatusAwaiting EventFound
                  [venue_attr s; ("slot_count", VInt (Z.of_nat (length slots)))];
            mret (Some tt)
        end
  end.

(** [for { ... }]: out of fuel is [None]. *)
Fixpoint loop (fuel : nat) (body : M (option unit)) (w : World St) : option (res unit * World St) :=
  match fuel with
  | O => None
  | S f =>
      match body w with
      | (Err e, w') => Some (Err e, w')
      | (Ok (Some _), w') => Some (Ok tt, w')
      | (Ok None, w') => loop f body w'
      end
  end.
(** Passes enough for the window that is left: each but the last takes at
    least one polling interval. *)
Definition fuel_for (until : Time) (w : World St) : nat :=
  S (S (Z.to_nat ((t_ns until - w_now w) / pollInterval))).
Definition run_loop (until : Time) (body : M (option unit)) : M unit := λ w,
  match loop (fuel_for until w) body w with
  | Some r => r
  | None => (Err (ENew "model: the loop ran out of fuel"), w)
  end.

Definition runDiscoveredRelease (pv : Provider) (from until : Time) : M unit :=
  if is_zero_time from || is_zero_time until then
    fail (ENew "engine: DiscoveredRelease requires ProbeFrom and ProbeUntil")
  else if negb (time_after until from) then
    fail (ENew "engine: DiscoveredRelease ProbeUntil must be after ProbeFrom")
  else
    _ ← advanceToDiscovering from until;
    n ← now;
    let delay := time_sub from n in
    _ ← (if 0 <? delay then waitWithCtx delay else mret tt);
    run_loop until (discovered_pass pv until).
Definition runContinuousRelease (pv : Provider) (until : Time) : M unit :=
  if is_zero_time until then fail (ENew "engine: ContinuousRelease requires Until")
  else run_loop until (continuous_pass pv until).

Definition runStrategy : M unit :=
  s ← inner;
  match i_Release (s_Intent s) with
  | Some (ExplicitRelease _) => transition StatusAwaiting EventReleased [venue_attr s]
  | Some (DiscoveredRelease from until) =>
      match en_provider env with
      | None => fail (ENew "engine: DiscoveredRelease requires a Provider")
      | Some pv => runDiscoveredRelease pv from until
      end
  | Some (ContinuousRelease until) =>
      match en_provider env with
      | None => fail (ENew "engine: ContinuousRelease requires a Provider")
      | Some pv => runContinuousRelease pv until
      end
  | None => fail (ENew "engine: nil ReleaseStrategy")
  end.

(** ** [run.go] *)

Definition fireRelease : M unit := runStrategy.

Definition scheduledAtFromIntent (intent : Intent) : M Time :=
  match i_Release intent with
  | Some (ExplicitRelease t) => mret t
  | Some (DiscoveredRelease from _) => mret from
  | Some (ContinuousRelease _) => now
  | None => fail (ENew "engine: intent has nil release strategy")
  end.

(** [AfterFunc] and the select.  If the context is done first, the timer is
    stopped and nothing ran.  Otherwise the callback runs to its end; it
    does nothing if it finds the context done; and the context may still
    win the select, its error then replacing the callback's. *)
Definition wait_lost : M bool := λ w,
  (Ok (en_done env (w_step w) && negb (en_timer_first env (w_step w))), tick w).
Definition after_timer (delay : Z) : M unit := λ w, (Ok tt, pass delay w).
Definition waitAndFire (delay : Z) : M unit :=
  lost ← wait_lost;
  if (lost : bool) then fail ctx_error
  else
    _ ← after_timer delay;
    fireErr ← attempt (c ← ctx_Err; match c with Some _ => mret tt | None => fireRelease end);
    lost ← wait_lost;
    if (lost : bool) then fail ctx_error
    else match fireErr with Ok _ => mret tt | Err e => fail e end.

Definition Run (id : string) : M unit :=
  s ← Load id;
  _ ← (if bool_decide (s_status s = StatusSubmitted) then
         scheduledAt ← wrapped ("engine: derive scheduled_at for " +:+ id +:+ ": ")
                         (scheduledAtFromIntent (s_Intent s));
         wrapped ("engine: schedule " +:+ id +:+ ": ") (transitionToScheduled scheduledAt)
       else mret tt);
  s ← inner;
  if negb (bool_decide (s_status s = StatusScheduled)) then mret tt
  else
    n ← now;
    let delay := time_sub (s_ScheduledAt s) n in
    if delay <=? 0 then fireRelease else waitAndFire delay.
End Engine.
