(* ===== verification/Resy.v ===== *)
(** * [internal/resy]: the client of the booking site

    [client.go], [errors.go], [sign_retry.go] with the signers of
    [resy/sign], and the endpoints ([auth.go], [resolve.go], [search.go],
    [calendar.go], [find.go], [prepare.go], [book.go]).  The world holds the
    session store, the clock, the keys already sent, the signer and every
    request made with its answer.  The environment answers the requests; it
    also decides how long each step takes, when the context is done, and in
    which order a header map is walked. *)

From S2P Require Import Prelude Text Json JsonText Url Http GoTime GoFormat Types Status Slots Drop Hash Codec Wire ResyWire.
From S2P Require Import Sql Sqlite Tenant Accounts Sessions Engine.
From Stdlib Require Import Ascii.

Definition providerID : string := "resy".
Definition DefaultBaseURL : string := "https://api.resy.com".
Definition DefaultAPIKey : string := "VbWk7s3L4KiK5fzlO7JD3Q5EYolJI7n5".
Definition resolveAPIKey (getenv : string → string) : string :=
  let v := getenv "RESY_API_KEY" in if is_empty v then DefaultAPIKey else v.
Definition originHost : string := "https://widgets.resy.com".
Definition refererURL : string := "https://widgets.resy.com/".
Definition IdempotencyKeyHeader : string := "X-Resy-Idempotency-Key".
Definition signRetryFloor : Z := 100 * millisecond.
Definition truncate (s : string) (n : nat) : string :=
  if (String.length s <=? n)%nat then s else String.substring 0 n s +:+ "...".

(** ** [errors.go] *)

Section Classify.
Context (lower upper : string → string).

Definition isAntiBotBody (body : string) : bool :=
  existsb (str_contains (ToLower lower body)) ["captcha"; "challenge"; "denied"; "blocked"; "perimeterx"; "px-captcha"].
(** The one-field envelopes the classifier decodes a body into. *)
Record codeEnvelope := mkCodeEnvelope { ce_Code : string }.
#[export] Instance wire_code : WireCodec codeEnvelope := {|
  zero_val := mkCodeEnvelope "";
  to_json w := JObj (fld "specific_code" (ce_Code w));
  of_json j o := of_object o (λ m, c ← field ["specific_code"] "specific_code" m (ce_Code o); Some (mkCodeEnvelope c)) j
|}.
Definition extractSpecificCode (body : string) : string :=
  match (Unmarshal body : option codeEnvelope) with Some e => ce_Code e | None => "" end.
Record mfaEnvelope := mkMfaEnvelope { mf_Required : bool }.
#[export] Instance wire_mfa : WireCodec mfaEnvelope := {|
  zero_val := mkMfaEnvelope false;
  to_json w := JObj (fld "mfa_required" (mf_Required w));
  of_json j o := of_object o (λ m, r ← field ["mfa_required"] "mfa_required" m (mf_Required o); Some (mkMfaEnvelope r)) j
|}.
Definition isMFARequiredBody (body : string) : bool :=
  match (Unmarshal body : option mfaEnvelope) with Some e => mf_Required e | None => false end.
Record emptyResults := mkEmptyResults { em_Venues : list unit }.
#[export] Instance wire_emptyResults : WireCodec emptyResults := {|
  zero_val := mkEmptyResults [];
  to_json w := JObj (fld "venues" (em_Venues w));
  of_json j o := of_object o (λ m, v ← field ["venues"] "venues" m (em_Venues o); Some (mkEmptyResults v)) j
|}.
Record emptyFind := mkEmptyFind { ef_Results : emptyResults }.
#[export] Instance wire_emptyFind : WireCodec emptyFind := {|
  zero_val := mkEmptyFind zero_val;
  to_json w := JObj (fld "results" (ef_Results w));
  of_json j o := of_object o (λ m, r ← field ["results"] "results" m (ef_Results o); Some (mkEmptyFind r)) j
|}.
Definition isEmptyFindBody (body : string) : bool :=
  match (Unmarshal body : option emptyFind) with
  | Some e => (length (em_Venues (ef_Results e)) =? 0)%nat && str_contains body (dquote +:+ "venues" +:+ dquote)
  | None => false
  end.
Definition wrapWithBody (sentinel : error) (status : Z) (body : string) : error :=
  wrap ("resy: status " +:+ fmt_d status +:+ ": " +:+ truncate body 128 +:+ ": ") sentinel.
Definition classify2xx (body : string) : option error :=
  if isMFARequiredBody body then Some Providers.ErrMFARequired
  else if isEmptyFindBody body then Some Providers.ErrInventoryEmpty
  else None.
(** The codes Resy sends with a status of its own. *)
Definition sentinel_for_code (code : string) : option error :=
  if str_eqb code "BOOK_TOKEN_EXPIRED" then Some Providers.ErrBookTokenExpired
  else if existsb (str_eqb code) ["SLOT_NOT_AVAILABLE"; "SLOT_TAKEN"; "SLOT_UNAVAILABLE"] then Some Providers.ErrSlotTaken
  else if existsb (str_eqb code) ["AUTH_REQUIRED"; "AUTH_EXPIRED"] then Some Providers.ErrAuthExpired
  else if str_eqb code "RATE_LIMITED" then Some Providers.ErrRateLimited
  else None.
Definition classify (status : Z) (body : string) : option error :=
  if (status =? 200) || (status =? 201) then classify2xx body
  else if status =? 401 then Some (wrapWithBody Providers.ErrAuthExpired status body)
  else if status =? 429 then Some (wrapWithBody Providers.ErrRateLimited status body)
  else if status =? 410 then Some (wrapWithBody Providers.ErrBookTokenExpired status body)
  else if status =? 404 then Some (wrapWithBody Providers.ErrVenueNotFound status body)
  else if status =? 409 then Some (wrapWithBody Providers.ErrSlotTaken status body)
  else if status =? 403 then
    Some (wrapWithBody (if isAntiBotBody body then Providers.ErrAntiBotChallenge else Providers.ErrAuthExpired) status body)
  else
    let code := extractSpecificCode body in
    match (if is_empty code then None else sentinel_for_code (ToUpper upper code)) with
    | Some s => Some (wrapWithBody s status body)
    | None =>
        if (500 <=? status) && (status <? 600)
        then Some (ENew ("resy: server error " +:+ fmt_d status +:+ ": " +:+ truncate body 256))
        else Some (ENew ("resy: unexpected status " +:+ fmt_d status +:+ ": " +:+ truncate body 256))
    end.
End Classify.

(** ** [resy/sign] *)

Notation Headers := (gmap string string).
(** [Signer]: what it returns, its error, and its state.  The retry asks
    whether it is the [Noop]. *)
Class Signer (Sg : Type) := {
  is_Noop : bool;
  Sign : nat → string → Sg → Headers * option error * Sg;
  Reset : nat → Sg → option error * Sg
}.
Inductive Noop := NoopSigner.
#[export] Instance noop_signer : Signer Noop := {|
  is_Noop := true;
  Sign _ _ s := (∅, None, s);
  Reset _ s := (None, s)
|}.
(** [printing_press.go]: the headers cached since the last reset, and an
    external program, whose output the argument is. *)
Record Subprocess := mkSubprocess { sp_signArgs : list string; sp_resetArgs : list string; sp_cached : option Headers }.
Record signOutput := mkSignOutput { so_Headers : Headers }.
#[export] Instance wire_signOutput : WireCodec signOutput := {|
  zero_val := mkSignOutput ∅;
  to_json w := JObj (fld "headers" (so_Headers w));
  of_json j o := of_object o (λ m, h ← field ["headers"] "headers" m (so_Headers o); Some (mkSignOutput h)) j
|}.
Section Subprocess.
Context (run : nat → list string → res string) (bin : string).
Definition ErrSubprocessNotConfigured : error := ESentinel "sign: subprocess bin not configured".
Definition NewSubprocess (signArgs resetArgs : list string) : res Subprocess :=
  if is_empty bin then Err ErrSubprocessNotConfigured
  else Ok (mkSubprocess (match signArgs with [] => ["sign"; "--provider"; "resy"] | _ => signArgs end)
             (match resetArgs with [] => ["reset"; "--provider"; "resy"] | _ => resetArgs end) None).
Definition runSign (k : nat) (path : string) (s : Subprocess) : res Headers :=
  match run k (sp_signArgs s ++ (if is_empty path then [] else [path])) with
  | Err e => Err (wrap ("sign: " +:+ bin +:+ ": ") e)
  | Ok out =>
      match (Unmarshal out : option signOutput) with
      | None => Err (wrap "sign: parse output: " (ENew "json"))
      | Some env => Ok (so_Headers env)
      end
  end.
Definition set_cached (c : option Headers) (s : Subprocess) : Subprocess := mkSubprocess (sp_signArgs s) (sp_resetArgs s) c.
#[export] Instance subprocess_signer : Signer Subprocess := {|
  is_Noop := false;
  Sign k path s :=
    match sp_cached s with
    | Some h => (h, None, s)
    | None =>
        match runSign k path s with
        | Ok h => (h, None, set_cached (Some h) s)
        | Err e => (∅, Some e, s)
        end
    end;
  Reset k s :=
    (match run k (sp_resetArgs s) with Ok _ => None | Err e => Some (wrap "sign: reset: " e) end, set_cached None s)
|}.
End Subprocess.

(** ** The client and its world *)

Record RawResponse := mkRawResponse { rr_Status : Z; rr_RequestID : string; rr_Body : res string }.
Record HttpRequest := mkHttpRequest { hq_Method : string; hq_Path : string; hq_URL : string; hq_Header : Header; hq_Body : string }.
(** A request, when it was made and what came of it. *)
Record Sent := mkSent { st_At : Z; st_Request : HttpRequest; st_Answer : res RawResponse }.
Record ClientConfig := mkClientConfig { cl_baseURL : string; cl_apiKey : string; cl_userAgent : string; cl_store : bool }.
(** [*Session], and a [providers.Session] that may be another provider's,
    whose type an error names. *)
Record RSession := mkRSession { rs_userID : string; rs_jwt : string; rs_expiresAt : Time }.
Inductive AnySession := SResy (s : RSession) | SOther (type : string).
Definition session_type (s : AnySession) : string := match s with SResy _ => "*resy.Session" | SOther t => t end.
(** [providers.Session] as its methods show it. *)
Definition session_view (s : RSession) : Session := mkSession providerID (rs_userID s) (rs_expiresAt s).
Record ResyEnv := mkResyEnv {
  re_net : nat → HttpRequest → res RawResponse;
  re_faults : Faults;
  re_tick : nat → Z;
  re_done : nat → bool;
  re_deadline : bool;
  re_timer_first : nat → bool;
  re_order : nat → list (string * string) → list (string * string);
  re_loc : Location;
  re_lower : string → string;
  re_upper : string → string;
  re_ip_literal : string → option string;
  re_LoadLocation : string → res Location
}.
Record resy_env_ok (env : ResyEnv) : Prop := {
  re_tick_nonneg : ∀ k, 0 ≤ re_tick env k;
  re_order_perm : ∀ k l, Permutation (re_order env k l) l
}.
(** The seam to the session table. *)
Class SessionStore (St : Type) := {
  store_UpsertSession : SessionRow → SqlOf St unit;
  store_GetSession : string → string → Time → SqlOf St SessionRow
}.
#[export] Instance sqlite_sessions `{RowChoice} : SessionStore SessionDB := {|
  store_UpsertSession := UpsertSession;
  store_GetSession := GetSession
|}.
Record RWorld (St Sg : Type) := mkRWorld {
  rw_store : St;
  rw_sql : nat;
  rw_step : nat;
  rw_now : Z;
  rw_seen : gset string;
  rw_signer : Sg;
  rw_sent : list Sent
}.
Arguments mkRWorld {St Sg} _ _ _ _ _ _ _.
Arguments rw_store {St Sg} _.
Arguments rw_sql {St Sg} _.
Arguments rw_step {St Sg} _.
Arguments rw_now {St Sg} _.
Arguments rw_seen {St Sg} _.
Arguments rw_signer {St Sg} _.
Arguments rw_sent {St Sg} _.

Section Client.
Context {St Sg : Type} `{!SessionStore St} `{!Signer Sg} (cfg : ClientConfig) (env : ResyEnv).

Definition RM (A : Type) : Type := RWorld St Sg → res A * RWorld St Sg.
#[local] Instance rm_ret : MRet RM := λ A a w, (Ok a, w).
#[local] Instance rm_bind : MBind RM := λ A B k m w,
  match m w with (Ok a, w') => k a w' | (Err e, w') => (Err e, w') end.
Definition r_fail {A} (e : error) : RM A := λ w, (Err e, w).
Definition r_of {A} (r : res A) : RM A := λ w, (r, w).
Definition r_wrapped {A} (pre : string) (m : RM A) : RM A := λ w,
  match m w with (Ok a, w') => (Ok a, w') | (Err e, w') => (Err (wrap pre e), w') end.
Definition r_tick (w : RWorld St Sg) : RWorld St Sg :=
  mkRWorld (rw_store w) (rw_sql w) (S (rw_step w)) (rw_now w + re_tick env (rw_step w)) (rw_seen w) (rw_signer w) (rw_sent w).
Definition r_now : RM Time := λ w, let w := r_tick w in (Ok (mkTime (rw_now w) (re_loc env)), w).
Definition r_store {A} (f : SqlOf St A) : RM A := λ w,
  let '(r, n, st) := f (re_faults env) (rw_sql w) (rw_store w) in
  (r, r_tick (mkRWorld st n (rw_step w) (rw_now w) (rw_seen w) (rw_signer w) (rw_sent w))).
Definition r_ctx_error : error := if re_deadline env then DeadlineExceeded else Canceled.

(** *** [client.go] *)

Definition applyHeaders (authToken : string) : Header :=
  let h := list_to_map
    [("Accept", "application/json, text/plain, */*");
     ("Authorization", "ResyAPI api_key=" +:+ fmt_q (cl_apiKey cfg));
     ("Content-Type", "application/x-www-form-urlencoded");
     ("Origin", originHost); ("Referer", refererURL); ("X-Origin", originHost);
     ("User-Agent", cl_userAgent cfg)] in
  if is_empty authToken then h
  else <["x-resy-auth-token" := authToken]> (<["X-Resy-Universal-Auth" := authToken]> h).
(** The extra headers go in one by one, in the order the map is walked. *)
Definition set_extra (extra : list (string * string)) (h : Header) : Header :=
  foldl (λ h kv, if is_empty kv.2 then h else header_Set kv.1 kv.2 h) h extra.
Definition full_url (path : string) (query : list (string * string)) : string :=
  cl_baseURL cfg +:+ path +:+ (match query with [] => "" | _ => "?" +:+ Encode query end).
Definition send (req : HttpRequest) : RM RawResponse := λ w,
  let a := re_net env (rw_step w) req in
  (a, r_tick (mkRWorld (rw_store w) (rw_sql w) (rw_step w) (rw_now w) (rw_seen w) (rw_signer w)
                (rw_sent w ++ [mkSent (rw_now w) req a]))).
Definition map_order (m : Headers) : RM (list (string * string)) := λ w, (Ok (re_order env (rw_step w) (map_to_list m)), w).
(** The status and the body. *)
Definition doWithExtraHeaders (method path : string) (query : list (string * string)) (body authToken : string)
    (extra : Headers) : RM (Z * string) :=
  let what := "resy " +:+ method +:+ " " +:+ path +:+ ": " in
  match url_Parse (re_ip_literal env) (full_url path query) with
  | None => r_fail (wrap (what +:+ "build request: ") (ENew "parse URL"))
  | Some _ =>
      extra ← map_order extra;
      resp ← r_wrapped what (send (mkHttpRequest method path (full_url path query) (set_extra extra (applyHeaders authToken)) body));
      b ← r_wrapped (what +:+ "read body: ") (r_of (rr_Body resp));
      mret (rr_Status resp, b)
  end.
Definition do (method path : string) (query : list (string * string)) (body authToken : string) : RM (Z * string) :=
  doWithExtraHeaders method path query body authToken ∅.

(** *** [sign_retry.go] *)

(** The caller wins on a collision. *)
Definition mergeHeaders (base overlay : Headers) : Headers := base ∪ overlay.
(** A signing error is only logged. *)
Definition sign (path : string) : RM Headers := λ w,
  let '(h, _, s) := Sign (rw_step w) path (rw_signer w) in
  (Ok h, r_tick (mkRWorld (rw_store w) (rw_sql w) (rw_step w) (rw_now w) (rw_seen w) s (rw_sent w))).
Definition reset_signer : RM unit := λ w,
  let '(_, s) := Reset (rw_step w) (rw_signer w) in
  (Ok tt, r_tick (mkRWorld (rw_store w) (rw_sql w) (rw_step w) (rw_now w) (rw_seen w) s (rw_sent w))).
Definition attemptSigned (method path : string) (query : list (string * string)) (body authToken : string)
    (extra : Headers) : RM (Z * string) :=
  signed ← sign path;
  doWithExtraHeaders method path query body authToken (mergeHeaders extra signed).
(** [waitFloor]; [false] when the context is done first. *)
Definition waitFloor (d : Z) : RM bool := λ w,
  if d <=? 0 then (Ok true, w)
  else if re_done env (rw_step w) && negb (re_timer_first env (rw_step w))
       then (Ok false, r_tick w)
       else let w := r_tick w in
            (Ok true, mkRWorld (rw_store w) (rw_sql w) (rw_step w) (rw_now w + d) (rw_seen w) (rw_signer w) (rw_sent w)).
Definition r_classify (status : Z) (body : string) : option error := classify (re_lower env) (re_upper env) status body.
Definition challenged (status : Z) (body : string) : bool :=
  match r_classify status body with Some e => errors_is e Providers.ErrAntiBotChallenge | None => false end.
Definition doSignedAndRetry (method path : string) (query : list (string * string)) (body authToken : string)
    (extra : Headers) : RM (Z * string) :=
  '(status, b) ← attemptSigned method path query body authToken extra;
  if negb (challenged status b) || is_Noop then mret (status, b)
  else
    _ ← reset_signer;
    waited ← waitFloor signRetryFloor;
    if negb waited then mret (status, b)
    else attemptSigned method path query body authToken extra.
(** [if cls := classify(...); cls != nil { return ... %w }]. *)
Definition check_class (what : string) (status : Z) (b : string) : RM unit :=
  match r_classify status b with Some e => r_fail (wrap what e) | None => mret tt end.
Definition json_error : error := ENew "json".
Definition parse_body {A} `{WireCodec A} (e : error) (b : string) : RM A :=
  match (Unmarshal b : option A) with Some a => mret a | None => r_fail e end.
(** [fmt.Errorf("%w: %s", providers.ErrParseFailure, err)]. *)
Definition parse_failure : error := EWrap (error_String Providers.ErrParseFailure +:+ ": json") [Providers.ErrParseFailure].

(** *** [auth.go] *)

(** [*MFAError], apart from its challenge. *)
Definition MFAError : error := EWrap "resy: MFA required" [Providers.ErrMFARequired].
Definition Credentials : Type := string * string.
Definition persist_session (s : RSession) : RM unit :=
  if negb (cl_store cfg) then mret tt
  else
    now_ ← r_now;
    r_wrapped "resy.Login: persist session: "
      (r_store (store_UpsertSession (mkSessionRow (rs_userID s) providerID (rs_jwt s) (rs_expiresAt s) now_ now_))).
(** A session, or the challenge of an [*MFAError]. *)
Definition Login (creds : Credentials) : RM (RSession + string) :=
  let '(email, password) := creds in
  if is_empty email || is_empty password then r_fail (ENew "resy.Login: email and password are required")
  else
    '(status, body) ← r_wrapped "resy.Login: "
       (do "POST" "/3/auth/password" [] (Encode [("email", email); ("password", password)]) "");
    if status =? 401 then r_fail (wrap "resy.Login: bad credentials: " Providers.ErrAuthExpired)
    else if (status <? 200) || (300 <=? status)
    then r_fail (ENew ("resy.Login: status " +:+ fmt_d status +:+ ": " +:+ truncate body 256))
    else
      resp ← parse_body (wrap "resy.Login: parse response: " json_error) body;
      if are_MFARequired resp
      then mret (inr (if is_empty (are_ChallengeID resp) then are_ChallengeType resp else are_ChallengeID resp))
      else if is_empty (are_Token resp) then r_fail (ENew "resy.Login: response had no token")
      else
        exp ← r_wrapped "resy.Login: " (r_of (parseJWTExp (are_Token resp)));
        let sess := mkRSession email (are_Token resp) exp in
        _ ← persist_session sess;
        mret (inl sess).
Definition CompleteMFA (challenge code : string) : res RSession :=
  if is_empty challenge || is_empty code then Err (ENew "resy.CompleteMFA: challenge and code are required")
  else Err (ENew ("resy.CompleteMFA: not implemented in Phase 1 " +:+ bytes [226; 128; 148]%nat
                  +:+ " calibrate against the real MFA endpoint in Phase 2")).
Definition LoadSession (user : string) : RM RSession :=
  if negb (cl_store cfg) then r_fail (ENew "resy.LoadSession: no SessionStore configured")
  else
    now_ ← r_now;
    row ← r_wrapped "resy.LoadSession: " (r_store (store_GetSession user providerID now_));
    mret (mkRSession (ses_UserID row) (ses_JWT row) (ses_ExpiresAt row)).
Definition Ping (sess : AnySession) : RM unit :=
  match sess with
  | SOther t => r_fail (ENew ("resy.Ping: expected *resy.Session, got " +:+ t))
  | SResy rs =>
      now_ ← r_now;
      if IsSessionExpired (session_view rs) now_ then r_fail (wrap "resy.Ping: locally expired: " Providers.ErrAuthExpired)
      else
        '(status, _) ← r_wrapped "resy.Ping: " (do "GET" "/2/user" [] "" (rs_jwt rs));
        if status =? 401 then r_fail (wrap "resy.Ping: 401: " Providers.ErrAuthExpired)
        else if (status <? 200) || (300 <=? status) then r_fail (ENew ("resy.Ping: status " +:+ fmt_d status))
        else mret tt
  end.

(** *** [resolve.go] and [search.go] *)

Definition isJSONNull (b : string) : bool := str_eqb (TrimSpace b) "null".
Definition ResolveVenue (slug city : string) : RM Venue :=
  let slug := TrimSpace slug in
  let city := TrimSpace city in
  if is_empty slug then r_fail (ENew "resy.ResolveVenue: slug is required")
  else if is_empty city then r_fail (ENew "resy.ResolveVenue: city is required")
  else
    '(status, body) ← r_wrapped "resy.ResolveVenue: " (do "GET" "/3/venue" [("url_slug", slug); ("location", city)] "" "");
    _ ← check_class "resy.ResolveVenue: " status body;
    if is_empty body || isJSONNull body
    then r_fail (wrap "resy.ResolveVenue: empty body: " Providers.ErrVenueNotFound)
    else
      raw ← parse_body (wrap "resy.ResolveVenue: parse response: " parse_failure) body;
      if vib_Resy (vre_ID raw) =? 0
      then r_fail (wrap "resy.ResolveVenue: response missing id.resy: " Providers.ErrParseFailure)
      else if is_empty (vl_TimeZone (vre_Locale raw))
      then r_fail (wrap "resy.ResolveVenue: response missing locale.time_zone: " Providers.ErrParseFailure)
      else
        match re_LoadLocation env (vl_TimeZone (vre_Locale raw)) with
        | Err e =>
            r_fail (wrap ("resy.ResolveVenue: load tz " +:+ fmt_q (vl_TimeZone (vre_Locale raw)) +:+ ": ")
                      (EWrap (error_String Providers.ErrParseFailure +:+ ": " +:+ error_String e) [Providers.ErrParseFailure]))
        | Ok tz =>
            let v := mkVenue providerID (fmt_d (vib_Resy (vre_ID raw))) (vre_Name raw) (Some tz) in
            match venue_Validate v with
            | Some e => r_fail (wrap "resy.ResolveVenue: invalid venue: " e)
            | None => mret v
            end
        end.
Definition searchPerPage : Z := 25.
(** A hit without an id or a slug is skipped; there is no time zone yet. *)
Definition hit_venue (h : SearchHit) : option Venue :=
  if (vib_Resy (sh_ID h) =? 0) || is_empty (sh_URLSlug h) then None
  else Some (mkVenue providerID (fmt_d (vib_Resy (sh_ID h))) (sh_Name h) None).
Definition SearchVenuesByName (query : string) : RM (list Venue) :=
  let q := TrimSpace query in
  if is_empty q then r_fail (ENew "resy.SearchVenuesByName: query is required")
  else
    '(status, body) ← r_wrapped "resy.SearchVenuesByName: "
       (doWithExtraHeaders "POST" "/3/venuesearch/search" [] (Marshal (mkSearchRequest q searchPerPage ["venue"])) ""
          {[ "Content-Type" := "application/json" ]});
    _ ← check_class "resy.SearchVenuesByName: " status body;
    raw ← parse_body (wrap "resy.SearchVenuesByName: parse response: " parse_failure) body;
    mret (omap hit_venue (sb_Hits (sr_Search raw))).

(** *** [calendar.go] *)

Definition isAvailable (s : string) : bool := negb (existsb (str_eqb s) ["sold-out"; "sold_out"; "soldout"; "closed"; ""]).
Fixpoint calendar_days (l : list CalendarScheduled) : res (list CalendarDay) :=
  match l with
  | [] => Ok []
  | day :: l' =>
      match ParseDate (cs_Date day) with
      | Err e => Err (wrap ("resy.Calendar: bad date " +:+ fmt_q (cs_Date day) +:+ ": ") e)
      | Ok d => days ← calendar_days l'; Ok (mkCalendarDay d (isAvailable (ci_Reservation (cs_Inventory day))) :: days)
      end
  end.
Definition ResyCalendar (ref : VenueRef) (r : DateRange) : RM Calendar :=
  if negb (str_eqb (vr_Provider ref) providerID)
  then r_fail (ENew ("resy.Calendar: provider mismatch " +:+ fmt_q (vr_Provider ref)))
  else if is_empty (vr_Ref ref) then r_fail (ENew "resy.Calendar: empty venue ref")
  else if date_IsZero (dr_Start r) || date_IsZero (dr_End r)
  then r_fail (ENew "resy.Calendar: DateRange requires Start and End")
  else
    let seats := if dr_PartySize r <=? 0 then 2 else dr_PartySize r in
    '(status, body) ← r_wrapped "resy.Calendar: "
       (doSignedAndRetry "GET" "/4/venue/calendar"
          [("venue_id", vr_Ref ref); ("num_seats", fmt_d seats); ("start_date", date_String (dr_Start r));
           ("end_date", date_String (dr_End r))] "" "" ∅);
    _ ← check_class "resy.Calendar: " status body;
    raw ← parse_body (wrap "resy.Calendar: parse response: " json_error) body;
    days ← r_of (calendar_days (cr_Scheduled raw));
    mret (mkCalendar ref days).

(** *** [find.go] *)

Definition parseSlotWallTime (s : string) : res WallTime :=
  match split_on " " (TrimSpace s) with
  | [_; clock] => ParseWallTime clock
  | _ => Err (ENew ("expected YYYY-MM-DD HH:MM:SS, got " +:+ fmt_q s))
  end.
Definition found_slot (req : FindRequest) (s : FindSlot) (wall : WallTime) : Slot :=
  mkSlot (fr_Venue req) (fr_Date req) wall (fsc_Type (fs_Config s)) (fr_PartySize req)
    (Some (PResy (mkResySlotPayload (fsc_Token (fs_Config s)) (fmt_d (fsc_ID (fs_Config s))) (fsc_Type (fs_Config s)) "" 0))).
Fixpoint found_slots (req : FindRequest) (l : list FindSlot) : res (list Slot) :=
  match l with
  | [] => Ok []
  | s :: l' =>
      match parseSlotWallTime (fsd_Start (fs_Date s)) with
      | Err e => Err (wrap ("resy.Find: parse start " +:+ fmt_q (fsd_Start (fs_Date s)) +:+ ": ") e)
      | Ok wall => slots ← found_slots req l'; Ok (found_slot req s wall :: slots)
      end
  end.
Definition auth_of (sess : option AnySession) : string := match sess with Some (SResy rs) => rs_jwt rs | _ => "" end.
(** [sess] is the request's session itself, of which [fr_Session] is the view. *)
Definition ResyFind (req : FindRequest) (sess : option AnySession) : RM (list Slot) :=
  let ref := fr_Venue req in
  if negb (str_eqb (vr_Provider ref) providerID)
  then r_fail (ENew ("resy.Find: provider mismatch " +:+ fmt_q (vr_Provider ref)))
  else if is_empty (vr_Ref ref) then r_fail (ENew "resy.Find: empty venue ref")
  else if date_IsZero (fr_Date req) then r_fail (ENew "resy.Find: date is required")
  else if fr_PartySize req <=? 0 then r_fail (ENew "resy.Find: party_size > 0 required")
  else
    '(status, body) ← r_wrapped "resy.Find: "
       (doSignedAndRetry "GET" "/4/find"
          [("lat", "0"); ("long", "0"); ("day", date_String (fr_Date req)); ("party_size", fmt_d (fr_PartySize req));
           ("venue_id", vr_Ref ref)] "" (auth_of sess) ∅);
    _ ← check_class "resy.Find: " status body;
    raw ← parse_body (wrap "resy.Find: parse response: " json_error) body;
    slots ← r_of (found_slots req (flat_map fv_Slots (fre_Venues (fr_Results raw))));
    match slots with
    | [] => r_fail (wrap "resy.Find: " Providers.ErrInventoryEmpty)
    | _ => mret slots
    end.

(** *** [book.go] and [prepare.go] *)

(** [idempotencyTracker.check]: under its lock, so one step. *)
Definition check_key (key : string) : RM unit := λ w,
  if is_empty key then (Ok tt, w)
  else if bool_decide (key ∈ rw_seen w)
       then (Err (ENew ("resy: idempotency key " +:+ String.substring 0 8 key +:+ " already sent")), w)
       else (Ok tt, mkRWorld (rw_store w) (rw_sql w) (rw_step w) (rw_now w) ({[ key ]} ∪ rw_seen w) (rw_signer w) (rw_sent w)).
Definition dayFromSlot (s : Slot) : string := if date_IsZero (sl_Date s) then "" else date_String (sl_Date s).
Definition details_query (configID : string) (slot : Slot) : list (string * string) :=
  [("config_id", configID); ("day", dayFromSlot slot); ("party_size", fmt_d (sl_PartySize slot))].
Definition fetch_details (what parse : string) (configID : string) (slot : Slot) (jwt : string) : RM DetailsResponse :=
  '(status, body) ← r_wrapped what (doSignedAndRetry "GET" "/3/details" (details_query configID slot) "" jwt ∅);
  _ ← check_class what status body;
  parse_body (wrap parse json_error) body.
Definition fetchDetails : string → Slot → string → RM DetailsResponse :=
  fetch_details "resy.Book details: " "resy.Book details: parse: ".
Definition book_form (bookToken : string) (paymentID : Z) : string :=
  Encode [("book_token", bookToken);
          ("struct_payment_method", "{" +:+ dquote +:+ "id" +:+ dquote +:+ ":" +:+ fmt_d paymentID +:+ "}")].
(** What is left of [postBookWithIdempotency] once there is an answer. *)
Definition book_answer (status : Z) (body : string) : RM Confirmation :=
  _ ← check_class "resy.Book post: " status body;
  br ← parse_body (wrap "resy.Book post: parse: " json_error) body;
  if is_empty (br_ResyToken br) then r_fail (ENew "resy.Book: response had no resy_token")
  else
    now_ ← r_now;
    mret (mkConfirmation (br_ResyToken br) now_
            ("Reservation " +:+ fmt_d (br_ReservationID br) +:+ " (token " +:+ br_ResyToken br +:+ ")")).
Definition postBookWithIdempotency (bookToken : string) (paymentID : Z) (jwt key : string) : RM Confirmation :=
  '(status, body) ← r_wrapped "resy.Book post: "
     (doSignedAndRetry "POST" "/3/book" [] (book_form bookToken paymentID) jwt {[ IdempotencyKeyHeader := key ]});
  book_answer status body.
Definition with_session {A} (what : string) (sess : AnySession) (k : RSession → RM A) : RM A :=
  match sess with
  | SResy rs => k rs
  | SOther t => r_fail (ENew (what +:+ ": expected *resy.Session, got " +:+ t))
  end.
Definition with_payload {A} (what : string) (slot : Slot) (k : ResySlotPayload → RM A) : RM A :=
  match sl_Payload slot with
  | Some (PResy p) => k p
  | None => r_fail (ENew (what +:+ ": expected ResySlotPayload, got <nil>"))
  end.
(** The token of the details and the first payment method on file. *)
Definition book_terms (what : string) (det : DetailsResponse) : res (string * Z) :=
  if is_empty (dbt_Value (dr_BookToken det)) then Err (ENew (what +:+ ": /3/details returned no book_token"))
  else match du_PaymentMethods (dr_User det) with
       | [] => Err (ENew (what +:+ ": no payment method on file"))
       | m :: _ => Ok (dbt_Value (dr_BookToken det), dpm_ID m)
       end.
Definition Book (slot : Slot) (sess : AnySession) : RM Confirmation :=
  with_session "resy.Book" sess (λ rs,
  with_payload "resy.Book" slot (λ payload,
    det ← fetchDetails (ConfigID payload) slot (rs_jwt rs);
    '(token, payment) ← r_of (book_terms "resy.Book" det);
    postBookWithIdempotency token payment (rs_jwt rs) "")).
Definition BookWithIdempotency (slot : Slot) (sess : AnySession) (key : string) : RM Confirmation :=
  _ ← check_key key;
  with_session "resy.BookWithIdempotency" sess (λ rs,
  with_payload "resy.BookWithIdempotency" slot (λ payload,
    det ← fetchDetails (ConfigID payload) slot (rs_jwt rs);
    '(token, payment) ← r_of (book_terms "resy.BookWithIdempotency" det);
    postBookWithIdempotency token payment (rs_jwt rs) key)).
Definition prepared (slot : Slot) (p : ResySlotPayload) (token : string) (payment : Z) : Slot :=
  mkSlot (sl_Venue slot) (sl_Date slot) (sl_Time slot) (sl_TableType slot) (sl_PartySize slot)
    (Some (PResy (mkResySlotPayload (ConfigID p) (TemplateID p) (SeatingType p) token payment))).
Definition PrepareSlot (slot : Slot) (sess : AnySession) : RM Slot :=
  with_session "resy.PrepareSlot" sess (λ rs,
  with_payload "resy.PrepareSlot" slot (λ payload,
    if is_empty (ConfigID payload) then r_fail (ENew "resy.PrepareSlot: ConfigID is required")
    else
      det ← fetch_details "resy.PrepareSlot: " "resy.PrepareSlot: parse: " (ConfigID payload) slot (rs_jwt rs);
      '(token, payment) ← r_of (book_terms "resy.PrepareSlot" det);
      mret (prepared slot payload token payment))).
Definition ConfirmSlot (slot : Slot) (sess : AnySession) (key : string) : RM Confirmation :=
  with_session "resy.ConfirmSlot" sess (λ rs,
  with_payload "resy.ConfirmSlot" slot (λ payload,
    if is_empty (BookToken payload)
    then r_fail (ENew "resy.ConfirmSlot: BookToken is required (run PrepareSlot first)")
    else if PaymentMethodID payload =? 0
    then r_fail (ENew "resy.ConfirmSlot: PaymentMethodID is required (run PrepareSlot first)")
    else
      _ ← check_key key;
      postBookWithIdempotency (BookToken payload) (PaymentMethodID payload) (rs_jwt rs) key)).
End Client.
