(* ===== verification/ResyProofs.v ===== *)
(** * What the booking site's client guarantees

    Each operation is followed through the requests it makes: what they
    carry, how often they are made, and what their answers turn into. *)

From S2P Require Import Prelude Text Json JsonText Url Http GoTime GoFormat Types Status Slots Drop Hash Codec Wire ResyWire.
From S2P Require Import Sql Sqlite SqliteStore Tenant Accounts Sessions Engine Resy.
From Stdlib Require Import Ascii.

#[local] Existing Instances rm_ret rm_bind.

(** ** Headers *)

Lemma set_extra_other K l h :
  Forall (λ kv, CanonicalHeaderKey kv.1 = K → kv.2 = "") l → set_extra l h !! K = h !! K.
Proof.
  unfold set_extra. revert h. induction l as [|[k v] l IH]; intros h; [done|]. intros [Hk Hl]%Forall_cons. cbn [foldl fst snd].
  rewrite IH by done. destruct (is_empty v) eqn:E; [done|]. unfold header_Set. rewrite lookup_insert_ne; [done|].
  intros Heq. cbn in Hk. specialize (Hk Heq). subst v. done.
Qed.
Lemma set_extra_one K k v l h :
  (k, v) ∈ l → v ≠ "" → CanonicalHeaderKey k = K →
  Forall (λ kv, CanonicalHeaderKey kv.1 = K → kv = (k, v)) l → set_extra l h !! K = Some v.
Proof.
  intros Hin Hv Hk. revert h Hin. induction l as [|x l IH]; intros h; [by intros ?%elem_of_nil|].
  intros Hin [Hx Hl]%Forall_cons. change (set_extra (x :: l) h) with (set_extra l (set_extra [x] h)).
  destruct (decide ((k, v) ∈ l)) as [Hl'|Hn]; [by apply IH|].
  apply elem_of_cons in Hin as [<-|?]; [|done]. rewrite set_extra_other.
  - cbn. destruct (is_empty v) eqn:E; [unfold is_empty, str_eqb in E; by apply bool_decide_eq_true_1 in E|].
    unfold header_Set. by rewrite Hk, lookup_insert_eq.
  - rewrite Forall_forall in Hl |- *. intros kv Hkv Hc. exfalso. apply Hn. by rewrite <- (Hl kv Hkv Hc).
Qed.

Section Client.
Context {St Sg : Type} `{!SessionStore St} `{!Signer Sg} (cfg : ClientConfig) (env : ResyEnv).
Notation RWorld := (RWorld St Sg).

(** ** One round trip *)

Definition request (method path : string) (query : list (string * string)) (body authToken : string)
    (extra : list (string * string)) : HttpRequest :=
  mkHttpRequest method path (full_url cfg path query) (set_extra extra (applyHeaders cfg authToken)) body.
Definition read_answer (what : string) (a : res RawResponse) : res (Z * string) :=
  match a with
  | Err e => Err (wrap what e)
  | Ok r => match rr_Body r with Err e => Err (wrap (what +:+ "read body: ") e) | Ok b => Ok (rr_Status r, b) end
  end.
Definition after_sending (w : RWorld) (req : HttpRequest) : RWorld :=
  r_tick env (mkRWorld (rw_store w) (rw_sql w) (rw_step w) (rw_now w) (rw_seen w) (rw_signer w)
                (rw_sent w ++ [mkSent (rw_now w) req (re_net env (rw_step w) req)])).
Lemma do_spec method path query body auth (extra : Headers) (w : RWorld) :
  doWithExtraHeaders cfg env method path query body auth extra w =
    let what := "resy " +:+ method +:+ " " +:+ path +:+ ": " in
    match url_Parse (re_ip_literal env) (full_url cfg path query) with
    | None => (Err (wrap (what +:+ "build request: ") (ENew "parse URL")), w)
    | Some _ =>
        let req := request method path query body auth (re_order env (rw_step w) (map_to_list extra)) in
        (read_answer what (re_net env (rw_step w) req), after_sending w req)
    end.
Proof.
  unfold doWithExtraHeaders. cbv zeta. destruct (url_Parse _ _); [|done].
  unfold mbind, rm_bind, map_order, r_wrapped, send. cbv zeta. unfold request, after_sending.
  destruct (re_net env (rw_step w) _) as [r|e]; [|done]. unfold r_of, mret, rm_ret. cbn.
  destruct (rr_Body r); done.
Qed.

(** What a step may do to the world: make requests, and let time pass. *)
Record sends (w : RWorld) (l : list Sent) (w' : RWorld) : Prop := {
  sends_log : rw_sent w' = rw_sent w ++ l;
  sends_seen : rw_seen w' = rw_seen w;
  sends_store : rw_store w' = rw_store w;
  sends_now : rw_now w ≤ rw_now w'
}.
Lemma sends_refl w : sends w [] w.
Proof. split; [by rewrite app_nil_r|done|done|lia]. Qed.
Lemma sends_trans a l b m c : sends a l b → sends b m c → sends a (l ++ m) c.
Proof.
  intros [] []. split; [by rewrite app_assoc, <- sends_log0|congruence|congruence|lia].
Qed.
Definition answered (s : Sent) (status : Z) (b : string) : Prop :=
  ∃ r, st_Answer s = Ok r ∧ rr_Status r = status ∧ rr_Body r = Ok b.
(** The request an attempt makes, whatever the signer adds to [extra]. *)
Definition shaped (method path : string) (query : list (string * string)) (body auth : string) (extra : Headers)
    (req : HttpRequest) : Prop :=
  ∃ k s h, h = (Sign k path s).1.1 ∧
    ∃ l, Permutation l (map_to_list (mergeHeaders extra h)) ∧ req = request method path query body auth l.

Hypothesis env_ok : resy_env_ok env.

Lemma tick_sends w : sends w [] (r_tick env w).
Proof. split; cbn; [by rewrite app_nil_r|done|done|]. pose proof (re_tick_nonneg _ env_ok (rw_step w)). lia. Qed.
Lemma sign_sends path w : sends w [] (sign env path w).2.
Proof.
  unfold sign. destruct (Sign _ _ _) as [[h e] s]. split; cbn; [by rewrite app_nil_r|done|done|].
  pose proof (re_tick_nonneg _ env_ok (rw_step w)). lia.
Qed.
Lemma attempt_spec method path query body auth extra w r w' :
  attemptSigned cfg env method path query body auth extra w = (r, w') →
  ∃ l, sends w l w' ∧
    match l with
    | [] => is_Ok r = false
    | [s] => shaped method path query body auth extra (st_Request s) ∧ rw_now w ≤ st_At s ≤ rw_now w' ∧
             ∀ status b, r = Ok (status, b) → answered s status b
    | _ => False
    end.
Proof.
  unfold attemptSigned, mbind, rm_bind. pose proof (sign_sends path w) as Hs.
  assert (Hh : ∃ h, (sign env path w).1 = Ok h ∧ h = (Sign (rw_step w) path (rw_signer w)).1.1)
    by (unfold sign; destruct (Sign _ _ _) as [[h e] s]; by exists h).
  destruct Hh as (h & Eh & Hh). destruct (sign env path w) as [rh w1]. cbn in Eh, Hs. subst rh.
  rewrite do_spec. destruct (url_Parse _ _) as [u|].
  - set (req := request _ _ _ _ _ _). intros [= <- <-]. exists [mkSent (rw_now w1) req (re_net env (rw_step w1) req)].
    pose proof (re_tick_nonneg _ env_ok (rw_step w1)). destruct Hs as [H1 H2 H3 H4]. split; [|split_all].
    + split; cbn; [by rewrite H1, app_nil_r|done|done|lia].
    + exists (rw_step w), (rw_signer w), h. split; [done|]. eexists. split; [apply (re_order_perm _ env_ok)|done].
    + cbn. lia.
    + cbn. lia.
    + intros status b H0. unfold read_answer in H0. unfold answered. cbn [st_Answer].
      destruct (re_net env (rw_step w1) req) as [a|]; [|done]. exists a.
      destruct (rr_Body a) eqn:Eb; [|done]. by injection H0 as <- <-.
  - intros [= <- <-]. by exists [].
Qed.

(** ** The signed exchange *)

Definition was_challenged (s : Sent) : Prop := ∃ status b, answered s status b ∧ challenged env status b = true.
Definition settles (s : Sent) (r : res (Z * string)) : Prop := ∀ status b, r = Ok (status, b) → answered s status b.
Definition exchanged (method path : string) (query : list (string * string)) (body auth : string) (extra : Headers)
    (l : list Sent) (r : res (Z * string)) : Prop :=
  let shape s := shaped method path query body auth extra (st_Request s) in
  match l with
  | [] => is_Ok r = false
  | [s] => shape s ∧ settles s r
  | [s; s2] => shape s ∧ shape s2 ∧ is_Noop = false ∧ was_challenged s ∧ st_At s + signRetryFloor ≤ st_At s2 ∧ settles s2 r
  | _ => False
  end.
Lemma reset_sends (w : RWorld) : (reset_signer env w).1 = Ok tt ∧ sends w [] (reset_signer env w).2.
Proof.
  unfold reset_signer. destruct (Reset _ _) as [e s]. split; [done|]. split; cbn; [by rewrite app_nil_r|done|done|].
  pose proof (re_tick_nonneg _ env_ok (rw_step w)). lia.
Qed.
Lemma wait_sends d (w : RWorld) b w' :
  0 ≤ d → waitFloor env d w = (Ok b, w') → sends w [] w' ∧ (b = true → rw_now w + d ≤ rw_now w').
Proof.
  intros Hd. unfold waitFloor. pose proof (re_tick_nonneg _ env_ok (rw_step w)).
  destruct (d <=? 0) eqn:E; zb; [|destruct (_ && _)]; intros [= <- <-].
  - split; [apply sends_refl|lia].
  - split; [apply tick_sends|done].
  - split; [|cbn; lia]. split; cbn; [by rewrite app_nil_r|done|done|lia].
Qed.
Lemma wait_Ok d (w : RWorld) : is_Ok (waitFloor env d w).1 = true.
Proof. unfold waitFloor. destruct (d <=? 0); [done|]. by destruct (_ && _). Qed.
Lemma exchange_spec method path query body auth extra w r w' :
  doSignedAndRetry cfg env method path query body auth extra w = (r, w') →
  ∃ l, sends w l w' ∧ exchanged method path query body auth extra l r.
Proof.
  unfold doSignedAndRetry, mbind, rm_bind.
  destruct (attemptSigned _ _ _ _ _ _ _ _ w) as [r1 w1] eqn:E1. apply attempt_spec in E1 as (l1 & S1 & H1).
  destruct r1 as [[status b]|e].
  2: { intros [= <- <-]. exists l1. split; [done|]. destruct l1 as [|s [|]]; [done|by destruct H1 as (? & _ & _)|done]. }
  destruct l1 as [|s [|? ?]]; [done| |done]. destruct H1 as (Sh & [At1 At2] & Ha). specialize (Ha _ _ eq_refl).
  destruct (negb (challenged env status b) || is_Noop) eqn:Ec.
  { intros [= <- <-]. exists [s]. split; [done|]. split; [done|]. intros ? ? [= <- <-]. done. }
  apply orb_false_iff in Ec as [Ec%negb_false_iff En].
  pose proof (reset_sends w1) as [Er S2]. destruct (reset_signer env w1) as [rr w2]. cbn in Er, S2. subst rr.
  destruct (waitFloor env signRetryFloor w2) as [rw w3] eqn:Ew.
  pose proof (wait_Ok signRetryFloor w2) as Hok. rewrite Ew in Hok. destruct rw as [waited|]; [|done].
  apply wait_sends in Ew as [S3 Hw]; [|done]. pose proof (sends_trans _ _ _ _ _ S1 (sends_trans _ _ _ _ _ S2 S3)) as S.
  cbn in S. destruct waited; cbn [negb].
  2: { intros [= <- <-]. exists [s]. split; [done|]. split; [done|]. intros ? ? [= <- <-]. done. }
  specialize (Hw eq_refl). intros E2. apply attempt_spec in E2 as (l2 & S4 & H2).
  pose proof (sends_trans _ _ _ _ _ S S4) as S5. exists ([s] ++ l2). split; [done|].
  destruct l2 as [|s2 [|? ?]]; [|destruct H2 as (Sh2 & At3 & Ha2)|done]; cbn.
  - split; [done|]. intros ? ? ->. done.
  - split_all; try done; [by exists status, b|]. destruct S2, S3. lia.
Qed.

(** ** Who sends an idempotency key *)

(** The signer keeps off that header. *)
Definition polite : Prop :=
  ∀ k path s, map_Forall (λ name _, CanonicalHeaderKey name ≠ IdempotencyKeyHeader) (Sign k path s).1.1.
Hypothesis signer_polite : polite.

Definition key_of (s : Sent) : option string := hq_Header (st_Request s) !! IdempotencyKeyHeader.
Lemma applyHeaders_key auth : applyHeaders cfg auth !! IdempotencyKeyHeader = None.
Proof.
  unfold applyHeaders. set (h := list_to_map _).
  assert (h !! IdempotencyKeyHeader = None).
  { subst h. apply not_elem_of_list_to_map_1. cbn. rewrite !not_elem_of_cons. split_all; try done. apply not_elem_of_nil. }
  destruct (is_empty auth); [done|]. by rewrite !lookup_insert_ne.
Qed.
(** Apart from what [extra] says itself. *)
Lemma shaped_other method path query body auth extra req :
  map_Forall (λ name v, CanonicalHeaderKey name = IdempotencyKeyHeader → v = "") extra →
  shaped method path query body auth extra req → hq_Header req !! IdempotencyKeyHeader = None.
Proof.
  intros He (k & s & h & -> & l & Hp & ->). cbn [hq_Header request]. rewrite set_extra_other; [apply applyHeaders_key|].
  apply Forall_forall. intros [name v] Hin. rewrite Hp in Hin. apply elem_of_map_to_list in Hin. cbn.
  unfold mergeHeaders in Hin. apply lookup_union_Some_raw in Hin as [Hin|[_ Hin]].
  - intros Hc. by apply (He name v).
  - intros Hc. by destruct (signer_polite k path s name v Hin).
Qed.
Lemma shaped_keyed method path query body auth key req :
  key ≠ "" → shaped method path query body auth {[ IdempotencyKeyHeader := key ]} req →
  hq_Header req !! IdempotencyKeyHeader = Some key.
Proof.
  intros Hk (k & s & h & -> & l & Hp & ->). cbn [hq_Header request]. apply (set_extra_one _ IdempotencyKeyHeader); [|done|done|].
  - rewrite Hp. apply elem_of_map_to_list. unfold mergeHeaders. apply lookup_union_Some_l. apply lookup_singleton_eq.
  - apply Forall_forall. intros [name v] Hin Hc. rewrite Hp in Hin. apply elem_of_map_to_list in Hin. cbn in Hc.
    unfold mergeHeaders in Hin. apply lookup_union_Some_raw in Hin as [Hin|[_ Hin]].
    + by apply lookup_singleton_Some in Hin as [<- <-].
    + by destruct (signer_polite k path s name v Hin).
Qed.

(** Steps that claim no key and send none. *)
Definition quietly (w w' : RWorld) : Prop :=
  ∃ l, rw_sent w' = rw_sent w ++ l ∧ rw_seen w' = rw_seen w ∧ Forall (λ s, key_of s = None) l.
Definition quiet {A} (m : RM A) : Prop := ∀ w : RWorld, quietly w (m w).2.
Lemma quietly_refl w : quietly w w.
Proof. exists []. by rewrite app_nil_r. Qed.
Lemma quietly_trans a b c : quietly a b → quietly b c → quietly a c.
Proof.
  intros (l & E1 & S1 & F1) (m & E2 & S2 & F2). exists (l ++ m). rewrite E2, E1, app_assoc. split_all; [done|congruence|].
  by apply Forall_app.
Qed.
Lemma quiet_ret {A} (a : A) : quiet (mret a : RM A).
Proof. intros w. apply quietly_refl. Qed.
Lemma quiet_seq {A B} (m : RM A) (k : A → RM B) : quiet m → (∀ a, quiet (k a)) → quiet (m ≫= k).
Proof.
  intros Hm Hk w. unfold mbind, rm_bind. specialize (Hm w). destruct (m w) as [[a|e] w']; [|done].
  eapply quietly_trans; [exact Hm|apply Hk].
Qed.
Lemma quiet_fail {A} e : quiet (r_fail e : RM A).
Proof. intros w. apply quietly_refl. Qed.
Lemma quiet_of {A} (r : res A) : quiet (r_of r : RM A).
Proof. intros w. apply quietly_refl. Qed.
Lemma quiet_wrapped {A} pre (m : RM A) : quiet m → quiet (r_wrapped pre m).
Proof. intros Hm w. unfold r_wrapped. specialize (Hm w). by destruct (m w) as [[a|e] w']. Qed.
Lemma quiet_now : quiet (r_now env).
Proof. intros w. exists []. by rewrite app_nil_r. Qed.
Lemma quiet_store {A} (f : SqlOf St A) : quiet (r_store env f).
Proof. intros w. unfold r_store. destruct (f _ _ _) as [[r n] st]. exists []. cbn. by rewrite app_nil_r. Qed.
Lemma quiet_class what status b : quiet (check_class env what status b).
Proof. unfold check_class. destruct (r_classify env status b); [apply quiet_fail|apply quiet_ret]. Qed.
Lemma quiet_parse {A} `{WireCodec A} e b : quiet (parse_body e b : RM A).
Proof. unfold parse_body. destruct (Unmarshal b); [apply quiet_ret|apply quiet_fail]. Qed.
Lemma quiet_exchange method path query body auth (extra : Headers) :
  map_Forall (λ name v, CanonicalHeaderKey name = IdempotencyKeyHeader → v = "") extra →
  quiet (doSignedAndRetry cfg env method path query body auth extra).
Proof.
  intros He w. destruct (doSignedAndRetry _ _ _ _ _ _ _ _ w) as [r w'] eqn:E. apply exchange_spec in E as (l & [S1 S2 _ _] & H).
  exists l. split_all; [done|done|]. pose proof (shaped_other method path query body auth extra) as Ho.
  destruct l as [|s [|s2 [|]]]; try done; repeat constructor; unfold key_of; apply Ho; by try apply H.
Qed.
Lemma quiet_do method path query body auth (extra : Headers) :
  map_Forall (λ name v, CanonicalHeaderKey name = IdempotencyKeyHeader → v = "") extra →
  quiet (doWithExtraHeaders cfg env method path query body auth extra).
Proof.
  intros He w. rewrite do_spec. cbv zeta. destruct (url_Parse _ _); [|apply quietly_refl]. cbn [snd].
  eexists [_]. split_all; [reflexivity|done|]. repeat constructor. unfold key_of. cbn.
  rewrite set_extra_other; [apply applyHeaders_key|]. apply Forall_forall. intros [name v] Hin.
  rewrite (re_order_perm _ env_ok) in Hin. apply elem_of_map_to_list in Hin. by apply (He name v).
Qed.
Lemma no_extra : map_Forall (λ name v, CanonicalHeaderKey name = IdempotencyKeyHeader → v = "") (∅ : Headers).
Proof. intros name v H. by rewrite lookup_empty in H. Qed.

Ltac quiet_step :=
  match goal with
  | |- quiet (mbind _ _) => apply quiet_seq; [|intros]
  | |- quiet (mret _) => apply quiet_ret
  | |- quiet (r_fail _) => apply quiet_fail
  | |- quiet (r_of _) => apply quiet_of
  | |- quiet (r_wrapped _ _) => apply quiet_wrapped
  | |- quiet (r_now _) => apply quiet_now
  | |- quiet (r_store _ _) => apply quiet_store
  | |- quiet (check_class _ _ _ _) => apply quiet_class
  | |- quiet (parse_body _ _) => apply quiet_parse
  | |- quiet (doSignedAndRetry _ _ _ _ _ _ _ ∅) => apply quiet_exchange, no_extra
  | |- quiet (do _ _ _ _ _ _ _) => apply quiet_do, no_extra
  | |- quiet (match ?x with _ => _ end) => destruct x
  | |- quiet (if ?b then _ else _) => destruct b
  end.
Lemma quiet_details what parse id slot jwt : quiet (fetch_details cfg env what parse id slot jwt).
Proof. unfold fetch_details. repeat quiet_step. Qed.

(** The operations of the client. *)
Inductive ClientOp :=
| OpLogin (creds : Credentials)
| OpLoadSession (user : string)
| OpPing (sess : AnySession)
| OpResolveVenue (slug city : string)
| OpSearchVenuesByName (query : string)
| OpCalendar (ref : VenueRef) (r : DateRange)
| OpFind (req : FindRequest) (sess : option AnySession)
| OpPrepareSlot (slot : Slot) (sess : AnySession)
| OpConfirmSlot (slot : Slot) (sess : AnySession) (key : string)
| OpBook (slot : Slot) (sess : AnySession)
| OpBookWithIdempotency (slot : Slot) (sess : AnySession) (key : string).
Definition run_op (op : ClientOp) (w : RWorld) : RWorld :=
  match op with
  | OpLogin c => (Login cfg env c w).2
  | OpLoadSession u => (LoadSession cfg env u w).2
  | OpPing s => (Ping cfg env s w).2
  | OpResolveVenue s c => (ResolveVenue cfg env s c w).2
  | OpSearchVenuesByName q => (SearchVenuesByName cfg env q w).2
  | OpCalendar ref r => (ResyCalendar cfg env ref r w).2
  | OpFind req s => (ResyFind cfg env req s w).2
  | OpPrepareSlot s se => (PrepareSlot cfg env s se w).2
  | OpConfirmSlot s se k => (ConfirmSlot cfg env s se k w).2
  | OpBook s se => (Book cfg env s se w).2
  | OpBookWithIdempotency s se k => (BookWithIdempotency cfg env s se k w).2
  end.
Definition keyless (op : ClientOp) : bool :=
  match op with OpConfirmSlot _ _ _ | OpBook _ _ | OpBookWithIdempotency _ _ _ => false | _ => true end.
Lemma keyless_quiet op w : keyless op = true → quietly w (run_op op w).
Proof.
  assert (Hq : ∀ {A} (m : RM A), quiet m → quietly w (m w).2) by (intros A m Hm; apply Hm).
  destruct op as [[e p]|u|se|sl c|q|ref r|req se|slot se|slot se k|slot se|slot se k]; intros H; try done; cbn [run_op]; apply Hq.
  - unfold Login, persist_session. repeat quiet_step.
  - unfold LoadSession. repeat quiet_step.
  - unfold Ping. repeat quiet_step.
  - unfold ResolveVenue. repeat quiet_step.
  - unfold SearchVenuesByName. repeat quiet_step.
    apply quiet_do. intros name v Hn. by apply lookup_singleton_Some in Hn as [<- <-].
  - unfold ResyCalendar. repeat quiet_step.
  - unfold ResyFind. repeat quiet_step.
  - unfold PrepareSlot, with_session, with_payload. repeat first [apply quiet_details | quiet_step].
Qed.

(** ** The ledger of keyed requests *)

Definition with_key (key : string) (l : list Sent) : list Sent := List.filter (λ s, bool_decide (key_of s = Some key)) l.
Definition retried (s s2 : Sent) : Prop :=
  is_Noop = false ∧ was_challenged s ∧ st_At s + signRetryFloor ≤ st_At s2 ∧
  hq_Path (st_Request s2) = hq_Path (st_Request s) ∧ hq_Body (st_Request s2) = hq_Body (st_Request s).
Definition allowed (l : list Sent) : Prop :=
  match l with [] => True | [_] => True | [s; s2] => retried s s2 | _ => False end.
Definition unused (key : string) (w : RWorld) : Prop := with_key key (rw_sent w) = [].
Record ledger (w : RWorld) : Prop := {
  ledger_unseen : ∀ key, key ≠ "" → key ∉ rw_seen w → unused key w;
  ledger_allowed : ∀ key, key ≠ "" → allowed (with_key key (rw_sent w))
}.
Lemma with_key_app key l m : with_key key (l ++ m) = with_key key l ++ with_key key m.
Proof. apply List.filter_app. Qed.
Lemma with_key_none key l : Forall (λ s, key_of s = None) l → with_key key l = [].
Proof.
  induction 1 as [|s l Hs _ IH]; [done|]. unfold with_key in *. cbn [List.filter]. rewrite Hs, IH. by rewrite bool_decide_eq_false_2.
Qed.
Lemma with_key_all key key' l :
  Forall (λ s, key_of s = Some key') l → with_key key l = if str_eqb key key' then l else [].
Proof.
  induction 1 as [|s l Hs _ IH]; [by destruct (str_eqb _ _)|]. unfold with_key in *. cbn [List.filter]. rewrite Hs, IH. unfold str_eqb.
  destruct (decide (key = key')) as [->|Hn].
  - by rewrite !bool_decide_eq_true_2.
  - rewrite !bool_decide_eq_false_2; [done|done|congruence].
Qed.
Lemma quietly_ledger w w' : quietly w w' → ledger w → ledger w'.
Proof.
  intros (l & El & Es & F) [H1 H2]. split; intros key Hk; unfold unused; rewrite ?El, ?with_key_app, ?(with_key_none key l F), ?app_nil_r, ?Es; auto.
  intros Hn. by apply H1.
Qed.
Lemma quietly_unused key w w' : quietly w w' → unused key w → unused key w'.
Proof. intros (l & El & _ & F) H. unfold unused. by rewrite El, with_key_app, (with_key_none key l F), app_nil_r. Qed.
Lemma shaped_body method path query body auth extra req :
  shaped method path query body auth extra req → hq_Path req = path ∧ hq_Body req = body.
Proof. by intros (k & s & h & _ & l & _ & ->). Qed.
(** A keyed exchange, for a key that has not been used. *)
Lemma keyed_exchange method path query body auth key w :
  key ≠ "" → unused key w → key ∈ rw_seen w → ledger w →
  ledger (doSignedAndRetry cfg env method path query body auth {[ IdempotencyKeyHeader := key ]} w).2.
Proof.
  intros Hk Hu Hs [H1 H2]. destruct (doSignedAndRetry _ _ _ _ _ _ _ _ w) as [r w'] eqn:E.
  apply exchange_spec in E as (l & [S1 S2 _ _] & H). cbn [snd].
  assert (F : Forall (λ s, key_of s = Some key) l).
  { pose proof (shaped_keyed method path query body auth key) as Hsk.
    destruct l as [|s [|s2 [|]]]; try done; repeat constructor; unfold key_of; (apply Hsk; [done|]); by try apply H. }
  split; intros key' Hk'; unfold unused; rewrite ?S1, ?S2, ?with_key_app, ?(with_key_all key' key l F).
  - intros Hn. unfold str_eqb. rewrite bool_decide_eq_false_2 by (by intros ->). by rewrite app_nil_r; apply H1.
  - unfold str_eqb. case_bool_decide as Heq; [|by rewrite app_nil_r; apply H2]. subst key'. unfold unused in Hu. rewrite Hu. cbn.
    destruct l as [|s [|s2 [|]]]; try done. destruct H as (Sh1 & Sh2 & Hn & Hc & Ht & _).
    apply shaped_body in Sh1 as [P1 B1], Sh2 as [P2 B2]. unfold allowed, retried. by rewrite P1, P2, B1, B2.
Qed.
Lemma quiet_book_answer status body : quiet (book_answer env status body).
Proof. unfold book_answer. repeat quiet_step. Qed.
Lemma post_ledger token payment jwt key w :
  (key = "" ∨ (unused key w ∧ key ∈ rw_seen w)) → ledger w →
  ledger (postBookWithIdempotency cfg env token payment jwt key w).2.
Proof.
  intros Hk Hl. unfold postBookWithIdempotency. 
  assert (Hx : ledger (doSignedAndRetry cfg env "POST" "/3/book" [] (book_form token payment) jwt {[ IdempotencyKeyHeader := key ]} w).2).
  { destruct (decide (key = "")) as [->|Hn].
    - eapply quietly_ledger; [|exact Hl]. apply quiet_exchange. intros name v Hm. by apply lookup_singleton_Some in Hm as [<- <-].
    - destruct Hk as [|[Hu Hs]]; [done|]. by apply keyed_exchange. }
  unfold mbind, rm_bind, r_wrapped. destruct (doSignedAndRetry _ _ _ _ _ _ _ _ w) as [[[status body]|e] w1]; [|exact Hx].
  cbn [snd] in Hx. eapply quietly_ledger; [|exact Hx].
  apply quiet_book_answer.
Qed.
Lemma check_key_spec key w :
  match check_key key w with
  | (Err _, w') => w' = w
  | (Ok _, w') => (ledger w → ledger w' ∧ (key = "" ∨ (unused key w' ∧ key ∈ rw_seen w')))
  end.
Proof.
  unfold check_key. destruct (is_empty key) eqn:Ee.
  - unfold is_empty, str_eqb in Ee. apply bool_decide_eq_true_1 in Ee as ->. auto.
  - case_bool_decide as Hin; [done|]. intros [H1 H2].
    assert (key ≠ "") by (unfold is_empty, str_eqb in Ee; by apply bool_decide_eq_false_1 in Ee).
    split; [split|right; split]; cbn; auto.
    + intros key' Hk Hn. apply H1; [done|set_solver].
    + by apply H1.
    + set_solver.
Qed.
Lemma run_op_ledger op w : ledger w → ledger (run_op op w).
Proof.
  intros Hl. destruct (keyless op) eqn:Ek; [eapply quietly_ledger; [by apply keyless_quiet|done]|].
  destruct op as [| | | | | | | |slot se key|slot se|slot se key]; try done; cbn [run_op].
  - unfold ConfirmSlot, with_session, with_payload. destruct se as [rs|]; [|done]. destruct (sl_Payload slot) as [[p]|]; [|done].
    destruct (is_empty _); [done|]. destruct (_ =? 0); [done|]. unfold mbind, rm_bind.
    pose proof (check_key_spec key w) as Hc. destruct (check_key key w) as [[[]|e] w1]; [|by subst].
    destruct (Hc Hl) as [Hl1 Hk]. by apply post_ledger.
  - unfold Book, with_session, with_payload. destruct se as [rs|]; [|done]. destruct (sl_Payload slot) as [[p]|]; [|done].
    unfold mbind, rm_bind, fetchDetails. pose proof (quiet_details "resy.Book details: " "resy.Book details: parse: " (ConfigID p) slot (rs_jwt rs) w) as Hq.
    apply (quietly_ledger _ _ Hq) in Hl. destruct (fetch_details _ _ _ _ _ _ _ w) as [[det|e] w1]; [|done]. cbn [snd] in Hl.
    unfold r_of. destruct (book_terms _ det) as [[token pay]|e]; [|done]. apply post_ledger; [by left|done].
  - unfold BookWithIdempotency, with_session, with_payload, mbind, rm_bind.
    pose proof (check_key_spec key w) as Hc. destruct (check_key key w) as [[[]|e] w1]; [|by subst].
    destruct (Hc Hl) as [Hl1 Hk]. destruct se as [rs|]; [|done]. destruct (sl_Payload slot) as [[p]|]; [|done].
    unfold fetchDetails. pose proof (quiet_details "resy.Book details: " "resy.Book details: parse: " (ConfigID p) slot (rs_jwt rs) w1) as Hq.
    pose proof (quietly_ledger _ _ Hq Hl1) as Hl2.
    assert (Hk2 : key = "" ∨ (unused key (fetch_details cfg env "resy.Book details: " "resy.Book details: parse: " (ConfigID p) slot (rs_jwt rs) w1).2
                              ∧ key ∈ rw_seen (fetch_details cfg env "resy.Book details: " "resy.Book details: parse: " (ConfigID p) slot (rs_jwt rs) w1).2)).
    { destruct Hk as [|[Hu Hs]]; [by left|right]. split; [by eapply quietly_unused|]. destruct Hq as (? & _ & -> & _). done. }
    destruct (fetch_details _ _ _ _ _ _ _ w1) as [[det|e] w2]; [|done]. cbn [snd] in Hl2, Hk2.
    unfold r_of. destruct (book_terms _ det) as [[token pay]|e]; [|done]. by apply post_ledger.
Qed.
Definition run_ops (ops : list ClientOp) (w : RWorld) : RWorld := foldl (λ w op, run_op op w) w ops.
Lemma run_ops_ledger ops w : ledger w → ledger (run_ops ops w).
Proof. revert w. induction ops as [|op ops IH]; intros w Hl; [done|]. cbn. by apply IH, run_op_ledger. Qed.
End Client.
