(* ===== verification/Booked.v ===== *)
(** * What the booking site's answers become

    A confirmation stands for an accepted booking, a list of slots for the
    answer it was read from, a prepared slot for one that can be confirmed,
    and a login for a session that can be loaded again. *)

From S2P Require Import Prelude Text Json JsonText Url Http GoTime GoFormat Types Status Slots Drop Hash Codec Wire ResyWire.
From S2P Require Import Sql Sqlite SqliteStore Tenant Accounts Sessions Engine Resy ResyProofs.
From Stdlib Require Import Ascii.

#[local] Existing Instances rm_ret rm_bind.

Lemma found_slots_Ok req l slots :
  found_slots req l = Ok slots →
  Forall2 (λ f sl, ∃ wall, parseSlotWallTime (fsd_Start (fs_Date f)) = Ok wall ∧ sl = found_slot req f wall) l slots.
Proof.
  revert slots. induction l as [|f l IH]; intros slots; cbn [found_slots]; [by intros [= <-]|].
  destruct (parseSlotWallTime _) as [wall|] eqn:E; [|done]. destruct (found_slots req l) as [sl|]; [|done].
  intros [= <-]. constructor; [by exists wall|by apply IH].
Qed.

Section Client.
Context {St Sg : Type} `{!SessionStore St} `{!Signer Sg} (cfg : ClientConfig) (env : ResyEnv).
Notation RWorld := (RWorld St Sg).
Hypothesis env_ok : resy_env_ok env.

(** The request whose answer an operation returns. *)
Lemma exchange_last method path query body auth (extra : Headers) (w : RWorld) status b w' :
  doSignedAndRetry cfg env method path query body auth extra w = (Ok (status, b), w') →
  ∃ s, last (rw_sent w') = Some s ∧ answered s status b ∧
       shaped (Sg := Sg) cfg method path query body auth extra (st_Request s).
Proof.
  intros H. apply (exchange_spec cfg env env_ok) in H as (l & [S _ _ _] & H). unfold settles in H.
  destruct l as [|s [|s2 [|]]]; try done; rewrite S.
  - destruct H as (Hs & Ha). exists s. rewrite last_snoc. auto.
  - destruct H as (_ & Hs & _ & _ & _ & Ha). exists s2. rewrite (app_assoc _ [s] [s2]), last_snoc. auto.
Qed.
Lemma check_class_Ok what status b (w : RWorld) :
  check_class env what status b w = (Ok tt, w) ∧ r_classify env status b = None
  ∨ ∃ e, r_classify env status b = Some e ∧ check_class env what status b w = (Err (wrap what e), w).
Proof.
  unfold check_class. destruct (r_classify env status b) as [e|]; [right; by exists e|by left].
Qed.
(** Only 200 and 201 classify as no error. *)
Lemma classify_None lower upper status b : classify lower upper status b = None → status = 200 ∨ status = 201.
Proof.
  unfold classify. destruct ((status =? 200) || (status =? 201)) eqn:E.
  - intros _. apply orb_true_iff in E. zb. lia.
  - repeat case_match; done.
Qed.

(** ** Booking *)

Lemma book_answer_Ok status body (w : RWorld) c w' :
  book_answer env status body w = (Ok c, w') →
  (status = 200 ∨ status = 201) ∧ rw_sent w' = rw_sent w ∧
  ∃ br, (Unmarshal body : option BookResponse) = Some br ∧ br_ResyToken br ≠ "" ∧ cf_ID c = br_ResyToken br.
Proof.
  unfold book_answer, mbind, rm_bind.
  destruct (check_class_Ok "resy.Book post: " status body w) as [[-> Hc]|(e & _ & ->)]; [|done].
  apply classify_None in Hc. unfold parse_body. destruct (Unmarshal body) as [br|] eqn:Eb; [|done]. unfold mret, rm_ret.
  destruct (is_empty (br_ResyToken br)) eqn:Ee; [done|]. intros [= <- <-]. split_all; [done|done|].
  exists br. split_all; [done| |done]. unfold is_empty, str_eqb in Ee. by apply bool_decide_eq_false_1 in Ee.
Qed.
(** The last request is a booking the site accepted. *)
Definition accepted (token : string) (payment : Z) (jwt key : string) (c : Confirmation) (s : Sent) : Prop :=
  shaped (Sg := Sg) cfg "POST" "/3/book" [] (book_form token payment) jwt {[ IdempotencyKeyHeader := key ]} (st_Request s) ∧
  query_Get (hq_Body (st_Request s)) "book_token" = token ∧
  ∃ status body br, answered s status body ∧ (status = 200 ∨ status = 201) ∧
    (Unmarshal body : option BookResponse) = Some br ∧ cf_ID c = br_ResyToken br ∧ cf_ID c ≠ "".
Lemma post_accepted token payment jwt key (w : RWorld) c w' :
  postBookWithIdempotency cfg env token payment jwt key w = (Ok c, w') →
  ∃ s, last (rw_sent w') = Some s ∧ accepted token payment jwt key c s.
Proof.
  unfold postBookWithIdempotency, mbind, rm_bind, r_wrapped.
  destruct (doSignedAndRetry _ _ _ _ _ _ _ _ w) as [[[status body]|e] w1] eqn:E; [|done].
  apply exchange_last in E as (s & Hl & Ha & Hs).
  intros (Hst & Hlog & br & Hbr & Hne & Hid)%book_answer_Ok. exists s. unfold accepted. rewrite Hlog. split_all; [done|done| |].
  - pose proof (shaped_body _ _ _ _ _ _ _ _ Hs) as [_ ->]. unfold book_form. apply query_Get_Encode; [|by left].
    cbn. repeat constructor; set_solver.
  - exists status, body, br. split_all; auto. congruence.
Qed.

(** C21. A confirmation is a booking.  [ConfirmSlot] returns one only when the
    last request it made was a POST to [/3/book] carrying the slot's own book
    token and payment method in a form that reads back, answered with 200 or
    201 and a reservation token, and that token is the confirmation's id. *)
Theorem confirmation_is_booking slot sess key (w : RWorld) c w' :
  ConfirmSlot cfg env slot sess key w = (Ok c, w') →
  ∃ rs p s, sess = SResy rs ∧ sl_Payload slot = Some (PResy p) ∧ BookToken p ≠ "" ∧ PaymentMethodID p ≠ 0 ∧
    last (rw_sent w') = Some s ∧ accepted (BookToken p) (PaymentMethodID p) (rs_jwt rs) key c s.
Proof.
  unfold ConfirmSlot, with_session, with_payload. destruct sess as [rs|]; [|done]. destruct (sl_Payload slot) as [[p]|]; [|done].
  destruct (is_empty (BookToken p)) eqn:Et; [done|]. destruct (PaymentMethodID p =? 0) eqn:Ep; [done|]. unfold mbind, rm_bind.
  destruct (check_key key w) as [[[]|e] w1]; [|done]. intros (s & Hl & Ha)%post_accepted.
  exists rs, p, s. unfold is_empty, str_eqb in Et. apply bool_decide_eq_false_1 in Et. zb. auto 10.
Qed.

(** ** Slots *)

Lemma fetch_details_Ok what parse id slot jwt (w : RWorld) det w' :
  fetch_details cfg env what parse id slot jwt w = (Ok det, w') →
  ∃ s status body, last (rw_sent w') = Some s ∧ answered s status body ∧ (status = 200 ∨ status = 201) ∧
    shaped (Sg := Sg) cfg "GET" "/3/details" (details_query id slot) "" jwt ∅ (st_Request s) ∧
    (Unmarshal body : option DetailsResponse) = Some det.
Proof.
  unfold fetch_details, mbind, rm_bind, r_wrapped.
  destruct (doSignedAndRetry _ _ _ _ _ _ _ _ w) as [[[status body]|e] w1] eqn:E; [|done].
  apply exchange_last in E as (s & Hl & Ha & Hs).
  destruct (check_class_Ok what status body w1) as [[-> Hc]|(e & _ & ->)]; [|done].
  apply classify_None in Hc. unfold parse_body. destruct (Unmarshal body) as [d|] eqn:Eb; [|done].
  intros [= <- <-]. by exists s, status, body.
Qed.
(** What the tracker makes of a key it lets pass. *)
Definition claim_key (key : string) (w : RWorld) : RWorld :=
  if is_empty key then w
  else mkRWorld (rw_store w) (rw_sql w) (rw_step w) (rw_now w) ({[ key ]} ∪ rw_seen w) (rw_signer w) (rw_sent w).

(** A prepared slot can be booked.  [PrepareSlot] keeps the venue, the
    date, the time, the table and the party and the identity of the slot; it
    fills in the book token, never an empty one, and the first payment
    method of the details the site answered for this slot, day and party.
    A slot it returns passes every check of [ConfirmSlot], which goes on to
    post exactly that token and method, unless the method has number 0 or
    the key was used before. *)
Theorem prepared_slot_books slot sess (w : RWorld) slot' w' :
  PrepareSlot cfg env slot sess w = (Ok slot', w') →
  ∃ rs p token m s status body det,
    sess = SResy rs ∧ sl_Payload slot = Some (PResy p) ∧ slot' = prepared slot p token (dpm_ID m) ∧
    last (rw_sent w') = Some s ∧ answered s status body ∧ (status = 200 ∨ status = 201) ∧
    shaped (Sg := Sg) cfg "GET" "/3/details" (details_query (ConfigID p) slot) "" (rs_jwt rs) ∅ (st_Request s) ∧
    (Unmarshal body : option DetailsResponse) = Some det ∧
    token = dbt_Value (dr_BookToken det) ∧ token ≠ "" ∧ head (du_PaymentMethods (dr_User det)) = Some m ∧
    ∀ key w2, dpm_ID m ≠ 0 → (key = "" ∨ key ∉ rw_seen w2) →
      ConfirmSlot cfg env slot' sess key w2
      = postBookWithIdempotency cfg env token (dpm_ID m) (rs_jwt rs) key (claim_key key w2).
Proof.
  unfold PrepareSlot, with_session, with_payload. destruct sess as [rs|]; [|done]. destruct (sl_Payload slot) as [[p]|] eqn:Ep; [|done].
  destruct (is_empty (ConfigID p)); [done|]. unfold mbind, rm_bind.
  destruct (fetch_details _ _ _ _ _ _ _ w) as [[det|e] w1] eqn:E; [|done].
  apply fetch_details_Ok in E as (s & status & body & Hl & Ha & Hst & Hs & Hd).
  unfold r_of, book_terms. destruct (is_empty (dbt_Value (dr_BookToken det))) eqn:Et; [done|].
  destruct (du_PaymentMethods (dr_User det)) as [|m l] eqn:Em; [done|]. intros [= <- <-].
  exists rs, p, (dbt_Value (dr_BookToken det)), m, s, status, body, det. rewrite Em. split_all; try done.
  - intros H. by rewrite H in Et.
  - intros key w2 Hm Hk. unfold ConfirmSlot, with_session, with_payload, prepared.
    cbn [sl_Payload BookToken PaymentMethodID]. rewrite Et. rewrite (proj2 (Z.eqb_neq _ _) Hm). unfold mbind, rm_bind, check_key, claim_key.
    destruct Hk as [->|Hk]; [done|]. destruct (is_empty key); [done|]. by rewrite bool_decide_eq_false_2.
Qed.

(** The slots are the answer's.  [Find] returns a list only when its last
    request asked [/4/find] for this venue, day and party and was answered
    with 200 or 201; the list has one slot per slot of the answer, in its
    order, at the clock time the answer gives, for the venue, day and party
    asked for, and it is not empty. *)
Theorem found_slots_are_answered req sess (w : RWorld) slots w' :
  ResyFind cfg env req sess w = (Ok slots, w') →
  ∃ s status body raw,
    last (rw_sent w') = Some s ∧ answered s status body ∧ (status = 200 ∨ status = 201) ∧
    shaped (Sg := Sg) cfg "GET" "/4/find"
      [("lat", "0"); ("long", "0"); ("day", date_String (fr_Date req)); ("party_size", fmt_d (fr_PartySize req));
       ("venue_id", vr_Ref (fr_Venue req))] "" (auth_of sess) ∅ (st_Request s) ∧
    (Unmarshal body : option FindResponse) = Some raw ∧ slots ≠ [] ∧
    Forall2 (λ f sl, ∃ wall, parseSlotWallTime (fsd_Start (fs_Date f)) = Ok wall ∧ sl = found_slot req f wall)
      (flat_map fv_Slots (fre_Venues (fr_Results raw))) slots.
Proof.
  unfold ResyFind. cbv zeta. destruct (negb _); [done|]. destruct (is_empty _); [done|]. destruct (date_IsZero _); [done|].
  destruct (_ <=? 0); [done|]. unfold mbind, rm_bind, r_wrapped.
  destruct (doSignedAndRetry _ _ _ _ _ _ _ _ w) as [[[status body]|e] w1] eqn:E; [|done].
  apply exchange_last in E as (s & Hl & Ha & Hs).
  destruct (check_class_Ok "resy.Find: " status body w1) as [[-> Hc]|(e & _ & ->)]; [|done].
  apply classify_None in Hc. unfold parse_body. destruct (Unmarshal body) as [raw|] eqn:Eb; [|done]. unfold mret, rm_ret, r_of.
  destruct (found_slots req _) as [sl|] eqn:Ef; [|done]. apply found_slots_Ok in Ef. destruct sl as [|x sl]; [done|]. intros [= <- <-].
  by exists s, status, body, raw.
Qed.
End Client.

(** ** Logging in *)

Section Login.
Context `{!RowChoice} {Sg : Type} `{!Signer Sg} (cfg : ClientConfig) (env : ResyEnv).
Notation RWorld := (RWorld SessionDB Sg).
Hypothesis env_ok : resy_env_ok env.

(** The row a login writes. *)
Definition login_row (s : RSession) (at_ : Z) : SessionRow :=
  mkSessionRow (rs_userID s) providerID (rs_jwt s) (rs_expiresAt s) (mkTime at_ (re_loc env)) (mkTime at_ (re_loc env)).
Lemma do_store method path query body auth (w : RWorld) :
  rw_store (do cfg env method path query body auth w).2 = rw_store w ∧
  rw_now w ≤ rw_now (do cfg env method path query body auth w).2.
Proof.
  unfold do. rewrite do_spec. cbv zeta. pose proof (re_tick_nonneg _ env_ok (rw_step w)).
  destruct (url_Parse _ _); cbn; split; (done || lia).
Qed.
Lemma parse_body_world {A} `{WireCodec A} e b (w : RWorld) : (parse_body e b w : res A * RWorld).2 = w.
Proof. unfold parse_body. by destruct (Unmarshal b). Qed.
Lemma persist_spec (s : RSession) (w : RWorld) :
  match persist_session cfg env s w with
  | (Err _, w') => rw_store w' = rw_store w
  | (Ok _, w') => if cl_store cfg
                  then ∃ at_, rw_now w ≤ at_ ≤ rw_now w' ∧ rw_store w' = upserted (login_row s at_) (rw_store w)
                  else w' = w
  end.
Proof.
  unfold persist_session, mbind, rm_bind, r_now, r_wrapped, r_store. destruct (cl_store cfg); [|done]. cbn.
  pose proof (re_tick_nonneg _ env_ok (rw_step w)). pose proof (re_tick_nonneg _ env_ok (S (rw_step w))).
  set (at_ := rw_now w + re_tick env (rw_step w)).
  pose proof (UpsertSession_run (login_row s at_) (re_faults env) (rw_sql w) (rw_store w)) as Hr.
  unfold login_row in Hr. destruct (UpsertSession _ _ _ _) as [[[?|e] n1] d']; cbn; [|done].
  destruct Hr as [_ ->]. exists at_. subst at_. split; [cbn; lia|done].
Qed.
Definition logged_in (email : string) (s : RSession) : Prop :=
  rs_userID s = email ∧ rs_jwt s ≠ "" ∧ parseJWTExp (rs_jwt s) = Ok (rs_expiresAt s).
Lemma Login_spec email pw (w : RWorld) :
  match Login cfg env (email, pw) w with
  | (Ok (inl s), w') => logged_in email s ∧
      if cl_store cfg
      then ∃ at_, rw_now w ≤ at_ ≤ rw_now w' ∧ rw_store w' = upserted (login_row s at_) (rw_store w)
      else rw_store w' = rw_store w
  | (_, w') => rw_store w' = rw_store w
  end.
Proof.
  unfold Login. destruct (_ || _); [done|]. unfold mbind, rm_bind, r_wrapped.
  pose proof (do_store "POST" "/3/auth/password" [] (Encode [("email", email); ("password", pw)]) "" w) as [Hs Hn].
  destruct (do _ _ _ _ _ _ _ w) as [[[status body]|e] w1]; [|done]. cbn [snd] in Hs, Hn.
  destruct (status =? 401); [done|]. destruct (_ || _); [done|].
  unfold parse_body. destruct (Unmarshal body) as [r|]; [|done]. unfold mret, rm_ret.
  destruct (are_MFARequired r); [done|]. destruct (is_empty (are_Token r)) eqn:Et; [done|]. unfold r_of.
  destruct (parseJWTExp (are_Token r)) as [exp|] eqn:Ex; [|done].
  pose proof (persist_spec (mkRSession email (are_Token r) exp) w1) as Hp.
  destruct (persist_session _ _ _ w1) as [[?|e] w2]; [|congruence]. split.
  - unfold logged_in. cbn. split_all; [done| |done]. intros Hj. by rewrite Hj in Et.
  - destruct (cl_store cfg); [|congruence]. rewrite <- Hs. destruct Hp as (at_ & ? & ?). exists at_. split; [lia|done].
Qed.
Lemma keepable_at t n : four_digit_year n → keepable (mkTime n t).
Proof. by right. Qed.

(** A login can be resumed.  [Login] returns a session only for the
    address that logged in, with a token whose expiry it has read; with a
    store it has then persisted it, and [LoadSession] returns the same
    session, token and expiry, until the expiry is reached, and answers that
    it expired from then on.  Whenever [Login] returns anything else, an
    error or the challenge of a second factor, the store is as it was. *)
Theorem login_resumes email pw (w : RWorld) :
  sessions_wf (rw_store w) → unclaimed email (rw_store w) → no_faults (re_faults env) → cl_store cfg = true →
  match Login cfg env (email, pw) w with
  | (Ok (inl s), w') =>
      rs_userID s = email ∧ parseJWTExp (rs_jwt s) = Ok (rs_expiresAt s) ∧
      (keepable (rs_expiresAt s) → (∀ n, rw_now w ≤ n ≤ rw_now w' → four_digit_year n) →
       ∀ (w2 : RWorld), rw_store w2 = rw_store w' →
         match LoadSession cfg env email w2 with
         | (Ok s', w3) => s' = mkRSession email (rs_jwt s) (read_back (rs_expiresAt s))
                          ∧ expired_at (rs_expiresAt s') (mkTime (rw_now w2 + re_tick env (rw_step w2)) (re_loc env)) = false
         | (Err e, w3) => errors_is e Store.ErrSessionExpired = true
                          ∧ expired_at (read_back (rs_expiresAt s)) (mkTime (rw_now w2 + re_tick env (rw_step w2)) (re_loc env)) = true
         end)
  | (_, w') => rw_store w' = rw_store w
  end.
Proof.
  intros Hw Hu Hf Hc. pose proof (Login_spec email pw w) as Hl. rewrite Hc in Hl.
  destruct (Login _ _ _ w) as [[[s|ch]|e] w']; try done. destruct Hl as ((<- & _ & Hx) & at_ & Hat & Hs).
  split_all; [done|done|]. intros Hk Hy w2 E. rewrite <- E in Hs. specialize (Hy at_ Hat).
  unfold LoadSession, mbind, rm_bind, r_now, r_wrapped, r_store. rewrite Hc. cbn [negb fst snd rw_store rw_sql r_tick rw_now]. rewrite Hs.
  set (now_ := mkTime _ _).
  pose proof (get_upserted (login_row s at_) (rw_store w) (re_faults env) (rw_sql w2) now_ Hw Hu Hf Hk
                (keepable_at _ _ Hy) (keepable_at _ _ Hy)) as Hg.
  unfold store_GetSession, sqlite_sessions. cbn [ses_UserID ses_Provider login_row] in Hg.
  destruct (GetSession _ _ _ _ _ _) as [[r n3] d3]. destruct Hg as [Hg _]. destruct r as [r|e].
  - destruct Hg as (Ho & Hi & _ & Hj & He & _). unfold mret, rm_ret. rewrite Hi, Hj, He. split; [done|].
    unfold outlives in Ho. by apply negb_true_iff in Ho.
  - destruct Hg as [Ho He]. split; [by rewrite errors_is_wrap|]. unfold outlives in Ho. by apply negb_false_iff in Ho.
Qed.
End Login.

(** ** One booking per key *)

(** A client as its constructor leaves it. *)
Definition fresh {St Sg} (store : St) (sql step : nat) (now : Z) (sg : Sg) : RWorld St Sg :=
  mkRWorld store sql step now ∅ sg [].

(** C20. One booking request per idempotency key.  Whatever sequence of
    operations a client runs, with whatever answers, the requests that carry
    a given key are none, one, or two, and the second of two repeats the
    path and the body of the first, to which the site had answered with an
    anti-bot challenge, no sooner than 100 milliseconds after it, under a
    signer that signs. *)
Theorem one_booking_per_key {St Sg} `{!SessionStore St} `{!Signer Sg} (cfg : ClientConfig) (env : ResyEnv)
    store sql step now (sg : Sg) (ops : list (ClientOp)) key :
  resy_env_ok env → polite (Sg := Sg) → key ≠ "" →
  match with_key key (rw_sent (run_ops cfg env ops (fresh (St := St) store sql step now sg))) with
  | [] => True
  | [_] => True
  | [s; s2] => is_Noop (Sg := Sg) = false ∧ was_challenged env s ∧ st_At s + 100 * millisecond ≤ st_At s2 ∧
               hq_Path (st_Request s2) = hq_Path (st_Request s) ∧ hq_Body (st_Request s2) = hq_Body (st_Request s)
  | _ => False
  end.
Proof.
  intros He Hp Hk. assert (Hl : ledger env (run_ops cfg env ops (fresh (St := St) store sql step now sg))).
  { apply run_ops_ledger; [done|done|]. by split. }
  exact (ledger_allowed _ _ Hl key Hk).
Qed.

(** A site that accepts every booking and every login. *)
Definition example_env : ResyEnv :=
  let body p :=
    if str_eqb p "/3/book" then quotes "{'resy_token':'rt','reservation_id':9}"
    else if str_eqb p "/3/details" then quotes "{'book_token':{'value':'bt'},'user':{'payment_methods':[{'id':7}]}}"
    else if str_eqb p "/4/find" then quotes ("{'results':{'venues':[{'venue':{'name':'Carbone'},'slots':["
      +:+ "{'config':{'id':77,'token':'rgs://1','type':'Dining Room'},'date':{'start':'2026-06-09 19:30:00'}}]}]}}")
    else quotes "{'token':'x.eyJleHAiOjI1MjQ2MDgwMDB9.y'}" in
  mkResyEnv (λ _ req, Ok (mkRawResponse 200 "" (Ok (body (hq_Path req))))) ok_faults (λ _, second) (λ _, false) false
    (λ _, true) (λ _ l, l) UTC (λ s, s) (λ s, s) (λ _, None) (λ _, Ok UTC).
Lemma example_env_ok : resy_env_ok example_env.
Proof. by split. Qed.
Definition example_cfg : ClientConfig := mkClientConfig DefaultBaseURL DefaultAPIKey "resy-snipe" true.
Lemma noop_polite : polite (Sg := Noop).
Proof. intros k path s. cbn. apply map_Forall_empty. Qed.

(** ** A run *)

(** The claims, as base64, that the example token carries. *)
Example example_token_expiry : parseJWTExp "x.eyJleHAiOjI1MjQ2MDgwMDB9.y" = Ok (utc (2524608000 * second)).
Proof. vm_compute. reflexivity. Qed.
Definition example_session : AnySession := SResy (mkRSession "ana@example.com" "jwt" (utc (2524608000 * second))).
Definition example_slot : Slot :=
  mkSlot (mkVenueRef "resy" "834") (mkDate 2026 6 9) (mkWallTime 19 30 0) "Dining Room" 2
    (Some (PResy (mkResySlotPayload "rgs://1" "77" "Dining Room" "bt" 7))).
Definition example_client : RWorld SessionDB Noop := fresh no_sessions 0 0 (1780000000 * second) NoopSigner.
(** The same key twice: the second time nothing is sent. *)
Lemma one_booking_per_key_witness :
  let ops := [OpConfirmSlot example_slot example_session "k1"; OpConfirmSlot example_slot example_session "k1"] in
  length (with_key "k1" (rw_sent (run_ops example_cfg example_env ops example_client))) = 1%nat ∧
  match with_key "k1" (rw_sent (run_ops example_cfg example_env ops example_client)) with
  | [] => True
  | [_] => True
  | [s; s2] => is_Noop (Sg := Noop) = false ∧ was_challenged example_env s ∧ st_At s + 100 * millisecond ≤ st_At s2 ∧
               hq_Path (st_Request s2) = hq_Path (st_Request s) ∧ hq_Body (st_Request s2) = hq_Body (st_Request s)
  | _ => False
  end.
Proof.
  split; [vm_compute; reflexivity|].
  apply (one_booking_per_key example_cfg example_env no_sessions 0 0 (1780000000 * second) NoopSigner).
  - exact example_env_ok.
  - exact noop_polite.
  - discriminate.
Defined.
Definition confirmed : Confirmation := Eval vm_compute in
  match ConfirmSlot example_cfg example_env example_slot example_session "k1" example_client with
  | (Ok c, _) => c | (Err _, _) => mkConfirmation "" zero_time "" end.
Lemma confirmation_is_booking_witness :
  cf_ID confirmed = "rt" ∧
  ∃ rs p s, example_session = SResy rs ∧ sl_Payload example_slot = Some (PResy p) ∧ BookToken p ≠ "" ∧ PaymentMethodID p ≠ 0 ∧
    last (rw_sent (ConfirmSlot example_cfg example_env example_slot example_session "k1" example_client).2) = Some s ∧
    accepted (Sg := Noop) example_cfg (BookToken p) (PaymentMethodID p) (rs_jwt rs) "k1" confirmed s.
Proof.
  split; [reflexivity|].
  apply (confirmation_is_booking (St := SessionDB) (Sg := Noop) example_cfg example_env example_env_ok example_slot example_session "k1"
           example_client confirmed).
  vm_compute. reflexivity.
Defined.
Definition example_find : FindRequest := mkFindRequest (mkVenueRef "resy" "834") (mkDate 2026 6 9) 2 [] None.
Definition found : list Slot := Eval vm_compute in
  match ResyFind example_cfg example_env example_find None example_client with (Ok l, _) => l | (Err _, _) => [] end.
Lemma found_slots_are_answered_witness :
  map sl_TableType found = ["Dining Room"] ∧ found ≠ [].
Proof.
  assert (H : ResyFind example_cfg example_env example_find None example_client
              = (Ok found, (ResyFind example_cfg example_env example_find None example_client).2)) by (vm_compute; reflexivity).
  split; [reflexivity|].
  destruct (found_slots_are_answered example_cfg example_env example_env_ok example_find None example_client found _ H)
    as (? & ? & ? & ? & _ & _ & _ & _ & _ & Hn & _).
  exact Hn.
Defined.
Definition prepared_example : Slot := Eval vm_compute in
  match PrepareSlot example_cfg example_env example_slot example_session example_client with (Ok s, _) => s | (Err _, _) => example_slot end.
Lemma prepared_slot_books_witness :
  sl_Time prepared_example = mkWallTime 19 30 0 ∧
  ∃ rs token m, example_session = SResy rs ∧ token ≠ "" ∧
    ∀ key w2, dpm_ID m ≠ 0 → (key = "" ∨ key ∉ rw_seen w2) →
      ConfirmSlot (St := SessionDB) (Sg := Noop) example_cfg example_env prepared_example example_session key w2
      = postBookWithIdempotency example_cfg example_env token (dpm_ID m) (rs_jwt rs) key (claim_key key w2).
Proof.
  assert (H : PrepareSlot example_cfg example_env example_slot example_session example_client
              = (Ok prepared_example, (PrepareSlot example_cfg example_env example_slot example_session example_client).2))
    by (vm_compute; reflexivity).
  split; [reflexivity|].
  destruct (prepared_slot_books example_cfg example_env example_env_ok example_slot example_session example_client prepared_example _ H)
    as (rs & p & token & m & s & st & body & det & E & _ & _ & _ & _ & _ & _ & _ & _ & Hn & _ & Hc).
  exists rs, token, m. split; [exact E|]. split; [exact Hn|exact Hc].
Defined.
Lemma login_resumes_witness :
  match Login example_cfg example_env ("ana@example.com", "hunter2") example_client with
  | (Ok (inl s), w') => rs_userID s = "ana@example.com" ∧ parseJWTExp (rs_jwt s) = Ok (rs_expiresAt s)
  | _ => False
  end.
Proof.
  pose proof (login_resumes (Sg := Noop) example_cfg example_env example_env_ok "ana@example.com" "hunter2" example_client) as H.
  change (rw_store example_client) with no_sessions in H. change (re_faults example_env) with ok_faults in H.
  assert (Hw : sessions_wf no_sessions) by (split; constructor).
  assert (Hu : unclaimed "ana@example.com" no_sessions) by (intros a []).
  specialize (H Hw Hu (λ _, eq_refl) eq_refl).
  destruct (Login example_cfg example_env ("ana@example.com", "hunter2") example_client) as [[[s|c]|e] w'] eqn:E.
  - destruct H as (H1 & H2 & _). split; [exact H1|exact H2].
  - exfalso. vm_compute in E. discriminate E.
  - exfalso. vm_compute in E. discriminate E.
Defined.
