(* ===== verification/LoginCli.v ===== *)
(** * Logging in: [cmd/resy-snipe/login.go]

    [runLogin], the prompt for the password and the session a snipe starts
    from, over the booking site's client.  What [term.ReadPassword] returns,
    when standard input is a terminal, and the names of zones are arguments;
    opening the database and choosing the signer are left out. *)

From S2P Require Import Prelude Text Url Http GoTime GoFormat Types Status Slots Drop Json Hash Codec Wire ResyWire.
From S2P Require Import Sql Sqlite SqliteStore Tenant Accounts Sessions Engine Resy ResyProofs Booked Terminal.
From Stdlib Require Import Ascii.

#[local] Existing Instances cm_ret cm_bind.

Section Login.
Context {St Sg : Type} `{!SessionStore St} `{!Signer Sg} (cfg : ClientConfig) (env : ResyEnv).
Context (abbreviation : Time → string) (tty : option (res string)).
Notation W := (RWorld St Sg).
Notation CM := (CM W).

Definition promptPassword (label : string) : CM string :=
  _ ← put (label +:+ ": ");
  match tty with
  | Some r => _ ← put_line ""; buf ← of_res r; mret (TrimSpace buf)
  | None => raw ← read_line; mret (TrimSpace raw)
  end.
(** [t.Format("2006-01-02 15:04:05 MST")] in it. *)
Definition welcome (s : RSession) : string :=
  "Logged in as " +:+ rs_userID s +:+ " (session expires " +:+ fmt_utc_date (face_ns (rs_expiresAt s)) +:+ " "
  +:+ fmt_utc_clock (face_ns (rs_expiresAt s)) +:+ " " +:+ abbreviation (rs_expiresAt s) +:+ ")." +:+ nl.
Definition second_factor (challenge : string) : CM unit :=
  code ← c_wrapped "prompt mfa code: " (promptRaw "MFA code" "");
  if is_empty code then c_fail (ENew "login: MFA code is required")
  else
    sess ← c_wrapped "login: complete MFA: " (of_res (CompleteMFA challenge code));
    put (welcome sess).
Definition runLogin : CM unit :=
  email ← c_wrapped "prompt email: " (promptRaw "Email" "");
  if is_empty email then c_fail (ENew "login: email is required")
  else
    password ← c_wrapped "prompt password: " (promptPassword "Password");
    if is_empty password then c_fail (ENew "login: password is required")
    else
      r ← c_attempt (on_world (Login cfg env (email, password)));
      match r with
      | Ok (inl sess) => put (welcome sess)
      | Ok (inr challenge) => second_factor challenge
      | Err e => c_fail (wrap "login: " e)
      end.

Definition errNoSession : error := ESentinel "no valid session — run 'resy-snipe login' first".
Definition loadSessionForSnipe (user : string) : @Resy.RM St Sg RSession := λ w,
  match LoadSession cfg env user w with
  | (Ok s, w') => (Ok s, w')
  | (Err e, w') =>
      (Err (if errors_is e Store.ErrNotFound || errors_is e Store.ErrSessionExpired then errNoSession
            else wrap "load session: " e), w')
  end.
End Login.

(** ** Logging in, then sniping *)

Section Proofs.
Context {choice : RowChoice} {Sg : Type} `{!Signer Sg} (cfg : ClientConfig) (env : ResyEnv).
Context (abbreviation : Time → string) (tty : option (res string)).
Notation RWorld := (RWorld SessionDB Sg).
Hypothesis env_ok : resy_env_ok env.
Notation store_of t := (rw_store (tm_world t)).

Lemma password_world label (t : Term RWorld) r t' : promptPassword tty label t = (r, t') → tm_world t' = tm_world t.
Proof.
  unfold promptPassword. intros H. apply cm_bind_inv in H as [(e & [=] & _)|([] & t1 & [= <-] & H)]. destruct tty as [[p|e]|].
  - by injection H as _ <-.
  - by injection H as _ <-.
  - apply cm_bind_inv in H as [(e & H & _)|(raw & t2 & H & H')]; apply read_line_inv in H as (E & _); [done|by injection H' as _ <-].
Qed.
Lemma factor_refused ch (t : Term RWorld) r t' :
  second_factor abbreviation ch t = (r, t') → is_Ok r = false ∧ tm_world t' = tm_world t.
Proof.
  unfold second_factor. intros H. apply cm_bind_inv in H as [(e & H & ->)|(code & t1 & H1 & H)].
  { apply wrapped_cm_inv in H as (r0 & H & _). by apply prompt_inv in H as (? & _). }
  apply wrapped_cm_inv in H1 as (r0 & H1 & _). apply prompt_inv in H1 as (E & _). rewrite <- E.
  destruct (is_empty code); [by injection H as <- <-|]. unfold CompleteMFA in H. destruct (_ || _); by injection H as <- <-.
Qed.
(** What a login comes to: the call, and its session. *)
Lemma runLogin_inv (t : Term RWorld) r t' :
  runLogin cfg env abbreviation tty t = (r, t') →
  let email := TrimSpace (first_line t) in
  (is_Ok r = false ∧ tm_world t' = tm_world t) ∨
  ∃ pw r0 w, Login cfg env (email, pw) (tm_world t) = (r0, w) ∧ tm_world t' = w ∧
    match r with
    | Ok _ => ∃ s pre, r0 = Ok (inl s) ∧ tm_out t' = pre +:+ welcome abbreviation s
    | Err _ => match r0 with Ok (inl _) => False | _ => True end
    end.
Proof.
  unfold runLogin. intros H. cbv zeta. apply cm_bind_inv in H as [(e & H & ->)|(email & t1 & H1 & H)].
  { left. apply wrapped_cm_inv in H as (r0 & H & _). by apply prompt_inv in H as (? & _). }
  apply wrapped_cm_inv in H1 as (r1 & H1 & Er). destruct r1 as [e0|]; [|done]. injection Er as <-.
  apply prompt_inv in H1 as (E1 & _ & <-). destruct (is_empty email); [left; by injection H as <- <-|].
  apply cm_bind_inv in H as [(e & H & ->)|(pw & t2 & H2 & H)].
  { left. apply wrapped_cm_inv in H as (r0 & H & _). apply password_world in H. split; [done|congruence]. }
  apply wrapped_cm_inv in H2 as (r1 & H2 & _). apply password_world in H2.
  assert (E2 : tm_world t2 = tm_world t) by congruence. destruct (is_empty pw); [left; by injection H as <- <-|].
  apply cm_bind_inv in H as [(e & H & ->)|(rl & t3 & H3 & H)]; [by apply attempt_cm_inv in H as (? & _ & [=])|].
  apply attempt_cm_inv in H3 as (r0 & H3 & [= <-]). unfold on_world in H3. rewrite E2 in H3. right.
  destruct (Login cfg env (email, pw) (tm_world t)) as [r0 w] eqn:EL. injection H3 as <- <-. exists pw, r0, w. split; [done|].
  destruct r0 as [[s|ch]|e].
  - injection H as <- <-. split; [done|]. by eexists _, _.
  - apply factor_refused in H as [Hr E]. split; [done|]. by destruct r.
  - injection H as <- <-. by split.
Qed.

(** C31. Log in, then snipe.  Let every statement of the database succeed and
    no account of the address typed belong to a user: the command line before
    there are users.  When [login] says that a user is logged in it is the
    user of that address, with a token whose expiry it has read; as long as
    the sessions stay as it left them, a snipe of that user starts with that
    token and expiry, until the expiry is reached, and is sent back to
    [login] after it, for times that print in four-digit years.  A [login]
    that ends any other way, the prompts, the site or the second factor
    refusing, leaves the sessions as they were.  Once an account of the
    address has a user, no login refreshes its session
    ([Sessions.second_login_refused]). *)
Theorem login_then_snipe (t : Term RWorld) r t' :
  let email := TrimSpace (first_line t) in
  sessions_wf (store_of t) → unclaimed email (store_of t) → no_faults (re_faults env) → cl_store cfg = true →
  runLogin cfg env abbreviation tty t = (r, t') →
  match r with
  | Err _ => store_of t' = store_of t
  | Ok _ => ∃ s pre, tm_out t' = pre +:+ welcome abbreviation s ∧
      rs_userID s = email ∧ parseJWTExp (rs_jwt s) = Ok (rs_expiresAt s) ∧
      (keepable (rs_expiresAt s) → (∀ n, rw_now (tm_world t) ≤ n ≤ rw_now (tm_world t') → four_digit_year n) →
       ∀ w2 : RWorld, rw_store w2 = store_of t' →
         let now_ := mkTime (rw_now w2 + re_tick env (rw_step w2)) (re_loc env) in
         match (loadSessionForSnipe cfg env email w2).1 with
         | Ok s' => s' = mkRSession email (rs_jwt s) (read_back (rs_expiresAt s)) ∧ expired_at (rs_expiresAt s') now_ = false
         | Err e => e = errNoSession ∧ expired_at (read_back (rs_expiresAt s)) now_ = true
         end)
  end.
Proof.
  intros email Hw Hu Hf Hc H. apply runLogin_inv in H as [[Hr E]|(pw & r0 & w & EL & E & H)]; [destruct r; [done|by rewrite E]|].
  pose proof (login_resumes cfg env env_ok email pw (tm_world t) Hw Hu Hf Hc) as HL. fold email in EL. rewrite EL in HL. rewrite E.
  destruct r as [[]|e]; [|by destruct r0 as [[]|]]. destruct H as (s & pre & -> & Ho). destruct HL as (Hid & Hx & Hl).
  exists s, pre. do 3 (split; [done|]). intros Hk Hy w2 E2. specialize (Hl Hk Hy w2 E2). cbv zeta. unfold loadSessionForSnipe.
  destruct (LoadSession cfg env email w2) as [[s'|e] w3]; [done|]. destruct Hl as [He ?]. cbn [fst]. by rewrite He, orb_true_r.
Qed.
End Proofs.

(** ** Ana logs in *)

Definition ana_types : Term (RWorld SessionDB Noop) :=
  mkTerm example_client (str_join nl ["ana@example.com"; "hunter2"] +:+ nl) None "".
Definition ana_login := runLogin (Sg := Noop) example_cfg example_env (λ _, "UTC") None ana_types.
Lemma login_then_snipe_witness :
  ana_login.1 = Ok tt ∧ ∃ s pre, tm_out ana_login.2 = pre +:+ welcome (λ _, "UTC") s ∧ rs_userID s = "ana@example.com".
Proof.
  assert (Er : ana_login.1 = Ok tt) by (vm_compute; reflexivity). split; [exact Er|].
  pose proof (login_then_snipe (Sg := Noop) example_cfg example_env (λ _, "UTC") None example_env_ok ana_types) as H.
  assert (Hw : sessions_wf no_sessions) by (split; constructor).
  assert (Hu : ∀ email, unclaimed email no_sessions) by (intros email a []).
  specialize (H ana_login.1 ana_login.2 Hw (Hu _) (λ _, eq_refl) eq_refl (surjective_pairing _)). rewrite Er in H.
  destruct H as (s & pre & Ho & Hi & _). exists s, pre. split; [exact Ho|]. rewrite Hi. vm_compute. reflexivity.
Defined.
Example ana_sees :
  tm_out ana_login.2 = "Email []: Password: Logged in as ana@example.com (session expires 2050-01-01 00:00:00 UTC)." +:+ nl.
Proof. vm_compute. reflexivity. Qed.
