(* ===== verification/EngineProofs.v ===== *)
(** * The engine keeps row, log, memory and notifications together

    Every step of the engine, whatever fails and whenever the context is
    cancelled, relates the world before to the world after by [evolves]:
    the store stays in step with the in-memory snipe, and the
    notifications emitted are a legal walk of the status machine whose
    events are exactly the ones the audit log gained. *)

From S2P Require Import Prelude GoTime GoFormat Types Status Slots Drop Json Hash Codec Sqlite SqliteStore Engine.

(** ** The clock's range *)

(** From the epoch to the end of year 9999. *)
Definition lo_ns : Z := 0.
Definition hi_ns : Z := 253402300800 * second - 1.
Definition in_era (ns : Z) : Prop := lo_ns ≤ ns ≤ hi_ns.

Lemma in_era_year ns : in_era ns → four_digit_year ns.
Proof.
  unfold in_era, lo_ns, hi_ns, four_digit_year, t_year. intros H.
  destruct (t_date (utc ns)) as [[y m] d] eqn:E. cbn [fst].
  unfold t_date in E. apply days_of_civil_of_days in E as [E Hv].
  assert (El : local_secs (utc ns) = ns / second) by
    (unfold local_secs; change (offset_at (t_loc (utc ns)) (t_unix (utc ns))) with 0; apply Z.add_0_r).
  rewrite El in E. pose proof (abs_days_year_bounds y m d Hv) as Hb.
  unfold days_of_civil, epoch_days in E.
  assert (Hd : 0 ≤ ns / second / 86400 ≤ 2932896)
    by (unfold second in *; Z.div_mod_to_equations; lia).
  split.
  - destruct (Z.le_gt_cases 0 y); [done|]. exfalso.
    pose proof (days_before_year_mono y 0 ltac:(lia)) as Hm.
    change (days_before_year 0) with (-366) in Hm. lia.
  - destruct (Z.lt_ge_cases y 10000); [done|]. exfalso.
    pose proof (days_before_year_mono 9999 y ltac:(lia)) as Hm.
    change (days_before_year (9999 + 1)) with 3652059 in Hm. lia.
Qed.

Lemma zero_four_digit : four_digit_year (t_ns zero_time).
Proof. vm_compute. split; congruence. Qed.

Section Proofs.
Context {St : Type} `{!SnipeStore St} (env : Env).
Hypothesis Henv : env_ok env.
Notation World := (World St).

(** ** The relation *)

(** The in-memory snipe is storable, and its row holds it. *)
Definition sane_intent (i : Intent) : Prop :=
  intent_storable i ∧ Forall (λ t, four_digit_year (t_ns t)) (release_times (i_Release i)).
Record good (w : World) : Prop := {
  good_wf : ss_wf (w_store w);
  good_storable : snipe_storable (w_inner w);
  good_intent : sane_intent (s_Intent (w_inner w));
  good_row : ∃ s', ss_row (w_store w) (s_ID (w_inner w)) = Some s' ∧ same_snipe (w_inner w) s' ∧
    four_digit_year (t_ns (s_CreatedAt s'));
  good_era : lo_ns ≤ w_now w
}.

(** Notifications that walk from one status to another by legal steps. *)
Inductive walked (id : string) : Status → list Notification → Status → Prop :=
| walked_nil a : walked id a [] a
| walked_cons a n ns c :
    n_SnipeID n = id → n_From n = Some a → CanTransition a (n_To n) = true →
    walked id (n_To n) ns c → walked id a (n :: ns) c.

Lemma walked_app id a ns b ms c : walked id a ns b → walked id b ms c → walked id a (ns ++ ms) c.
Proof. induction 1; [done|]. intros. cbn. econstructor; eauto. Qed.

Lemma walked_lifetime id a ns b : walked id a ns b → lifetime a (map n_To ns) b.
Proof. induction 1; cbn; econstructor; eauto. Qed.

(** The log of a snipe gained exactly these events. *)
Definition log_gained (id : string) (ns : list Notification) (st st' : St) : Prop :=
  ∃ es, ss_events st' id = ss_events st id ++ es ∧ Forall2 (λ n e, same_event (n_Event n) e) ns es.

Lemma log_gained_refl id st st' : ss_events st' id = ss_events st id → log_gained id [] st st'.
Proof. intros H. exists []. by rewrite app_nil_r. Qed.
Lemma log_gained_trans id ns ms a b c :
  log_gained id ns a b → log_gained id ms b c → log_gained id (ns ++ ms) a c.
Proof.
  intros (es & E1 & F1) (fs & E2 & F2). exists (es ++ fs). rewrite E2, E1, app_assoc.
  split; [done|]. by apply Forall2_app.
Qed.

Record evolved (w w' : World) (ns : list Notification) : Prop := {
  ev_good : good w';
  ev_id : s_ID (w_inner w') = s_ID (w_inner w);
  ev_intent : s_Intent (w_inner w') = s_Intent (w_inner w);
  ev_emitted : w_emitted w' = w_emitted w ++ ns;
  ev_walked : walked (s_ID (w_inner w)) (s_status (w_inner w)) ns (s_status (w_inner w'));
  ev_log : log_gained (s_ID (w_inner w)) ns (w_store w) (w_store w');
  ev_times : Forall (λ n, w_now w ≤ t_ns (e_At (n_Event n)) ≤ w_now w') ns;
  ev_sched : StatusScheduled ∉ map n_To ns → s_ScheduledAt (w_inner w') = s_ScheduledAt (w_inner w)
}.
Record evolves (w w' : World) : Prop := {
  evs_now : w_now w ≤ w_now w';
  evs_step : (w_step w ≤ w_step w')%nat;
  evs_main : good w → w_now w' ≤ hi_ns → ∃ ns, evolved w w' ns
}.

Lemma evolves_refl w : evolves w w.
Proof.
  split; [lia|lia|]. intros Hg _. exists []. split; try done.
  - by rewrite app_nil_r.
  - constructor.
  - by apply log_gained_refl.
Qed.

Lemma evolves_trans a b c : evolves a b → evolves b c → evolves a c.
Proof.
  intros [N1 S1 M1] [N2 S2 M2]. split; [lia|lia|]. intros Hg Hh.
  destruct (M1 Hg ltac:(lia)) as (ns & [G1 I1 J1 E1 W1 L1 T1 S3]).
  destruct (M2 G1 Hh) as (ms & [G2 I2 J2 E2 W2 L2 T2 S4]).
  exists (ns ++ ms). split; [done|congruence|congruence|by rewrite E2, E1, app_assoc| | | |].
  - rewrite I1 in W2. by eapply walked_app.
  - rewrite I1 in L2. by eapply log_gained_trans.
  - apply Forall_app. split; (eapply Forall_impl; [eassumption|]); cbn; intros; lia.
  - rewrite map_app, elem_of_app. intros Hn. rewrite S4, S3; naive_solver.
Qed.

(** A step that touches neither the snipe, its row, its log nor the
    notifications. *)
Definition quiet (w w' : World) : Prop :=
  w_inner w' = w_inner w ∧ w_emitted w' = w_emitted w ∧ w_now w ≤ w_now w' ∧
  (w_step w ≤ w_step w')%nat ∧
  (ss_wf (w_store w) →
   ss_wf (w_store w') ∧ (∀ id, ss_row (w_store w') id = ss_row (w_store w) id) ∧
   (∀ id, ss_events (w_store w') id = ss_events (w_store w) id)).

Lemma quiet_evolves w w' : quiet w w' → evolves w w'.
Proof.
  intros (Ei & Ee & Hn & Hs & Hst). split; [done|done|]. intros [Gw Gs Gi Gr Ge] _.
  destruct (Hst Gw) as (Hw & Hr & Hev). exists [].
  split; rewrite ?Ei; [|done|done|by rewrite app_nil_r|constructor| |constructor|done].
  - split; rewrite ?Ei; [done|done|done| |lia]. by rewrite Hr.
  - by apply log_gained_refl.
Qed.

Lemma quiet_refl w : quiet w w.
Proof. by split_all. Qed.
Lemma quiet_trans a b c : quiet a b → quiet b c → quiet a c.
Proof.
  intros (E1 & F1 & N1 & S1 & H1) (E2 & F2 & N2 & S2 & H2).
  split; [congruence|]. split; [congruence|]. split; [lia|]. split; [lia|]. intros Hw.
  destruct (H1 Hw) as (Hw1 & R1 & V1). destruct (H2 Hw1) as (Hw2 & R2 & V2).
  split; [done|]. split; intros; [by rewrite R2|by rewrite V2].
Qed.

Lemma quiet_tick w : quiet w (tick env w).
Proof.
  pose proof (tick_nonneg env Henv (w_step w)). split; [done|]. split; [done|].
  split; [cbn; lia|]. split; [cbn; lia|]. by intros Hw.
Qed.

(** ** Quiet steps *)

Lemma now_spec (w : World) : now env w = (Ok (mkTime (w_now (tick env w)) (en_loc env)), tick env w).
Proof. done. Qed.
Lemma quiet_ctx_Err (w : World) : quiet w (ctx_Err env w).2.
Proof. apply quiet_tick. Qed.
Lemma quiet_wait_lost (w : World) : quiet w (wait_lost env w).2.
Proof. apply quiet_tick. Qed.
Lemma quiet_provider_call {A} c (f : nat → res A) w : quiet w (provider_call env c f w).2.
Proof.
  unfold provider_call. cbn [snd]. eapply quiet_trans; [|apply quiet_tick]. by split_all.
Qed.
Lemma quiet_pass d w : 0 ≤ d → quiet w (pass d w).
Proof. intros H. split; [done|]. split; [done|]. split; [cbn; lia|]. by split; [cbn; lia|]. Qed.
Lemma quiet_wait d w : quiet w (waitWithCtx env d w).2.
Proof.
  unfold waitWithCtx. destruct (d <=? 0) eqn:E; zb; [apply quiet_refl|].
  destruct (_ && _); cbn [snd]; [apply quiet_tick|].
  eapply quiet_trans; [apply quiet_tick|apply quiet_pass; lia].
Qed.
Lemma quiet_set_store st n w :
  (ss_wf (w_store w) → ss_wf st ∧ (∀ id, ss_row st id = ss_row (w_store w) id) ∧
     (∀ id, ss_events st id = ss_events (w_store w) id)) →
  quiet w (set_store st n w).
Proof. intros H. by split_all. Qed.
Lemma quiet_store_call {A} (f : Faults → nat → St → res A * nat * St) w :
  (∀ fl n st, ss_wf st → let st' := (f fl n st).2 in
     ss_wf st' ∧ (∀ id, ss_row st' id = ss_row st id) ∧ (∀ id, ss_events st' id = ss_events st id)) →
  quiet w (store_call env f w).2.
Proof.
  intros H. unfold store_call.
  destruct (f _ (w_sql w) (w_store w)) as [[r n] st] eqn:E. cbn [snd].
  eapply quiet_trans; [apply quiet_tick|]. apply quiet_set_store. intros Hw.
  specialize (H (if en_done env (w_step w) then λ _, Some (ctx_error env) else en_faults env)
                (w_sql w) (w_store w) Hw). by rewrite E in H.
Qed.

Lemma quiet_venue ref (w : World) : quiet w (store_call env (ss_venue ref) w).2.
Proof. apply quiet_store_call. intros fl n st Hw. cbn. by rewrite ss_venue_law. Qed.
Lemma quiet_lookup ref w : quiet w (lookupVenueTZ env ref w).2.
Proof.
  unfold lookupVenueTZ, mbind, m_bind. pose proof (quiet_venue ref w) as H.
  destruct (store_call env (ss_venue ref) w) as [[v|e] w']; [|done].
  by destruct (v_TZ v).
Qed.
Lemma quiet_recordObserved i t w : quiet w (recordObserved env i t w).2.
Proof.
  unfold recordObserved, attempt, mbind, m_bind.
  pose proof (quiet_lookup (i_Venue i) w) as H.
  destruct (lookupVenueTZ env (i_Venue i) w) as [r w']. cbn [snd] in H.
  eapply quiet_trans; [exact H|]. apply quiet_store_call.
  intros fl n st Hw. by apply ss_observe_law.
Qed.

(** ** Transitions *)

(** What a successful transition did, against an attempt that failed. *)
Record moved (to : Status) (eventType : string) (w w' : World) : Prop := {
  mv_status : s_status (w_inner w') = to;
  mv_legal : CanTransition (s_status (w_inner w)) to = true;
  mv_emitted : ∃ n, w_emitted w' = w_emitted w ++ [n] ∧
    n_From n = Some (s_status (w_inner w)) ∧ n_To n = to ∧ e_Type (n_Event n) = eventType ∧
    w_now w ≤ t_ns (e_At (n_Event n)) ≤ w_now w';
  mv_result : s_Result (w_inner w') = s_Result (w_inner w)
}.
Record unmoved (w w' : World) : Prop := {
  um_inner : w_inner w' = w_inner w;
  um_emitted : w_emitted w' = w_emitted w;
  um_store : ss_wf (w_store w) → snipe_storable (w_inner w) → w_store w' = w_store w
}.

Lemma same_status_row (w : World) :
  good w → ∃ s', ss_row (w_store w) (s_ID (w_inner w)) = Some s' ∧ s_status s' = s_status (w_inner w) ∧
    utc_intent (s_Intent s') = utc_intent (s_Intent (w_inner w)).
Proof. intros [_ _ _ (s' & Hr & (_ & Hs & Hi & _) & _) _]. by exists s'. Qed.

Lemma candidate_storable s to sched upd :
  snipe_storable s → four_digit_year (t_ns sched) → four_digit_year (t_ns upd) →
  snipe_storable (candidate s to sched upd).
Proof. intros (Hi & Hr & _ & Hc & _) Hs Hu. by split_all. Qed.

(** The persist-swap-emit step shared by [transition] and
    [transitionToScheduled]. *)
Lemma persist_swap_evolves w to sched ty t attrs :
  let s := w_inner w in
  let w1 := tick env w in
  CanTransition (s_status s) to = true → t_ns t = w_now w1 →
  (to ≠ StatusScheduled → sched = s_ScheduledAt s) →
  (good w → w_now w1 ≤ hi_ns → four_digit_year (t_ns sched) ∧ Forall attr_storable attrs) →
  let '(r, w') := persist_swap env (s_status s) to (candidate s to sched t) (mkEvent ty t attrs) w1 in
  evolves w w' ∧
  match r with
  | Ok _ => moved to ty w w' ∧ s_ScheduledAt (w_inner w') = sched
  | Err _ => w_inner w' = w_inner w ∧ w_emitted w' = w_emitted w ∧
      (good w → w_now w' ≤ hi_ns → w_store w' = w_store w)
  end.
Proof.
  intros s w1 Hcan Ht Hsch Hattrs. unfold persist_swap, wrapped, mbind, m_bind, swap, emit.
  unfold store_call. set (fl := if en_done env (w_step w1) then _ else _).
  pose proof (tick_nonneg env Henv (w_step w)) as T1.
  pose proof (tick_nonneg env Henv (S (w_step w))) as T2.
  assert (Hnow : w_now w1 = w_now w + en_tick env (w_step w)) by done.
  assert (Hstore : w_store w1 = w_store w) by done.
  assert (Hgood : good w → w_now w1 ≤ hi_ns →
    snipe_storable (candidate s to sched t) ∧ event_storable (mkEvent ty t attrs)).
  { intros [Gw Gs Gi Gr Ge] Hh. destruct (Hattrs ltac:(by split) Hh) as [Hs Ha].
    assert (Hy : four_digit_year (t_ns t)) by (apply in_era_year; rewrite Ht; split; lia).
    split; [by apply candidate_storable|by split]. }
  pose proof (λ G H, ss_transition_law (candidate s to sched t) (mkEvent ty t attrs) fl (w_sql w1)
                (w_store w) (proj1 (Hgood G H)) (proj2 (Hgood G H)) (good_wf _ G)) as Hlaw.
  rewrite Hstore in *.
  destruct (ss_transition (candidate s to sched t) (mkEvent ty t attrs) fl (w_sql w1) (w_store w))
    as [[[u|e] n] st] eqn:E.
  - split; [|split; [|done]].
    + split; [cbn; lia|cbn; lia|]. intros G Hh.
      destruct (Hgood G ltac:(cbn in Hh; lia)) as [Hcs Hes].
      destruct (Hlaw G ltac:(cbn in Hh; lia)) as (Hwf & (old & s' & Hold & Hrow & Hsame & Hcr) &
        (ev' & Hev & Hsev) & _).
      destruct G as [Gw Gs Gi Gr Ge].
      exists [mkNotification (s_ID s) (Some (s_status s)) to (mkEvent ty t attrs)].
      split; cbn; [|done|done|done| | | |].
      * split; cbn; [done|done|done| |lia]. exists s'. split; [done|]. split; [done|].
        destruct Gr as (s0 & Hr0 & _ & Hc0). rewrite Hcr. change (s_ID (candidate s to sched t)) with (s_ID s) in Hold.
        fold s in Hr0. rewrite Hr0 in Hold. by injection Hold as <-.
      * eapply walked_cons; [done|done|done|constructor].
      * exists [ev']. split; [done|]. apply Forall2_cons. by split; [exact Hsev|constructor].
      * apply Forall_cons. split; [cbn; lia|constructor].
      * intros Hn. apply Hsch. set_solver.
    + split; cbn; [done|done| |done].
      eexists. split; [done|]. split_all; try done; cbn; lia.
  - split; [|split; [done|split; [done|]]].
    + split; [cbn; lia|cbn; lia|]. intros G Hh.
      destruct (Hlaw G ltac:(cbn in Hh; lia)) as (Hwf & ->). destruct G as [Gw Gs Gi Gr Ge].
      exists []. split; cbn; [|done|done|by rewrite app_nil_r|constructor| |constructor|done].
      * split; cbn; [done|done|done|done|lia].
      * by apply log_gained_refl.
    + intros G Hh. destruct (Hlaw G ltac:(cbn in Hh; lia)) as (_ & ->). done.
Qed.

(** ** Sequencing *)

#[local] Existing Instances m_ret m_bind.
Lemma evolves_bind {A B} (m : M A) (k : A → M B) (w : World) :
  evolves w (m w).2 → (∀ a w1, m w = (Ok a, w1) → evolves w w1 → evolves w1 (k a w1).2) →
  evolves w ((m ≫= k) w).2.
Proof.
  unfold mbind, m_bind. destruct (m w) as [[a|e] w1]; cbn; [|done].
  intros H1 H2. eapply evolves_trans; [exact H1|]. by apply H2.
Qed.
Lemma evolves_wrapped {A} pre (m : M A) (w : World) :
  evolves w (m w).2 → evolves w (wrapped pre m w).2.
Proof. unfold wrapped. by destruct (m w) as [[a|e] w1]. Qed.
Lemma evolves_attempt {A} (m : M A) (w : World) :
  evolves w (m w).2 → evolves w (attempt m w).2.
Proof. unfold attempt. by destruct (m w). Qed.
Lemma evolves_ret {A} (a : A) (w : World) : evolves w ((mret a : M A) w).2.
Proof. apply evolves_refl. Qed.
Lemma evolves_fail {A} e (w : World) : evolves w ((fail e : M A) w).2.
Proof. apply evolves_refl. Qed.
Lemma evolves_inner (w : World) : evolves w (inner w).2.
Proof. apply evolves_refl. Qed.
Lemma evolves_now (w : World) : evolves w (now env w).2.
Proof. apply quiet_evolves, quiet_tick. Qed.

(** [transition]: legal, in step, and without effect when it fails. *)
Lemma transition_step to ty attrs (w : World) :
  (good w → w_now w ≤ hi_ns → Forall attr_storable attrs) →
  let '(r, w') := transition env to ty attrs w in
  evolves w w' ∧
  match r with
  | Ok _ => moved to ty w w' ∧ s_ScheduledAt (w_inner w') = s_ScheduledAt (w_inner w)
  | Err _ => w_inner w' = w_inner w ∧ w_emitted w' = w_emitted w ∧
      (good w → w_now w' ≤ hi_ns → w_store w' = w_store w)
  end.
Proof.
  intros Ha. unfold transition, mbind, m_bind, inner.
  destruct (CanTransition (s_status (w_inner w)) to) eqn:E; cbn [negb].
  - rewrite now_spec. apply persist_swap_evolves; [done|done|done|]. intros G Hh.
    pose proof (tick_nonneg env Henv (w_step w)). cbn in Hh. specialize (Ha G ltac:(lia)).
    destruct G as [_ Hs _ _ _].
    split; [by destruct Hs as (_ & _ & ? & _)|]. by apply Forall_cons.
  - split; [apply evolves_refl|done].
Qed.
Lemma transition_evolves to ty attrs (w : World) :
  (good w → w_now w ≤ hi_ns → Forall attr_storable attrs) →
  evolves w (transition env to ty attrs w).2.
Proof.
  intros H. pose proof (transition_step to ty attrs w H) as Hs.
  by destruct (transition env to ty attrs w) as [r w'], Hs.
Qed.
Lemma scheduled_step t (w : World) :
  (w_now w ≤ hi_ns → four_digit_year (t_ns t)) →
  let '(r, w') := transitionToScheduled env t w in
  evolves w w' ∧
  match r with
  | Ok _ => moved StatusScheduled EventScheduled w w' ∧ s_ScheduledAt (w_inner w') = t
  | Err _ => w_inner w' = w_inner w ∧ w_emitted w' = w_emitted w ∧
      (good w → w_now w' ≤ hi_ns → w_store w' = w_store w)
  end.
Proof.
  intros Ha. unfold transitionToScheduled, mbind, m_bind, inner.
  destruct (CanTransition (s_status (w_inner w)) StatusScheduled) eqn:E; cbn [negb].
  - rewrite now_spec. apply persist_swap_evolves; [done|done|done|]. intros _ Hh.
    pose proof (tick_nonneg env Henv (w_step w)). cbn in Hh. specialize (Ha ltac:(lia)).
    split; [done|]. by rewrite !Forall_cons, Forall_nil.
  - split; [apply evolves_refl|done].
Qed.

(** ** The loops *)

Lemma evolves_quiet_call {A} (m : M A) (w : World) : quiet w (m w).2 → evolves w (m w).2.
Proof. apply quiet_evolves. Qed.
Lemma evolves_wait d (w : World) : evolves w (waitWithCtx env d w).2.
Proof. apply quiet_evolves, quiet_wait. Qed.
Lemma now_era (w w1 : World) t :
  now env w = (Ok t, w1) → t_ns t = w_now w1.
Proof. rewrite now_spec. by intros [= <- <-]. Qed.
Lemma venue_attrs_ok s l : Forall attr_storable l → Forall attr_storable (venue_attr s :: l).
Proof. intros H. by apply Forall_cons. Qed.

Lemma discovered_pass_evolves pv until (w : World) :
  four_digit_year (t_ns until) → lo_ns ≤ w_now w → evolves w (discovered_pass env pv until w).2.
Proof.
  intros Hu Hlo. unfold discovered_pass.
  apply evolves_bind; [apply evolves_inner|]. intros s w0 _ [N0 _ _].
  apply evolves_bind; [apply evolves_quiet_call, quiet_ctx_Err|]. intros c w1 _ [N1 _ _].
  destruct c; [apply evolves_fail|].
  apply evolves_bind; [apply evolves_now|]. intros n w2 _ [N2 _ _].
  destruct (negb _).
  - apply evolves_bind; [apply transition_evolves|intros; apply evolves_ret].
    intros _ _. by rewrite !Forall_cons, Forall_nil.
  - apply evolves_bind; [apply evolves_wrapped, evolves_quiet_call, quiet_provider_call|].
    intros cal w3 _ [N3 _ _]. destruct (calendarContainsAvailable _ _).
    + apply evolves_bind; [apply evolves_now|]. intros n' w4 E4%now_era [N4 _ _].
      apply evolves_bind; [apply evolves_attempt, evolves_quiet_call, quiet_recordObserved|].
      intros r w5 _ [N5 _ _].
      apply evolves_bind; [apply transition_evolves|intros; apply evolves_ret].
      intros G Hh. apply venue_attrs_ok. rewrite Forall_cons, Forall_nil. split; [|done].
      apply in_era_year. rewrite E4. split; lia.
    + apply evolves_bind; [apply evolves_wait|]. intros; apply evolves_ret.
Qed.

Lemma continuous_pass_evolves pv until (w : World) :
  en_provider env = Some pv → four_digit_year (t_ns until) →
  evolves w (continuous_pass env pv until w).2.
Proof.
  intros Hpv Hu. unfold continuous_pass.
  apply evolves_bind; [apply evolves_inner|]. intros s w0 _ _.
  apply evolves_bind; [apply evolves_quiet_call, quiet_ctx_Err|]. intros c w1 _ _.
  destruct c; [apply evolves_fail|].
  apply evolves_bind; [apply evolves_now|]. intros n w2 _ _.
  destruct (negb _).
  - apply evolves_bind; [apply transition_evolves|intros; apply evolves_ret].
    intros _ _. by rewrite !Forall_cons, Forall_nil.
  - apply evolves_bind; [apply evolves_attempt, evolves_quiet_call, quiet_provider_call|].
    intros found w3 E3 _. destruct found as [[|sl slots]|e].
    + apply evolves_bind; [apply evolves_wait|]. intros; apply evolves_ret.
    + apply evolves_bind; [apply transition_evolves|intros; apply evolves_ret].
      intros _ _. apply venue_attrs_ok. rewrite Forall_cons, Forall_nil. split; [|done].
      unfold attempt, provider_call in E3. injection E3 as Hf _.
      apply (find_len env Henv) in Hf; [|done].
      change (min_int64 ≤ Z.of_nat (length (sl :: slots)) ≤ max_int64). unfold min_int64. lia.
    + destruct (errors_is _ _); [|apply evolves_fail].
      apply evolves_bind; [apply evolves_wait|]. intros; apply evolves_ret.
Qed.

Lemma loop_evolves f body (w : World) r w' :
  (∀ v, w_now w ≤ w_now v → evolves v (body v).2) →
  loop f body w = Some (r, w') → evolves w w'.
Proof.
  revert w. induction f as [|f IH]; intros w H; cbn [loop]; [done|].
  pose proof (H w ltac:(lia)) as Hw. destruct (body w) as [[[u|]|e] v]; cbn [snd] in Hw.
  - by intros [= <- <-].
  - intros E. eapply evolves_trans; [exact Hw|]. apply IH; [|done].
    intros v' ?. apply H. destruct Hw. lia.
  - by intros [= <- <-].
Qed.
Lemma run_loop_evolves until body (w : World) :
  (∀ v, w_now w ≤ w_now v → evolves v (body v).2) → evolves w (run_loop env until body w).2.
Proof.
  intros H. unfold run_loop. destruct (loop _ _ _) as [[r w']|] eqn:E; [|apply evolves_refl].
  by eapply loop_evolves.
Qed.

Lemma runStrategy_evolves (w : World) :
  sane_intent (s_Intent (w_inner w)) → lo_ns ≤ w_now w → evolves w (runStrategy env w).2.
Proof.
  intros [_ Hi] Hlo. unfold runStrategy, mbind at 1, m_bind at 1, inner.
  destruct (i_Release (s_Intent (w_inner w))) as [[t|from until|until]|]; cbn in Hi;
    rewrite ?Forall_cons in Hi; [| | |apply evolves_fail].
  - apply transition_evolves. intros _ _. by apply venue_attrs_ok.
  - destruct Hi as (Hf & Hu & _).
    destruct (en_provider env) as [pv|]; [|apply evolves_fail]. unfold runDiscoveredRelease.
    destruct (_ || _); [apply evolves_fail|]. destruct (negb _); [apply evolves_fail|].
    apply evolves_bind; [|intros _ w1 _ [N1 _ _]].
    + unfold advanceToDiscovering, mbind at 1, m_bind at 1, inner.
      case_bool_decide; [apply evolves_ret|]. apply transition_evolves. intros _ _.
      apply venue_attrs_ok. by rewrite !Forall_cons, Forall_nil.
    + apply evolves_bind; [apply evolves_now|intros n w2 _ [N2 _ _]].
      apply evolves_bind; [destruct (_ <? _); [apply evolves_wait|apply evolves_ret]|].
      intros _ w3 _ [N3 _ _]. apply run_loop_evolves. intros v Hv.
      apply discovered_pass_evolves; [done|lia].
  - destruct Hi as (Hu & _).
    destruct (en_provider env) as [pv|] eqn:Hpv; [|apply evolves_fail].
    unfold runContinuousRelease. destruct (is_zero_time _); [apply evolves_fail|].
    apply run_loop_evolves. intros v Hv. by apply continuous_pass_evolves.
Qed.

(** ** [Run] *)

Lemma scheduled_evolves t (w : World) :
  (w_now w ≤ hi_ns → four_digit_year (t_ns t)) → evolves w (transitionToScheduled env t w).2.
Proof.
  intros H. pose proof (scheduled_step t w H) as Hs.
  by destruct (transitionToScheduled env t w) as [r w'], Hs.
Qed.
Lemma scheduledAt_evolves i (w : World) : evolves w (scheduledAtFromIntent env i w).2.
Proof.
  unfold scheduledAtFromIntent. destruct (i_Release i) as [[]|];
    first [apply evolves_ret|apply evolves_fail|apply evolves_now].
Qed.
Lemma scheduledAt_range i (w w1 : World) t :
  sane_intent i → lo_ns ≤ w_now w → scheduledAtFromIntent env i w = (Ok t, w1) →
  w_now w1 ≤ hi_ns → four_digit_year (t_ns t).
Proof.
  intros [_ Hi] Hlo. unfold scheduledAtFromIntent.
  destruct (i_Release i) as [[t'|f u|u]|]; cbn in Hi; rewrite ?Forall_cons in Hi; intros E Hh.
  - injection E as <- _. by destruct Hi.
  - injection E as <- _. by destruct Hi.
  - pose proof (evolves_now w) as [N _ _]. rewrite E in N. apply now_era in E.
    apply in_era_year. rewrite E. split; [|lia]. cbn in N. lia.
  - done.
Qed.
Lemma waitAndFire_evolves d (w : World) :
  sane_intent (s_Intent (w_inner w)) → lo_ns ≤ w_now w → 0 ≤ d → evolves w (waitAndFire env d w).2.
Proof.
  intros Hi Hlo Hd. unfold waitAndFire.
  apply evolves_bind; [apply evolves_quiet_call, quiet_wait_lost|intros lost w1 E1 [N1 _ _]].
  assert (Hi1 : w_inner w1 = w_inner w) by (by injection E1 as _ <-).
  destruct lost; [apply evolves_fail|].
  apply evolves_bind; [apply evolves_quiet_call, quiet_pass; done|intros [] w2 E2 [N2 _ _]].
  assert (Hi2 : w_inner w2 = w_inner w) by (injection E2 as <-; cbn; congruence).
  apply evolves_bind.
  - apply evolves_attempt.
    apply evolves_bind; [apply evolves_quiet_call, quiet_ctx_Err|intros c w3 E3 [N3 _ _]].
    assert (Hi3 : w_inner w3 = w_inner w) by (injection E3 as _ <-; cbn; congruence).
    destruct c; [apply evolves_ret|]. apply runStrategy_evolves; [by rewrite Hi3|lia].
  - intros f w4 _ _.
    apply evolves_bind; [apply evolves_quiet_call, quiet_wait_lost|intros lost w5 _ _].
    destruct lost; [apply evolves_fail|]. destruct f; [apply evolves_ret|apply evolves_fail].
Qed.

Lemma scheduled_intent t (w : World) :
  s_Intent (w_inner (transitionToScheduled env t w).2) = s_Intent (w_inner w).
Proof.
  unfold transitionToScheduled, persist_swap, wrapped, mbind, m_bind, inner, store_call.
  destruct (negb _); [done|]. rewrite now_spec.
  by destruct (ss_transition _ _ _ _ _) as [[[u|e] n] st].
Qed.
Lemma scheduledAt_inner i (w : World) : w_inner (scheduledAtFromIntent env i w).2 = w_inner w.
Proof. unfold scheduledAtFromIntent. by destruct (i_Release i) as [[]|]. Qed.

(** [Run] once the snipe is loaded. *)
Definition run_loaded (id : string) : M unit :=
  s ← inner;
  _ ← (if bool_decide (s_status s = StatusSubmitted) then
         scheduledAt ← wrapped ("engine: derive scheduled_at for " +:+ id +:+ ": ")
                         (scheduledAtFromIntent env (s_Intent s));
         wrapped ("engine: schedule " +:+ id +:+ ": ") (transitionToScheduled env scheduledAt)
       else mret tt);
  s ← inner;
  if negb (bool_decide (s_status s = StatusScheduled)) then mret tt
  else
    n ← now env;
    let delay := time_sub (s_ScheduledAt s) n in
    if delay <=? 0 then fireRelease env else waitAndFire env delay.
Lemma Run_split id (w : World) :
  Run env id w =
  match Load env id w with (Ok _, w') => run_loaded id w' | (Err e, w') => (Err e, w') end.
Proof.
  unfold Run, run_loaded, mbind, m_bind at 1.
  unfold Load, wrapped, mbind, m_bind, swap. by destruct (store_call env (ss_get id) w) as [[s|e] w'].
Qed.

Lemma run_loaded_evolves id (w : World) :
  sane_intent (s_Intent (w_inner w)) → lo_ns ≤ w_now w → evolves w (run_loaded id w).2.
Proof.
  intros Hi Hlo. unfold run_loaded. apply evolves_bind; [apply evolves_inner|].
  intros s w0 [= <- <-] _.
  assert (Hpre : ∀ m : M unit, m = (if bool_decide (s_status (w_inner w) = StatusSubmitted) then
         scheduledAt ← wrapped ("engine: derive scheduled_at for " +:+ id +:+ ": ")
                         (scheduledAtFromIntent env (s_Intent (w_inner w)));
         wrapped ("engine: schedule " +:+ id +:+ ": ") (transitionToScheduled env scheduledAt)
       else mret tt) → evolves w (m w).2 ∧ s_Intent (w_inner (m w).2) = s_Intent (w_inner w)).
  { intros m ->. case_bool_decide; [|split; [apply evolves_refl|done]]. split.
    - apply evolves_bind; [apply evolves_wrapped, scheduledAt_evolves|]. intros t w1 E1 _.
      apply evolves_wrapped, scheduled_evolves. unfold wrapped in E1.
      destruct (scheduledAtFromIntent _ _ _) as [[t'|e] w1'] eqn:E; simplify_eq.
      by eapply scheduledAt_range.
    - pose proof (scheduledAt_inner (s_Intent (w_inner w)) w) as Hs.
      unfold mbind, m_bind, wrapped.
      destruct (scheduledAtFromIntent _ _ _) as [[t'|e] w1'] eqn:E; cbn [snd] in *; [|congruence].
      pose proof (scheduled_intent t' w1') as Ht.
      destruct (transitionToScheduled env t' w1') as [[]]; cbn [snd] in *; congruence. }
  set (m := if bool_decide _ then _ else _) in *. destruct (Hpre m eq_refl) as [Hev Hint]. clear Hpre.
  apply evolves_bind; [done|]. intros [] w1 E1 [N1 _ _]. rewrite E1 in Hint. cbn [snd] in Hint.
  apply evolves_bind; [apply evolves_inner|]. intros s w2 [= <- <-] _.
  destruct (negb _); [apply evolves_ret|].
  apply evolves_bind; [apply evolves_now|]. intros n w3 E3 [N3 _ _].
  assert (Hi3 : w_inner w3 = w_inner w1) by (by injection E3 as _ <-).
  cbn zeta. destruct (_ <=? _) eqn:Ed; zb.
  - apply runStrategy_evolves; [by rewrite Hi3, Hint|lia].
  - apply waitAndFire_evolves; [by rewrite Hi3, Hint|lia|lia].
Qed.

Lemma Load_spec id (w : World) :
  ss_wf (w_store w) →
  let '(r, w') := Load env id w in
  w_store w' = w_store w ∧ w_emitted w' = w_emitted w ∧ w_calls w' = w_calls w ∧
  w_now w' = w_now (tick env w) ∧
  match r with
  | Ok s => ss_row (w_store w) id = Some s ∧ s_ID s = id ∧ w_inner w' = s
  | Err _ => w_inner w' = w_inner w
  end.
Proof.
  intros Hwf. unfold Load, wrapped, mbind, m_bind, swap, store_call.
  pose proof (ss_get_law id (if en_done env (w_step w) then λ _, Some (ctx_error env) else en_faults env)
                (w_sql w) (w_store w) Hwf) as H.
  destruct (ss_get _ _ _ _) as [[[s|e] n] st]; destruct H as [-> H]; [|done].
  by destruct H.
Qed.
(** The world with the snipe just loaded. *)
Definition with_loaded (s : SnipeState) (w : World) : World := set_inner s w.
Lemma good_same (w w' : World) :
  w_store w' = w_store w → w_inner w' = w_inner w → w_now w ≤ w_now w' → good w → good w'.
Proof. intros E1 E2 Hn [Gw Gs Gi Gr Ge]. split; rewrite ?E1, ?E2; try done. lia. Qed.
Lemma sane_utc i i' : utc_intent i' = utc_intent i → intent_storable i' → sane_intent i → sane_intent i'.
Proof.
  intros Eu Hi [_ Hr]. split; [done|]. destruct i as [u v d n p r], i' as [u' v' d' n' p' r']. cbn in *.
  assert (E : utc_release <$> r' = utc_release <$> r) by (unfold utc_intent in Eu; cbn in Eu; congruence).
  destruct r as [[]|], r' as [[]|]; cbn in *; try done; unfold to_utc, in_loc in E; simplify_eq;
    repeat match goal with H : Forall _ (_ :: _) |- _ => apply Forall_cons in H as [? H] end;
    repeat (apply Forall_cons; split); try apply Forall_nil;
    by repeat match goal with H : t_ns _ = t_ns _ |- _ => rewrite H end.
Qed.
Lemma same_storable s s' :
  same_snipe s s' → four_digit_year (t_ns (s_CreatedAt s')) → snipe_storable s → snipe_storable s'.
Proof.
  intros (_ & _ & _ & _ & Hr & Hi & Es & Eu & _) Hc (_ & Hrs & Hs & _ & Hu).
  split; [done|]. split; [|rewrite Es, Eu; by split_all].
  unfold result_storable, same_result in *. destruct (s_Result s), (s_Result s'); try done. apply Hr.
Qed.
(** As a row is read: times in UTC, no events. *)
Definition as_read (s : SnipeState) : Prop :=
  s_ScheduledAt s = to_utc (s_ScheduledAt s) ∧ s_UpdatedAt s = to_utc (s_UpdatedAt s) ∧ s_Events s = [].
Lemma same_snipe_as_read s0 s : same_snipe s0 s → as_read s.
Proof. intros (_ & _ & _ & _ & _ & _ & Es & Eu & Ev). unfold as_read. by rewrite Es, Eu, Ev. Qed.
Lemma good_stored (w : World) :
  ss_wf (w_store w) → snipe_storable (w_inner w) → sane_intent (s_Intent (w_inner w)) → as_read (w_inner w) →
  ss_row (w_store w) (s_ID (w_inner w)) = Some (w_inner w) → lo_ns ≤ w_now w → good w.
Proof.
  intros Hw Hs Hi (E1 & E2 & E3) Hr Hn. split; try done. exists (w_inner w). split; [done|].
  destruct Hs as (H1 & H2 & _ & H4 & _). split; [|done]. do 4 (split; [done|]). split; [|by split_all].
  unfold same_result, result_storable, same_instant in *. by destruct (s_Result (w_inner w)).
Qed.
(** A snipe that is in step may be loaded again. *)
Lemma loaded_good s (w : World) : good w → ss_row (w_store w) (s_ID (w_inner w)) = Some s → good (with_loaded s w).
Proof.
  intros [Gw Gs Gi (s' & Hr & Hs & Hc) Ge] H. assert (s' = s) as -> by congruence.
  pose proof Hs as (Eid & _ & Eu & _ & _ & Hi & _).
  apply good_stored; cbn; [done|by eapply same_storable|by eapply sane_utc|by eapply same_snipe_as_read|by rewrite Eid|done].
Qed.
Lemma evolved_from (w v w' : World) ns :
  w_store v = w_store w → w_inner v = w_inner w → w_emitted v = w_emitted w → w_now w ≤ w_now v →
  evolved v w' ns → evolved w w' ns.
Proof.
  intros E1 E2 E3 Hn [G I J E W L T S]. rewrite E1 in *. rewrite E2 in *. rewrite E3 in *.
  split; try done. eapply Forall_impl; [exact T|]. cbn. intros; lia.
Qed.

(** C1. [Run] keeps everything in step, whichever statements fail,
    whatever the provider answers and whenever the context is cancelled: if
    the snipe cannot be loaded nothing changes; otherwise, from the row that
    was loaded, the row in the store is again the snipe in memory, the
    notifications emitted walk the status machine by legal steps from the
    loaded status to the final one, the audit log gained exactly their
    events, in order and stamped within the run, and the identity and the
    intent are untouched. *)
Theorem Run_in_step id (w : World) :
  ss_wf (w_store w) → lo_ns ≤ w_now w →
  (∀ s, ss_row (w_store w) id = Some s → good (with_loaded s w)) →
  let '(r, w') := Run env id w in
  w_now w' ≤ hi_ns →
  (is_Ok r = false ∧ w_store w' = w_store w ∧ w_inner w' = w_inner w ∧ w_emitted w' = w_emitted w) ∨
  ∃ s ns, ss_row (w_store w) id = Some s ∧ evolved (with_loaded s w) w' ns.
Proof.
  intros Hwf Hlo Hg. rewrite Run_split. pose proof (Load_spec id w Hwf) as HL.
  pose proof (tick_nonneg env Henv (w_step w)).
  destruct (Load env id w) as [[s|e] w1];
    [|destruct HL as (? & ? & _ & _ & ?); intros _; by left].
  destruct HL as (E1 & E2 & _ & E3 & Hrow & Hid & E4). specialize (Hg s Hrow). cbn in E3.
  assert (Hg1 : good w1) by (eapply good_same; [..|exact Hg]; cbn; [done|done|lia]).
  pose proof (run_loaded_evolves id w1 (good_intent _ Hg1) ltac:(lia)) as [_ _ Hm].
  destruct (run_loaded id w1) as [r w']. intros Hh. right.
  destruct (Hm Hg1 Hh) as (ns & Hev). exists s, ns. split; [done|].
  eapply evolved_from; [..|exact Hev]; cbn; try done. lia.
Qed.

(** A status transition is all or nothing: if it succeeds the step was
    legal and row, memory, log and notification all show it, and if it fails
    nothing moved; a transition the machine forbids is refused without
    touching even the clock. *)
Theorem transition_all_or_nothing to ty attrs (w : World) :
  good w → Forall attr_storable attrs →
  let '(r, w') := transition env to ty attrs w in
  w_now w' ≤ hi_ns →
  match r with
  | Ok _ => CanTransition (s_status (w_inner w)) to = true ∧ s_status (w_inner w') = to ∧
      ∃ n, evolved w w' [n] ∧ n_To n = to ∧ e_Type (n_Event n) = ty
  | Err e =>
      w_inner w' = w_inner w ∧ w_emitted w' = w_emitted w ∧ w_store w' = w_store w ∧
      (CanTransition (s_status (w_inner w)) to = false →
       e = EInvalidTransition (s_status (w_inner w)) to ∧ w' = w)
  end.
Proof.
  intros Hg Ha. pose proof (transition_step to ty attrs w (λ _ _, Ha)) as H.
  destruct (CanTransition (s_status (w_inner w)) to) eqn:Hc.
  - destruct (transition env to ty attrs w) as [[u|e] w']; destruct H as [[_ _ Hm] H].
    + intros Hh. destruct H as [[Hst _ (n & Hem & _ & Hto & Hty & _) _] _].
      split; [done|]. split; [done|]. exists n. destruct (Hm Hg Hh) as (ns & Hev).
      assert (ns = [n]) as -> by (apply (app_inv_head (w_emitted w)); by rewrite <- Hem, <- (ev_emitted _ _ _ Hev)).
      done.
    + intros Hh. destruct H as (? & ? & Hs). split_all; try done. by apply Hs.
  - clear H. unfold transition, mbind, m_bind, inner. by rewrite Hc.
Qed.

(** [Submit] of a fresh intent leaves a snipe that is Submitted in the
    store and in memory, under an identity no row had, with exactly the
    Submitted event appended to its log and announced with no previous
    status.  If it fails nothing is announced, and the store is as before
    except possibly for the bare row, when the event could not be written. *)
Theorem Submit_spec id intent (w : World) :
  ss_wf (w_store w) → lo_ns ≤ w_now w → sane_intent intent →
  let '(r, w') := Submit env id intent w in
  w_now w' ≤ hi_ns →
  match r with
  | Ok s =>
      s = w_inner w' ∧ s_ID s = id ∧ s_Intent s = intent ∧ s_status s = StatusSubmitted ∧
      ss_row (w_store w) id = None ∧ good w' ∧
      ∃ n, w_emitted w' = w_emitted w ++ [n] ∧ n_From n = None ∧ n_To n = StatusSubmitted ∧
        e_Type (n_Event n) = EventSubmitted ∧ log_gained id [n] (w_store w) (w_store w')
  | Err _ =>
      w_inner w' = w_inner w ∧ w_emitted w' = w_emitted w ∧
      (∀ id', ss_events (w_store w') id' = ss_events (w_store w) id') ∧
      ∀ id', id' ≠ id → ss_row (w_store w') id' = ss_row (w_store w) id'
  end.
Proof.
  intros Hwf Hlo [Hi Hr]. unfold Submit, mbind, m_bind. rewrite now_spec.
  set (w1 := tick env w). set (t := mkTime (w_now w1) (en_loc env)).
  set (s := NewSnipeState id intent t).
  pose proof (tick_nonneg env Henv (w_step w)) as T1.
  pose proof (tick_nonneg env Henv (S (w_step w))) as T2.
  pose proof (tick_nonneg env Henv (S (S (w_step w)))) as T3.
  assert (Hn1 : w_now w1 = w_now w + en_tick env (w_step w)) by done.
  assert (Ht : w_now w1 ≤ hi_ns → four_digit_year (t_ns t))
    by (intros; apply in_era_year; split; cbn; lia).
  assert (Hs : w_now w1 ≤ hi_ns → snipe_storable s).
  { intros H. split; [exact Hi|]. split; [exact I|]. split; [exact zero_four_digit|].
    split; exact (Ht H). }
  unfold wrapped at 1, store_call at 1.
  set (fl := if en_done env (w_step w1) then _ else _).
  pose proof (λ H, ss_create_law s fl (w_sql w1) (w_store w) (Hs H) Hwf) as Hc.
  change (w_store w1) with (w_store w).
  destruct (ss_create s fl (w_sql w1) (w_store w)) as [[[u|e] n] st].
  2: { intros Hh. cbn in Hh. destruct (Hc ltac:(lia)) as [_ ->]. done. }
  unfold wrapped, store_call. cbn [tick set_store w_store w_step w_sql].
  set (fl2 := if en_done env _ then _ else _).
  set (ev := mkEvent EventSubmitted t (submitted_attrs id intent)).
  assert (He : w_now w1 ≤ hi_ns → event_storable ev).
  { intros H. split; [by apply Ht|]. repeat (apply Forall_cons_2; [exact I|]). constructor. }
  pose proof (λ H H', ss_append_law id ev fl2 n st (He H) H') as Ha.
  destruct (ss_append id ev fl2 n st) as [[[u'|e] n'] st'].
  - intros Hh. cbn in Hh. destruct (Hc ltac:(lia)) as (Hw1 & Hnone & (s' & Hrow & Hsame & Hcr) & Hoth & Hevs).
    destruct (Ha ltac:(lia) Hw1) as (Hw2 & Hrows & (ev' & Hl & Hse) & _).
    split; [done|]. split; [done|]. split; [done|]. split; [done|]. split; [done|]. split.
    + split; cbn; [done|by apply Hs; lia|done| |lia]. exists s'. rewrite Hrows. split; [done|].
      split; [done|]. rewrite Hcr. exact (Ht ltac:(lia)).
    + eexists. split; [done|]. split; [done|]. split; [done|]. split; [done|].
      exists [ev']. cbn. rewrite Hl, Hevs. split; [done|].
      apply Forall2_cons. by split; [exact Hse|constructor].
  - intros Hh. cbn in Hh. destruct (Hc ltac:(lia)) as (Hw1 & Hnone & _ & Hoth & Hevs).
    destruct (Ha ltac:(lia) Hw1) as (_ & ->). done.
Qed.
End Proofs.

(** ** A sample run over the SQLite store *)

#[local] Existing Instance store_laws.
Definition sample_env : Env :=
  mkEnv ok_faults (λ _, second) (λ _, false) false (λ _, true) UTC None defaultBookingPolicy.
Lemma sample_env_ok : env_ok sample_env.
Proof. split; [intros; cbn; unfold second; lia|done|done]. Qed.
Definition utc_intent_sample : Intent := sample_intent (to_utc drop_ny).
Definition stored_sample : SnipeState := NewSnipeState "q1" utc_intent_sample (to_utc drop_ny).
Definition db_sample : DB := db_of (CreateSnipe stored_sample ok_faults 0%nat empty_db).
(** A minute before the drop. *)
Definition world_on (db : DB) : World DB :=
  mkWorld db 0%nat 0%nat (t_ns drop_ny - 60 * second) stored_sample [] [].

Lemma sane_sample : sane_intent utc_intent_sample.
Proof.
  split; [split; [reflexivity|]|]; repeat constructor; try (by vm_compute); cbv; congruence.
Qed.
Lemma stored_sample_storable : snipe_storable stored_sample.
Proof.
  split; [apply sane_sample|]. split; [done|]. split_all; vm_compute; split; congruence.
Qed.
Lemma created_sample : CreateSnipe stored_sample ok_faults 0%nat empty_db = (Ok tt, 1%nat, db_sample).
Proof. reflexivity. Qed.
Lemma good_sample : good (world_on db_sample).
Proof.
  apply good_stored; [|apply stored_sample_storable|apply sane_sample|done|vm_compute; reflexivity|by vm_compute].
  eapply store_step_wf; [|exact db_wf_empty]. eapply step_create; [apply stored_sample_storable|exact created_sample].
Qed.

Lemma Submit_spec_witness : good (Submit sample_env "q1" utc_intent_sample (world_on empty_db)).2.
Proof.
  pose proof (Submit_spec sample_env sample_env_ok "q1" utc_intent_sample (world_on empty_db)
                db_wf_empty ltac:(by vm_compute) sane_sample) as H.
  assert (Hn : w_now (Submit sample_env "q1" utc_intent_sample (world_on empty_db)).2 <=? hi_ns = true)
    by (vm_compute; reflexivity).
  assert (Ho : is_Ok (Submit sample_env "q1" utc_intent_sample (world_on empty_db)).1 = true)
    by (vm_compute; reflexivity).
  destruct (Submit _ _ _ _) as [[s|e] w']; cbn [fst snd] in *; [|done].
  apply H. by apply Z.leb_le.
Defined.
Lemma Run_in_step_witness :
  ∃ s ns, ss_row db_sample "q1" = Some s ∧
    evolved (with_loaded s (world_on db_sample)) (Run sample_env "q1" (world_on db_sample)).2 ns.
Proof.
  pose proof (Run_in_step sample_env sample_env_ok "q1" (world_on db_sample)
                (good_wf _ good_sample) ltac:(by vm_compute)) as H.
  assert (Hn : w_now (Run sample_env "q1" (world_on db_sample)).2 <=? hi_ns = true)
    by (vm_compute; reflexivity).
  assert (Ho : is_Ok (Run sample_env "q1" (world_on db_sample)).1 = true) by (vm_compute; reflexivity).
  destruct (Run _ _ _) as [r w']; cbn [fst snd] in *.
  destruct H as [[Hf _]|H]; [|by apply Z.leb_le|congruence|exact H].
  intros s Hs. assert (Some s = Some stored_sample) as [= ->]
    by (rewrite <- Hs; vm_compute; reflexivity).
  exact good_sample.
Defined.
Lemma transition_all_or_nothing_witness :
  s_status (w_inner (transition sample_env StatusScheduled EventScheduled [] (world_on db_sample)).2)
  = StatusScheduled.
Proof.
  pose proof (transition_all_or_nothing sample_env sample_env_ok StatusScheduled EventScheduled []
                (world_on db_sample) good_sample ltac:(constructor)) as H.
  assert (Hn : w_now (transition sample_env StatusScheduled EventScheduled [] (world_on db_sample)).2
               <=? hi_ns = true) by (vm_compute; reflexivity).
  assert (Ho : is_Ok (transition sample_env StatusScheduled EventScheduled [] (world_on db_sample)).1
               = true) by (vm_compute; reflexivity).
  destruct (transition _ _ _ _ _) as [[u|e] w']; cbn [fst snd] in *; [|done].
  apply H. by apply Z.leb_le.
Defined.
