(* ===== verification/EngineRun.v ===== *)
(** * When the engine fires, polls and stops

    [Run] is split into the part that schedules the snipe, the wait, and
    the release strategy.  From the split: nothing is released before the
    scheduled instant, the provider is polled at a bounded rate inside the
    probe window only, the polling loops end, and an undisturbed explicit
    run reaches Awaiting. *)

From S2P Require Import Prelude GoTime GoFormat Types Status Slots Drop Json Hash Codec Sqlite SqliteStore Engine EngineProofs.

Section Run.
Context {St : Type} `{!SnipeStore St} (env : Env).
Hypothesis Henv : env_ok env.
Notation World := (World St).
#[local] Existing Instances m_ret m_bind.

(** ** Steps without calls *)

(** Quiet, and without a provider call. *)
Definition idle (w w' : World) : Prop := quiet w w' ∧ w_calls w' = w_calls w.

Lemma idle_refl w : idle w w.
Proof. split; [apply quiet_refl|done]. Qed.
Lemma idle_trans a b c : idle a b → idle b c → idle a c.
Proof. intros [Q1 E1] [Q2 E2]. split; [by eapply quiet_trans|congruence]. Qed.
Lemma idle_tick w : idle w (tick env w).
Proof. split; [by apply quiet_tick|done]. Qed.
Lemma idle_pass d w : 0 ≤ d → idle w (pass d w).
Proof. intros. split; [by apply quiet_pass|done]. Qed.
Lemma idle_now w w' : idle w w' → w_now w ≤ w_now w'.
Proof. intros [(_ & _ & ? & _) _]. done. Qed.
Lemma idle_inner w w' : idle w w' → w_inner w' = w_inner w.
Proof. intros [(? & _) _]. done. Qed.

Lemma store_call_calls {A} (f : Faults → nat → St → res A * nat * St) (w : World) :
  w_calls (store_call env f w).2 = w_calls w.
Proof. unfold store_call. by destruct (f _ (w_sql w) (w_store w)) as [[r n] st]. Qed.
Lemma persist_calls from to cand ev (w : World) :
  w_calls (persist_swap env from to cand ev w).2 = w_calls w.
Proof.
  unfold persist_swap, wrapped, mbind, m_bind, swap, emit.
  pose proof (store_call_calls (ss_transition cand ev) w) as H.
  by destruct (store_call _ _ _) as [[u|e] w'].
Qed.
Lemma transition_calls to ty attrs (w : World) :
  w_calls (transition env to ty attrs w).2 = w_calls w.
Proof.
  unfold transition. unfold mbind at 1, m_bind at 1, inner. destruct (negb _); [done|].
  unfold mbind, m_bind. rewrite now_spec. by rewrite persist_calls.
Qed.
Lemma scheduled_calls t (w : World) : w_calls (transitionToScheduled env t w).2 = w_calls w.
Proof.
  unfold transitionToScheduled. unfold mbind at 1, m_bind at 1, inner. destruct (negb _); [done|].
  unfold mbind, m_bind. rewrite now_spec. by rewrite persist_calls.
Qed.
Lemma recordObserved_calls i t (w : World) : w_calls (recordObserved env i t w).2 = w_calls w.
Proof.
  unfold recordObserved, attempt, lookupVenueTZ, mbind, m_bind.
  pose proof (store_call_calls (ss_venue (i_Venue i)) w) as H.
  destruct (store_call env (ss_venue (i_Venue i)) w) as [[v|e] w']; [destruct (v_TZ v)|];
    (etrans; [apply store_call_calls|exact H]).
Qed.

(** ** Run in three parts *)

(** The scheduling part: nothing but the Scheduled transition. *)
Definition schedule_part (id : string) (s : SnipeState) : M unit :=
  if bool_decide (s_status s = StatusSubmitted) then
    scheduledAt ← wrapped ("engine: derive scheduled_at for " +:+ id +:+ ": ")
                    (scheduledAtFromIntent env (s_Intent s));
    wrapped ("engine: schedule " +:+ id +:+ ": ") (transitionToScheduled env scheduledAt)
  else mret tt.
Lemma schedule_part_spec id (w : World) :
  sane_intent (s_Intent (w_inner w)) → lo_ns ≤ w_now w →
  let '(r, w') := schedule_part id (w_inner w) w in
  evolves w w' ∧ w_calls w' = w_calls w ∧ s_Intent (w_inner w') = s_Intent (w_inner w) ∧
  ∃ ns, w_emitted w' = w_emitted w ++ ns ∧ Forall (λ n, n_To n = StatusScheduled) ns.
Proof.
  intros Hi Hlo. unfold schedule_part. case_bool_decide.
  2: { split; [apply evolves_refl|]. split; [done|]. split; [done|]. exists []. by rewrite app_nil_r. }
  pose proof (scheduledAt_evolves env Henv (s_Intent (w_inner w)) w) as V1.
  pose proof (scheduledAt_inner env (s_Intent (w_inner w)) w) as I1.
  assert (C1 : w_calls (scheduledAtFromIntent env (s_Intent (w_inner w)) w).2 = w_calls w ∧
               w_emitted (scheduledAtFromIntent env (s_Intent (w_inner w)) w).2 = w_emitted w)
    by (unfold scheduledAtFromIntent; by destruct (i_Release _) as [[]|]).
  unfold mbind, m_bind, wrapped.
  destruct (scheduledAtFromIntent env (s_Intent (w_inner w)) w) as [[t|e] w1] eqn:E;
    cbn [snd] in *; destruct C1 as [C1 M1].
  2: { split; [done|]. split; [done|]. split; [congruence|]. exists []. by rewrite app_nil_r. }
  pose proof (scheduled_step env Henv t w1 ltac:(by eapply scheduledAt_range)) as Hs.
  pose proof (scheduled_calls t w1) as C2. pose proof (scheduled_intent env t w1) as I2.
  destruct (transitionToScheduled env t w1) as [[u|e] w2]; cbn [snd] in *; destruct Hs as [V2 Hs].
  - split; [by eapply evolves_trans|]. split; [congruence|]. split; [congruence|].
    destruct Hs as [[_ _ (n & Hem & _ & Hto & _) _] _]. exists [n]. rewrite Hem, M1.
    split; [done|]. by apply Forall_cons_2.
  - destruct Hs as (_ & Hem & _). split; [by eapply evolves_trans|]. split; [congruence|].
    split; [congruence|]. exists []. rewrite app_nil_r. split; [congruence|done].
Qed.

(** Waiting and firing: either the strategy is never run, or it is run from
    a moment at least the delay later. *)
Lemma waitAndFire_split d (w : World) :
  0 ≤ d →
  let w' := (waitAndFire env d w).2 in
  idle w w' ∨
  ∃ v, idle w v ∧ w_now w + d ≤ w_now v ∧ idle (runStrategy env v).2 w'.
Proof.
  intros Hd. unfold waitAndFire, mbind, m_bind, wait_lost, after_timer, attempt, ctx_Err, fireRelease.
  destruct (en_done env (w_step w) && _); [left; apply idle_tick|].
  set (v0 := pass d (tick env w)). assert (H0 : idle w v0).
  { eapply idle_trans; [apply idle_tick|by apply idle_pass]. }
  assert (N0 : w_now w + d ≤ w_now v0).
  { pose proof (tick_nonneg env Henv (w_step w)). cbn. lia. }
  pose proof (idle_tick v0) as H1. pose proof (idle_now _ _ H1) as N1.
  destruct (en_done env (w_step v0)).
  - left. cbn [fst snd mret m_ret]. unfold mret, m_ret, fail.
    destruct (en_done env (w_step (tick env v0)) && _); (eapply idle_trans; [exact H0|]);
      (eapply idle_trans; [exact H1|]); apply idle_tick.
  - right. exists (tick env v0). split; [by eapply idle_trans|]. split; [lia|].
    destruct (runStrategy env (tick env v0)) as [r w1]. cbn [snd]. unfold fail, mret, m_ret.
    destruct (en_done env (w_step w1) && _); [apply idle_tick|].
    destruct r; apply idle_tick.
Qed.

Lemma run_loaded_eq id (w : World) :
  run_loaded env id w =
  match schedule_part id (w_inner w) w with
  | (Err e, a) => (Err e, a)
  | (Ok _, a) =>
      if negb (bool_decide (s_status (w_inner a) = StatusScheduled)) then (Ok tt, a)
      else
        let d := time_sub (s_ScheduledAt (w_inner a)) (mkTime (w_now (tick env a)) (en_loc env)) in
        if d <=? 0 then runStrategy env (tick env a) else waitAndFire env d (tick env a)
  end.
Proof.
  assert (Hend : ∀ s (a : World),
    (if negb (bool_decide (s_status s = StatusScheduled)) then (mret tt : M unit)
     else n ← now env; let delay := time_sub (s_ScheduledAt s) n in
          if delay <=? 0 then fireRelease env else waitAndFire env delay) a =
    if negb (bool_decide (s_status s = StatusScheduled)) then (Ok tt, a)
    else let d := time_sub (s_ScheduledAt s) (mkTime (w_now (tick env a)) (en_loc env)) in
         if d <=? 0 then runStrategy env (tick env a) else waitAndFire env d (tick env a)).
  { intros s a. destruct (negb _); [done|]. unfold mbind, m_bind. rewrite now_spec. cbn zeta.
    by destruct (_ <=? _). }
  unfold run_loaded, mbind at 1, m_bind at 1, inner at 1. cbn beta iota.
  unfold mbind at 1, m_bind at 1. fold (schedule_part id (w_inner w)).
  destruct (schedule_part id (w_inner w) w) as [[[]|e] a]; [|done].
  unfold mbind at 1, m_bind at 1, inner. apply Hend.
Qed.
Lemma run_loaded_split id (w : World) :
  sane_intent (s_Intent (w_inner w)) → lo_ns ≤ w_now w →
  let w' := (run_loaded env id w).2 in
  ∃ a, evolves w a ∧ w_calls a = w_calls w ∧ s_Intent (w_inner a) = s_Intent (w_inner w) ∧
    (∃ ns, w_emitted a = w_emitted w ++ ns ∧ Forall (λ n, n_To n = StatusScheduled) ns) ∧
    (idle a w' ∨
     s_status (w_inner a) = StatusScheduled ∧
     ∃ v, idle a v ∧ idle (runStrategy env v).2 w' ∧
       (t_ns (s_ScheduledAt (w_inner a)) - w_now a ≤ max_int64 →
        t_ns (s_ScheduledAt (w_inner a)) ≤ w_now v)).
Proof.
  intros Hi Hlo. pose proof (schedule_part_spec id w Hi Hlo) as H.
  rewrite run_loaded_eq.
  destruct (schedule_part id (w_inner w) w) as [[[]|e] a]; destruct H as (V & C & I & Hns);
    exists a; (split; [done|]); (split; [done|]); (split; [done|]); (split; [done|]);
    [|left; apply idle_refl].
  destruct (negb (bool_decide _)) eqn:Hst; [left; apply idle_refl|].
  pose proof (idle_tick a) as Ht. pose proof (idle_now _ _ Ht) as Nt.
  set (b := tick env a) in *.
  assert (Hstat : s_status (w_inner a) = StatusScheduled).
  { apply negb_false_iff, bool_decide_eq_true in Hst. done. }
  cbn zeta. set (d := time_sub _ _).
  assert (Hd : t_ns (s_ScheduledAt (w_inner a)) - w_now a ≤ max_int64 →
               t_ns (s_ScheduledAt (w_inner a)) ≤ w_now b + d).
  { unfold d, time_sub. cbn [t_ns]. lia. }
  destruct (d <=? 0) eqn:Ed; zb.
  - right. split; [done|]. exists b. split; [done|]. split; [apply idle_refl|]. intros; lia.
  - destruct (waitAndFire_split d b ltac:(lia)) as [Hl|(v & Hv & Nv & Hr)].
    + left. by eapply idle_trans.
    + right. split; [done|]. exists v. split; [by eapply idle_trans|]. split; [done|]. intros; lia.
Qed.

(** ** Never early *)

Lemma walked_scheduled id a ns b :
  walked id a ns b → StatusScheduled ∈ map n_To ns → a = StatusSubmitted.
Proof.
  induction 1 as [a|a n ns c Hid Hf Hc Hw IH]; cbn [map]; [intros H; inversion H|].
  rewrite elem_of_cons. intros [H|H].
  - rewrite <- H in Hc. by destruct a.
  - specialize (IH H). rewrite IH in Hc. by destruct a.
Qed.

(** The notifications [w'] added to those of [w]. *)
Definition added (w w' : World) : list Notification := drop (length (w_emitted w)) (w_emitted w').
Lemma added_app (w w' : World) ns : w_emitted w' = w_emitted w ++ ns → added w w' = ns.
Proof. unfold added. intros ->. by rewrite drop_app_length. Qed.

(** C7. Whatever fails, [Run] announces nothing but the scheduling itself
    before the instant the snipe is scheduled for (the wait is a [Duration],
    so the instant must be within 292 years of the start). *)
Theorem Run_never_early id (w : World) :
  ss_wf (w_store w) → lo_ns ≤ w_now w →
  (∀ s, ss_row (w_store w) id = Some s → good (with_loaded s w)) →
  let '(_, w') := Run env id w in
  w_now w' ≤ hi_ns →
  t_ns (s_ScheduledAt (w_inner w')) - w_now w ≤ max_int64 →
  Forall (λ n, n_To n = StatusScheduled ∨ t_ns (s_ScheduledAt (w_inner w')) ≤ t_ns (e_At (n_Event n)))
    (added w w').
Proof.
  intros Hwf Hlo Hg. rewrite Run_split. pose proof (Load_spec env id w Hwf) as HL.
  pose proof (tick_nonneg env Henv (w_step w)).
  destruct (Load env id w) as [[s|e] w1].
  2: { destruct HL as (_ & E & _). intros _ _. rewrite (added_app w w1 []); [constructor|].
       by rewrite app_nil_r. }
  destruct HL as (E1 & E2 & _ & E3 & Hrow & Hid & E4). cbn in E3.
  assert (Hg1 : good w1).
  { eapply good_same; [..|exact (Hg s Hrow)]; cbn; [done|done|lia]. }
  destruct (run_loaded_split id w1 (good_intent _ Hg1) ltac:(lia))
    as (a & [Na _ Va] & _ & Ia & (nsA & Ea & Fa) & Hcase).
  destruct (run_loaded env id w1) as [r w']. cbn [snd] in *. intros Hh Hmax.
  destruct Hcase as [[(Ei & Ee & _) _]|(Hst & v & Hv & [(Ei' & Ee' & N' & _) _] & Hbound)].
  - rewrite (added_app w w' nsA) by congruence.
    eapply Forall_impl; [exact Fa|]. cbn. tauto.
  - assert (Hiv : sane_intent (s_Intent (w_inner v))).
    { rewrite (idle_inner _ _ Hv), Ia. apply Hg1. }
    pose proof (idle_now _ _ Hv) as Nv.
    pose proof (runStrategy_evolves env Henv v Hiv ltac:(lia)) as [Nr _ Vr].
    destruct (runStrategy env v) as [r2 w2]. cbn [snd] in *.
    destruct (Va Hg1 ltac:(lia)) as (? & [Ga _ _ _ _ _ _ _]).
    destruct (quiet_evolves _ _ (proj1 Hv)) as [_ _ Vq].
    destruct (Vq Ga ltac:(lia)) as (? & [Gv _ _ _ _ _ _ _]).
    destruct (Vr Gv ltac:(lia)) as (ns & [_ _ _ Er Wr _ Tr Sr]).
    rewrite (idle_inner _ _ Hv) in Wr, Sr.
    assert (Hns : StatusScheduled ∉ map n_To ns).
    { intros Hin. pose proof (walked_scheduled _ _ _ _ Wr Hin). congruence. }
    assert (Ev : w_emitted v = w_emitted a) by (by destruct Hv as [(_ & ? & _) _]).
    rewrite (added_app w w' (nsA ++ ns)) by (rewrite Ee', Er, Ev, Ea, E2, app_assoc; done).
    rewrite Ei', (Sr Hns) in *. apply Forall_app. split; [eapply Forall_impl; [exact Fa|]; tauto|].
    eapply Forall_impl; [exact Tr|]. cbn. intros n Hn. right.
    specialize (Hbound ltac:(lia)). lia.
Qed.

(** ** Polling *)

Lemma pollInterval_pos : 100 * millisecond ≤ pollInterval env.
Proof. unfold pollInterval. lia. Qed.

(** The query a release strategy makes for an intent. *)
Definition calendar_query (i : Intent) : Call :=
  CallCalendar (i_Venue i) (mkDateRange (i_Date i) (i_Date i) (i_PartySize i)).
Definition find_query (i : Intent) : Call :=
  CallFind (mkFindRequest (i_Venue i) (i_Date i) (i_PartySize i) [] None).

(** What one pass does: at most one call, inside the window; to go round
    again it must have called and then waited, the snipe untouched. *)
Definition polite (until : Time) (query : Intent → Call) (body : M (option unit)) : Prop :=
  ∀ w : World, let '(r, w') := body w in
  w_now w ≤ w_now w' ∧
  ((w_calls w' = w_calls w ∧ r ≠ Ok None) ∨
   ∃ at_, w_calls w' = w_calls w ++ [(at_, query (s_Intent (w_inner w)))] ∧
     w_now w ≤ at_ < t_ns until ∧
     (r = Ok None → at_ + pollInterval env ≤ w_now w' ∧ w_inner w' = w_inner w)).

Lemma wait_after (w : World) :
  let '(r, w') := waitWithCtx env (pollInterval env) w in
  w_now w ≤ w_now w' ∧ w_calls w' = w_calls w ∧ w_inner w' = w_inner w ∧
  (r = Ok tt → w_now w + pollInterval env ≤ w_now w').
Proof.
  unfold waitWithCtx. pose proof pollInterval_pos as H. unfold millisecond in H.
  pose proof (tick_nonneg env Henv (w_step w)) as T.
  destruct (_ <=? 0) eqn:E; zb; [lia|]. destruct (_ && _); cbn; split_all; try done; try lia.
Qed.

Lemma now_mono {A} (m : M A) (w : World) : evolves w (m w).2 → w_now w ≤ w_now (m w).2.
Proof. by intros [? _ _]. Qed.

Lemma transition_mono to ty attrs (w : World) : w_now w ≤ w_now (transition env to ty attrs w).2.
Proof.
  unfold transition, persist_swap, wrapped, mbind, m_bind, inner, swap, emit, store_call.
  destruct (negb _); [cbn; lia|]. rewrite now_spec.
  pose proof (tick_nonneg env Henv (w_step w)) as T1.
  pose proof (tick_nonneg env Henv (S (w_step w))) as T2.
  destruct (ss_transition _ _ _ _ _) as [[[u|e] n] st]; cbn; lia.
Qed.

Lemma discovered_polite pv until : polite until calendar_query (discovered_pass env pv until).
Proof.
  intros w. unfold discovered_pass, mbind, m_bind, inner, ctx_Err.
  pose proof (tick_nonneg env Henv (w_step w)) as T1.
  pose proof (tick_nonneg env Henv (S (w_step w))) as T2.
  pose proof (tick_nonneg env Henv (S (S (w_step w)))) as T3.
  destruct (en_done env (w_step w)).
  { unfold fail. split; [cbn; lia|]. by left. }
  rewrite now_spec. set (w2 := tick env (tick env w)).
  assert (N2 : w_now w ≤ w_now w2) by (cbn; lia).
  assert (C2 : w_calls w2 = w_calls w) by done. assert (I2 : w_inner w2 = w_inner w) by done.
  destruct (time_before _ until) eqn:Eb; cbn [negb].
  2: { pose proof (transition_mono StatusFailed EventFailed [("reason",
         VString "discovered_window_expired"); ("probe_until", VTime until)] w2) as N.
       pose proof (transition_calls StatusFailed EventFailed [("reason",
         VString "discovered_window_expired"); ("probe_until", VTime until)] w2) as C.
       destruct (transition _ _ _ _ w2) as [[u|e] w']; cbn [snd] in *;
         (split; [lia|left]); split; [congruence|done|congruence|done]. }
  unfold time_before in Eb. cbn [t_ns] in Eb. zb. unfold wrapped, provider_call.
  set (w3 := tick env (add_call _ w2)).
  assert (N3 : w_now w2 ≤ w_now w3) by (cbn; lia).
  assert (C3 : w_calls w3 = w_calls w ++ [(w_now w2, calendar_query (s_Intent (w_inner w)))]) by done.
  assert (I3 : w_inner w3 = w_inner w) by done.
  destruct (pv_Calendar _ _ _ _) as [cal|e].
  2: { split; [lia|]. right. exists (w_now w2). split; [exact C3|]. split; [lia|done]. }
  destruct (calendarContainsAvailable _ _).
  - rewrite now_spec. set (n := mkTime _ _). pose proof (idle_now _ _ (idle_tick w3)) as N4.
    pose proof (recordObserved_calls (s_Intent (w_inner w)) n (tick env w3)) as C4.
    pose proof (quiet_recordObserved env Henv (s_Intent (w_inner w)) n (tick env w3)) as (_ & _ & N5 & _).
    unfold attempt. destruct (recordObserved _ _ _ _) as [r5 w5]. cbn [snd] in *.
    set (attrs := [_; _]). pose proof (transition_mono StatusAwaiting EventReleased attrs w5) as N.
    pose proof (transition_calls StatusAwaiting EventReleased attrs w5) as C.
    destruct (transition _ _ _ _ w5) as [[u|e] w']; cbn [snd] in *;
      (split; [lia|right; exists (w_now w2)]);
      (split; [etrans; [exact C|]; etrans; [exact C4|exact C3]|split; [lia|done]]).
  - pose proof (wait_after w3) as Hw. destruct (waitWithCtx _ _ w3) as [[[]|e] w'];
      destruct Hw as (N & C & I & Hp); (split; [lia|right; exists (w_now w2)]);
      (split; [etrans; [exact C|exact C3]|split; [lia|]]); [|done].
    intros _. specialize (Hp eq_refl). split; [lia|congruence].
Qed.

Lemma continuous_polite pv until : polite until find_query (continuous_pass env pv until).
Proof.
  intros w. unfold continuous_pass, mbind, m_bind, inner, ctx_Err.
  pose proof (tick_nonneg env Henv (w_step w)) as T1.
  pose proof (tick_nonneg env Henv (S (w_step w))) as T2.
  pose proof (tick_nonneg env Henv (S (S (w_step w)))) as T3.
  destruct (en_done env (w_step w)).
  { unfold fail. split; [cbn; lia|]. by left. }
  rewrite now_spec. set (w2 := tick env (tick env w)).
  assert (N2 : w_now w ≤ w_now w2) by (cbn; lia).
  assert (C2 : w_calls w2 = w_calls w) by done.
  destruct (time_before _ until) eqn:Eb; cbn [negb].
  2: { set (attrs := [_; _]). pose proof (transition_mono StatusExpired EventExpired attrs w2) as N.
       pose proof (transition_calls StatusExpired EventExpired attrs w2) as C.
       destruct (transition _ _ _ _ w2) as [[u|e] w']; cbn [snd] in *;
         (split; [lia|left]); split; [congruence|done|congruence|done]. }
  unfold time_before in Eb. cbn [t_ns] in Eb. zb. unfold attempt, provider_call.
  set (w3 := tick env (add_call _ w2)).
  assert (N3 : w_now w2 ≤ w_now w3) by (cbn; lia).
  assert (C3 : w_calls w3 = w_calls w ++ [(w_now w2, find_query (s_Intent (w_inner w)))]) by done.
  assert (I3 : w_inner w3 = w_inner w) by done.
  assert (Hwait : let '(r, w') := match waitWithCtx env (pollInterval env) w3 with
      | (Ok _, w') => (mret None : M (option unit)) w' | (Err e, w') => (Err e, w') end in
    w_now w ≤ w_now w' ∧ (w_calls w' = w_calls w ∧ r ≠ Ok None ∨
    ∃ at_, w_calls w' = w_calls w ++ [(at_, find_query (s_Intent (w_inner w)))] ∧
     w_now w ≤ at_ < t_ns until ∧
     (r = Ok None → at_ + pollInterval env ≤ w_now w' ∧ w_inner w' = w_inner w))).
  { pose proof (wait_after w3) as Hw. destruct (waitWithCtx _ _ w3) as [[[]|e] w'];
      destruct Hw as (N & C & I & Hp); (split; [lia|right; exists (w_now w2)]);
      (split; [etrans; [exact C|exact C3]|split; [lia|]]); [|done].
    intros _. specialize (Hp eq_refl). split; [lia|congruence]. }
  destruct (pv_Find _ _ _) as [[|sl slots]|e].
  - exact Hwait.
  - set (attrs := [_; _]). pose proof (transition_mono StatusAwaiting EventFound attrs w3) as N.
    pose proof (transition_calls StatusAwaiting EventFound attrs w3) as C.
    destruct (transition _ _ _ _ w3) as [[u|e] w']; cbn [snd] in *;
      (split; [lia|right; exists (w_now w2)]);
      (split; [etrans; [exact C|exact C3]|split; [lia|done]]).
  - destruct (errors_is _ _); [exact Hwait|]. unfold fail.
    split; [lia|right; exists (w_now w2)]. split; [exact C3|split; [lia|done]].
Qed.

(** Calls at least the polling interval apart. *)
Definition spaced (cs : list (Z * Call)) : Prop :=
  StronglySorted (λ a b, a.1 + pollInterval env ≤ b.1) cs.

Lemma one_call (P : Z * Call → Prop) (cs : list (Z * Call)) c :
  P c → ∃ cs', cs ++ [c] = cs ++ cs' ∧ spaced cs' ∧ Forall P cs'.
Proof.
  intros H. exists [c]. split; [done|]. split; [repeat constructor|].
  apply Forall_cons. by split; [|constructor].
Qed.
Lemma loop_calls until query body f (w : World) r w' :
  polite until query body → loop f body w = Some (r, w') →
  ∃ cs, w_calls w' = w_calls w ++ cs ∧ spaced cs ∧
    Forall (λ c, w_now w ≤ c.1 < t_ns until ∧ c.2 = query (s_Intent (w_inner w))) cs.
Proof.
  intros Hp. revert w. induction f as [|f IH]; intros w; cbn [loop]; [done|].
  specialize (Hp w). destruct (body w) as [[[u|]|e] w1]; destruct Hp as [Hn Hc].
  - intros [= <- <-]. destruct Hc as [[-> _]|(at_ & -> & Ha & _)].
    + exists []. rewrite app_nil_r. split; [done|]. split; constructor.
    + by apply one_call.
  - destruct Hc as [[_ []]|(at_ & E1 & Ha & Hw)]; [done|]. specialize (Hw eq_refl) as [Hgap Hi].
    intros Hl. destruct (IH w1 Hl) as (cs & E2 & Hs & Hf). rewrite Hi in Hf.
    exists ((at_, query (s_Intent (w_inner w))) :: cs). split; [by rewrite E2, E1, <- app_assoc|].
    split.
    + constructor; [exact Hs|]. eapply Forall_impl; [exact Hf|]. cbn. intros; lia.
    + constructor; [done|]. eapply Forall_impl; [exact Hf|]. cbn. intros c [? ?]. split; [lia|done].
  - intros [= <- <-]. destruct Hc as [[-> _]|(at_ & -> & Ha & _)].
    + exists []. rewrite app_nil_r. split; [done|]. split; constructor.
    + by apply one_call.
Qed.

Lemma loop_ends until query body f (w : World) :
  polite until query body →
  (f ≠ 0)%nat → t_ns until - w_now w < (Z.of_nat f - 1) * pollInterval env →
  is_Some (loop f body w).
Proof.
  intros Hp. pose proof pollInterval_pos as P. unfold millisecond in P.
  revert w. induction f as [|f IH]; intros w Hf Hlt; [done|]. cbn [loop].
  specialize (Hp w). destruct (body w) as [[[u|]|e] w1]; [done| |done]. destruct Hp as [Hn Hc].
  destruct Hc as [[_ []]|(at_ & E1 & Ha & Hw)]; [done|]. specialize (Hw eq_refl) as [Hgap Hi].
  apply IH; [|nia]. intros ->. lia.
Qed.
Lemma fuel_enough until (w : World) f :
  (fuel_for env until w ≤ f)%nat →
  (f ≠ 0)%nat ∧ t_ns until - w_now w < (Z.of_nat f - 1) * pollInterval env.
Proof.
  unfold fuel_for. intros H. pose proof pollInterval_pos as P. unfold millisecond in P.
  split; [lia|]. pose proof (Z.mul_succ_div_gt (t_ns until - w_now w) (pollInterval env) ltac:(lia)).
  nia.
Qed.
Lemma loop_more f g body (w : World) x :
  loop f body w = Some x → (f ≤ g)%nat → loop g body w = Some x.
Proof.
  revert g w. induction f as [|f IH]; intros g w; [done|]. destruct g as [|g]; [lia|]. cbn [loop].
  destruct (body w) as [[[u|]|e] w1]; [done| |done]. intros Hl Hle. apply IH; [done|lia].
Qed.
Lemma loop_run until query body (w : World) f :
  polite until query body → (fuel_for env until w ≤ f)%nat →
  loop f body w = Some (run_loop env until body w).
Proof.
  intros Hp Hf. unfold run_loop.
  destruct (fuel_enough until w (fuel_for env until w)) as [H0 Hlt]; [done|].
  destruct (loop_ends until query body _ w Hp H0 Hlt) as [x Hx]. rewrite Hx.
  by eapply loop_more.
Qed.

(** C37. The polling loops end: with any fuel from [fuel_for] on, which
    counts the polling intervals left in the window, both loops return, and
    with the same result.  (Every pass that goes round again has waited a
    full interval, of 100 ms at the least.) *)
Theorem loops_end pv until (w : World) f :
  (fuel_for env until w ≤ f)%nat →
  loop f (discovered_pass env pv until) w = Some (run_loop env until (discovered_pass env pv until) w) ∧
  loop f (continuous_pass env pv until) w = Some (run_loop env until (continuous_pass env pv until) w).
Proof.
  intros Hf. split; (eapply loop_run; [|done]); [apply discovered_polite|apply continuous_polite].
Qed.

(** A provider call made for an intent: the strategy's query, inside its
    window. *)
Definition asked (i : Intent) (c : Z * Call) : Prop :=
  match i_Release i with
  | Some (DiscoveredRelease from until) => c.2 = calendar_query i ∧ t_ns from ≤ c.1 < t_ns until
  | Some (ContinuousRelease until) => c.2 = find_query i ∧ c.1 < t_ns until
  | _ => False
  end.
(** The probe start is within a [Duration] of the present. *)
Definition near (i : Intent) (now_ : Z) : Prop :=
  match i_Release i with
  | Some (DiscoveredRelease from _) => t_ns from - now_ ≤ max_int64
  | _ => True
  end.

Lemma transition_intent to ty attrs (w : World) :
  s_Intent (w_inner (transition env to ty attrs w).2) = s_Intent (w_inner w).
Proof.
  unfold transition, persist_swap, wrapped, mbind, m_bind, inner, store_call.
  destruct (negb _); [done|]. rewrite now_spec.
  by destruct (ss_transition _ _ _ _ _) as [[[u|e] n] st].
Qed.
Lemma advance_spec from until (w : World) :
  let w' := (advanceToDiscovering env from until w).2 in
  w_calls w' = w_calls w ∧ s_Intent (w_inner w') = s_Intent (w_inner w) ∧ w_now w ≤ w_now w'.
Proof.
  unfold advanceToDiscovering. unfold mbind, m_bind, inner. case_bool_decide; [cbn; split_all; done|].
  split; [apply transition_calls|]. split; [apply transition_intent|apply transition_mono].
Qed.
(** Waiting until an instant, or losing to the context. *)
Lemma wait_until from (w : World) :
  t_ns from - w_now w ≤ max_int64 →
  let delay := time_sub from (mkTime (w_now w) (en_loc env)) in
  let '(r, w') := (if 0 <? delay then waitWithCtx env delay else mret tt : M unit) w in
  w_calls w' = w_calls w ∧ w_inner w' = w_inner w ∧ w_now w ≤ w_now w' ∧
  (r = Ok tt → t_ns from ≤ w_now w').
Proof.
  intros Hm. cbn zeta. pose proof (tick_nonneg env Henv (w_step w)) as T.
  unfold time_sub, waitWithCtx. cbn [t_ns]. set (d := Z.max _ _).
  assert (Hd : t_ns from ≤ w_now w + d) by (unfold d; lia).
  destruct (0 <? d) eqn:E; zb.
  - destruct (d <=? 0) eqn:E2; zb; [lia|]. destruct (_ && _); cbn; split_all; try done; lia.
  - unfold mret, m_ret. split_all; try done; lia.
Qed.

Lemma runDiscovered_calls pv from until (w : World) :
  t_ns from - w_now w ≤ max_int64 →
  ∃ cs, w_calls (runDiscoveredRelease env pv from until w).2 = w_calls w ++ cs ∧ spaced cs ∧
    Forall (λ c, c.2 = calendar_query (s_Intent (w_inner w)) ∧ t_ns from ≤ c.1 < t_ns until) cs.
Proof.
  intros Hm. assert (Hnone : ∀ w' : World, w_calls w' = w_calls w → ∃ cs, w_calls w' = w_calls w ++ cs ∧
    spaced cs ∧ Forall (λ c, c.2 = calendar_query (s_Intent (w_inner w)) ∧ t_ns from ≤ c.1 < t_ns until) cs).
  { intros w' ->. exists []. rewrite app_nil_r. split; [done|]. split; constructor. }
  unfold runDiscoveredRelease. destruct (_ || _); [by apply Hnone|].
  destruct (negb _); [by apply Hnone|]. unfold mbind at 1, m_bind at 1.
  pose proof (advance_spec from until w) as (C1 & I1 & N1).
  destruct (advanceToDiscovering env from until w) as [[u|e] w1]; cbn [snd] in *; [|by apply Hnone].
  unfold mbind, m_bind. rewrite now_spec. pose proof (idle_now _ _ (idle_tick w1)) as N2.
  pose proof (wait_until from (tick env w1) ltac:(lia)) as Hw. cbn zeta in Hw.
  match type of Hw with match ?x with _ => _ end => destruct x as [[[]|e] w3] end;
    destruct Hw as (C3 & I3 & N3 & Hf); [|apply Hnone; etrans; [exact C3|exact C1]].
  specialize (Hf eq_refl).
  pose proof (loop_run until calendar_query (discovered_pass env pv until) w3 _
                (discovered_polite pv until) (le_n _)) as Hl.
  destruct (run_loop _ _ _ w3) as [r w'].
  destruct (loop_calls until calendar_query _ _ _ _ _ (discovered_polite pv until) Hl)
    as (cs & E & Hs & Hc). exists cs. cbn [snd].
  split; [by rewrite E, C3, <- C1|]. split; [done|].
  eapply Forall_impl; [exact Hc|]. cbn. intros c [Hc1 ->]. rewrite I3. cbn. rewrite I1.
  split; [done|lia].
Qed.

Lemma runStrategy_calls (w : World) :
  near (s_Intent (w_inner w)) (w_now w) →
  ∃ cs, w_calls (runStrategy env w).2 = w_calls w ++ cs ∧ spaced cs ∧
    Forall (asked (s_Intent (w_inner w))) cs.
Proof.
  intros Hm. assert (Hnone : ∀ w' : World, w_calls w' = w_calls w → ∃ cs, w_calls w' = w_calls w ++ cs ∧
    spaced cs ∧ Forall (asked (s_Intent (w_inner w))) cs).
  { intros w' ->. exists []. rewrite app_nil_r. split; [done|]. split; constructor. }
  unfold runStrategy. unfold mbind at 1, m_bind at 1, inner. unfold near in Hm.
  destruct (i_Release (s_Intent (w_inner w))) as [[t|from until|until]|] eqn:Er; [| | |by apply Hnone].
  - apply Hnone. apply transition_calls.
  - destruct (en_provider env) as [pv|]; [|by apply Hnone].
    destruct (runDiscovered_calls pv from until w Hm) as (cs & E & Hs & Hc).
    exists cs. split; [done|]. split; [done|]. eapply Forall_impl; [exact Hc|].
    cbn. intros c H. unfold asked. by rewrite Er.
  - destruct (en_provider env) as [pv|]; [|by apply Hnone].
    unfold runContinuousRelease. destruct (is_zero_time until); [by apply Hnone|].
    pose proof (loop_run until find_query (continuous_pass env pv until) w _
                  (continuous_polite pv until) (le_n _)) as Hl.
    destruct (run_loop _ _ _ w) as [r w'].
    destruct (loop_calls until find_query _ _ _ _ _ (continuous_polite pv until) Hl)
      as (cs & E & Hs & Hc). exists cs. split; [done|]. split; [done|].
    eapply Forall_impl; [exact Hc|]. cbn. intros c [? ?]. unfold asked. rewrite Er. split; [done|lia].
Qed.

(** C8. The provider is treated politely whatever happens: an explicit
    release never calls it, a discovered one asks only for the calendar of
    the target day between the probe times, a continuous one only for the
    slots of the target before its end, and any two calls are at least the
    polling interval apart. *)
Theorem Run_polls id s (w : World) :
  ss_wf (w_store w) → lo_ns ≤ w_now w →
  ss_row (w_store w) id = Some s → good (with_loaded s w) → near (s_Intent s) (w_now w) →
  ∃ cs, w_calls (Run env id w).2 = w_calls w ++ cs ∧ spaced cs ∧ Forall (asked (s_Intent s)) cs.
Proof.
  intros Hwf Hlo Hrow Hg Hm. rewrite Run_split. pose proof (Load_spec env id w Hwf) as HL.
  pose proof (tick_nonneg env Henv (w_step w)).
  destruct (Load env id w) as [[s'|e] w1].
  2: { destruct HL as (_ & _ & E & _). exists []. rewrite app_nil_r. split; [done|]. split; constructor. }
  destruct HL as (E1 & E2 & C1 & E3 & Hrow' & Hid & E4). cbn in E3.
  assert (s' = s) as -> by congruence.
  assert (Hg1 : good w1) by (eapply good_same; [..|exact Hg]; cbn; [done|done|lia]).
  destruct (run_loaded_split id w1 (good_intent _ Hg1) ltac:(lia))
    as (a & [Na _ _] & Ca & Ia & _ & [[_ C]|(_ & v & Hv & [_ C] & _)]).
  - exists []. rewrite app_nil_r. split; [congruence|]. split; constructor.
  - pose proof (idle_now _ _ Hv) as Nv. pose proof (idle_inner _ _ Hv) as Iv.
    destruct (runStrategy_calls v) as (cs & E & Hs & Hc).
    { rewrite Iv, Ia, E4. unfold near in *. destruct (i_Release _) as [[]|]; try done. lia. }
    exists cs. rewrite C, E, (proj2 Hv), Ca, C1. split; [done|]. split; [done|].
    by rewrite Iv, Ia, E4 in Hc.
Qed.

(** ** What a loop that returns has found *)

Definition seen_available (pv : Provider) (i : Intent) : Prop :=
  ∃ k cal, pv_Calendar pv k (i_Venue i) (mkDateRange (i_Date i) (i_Date i) (i_PartySize i)) = Ok cal ∧
    calendarContainsAvailable cal (i_Date i) = true.
Definition seen_slots (pv : Provider) (i : Intent) : Prop :=
  ∃ k slots, pv_Find pv k (mkFindRequest (i_Venue i) (i_Date i) (i_PartySize i) [] None) = Ok slots ∧
    slots ≠ [].

Lemma transition_status to ty attrs (w w' : World) :
  transition env to ty attrs w = (Ok tt, w') → s_status (w_inner w') = to.
Proof.
  unfold transition, persist_swap, wrapped, mbind, m_bind, inner, swap, emit, store_call.
  destruct (negb _); [done|]. rewrite now_spec.
  destruct (ss_transition _ _ _ _ _) as [[[u|e] n] st]; [|done]. by intros [= <-].
Qed.
Lemma wait_inner d (w : World) : w_inner (waitWithCtx env d w).2 = w_inner w.
Proof. unfold waitWithCtx. destruct (_ <=? _); [done|]. by destruct (_ && _). Qed.

Lemma discovered_found pv until (w : World) o w' :
  discovered_pass env pv until w = (Ok o, w') →
  match o with
  | Some _ => (s_status (w_inner w') = StatusAwaiting ∧ seen_available pv (s_Intent (w_inner w))) ∨
              (s_status (w_inner w') = StatusFailed ∧ t_ns until ≤ w_now w')
  | None => w_inner w' = w_inner w
  end.
Proof.
  unfold discovered_pass, mbind, m_bind, inner, ctx_Err. destruct (en_done _ _); [done|].
  rewrite now_spec. set (w2 := tick env (tick env w)).
  assert (I2 : w_inner w2 = w_inner w) by done. destruct (time_before _ until) eqn:Eb; cbn [negb].
  2: { set (attrs := [_; _]). pose proof (transition_status StatusFailed EventFailed attrs w2) as H.
       pose proof (transition_mono StatusFailed EventFailed attrs w2) as N.
       destruct (transition _ _ _ _ w2) as [[[]|e] w3]; [|done]. intros [= <- <-].
       right. split; [by apply H|]. unfold time_before in Eb. cbn [t_ns snd] in *. zb. lia. }
  unfold wrapped, provider_call. set (w3 := tick env (add_call _ w2)).
  assert (I3 : w_inner w3 = w_inner w) by done. destruct (pv_Calendar _ _ _ _) as [cal|e] eqn:Ecal; [|done].
  destruct (calendarContainsAvailable _ _) eqn:Ea.
  - rewrite now_spec. unfold attempt. destruct (recordObserved _ _ _ _) as [r5 w5].
    set (attrs := [_; _]). pose proof (transition_status StatusAwaiting EventReleased attrs w5) as H.
    destruct (transition _ _ _ _ w5) as [[[]|e] w6]; [|done]. intros [= <- <-].
    left. split; [by apply H|]. by exists (w_step w2), cal.
  - pose proof (wait_inner (pollInterval env) w3) as H.
    destruct (waitWithCtx _ _ w3) as [[[]|e] w4]; [|done]. intros [= <- <-]. cbn [snd] in H. congruence.
Qed.
Lemma continuous_found pv until (w : World) o w' :
  continuous_pass env pv until w = (Ok o, w') →
  match o with
  | Some _ => (s_status (w_inner w') = StatusAwaiting ∧ seen_slots pv (s_Intent (w_inner w))) ∨
              (s_status (w_inner w') = StatusExpired ∧ t_ns until ≤ w_now w')
  | None => w_inner w' = w_inner w
  end.
Proof.
  unfold continuous_pass, mbind, m_bind, inner, ctx_Err. destruct (en_done _ _); [done|].
  rewrite now_spec. set (w2 := tick env (tick env w)).
  assert (I2 : w_inner w2 = w_inner w) by done. destruct (time_before _ until) eqn:Eb; cbn [negb].
  2: { set (attrs := [_; _]). pose proof (transition_status StatusExpired EventExpired attrs w2) as H.
       pose proof (transition_mono StatusExpired EventExpired attrs w2) as N.
       destruct (transition _ _ _ _ w2) as [[[]|e] w3]; [|done]. intros [= <- <-].
       right. split; [by apply H|]. unfold time_before in Eb. cbn [t_ns snd] in *. zb. lia. }
  unfold attempt, provider_call. set (w3 := tick env (add_call _ w2)).
  pose proof (wait_inner (pollInterval env) w3) as Hw. assert (I3 : w_inner w3 = w_inner w) by done.
  assert (Hwait : match waitWithCtx env (pollInterval env) w3 with
      | (Ok _, w') => (mret None : M (option unit)) w' | (Err e, w') => (Err e, w') end = (Ok o, w') →
      o = None ∧ w_inner w' = w_inner w).
  { destruct (waitWithCtx _ _ w3) as [[[]|e] w4]; [|done]. intros [= <- <-]. cbn [snd] in Hw.
    split; [done|congruence]. }
  destruct (pv_Find _ _ _) as [[|sl slots]|e] eqn:Ef.
  - intros H. by destruct (Hwait H) as [-> ?].
  - set (attrs := [_; _]). pose proof (transition_status StatusAwaiting EventFound attrs w3) as H.
    destruct (transition _ _ _ _ w3) as [[[]|e] w4]; [|done]. intros [= <- <-].
    left. split; [by apply H|]. exists (w_step w2), (sl :: slots). by split.
  - destruct (errors_is _ _); [|done]. intros H. by destruct (Hwait H) as [-> ?].
Qed.

Lemma loop_found (body : M (option unit)) (Q : Intent → World → Prop) f (w w' : World) :
  (∀ v o v', body v = (Ok o, v') →
     match o with Some _ => Q (s_Intent (w_inner v)) v' | None => w_inner v' = w_inner v end) →
  loop f body w = Some (Ok tt, w') → Q (s_Intent (w_inner w)) w'.
Proof.
  intros Hb. revert w. induction f as [|f IH]; intros w; cbn [loop]; [done|].
  specialize (Hb w). destruct (body w) as [[[u|]|e] w1]; [| |done].
  - intros [= <-]. by apply (Hb (Some u)).
  - intros H. rewrite <- (Hb None w1 eq_refl). by apply IH.
Qed.

(** A polling loop that returns without an error has decided the snipe:
    it is Awaiting, and the provider did answer with an available target day
    (or with slots), or the window is over and it is Failed (Expired for a
    continuous release). *)
Theorem loop_outcome pv until (w w' : World) :
  (run_loop env until (discovered_pass env pv until) w = (Ok tt, w') →
   (s_status (w_inner w') = StatusAwaiting ∧ seen_available pv (s_Intent (w_inner w))) ∨
   (s_status (w_inner w') = StatusFailed ∧ t_ns until ≤ w_now w')) ∧
  (run_loop env until (continuous_pass env pv until) w = (Ok tt, w') →
   (s_status (w_inner w') = StatusAwaiting ∧ seen_slots pv (s_Intent (w_inner w))) ∨
   (s_status (w_inner w') = StatusExpired ∧ t_ns until ≤ w_now w')).
Proof.
  split; intros H.
  - pose proof (loop_run until _ _ w _ (discovered_polite pv until) (le_n _)) as Hl. rewrite H in Hl.
    eapply (loop_found _ (λ i v, s_status (w_inner v) = StatusAwaiting ∧ seen_available pv i ∨
      s_status (w_inner v) = StatusFailed ∧ t_ns until ≤ w_now v)); [|exact Hl].
    apply discovered_found.
  - pose proof (loop_run until _ _ w _ (continuous_polite pv until) (le_n _)) as Hl. rewrite H in Hl.
    eapply (loop_found _ (λ i v, s_status (w_inner v) = StatusAwaiting ∧ seen_slots pv i ∨
      s_status (w_inner v) = StatusExpired ∧ t_ns until ≤ w_now v)); [|exact Hl].
    apply continuous_found.
Qed.

(** ** An undisturbed run *)

(** No statement fails and the context is not cancelled. *)
Definition calm : Prop := no_faults (en_faults env) ∧ ∀ k, en_done env k = false.

Lemma store_call_calm {A} (f : Faults → nat → St → res A * nat * St) (w : World) a :
  calm → (∀ n, (f (en_faults env) n (w_store w)).1.1 = Ok a) → (store_call env f w).1 = Ok a.
Proof.
  intros [_ Hd] H. unfold store_call. rewrite Hd. specialize (H (w_sql w)).
  by destruct (f _ (w_sql w) (w_store w)) as [[r n] st].
Qed.
Lemma persist_calm from to cand ev (w : World) :
  calm → snipe_storable cand → ss_wf (w_store w) → ss_row (w_store w) (s_ID cand) ≠ None →
  (persist_swap env from to cand ev w).1 = Ok tt.
Proof.
  intros Hc Hs Hw Hr. unfold persist_swap, wrapped, mbind, m_bind, swap, emit.
  pose proof (store_call_calm (ss_transition cand ev) w tt Hc) as H.
  rewrite (surjective_pairing (store_call env (ss_transition cand ev) w)), H; [done|].
  intros n. apply ss_transition_ok; try done. apply Hc.
Qed.
Lemma persist_now from to cand ev (w : World) :
  w_now (persist_swap env from to cand ev w).2 = w_now (tick env w).
Proof.
  unfold persist_swap, wrapped, mbind, m_bind, swap, emit, store_call.
  by destruct (ss_transition _ _ _ _ _) as [[[u|e] n] st].
Qed.
Lemma good_candidate (w : World) to sched t :
  good w → four_digit_year (t_ns sched) → four_digit_year (t_ns t) →
  snipe_storable (candidate (w_inner w) to sched t) ∧ ss_row (w_store w) (s_ID (w_inner w)) ≠ None.
Proof.
  intros [Gw Gs Gi (s' & Gr & _) Ge] Hs Ht. split; [by apply candidate_storable|congruence].
Qed.
Lemma transition_calm to ty attrs (w : World) :
  calm → good w → CanTransition (s_status (w_inner w)) to = true →
  w_now (transition env to ty attrs w).2 ≤ hi_ns → (transition env to ty attrs w).1 = Ok tt.
Proof.
  intros Hc Hg Hcan. unfold transition, mbind, m_bind, inner. rewrite Hcan. cbn [negb].
  rewrite now_spec, persist_now. intros Hh.
  pose proof (tick_nonneg env Henv (w_step w)). pose proof (tick_nonneg env Henv (S (w_step w))).
  destruct (good_candidate w to (s_ScheduledAt (w_inner w)) (mkTime (w_now (tick env w)) (en_loc env)) Hg)
    as [Hs Hr].
  - by destruct Hg as [_ (_ & _ & ? & _) _ _ _].
  - apply in_era_year. destruct Hg. split; cbn in *; lia.
  - apply persist_calm; [done|done|apply Hg|exact Hr].
Qed.
Lemma scheduled_calm t (w : World) :
  calm → good w → CanTransition (s_status (w_inner w)) StatusScheduled = true →
  four_digit_year (t_ns t) →
  w_now (transitionToScheduled env t w).2 ≤ hi_ns → (transitionToScheduled env t w).1 = Ok tt.
Proof.
  intros Hc Hg Hcan Hy. unfold transitionToScheduled, mbind, m_bind, inner. rewrite Hcan. cbn [negb].
  rewrite now_spec, persist_now. intros Hh.
  pose proof (tick_nonneg env Henv (w_step w)). pose proof (tick_nonneg env Henv (S (w_step w))).
  destruct (good_candidate w StatusScheduled t (mkTime (w_now (tick env w)) (en_loc env)) Hg Hy)
    as [Hs Hr].
  - apply in_era_year. destruct Hg. split; cbn in *; lia.
  - apply persist_calm; [done|done|apply Hg|exact Hr].
Qed.
Lemma waitAndFire_calm d (w : World) :
  calm → 0 ≤ d → ∃ v, idle w v ∧ (waitAndFire env d w).1 = (runStrategy env v).1 ∧
    idle (runStrategy env v).2 (waitAndFire env d w).2.
Proof.
  intros [_ Hd] Hpos. set (v := tick env (pass d (tick env w))). exists v. split.
  { eapply idle_trans; [apply idle_tick|]. eapply idle_trans; [by apply idle_pass|apply idle_tick]. }
  unfold waitAndFire, mbind, m_bind, wait_lost, after_timer, attempt, ctx_Err, fireRelease.
  rewrite Hd. cbn [andb]. rewrite Hd. change (tick env (pass d (tick env w))) with v.
  destruct (runStrategy env v) as [[[]|e] w1]; cbn beta iota; rewrite Hd; cbn [andb snd fst];
    (split; [done|apply idle_tick]).
Qed.
Lemma idle_good w v : idle w v → good w → w_now v ≤ hi_ns → good v.
Proof.
  intros [Hq _] Hg Hh. destruct (quiet_evolves _ _ Hq) as [_ _ Hm].
  by destruct (Hm Hg Hh) as (? & []).
Qed.

Lemma schedule_calm id t (w : World) :
  calm → good w → i_Release (s_Intent (w_inner w)) = Some (ExplicitRelease t) →
  s_status (w_inner w) = StatusSubmitted ∨ s_status (w_inner w) = StatusScheduled →
  let '(r, a) := schedule_part id (w_inner w) w in
  w_now a ≤ hi_ns → r = Ok tt ∧ s_status (w_inner a) = StatusScheduled.
Proof.
  intros Hc Hg Hr [Hs|Hs]; unfold schedule_part; rewrite Hs; cbn [bool_decide decide_rel]; [|done].
  unfold mbind, m_bind, wrapped, scheduledAtFromIntent. rewrite Hr.
  change (bool_decide (StatusSubmitted = StatusSubmitted)) with true. cbn iota. unfold mret, m_ret.
  pose proof (scheduled_calm t w Hc Hg ltac:(by rewrite Hs)) as H.
  pose proof (scheduled_step env Henv t w) as Hst.
  assert (Hy : four_digit_year (t_ns t)).
  { destruct Hg as [_ _ [_ Hi] _ _]. rewrite Hr in Hi. cbn in Hi. by apply Forall_cons in Hi as [? _]. }
  specialize (Hst (λ _, Hy)).
  destruct (transitionToScheduled env t w) as [r a]. cbn [fst snd] in *. destruct Hst as [_ Hst].
  assert (Hok : w_now a ≤ hi_ns → r = Ok tt) by (intros; by apply H).
  destruct r as [[]|e]; intros Hh; [|by specialize (Hok Hh)].
  split; [done|]. by destruct Hst as [[? _ _ _] _].
Qed.

Lemma Load_calm id s (w : World) :
  calm → ss_wf (w_store w) → ss_row (w_store w) id = Some s → (Load env id w).1 = Ok s.
Proof.
  intros Hc Hwf Hrow. unfold Load, wrapped, mbind, m_bind, swap.
  pose proof (store_call_calm (ss_get id) w s Hc) as H.
  rewrite (surjective_pairing (store_call env (ss_get id) w)), H; [done|].
  intros n. apply ss_get_ok; [done|done|apply Hc].
Qed.
(** Firing an explicit release from a Scheduled snipe. *)
Lemma fire_calm (a v : World) t :
  calm → (w_now a ≤ hi_ns → good a) → idle a v → i_Release (s_Intent (w_inner a)) = Some (ExplicitRelease t) →
  s_status (w_inner a) = StatusScheduled →
  w_now v ≤ w_now (runStrategy env v).2 ∧
  (w_now (runStrategy env v).2 ≤ hi_ns →
   (runStrategy env v).1 = Ok tt ∧ s_status (w_inner (runStrategy env v).2) = StatusAwaiting).
Proof.
  intros Hc Ga Hv Hrel Hsa. unfold runStrategy, mbind, m_bind, inner in *.
  rewrite (idle_inner _ _ Hv), Hrel in *. set (attrs := [_]) in *.
  pose proof (transition_mono StatusAwaiting EventReleased attrs v) as N.
  pose proof (transition_calm StatusAwaiting EventReleased attrs v Hc) as H1.
  pose proof (transition_status StatusAwaiting EventReleased attrs v) as H2.
  destruct (transition env _ _ attrs v) as [r v']. cbn [fst snd] in *. split; [done|]. intros Hh.
  assert (r = Ok tt) as ->; [|split; [done|by apply H2]].
  pose proof (idle_now _ _ Hv).
  apply H1; [eapply idle_good; [exact Hv|apply Ga; lia|lia]|by rewrite (idle_inner _ _ Hv), Hsa|done].
Qed.

(** C38. An explicit snipe that is Submitted or Scheduled, run with no
    statement failing and no cancellation, comes back without error and
    Awaiting, within the clock's range. *)
Theorem Run_explicit_fires id s t (w : World) :
  calm → ss_wf (w_store w) → lo_ns ≤ w_now w →
  ss_row (w_store w) id = Some s → good (with_loaded s w) →
  i_Release (s_Intent s) = Some (ExplicitRelease t) →
  s_status s = StatusSubmitted ∨ s_status s = StatusScheduled →
  let '(r, w') := Run env id w in
  w_now w' ≤ hi_ns → r = Ok tt ∧ s_status (w_inner w') = StatusAwaiting.
Proof.
  intros Hc Hwf Hlo Hrow Hg Hrel Hst. rewrite Run_split. pose proof (Load_spec env id w Hwf) as HL.
  pose proof (tick_nonneg env Henv (w_step w)). pose proof (Load_calm id s w Hc Hwf Hrow) as HLok.
  destruct (Load env id w) as [r0 w1]. cbn [fst] in HLok. subst r0.
  destruct HL as (E1 & E2 & _ & E3 & _ & Hid & E4). cbn in E3.
  assert (Hg1 : good w1) by (eapply good_same; [..|exact Hg]; cbn; [done|done|lia]).
  rewrite <- E4 in Hrel, Hst.
  pose proof (schedule_part_spec id w1 (good_intent _ Hg1) ltac:(lia)) as Hsp.
  pose proof (schedule_calm id t w1 Hc Hg1 Hrel Hst) as Hsc.
  rewrite run_loaded_eq. destruct (schedule_part id (w_inner w1) w1) as [ra a].
  destruct Hsp as ([Na _ Va] & _ & Ia & _). rewrite <- Ia in Hrel.
  destruct ra as [[]|e]; [|intros Hh; by destruct (Hsc Hh)].
  destruct (bool_decide (s_status (w_inner a) = StatusScheduled)) eqn:Hb; cbn [negb].
  2: { intros Hh. destruct (Hsc Hh) as [_ Hs']. by rewrite Hs' in Hb. }
  apply bool_decide_eq_true in Hb. cbn zeta. pose proof (idle_now _ _ (idle_tick a)) as Nt.
  assert (Ga : w_now a ≤ hi_ns → good a) by (intros Hha; by destruct (Va Hg1 Hha) as (? & [])).
  set (d := time_sub _ _). destruct (d <=? 0) eqn:Ed; zb.
  - destruct (fire_calm a (tick env a) t Hc Ga (idle_tick a) Hrel Hb) as [N H1].
    by destruct (runStrategy env (tick env a)).
  - destruct (waitAndFire_calm d (tick env a) Hc ltac:(lia)) as (v & Hv & Er & Hi').
    destruct (fire_calm a v t Hc Ga (idle_trans _ _ _ (idle_tick a) Hv) Hrel Hb) as [N H1].
    pose proof (idle_now _ _ Hi') as N'. pose proof (idle_inner _ _ Hi') as I'.
    destruct (waitAndFire env d (tick env a)) as [r w']. cbn [fst snd] in *. intros Hh.
    rewrite Er, I'. apply H1. lia.
Qed.
End Run.

(** ** Sample runs *)

#[local] Existing Instance store_laws.

Lemma sample_row s : ss_row db_sample "q1" = Some s → s = stored_sample.
Proof.
  intros Hs. assert (Some s = Some stored_sample) as [= ->]; [|done].
  rewrite <- Hs. vm_compute. reflexivity.
Qed.
Lemma Run_never_early_witness :
  Forall (λ n, n_To n = StatusScheduled ∨ t_ns drop_ny ≤ t_ns (e_At (n_Event n)))
    (added (world_on db_sample) (Run sample_env "q1" (world_on db_sample)).2).
Proof.
  pose proof (Run_never_early sample_env sample_env_ok "q1" (world_on db_sample)
                (good_wf _ good_sample) ltac:(by vm_compute)) as H.
  assert (Hn : w_now (Run sample_env "q1" (world_on db_sample)).2 <=? hi_ns = true)
    by (vm_compute; reflexivity).
  assert (Hs : s_ScheduledAt (w_inner (Run sample_env "q1" (world_on db_sample)).2) = to_utc drop_ny)
    by (vm_compute; reflexivity).
  destruct (Run _ _ _) as [r w']; cbn [fst snd] in *. rewrite Hs in H.
  apply H; [|by apply Z.leb_le|by vm_compute].
  intros s ->%sample_row. exact good_sample.
Defined.
Lemma Run_explicit_fires_witness :
  s_status (w_inner (Run sample_env "q1" (world_on db_sample)).2) = StatusAwaiting.
Proof.
  pose proof (Run_explicit_fires sample_env sample_env_ok "q1" stored_sample (to_utc drop_ny)
                (world_on db_sample) ltac:(by split) (good_wf _ good_sample) ltac:(by vm_compute)
                ltac:(vm_compute; reflexivity) good_sample eq_refl ltac:(by left)) as H.
  assert (Hn : w_now (Run sample_env "q1" (world_on db_sample)).2 <=? hi_ns = true)
    by (vm_compute; reflexivity).
  destruct (Run _ _ _) as [r w']; cbn [fst snd] in *. apply H. by apply Z.leb_le.
Defined.

(** A discovered snipe probed over one second; the day shows up some thirty
    steps in. *)
Definition probe_until : Time := utc (t_ns drop_ny + second).
Definition probe_intent : Intent :=
  mkIntent "user-1" (mkVenueRef "resy" "6194") (mkDate 2026 6 9) 2
    [mkSlotPreference (mkWallTime 18 0 0) "Dining Room"]
    (Some (DiscoveredRelease (to_utc drop_ny) probe_until)).
Definition probe_provider : Provider :=
  mkProvider (λ k ref _, Ok (mkCalendar ref [mkCalendarDay (mkDate 2026 6 9) (30 <=? k)%nat]))
    (λ _ _, Err Providers.ErrInventoryEmpty).
Definition probe_env : Env :=
  mkEnv ok_faults (λ _, millisecond) (λ _, false) false (λ _, true) UTC (Some probe_provider)
    defaultBookingPolicy.
Lemma probe_env_ok : env_ok probe_env.
Proof.
  split; [intros; cbn; unfold millisecond; lia|done|]. intros pv k req slots [= <-]. done.
Qed.
Definition probe_snipe : SnipeState := NewSnipeState "q1" probe_intent (to_utc drop_ny).
Definition db_probe : DB := db_of (CreateSnipe probe_snipe ok_faults 0%nat empty_db).
Definition probe_world : World DB :=
  mkWorld db_probe 0%nat 0%nat (t_ns drop_ny - 60 * second) probe_snipe [] [].
Lemma created_probe : CreateSnipe probe_snipe ok_faults 0%nat empty_db = (Ok tt, 1%nat, db_probe).
Proof. reflexivity. Qed.
Lemma sane_probe : sane_intent probe_intent.
Proof.
  split; [split; [reflexivity|]|]; repeat constructor; try (by vm_compute); cbv; congruence.
Qed.
Lemma probe_storable : snipe_storable probe_snipe.
Proof.
  split; [apply sane_probe|]. split; [done|]. split_all; vm_compute; split; congruence.
Qed.
Lemma good_probe : good probe_world.
Proof.
  apply good_stored; [|apply probe_storable|apply sane_probe|done|vm_compute; reflexivity|by vm_compute].
  eapply store_step_wf; [|exact db_wf_empty]. eapply step_create; [apply probe_storable|exact created_probe].
Qed.

Lemma Run_polls_witness :
  ∃ cs, w_calls (Run probe_env "q1" probe_world).2 = cs ∧ spaced probe_env cs ∧
    Forall (asked probe_intent) cs ∧ length cs = 6%nat.
Proof.
  destruct (Run_polls probe_env probe_env_ok "q1" probe_snipe probe_world (good_wf _ good_probe)
              ltac:(by vm_compute) ltac:(vm_compute; reflexivity) good_probe ltac:(by vm_compute))
    as (cs & E & Hs & Hf).
  exists cs. split; [exact E|]. split; [exact Hs|]. split; [exact Hf|].
  change cs with (w_calls probe_world ++ cs). rewrite <- E. vm_compute. reflexivity.
Defined.
(** In the window, once the snipe is Scheduled. *)
Definition window_world : World DB :=
  mkWorld db_probe 0%nat 0%nat (t_ns drop_ny) (with_status StatusScheduled probe_snipe) [] [].
Lemma loops_end_witness :
  is_Some (loop 12 (discovered_pass probe_env probe_provider probe_until) window_world).
Proof.
  destruct (loops_end probe_env probe_env_ok probe_provider probe_until window_world 12) as [E _];
    [vm_compute; lia|]. exact (mk_is_Some _ _ E).
Defined.
Lemma loop_outcome_witness :
  let w' := (run_loop probe_env probe_until
               (discovered_pass probe_env probe_provider probe_until) window_world).2 in
  (s_status (w_inner w') = StatusAwaiting ∧ seen_available probe_provider probe_intent) ∨
  (s_status (w_inner w') = StatusFailed ∧ t_ns probe_until ≤ w_now w').
Proof.
  intros w'. apply (loop_outcome probe_env probe_env_ok probe_provider probe_until window_world w').
  rewrite (surjective_pairing (run_loop _ _ _ _)). f_equal.
Defined.
