(* ===== verification/Race.v ===== *)
(** * [engine/race.go]: ranking the slots and racing the bookings

    The order in which slots are tried, the times hinted to Find, and the
    race itself: the loop that prepares slots one by one, the goroutine per
    prepared slot, the results channel and the two contexts, as a step
    relation in which the provider answers as it likes. *)

From S2P Require Import Prelude GoTime Types Status Slots Drop Json Hash.

(** ** Ranking *)

Definition slot_matches (s : Slot) (p : SlotPreference) : bool :=
  bool_decide (sp_Time p = sl_Time s) &&
  (str_eqb (sp_TableType p) "" || str_eqb (sp_TableType p) (sl_TableType s)).
(** The index of the first preference that matches, or [len(prefs)]. *)
Fixpoint priority (prefs : list SlotPreference) (s : Slot) : nat :=
  match prefs with
  | [] => 0
  | p :: prefs' => if slot_matches s p then 0 else S (priority prefs' s)
  end.
(** [sort.SliceStable] with a strict order on keys. *)
Fixpoint insert_stable (key : Slot → nat) (x : Slot) (l : list Slot) : list Slot :=
  match l with
  | [] => [x]
  | y :: l' => if (key y <? key x)%nat then y :: insert_stable key x l' else x :: y :: l'
  end.
Definition sort_stable (key : Slot → nat) (l : list Slot) : list Slot :=
  foldr (insert_stable key) [] l.
Definition rankSlotsByPreference (slots : list Slot) (prefs : list SlotPreference) : list Slot :=
  match prefs with [] => slots | _ => sort_stable (priority prefs) slots end.

(** The distinct times, in order of first mention. *)
Fixpoint times_from (seen : list WallTime) (prefs : list SlotPreference) : list WallTime :=
  match prefs with
  | [] => []
  | p :: prefs' =>
      if bool_decide (sp_Time p ∈ seen) then times_from seen prefs'
      else sp_Time p :: times_from (sp_Time p :: seen) prefs'
  end.
Definition slotPrefTimes (prefs : list SlotPreference) : list WallTime := times_from [] prefs.

(** ** The race *)

(** A goroutine: not yet calling [ConfirmSlot], inside it, holding its
    confirmation before the select, or past the send and about to cancel. *)
Inductive Stage := Started | Confirming | Confirmed (c : Confirmation) | Sent.
Record Attempt := mkAttempt { a_index : nat; a_slot : Slot; a_stage : Stage }.
(** The main goroutine: at the head of the loop, inside [PrepareSlot], in
    the pause, in [wg.Wait], or returned. *)
Inductive Phase :=
| AtSlot (i : nat) | Preparing (i : nat) | Pausing (i : nat) | Joining
| Blocked (e : error) | Finished (winner : option Confirmation).
Record RaceState := mkRace {
  r_phase : Phase;
  r_flight : list Attempt;
  r_results : list Confirmation;
  r_cancelled : bool;
  r_ctx_done : bool;
  r_prepares : list nat;
  r_posts : list (nat * string);
  r_booked : list Confirmation
}.
Definition race_init (done : bool) : RaceState := mkRace (AtSlot 0) [] [] false done [] [] [].

Section Steps.
Context (intentHash : string) (ranked : list Slot).

Definition blocking (e : error) : bool :=
  errors_is e Providers.ErrRateLimited || errors_is e Providers.ErrAntiBotChallenge.
(** [make(chan *Confirmation, len(ranked))]: nobody receives before the
    goroutines are joined, so a send waits for room in the buffer. *)
Definition results_capacity : nat := length ranked.
Definition booking_key (a : Attempt) : string :=
  IdempotencyKey intentHash (sl_Payload (a_slot a)) (Z.of_nat (a_index a) + 1).

Definition set_phase (p : Phase) (s : RaceState) : RaceState :=
  mkRace p (r_flight s) (r_results s) (r_cancelled s) (r_ctx_done s) (r_prepares s) (r_posts s) (r_booked s).
Definition set_flight (l : list Attempt) (s : RaceState) : RaceState :=
  mkRace (r_phase s) l (r_results s) (r_cancelled s) (r_ctx_done s) (r_prepares s) (r_posts s) (r_booked s).
Definition set_cancelled (s : RaceState) : RaceState :=
  mkRace (r_phase s) (r_flight s) (r_results s) true (r_ctx_done s) (r_prepares s) (r_posts s) (r_booked s).
Definition set_ctx_done (s : RaceState) : RaceState :=
  mkRace (r_phase s) (r_flight s) (r_results s) (r_cancelled s) true (r_prepares s) (r_posts s) (r_booked s).
Definition log_prepare (i : nat) (s : RaceState) : RaceState :=
  mkRace (r_phase s) (r_flight s) (r_results s) (r_cancelled s) (r_ctx_done s) (r_prepares s ++ [i])
    (r_posts s) (r_booked s).
Definition log_post (a : Attempt) (s : RaceState) : RaceState :=
  mkRace (r_phase s) (r_flight s) (r_results s) (r_cancelled s) (r_ctx_done s) (r_prepares s)
    (r_posts s ++ [(a_index a, booking_key a)]) (r_booked s).
Definition log_booked (c : Confirmation) (s : RaceState) : RaceState :=
  mkRace (r_phase s) (r_flight s) (r_results s) (r_cancelled s) (r_ctx_done s) (r_prepares s)
    (r_posts s) (r_booked s ++ [c]).
Definition push_result (c : Confirmation) (s : RaceState) : RaceState :=
  mkRace (r_phase s) (r_flight s) (r_results s ++ [c]) (r_cancelled s) (r_ctx_done s) (r_prepares s)
    (r_posts s) (r_booked s).
Definition at_stage (st : Stage) (a : Attempt) : Attempt := mkAttempt (a_index a) (a_slot a) st.

Inductive rstep : RaceState → RaceState → Prop :=
(** [ctx] is cancelled from outside. *)
| r_shutdown s : r_ctx_done s = false → rstep s (set_ctx_done s)
(** The loop: its end, the check at its head, and [PrepareSlot]. *)
| r_end s i : r_phase s = AtSlot i → (length ranked ≤ i)%nat → rstep s (set_phase Joining s)
| r_stop s i :
    r_phase s = AtSlot i → (i < length ranked)%nat → r_ctx_done s || r_cancelled s = true →
    rstep s (set_phase Joining s)
| r_prepare s i :
    r_phase s = AtSlot i → (i < length ranked)%nat → r_ctx_done s || r_cancelled s = false →
    rstep s (log_prepare i (set_phase (Preparing i) s))
| r_blocked s i e :
    r_phase s = Preparing i → blocking e = true →
    rstep s (set_cancelled (set_phase (Blocked e) s))
| r_failed s i e :
    r_phase s = Preparing i → blocking e = false → rstep s (set_phase (AtSlot (S i)) s)
| r_prepared s i slot :
    r_phase s = Preparing i →
    rstep s (set_flight (r_flight s ++ [mkAttempt i slot Started])
               (set_phase (if (S i <? length ranked)%nat then Pausing i else AtSlot (S i)) s))
| r_paused s i : r_phase s = Pausing i → rstep s (set_phase (AtSlot (S i)) s)
| r_pause_lost s i :
    r_phase s = Pausing i → r_ctx_done s = true → rstep s (set_phase Joining s)
(** A goroutine calls [ConfirmSlot], which succeeds or fails; it then sends
    if the buffer has room, and cancels, or finds the race over and drops its
    confirmation. *)
| r_post s l1 a l2 :
    r_flight s = l1 ++ a :: l2 → a_stage a = Started →
    rstep s (log_post a (set_flight (l1 ++ at_stage Confirming a :: l2) s))
| r_confirmed s l1 a l2 c :
    r_flight s = l1 ++ a :: l2 → a_stage a = Confirming →
    rstep s (log_booked c (set_flight (l1 ++ at_stage (Confirmed c) a :: l2) s))
| r_refused s l1 a l2 :
    r_flight s = l1 ++ a :: l2 → a_stage a = Confirming → rstep s (set_flight (l1 ++ l2) s)
| r_send s l1 a l2 c :
    r_flight s = l1 ++ a :: l2 → a_stage a = Confirmed c → (length (r_results s) < results_capacity)%nat →
    rstep s (push_result c (set_flight (l1 ++ at_stage Sent a :: l2) s))
| r_drop s l1 a l2 c :
    r_flight s = l1 ++ a :: l2 → a_stage a = Confirmed c → r_cancelled s = true →
    rstep s (set_flight (l1 ++ l2) s)
| r_cancel s l1 a l2 :
    r_flight s = l1 ++ a :: l2 → a_stage a = Sent → rstep s (set_cancelled (set_flight (l1 ++ l2) s))
(** [wg.Wait], [close] and the receive. *)
| r_join s :
    r_phase s = Joining → r_flight s = [] → rstep s (set_phase (Finished (head (r_results s))) s).

Definition reached (s : RaceState) : Prop := ∃ done, rtc rstep (race_init done) s.
End Steps.

(** ** Ranking: theorems *)

Lemma insert_stable_perm key x l : insert_stable key x l ≡ₚ x :: l.
Proof.
  induction l as [|y l IH]; [reflexivity|]. cbn [insert_stable]. destruct (key y <? key x)%nat; [|reflexivity].
  rewrite IH. apply Permutation_swap.
Qed.
Lemma sort_stable_perm key l : sort_stable key l ≡ₚ l.
Proof. induction l as [|x l IH]; [reflexivity|]. cbn. by rewrite insert_stable_perm, IH. Qed.
Lemma insert_stable_sorted key x l :
  StronglySorted (λ a b, key a ≤ key b)%nat l →
  StronglySorted (λ a b, key a ≤ key b)%nat (insert_stable key x l).
Proof.
  induction 1 as [|y l Hs IH Hf]; cbn [insert_stable]; [repeat constructor|].
  destruct (key y <? key x)%nat eqn:E; zb.
  - constructor; [done|]. rewrite insert_stable_perm. by constructor; [lia|].
  - constructor; [by constructor|]. constructor; [lia|].
    eapply Forall_impl; [exact Hf|]. cbn. lia.
Qed.
Lemma sort_stable_sorted key l : StronglySorted (λ a b, key a ≤ key b)%nat (sort_stable key l).
Proof. induction l as [|x l IH]; [constructor|]. by apply insert_stable_sorted. Qed.
Lemma insert_stable_filter key x l k :
  base.filter (λ s, key s = k) (insert_stable key x l) = base.filter (λ s, key s = k) (x :: l).
Proof.
  induction l as [|y l IH]; [done|]. cbn [insert_stable].
  destruct (key y <? key x)%nat eqn:E; zb; [|done].
  rewrite !filter_cons in *. rewrite IH.
  destruct (decide (key y = k)), (decide (key x = k)); try done. lia.
Qed.
Lemma sort_stable_filter key l k :
  base.filter (λ s, key s = k) (sort_stable key l) = base.filter (λ s, key s = k) l.
Proof.
  induction l as [|x l IH]; [done|]. cbn [sort_stable foldr].
  rewrite insert_stable_filter, !filter_cons. fold (sort_stable key l). by rewrite IH.
Qed.

(** The slots are tried in preference order: the ranking is a
    permutation of what Find answered, sorted by the first preference each
    slot matches, with unmatched slots last, and slots of equal rank keep
    the provider's order. *)
Theorem rank_spec slots prefs :
  let out := rankSlotsByPreference slots prefs in
  out ≡ₚ slots ∧ StronglySorted (λ a b, priority prefs a ≤ priority prefs b)%nat out ∧
  ∀ k, base.filter (λ s, priority prefs s = k) out = base.filter (λ s, priority prefs s = k) slots.
Proof.
  unfold rankSlotsByPreference. destruct prefs as [|p prefs]; cbn zeta.
  - split; [done|]. split; [|done]. induction slots; constructor; [done|].
    apply Forall_forall. cbn. lia.
  - split; [apply sort_stable_perm|]. split; [apply sort_stable_sorted|apply sort_stable_filter].
Qed.
(** The rank of a slot is the position of its first match. *)
Lemma priority_spec prefs s :
  match prefs !! priority prefs s with
  | Some p => slot_matches s p = true
  | None => priority prefs s = length prefs
  end ∧ ∀ i p, (i < priority prefs s)%nat → prefs !! i = Some p → slot_matches s p = false.
Proof.
  induction prefs as [|q prefs [IH1 IH2]]; cbn; [split; [done|lia]|].
  destruct (slot_matches s q) eqn:E; cbn; [split; [done|lia]|]. split.
  - destruct (prefs !! priority prefs s); [done|by f_equal].
  - intros [|i] p Hi; cbn; [by intros [= <-]|]. apply IH2. lia.
Qed.

Lemma times_from_spec seen prefs t :
  t ∈ times_from seen prefs ↔ t ∈ map sp_Time prefs ∧ t ∉ seen.
Proof.
  revert seen. induction prefs as [|p prefs IH]; intros seen; cbn; [set_solver|].
  case_bool_decide; rewrite ?elem_of_cons, IH; [set_solver|].
  destruct (decide (t = sp_Time p)); set_solver.
Qed.
Lemma times_from_nodup seen prefs : NoDup (times_from seen prefs).
Proof.
  revert seen. induction prefs as [|p prefs IH]; intros seen; cbn; [constructor|].
  case_bool_decide; [apply IH|]. constructor; [|apply IH]. rewrite times_from_spec. set_solver.
Qed.
Lemma times_from_sublist seen prefs : times_from seen prefs `sublist_of` map sp_Time prefs.
Proof.
  revert seen. induction prefs as [|p prefs IH]; intros seen; cbn; [constructor|].
  case_bool_decide; constructor; apply IH.
Qed.
(** The times hinted to Find are the preferences' own, each once, in the
    order they are first mentioned. *)
Lemma slotPrefTimes_spec prefs :
  NoDup (slotPrefTimes prefs) ∧ slotPrefTimes prefs `sublist_of` map sp_Time prefs ∧
  ∀ t, t ∈ slotPrefTimes prefs ↔ t ∈ map sp_Time prefs.
Proof.
  split; [apply times_from_nodup|]. split; [apply times_from_sublist|].
  intros t. unfold slotPrefTimes. rewrite times_from_spec. set_solver.
Qed.

(** ** The race: invariants *)

Section RaceProofs.
Context (intentHash : string) (ranked : list Slot).
Notation step := (rstep intentHash ranked).

Lemma reached_invariant (P : RaceState → Prop) :
  (∀ d, P (race_init d)) → (∀ s s', step s s' → P s → P s') →
  ∀ s, reached intentHash ranked s → P s.
Proof.
  intros H0 Hs s [d Hr]. assert (Hd := H0 d). revert Hd. induction Hr; [done|]. intros Hd. eauto.
Qed.

(** *** Bookings *)

Definition blocked (s : RaceState) : Prop := ∃ e, r_phase s = Blocked e.
Definition held (s : RaceState) (c : Confirmation) : Prop :=
  ∃ a, a ∈ r_flight s ∧ a_stage a = Confirmed c.
Record book_inv (s : RaceState) : Prop := {
  bi_booked : ∀ c, c ∈ r_results s ∨ held s c → c ∈ r_booked s;
  bi_sent : ∀ a, a ∈ r_flight s → a_stage a = Sent → r_results s ≠ [];
  bi_cancelled : r_cancelled s = true → r_results s ≠ [] ∨ blocked s;
  bi_kept : r_booked s ≠ [] → r_results s ≠ [] ∨ (∃ c, held s c) ∨ blocked s;
  bi_finished : ∀ w, r_phase s = Finished w → r_flight s = [] ∧ w = head (r_results s)
}.

Lemma held_middle s l1 a l2 a' c :
  r_flight s = l1 ++ a :: l2 →
  held (set_flight (l1 ++ a' :: l2) s) c → a_stage a' = Confirmed c ∨ held s c.
Proof.
  intros E (b & Hb & Hst). cbn in Hb. unfold held. rewrite E.
  rewrite elem_of_app, elem_of_cons in Hb. destruct Hb as [Hb|[->|Hb]]; [right|by left|right];
    exists b; (split; [|done]); rewrite elem_of_app, elem_of_cons; tauto.
Qed.
Lemma held_removed s l1 a l2 c :
  r_flight s = l1 ++ a :: l2 → held (set_flight (l1 ++ l2) s) c → held s c.
Proof.
  intros E (b & Hb & Hst). cbn in Hb. exists b. rewrite E. set_solver.
Qed.
Lemma held_other s l1 a l2 a' c :
  r_flight s = l1 ++ a :: l2 → a_stage a ≠ Confirmed c → held s c →
  held (set_flight (l1 ++ a' :: l2) s) c.
Proof.
  intros E Hne (b & Hb & Hst). rewrite E in Hb. exists b. cbn. split; [|done].
  rewrite elem_of_app, elem_of_cons in *. destruct Hb as [?|[->|?]]; [by left|done|by do 2 right].
Qed.

(** A step of the main goroutine that leaves the bookings alone. *)
Lemma book_inv_same s s' :
  r_flight s' = r_flight s → r_results s' = r_results s → r_booked s' = r_booked s →
  (r_cancelled s' = r_cancelled s ∧ (blocked s → blocked s') ∨ blocked s') →
  (∀ w, r_phase s' = Finished w → r_phase s = Finished w) →
  book_inv s → book_inv s'.
Proof.
  intros Ef Er Eb Hc Hw [Hb Hs Hcn Hk Hf].
  assert (Hh : ∀ c, held s' c ↔ held s c) by (intros c; unfold held; by rewrite Ef).
  split; rewrite ?Ef, ?Er, ?Eb.
  - intros c. rewrite Hh. apply Hb.
  - exact Hs.
  - destruct Hc as [[-> Hbl]|Hbl]; [|by right]. intros H. destruct (Hcn H); tauto.
  - intros H. destruct Hc as [[_ Hbl]|Hbl]; [|by do 2 right].
    destruct (Hk H) as [?|[(c & ?)|?]]; [by left|right; left|by do 2 right; apply Hbl].
    exists c. by apply Hh.
  - intros w H. apply Hf, Hw, H.
Qed.
(** A step of one goroutine, in place. *)
Lemma book_inv_moved s l1 a l2 a' :
  r_flight s = l1 ++ a :: l2 → (∀ c, a_stage a ≠ Confirmed c) → a_stage a ≠ Sent →
  a_stage a' = Confirming → book_inv s → book_inv (set_flight (l1 ++ a' :: l2) s).
Proof.
  intros E Hne Hns Ha' [Hb Hs Hc Hk Hf]. split; cbn [r_results r_booked r_cancelled r_phase set_flight].
  - intros c [H|H]; [by apply Hb; left|].
    destruct (held_middle _ _ _ _ _ _ E H); [congruence|]. by apply Hb; right.
  - intros b Hin Hb'. cbn in Hin. rewrite elem_of_app, elem_of_cons in Hin.
    destruct Hin as [?|[->|?]]; [|congruence|]; (eapply Hs; [|exact Hb']); rewrite E; set_solver.
  - exact Hc.
  - intros H. destruct (Hk H) as [?|[(c & ?)|?]]; [by left|right; left|by do 2 right].
    exists c. by eapply held_other.
  - intros w H. destruct (Hf w H) as [H' _]. rewrite E in H'. by destruct l1.
Qed.
Lemma not_finished s l1 a l2 w :
  book_inv s → r_flight s = l1 ++ a :: l2 → r_phase s = Finished w → False.
Proof. intros [_ _ _ _ Hf] E Hp. destruct (Hf w Hp) as [H _]. rewrite E in H. by destruct l1. Qed.

Lemma book_inv_append s a p :
  a_stage a = Started → (∀ e, r_phase s ≠ Blocked e) → (∀ w, p ≠ Finished w) → book_inv s →
  book_inv (set_flight (r_flight s ++ [a]) (set_phase p s)).
Proof.
  intros Ha Hph Hp [Hb Hs Hc Hk Hf].
  assert (Hh : ∀ c, held (set_flight (r_flight s ++ [a]) (set_phase p s)) c ↔ held s c).
  { intros c. unfold held. cbn. split; intros (b & Hin & Hst); exists b; (split; [|done]); [|set_solver].
    rewrite elem_of_app, list_elem_of_singleton in Hin. destruct Hin as [?| ->]; [done|congruence]. }
  split; cbn [r_results r_booked r_cancelled r_phase set_flight set_phase].
  - intros c. rewrite Hh. apply Hb.
  - intros b Hin Hst. cbn in Hin. rewrite elem_of_app, list_elem_of_singleton in Hin.
    destruct Hin as [?| ->]; [by eapply Hs|congruence].
  - intros H. destruct (Hc H) as [?|[e He]]; [by left|by destruct (Hph e)].
  - intros H. destruct (Hk H) as [?|[(c & ?)|[e He]]]; [by left|right; left|by destruct (Hph e)].
    exists c. by apply Hh.
  - intros w H. by destruct (Hp w).
Qed.
Lemma book_inv_removed s l1 a l2 :
  r_flight s = l1 ++ a :: l2 → ((∀ c, a_stage a ≠ Confirmed c) ∨ r_results s ≠ [] ∨ blocked s) →
  book_inv s → book_inv (set_flight (l1 ++ l2) s).
Proof.
  intros E Hne [Hb Hs Hc Hk Hf]. split; cbn [r_results r_booked r_cancelled r_phase set_flight].
  - intros c [H|H]; [by apply Hb; left|]. apply Hb. right. by eapply held_removed.
  - intros b Hin. apply Hs. rewrite E. cbn in Hin. set_solver.
  - exact Hc.
  - intros H. destruct (Hk H) as [?|[(c & b & Hin & Hst)|?]]; [by left| |by do 2 right].
    destruct Hne as [Hne|[?|?]]; [|by left|by do 2 right]. right; left. exists c, b. cbn.
    rewrite E, elem_of_app, elem_of_cons in Hin. rewrite elem_of_app.
    destruct Hin as [?|[->|?]]; [by split; [left|]|by destruct (Hne c)|by split; [right|]].
  - intros w H. destruct (Hf w H) as [H' _]. rewrite E in H'. by destruct l1.
Qed.

Lemma book_inv_step s s' : step s s' → book_inv s → book_inv s'.
Proof.
  intros Hstep Hi. pose proof Hi as [Hb Hs Hc Hk Hf].
  destruct Hstep as [s Hd|s i Hp Hl|s i Hp Hl Hd|s i Hp Hl Hd|s i e Hp He|s i e Hp He|s i sl Hp|s i Hp
    |s i Hp Hd|s l1 a l2 E Ha|s l1 a l2 c E Ha|s l1 a l2 E Ha|s l1 a l2 c E Ha Hcap|s l1 a l2 c E Ha Hcn
    |s l1 a l2 E Ha|s Hp E].
  all: try (eapply book_inv_same; [..|exact Hi]; try done;
    [left; split; [done|]; intros [e' He']; congruence]; fail).
  - eapply book_inv_same; [..|exact Hi]; try done. by left.
  - eapply book_inv_same; [..|exact Hi]; try done. right. by exists e.
  - apply book_inv_append; [done|congruence| |done]. intros w. by destruct (_ <? _)%nat.
  - by destruct (book_inv_moved s l1 a l2 (at_stage Confirming a) E ltac:(intros ?; congruence)
                   ltac:(congruence) eq_refl Hi).
  - assert (Hin : at_stage (Confirmed c) a ∈ l1 ++ at_stage (Confirmed c) a :: l2) by set_solver.
    split; cbn [r_results r_booked r_cancelled r_phase set_flight log_booked].
    + intros c' [H|H]; [apply elem_of_app; left; by apply Hb; left|].
      destruct (held_middle _ _ _ _ _ _ E H) as [[= <-]|?]; [set_solver|].
      apply elem_of_app; left. by apply Hb; right.
    + intros b Hb' Hst. cbn in Hb'. rewrite elem_of_app, elem_of_cons in Hb'.
      destruct Hb' as [?|[->|?]]; [|done|]; (eapply Hs; [|exact Hst]); rewrite E; set_solver.
    + exact Hc.
    + intros _. right; left. exists c, (at_stage (Confirmed c) a). by split.
    + intros w H. exfalso. by eapply not_finished.
  - apply (book_inv_removed s l1 a l2); [done|left; congruence|done].
  - split; cbn [r_results r_booked r_cancelled r_phase set_flight push_result].
    + intros c' [H|H].
      * apply elem_of_app in H as [H|H%list_elem_of_singleton]; [by apply Hb; left|subst].
        apply Hb. right. exists a. rewrite E. set_solver.
      * destruct (held_middle _ _ _ _ _ _ E H) as [?|?]; [done|]. by apply Hb; right.
    + intros _ _ _. by destruct (r_results s).
    + intros _. left. by destruct (r_results s).
    + intros _. left. by destruct (r_results s).
    + intros w H. exfalso. by eapply not_finished.
  - apply (book_inv_removed s l1 a l2); [done|right; by apply Hc|done].
  - assert (Hr : r_results s ≠ []) by (apply (Hs a); [rewrite E; set_solver|done]).
    destruct (book_inv_removed s l1 a l2 E) as [R1 R2 R3 R4 R5]; [by right; left|done|].
    split; cbn [r_results r_booked r_cancelled r_phase set_flight set_cancelled]; try done.
    by left.
  - split; cbn [r_results r_booked r_cancelled r_phase r_flight set_phase]; try done.
    + intros H. destruct (Hc H) as [?|[e He]]; [by left|congruence].
    + intros H. destruct (Hk H) as [?|[(c & b & Hin & _)|[e He]]]; [by left| |congruence].
      rewrite E in Hin. by apply elem_of_nil in Hin.
    + by intros w [= <-].
Qed.
Lemma reached_book s : reached intentHash ranked s → book_inv s.
Proof.
  apply reached_invariant; [|apply book_inv_step].
  intros d. split; cbn; try done.
  - intros c [H|(a & H & _)]; by apply elem_of_nil in H.
  - intros a H. by apply elem_of_nil in H.
Qed.

(** Nothing is reported that was not booked, and nothing twice. *)
Definition in_hand (s : RaceState) : list Confirmation :=
  omap (λ a, match a_stage a with Confirmed c => Some c | _ => None end) (r_flight s).
Lemma in_hand_middle s l1 a l2 a' :
  r_flight s = l1 ++ a :: l2 →
  in_hand s = omap (λ a, match a_stage a with Confirmed c => Some c | _ => None end) l1
    ++ match a_stage a with Confirmed c => [c] | _ => [] end
    ++ omap (λ a, match a_stage a with Confirmed c => Some c | _ => None end) l2 ∧
  in_hand (set_flight (l1 ++ a' :: l2) s) = omap (λ a, match a_stage a with Confirmed c => Some c | _ => None end) l1
    ++ match a_stage a' with Confirmed c => [c] | _ => [] end
    ++ omap (λ a, match a_stage a with Confirmed c => Some c | _ => None end) l2.
Proof. unfold in_hand. intros ->. cbn. rewrite !omap_app. cbn. by destruct (a_stage a), (a_stage a'). Qed.
Lemma in_hand_removed s l1 a l2 :
  r_flight s = l1 ++ a :: l2 → in_hand (set_flight (l1 ++ l2) s) ⊆+ in_hand s.
Proof.
  unfold in_hand. intros ->. cbn. rewrite !omap_app. cbn. apply submseteq_app; [done|].
  destruct (a_stage a); try done. by apply submseteq_cons.
Qed.
Definition accounted (s : RaceState) : Prop := r_results s ++ in_hand s ⊆+ r_booked s.
Lemma accounted_step s s' : step s s' → accounted s → accounted s'.
Proof.
  unfold accounted. intros Hstep Hi.
  destruct Hstep as [s Hd|s i Hp Hl|s i Hp Hl Hd|s i Hp Hl Hd|s i e Hp He|s i e Hp He|s i sl Hp|s i Hp
    |s i Hp Hd|s l1 a l2 E Ha|s l1 a l2 c E Ha|s l1 a l2 E Ha|s l1 a l2 c E Ha Hcap|s l1 a l2 c E Ha Hcn
    |s l1 a l2 E Ha|s Hp E]; try exact Hi.
  - unfold in_hand in *. cbn. rewrite omap_app. cbn. by rewrite app_nil_r.
  - destruct (in_hand_middle s l1 a l2 (at_stage Confirming a) E) as [E1 E2]. rewrite Ha in E1. cbn [at_stage a_stage] in E2.
    change (r_results s ++ in_hand (set_flight (l1 ++ at_stage Confirming a :: l2) s) ⊆+ r_booked s). by rewrite E2, <- E1.
  - destruct (in_hand_middle s l1 a l2 (at_stage (Confirmed c) a) E) as [E1 E2]. rewrite Ha in E1. cbn [at_stage a_stage] in E2.
    change (r_results s ++ in_hand (set_flight (l1 ++ at_stage (Confirmed c) a :: l2) s) ⊆+ r_booked s ++ [c]).
    rewrite E2, E1 in *. cbn [app] in *. rewrite (Permutation_app_comm (r_booked s)). cbn.
    rewrite <- Permutation_middle, <- Permutation_middle. by apply submseteq_skip.
  - etrans; [|exact Hi]. apply submseteq_app; [done|]. by apply (in_hand_removed s l1 a l2).
  - destruct (in_hand_middle s l1 a l2 (at_stage Sent a) E) as [E1 E2]. rewrite Ha in E1. cbn [at_stage a_stage] in E2.
    change ((r_results s ++ [c]) ++ in_hand (set_flight (l1 ++ at_stage Sent a :: l2) s) ⊆+ r_booked s).
    rewrite E2, <- app_assoc, E1 in *. cbn [app] in *. by rewrite Permutation_middle.
  - etrans; [|exact Hi]. apply submseteq_app; [done|]. by apply (in_hand_removed s l1 a l2).
  - etrans; [|exact Hi]. apply submseteq_app; [done|]. by apply (in_hand_removed s l1 a l2).
Qed.

Lemma reached_accounted s : reached intentHash ranked s → accounted s.
Proof. apply reached_invariant; [|apply accounted_step]. intros d. unfold accounted. reflexivity. Qed.

(** C2. What a joined race reports.  It returns when every goroutine has
    exited; it returns a confirmation exactly when the provider confirmed at
    least one attempt, and that confirmation is the first one sent, one of
    those the provider gave.  It reports one at most: when several attempts
    were confirmed before the first send's cancellation reached them, the
    others are dropped or stay unread ([two_bookings]); none is sent that was
    not given, and none twice. *)
Theorem joined_race_reports s w :
  reached intentHash ranked s → r_phase s = Finished w →
  r_flight s = [] ∧ w = head (r_results s) ∧ (w = None ↔ r_booked s = []) ∧
  (∀ c, w = Some c → c ∈ r_booked s) ∧ r_results s ⊆+ r_booked s.
Proof.
  intros Hreach Hp. pose proof Hreach as [Hb _ _ Hk Hf]%reached_book. destruct (Hf w Hp) as [Hfl ->].
  pose proof (reached_accounted s Hreach) as Hacc.
  unfold accounted, in_hand in Hacc. rewrite Hfl, app_nil_r in Hacc.
  assert (Hin : ∀ c, head (r_results s) = Some c → c ∈ r_booked s).
  { intros c H. apply Hb. left. destruct (r_results s) as [|c' l]; [done|].
    injection H as ->. by left. }
  do 2 (split; [done|]). split; [|by split]. split; intros H.
  - destruct (r_booked s) as [|c l] eqn:E; [done|].
    destruct (Hk ltac:(done)) as [Hr|[(c' & a & Ha & _)|[e He]]]; [|rewrite Hfl in Ha; by apply elem_of_nil in Ha|congruence].
    by destruct (r_results s).
  - destruct (r_results s) as [|c l] eqn:E; [done|].
    specialize (Hin c eq_refl). rewrite H in Hin. by apply elem_of_nil in Hin.
Qed.

(** *** Slots and calls *)

Definition is_started (a : Attempt) : bool := match a_stage a with Started => true | _ => false end.
Definition unsent (a : Attempt) : bool := match a_stage a with Sent => false | _ => true end.
(** The attempts that have called [ConfirmSlot] or will. *)
Definition claimed (s : RaceState) : list nat :=
  map fst (r_posts s) ++ map a_index (List.filter is_started (r_flight s)).
(** Slots below [n] were given to [PrepareSlot]; those below the second
    bound have come back. *)
Definition returned (p : Phase) (n m : nat) : Prop :=
  match p with
  | AtSlot i => n = i ∧ m = i
  | Preparing i => n = S i ∧ m = i ∧ (i < length ranked)%nat
  | Pausing i => n = S i ∧ m = S i
  | _ => (m ≤ n)%nat
  end.
Record slot_inv (s : RaceState) : Prop := {
  si_bounds : ∃ n m, r_prepares s = seq 0 n ∧ (n ≤ length ranked)%nat ∧ returned (r_phase s) n m ∧
    (m ≤ n)%nat ∧ (∀ i, i ∈ claimed s → i < m)%nat ∧
    (length (r_results s) + length (List.filter unsent (r_flight s)) ≤ m)%nat;
  si_once : NoDup (claimed s);
  si_keys : ∀ i k, (i, k) ∈ r_posts s →
    ∃ payload, k = IdempotencyKey intentHash payload (Z.of_nat i + 1)
}.

Lemma filter_middle (f : Attempt → bool) l1 a l2 :
  List.filter f (l1 ++ a :: l2) = List.filter f l1 ++ (if f a then [a] else []) ++ List.filter f l2.
Proof. rewrite List.filter_app. cbn. by destruct (f a). Qed.

(** A main-goroutine step that keeps the goroutines. *)
Lemma slot_inv_main s s' :
  r_flight s' = r_flight s → r_results s' = r_results s → r_posts s' = r_posts s →
  (∀ n m, r_prepares s = seq 0 n → (n ≤ length ranked)%nat → (m ≤ n)%nat → returned (r_phase s) n m →
     ∃ n' m', r_prepares s' = seq 0 n' ∧ (n' ≤ length ranked)%nat ∧ (m ≤ m' ≤ n')%nat ∧
       returned (r_phase s') n' m') →
  slot_inv s → slot_inv s'.
Proof.
  intros Ef Er Ep Hb [(n & m & H1 & H2 & H3 & H4 & H5 & H6) Ho Hk].
  assert (Ec : claimed s' = claimed s) by (unfold claimed; by rewrite Ef, Ep).
  split; rewrite ?Ec, ?Ep; [|done|done]. destruct (Hb n m H1 H2 H4 H3) as (n' & m' & B1 & B2 & B3 & B4).
  exists n', m'. rewrite Ef, Er. split; [done|]. split; [done|]. split; [done|]. split; [lia|].
  split; [|lia]. intros i Hi. specialize (H5 i Hi). lia.
Qed.
(** A goroutine step: no new claim, no new room. *)
Lemma slot_inv_flight s l1 a l2 mid res cn bk :
  r_flight s = l1 ++ a :: l2 →
  (mid = [] ∨ ∃ a', mid = [a'] ∧ a_index a' = a_index a) →
  (∀ b, b ∈ mid → is_started b = false) → is_started a = false →
  (length res + length (List.filter unsent mid)
   ≤ length (r_results s) + length (List.filter unsent [a]))%nat →
  slot_inv s →
  slot_inv (mkRace (r_phase s) (l1 ++ mid ++ l2) res cn (r_ctx_done s) (r_prepares s) (r_posts s) bk).
Proof.
  intros E Hmid Hns Ha Hroom [(n & m & H1 & H2 & H3 & H4 & H5 & H6) Ho Hk].
  assert (Hf : List.filter is_started mid = []).
  { destruct Hmid as [->|(a' & -> & _)]; [done|]. cbn. by rewrite Hns by set_solver. }
  set (s' := mkRace _ _ _ _ _ _ _ _).
  assert (Ec : claimed s' = claimed s).
  { unfold claimed, s'. cbn. by rewrite E, filter_middle, Ha, !List.filter_app, Hf. }
  split; rewrite ?Ec; [|done|done]. exists n, m. split; [done|]. split; [done|]. split; [done|].
  split; [done|]. split; [done|]. cbn. rewrite E, filter_middle in H6.
  rewrite !List.filter_app, !length_app in *. cbn in Hroom. lia.
Qed.
Lemma slot_inv_post s l1 a l2 :
  r_flight s = l1 ++ a :: l2 → a_stage a = Started → slot_inv s →
  slot_inv (log_post intentHash a (set_flight (l1 ++ at_stage Confirming a :: l2) s)).
Proof.
  intros E Ha [(n & m & H1 & H2 & H3 & H4 & H5 & H6) Ho Hk].
  assert (Hst : is_started a = true) by (unfold is_started; by rewrite Ha).
  assert (Hun : unsent a = true) by (unfold unsent; by rewrite Ha).
  set (s' := log_post _ _ _). assert (Ec : claimed s' ≡ₚ claimed s).
  { unfold claimed, s'. cbn. rewrite E, !filter_middle, Hst, map_app, !map_app. cbn.
    rewrite <- app_assoc. cbn. rewrite <- Permutation_middle.
    by rewrite <- !Permutation_middle. }
  split.
  - exists n, m. split; [done|]. split; [done|]. split; [done|]. split; [done|]. split.
    + intros i Hi. rewrite Ec in Hi. by apply H5.
    + cbn. rewrite E, filter_middle, Hun in H6. rewrite filter_middle.
      rewrite !length_app in *. cbn in *. exact H6.
  - by rewrite Ec.
  - cbn. intros i k Hin. rewrite elem_of_app, list_elem_of_singleton in Hin.
    destruct Hin as [?|[= -> ->]]; [by apply Hk|]. by eexists.
Qed.
Lemma slot_inv_prepared s i sl :
  r_phase s = Preparing i → slot_inv s →
  slot_inv (set_flight (r_flight s ++ [mkAttempt i sl Started])
    (set_phase (if (S i <? length ranked)%nat then Pausing i else AtSlot (S i)) s)).
Proof.
  intros Hp [(n & m & H1 & H2 & H3 & H4 & H5 & H6) Ho Hk]. rewrite Hp in H3.
  destruct H3 as (-> & -> & Hlt). set (s' := set_flight _ _).
  assert (Ec : claimed s' = claimed s ++ [i]).
  { unfold claimed, s'. cbn. by rewrite List.filter_app, map_app, app_assoc. }
  split; [|rewrite Ec|done].
  - exists (S i), (S i). split; [done|]. split; [done|]. split.
    + unfold s'. cbn [r_phase set_flight set_phase]. by destruct (S i <? length ranked)%nat.
    + split; [done|]. split.
      * intros j. rewrite Ec, elem_of_app, list_elem_of_singleton.
        intros [Hj|Hj]; [specialize (H5 j Hj)|]; lia.
      * cbn. rewrite List.filter_app, length_app. cbn. lia.
  - apply NoDup_app. split; [done|]. split; [|apply NoDup_singleton].
    intros j Hj Hj2%list_elem_of_singleton. specialize (H5 j Hj). lia.
Qed.

Lemma slot_inv_step s s' : step s s' → slot_inv s → slot_inv s'.
Proof.
  intros Hstep Hi.
  destruct Hstep as [s Hd|s i Hp Hl|s i Hp Hl Hd|s i Hp Hl Hd|s i e Hp He|s i e Hp He|s i sl Hp|s i Hp
    |s i Hp Hd|s l1 a l2 E Ha|s l1 a l2 c E Ha|s l1 a l2 E Ha|s l1 a l2 c E Ha Hcap|s l1 a l2 c E Ha Hcn
    |s l1 a l2 E Ha|s Hp E].
  7: by apply slot_inv_prepared.
  9: by apply slot_inv_post.
  1-8, 14: eapply slot_inv_main; [..|exact Hi]; try done; intros n m H1 H2 H3; rewrite ?Hp; cbn;
    intros H4.
  1-9: first
    [ exists n, m; split; [done|]; split; [done|]; split; [lia|done || lia || exact H4]
    | destruct H4 as (-> & ->); exists (S i), i; split; [by rewrite H1, seq_S|];
      split; [lia|]; split; [lia|done]
    | destruct H4 as (-> & -> & ?); exists (S i), (S i); split; [done|]; split; [done|]; split; [lia|done] ].
  all: assert (Hns : is_started a = false) by (unfold is_started; by rewrite Ha).
  - apply (slot_inv_flight s l1 a l2 [at_stage (Confirmed c) a] (r_results s)); try done.
    + right. by eexists.
    + by intros b ->%list_elem_of_singleton.
    + cbn. unfold unsent. rewrite Ha. done.
  - apply (slot_inv_flight s l1 a l2 [] (r_results s)); try done; [by left|by intros ? ?%elem_of_nil|].
    cbn. lia.
  - apply (slot_inv_flight s l1 a l2 [at_stage Sent a] (r_results s ++ [c])); try done.
    + right. by eexists.
    + by intros b ->%list_elem_of_singleton.
    + rewrite length_app. cbn. unfold unsent. rewrite Ha. cbn. lia.
  - apply (slot_inv_flight s l1 a l2 [] (r_results s)); try done; [by left|by intros ? ?%elem_of_nil|].
    cbn. lia.
  - apply (slot_inv_flight s l1 a l2 [] (r_results s)); try done; [by left|by intros ? ?%elem_of_nil|].
    cbn. lia.
Qed.
Lemma reached_slots s : reached intentHash ranked s → slot_inv s.
Proof.
  apply reached_invariant; [|apply slot_inv_step]. intros d. split; cbn.
  - exists 0%nat, 0%nat. split; [done|]. split; [lia|]. split; [done|]. split; [done|].
    split; [by intros i ?%elem_of_nil|]. cbn. lia.
  - constructor.
  - by intros i k ?%elem_of_nil.
Qed.

(** The race is orderly: slots are prepared one at a time in rank order
    and none twice, each prepared slot is confirmed at most once and under
    its own attempt's key, the results channel never holds more than it was
    made for (so no send blocks), and once the context is done or a winner
    has cancelled the race no further slot is prepared. *)
Theorem race_orderly s s' :
  reached intentHash ranked s → rstep intentHash ranked s s' →
  (∃ n, r_prepares s = seq 0 n ∧ (n ≤ length ranked)%nat) ∧
  NoDup (map fst (r_posts s)) ∧
  (∀ i k, (i, k) ∈ r_posts s → i ∈ r_prepares s ∧
     ∃ payload, k = IdempotencyKey intentHash payload (Z.of_nat i + 1)) ∧
  (length (r_results s) ≤ length ranked)%nat ∧
  (r_ctx_done s || r_cancelled s = true → r_prepares s' = r_prepares s).
Proof.
  intros [(n & m & H1 & H2 & H3 & H4 & H5 & H6) Ho Hk]%reached_slots Hstep.
  split; [by exists n|]. split; [by apply NoDup_app in Ho as [? _]|]. split.
  - intros i k Hin. split; [|by apply Hk]. rewrite H1. apply elem_of_seq.
    assert (Hc : i ∈ claimed s) by (apply elem_of_app; left; apply list_elem_of_fmap; by exists (i, k)).
    specialize (H5 i Hc). lia.
  - split; [lia|]. intros Hd. destruct Hstep; try done. congruence.
Qed.

(** *** Ending *)

Definition stage_cost (a : Attempt) : nat :=
  match a_stage a with Started => 4 | Confirming => 3 | Confirmed _ => 2 | Sent => 1 end.
Definition phase_cost (p : Phase) : nat :=
  match p with
  | AtSlot i => 7 * (length ranked - i) + 2
  | Preparing i => 7 * (length ranked - i) + 1
  | Pausing i => 7 * (length ranked - i - 1) + 3
  | Joining => 1
  | _ => 0
  end.
Definition cost (s : RaceState) : nat :=
  phase_cost (r_phase s) + list_sum (map stage_cost (r_flight s)) + (if r_ctx_done s then 0 else 1).

Lemma flight_cost s l1 a l2 mid :
  r_flight s = l1 ++ a :: l2 → (list_sum (map stage_cost mid) < stage_cost a)%nat →
  (list_sum (map stage_cost (l1 ++ mid ++ l2)) < list_sum (map stage_cost (r_flight s)))%nat.
Proof.
  intros -> H. rewrite !map_app, !list_sum_app. cbn [map].
  change (list_sum (stage_cost a :: map stage_cost l2)) with (stage_cost a + list_sum (map stage_cost l2))%nat.
  lia.
Qed.
Lemma cost_step s s' : step s s' → slot_inv s → (cost s' < cost s)%nat.
Proof.
  intros Hstep [(n & m & H1 & H2 & H3 & _) _ _].
  assert (Hgo : ∀ l1 a l2 mid (t : RaceState), r_flight s = l1 ++ a :: l2 →
    r_phase t = r_phase s → r_ctx_done t = r_ctx_done s → r_flight t = l1 ++ mid ++ l2 →
    (list_sum (map stage_cost mid) < stage_cost a)%nat → (cost t < cost s)%nat).
  { intros l1 a l2 mid t E Ep Ed Ef Hlt. unfold cost. rewrite Ep, Ed, Ef.
    pose proof (flight_cost s l1 a l2 mid E Hlt). lia. }
  destruct Hstep as [s Hd|s i Hp Hl|s i Hp Hl Hd|s i Hp Hl Hd|s i e Hp He|s i e Hp He|s i sl Hp|s i Hp
    |s i Hp Hd|s l1 a l2 E Ha|s l1 a l2 c E Ha|s l1 a l2 E Ha|s l1 a l2 c E Ha Hcap|s l1 a l2 c E Ha Hcn
    |s l1 a l2 E Ha|s Hp E].
  all: try (unfold cost; rewrite Hp in *; cbn [r_phase r_flight r_ctx_done set_phase set_flight
    set_cancelled log_prepare phase_cost returned] in *; lia).
  - unfold cost. rewrite Hd. cbn [set_ctx_done r_phase r_flight r_ctx_done]. lia.
  - unfold cost. rewrite Hp in *. cbn [r_phase r_flight r_ctx_done set_phase set_flight].
    destruct H3 as (_ & _ & Hlt). rewrite map_app, list_sum_app. cbn [map].
    change (list_sum [stage_cost (mkAttempt i sl Started)]) with 4%nat.
    destruct (S i <? length ranked)%nat eqn:El; zb; cbn [phase_cost]; lia.
  - apply (Hgo l1 a l2 [at_stage Confirming a]); try done. unfold stage_cost at 2. rewrite Ha. cbn. lia.
  - apply (Hgo l1 a l2 [at_stage (Confirmed c) a]); try done. unfold stage_cost at 2. rewrite Ha. cbn. lia.
  - apply (Hgo l1 a l2 []); try done. unfold stage_cost at 2. rewrite Ha. cbn. lia.
  - apply (Hgo l1 a l2 [at_stage Sent a]); try done. unfold stage_cost at 2. rewrite Ha. cbn. lia.
  - apply (Hgo l1 a l2 []); try done. unfold stage_cost at 2. rewrite Ha. cbn. lia.
  - apply (Hgo l1 a l2 []); try done. unfold stage_cost at 2. rewrite Ha. cbn. lia.
Qed.

(** Returned, with no goroutine left. *)
Definition over (s : RaceState) : Prop :=
  r_flight s = [] ∧ ((∃ w, r_phase s = Finished w) ∨ blocked s).
(** While an attempt holds a confirmation the buffer has room for it. *)
Lemma room_left s a c :
  slot_inv s → a ∈ r_flight s → a_stage a = Confirmed c → (length (r_results s) < results_capacity ranked)%nat.
Proof.
  intros [(n & m & _ & H2 & _ & H4 & _ & H6) _ _] Hin Ha. apply list_elem_of_split in Hin as (l1 & l2 & E).
  assert (Hun : unsent a = true) by (unfold unsent; by rewrite Ha).
  rewrite E, filter_middle, Hun, !length_app in H6. cbn in H6. unfold results_capacity. lia.
Qed.
Lemma can_step s : slot_inv s → over s ∨ ∃ s', step s s'.
Proof.
  intros Hi. destruct (r_flight s) as [|a l] eqn:E.
  - destruct (r_phase s) as [i|i|i| |e|w] eqn:Hp.
    + right. destruct (decide (i < length ranked)%nat); [|eexists; eapply r_end; [done|lia]].
      destruct (r_ctx_done s || r_cancelled s) eqn:Hd; eexists; [by eapply r_stop|by eapply r_prepare].
    + right. eexists. by apply (r_failed _ _ s i Providers.ErrSlotTaken).
    + right. eexists. by eapply r_paused.
    + right. eexists. by eapply r_join.
    + left. split; [done|]. right. by exists e.
    + left. split; [done|]. left. by exists w.
  - right. destruct (a_stage a) as [| |c|] eqn:Ha; eexists.
    + by apply (r_post _ _ s [] a l).
    + by apply (r_refused _ _ s [] a l).
    + apply (r_send _ _ s [] a l c); [done|done|]. apply (room_left s a c Hi); [|done]. rewrite E. by left.
    + by apply (r_cancel _ _ s [] a l).
Qed.

(** C39. The race always ends.  From its start no run takes more than
    [7 * len(ranked) + 3] steps, provider answers, sends and shutdown
    included, and as long as it is not over some goroutine can move.  A send
    waits for room in the results buffer, which is what a goroutine with a
    confirmation always finds, though nothing is received before the join;
    so the race deadlocks neither on the channel nor on the wait group. *)
Theorem race_ends done n s :
  nsteps (rstep intentHash ranked) n (race_init done) s →
  (n ≤ 7 * length ranked + 3)%nat ∧ (over s ∨ ∃ s', rstep intentHash ranked s s') ∧
  ∀ a c, a ∈ r_flight s → a_stage a = Confirmed c → (length (r_results s) < results_capacity ranked)%nat.
Proof.
  intros H. assert (Hs : slot_inv s).
  { apply reached_slots. exists done. apply rtc_nsteps. by exists n. }
  split; [|split; [by apply can_step|by intros; eapply room_left]].
  assert (Hn : ∀ n s s', nsteps step n s s' → slot_inv s → (n + cost s' ≤ cost s)%nat).
  { clear. intros n s s'. induction 1 as [|n s t u Hs Hr IH]; intros Hi; [lia|].
    pose proof (cost_step _ _ Hs Hi). specialize (IH (slot_inv_step _ _ Hs Hi)). lia. }
  specialize (Hn _ _ _ H (reached_slots _ (ex_intro _ done (rtc_refl _ _)))).
  unfold cost in Hn at 2. cbn in Hn. rewrite Nat.sub_0_r in Hn. destruct done; lia.
Qed.
End RaceProofs.

(** ** Sample races *)

Definition sample_slot (h : Z) (token : string) : Slot :=
  mkSlot (mkVenueRef "resy" "6194") (mkDate 2026 6 9) (mkWallTime h 0 0) "Dining Room" 2
    (sample_payload token).
Definition two_slots : list Slot := [sample_slot 18 "t1"; sample_slot 19 "t2"].
Definition receipt (id : string) : Confirmation := mkConfirmation id (to_utc drop_ny) "".

Tactic Notation "race_step" uconstr(c) :=
  eapply rtc_l; [eapply c; first [reflexivity|cbn; lia]|].

(** The second slot's confirmation comes in while the first has already
    sent: the first is kept, the second is booked too. *)
Lemma two_bookings :
  ∃ s, reached "hash" two_slots s ∧ r_phase s = Finished (Some (receipt "A")) ∧
    r_booked s = [receipt "A"; receipt "B"].
Proof.
  eexists. split; [exists false|].
  - race_step r_prepare.
    race_step (r_prepared "hash" two_slots _ 0%nat (sample_slot 18 "t1")).
    race_step (r_post "hash" two_slots _ [] (mkAttempt 0 (sample_slot 18 "t1") Started) []).
    race_step r_paused. race_step r_prepare.
    race_step (r_prepared "hash" two_slots _ 1%nat (sample_slot 19 "t2")).
    race_step (r_post "hash" two_slots _ [mkAttempt 0 (sample_slot 18 "t1") Confirming]
                 (mkAttempt 1 (sample_slot 19 "t2") Started) []).
    race_step (r_confirmed "hash" two_slots _ [] (mkAttempt 0 (sample_slot 18 "t1") Confirming)
                 [mkAttempt 1 (sample_slot 19 "t2") Confirming] (receipt "A")).
    race_step (r_confirmed "hash" two_slots _ [mkAttempt 0 (sample_slot 18 "t1") (Confirmed (receipt "A"))]
                 (mkAttempt 1 (sample_slot 19 "t2") Confirming) [] (receipt "B")).
    race_step (r_send "hash" two_slots _ [] (mkAttempt 0 (sample_slot 18 "t1") (Confirmed (receipt "A")))
                 [mkAttempt 1 (sample_slot 19 "t2") (Confirmed (receipt "B"))]).
    race_step (r_cancel "hash" two_slots _ [] (mkAttempt 0 (sample_slot 18 "t1") Sent)
                 [mkAttempt 1 (sample_slot 19 "t2") (Confirmed (receipt "B"))]).
    race_step (r_drop "hash" two_slots _ [] (mkAttempt 1 (sample_slot 19 "t2") (Confirmed (receipt "B"))) []).
    race_step r_end. race_step r_join. apply rtc_refl.
  - by split.
Qed.

(** The second slot's details are refused by the rate limiter while the
    first slot has just been confirmed: the race returns blocked, and the
    reservation is nowhere recorded. *)
Lemma blocked_loses_booking :
  ∃ s, reached "hash" two_slots s ∧ over s ∧ r_phase s = Blocked Providers.ErrRateLimited ∧
    r_booked s = [receipt "A"] ∧ r_results s = [].
Proof.
  eexists. split; [exists false|].
  - race_step r_prepare.
    race_step (r_prepared "hash" two_slots _ 0%nat (sample_slot 18 "t1")).
    race_step (r_post "hash" two_slots _ [] (mkAttempt 0 (sample_slot 18 "t1") Started) []).
    race_step r_paused. race_step r_prepare.
    race_step (r_confirmed "hash" two_slots _ [] (mkAttempt 0 (sample_slot 18 "t1") Confirming) []
                 (receipt "A")).
    race_step (r_blocked "hash" two_slots _ 1%nat Providers.ErrRateLimited).
    race_step (r_drop "hash" two_slots _ [] (mkAttempt 0 (sample_slot 18 "t1") (Confirmed (receipt "A"))) []).
    apply rtc_refl.
  - split; [|done]. split; [done|]. right. by exists Providers.ErrRateLimited.
Qed.

Lemma joined_race_reports_witness :
  ∃ s, reached "hash" two_slots s ∧ r_flight s = [] ∧ receipt "A" ∈ r_booked s.
Proof.
  destruct two_bookings as (s & Hr & Hp & _). exists s. split; [exact Hr|].
  destruct (joined_race_reports "hash" two_slots s _ Hr Hp) as (Hf & _ & _ & Hin & _).
  split; [exact Hf|]. by apply Hin.
Defined.
Lemma race_orderly_witness : (length (r_results (race_init false)) ≤ length two_slots)%nat.
Proof.
  apply (race_orderly "hash" two_slots (race_init false)
           (log_prepare 0 (set_phase (Preparing 0) (race_init false)))).
  - exists false. apply rtc_refl.
  - apply r_prepare; [reflexivity|cbn; lia|reflexivity].
Defined.
Lemma race_ends_witness :
  (1 ≤ 7 * length two_slots + 3)%nat.
Proof.
  apply (race_ends "hash" two_slots false 1 (log_prepare 0 (set_phase (Preparing 0) (race_init false)))).
  eapply nsteps_l; [|apply nsteps_O]. apply r_prepare; [reflexivity|cbn; lia|reflexivity].
Defined.
