(* ===== verification/Booking.v ===== *)
(** * [engine/race.go]: the booking phase as a whole

    [RunBookingRace] around the race of Race.v: Finding, the Find call, the
    ranking, Booking, the race, and the verdict.  The race's end is any that
    the step relation reaches. *)

From S2P Require Import Prelude GoTime GoFormat Types Status Slots Drop Json Hash Codec Sqlite SqliteStore Engine EngineProofs Race.

(** How a race can end, from the main goroutine's point of view. *)
Inductive RaceEnd := EndBlocked (e : error) | EndJoined (winner : option Confirmation).
Definition races (hash : string) (ranked : list Slot) (e : RaceEnd) : Prop :=
  ∃ s, reached hash ranked s ∧
    r_phase s = match e with EndBlocked err => Blocked err | EndJoined w => Finished w end.

Section Booking.
Context {St : Type} `{!SnipeStore St} (env : Env).
Notation World := (World St).
#[local] Existing Instances m_ret m_bind.
(** Whether the provider is a [SlotPreparer]; the race's end and duration. *)
Context (preparer : bool) (race : string → list Slot → RaceEnd * Z).

Definition race_error (reason : string) (cause : error) : error :=
  wrap ("engine.RunBookingRace: " +:+ reason +:+ ": ") cause.
(** [fmt.Errorf("...: %s (and transition to failed: %w): %w", ...)]. *)
Definition race_error2 (reason : string) (e cause : error) : error :=
  EWrap ("engine.RunBookingRace: " +:+ reason +:+ " (and transition to failed: "
         +:+ error_String e +:+ "): " +:+ error_String cause) [e; cause].
Definition failWithReason (reason : string) (cause : error) : M unit :=
  t ← attempt (transition env StatusFailed EventFailed
                 [("reason", VString reason); ("err", VString (error_String cause))]);
  match t with
  | Err e => fail (race_error2 reason e cause)
  | Ok _ => fail (race_error reason cause)
  end.

Definition run_race (hash : string) (ranked : list Slot) : M RaceEnd := λ w : World,
  let '(e, d) := race hash ranked in (Ok e, pass d w).
Definition with_result (c : Confirmation) (s : SnipeState) : SnipeState :=
  mkSnipeState (s_ID s) (s_Intent s) (s_status s) (s_ScheduledAt s)
    (Some (mkResult (cf_BookedAt c) (cf_ID c))) (s_Events s) (s_CreatedAt s) (s_UpdatedAt s).
(** [state.Inner().Result = ...], before the transition. *)
Definition set_result (c : Confirmation) : M unit := λ w : World,
  (Ok tt, set_inner (with_result c (w_inner w)) w).

Definition RunBookingRace (sess : Session) : M unit :=
  match en_provider env with
  | None => fail (ENew "engine.RunBookingRace: requires a Provider")
  | Some pv =>
      if negb preparer then
        fail (ENew "engine.RunBookingRace: provider does not implement SlotPreparer")
      else
        s ← inner;
        _ ← wrapped "engine.RunBookingRace: enter Finding: "
              (transition env StatusFinding EventFound [venue_attr s]);
        let intent := s_Intent s in
        let req := mkFindRequest (i_Venue intent) (i_Date intent) (i_PartySize intent)
                     (slotPrefTimes (i_SlotPrefs intent)) (Some sess) in
        found ← attempt (provider_call env (CallFind req) (λ k, pv_Find pv k req));
        match found with
        | Err e => failWithReason "find_failed" e
        | Ok [] => failWithReason "inventory_empty" Providers.ErrInventoryEmpty
        | Ok slots =>
            let ranked := rankSlotsByPreference slots (i_SlotPrefs intent) in
            _ ← wrapped "engine.RunBookingRace: enter Booking: "
                  (transition env StatusBooking EventBookAttempted
                     [venue_attr s; ("slot_count", VInt (Z.of_nat (length ranked)))]);
            e ← run_race (intent_Hash intent) ranked;
            match e with
            | EndBlocked e => failWithReason "prepare_blocked" e
            | EndJoined None => failWithReason "all_attempts_failed" (ENew "no slot booked")
            | EndJoined (Some c) =>
                _ ← set_result c;
                transition env StatusBooked EventBooked
                  [venue_attr s; ("confirmation_id", VString (cf_ID c))]
            end
        end
  end.

(** ** The outcome *)

Hypothesis Henv : env_ok env.
(** The oracle's answers are ends the race can reach, take time, and carry
    receipts with times the store can keep. *)
Record race_ok : Prop := {
  ro_races : ∀ hash ranked, races hash ranked (race hash ranked).1;
  ro_time : ∀ hash ranked, 0 ≤ (race hash ranked).2;
  ro_receipt : ∀ hash ranked c, (race hash ranked).1 = EndJoined (Some c) → storable (cf_BookedAt c)
}.
Hypothesis Hrace : race_ok.

(** In step, and no announcement of a booking. *)
Definition unbooked (w w' : World) : Prop :=
  evolves w w' ∧ ∃ ns, w_emitted w' = w_emitted w ++ ns ∧ StatusBooked ∉ map n_To ns.
Lemma unbooked_trans a b c : unbooked a b → unbooked b c → unbooked a c.
Proof.
  intros [V1 (ns & E1 & N1)] [V2 (ms & E2 & N2)]. split; [by eapply evolves_trans|].
  exists (ns ++ ms). rewrite E2, E1, app_assoc, map_app. split; [done|]. set_solver.
Qed.
Lemma unbooked_quiet w w' : quiet w w' → unbooked w w'.
Proof.
  intros H. split; [by apply quiet_evolves|]. exists []. rewrite app_nil_r.
  destruct H as (_ & -> & _). split; [done|]. by intros ?%elem_of_nil.
Qed.
Lemma transition_unbooked to ty attrs (w : World) :
  (good w → w_now w ≤ hi_ns → Forall attr_storable attrs) → to ≠ StatusBooked →
  unbooked w (transition env to ty attrs w).2.
Proof.
  intros Ha Hto. pose proof (transition_step env Henv to ty attrs w Ha) as H.
  destruct (transition env to ty attrs w) as [[u|e] w']; destruct H as [V H]; (split; [exact V|]).
  - destruct H as [[_ _ (n & E & _ & Et & _) _] _]. exists [n]. split; [done|]. cbn. set_solver.
  - destruct H as (_ & E & _). exists []. rewrite app_nil_r. split; [done|]. by intros ?%elem_of_nil.
Qed.
Lemma fail_unbooked reason cause (w : World) :
  is_Ok (failWithReason reason cause w).1 = false ∧
  unbooked w (failWithReason reason cause w).2.
Proof.
  unfold failWithReason, mbind, m_bind, attempt. set (attrs := [_; _]).
  pose proof (transition_unbooked StatusFailed EventFailed attrs w
                ltac:(intros _ _; unfold attrs; by rewrite !Forall_cons, Forall_nil) ltac:(done)) as H.
  destruct (transition _ _ _ _ _) as [[u|e] w']; split; done.
Qed.

(** The last step: the result set in memory, and the Booked transition. *)
Definition book (c : Confirmation) (attrs : list Attr) : M unit :=
  _ ← set_result c; transition env StatusBooked EventBooked attrs.
Record booked_with (c : Confirmation) (w w' : World) : Prop := {
  bw_good : good w';
  bw_status : s_status (w_inner w') = StatusBooked;
  bw_id : s_ID (w_inner w') = s_ID (w_inner w);
  bw_result : s_Result (w_inner w') = Some (mkResult (cf_BookedAt c) (cf_ID c));
  bw_step : ∃ n, w_emitted w' = w_emitted w ++ [n] ∧ n_SnipeID n = s_ID (w_inner w) ∧
    n_From n = Some (s_status (w_inner w)) ∧ n_To n = StatusBooked ∧
    CanTransition (s_status (w_inner w)) StatusBooked = true ∧
    log_gained (s_ID (w_inner w)) [n] (w_store w) (w_store w')
}.
Lemma book_spec c attrs (w : World) :
  good w → storable (cf_BookedAt c) → Forall attr_storable attrs →
  let '(r, w') := book c attrs w in
  w_now w ≤ w_now w' ∧
  (w_now w' ≤ hi_ns →
   match r with
   | Ok _ => booked_with c w w'
   | Err _ => w_store w' = w_store w ∧ w_emitted w' = w_emitted w ∧
       s_status (w_inner w') = s_status (w_inner w) ∧ s_ID (w_inner w') = s_ID (w_inner w)
   end).
Proof.
  intros [Gw Gs Gi Gr Ge] Hc Ha. unfold book, set_result, transition, mbind, m_bind, inner.
  set (s := with_result c (w_inner w)). set (w0 := set_inner s w).
  destruct (CanTransition (s_status (w_inner w)) StatusBooked) eqn:Hcan; cbn [w_inner w0 set_inner];
    change (s_status s) with (s_status (w_inner w)); rewrite Hcan; cbn [negb];
    [|split; [cbn; lia|done]].
  rewrite now_spec. unfold persist_swap, wrapped, mbind, m_bind, swap, emit, store_call.
  set (w1 := tick env w0). set (fl := if en_done env (w_step w1) then _ else _).
  pose proof (tick_nonneg env Henv (w_step w)) as T1.
  pose proof (tick_nonneg env Henv (S (w_step w))) as T2.
  set (cand := candidate s _ _ _). set (ev := mkEvent _ _ _).
  assert (Hpre : w_now w1 ≤ hi_ns → snipe_storable cand ∧ event_storable ev).
  { intros Hh. assert (Hy : four_digit_year (w_now w1)) by (apply in_era_year; split; cbn in *; lia).
    destruct Gs as (Hi & _ & Hsch & Hcr & _). split; [|split; [exact Hy|by apply Forall_cons]].
    split; [exact Hi|]. split; [exact Hc|]. split; [exact Hsch|]. by split; [exact Hcr|exact Hy]. }
  pose proof (λ H, ss_transition_law cand ev fl (w_sql w1) (w_store w) (proj1 (Hpre H))
                (proj2 (Hpre H)) Gw) as Hlaw.
  change (w_store w1) with (w_store w).
  destruct (ss_transition cand ev fl (w_sql w1) (w_store w)) as [[[u|e] k] st].
  - split; [cbn; lia|]. intros Hh. cbn in Hh.
    destruct (Hlaw ltac:(cbn; lia)) as (Hwf & (old & s' & Hold & Hrow & Hsame & Hco) & (ev' & Hev & Hse) & _).
    destruct (Hpre ltac:(cbn; lia)) as [Hcs _]. split; cbn; try done.
    + split; cbn; [done|done|done| |lia]. exists s'. split; [done|]. split; [done|]. rewrite Hco.
      destruct Gr as (s0 & Hr0 & _ & Hc0). change (s_ID cand) with (s_ID (w_inner w)) in Hold. congruence.
    + eexists. split; [done|]. do 4 (split; [done|]). exists [ev']. split; [done|].
      apply Forall2_cons. by split; [exact Hse|constructor].
  - split; [cbn; lia|]. intros Hh. cbn in Hh. by destruct (Hlaw ltac:(cbn; lia)) as [_ ->].
Qed.

(** [c] won the race for [intent]: the one run over the slots the provider
    answered to the Find request of that intent, in the order of its
    preferences and with keys made from its hash. *)
Definition won (intent : Intent) (sess : Session) (c : Confirmation) : Prop :=
  ∃ pv k slots, en_provider env = Some pv ∧
    pv_Find pv k (mkFindRequest (i_Venue intent) (i_Date intent) (i_PartySize intent)
                    (slotPrefTimes (i_SlotPrefs intent)) (Some sess)) = Ok slots ∧
    let hash := intent_Hash intent in let ranked := rankSlotsByPreference slots (i_SlotPrefs intent) in
    (race hash ranked).1 = EndJoined (Some c) ∧
    ∃ s, reached hash ranked s ∧ r_phase s = Finished (Some c).
Lemma won_utc i i' sess c : utc_intent i = utc_intent i' → won i sess c → won i' sess c.
Proof.
  intros E. assert (Eh : intent_Hash i = intent_Hash i').
  { unfold intent_Hash. by rewrite <- (intent_text_utc i), <- (intent_text_utc i'), E. }
  destruct i, i'. injection E as -> -> -> -> -> _. unfold won. cbn [i_Venue i_Date i_PartySize i_SlotPrefs].
  by rewrite Eh.
Qed.

(** What comes before the verdict: an error with nothing booked, or a snipe
    in Booking with a winner. *)
Definition before_verdict (winner : Confirmation → Prop) (w : World) (rw : res unit * World) : Prop :=
  (is_Ok rw.1 = false ∧ unbooked w rw.2) ∨
  ∃ w3 c attrs n1 n2,
    evolves w w3 ∧ w_emitted w3 = w_emitted w ++ [n1; n2] ∧ n_To n1 = StatusFinding ∧
    n_To n2 = StatusBooking ∧ s_status (w_inner w3) = StatusBooking ∧
    storable (cf_BookedAt c) ∧ Forall attr_storable attrs ∧
    winner c ∧ rw = book c attrs w3.

Lemma book_mono attrs c (w : World) : w_now w ≤ w_now (book c attrs w).2.
Proof.
  unfold book, set_result, transition, persist_swap, wrapped, mbind, m_bind, inner, swap, emit, store_call.
  destruct (negb _); [cbn; lia|]. rewrite now_spec. cbn [w_store w_sql w_step tick set_inner].
  pose proof (tick_nonneg env Henv (w_step w)) as N1.
  pose proof (tick_nonneg env Henv (S (w_step w))) as N2.
  destruct (ss_transition _ _ _ _ _) as [[[u|e] n] st]; cbn; lia.
Qed.
Lemma verdict_error P w0 w w' (r : res unit) :
  unbooked w0 w → is_Ok r = false ∧ unbooked w w' → before_verdict P w0 (r, w').
Proof. intros H [Hr Hu]. left. split; [done|]. by eapply unbooked_trans. Qed.

(** The race and what is made of its end, in Booking. *)
Lemma race_verdict (P : Confirmation → Prop) attrs hash ranked (w0 w : World) n1 n2 :
  evolves w0 w → w_emitted w = w_emitted w0 ++ [n1; n2] → n_To n1 = StatusFinding →
  n_To n2 = StatusBooking → s_status (w_inner w) = StatusBooking →
  (∀ c, Forall attr_storable (attrs c)) →
  (∀ c s, (race hash ranked).1 = EndJoined (Some c) → reached hash ranked s → r_phase s = Finished (Some c) → P c) →
  before_verdict P w0
    ((e ← run_race hash ranked;
      match e with
      | EndBlocked e => failWithReason "prepare_blocked" e
      | EndJoined None => failWithReason "all_attempts_failed" (ENew "no slot booked")
      | EndJoined (Some c) => book c (attrs c)
      end) w).
Proof.
  intros V E T1 T2 Hst Ha HP. unfold mbind, m_bind, run_race.
  pose proof (ro_races Hrace hash ranked) as (s & Hs & Hp).
  pose proof (ro_time Hrace hash ranked) as Hd. pose proof (ro_receipt Hrace hash ranked) as Hc.
  destruct (race hash ranked) as [e d]. cbn [fst snd] in *.
  assert (Hq : quiet w (pass d w)) by (by apply quiet_pass).
  assert (Hu : unbooked w0 (pass d w)).
  { split; [eapply evolves_trans; [exact V|by apply quiet_evolves]|]. exists [n1; n2].
    split; [exact E|]. cbn. rewrite T1, T2. set_solver. }
  destruct e as [e|[c|]].
  - pose proof (fail_unbooked "prepare_blocked" e (pass d w)) as H.
    destruct (failWithReason _ _ _) as [r w']. by eapply verdict_error.
  - right. exists (pass d w), c, (attrs c), n1, n2.
    split; [eapply evolves_trans; [exact V|by apply quiet_evolves]|].
    do 4 (split; [done|]). split; [by apply Hc|]. split; [apply Ha|]. split; [|done].
    by apply (HP c s).
  - pose proof (fail_unbooked "all_attempts_failed" (ENew "no slot booked") (pass d w)) as H.
    destruct (failWithReason _ _ _) as [r w']. by eapply verdict_error.
Qed.

Lemma RunBookingRace_before sess (w : World) :
  before_verdict (won (s_Intent (w_inner w)) sess) w (RunBookingRace sess w).
Proof.
  unfold RunBookingRace. assert (Hfail : ∀ e, before_verdict (won (s_Intent (w_inner w)) sess) w ((fail e : M unit) w)).
  { intros e. left. split; [done|]. apply unbooked_quiet, quiet_refl. }
  destruct (en_provider env) as [pv|] eqn:Hpv; [|apply Hfail]. destruct (negb preparer); [apply Hfail|].
  unfold mbind at 1, m_bind at 1, inner. set (s := w_inner w). unfold mbind at 1, m_bind at 1, wrapped.
  assert (Hv : Forall attr_storable [venue_attr s]) by (by apply venue_attrs_ok).
  pose proof (transition_step env Henv StatusFinding EventFound [venue_attr s] w (λ _ _, Hv)) as H1.
  pose proof (transition_unbooked StatusFinding EventFound [venue_attr s] w (λ _ _, Hv) ltac:(done)) as U1.
  destruct (transition env StatusFinding _ _ w) as [[[]|e] w1]; [|by left].
  destruct H1 as [V1 [[S1 _ (n1 & E1 & _ & T1 & _) _] _]]. cbn [snd] in U1.
  unfold mbind at 1, m_bind at 1, attempt, provider_call. set (w2 := tick env (add_call _ w1)).
  assert (Q2 : quiet w1 w2) by apply (quiet_provider_call env Henv (CallFind (mkFindRequest
    (i_Venue (s_Intent s)) (i_Date (s_Intent s)) (i_PartySize (s_Intent s))
    (slotPrefTimes (i_SlotPrefs (s_Intent s))) (Some sess))) (λ _, Ok tt) w1).
  assert (U2 : unbooked w w2) by (eapply unbooked_trans; [exact U1|by apply unbooked_quiet]).
  destruct (pv_Find pv _ _) as [[|sl slots]|e] eqn:Hf.
  1: { pose proof (fail_unbooked "inventory_empty" Providers.ErrInventoryEmpty w2) as H.
       destruct (failWithReason _ _ _) as [r w']. by eapply verdict_error. }
  2: { pose proof (fail_unbooked "find_failed" e w2) as H.
       destruct (failWithReason _ _ _) as [r w']. by eapply verdict_error. }
  set (ranked := rankSlotsByPreference _ _). set (attrs := [_; _]).
  assert (Ha : Forall attr_storable attrs).
  { apply venue_attrs_ok. apply Forall_cons. split; [|constructor].
    apply (find_len env Henv) in Hf; [|done].
    assert (El : length ranked = length (sl :: slots)).
    { apply Permutation_length. unfold ranked, rankSlotsByPreference.
      destruct (i_SlotPrefs _); [reflexivity|apply sort_stable_perm]. }
    change (min_int64 ≤ Z.of_nat (length ranked) ≤ max_int64). rewrite El. unfold min_int64. lia. }
  unfold mbind at 1, m_bind at 1.
  pose proof (transition_step env Henv StatusBooking EventBookAttempted attrs w2 (λ _ _, Ha)) as H3.
  pose proof (transition_unbooked StatusBooking EventBookAttempted attrs w2 (λ _ _, Ha) ltac:(done)) as U3.
  destruct (transition env StatusBooking _ _ w2) as [[[]|e] w3]; cbn [snd] in U3.
  2: { left. split; [done|]. by eapply unbooked_trans. }
  destruct H3 as [V3 [[S3 _ (n2 & E3 & _ & T3 & _) _] _]].
  apply (race_verdict _ (λ c, [venue_attr s; ("confirmation_id", VString (cf_ID c))]) _ _ w w3 n1 n2).
  - eapply evolves_trans; [apply U2|exact V3].
  - rewrite E3. destruct Q2 as (_ & -> & _). by rewrite E1, <- app_assoc.
  - exact T1.
  - exact T3.
  - exact S3.
  - intros c. by rewrite !Forall_cons, Forall_nil.
  - intros c rs Hc Hr Hp. exists pv, (w_step w1), (sl :: slots). split; [done|]. split; [exact Hf|].
    cbv zeta. split; [exact Hc|]. by exists rs.
Qed.

Definition row_shows (w : World) : Prop :=
  ss_wf (w_store w) ∧ ∃ s', ss_row (w_store w) (s_ID (w_inner w)) = Some s' ∧ s_status s' = s_status (w_inner w).
Lemma good_row_shows (w : World) : good w → row_shows w.
Proof. intros [Gw _ _ (s' & Hr & (_ & Hs & _) & _) _]. split; [done|]. by exists s'. Qed.

(** The booking phase.  Without error it went Finding, Booking, Booked
    and the row in the store holds the confirmation that won the race for
    the snipe's own intent, run over the slots Find answered for it; with an error it announced no booking.  Either way the
    statuses announced are a legal walk, the audit log gained exactly their
    events, and the stored status is the one in memory. *)
Theorem RunBookingRace_outcome sess (w : World) :
  good w →
  let '(r, w') := RunBookingRace sess w in
  w_now w' ≤ hi_ns →
  s_ID (w_inner w') = s_ID (w_inner w) ∧ row_shows w' ∧
  ∃ ns, w_emitted w' = w_emitted w ++ ns ∧
    walked (s_ID (w_inner w)) (s_status (w_inner w)) ns (s_status (w_inner w')) ∧
    log_gained (s_ID (w_inner w)) ns (w_store w) (w_store w') ∧
    match r with
    | Ok _ => good w' ∧ map n_To ns = [StatusFinding; StatusBooking; StatusBooked] ∧
        ∃ c, won (s_Intent (w_inner w)) sess c ∧
          s_Result (w_inner w') = Some (mkResult (cf_BookedAt c) (cf_ID c))
    | Err _ => StatusBooked ∉ map n_To ns
    end.
Proof.
  intros Hg. pose proof (RunBookingRace_before sess w) as H.
  destruct (RunBookingRace sess w) as [r w']. intros Hh. destruct H as [[Hr [[_ _ V] (ns & E & N)]]|
    (w3 & c & attrs & n1 & n2 & [N3 _ V3] & E3 & T1 & T2 & S3 & Hc & Ha & Hw & Hb)]; cbn [fst snd] in *.
  - destruct (V Hg Hh) as (ns' & [G I _ E' W L _ _]).
    assert (ns' = ns) as -> by (apply (app_inv_head (w_emitted w)); congruence).
    split; [done|]. split; [by apply good_row_shows|]. exists ns. split; [done|]. split; [done|].
    split; [done|]. by destruct r.
  - pose proof (book_spec c attrs w3) as Hbook. rewrite <- Hb in Hbook.
    assert (Hn : w_now w3 ≤ w_now w').
    { pose proof (book_mono attrs c w3) as Hm. rewrite <- Hb in Hm. exact Hm. }
    destruct (V3 Hg ltac:(lia)) as (ns3 & [G3 I3 _ E3' W3 L3 _ _]).
    assert (ns3 = [n1; n2]) as -> by (apply (app_inv_head (w_emitted w)); congruence).
    destruct (Hbook G3 Hc Ha) as [_ Hk]. specialize (Hk Hh). destruct r as [u|e].
    + destruct Hk as [Gb Sb Ib Rb (n & En & Nid & Nf & Nt & Hcan & Lb)]. split; [congruence|].
      split; [by apply good_row_shows|]. exists [n1; n2; n]. rewrite En, E3, <- app_assoc.
      split; [done|]. split.
      { change [n1; n2; n] with ([n1; n2] ++ [n]). eapply walked_app; [exact W3|]. rewrite Sb, <- Nt.
        eapply walked_cons; [congruence|congruence|by rewrite Nt|constructor]. }
      split; [rewrite I3 in Lb; by apply (log_gained_trans _ [n1; n2] [n] _ _ _ L3 Lb)|].
      split; [done|]. split; [cbn; by rewrite T1, T2, Nt|].
      by exists c.
    + destruct Hk as (Es & Ee & Est & Eid). split; [congruence|]. split.
      { destruct (good_row_shows _ G3) as (Hw3 & s' & Hr & Hs'). split; [by rewrite Es|]. exists s'. rewrite Es, Eid, Est. by split. }
      exists [n1; n2]. rewrite Ee, Es, Est. split; [done|]. split; [done|]. split; [done|].
      cbn. rewrite T1, T2. set_solver.
Qed.
End Booking.

(** ** A sample booking *)

#[local] Existing Instance store_laws.
Definition sample_race (hash : string) (ranked : list Slot) : RaceEnd * Z :=
  (EndJoined (match ranked with [] => None | _ => Some (receipt "A") end), second).
Lemma sample_races hash ranked : races hash ranked (sample_race hash ranked).1.
Proof.
  destruct ranked as [|sl rest]; cbn.
  - eexists. split; [exists false|].
    + race_step r_end. race_step r_join. apply rtc_refl.
    + done.
  - set (ranked := sl :: rest). destruct rest as [|sl2 rest].
    + eexists. split; [exists false|].
      * race_step r_prepare. race_step (r_prepared hash ranked _ 0%nat sl).
        race_step (r_post hash ranked _ [] (mkAttempt 0 sl Started) []).
        race_step (r_confirmed hash ranked _ [] (mkAttempt 0 sl Confirming) [] (receipt "A")).
        race_step (r_send hash ranked _ [] (mkAttempt 0 sl (Confirmed (receipt "A"))) []).
        race_step (r_cancel hash ranked _ [] (mkAttempt 0 sl Sent) []).
        race_step r_end. race_step r_join. apply rtc_refl.
      * done.
    + eexists. split; [exists false|].
      * race_step r_prepare. race_step (r_prepared hash ranked _ 0%nat sl).
        race_step (r_post hash ranked _ [] (mkAttempt 0 sl Started) []).
        race_step (r_confirmed hash ranked _ [] (mkAttempt 0 sl Confirming) [] (receipt "A")).
        race_step (r_send hash ranked _ [] (mkAttempt 0 sl (Confirmed (receipt "A"))) []).
        race_step (r_cancel hash ranked _ [] (mkAttempt 0 sl Sent) []).
        race_step r_paused. race_step r_stop. race_step r_join. apply rtc_refl.
      * done.
Qed.
Lemma receipt_storable id : storable (cf_BookedAt (receipt id)).
Proof. apply storable_utc. vm_compute. split; congruence. Qed.
Lemma sample_race_ok : race_ok sample_race.
Proof.
  split; [apply sample_races|intros; cbn; unfold second; lia|].
  intros hash [|sl rest] c; cbn; [done|]. intros [= <-]. apply receipt_storable.
Qed.

Definition find_provider : Provider :=
  mkProvider (λ _ ref _, Ok (mkCalendar ref [])) (λ _ _, Ok two_slots).
Definition find_env : Env :=
  mkEnv ok_faults (λ _, second) (λ _, false) false (λ _, true) UTC (Some find_provider)
    defaultBookingPolicy.
Lemma find_env_ok : env_ok find_env.
Proof.
  split; [intros; cbn; unfold second; lia|done|]. intros pv k req slots [= <-] [= <-].
  vm_compute. congruence.
Qed.
Definition awaiting_sample : SnipeState := with_status StatusAwaiting stored_sample.
Definition db_awaiting : DB := db_of (CreateSnipe awaiting_sample ok_faults 0%nat empty_db).
Definition awaiting_world : World DB :=
  mkWorld db_awaiting 0%nat 0%nat (t_ns drop_ny) awaiting_sample [] [].
Lemma created_awaiting : CreateSnipe awaiting_sample ok_faults 0%nat empty_db = (Ok tt, 1%nat, db_awaiting).
Proof. reflexivity. Qed.
Lemma good_awaiting : good awaiting_world.
Proof.
  apply good_stored; [|apply stored_sample_storable|apply sane_sample|done|vm_compute; reflexivity|by vm_compute].
  eapply store_step_wf; [|exact db_wf_empty]. eapply step_create; [|exact created_awaiting]. apply stored_sample_storable.
Qed.
Definition sample_session : Session := mkSession "resy" "user-1" zero_time.
Lemma RunBookingRace_outcome_witness :
  ∃ ns, w_emitted (RunBookingRace find_env true sample_race sample_session awaiting_world).2 = ns ∧
    map n_To ns = [StatusFinding; StatusBooking; StatusBooked].
Proof.
  pose proof (RunBookingRace_outcome find_env true sample_race find_env_ok sample_race_ok sample_session
                awaiting_world good_awaiting) as H.
  set (run := RunBookingRace find_env true sample_race sample_session awaiting_world) in *.
  assert (Hn : w_now run.2 <=? hi_ns = true) by (vm_compute; reflexivity).
  assert (Ho : is_Ok run.1 = true) by (vm_compute; reflexivity).
  destruct run as [r w']; cbn [fst snd] in *. apply Z.leb_le in Hn.
  destruct (H Hn) as (_ & _ & ns & E & _ & _ & Hr). exists ns. split; [exact E|].
  destruct r as [u|e]; [exact (proj1 (proj2 Hr))|discriminate].
Defined.
