(* ===== verification/Snipe.v ===== *)
(** * One snipe from the command line

    [cmd/resy-snipe/snipe.go] over the engine, the lines of
    [internal/notify/stdout.go], and what [main.go] makes of the result.
    The engine's subscriber is the bridge to the notifier, which never
    panics; the clock readings of the lines and the names of zones are
    arguments. *)

From S2P Require Import Prelude Text Url GoTime GoFormat Types Status Slots Drop Json Hash Codec Sqlite SqliteStore Engine EngineProofs.
From S2P Require Import Race Booking Terminal Prompts.
From Stdlib Require Import Ascii.

#[local] Existing Instances m_ret m_bind.

(** ** [notify/stdout.go] *)

Section Notifier.
Context (abbreviation : Time → string).
(** [t.Format("15:04:05")]. *)
Definition stdoutTimestamp (t : Time) : string := fmt_utc_clock (face_ns t).
(** [t.String()], without a monotonic reading. *)
Definition zone_digits (off : Z) : string :=
  let z := Z.quot off 60 in
  (if z <? 0 then "-" else "+") +:+ append_int 2 (Z.quot (Z.abs z) 60) +:+ append_int 2 (Z.rem (Z.abs z) 60).
Definition time_String (t : Time) : string :=
  fmt_utc_date (face_ns t) +:+ " " +:+ fmt_utc_clock (face_ns t) +:+ fmt_frac (t_nsec (utc (face_ns t))) +:+ " "
  +:+ zone_digits (zone_offset t) +:+ " " +:+ abbreviation t.
Definition value_String (v : AttrValue) : string :=
  match v with VString s => s | VInt z => fmt_d z | VTime t => time_String t end.
Definition renderAttr (a : Attr) : string := a.1 +:+ "=" +:+ value_String a.2.
Definition formatAttrs (attrs : list Attr) : string := str_join " " (map renderAttr attrs).
Definition with_attrs (body : string) (attrs : list Attr) : string :=
  let extra := formatAttrs attrs in if is_empty extra then body else body +:+ " (" +:+ extra +:+ ")".
Definition Transition_line (ts : Time) (from to : Status) (attrs : list Attr) : string :=
  with_attrs ("[" +:+ stdoutTimestamp ts +:+ "] " +:+ status_String from +:+ " -> " +:+ status_String to) attrs +:+ nl.
Definition Result_line (ts : Time) (success : bool) (message : string) (attrs : list Attr) : string :=
  with_attrs ("[" +:+ stdoutTimestamp ts +:+ "] " +:+ (if success then "BOOKED" else "FAILED") +:+ ": " +:+ message) attrs +:+ nl.
(** [notifierBridge]: the bootstrap notification has no line. *)
Definition notifierBridge (ts : Time) (n : Notification) : string :=
  match n_From n with
  | None => ""
  | Some from => Transition_line ts from (n_To n) (e_Attrs (n_Event n))
  end.
End Notifier.

(** ** [snipe.go] *)

(** What [notifier.Result] is called with. *)
Record Report := mkReport { rp_success : bool; rp_message : string; rp_attrs : list Attr }.
Record Ran := mkRan { rn_status : Status; rn_err : option error; rn_result : option Report }.
Definition newSnipeID (i : Intent) : string := "snp_" +:+ String.substring 0 12 (intent_Hash i).
Definition terminalResult (s : SnipeState) (raceErr : option error) : Report :=
  if bool_decide (s_status s = StatusBooked) then
    match s_Result s with
    | Some r => mkReport true ("confirmation " +:+ r_ConfirmationID r)
                  [("confirmation_id", VString (r_ConfirmationID r)); ("booked_at", VTime (r_BookedAt r))]
    | None => mkReport true "booked" []
    end
  else
    match raceErr with
    | Some e => mkReport false (status_String (s_status s) +:+ ": " +:+ error_String e) [("err", VString (error_String e))]
    | None => mkReport false (status_String (s_status s)) []
    end.

Section Snipe.
Context {St : Type} `{!SnipeStore St} (env : Env).
Context (preparer : bool) (race : string → list Slot → RaceEnd * Z).
Notation M := (@M St).

Definition error_of_run (r : res unit) : option error := match r with Ok _ => None | Err e => Some e end.
Definition is_cancel (e : error) : bool := errors_is e Canceled || errors_is e DeadlineExceeded.
Definition failed (pre : string) (e : error) : M Ran := mret (mkRan StatusFailed (Some (wrap pre e)) None).
Definition after_cancel (id : string) (e : error) : M Ran :=
  final ← attempt (Load env id);
  match final with
  | Err _ => failed "snipe canceled (and reload failed): " e
  | Ok s => mret (mkRan (s_status s) (Some e) (Some (mkReport false "canceled before release" [])))
  end.
Definition book_released (id : string) (sess : Session) : M Ran :=
  raceErr ← attempt (RunBookingRace env preparer race sess);
  final ← attempt (Load env id);
  match final with
  | Err e => failed "snipe reload after booking race: " e
  | Ok s => mret (mkRan (s_status s) (error_of_run raceErr) (Some (terminalResult s (error_of_run raceErr))))
  end.
Definition settled (st : Status) : bool :=
  match st with StatusBooked | StatusFailed | StatusExpired | StatusCanceled => true | _ => false end.
Definition after_run (id : string) (sess : Session) : M Ran :=
  state ← attempt (Load env id);
  match state with
  | Err e => failed "snipe reload after run: " e
  | Ok s =>
      if bool_decide (s_status s = StatusAwaiting) then book_released id sess
      else if settled (s_status s) then mret (mkRan (s_status s) None (Some (terminalResult s None)))
      else mret (mkRan (s_status s) (Some (ENew ("snipe: unexpected post-run status " +:+ status_String (s_status s)))) None)
  end.
Definition runSnipe (intent : Intent) (sess : Session) : M Ran :=
  let id := newSnipeID intent in
  submitted ← attempt (Submit env id intent);
  match submitted with
  | Err e => failed "snipe submit: " e
  | Ok _ =>
      ran ← attempt (Run env id);
      match ran with
      | Err e => if is_cancel e then after_cancel id e else failed "snipe run: " e
      | Ok _ => after_run id sess
      end
  end.
(** The end of [run] in [main.go]: no error is exit code 0. *)
Definition exit_error (r : Ran) : option error :=
  match rn_err r with
  | Some e => Some e
  | None => if bool_decide (rn_status r = StatusBooked) then None
            else Some (ENew ("snipe did not book (final status: " +:+ status_String (rn_status r) +:+ ")"))
  end.
(** Standard output: a line per transition, then the result's. *)
Definition snipe_output (abbreviation : Time → string) (stamp : nat → Time) (ns : list Notification) (r : Ran) : string :=
  String.concat "" (imap (λ i n, notifierBridge abbreviation (stamp i) n) ns)
  +:+ match rn_result r with
      | Some rp => Result_line abbreviation (stamp (length ns)) (rp_success rp) (rp_message rp) (rp_attrs rp)
      | None => ""
      end.
End Snipe.
