(* ===== verification/SnipeProofs.v ===== *)
(** * What one snipe tells its user

    The report, the exit code and the row in the store of a snipe run from
    the command line agree, whatever fails on the way. *)

From S2P Require Import Prelude Text Url GoTime GoFormat Types Status Slots Drop Json Hash Codec Sqlite SqliteStore Engine EngineProofs.
From S2P Require Import Race Booking Terminal Prompts Snipe.

#[local] Existing Instances m_ret m_bind.

Section Onward.
Context {St : Type} `{!SnipeStore St} (env : Env).
Hypothesis Henv : env_ok env.
Notation World := (World St).
Notation M := (@M St).

(** ** Steps that move on, announcing only certain statuses *)

Section Announces.
Variable P : Status → Prop.
Definition onward (w w' : World) : Prop :=
  w_now w ≤ w_now w' ∧ ∃ ns, w_emitted w' = w_emitted w ++ ns ∧ Forall (λ n, P (n_To n)) ns.
Definition goes {A} (m : M A) : Prop := ∀ w, onward w (m w).2.
#[export] Instance onward_pre : PreOrder onward.
Proof.
  split.
  - intros w. split; [lia|]. exists []. by rewrite app_nil_r.
  - intros a b c [N1 (ns & E1 & F1)] [N2 (ms & E2 & F2)]. split; [lia|]. exists (ns ++ ms).
    rewrite E2, E1, app_assoc. split; [done|by apply Forall_app].
Qed.
Lemma onward_same (w w' : World) : w_now w ≤ w_now w' → w_emitted w' = w_emitted w → onward w w'.
Proof. intros Hn E. split; [done|]. exists []. by rewrite E, app_nil_r. Qed.
Lemma onward_quiet (w w' : World) : quiet w w' → onward w w'.
Proof. intros (_ & E & N & _). by apply onward_same. Qed.
Lemma goes_ret {A} (a : A) : goes (mret a).
Proof. intros w. by apply onward_same. Qed.
Lemma goes_fail {A} e : goes (fail e : M A).
Proof. intros w. by apply onward_same. Qed.
Lemma goes_inner : goes inner.
Proof. intros w. by apply onward_same. Qed.
Lemma goes_swap s : goes (swap s).
Proof. intros w. by apply onward_same. Qed.
Lemma goes_bind {A B} (m : M A) (k : A → M B) : goes m → (∀ a, goes (k a)) → goes (m ≫= k).
Proof.
  intros Hm Hk w. specialize (Hm w). unfold mbind, m_bind. destruct (m w) as [[a|e] w1]; [|done].
  etrans; [exact Hm|apply Hk].
Qed.
Lemma goes_wrapped {A} pre (m : M A) : goes m → goes (wrapped pre m).
Proof. intros Hm w. specialize (Hm w). unfold wrapped. by destruct (m w) as [[]]. Qed.
Lemma goes_attempt {A} (m : M A) : goes m → goes (attempt m).
Proof. intros Hm w. specialize (Hm w). unfold attempt. by destruct (m w). Qed.
Lemma goes_tick {A} (f : World → res A) : goes (λ w, (f w, tick env w)).
Proof. intros w. apply onward_quiet, quiet_tick, Henv. Qed.
Lemma goes_now : goes (now env).
Proof. intros w. apply onward_quiet, quiet_tick, Henv. Qed.
Lemma goes_ctx_Err : goes (ctx_Err env).
Proof. apply goes_tick. Qed.
Lemma goes_store {A} (f : Faults → nat → St → res A * nat * St) : goes (store_call env f).
Proof.
  intros w. unfold store_call. destruct (f _ _ _) as [[r n] st]. pose proof (tick_nonneg env Henv (w_step w)).
  apply onward_same; cbn; [lia|done].
Qed.
Lemma goes_call {A} c (f : nat → res A) : goes (provider_call env c f).
Proof. intros w. apply onward_quiet, quiet_provider_call, Henv. Qed.
Lemma goes_wait d : goes (waitWithCtx env d).
Proof. intros w. apply onward_quiet, quiet_wait, Henv. Qed.
Lemma goes_emit n : P (n_To n) → goes (emit n).
Proof. intros Hp w. split; [cbn; lia|]. exists [n]. by split; [|constructor]. Qed.
Lemma goes_persist from to cand ev : P to → goes (persist_swap env from to cand ev).
Proof.
  intros Hp. unfold persist_swap. apply goes_bind; [apply goes_wrapped, goes_store|intros _].
  apply goes_bind; [apply goes_swap|intros _]. by apply goes_emit.
Qed.
Lemma goes_transition to ty attrs : P to → goes (transition env to ty attrs).
Proof.
  intros Hp. unfold transition. apply goes_bind; [apply goes_inner|intros s]. destruct (negb _); [apply goes_fail|].
  apply goes_bind; [apply goes_now|intros n]. by apply goes_persist.
Qed.
Lemma goes_loop until body : goes body → goes (run_loop env until body).
Proof.
  intros Hb w. unfold run_loop. generalize (fuel_for env until w). intros fuel.
  enough (H : ∀ fuel w, match loop fuel body w with Some (_, w') => onward w w' | None => True end).
  { specialize (H fuel w). destruct (loop fuel body w) as [[r w']|]; [done|by apply onward_same]. }
  clear fuel w. induction fuel as [|f IH]; intros w; [done|]. cbn. specialize (Hb w).
  destruct (body w) as [[[]|] w1]; [done| |done]. specialize (IH w1).
  destruct (loop f body w1) as [[r w']|]; [|done]. by etrans.
Qed.
End Announces.

Ltac goes_go := repeat first
  [ apply goes_ret | apply goes_fail | apply goes_inner | apply goes_swap | apply goes_now | apply goes_ctx_Err
  | apply goes_store | apply goes_call | apply goes_wait | apply goes_tick
  | apply goes_transition; done | apply goes_persist; done | apply goes_emit; done
  | apply goes_wrapped | apply goes_attempt | apply goes_loop
  | apply goes_bind; [|intros ?]
  | match goal with |- goes _ (match ?x with _ => _ end) => destruct x eqn:? end ].

(** The statuses [Run] announces. *)
Definition run_status (st : Status) : Prop :=
  match st with StatusScheduled | StatusDiscovering | StatusAwaiting | StatusExpired | StatusFailed => True | _ => False end.
Notation run_goes := (goes run_status).
Lemma goes_strategy : run_goes (runStrategy env).
Proof.
  unfold runStrategy, runDiscoveredRelease, runContinuousRelease, advanceToDiscovering.
  unfold discovered_pass, continuous_pass, recordObserved, lookupVenueTZ. goes_go.
Qed.
#[local] Opaque runStrategy.
Lemma goes_fire d : 0 ≤ d → run_goes (waitAndFire env d).
Proof.
  intros Hd. unfold waitAndFire, wait_lost, fireRelease. goes_go.
  - intros w. by apply onward_quiet, quiet_pass.
  - apply goes_strategy.
Qed.
#[local] Opaque waitAndFire.
Lemma goes_Run id : run_goes (Run env id).
Proof.
  unfold Run, Load, transitionToScheduled, scheduledAtFromIntent, fireRelease. goes_go; zb.
  all: try apply goes_strategy. apply goes_fire. lia.
Qed.

Lemma goes_Submit id intent : goes (λ _, True) (Submit env id intent).
Proof. unfold Submit. goes_go. Qed.
Lemma goes_Load id P : goes P (Load env id).
Proof. unfold Load. goes_go. Qed.
Context (preparer : bool) (race : string → list Slot → RaceEnd * Z).
Hypothesis Hrace : race_ok race.
Lemma goes_race sess : goes (λ _, True) (RunBookingRace env preparer race sess).
Proof.
  intros w. destruct (RunBookingRace_before env preparer race Henv Hrace sess w)
    as [[_ [[N _ _] (ns & E & _)]]|(w3 & c & attrs & n1 & n2 & [N _ _] & E & _ & _ & _ & _ & _ & _ & ->)].
  - split; [done|]. exists ns. split; [done|]. by apply Forall_true.
  - transitivity w3; [split; [done|]; exists [n1; n2]; split; [done|by apply Forall_true]|].
    unfold book, set_result. apply (goes_bind (λ _, True)); [intros v; by apply onward_same|intros _; goes_go].
Qed.

Lemma goes_cancel id e (w w' : World) r : after_cancel env id e w = (r, w') → w_now w ≤ w_now w'.
Proof.
  intros E. enough (H : goes (λ _, True) (after_cancel env id e)) by (specialize (H w); rewrite E in H; apply H).
  unfold after_cancel, failed. apply goes_bind; [apply goes_attempt, goes_Load|intros []; goes_go].
Qed.
Lemma goes_after id sess (w w' : World) r : after_run env preparer race id sess w = (r, w') → w_now w ≤ w_now w'.
Proof.
  intros E. enough (H : goes (λ _, True) (after_run env preparer race id sess)) by (specialize (H w); rewrite E in H; apply H).
  unfold after_run, book_released, failed. apply goes_bind; [apply goes_attempt, goes_Load|intros []; [|goes_go]].
  case_bool_decide; [|goes_go]. apply goes_bind; [apply goes_attempt, goes_race|intros ?].
  apply goes_bind; [apply goes_attempt, goes_Load|intros []; goes_go].
Qed.

(** What follows [Run] takes its time. *)
Lemma goes_rest id sess (rr : res unit) (w w' : World) r :
  match rr with
  | Err e => if is_cancel e then after_cancel env id e else failed "snipe run: " e
  | Ok _ => after_run env preparer race id sess
  end w = (r, w') → w_now w ≤ w_now w'.
Proof.
  destruct rr as [[]|e]; [apply goes_after|]. destruct (is_cancel e); [apply goes_cancel|]. by intros [= _ <-].
Qed.

(** ** Along the run *)

Lemma walked_last id a ns b : walked id a ns b → b = default a (last (map n_To ns)).
Proof.
  induction 1 as [|? n ns c _ _ _ _ IH]; [done|]. subst c. cbn [map]. rewrite last_cons. by destruct (last _).
Qed.
Lemma walked_end id a ns b : walked id a ns b → b = a ∨ b ∈ map n_To ns.
Proof.
  intros H%walked_last. destruct (last (map n_To ns)) as [x|] eqn:E; [|by left].
  right. rewrite H. by apply last_Some_elem_of.
Qed.
Lemma Load_again id (w : World) r w' :
  good w → s_ID (w_inner w) = id → Load env id w = (r, w') →
  good w' ∧ w_store w' = w_store w ∧ s_ID (w_inner w') = id ∧ s_status (w_inner w') = s_status (w_inner w) ∧
  utc_intent (s_Intent (w_inner w')) = utc_intent (s_Intent (w_inner w)) ∧
  match r with Ok s => w_inner w' = s ∧ ss_row (w_store w) id = Some s | Err _ => True end.
Proof.
  intros Hg Hid E. pose proof (Load_spec env id w (good_wf _ Hg)) as HL. rewrite E in HL.
  pose proof (tick_nonneg env Henv (w_step w)) as T. destruct HL as (E1 & _ & _ & E3 & HL). cbn in E3. destruct r as [s|e].
  - destruct HL as (Hr & Hs & E4). destruct (same_status_row w Hg) as (s' & Hr' & Hst & Hint). rewrite Hid in Hr'.
    split; [|by rewrite E4; split_all; try done; congruence].
    eapply good_same; [..|by eapply (loaded_good s w); [|rewrite Hid]]; cbn; [done|done|lia].
  - split; [by eapply good_same; [..|exact Hg]; [| |lia]|]. rewrite HL. done.
Qed.
(** [Run] from Submitted never books. *)
Lemma Run_status id (w : World) r w' :
  good w → s_ID (w_inner w) = id → s_status (w_inner w) = StatusSubmitted → Run env id w = (r, w') → w_now w' ≤ hi_ns →
  good w' ∧ s_ID (w_inner w') = id ∧ s_status (w_inner w') ≠ StatusBooked ∧
  utc_intent (s_Intent (w_inner w')) = utc_intent (s_Intent (w_inner w)).
Proof.
  intros Hg Hid Hst E Hh. pose proof (goes_Run id w) as [_ (ns & Em & F)]. rewrite E in Em. cbn [snd] in Em.
  rewrite Run_split in E. destruct (Load env id w) as [[s|e] w1] eqn:EL;
    pose proof (Load_again id w _ w1 Hg Hid EL) as (G1 & _ & I1 & S1 & N1 & _).
  2: { injection E as _ <-. split; [done|]. split; [done|]. split; [by rewrite S1, Hst|done]. }
  pose proof (Load_spec env id w (good_wf _ Hg)) as HL. rewrite EL in HL. destruct HL as (_ & E2 & _).
  destruct (run_loaded_evolves env Henv id w1 (good_intent _ G1) (good_era _ G1)) as [_ _ Hm].
  rewrite E in Hm. destruct (Hm G1 Hh) as (ns' & [G I In Ee W _ _ _]).
  assert (ns' = ns) as -> by (apply (app_inv_head (w_emitted w)); cbn in Ee; congruence).
  split; [done|]. split; [by rewrite <- I1|]. split; [|cbn in In; congruence]. cbn [snd] in W. intros Hb. apply walked_end in W as [W|W].
  - congruence.
  - rewrite Hb in W. apply list_elem_of_fmap in W as (n & Hn & Hin). rewrite Forall_forall in F.
    specialize (F n Hin). by rewrite <- Hn in F.
Qed.

(** ** The outcome *)

(** The report, the exit and the row: a reported success is the confirmation
    that won the race for this intent, kept in the row, and the exit code is
    0; anything else is an error exit, and a reported failure is not a
    booking. *)
Definition told_truth (intent : Intent) (sess : Session) (id : string) (ran : Ran) (w : World) : Prop :=
  match rn_result ran with
  | None => exit_error ran ≠ None
  | Some rp =>
      ∃ s, ss_row (w_store w) id = Some s ∧ rn_status ran = s_status s ∧
      if rp_success rp then
        exit_error ran = None ∧ s_status s = StatusBooked ∧
        ∃ c, won env race intent sess c ∧
          rp_message rp = "confirmation " +:+ cf_ID c ∧ r_ConfirmationID <$> s_Result s = Some (cf_ID c)
      else exit_error ran ≠ None ∧ s_status s ≠ StatusBooked
  end.
Lemma failed_truth intent sess id pre e (w : World) r w' :
  failed pre e w = (r, w') → ∃ ran, r = Ok ran ∧ told_truth intent sess id ran w'.
Proof. intros [= <- <-]. by eexists. Qed.
Lemma attempt_split {A B} (m : M A) (k : res A → M B) (w w' : World) r :
  (x ← attempt m; k x) w = (r, w') → ∃ r0 w1, m w = (r0, w1) ∧ k r0 w1 = (r, w').
Proof. unfold mbind, m_bind, attempt. destruct (m w) as [r0 w1]. intros H. by exists r0, w1. Qed.
Lemma terminal_unbooked s e : s_status s ≠ StatusBooked → rp_success (terminalResult s e) = false.
Proof. intros H. unfold terminalResult. rewrite bool_decide_eq_false_2 by done. by destruct e. Qed.
Lemma exit_unbooked st e rp : st ≠ StatusBooked → exit_error (mkRan st e rp) ≠ None.
Proof. intros H. unfold exit_error. cbn. rewrite bool_decide_eq_false_2 by done. by destruct e. Qed.
Lemma reported_unbooked intent sess id s e rp (w : World) :
  ss_row (w_store w) id = Some s → s_status s ≠ StatusBooked → rp_success rp = false →
  told_truth intent sess id (mkRan (s_status s) e (Some rp)) w.
Proof. intros Hr Hs Hp. exists s. split; [done|]. split; [done|]. rewrite Hp. split; [by apply exit_unbooked|done]. Qed.

Lemma cancel_truth intent sess id e (w : World) r w' :
  good w → s_ID (w_inner w) = id → s_status (w_inner w) ≠ StatusBooked → after_cancel env id e w = (r, w') →
  ∃ ran, r = Ok ran ∧ told_truth intent sess id ran w'.
Proof.
  intros Hg Hid Hs (rl & w1 & E & H)%attempt_split. destruct (Load_again id w rl w1 Hg Hid E) as (_ & Es & _ & Est & _ & Hl).
  destruct rl as [s|e']; [|by apply (failed_truth intent sess id) in H]. destruct Hl as [<- Hr]. injection H as <- <-. eexists. split; [done|].
  apply reported_unbooked; [by rewrite Es|congruence|done].
Qed.
Lemma book_truth intent id sess (w : World) r w' :
  good w → utc_intent (s_Intent (w_inner w)) = utc_intent intent → s_ID (w_inner w) = id → s_status (w_inner w) ≠ StatusBooked → w_now w' ≤ hi_ns →
  book_released env preparer race id sess w = (r, w') → ∃ ran, r = Ok ran ∧ told_truth intent sess id ran w'.
Proof.
  intros Hg Hint Hid Hs Hh (rr & w1 & E & H)%attempt_split. apply attempt_split in H as (rl & w2 & El & H).
  assert (w2 = w') as -> by (destruct rl; by injection H).
  pose proof (goes_Load id (λ _, True) w1) as [N2 _]. rewrite El in N2. cbn [snd] in N2.
  pose proof (RunBookingRace_outcome env preparer race Henv Hrace sess w Hg) as Hi. rewrite E in Hi.
  destruct (Hi ltac:(lia)) as (Ei & (Hw1 & s1 & Hr1 & Hs1) & ns & _ & W & _ & Ho).
  pose proof (Load_spec env id w1 Hw1) as HL. rewrite El in HL. destruct HL as (E2 & _ & _ & _ & HL).
  rewrite Ei, Hid in Hr1. destruct rl as [s|e]; [|by apply (failed_truth intent sess id) in H].
  destruct HL as (Hr & _ & _). injection H as <-. eexists. split; [done|]. assert (s1 = s) as -> by congruence.
  destruct rr as [[]|e]; cbn [error_of_run].
  - destruct Ho as ([_ _ _ (s' & Hr' & (_ & _ & _ & _ & Hres & _) & _) _] & Hns & c & Hwon & Hc).
    rewrite Ei, Hid in Hr'. assert (s' = s) as -> by congruence. rewrite Hc in Hres.
    apply walked_last in W. rewrite Hns in W. cbn in W. rewrite W in Hs1.
    exists s. split; [by rewrite E2|]. split; [done|]. unfold terminalResult, exit_error. cbn [rn_err rn_status rn_result].
    rewrite bool_decide_eq_true_2 by done. unfold same_result in Hres. destruct (s_Result s) as [r'|]; [|done].
    destruct Hres as [Hid' _]. cbn [rp_success]. do 2 (split; [done|]). exists c. split; [by eapply won_utc|].
    cbn in *. by rewrite Hid'.
  - apply walked_end in W.
    apply reported_unbooked; [by rewrite E2| |apply terminal_unbooked]; rewrite Hs1; (destruct W as [-> | W]; [done|]);
      by intros Hb; rewrite Hb in W.
Qed.
Lemma after_truth intent id sess (w : World) r w' :
  good w → utc_intent (s_Intent (w_inner w)) = utc_intent intent → s_ID (w_inner w) = id → s_status (w_inner w) ≠ StatusBooked → w_now w' ≤ hi_ns →
  after_run env preparer race id sess w = (r, w') → ∃ ran, r = Ok ran ∧ told_truth intent sess id ran w'.
Proof.
  intros Hg Hint Hid Hs Hh (rl & w1 & E & H)%attempt_split.
  destruct (Load_again id w rl w1 Hg Hid E) as (G1 & Es & I1 & Est & Hint1 & Hl).
  destruct rl as [s|e']; [|by apply (failed_truth intent sess id) in H]. destruct Hl as [Ei Hr].
  case_bool_decide as Ha; [eapply (book_truth intent id sess w1); [done|congruence|done|congruence|done|exact H]|].
  destruct (settled (s_status s)); injection H as <- <-; eexists; (split; [done|]); [|by unfold told_truth, exit_error].
  apply reported_unbooked; [by rewrite Es|congruence|apply terminal_unbooked; congruence].
Qed.

(** C10. One snipe from the command line, whichever statements fail,
    whatever the provider answers and whenever the user interrupts it: the
    exit code is 0 exactly when the success was reported, and then the row
    in the store is Booked and holds, as the report says, the confirmation
    that won the race for this intent, over the slots Find answered for it; a
    reported failure is a row that is not Booked, its status the one
    returned; and without a report there is an error to show.  The last case
    tells nothing of the row: when the reload after the race fails the exit
    is an error though the row may be Booked ([booked_but_unreported]). *)
Theorem runSnipe_tells_truth intent sess (w : World) :
  ss_wf (w_store w) → lo_ns ≤ w_now w → sane_intent intent →
  let '(r, w') := runSnipe env preparer race intent sess w in
  w_now w' ≤ hi_ns → ∃ ran, r = Ok ran ∧ told_truth intent sess (newSnipeID intent) ran w'.
Proof.
  intros Hwf Hlo Hi. destruct (runSnipe _ _ _ _ _ _) as [r w'] eqn:E. intros Hh. unfold runSnipe in E.
  apply attempt_split in E as (rs & w1 & E1 & H). pose proof (Submit_spec env Henv (newSnipeID intent) intent w Hwf Hlo Hi) as HS.
  rewrite E1 in HS. destruct rs as [s|e]; [|by apply (failed_truth intent sess (newSnipeID intent)) in H].
  apply attempt_split in H as (rr & w2 & E2 & H).
  pose proof (goes_Run (newSnipeID intent) w1) as [N1 _]. rewrite E2 in N1. cbn [snd] in N1.
  pose proof (goes_rest _ _ _ _ _ _ H) as N2.
  destruct (HS ltac:(lia)) as (-> & Hid & Hint & Hst & _ & G1 & _).
  destruct (Run_status _ w1 _ w2 G1 Hid Hst E2 ltac:(lia)) as (G2 & I2 & S2 & N3).
  destruct rr as [[]|e]; [eapply after_truth; [done|by rewrite N3, Hint|done..|exact H]|]. destruct (is_cancel e); [by eapply cancel_truth|].
  by apply (failed_truth intent sess (newSnipeID intent)) in H.
Qed.
(** The snipe's id is its intent's: whatever became of a snipe, booked,
    failed or expired, the same one is refused from then on. *)
Lemma same_snipe_refused intent sess (w : World) :
  ss_wf (w_store w) → lo_ns ≤ w_now w → sane_intent intent → ss_row (w_store w) (newSnipeID intent) ≠ None →
  let '(r, w') := runSnipe env preparer race intent sess w in
  w_now w' ≤ hi_ns → ∃ e, r = Ok (mkRan StatusFailed (Some (wrap "snipe submit: " e)) None).
Proof.
  intros Hwf Hlo Hi Hr. pose proof (Submit_spec env Henv (newSnipeID intent) intent w Hwf Hlo Hi) as HS.
  destruct (runSnipe _ _ _ _ _ _) as [r w'] eqn:E. intros Hh. unfold runSnipe in E.
  apply attempt_split in E as (rs & w1 & E1 & H). rewrite E1 in HS. destruct rs as [s|e].
  - apply attempt_split in H as (rr & w2 & E2 & H). pose proof (goes_Run (newSnipeID intent) w1) as [N1 _]. rewrite E2 in N1.
    cbn [snd] in N1. pose proof (goes_rest _ _ _ _ _ _ H) as N2.
    by destruct (HS ltac:(lia)) as (_ & _ & _ & _ & Hn & _).
  - injection H as <- <-. by exists e.
Qed.
End Onward.

(** ** An interrupted snipe *)

#[local] Existing Instance store_laws.
(** The reload after an interruption runs under the interrupted context, so
    it fails too: the line "canceled before release" is never printed. *)
Lemma cancel_reload_fails env id e (w : World DB) :
  en_done env (w_step w) = true →
  (after_cancel env id e w).1 = Ok (mkRan StatusFailed (Some (wrap "snipe canceled (and reload failed): " e)) None).
Proof.
  intros Hd. unfold after_cancel, attempt, Load, wrapped, mbind, m_bind, store_call. rewrite Hd.
  cbn [ss_get store_laws]. unfold GetSnipe. run_sql. reflexivity.
Qed.

(** ** A sample snipe *)

Definition sample_output : string :=
  let '(r, w') := runSnipe find_env true sample_race utc_intent_sample sample_session (world_on empty_db) in
  match r with Ok ran => snipe_output (λ _, "UTC") (λ _, to_utc drop_ny) (w_emitted w') ran | Err _ => "" end.
Lemma runSnipe_tells_truth_witness :
  let '(r, w') := runSnipe find_env true sample_race utc_intent_sample sample_session (world_on empty_db) in
  (∃ ran, r = Ok ran ∧ told_truth find_env sample_race utc_intent_sample sample_session (newSnipeID utc_intent_sample) ran w' ∧ exit_error ran = None) ∧
  map n_To (w_emitted w') = [StatusSubmitted; StatusScheduled; StatusAwaiting; StatusFinding; StatusBooking; StatusBooked].
Proof.
  pose proof (runSnipe_tells_truth find_env find_env_ok true sample_race sample_race_ok utc_intent_sample sample_session
                (world_on empty_db) db_wf_empty ltac:(by vm_compute) sane_sample) as H.
  set (run := runSnipe _ _ _ _ _ _) in *.
  assert (Hn : w_now run.2 <=? hi_ns = true) by (vm_compute; reflexivity).
  assert (Hx : match run.1 with Ok ran => exit_error ran = None | Err _ => False end) by (vm_compute; reflexivity).
  assert (He : map n_To (w_emitted run.2) = [StatusSubmitted; StatusScheduled; StatusAwaiting; StatusFinding; StatusBooking; StatusBooked])
    by (vm_compute; reflexivity).
  destruct run as [r w']. split; [|exact He]. apply Z.leb_le in Hn.
  destruct (H Hn) as (ran & -> & Ht). exists ran. split; [reflexivity|]. split; [exact Ht|exact Hx].
Defined.
(** Its last line. *)
Example booked_line_reads :
  last (split_on newline (TrimSpace sample_output)) =
  Some "[04:00:00] BOOKED: confirmation A (confirmation_id=A booked_at=2026-05-10 04:00:00 +0000 UTC)".
Proof. vm_compute. reflexivity. Qed.

(** The snipe books, its last statement fails, and the user is told of an
    error and of no booking. *)
Definition reload_fails_env : Env :=
  mkEnv (λ n, if (n =? 24)%nat then Some (ENew "disk I/O error") else None) (λ _, second) (λ _, false) false (λ _, true)
    UTC (Some find_provider) defaultBookingPolicy.
Lemma booked_but_unreported :
  let '(r, w') := runSnipe reload_fails_env true sample_race utc_intent_sample sample_session (world_on empty_db) in
  s_status <$> ss_row (w_store w') (newSnipeID utc_intent_sample) = Some StatusBooked ∧
  match r with Ok ran => rn_result ran = None ∧ exit_error ran ≠ None | Err _ => False end.
Proof. vm_compute. split_all; congruence. Qed.
