(* ===== verification/Subscribe.v ===== *)
(** * [engine/subscribe.go]: the subscriber list

    Registration under increasing ids, cancel functions that work once, and
    emission to a snapshot in id order, with subscribers that may panic and
    may subscribe or cancel from inside a delivery.  What a subscriber does
    with a notification is its own: [react] stands for it. *)

From S2P Require Import Prelude GoTime Types Status Slots Drop Json Hash Codec Sqlite Engine.

(** ** [sortUint64]: insertion sort in place *)

(** The inner loop: shift while the element on the left is greater; [j] is
    one more than the Go index. *)
Fixpoint shift_down (a : list Z) (v : Z) (j : nat) : list Z :=
  match j with
  | O => <[0%nat := v]> a
  | S i =>
      match a !! i with
      | Some x => if v <? x then shift_down (<[S i := x]> a) v i else <[S i := v]> a
      | None => a
      end
  end.
Definition sort_step (a : list Z) (i : nat) : list Z :=
  match a !! i with Some v => shift_down a v i | None => a end.
Definition sortUint64 (a : list Z) : list Z :=
  foldl sort_step a (seq 1 (length a - 1)).

Lemma shift_down_app p l x v rest :
  (* [p ++ l ++ x :: rest]: the hole is at [x], what is right of [p] and
     left of the hole is greater than [v] *)
  StronglySorted Z.le p → Forall (λ y, v < y) l → StronglySorted Z.le l →
  (∀ y, last p = Some y → y ≤ v) →
  shift_down (p ++ l ++ x :: rest) v (length p + length l) = p ++ v :: l ++ rest.
Proof.
  revert x rest. induction l as [|y l IH] using rev_ind; intros x rest Hp Hl Hsl Hlast.
  - rewrite app_nil_l. cbn [length app]. rewrite Nat.add_0_r. destruct p as [|y p] using rev_ind; [done|]. clear IHp.
    rewrite length_app. cbn [length]. rewrite Nat.add_1_r. cbn [shift_down].
    rewrite <- !app_assoc. cbn [app]. rewrite list_lookup_middle by done.
    specialize (Hlast y ltac:(by rewrite last_snoc)).
    destruct (v <? y) eqn:E; zb; [lia|].
    rewrite insert_app_r_alt by lia. by replace (S (length p) - length p)%nat with 1%nat by lia.
  - apply Forall_app in Hl as [Hl Hy]. apply Forall_cons in Hy as [Hy _].
    rewrite length_app. cbn [length]. rewrite Nat.add_assoc, Nat.add_1_r. cbn [shift_down].
    rewrite <- !app_assoc. cbn [app].
    assert (El : (p ++ l ++ y :: x :: rest) !! (length p + length l)%nat = Some y).
    { rewrite app_assoc, list_lookup_middle; [done|by rewrite length_app]. }
    rewrite El. destruct (v <? y) eqn:E; zb; [|lia].
    assert (Ei : <[S (length p + length l) := y]> (p ++ l ++ y :: x :: rest)
                 = p ++ l ++ y :: y :: rest).
    { rewrite app_assoc, insert_app_r_alt by (rewrite length_app; lia).
      rewrite length_app. replace (S (length p + length l) - (length p + length l))%nat with 1%nat by lia.
      by rewrite <- app_assoc. }
    rewrite Ei. rewrite (IH y (y :: rest)); [done|done|done| |done].
    clear -Hsl. induction l as [|z l IH]; [constructor|]. cbn in Hsl. inversion Hsl; subst.
    constructor; [by apply IH|]. by apply Forall_app in H2 as [? _].
Qed.

Lemma split_sorted s v :
  StronglySorted Z.le s →
  ∃ p l, s = p ++ l ∧ Forall (λ y, y ≤ v) p ∧ Forall (λ y, v < y) l ∧
    StronglySorted Z.le p ∧ StronglySorted Z.le l.
Proof.
  induction 1 as [|x s Hs (p & l & -> & Hp & Hl & Sp & Sl) Hx].
  - exists [], []. by repeat constructor.
  - destruct (Z.le_gt_cases x v).
    + exists (x :: p), l. split; [done|]. split; [by constructor|]. split; [done|].
      split; [|done]. constructor; [done|]. by apply Forall_app in Hx as [? _].
    + exists [], (x :: p ++ l). split; [done|]. split; [constructor|]. split; [|split; [constructor|]].
      * constructor; [lia|]. eapply Forall_impl; [exact Hx|]. cbn. intros; lia.
      * by constructor.
Qed.
Lemma sort_step_spec s v rest :
  StronglySorted Z.le s →
  ∃ s', sort_step (s ++ v :: rest) (length s) = s' ++ rest ∧ StronglySorted Z.le s' ∧ s' ≡ₚ v :: s.
Proof.
  intros Hs. unfold sort_step. rewrite list_lookup_middle by done.
  destruct (split_sorted s v Hs) as (p & l & -> & Hp & Hl & Sp & Sl).
  rewrite length_app, <- app_assoc, shift_down_app; try done.
  - exists (p ++ v :: l). split; [by rewrite <- app_assoc|]. split; [|by rewrite Permutation_middle].
    clear Hs. induction Sp as [|x p Sp IH Hx]; cbn.
    + constructor; [done|]. eapply Forall_impl; [exact Hl|]. cbn. lia.
    + apply Forall_cons in Hp as [Hxv Hp]. constructor; [by apply IH|].
      apply Forall_app. split; [done|]. apply Forall_cons. split; [done|].
      eapply Forall_impl; [exact Hl|]. cbn. lia.
  - intros y Hy. apply (Forall_forall _ p) with (x := y) in Hp; [done|].
    apply last_Some in Hy as [p' ->]. set_solver.
Qed.
Lemma sort_loop s rest :
  StronglySorted Z.le s → (length s > 0)%nat →
  let r := foldl sort_step (s ++ rest) (seq (length s) (length rest)) in
  StronglySorted Z.le r ∧ r ≡ₚ s ++ rest.
Proof.
  revert s. induction rest as [|v rest IH]; intros s Hs Hn; cbn.
  - by rewrite app_nil_r.
  - destruct (sort_step_spec s v rest Hs) as (s' & -> & Hs' & Hp).
    assert (El : length s' = S (length s)) by (by rewrite Hp).
    rewrite <- El. destruct (IH s' Hs' ltac:(lia)) as [H1 H2]. split; [done|].
    rewrite H2, Hp. cbn. by rewrite Permutation_middle.
Qed.
Lemma sortUint64_sorts a : StronglySorted Z.le (sortUint64 a) ∧ sortUint64 a ≡ₚ a.
Proof.
  unfold sortUint64. destruct a as [|x a]; [split; [constructor|done]|]. cbn [length].
  rewrite Nat.sub_succ, Nat.sub_0_r.
  apply (sort_loop [x] a); [repeat constructor|cbn; lia].
Qed.

(** ** The list *)

Record Subs := mkSubs { su_subs : gmap Z nat; su_next : Z; su_fired : gset Z }.
Definition no_subs : Subs := mkSubs ∅ 0 ∅.
(** Registration: the new state and the id its cancel function closes over;
    a nil subscriber panics. *)
Definition Subscribe (fn : option nat) (st : Subs) : option (Z * Subs) :=
  match fn with
  | None => None
  | Some f =>
      let id := su_next st in
      Some (id, mkSubs (<[id := f]> (su_subs st)) ((id + 1) mod 2 ^ 64) (su_fired st))
  end.
(** The cancel function, under its [sync.Once]. *)
Definition cancel (id : Z) (st : Subs) : Subs :=
  if bool_decide (id ∈ su_fired st) then st
  else mkSubs (delete id (su_subs st)) (su_next st) ({[id]} ∪ su_fired st).

(** What a subscriber may do from inside a delivery. *)
Inductive SubOp := OpSubscribe (fn : nat) | OpCancel (id : Z).
#[export] Instance SubOp_eq_dec : EqDecision SubOp.
Proof. solve_decision. Defined.
Definition apply_op (st : Subs) (o : SubOp) : Subs :=
  match o with
  | OpSubscribe f => match Subscribe (Some f) st with Some (_, st') => st' | None => st end
  | OpCancel id => cancel id st
  end.

Section Emit.
(** What each subscriber does, and whether it then panics. *)
Context (react : nat → Notification → list SubOp * bool).

(** [safeDeliver]: a panic is recovered; what was done before it stays. *)
Definition safeDeliver (fn : nat) (n : Notification) (st : Subs) : Subs :=
  let '(ops, panics) := react fn n in foldl apply_op st ops.
Fixpoint deliver_all (subs : list (Z * nat)) (n : Notification) (st : Subs) : list (Z * nat) * Subs :=
  match subs with
  | [] => ([], st)
  | (id, fn) :: rest =>
      let '(log, st') := deliver_all rest n (safeDeliver fn n st) in ((id, fn) :: log, st')
  end.
(** [emit], for the order in which the map happened to list its ids: the
    deliveries made, and the list afterwards. *)
Definition emit (ids : list Z) (n : Notification) (st : Subs) : list (Z * nat) * Subs :=
  if bool_decide (su_subs st = ∅) then ([], st)
  else
    let subs := omap (λ id, (λ fn, (id, fn)) <$> su_subs st !! id) (sortUint64 ids) in
    deliver_all subs n st.

(** [range] lists every key once. *)
Definition lists_keys (ids : list Z) (st : Subs) : Prop := ids ≡ₚ map fst (map_to_list (su_subs st)).

Lemma deliver_all_log subs n st : (deliver_all subs n st).1 = subs.
Proof.
  revert st. induction subs as [|[id fn] subs IH]; intros st; [done|]. cbn.
  specialize (IH (safeDeliver fn n st)). by destruct (deliver_all _ _ _) as [l st'] in *; cbn in *; subst.
Qed.
Lemma omap_keys (m : gmap Z nat) ids :
  (∀ id, id ∈ ids → is_Some (m !! id)) → map fst (omap (λ id, (λ fn, (id, fn)) <$> m !! id) ids) = ids.
Proof.
  induction ids as [|id ids IH]; intros H; [done|]. cbn.
  destruct (H id ltac:(by left)) as [f Ef]. rewrite Ef. cbn. f_equal. apply IH. intros j Hj. apply H.
  by right.
Qed.
Lemma keys_spec st ids : lists_keys ids st → NoDup ids ∧ ∀ id, id ∈ ids ↔ is_Some (su_subs st !! id).
Proof.
  intros H. unfold lists_keys in H. split.
  - rewrite H. apply NoDup_fst_map_to_list.
  - intros id. rewrite H, list_elem_of_fmap. split.
    + intros ([k f] & -> & Hin). apply elem_of_map_to_list in Hin. by eexists.
    + intros [f Hf]. exists (id, f). split; [done|]. by apply elem_of_map_to_list.
Qed.
Lemma sorted_strict l : StronglySorted Z.le l → NoDup l → StronglySorted Z.lt l.
Proof.
  induction 1 as [|x l Hs IH Hx]; [constructor|]. intros [Hni Hn]%NoDup_cons.
  constructor; [by apply IH|]. apply Forall_forall. intros y Hy.
  pose proof (proj1 (Forall_forall _ _) Hx y Hy). cbn in *. assert (x ≠ y) by congruence. lia.
Qed.

(** Every subscriber registered when a notification is emitted gets it
    exactly once, in the order of registration, and nobody else does: no
    matter in what order the map lists its keys, which subscribers panic,
    and what they subscribe or cancel while it is being delivered. *)
Theorem emit_spec ids n st :
  lists_keys ids st →
  let log := (emit ids n st).1 in
  StronglySorted Z.lt (map fst log) ∧
  ∀ id fn, (id, fn) ∈ log ↔ su_subs st !! id = Some fn.
Proof.
  intros Hk. destruct (keys_spec st ids Hk) as [Hnd Hin]. unfold emit.
  case_bool_decide as He; cbn.
  - split; [constructor|]. intros id fn. rewrite He, lookup_empty. split; [by intros ?%elem_of_nil|done].
  - rewrite deliver_all_log. destruct (sortUint64_sorts ids) as [Hs Hp]. split.
    + rewrite omap_keys; [apply sorted_strict; [done|by rewrite Hp]|].
      intros id. rewrite Hp. apply Hin.
    + intros id fn. rewrite list_elem_of_omap. split.
      * intros (k & _ & Ek). destruct (su_subs st !! k) eqn:Ef; [|done]. by simplify_eq/=.
      * intros Hf. exists id. rewrite Hf. split; [|done]. rewrite Hp. apply Hin. by eexists.
Qed.
End Emit.

(** ** Registration and cancellation *)

(** Ids in use and cancelled ids are below the next one (true from the
    start, and until [2^64] registrations). *)
Definition subs_wf (st : Subs) : Prop :=
  0 ≤ su_next st < 2 ^ 64 ∧
  (∀ id, is_Some (su_subs st !! id) → 0 ≤ id < su_next st) ∧
  ∀ id, id ∈ su_fired st → 0 ≤ id < su_next st.
Lemma no_subs_wf : subs_wf no_subs.
Proof. split; [done|]. split; [intros id; cbn; by rewrite lookup_empty; intros []|]. set_solver. Qed.

(** A cancel function exists only for an id that was handed out; ids do not
    wrap around. *)
Definition op_ok (st : Subs) (o : SubOp) : Prop :=
  match o with OpSubscribe _ => su_next st + 1 < 2 ^ 64 | OpCancel id => 0 ≤ id < su_next st end.
Fixpoint ops_ok (st : Subs) (ops : list SubOp) : Prop :=
  match ops with [] => True | o :: ops' => op_ok st o ∧ ops_ok (apply_op st o) ops' end.

Lemma apply_op_wf st o :
  op_ok st o → subs_wf st → subs_wf (apply_op st o) ∧ su_next st ≤ su_next (apply_op st o).
Proof.
  intros Ho (Hn & Hm & Hf). destruct o as [f|id]; cbn [op_ok apply_op Subscribe] in *.
  - assert (En : (su_next st + 1) mod 2 ^ 64 = su_next st + 1) by (apply Z.mod_small; lia).
    unfold subs_wf. cbn [su_next su_subs su_fired]. rewrite En. split; [|lia]. split; [lia|]. split.
    + intros j. rewrite lookup_insert_is_Some. intros [<-|[_ Hj]]; [lia|]. specialize (Hm j Hj). lia.
    + intros j Hj. specialize (Hf j Hj). lia.
  - unfold cancel. case_bool_decide; [by split; [|lia]|]. unfold subs_wf. cbn [su_next su_subs su_fired].
    split; [|lia]. split; [done|]. split.
    + intros j. rewrite lookup_delete_is_Some. intros [_ Hj]. by apply Hm.
    + intros j. rewrite elem_of_union, elem_of_singleton. intros [->|Hj]; [done|by apply Hf].
Qed.
(** Once issued, an id is touched by its own cancel function only. *)
Lemma apply_op_lookup st o id :
  subs_wf st → op_ok st o → id < su_next st → o ≠ OpCancel id →
  su_subs (apply_op st o) !! id = su_subs st !! id.
Proof.
  intros _ Ho Hlt Hne. destruct o as [f|j]; cbn [op_ok apply_op Subscribe su_subs] in *.
  - rewrite lookup_insert_ne by lia. done.
  - unfold cancel. case_bool_decide; [done|]. cbn. rewrite lookup_delete_ne by congruence. done.
Qed.
Lemma cancelled_stays st ops id :
  subs_wf st → ops_ok st ops → id < su_next st → su_subs st !! id = None →
  su_subs (foldl apply_op st ops) !! id = None.
Proof.
  revert st. induction ops as [|o ops IH]; intros st Hw Ho Hlt Hid; cbn; [done|].
  destruct Ho as [Ho Hos]. destruct (apply_op_wf st o Ho Hw) as [Hw' Hn].
  apply IH; [done|done|lia|]. destruct (decide (o = OpCancel id)) as [->|Hne].
  - cbn. unfold cancel. case_bool_decide; [done|]. cbn. by rewrite lookup_delete_eq.
  - by rewrite apply_op_lookup.
Qed.
Lemma subscribed_stays st ops id :
  subs_wf st → ops_ok st ops → id < su_next st → OpCancel id ∉ ops →
  su_subs (foldl apply_op st ops) !! id = su_subs st !! id.
Proof.
  revert st. induction ops as [|o ops IH]; intros st Hw Ho Hlt Hni; cbn; [done|].
  destruct Ho as [Ho Hos]. destruct (apply_op_wf st o Ho Hw) as [Hw' Hn].
  apply not_elem_of_cons in Hni as [H1 H2]. rewrite IH; [|done|done|lia|done].
  by apply apply_op_lookup.
Qed.

(** A subscription gets an id nobody else holds and stays registered
    through any later subscriptions and cancellations but its own; after its
    own cancel it is gone for good, however often that is called again. *)
Theorem subscription_lifecycle f st id st1 ops :
  subs_wf st → su_next st + 1 < 2 ^ 64 → Subscribe (Some f) st = Some (id, st1) →
  su_subs st !! id = None ∧ su_subs st1 !! id = Some f ∧
  (∀ j, j ≠ id → su_subs st1 !! j = su_subs st !! j) ∧
  (ops_ok st1 ops → OpCancel id ∉ ops → su_subs (foldl apply_op st1 ops) !! id = Some f) ∧
  (ops_ok (cancel id st1) ops → su_subs (foldl apply_op (cancel id st1) ops) !! id = None).
Proof.
  intros Hw Hlt E. pose proof (apply_op_wf st (OpSubscribe f) Hlt Hw) as [Hw1 _].
  cbn [apply_op] in Hw1. rewrite E in Hw1. pose proof Hw as (Hn & Hm & Hf).
  injection E as <- <-. set (id := su_next st) in *. set (st1 := mkSubs _ _ _) in *.
  assert (En : su_next st1 = id + 1) by (apply Z.mod_small; lia).
  assert (Hid : su_subs st1 !! id = Some f) by (cbn; by rewrite lookup_insert_eq).
  split; [apply eq_None_not_Some; intros Hs; specialize (Hm _ Hs); lia|]. split; [done|].
  split; [intros j Hj; cbn; by rewrite lookup_insert_ne|]. split.
  - intros Hok Hni. rewrite subscribed_stays; [done|done|done|lia|done].
  - intros Hok. destruct (apply_op_wf st1 (OpCancel id)) as [Hw2 Hn2]; [change (0 ≤ id < su_next st1); lia|done|].
    cbn [apply_op] in *. apply cancelled_stays; [done|done|lia|].
    unfold cancel. case_bool_decide as Hfd; cbn; [|by rewrite lookup_delete_eq].
    specialize (Hf id Hfd). lia.
Qed.

(** ** Samples *)

Definition two_subs : Subs := foldl apply_op no_subs [OpSubscribe 7; OpSubscribe 8].
(** The first subscriber cancels the second and subscribes a third, and
    panics. *)
Definition unruly (fn : nat) (n : Notification) : list SubOp * bool :=
  if (fn =? 7)%nat then ([OpCancel 1; OpSubscribe 9], true) else ([], false).
Definition sample_notification : Notification :=
  mkNotification "q1" None StatusSubmitted (mkEvent EventSubmitted (to_utc drop_ny) []).
Lemma emit_spec_witness :
  (1, 8%nat) ∈ (emit unruly [1; 0] sample_notification two_subs).1.
Proof.
  apply (emit_spec unruly [1; 0] sample_notification two_subs); [|reflexivity].
  unfold lists_keys. vm_compute. apply Permutation_swap || done.
Defined.
Lemma subscription_lifecycle_witness :
  su_subs (foldl apply_op (cancel 0 (apply_op no_subs (OpSubscribe 7))) [OpCancel 0; OpSubscribe 8]) !! 0
  = None.
Proof.
  apply (subscription_lifecycle 7 no_subs 0 (apply_op no_subs (OpSubscribe 7)) [OpCancel 0; OpSubscribe 8]);
    [exact no_subs_wf|done|reflexivity|].
  cbn. split; [done|]. split; [|done]. vm_compute. done.
Defined.
