(* ===== verification/Strategy.v ===== *)
(** * [planner/strategy.go]: which release strategy

    [SelectStrategy]'s three rules (continuous when the calendar already
    shows the date, explicit when a release prior is known, discovered
    otherwise), after the venue-local past-date check.  The calendar, the
    observed release and the configuration are inputs, as in the source. *)

From S2P Require Import Prelude GoTime GoFormat Types Slots Drop.

Definition ErrTargetInPast : error := ESentinel "planner: target date is in the past".
Definition ErrVenueClosed : error := ESentinel "planner: venue is not accepting reservations".
Definition ErrNoStrategyAvailable : error := ESentinel "planner: no release strategy applies".

Record VenueReleaseConfig := mkReleaseConfig { rc_DaysAhead : Z; rc_TimeLocal : WallTime }.
#[export] Instance VenueReleaseConfig_eq_dec : EqDecision VenueReleaseConfig.
Proof. solve_decision. Defined.
Definition zero_config : VenueReleaseConfig := mkReleaseConfig 0 (mkWallTime 0 0 0).
Definition config_IsZero (c : VenueReleaseConfig) : bool := bool_decide (c = zero_config).

Record StrategyInput := mkStrategyInput {
  si_Goal : Goal;
  si_Venue : Venue;
  si_Now : Time;
  si_CalendarSnapshot : Calendar;
  si_ObservedReleaseAvg : option Time;
  si_ReleaseConfig : VenueReleaseConfig;
  si_ContinuousUntil : Time
}.

(** The first entry for the date decides. *)
Fixpoint days_show (days : list CalendarDay) (date : Date) : bool :=
  match days with
  | [] => false
  | d :: days' =>
      if bool_decide (cd_Date d = date) then cd_Available d else days_show days' date
  end.
Definition calendarShowsBookable (snap : Calendar) (date : Date) : bool :=
  days_show (cal_Days snap) date.

Definition startOfDayIn (now : Time) (loc : Location) : Time :=
  let l := in_loc now loc in
  go_date (t_year l) (t_month l) (t_day l) 0 0 0 0 loc.
Definition endOfDayIn (now : Time) (loc : Location) : Time :=
  let l := in_loc now loc in
  go_date (t_year l) (t_month l) (t_day l) 23 59 59 0 loc.

(** [t.Format("2006-01-02")] in the time's own location. *)
Definition fmt_local_date (t : Time) : string :=
  append_int 4 (t_year t) +:+ "-" +:+ append_int 2 (t_month t) +:+ "-"
  +:+ append_int 2 (t_day t).

(** Both take the venue's (non-nil) location: [SelectStrategy] has checked it. *)
Definition bestEffortExplicitDrop (si : StrategyInput) (tz : Location) : Time :=
  match si_ObservedReleaseAvg si with
  | Some t => t
  | None =>
      if negb (config_IsZero (si_ReleaseConfig si)) then
        release_instant (g_Date (si_Goal si)) (rc_DaysAhead (si_ReleaseConfig si))
          (rc_TimeLocal (si_ReleaseConfig si)) tz
      else add_date (date_In (g_Date (si_Goal si)) tz) 0 0 (-1)
  end.
Definition bestEffortDiscoveredProbe (si : StrategyInput) (tz : Location) : Time * Time :=
  let probeLead := 90 * second in
  let probeWidth := 5 * minute in
  let anchor := add_date (date_In (g_Date (si_Goal si)) tz) 0 0 (-1) in
  let dropGuess := go_date (t_year anchor) (t_month anchor) (t_day anchor) 0 0 0 0 tz in
  let dropGuess := if time_before dropGuess (si_Now si) then si_Now si else dropGuess in
  let probeFrom := time_add dropGuess (- probeLead) in
  (probeFrom, time_add probeFrom probeWidth).

Definition SelectStrategy (si : StrategyInput) : res (ReleaseStrategy * list string) :=
  let date := g_Date (si_Goal si) in
  match v_TZ (si_Venue si) with
  | None => Err ErrVenueMissingTZ
  | Some tz =>
      let targetMidnight := date_In date tz in
      let venueToday := startOfDayIn (si_Now si) tz in
      if time_before targetMidnight venueToday then
        Err (EWrap (error_String ErrTargetInPast +:+ ": target=" +:+ date_String date
                    +:+ " venue-today=" +:+ fmt_local_date venueToday) [ErrTargetInPast])
      else if calendarShowsBookable (si_CalendarSnapshot si) date then
        let until := if is_zero_time (si_ContinuousUntil si) then endOfDayIn (si_Now si) tz
                     else si_ContinuousUntil si in
        Ok (ContinuousRelease (to_utc until),
            ["strategy=Continuous because Resy is already serving slots for "
             +:+ date_String date +:+ "; we'll race cancellations until "
             +:+ fmt_rfc3339 (t_ns until)])
      else
        match si_ObservedReleaseAvg si with
        | Some _ =>
            let at_ := bestEffortExplicitDrop si tz in
            Ok (ExplicitRelease (to_utc at_),
                ["strategy=Explicit at " +:+ fmt_rfc3339 (t_ns at_)
                 +:+ " (using observed release average; drop math finalized in M1-07)"])
        | None =>
            if negb (config_IsZero (si_ReleaseConfig si)) then
              let at_ := bestEffortExplicitDrop si tz in
              Ok (ExplicitRelease (to_utc at_),
                  ["strategy=Explicit at " +:+ fmt_rfc3339 (t_ns at_)
                   +:+ " (using configured release_days_ahead="
                   +:+ fmt_d (rc_DaysAhead (si_ReleaseConfig si))
                   +:+ ", release_time_local=" +:+ wall_String (rc_TimeLocal (si_ReleaseConfig si))
                   +:+ "; drop math finalized in M1-07)"])
            else
              let '(probeFrom, probeUntil) := bestEffortDiscoveredProbe si tz in
              Ok (DiscoveredRelease (to_utc probeFrom) (to_utc probeUntil),
                  ["strategy=Discovered because Resy hasn't observed a release for venue "
                   +:+ venueRef_String (venue_AsRef (si_Venue si)) +:+ " yet; probing "
                   +:+ fmt_rfc3339 (t_ns probeFrom) +:+ ".." +:+ fmt_rfc3339 (t_ns probeUntil)])
        end
  end.

(** ** The days the checks compare *)

(** The day number on the clock at [loc]. *)
Definition local_day (t : Time) (loc : Location) : Z := local_secs (in_loc t loc) / 86400.

Lemma local_day_civil t loc :
  t_date (in_loc t loc) = civil_of_days (local_day t loc).
Proof. done. Qed.

(** The midnight that began, and the last second of, the venue's day. *)
Lemma day_bound_face now loc h mi s :
  valid_clock h mi s = true →
  clear_face loc (face (local_day now loc) (h * 3600 + mi * 60 + s)) →
  let l := in_loc now loc in
  let t := go_date (t_year l) (t_month l) (t_day l) h mi s 0 loc in
  t_loc t = loc ∧ local_secs t = face (local_day now loc) (h * 3600 + mi * 60 + s).
Proof.
  intros Hc Hf l t. subst t. unfold t_year, t_month, t_day, l.
  rewrite local_day_civil.
  destruct (civil_of_days (local_day now loc)) as [[y m] d] eqn:E. cbn [fst snd].
  apply days_of_civil_of_days in E as (E1 & E2).
  unfold valid_clock in Hc. zb.
  edestruct (go_date_face y m d h mi s (local_day now loc)) as (? & ? & _);
    [|idtac|exact Hf|split; [done|done]]; [|lia].
  rewrite wall_secs_face by done. by rewrite E1.
Qed.

(** No two offsets of the zone are a day or more apart. *)
Definition offsets_within_a_day (l : Location) : Prop :=
  ∀ u v, Z.abs (offset_at l u - offset_at l v) < 86400.

(** Midnights are ordered as their days are. *)
Lemma midnights_ordered l j k :
  offsets_within_a_day l → clear_face l (face j 0) → clear_face l (face k 0) →
  (zone_search l (face j 0) <? zone_search l (face k 0)) = (j <? k).
Proof.
  intros Ho (Hs & Hj1 & Hj2) (_ & Hk1 & Hk2).
  pose proof (zone_search_shows _ _ Hs Hj1 Hj2) as Ej.
  pose proof (zone_search_shows _ _ Hs Hk1 Hk2) as Ek.
  destruct (decide (j = k)) as [->|]; [by rewrite !Z.ltb_irrefl|].
  set (a := zone_search l (face j 0)) in *. set (b := zone_search l (face k 0)) in *.
  specialize (Ho a b). unfold face in *.
  destruct (j <? k) eqn:E; zb; [apply Z.ltb_lt|apply Z.ltb_ge]; lia.
Qed.

(** The past-date check compares the target with the venue's own day. *)
Lemma past_check si tz :
  valid_date (g_Date (si_Goal si)) = true → offsets_within_a_day tz →
  clear_face tz (face (day_number (g_Date (si_Goal si))) 0) →
  clear_face tz (face (local_day (si_Now si) tz) 0) →
  time_before (date_In (g_Date (si_Goal si)) tz) (startOfDayIn (si_Now si) tz)
  = (day_number (g_Date (si_Goal si)) <? local_day (si_Now si) tz).
Proof.
  intros Hv Ho H1 H2. rewrite <- (midnights_ordered tz) by done.
  unfold time_before, date_In, startOfDayIn, go_date. cbn [t_ns].
  rewrite wall_secs_face by done.
  unfold t_year, t_month, t_day. rewrite local_day_civil.
  destruct (civil_of_days (local_day (si_Now si) tz)) as [[y m] d] eqn:E. cbn [fst snd].
  apply days_of_civil_of_days in E as (E1 & E2). rewrite wall_secs_face, E1 by done.
  unfold second, day_number.
  change (0 * 3600 + 0 * 60 + 0) with 0.
  match goal with |- (?x <? ?y) = (?z <? ?w) => destruct (z <? w) eqn:?; zb;
    [apply Z.ltb_lt|apply Z.ltb_ge]; lia end.
Qed.

(** The two facts plan assembly uses. *)
Lemma SelectStrategy_window si tz from until notes :
  v_TZ (si_Venue si) = Some tz → SelectStrategy si = Ok (DiscoveredRelease from until, notes) →
  t_loc from = UTC ∧ t_ns until = t_ns from + 300 * second.
Proof.
  intros Htz. unfold SelectStrategy. rewrite Htz.
  destruct (time_before _ _); [done|]. destruct (calendarShowsBookable _ _); [done|].
  destruct (si_ObservedReleaseAvg si); [done|].
  destruct (negb (config_IsZero (si_ReleaseConfig si))); [done|].
  destruct (bestEffortDiscoveredProbe si tz) as [f u] eqn:Ep. intros [= <- <- _].
  unfold bestEffortDiscoveredProbe in Ep. injection Ep as <- <-. done.
Qed.
Lemma SelectStrategy_explicit_now si now' a a' n n' :
  SelectStrategy si = Ok (ExplicitRelease a, n) →
  SelectStrategy (mkStrategyInput (si_Goal si) (si_Venue si) now' (si_CalendarSnapshot si)
                    (si_ObservedReleaseAvg si) (si_ReleaseConfig si) (si_ContinuousUntil si))
  = Ok (ExplicitRelease a', n') → a' = a.
Proof.
  unfold SelectStrategy. cbn [si_Goal si_Venue si_CalendarSnapshot si_ObservedReleaseAvg
    si_ReleaseConfig si_ContinuousUntil si_Now].
  destruct (v_TZ (si_Venue si)) as [tz|]; [|done].
  destruct (time_before _ (startOfDayIn (si_Now si) tz)); [done|].
  destruct (time_before _ (startOfDayIn now' tz)); [done|].
  destruct (calendarShowsBookable _ _); [done|].
  unfold bestEffortExplicitDrop.
  cbn [si_Goal si_ReleaseConfig si_ObservedReleaseAvg].
  destruct (si_ObservedReleaseAvg si); [by intros [= <- _] [= <- _]|].
  destruct (negb _); [by intros [= <- _] [= <- _]|].
  by destruct (bestEffortDiscoveredProbe si tz).
Qed.

(** ** Properties *)

(** With a time zone, [SelectStrategy] refuses exactly the targets whose
    day is before the current day {e on the venue's calendar} (not the
    operator's, not UTC's), with [ErrTargetInPast]; every other target gets
    a strategy.  Without a time zone it fails with [ErrVenueMissingTZ]. *)
Theorem SelectStrategy_past si tz :
  v_TZ (si_Venue si) = Some tz →
  valid_date (g_Date (si_Goal si)) = true → offsets_within_a_day tz →
  clear_face tz (face (day_number (g_Date (si_Goal si))) 0) →
  clear_face tz (face (local_day (si_Now si) tz) 0) →
  if day_number (g_Date (si_Goal si)) <? local_day (si_Now si) tz
  then ∃ e, SelectStrategy si = Err e ∧ errors_is e ErrTargetInPast = true
  else is_Ok (SelectStrategy si) = true.
Proof.
  intros Htz Hv Ho H1 H2. rewrite <- past_check by done.
  unfold SelectStrategy. rewrite Htz.
  destruct (time_before _ _); [eexists; split; [done|reflexivity]|].
  by repeat case_goal.
Qed.

(** C29. The three rules, in their priority: Continuous iff the calendar
    shows the date bookable, until the caller's cap or the end of the
    venue's day; else Explicit iff a prior is known, at the observed
    release, or else exactly where [ComputeDrop] puts the configured one;
    else Discovered, a five-minute window that opens at most 90 seconds in
    the past.  Every instant is in UTC, and one note explains the choice.
    These are the rules of the code and its comment; the design has others
    for today without slots and for a date of which only the configured days
    are known. *)
Theorem SelectStrategy_rules si tz s notes :
  v_TZ (si_Venue si) = Some tz → SelectStrategy si = Ok (s, notes) →
  length notes = 1%nat ∧
  let date := g_Date (si_Goal si) in
  let bookable := calendarShowsBookable (si_CalendarSnapshot si) date in
  let config := si_ReleaseConfig si in
  match s with
  | ContinuousRelease until =>
      bookable = true ∧
      until = to_utc (if is_zero_time (si_ContinuousUntil si) then endOfDayIn (si_Now si) tz
                      else si_ContinuousUntil si)
  | ExplicitRelease at_ =>
      bookable = false ∧
      match si_ObservedReleaseAvg si with
      | Some t => at_ = to_utc t
      | None =>
          config ≠ zero_config ∧
          (0 ≤ rc_DaysAhead config →
           ComputeDrop date (rc_DaysAhead config) (rc_TimeLocal config) (Some tz) = Ok at_)
      end
  | DiscoveredRelease from until =>
      bookable = false ∧ si_ObservedReleaseAvg si = None ∧ config = zero_config ∧
      t_loc from = UTC ∧ t_loc until = UTC ∧
      t_ns until = t_ns from + 300 * second ∧ t_ns (si_Now si) - 90 * second ≤ t_ns from
  end.
Proof.
  intros Htz. unfold SelectStrategy. rewrite Htz.
  destruct (time_before _ _); [done|].
  destruct (calendarShowsBookable _ _); [by intros [= <- <-]|].
  unfold bestEffortExplicitDrop. destruct (si_ObservedReleaseAvg si) as [t|] eqn:Eo.
  { intros [= <- <-]. done. }
  destruct (negb (config_IsZero (si_ReleaseConfig si))) eqn:Ec.
  - intros [= <- <-]. unfold config_IsZero in Ec. zb. apply bool_decide_eq_false in Ec.
    split; [done|]. split; [done|]. split; [done|]. intros Hd.
    unfold ComputeDrop. destruct (_ <? 0) eqn:E; zb; [lia|done].
  - destruct (bestEffortDiscoveredProbe si tz) as [f u] eqn:Ep. intros [= <- <-].
    unfold config_IsZero in Ec. zb. apply bool_decide_eq_true in Ec.
    unfold bestEffortDiscoveredProbe in Ep. injection Ep as <- <-.
    split_all; try done; simpl; unfold time_before.
    match goal with |- context [t_ns ?g <? _] => generalize g; intros g' end.
    destruct (_ <? t_ns (si_Now si)) eqn:E; zb; lia.
Qed.

(** The day's end, where the clock shows it, and where midnight itself
    falls back: the default cap of a Continuous strategy can be past. *)
Lemma endOfDayIn_face now loc :
  clear_face loc (face (local_day now loc) 86399) →
  local_secs (endOfDayIn now loc) = face (local_day now loc) 86399.
Proof. intros H. by apply (day_bound_face now loc 23 59 59). Qed.
Lemma endOfDayIn_midnight_fallback :
  ∃ now, t_date (in_loc now SaoPaulo2018) = (2019, 2, 16) ∧
         time_before (endOfDayIn now SaoPaulo2018) now = true.
Proof. exists (go_date 2019 2 17 2 30 0 0 UTC). split; reflexivity. Qed.

(** ** Witnesses *)

Definition dinner (d : Date) : Goal :=
  mkGoal (Some (VenueQuerySlug "carbone" "ny")) d 2 evening "acct-1" (mkConstraints ["Bar"] false).
Definition carbone (tz : option Location) : Venue := mkVenue "resy" "6194" "Carbone" tz.
Definition no_calendar : Calendar := mkCalendar (mkVenueRef "resy" "6194") [].
(** Planning 2026-04-07 in New York, thirty days ahead at 10:00. *)
Definition april_input : StrategyInput :=
  mkStrategyInput (dinner (mkDate 2026 4 7)) (carbone (Some NewYork2026))
    (go_date 2026 3 2 15 0 0 0 UTC) no_calendar None
    (mkReleaseConfig 30 (mkWallTime 10 0 0)) zero_time.

Lemma ny_offsets : offsets_within_a_day NewYork2026.
Proof.
  intros u v. unfold offset_at, lookup_zone. simpl. repeat case_goal; simpl; lia.
Qed.

Lemma SelectStrategy_past_witness : is_Ok (SelectStrategy april_input) = true.
Proof.
  refine (SelectStrategy_past april_input NewYork2026 eq_refl eq_refl ny_offsets _ _);
    apply ny_clear; cbv; intuition congruence.
Defined.

Lemma SelectStrategy_rules_witness :
  ComputeDrop (mkDate 2026 4 7) 30 (mkWallTime 10 0 0) (Some NewYork2026)
  = Ok (go_date 2026 3 8 14 0 0 0 UTC).
Proof.
  assert (E : ∃ notes, SelectStrategy april_input
      = Ok (ExplicitRelease (go_date 2026 3 8 14 0 0 0 UTC), notes))
    by (eexists; vm_compute; reflexivity).
  destruct E as [notes E].
  destruct (SelectStrategy_rules april_input NewYork2026 _ notes eq_refl E) as (_ & _ & _ & H).
  apply H. discriminate.
Defined.
