(* ===== verification/Plan.v ===== *)
(** * [planner/plan.go]: from goal to hash-pinned plan

    [BuildPlan] composes strategy selection, slot expansion, the fire
    schedule and the plan hash. *)

From S2P Require Import Prelude GoTime GoFormat Types Slots Drop Sha256 Json Hash Strategy.

Record PlanInput := mkPlanInput {
  pi_Goal : Goal;
  pi_Venue : Venue;
  pi_Now : Time;
  pi_CalendarSnapshot : Calendar;
  pi_ObservedReleaseAvg : option Time;
  pi_ReleaseConfig : option VenueReleaseConfig;
  pi_ContinuousUntil : Time
}.

(** Computed by the explicit branch "for symmetry" and discarded there. *)
Definition projectSlots (slots : list SlotPreference) (date : Date) (tz : option Location)
    : list Time :=
  match tz with
  | None => []
  | Some tz =>
      map (λ s, to_utc (go_date (d_year date) (d_month date) (d_day date)
                          (w_hour (sp_Time s)) (w_minute (sp_Time s)) (w_second (sp_Time s)) 0 tz))
        slots
  end.

(** Integer division of a [Duration] truncates. *)
Definition fireScheduleFor (strategy : option ReleaseStrategy) (slots : list SlotPreference)
    (date : Date) (tz : option Location) (now : Time) : Time * list Time :=
  match strategy with
  | Some (ExplicitRelease at_) =>
      let _ := projectSlots slots date tz in
      (to_utc at_, map (λ _, to_utc at_) slots)
  | Some (ContinuousRelease _) =>
      let drop := to_utc now in
      (drop, map (λ _, drop) slots)
  | Some (DiscoveredRelease from until) =>
      let center := to_utc (time_add from (Z.quot (time_sub until from) 2)) in
      (to_utc from, map (λ _, center) slots)
  | None => (to_utc now, [])
  end.

Definition strategy_input (pi : PlanInput) : StrategyInput :=
  mkStrategyInput (pi_Goal pi) (pi_Venue pi) (pi_Now pi) (pi_CalendarSnapshot pi)
    (pi_ObservedReleaseAvg pi)
    (match pi_ReleaseConfig pi with Some c => c | None => zero_config end)
    (pi_ContinuousUntil pi).
Definition signing_note : string :=
  "signing_required=false (v1: domain.Venue carries no peak-venue indicator; signer adapter is consulted live at fire time)".

(** [fmt.Errorf("planner.BuildPlan: %w", err)]. *)
Definition in_BuildPlan {A} (m : res A) : res A :=
  match m with Ok a => Ok a | Err e => Err (wrap "planner.BuildPlan: " e) end.

Definition BuildPlan (pi : PlanInput) : res Plan :=
  '(strategy, notes) ← in_BuildPlan (SelectStrategy (strategy_input pi));
  slots ← in_BuildPlan (ExpandSlots (g_TimePrefs (pi_Goal pi)) (g_Constraints (pi_Goal pi)));
  let '(dropMoment, fireSchedule) :=
    fireScheduleFor (Some strategy) slots (g_Date (pi_Goal pi)) (v_TZ (pi_Venue pi)) (pi_Now pi) in
  let plan := mkPlan (pi_Goal pi) (pi_Venue pi) (to_utc dropMoment) (Some strategy) fireSchedule
                false "" (notes ++ [signing_note]) PlanHashVersionV1 (to_utc (pi_Now pi)) in
  in_BuildPlan (WithHash plan).

(** ** Lemmas *)

Lemma fireScheduleFor_length s slots date tz now :
  length (fireScheduleFor (Some s) slots date tz now).2 = length slots.
Proof. by destruct s; simpl; rewrite length_map. Qed.

Lemma plan_key_with_hash h p : plan_key (with_hash h p) = plan_key p.
Proof. done. Qed.

Lemma WithHash_Ok p p' : WithHash p = Ok p' → p' = with_hash (p_Hash p') p ∧ WithHash p' = Ok p'.
Proof.
  unfold WithHash, ComputeHash. rewrite CanonicalBytes_text. cbn [mbind outcome_bind].
  intros H. assert (E : p' = with_hash ("sha256:" +:+ sha256_hex (plan_text p)) p)
    by exact (eq_sym (f_equal (λ o, match o with Ok x => x | Err _ => p' end) H)).
  assert (Eh : p_Hash p' = "sha256:" +:+ sha256_hex (plan_text p)) by (rewrite E; reflexivity).
  rewrite Eh. split; [exact E|]. rewrite CanonicalBytes_text. cbn [mbind outcome_bind].
  assert (Et : plan_text p' = plan_text p) by (rewrite E; by apply plan_text_key).
  rewrite Et. f_equal. rewrite E at 1. rewrite E. by destruct p.
Qed.

Lemma BuildPlan_inv pi p :
  BuildPlan pi = Ok p →
  ∃ s notes slots,
    SelectStrategy (strategy_input pi) = Ok (s, notes) ∧
    ExpandSlots (g_TimePrefs (pi_Goal pi)) (g_Constraints (pi_Goal pi)) = Ok slots ∧
    let fs := fireScheduleFor (Some s) slots (g_Date (pi_Goal pi)) (v_TZ (pi_Venue pi)) (pi_Now pi) in
    p = mkPlan (pi_Goal pi) (pi_Venue pi) (to_utc fs.1) (Some s) fs.2 false (p_Hash p)
          (notes ++ [signing_note]) PlanHashVersionV1 (to_utc (pi_Now pi)) ∧
    WithHash p = Ok p.
Proof.
  unfold BuildPlan, in_BuildPlan. intros H.
  destruct (SelectStrategy (strategy_input pi)) as [[s notes]|e]; [|done]. cbn [mbind outcome_bind] in H.
  destruct (ExpandSlots _ _) as [slots|e] eqn:Ex; [|done]. cbn [mbind outcome_bind] in H.
  destruct (fireScheduleFor _ _ _ _ _) as [d fs] eqn:Ef.
  destruct (WithHash _) as [p'|e] eqn:Ew; [|done].
  assert (p' = p) as -> by congruence. clear H.
  apply WithHash_Ok in Ew as [Ep Ew].
  exists s, notes, slots. split; [done|]. split; [done|]. rewrite Ef. cbn [fst snd].
  split; [exact Ep|exact Ew].
Qed.

(** ** Properties *)

(** A plan [BuildPlan] returns is coherent: it echoes the goal and the
    venue, carries a strategy chosen by the three rules, has one fire time
    per expanded slot, at least one, all at the instant the strategy fixes
    (the release; now; the middle of the probe window), a UTC drop moment,
    and a hash that re-hashing reproduces. *)
Theorem BuildPlan_coherent pi p :
  BuildPlan pi = Ok p →
  p_Goal p = pi_Goal pi ∧ p_Venue p = pi_Venue pi ∧ WithHash p = Ok p ∧
  t_loc (p_DropMoment p) = UTC ∧
  ∃ s notes slots,
    p_Strategy p = Some s ∧
    SelectStrategy (strategy_input pi) = Ok (s, notes) ∧
    ExpandSlots (g_TimePrefs (pi_Goal pi)) (g_Constraints (pi_Goal pi)) = Ok slots ∧
    length (p_FireSchedule p) = length slots ∧
    match s with
    | ExplicitRelease at_ =>
        p_DropMoment p = to_utc at_ ∧ ∀ t, t ∈ p_FireSchedule p → t = to_utc at_
    | ContinuousRelease _ =>
        p_DropMoment p = to_utc (pi_Now pi) ∧ ∀ t, t ∈ p_FireSchedule p → t = to_utc (pi_Now pi)
    | DiscoveredRelease from until =>
        p_DropMoment p = from ∧
        ∀ t, t ∈ p_FireSchedule p → t = time_add from (150 * second)
    end.
Proof.
  intros H. apply BuildPlan_inv in H as (s & notes & slots & Hs & Hx & Hp & Hw).
  rewrite Hp. cbn [p_Goal p_Venue p_DropMoment p_Strategy p_FireSchedule].
  split; [done|]. split; [done|]. split; [by rewrite <- Hp|]. split; [done|].
  exists s, notes, slots. split; [done|]. split; [done|]. split; [done|].
  split; [by rewrite fireScheduleFor_length|].
  assert (Hmem : ∀ (t u : Time) (l : list SlotPreference), t ∈ map (λ _, u) l → t = u).
  { intros t u l Ht. apply list_elem_of_In, in_map_iff in Ht as (? & <- & _). done. }
  destruct s as [a|f u|u]; cbn [fireScheduleFor fst snd].
  - split; [done|]. intros t Ht. by apply Hmem in Ht.
  - assert (Htz : ∃ tz, v_TZ (pi_Venue pi) = Some tz).
    { unfold SelectStrategy in Hs. cbn [strategy_input si_Venue] in Hs.
      destruct (v_TZ (pi_Venue pi)) as [tz|]; [by exists tz|done]. }
    destruct Htz as [tz Htz].
    apply (SelectStrategy_window (strategy_input pi) tz) in Hs as (El & Eu); [|exact Htz].
    split; [destruct f; simpl in *; by subst|].
    intros t Ht. apply Hmem in Ht as ->.
    assert (E : time_sub u f = 300 * second)
      by (unfold time_sub, min_int64, max_int64; rewrite Eu; unfold second; lia).
    rewrite E. destruct f; simpl in *; subst. done.
  - split; [done|]. intros t Ht. by apply Hmem in Ht.
Qed.

(** [BuildPlan] fails exactly when strategy selection or slot expansion
    does, in that order, wrapping the cause so [errors.Is] still sees it. *)
Theorem BuildPlan_errors pi :
  match SelectStrategy (strategy_input pi) with
  | Err e => BuildPlan pi = Err (wrap "planner.BuildPlan: " e)
  | Ok _ =>
      match ExpandSlots (g_TimePrefs (pi_Goal pi)) (g_Constraints (pi_Goal pi)) with
      | Err e => BuildPlan pi = Err (wrap "planner.BuildPlan: " e) ∧
                 errors_is (wrap "planner.BuildPlan: " e) ErrInvalidWindow = true
      | Ok _ => is_Ok (BuildPlan pi) = true
      end
  end.
Proof.
  unfold BuildPlan. destruct (SelectStrategy _) as [[s notes]|e]; [|done].
  cbn [in_BuildPlan mbind outcome_bind].
  destruct (ExpandSlots _ _) as [slots|e] eqn:Ex.
  - cbn [in_BuildPlan mbind outcome_bind]. destruct (fireScheduleFor _ _ _ _ _) as [d fs].
    unfold WithHash, ComputeHash. rewrite CanonicalBytes_text. done.
  - split; [done|]. unfold ExpandSlots in Ex. destruct (wallTimeAfterPub _ _); [|done].
    injection Ex as <-. done.
Qed.

(** Replanning is stable for a known release: two runs of [BuildPlan] at
    any two instants, on otherwise equal inputs, that both choose an
    Explicit strategy give the same hash, so approval survives the delay
    between planning and creating the quest. *)
Theorem BuildPlan_explicit_stable pi now' p p' a a' :
  let pi' := mkPlanInput (pi_Goal pi) (pi_Venue pi) now' (pi_CalendarSnapshot pi)
               (pi_ObservedReleaseAvg pi) (pi_ReleaseConfig pi) (pi_ContinuousUntil pi) in
  BuildPlan pi = Ok p → BuildPlan pi' = Ok p' →
  p_Strategy p = Some (ExplicitRelease a) → p_Strategy p' = Some (ExplicitRelease a') →
  p_Hash p = p_Hash p' ∧ plan_key p = plan_key p'.
Proof.
  intros pi' H H' Ha Ha'.
  apply BuildPlan_inv in H as (s & n & sl & Hs & Hx & Hp & Hw).
  apply BuildPlan_inv in H' as (s' & n' & sl' & Hs' & Hx' & Hp' & Hw').
  rewrite Hp in Ha. rewrite Hp' in Ha'. injection Ha as ->. injection Ha' as ->.
  assert (sl' = sl) as -> by (cbn in Hx'; congruence).
  assert (a' = a) as ->
    by (eapply (SelectStrategy_explicit_now (strategy_input pi) now'); [exact Hs|exact Hs']).
  assert (E : plan_key p = plan_key p') by (rewrite Hp, Hp'; reflexivity).
  split; [|done].
  pose proof (WithHash_key p p' E) as Eh. rewrite Hw, Hw' in Eh. exact Eh.
Qed.

(** A Continuous plan carries the instant it was computed at as its drop
    moment: recomputing it at any other instant changes what is hashed. *)
Lemma BuildPlan_continuous_drift pi now' p p' u u' :
  let pi' := mkPlanInput (pi_Goal pi) (pi_Venue pi) now' (pi_CalendarSnapshot pi)
               (pi_ObservedReleaseAvg pi) (pi_ReleaseConfig pi) (pi_ContinuousUntil pi) in
  BuildPlan pi = Ok p → BuildPlan pi' = Ok p' →
  p_Strategy p = Some (ContinuousRelease u) → p_Strategy p' = Some (ContinuousRelease u') →
  t_ns (pi_Now pi) ≠ t_ns now' → plan_key p ≠ plan_key p'.
Proof.
  intros pi' H H' Hu Hu' Hne E.
  apply BuildPlan_inv in H as (s & ? & ? & _ & _ & Hp & _).
  apply BuildPlan_inv in H' as (s' & ? & ? & _ & _ & Hp' & _).
  rewrite Hp in Hu. rewrite Hp' in Hu'. injection Hu as ->. injection Hu' as ->.
  apply (f_equal (λ k, t_ns k.1.1.1.2)) in E. rewrite Hp, Hp' in E. cbn in E. done.
Qed.

(** ** Witnesses *)

Definition april_plan_input (now : Time) : PlanInput :=
  mkPlanInput (dinner (mkDate 2026 4 7)) (carbone (Some NewYork2026)) now no_calendar None
    (Some (mkReleaseConfig 30 (mkWallTime 10 0 0))) zero_time.
Definition march_2 : Time := go_date 2026 3 2 15 0 0 0 UTC.
Definition march_5 : Time := go_date 2026 3 5 9 30 0 0 UTC.

Definition plan_at (now : Time) : Plan :=
  match BuildPlan (april_plan_input now) with Ok p => p | Err _ => sample_plan [] [] end.

Lemma plan_at_Ok now :
  is_Ok (BuildPlan (april_plan_input now)) = true → BuildPlan (april_plan_input now) = Ok (plan_at now).
Proof. unfold plan_at. by destruct (BuildPlan (april_plan_input now)). Qed.
Lemma plan_at_march_2 : BuildPlan (april_plan_input march_2) = Ok (plan_at march_2).
Proof. apply plan_at_Ok. vm_compute. reflexivity. Qed.
Lemma plan_at_march_5 : BuildPlan (april_plan_input march_5) = Ok (plan_at march_5).
Proof. apply plan_at_Ok. vm_compute. reflexivity. Qed.

Lemma BuildPlan_coherent_witness : p_Goal (plan_at march_2) = dinner (mkDate 2026 4 7).
Proof. exact (proj1 (BuildPlan_coherent _ _ plan_at_march_2)). Defined.

Lemma BuildPlan_explicit_stable_witness :
  p_Hash (plan_at march_2) = p_Hash (plan_at march_5) ∧ march_2 ≠ march_5.
Proof.
  split; [|discriminate].
  refine (proj1 (BuildPlan_explicit_stable (april_plan_input march_2) march_5 _ _
            (go_date 2026 3 8 14 0 0 0 UTC) (go_date 2026 3 8 14 0 0 0 UTC)
            plan_at_march_2 plan_at_march_5 _ _));
    vm_compute; reflexivity.
Defined.
