(* ===== verification/Service.v ===== *)
(** * [service]: the verbs behind every transport

    [Standard] over a [StoreBackend], a resolver, a provider and the engine:
    goals validated and planned, quests created under an idempotency key,
    read, listed and cancelled, accounts and tokens, and one audit row per
    verb.  The monad is the engine's: the service shares the engine's clock,
    context and store handle.  Logging is left out. *)

From S2P Require Import Prelude GoTime GoFormat Types Status Slots Drop Sha256 Json Hash Codec Strategy Plan.
From Stdlib Require Import Ascii.
From S2P Require Import Text Url Goal Sql Sqlite SqliteStore Tenant Quests Accounts Tokens Engine Resolver.

#[local] Existing Instances m_ret m_bind.

(** ** [errors.go] *)

Module Service.
Definition ErrNotImplemented : error := ESentinel "service: not implemented".
Definition ErrNotFound : error := ESentinel "service: not found".
Definition ErrUnauthorized : error := ESentinel "service: unauthorized".
Definition ErrForbidden : error := ESentinel "service: forbidden".
Definition ErrConflict : error := ESentinel "service: conflict".
Definition ErrInvalidPlanHash : error := ESentinel "service: plan hash mismatch".
Definition ErrVenueNotFound : error := ESentinel "service: venue not found".
Definition ErrVenueAmbiguous : error := ESentinel "service: venue ambiguous".
Definition ErrUpstreamUnavailable : error := ESentinel "service: upstream unavailable".
Definition ErrInvalidArgument : error := ESentinel "service: invalid argument".
Definition ErrTokenExpired : error := ESentinel "service: token expired".
Definition ErrTokenRevoked : error := ESentinel "service: token revoked".
Definition ErrInviteExpired : error := ESentinel "service: invite expired".
Definition ErrInviteConsumed : error := ESentinel "service: invite consumed".
Definition ErrIdempotencyConflict : error := ESentinel "service: idempotency conflict".
End Service.

(** [fmt.Errorf("<pre>%w<post>", e)] and [fmt.Errorf("%w: %w", s, e)]. *)
Definition wrap_in (pre : string) (e : error) (post : string) : error :=
  EWrap (pre +:+ error_String e +:+ post) [e].
Definition wrap_two (pre : string) (s e : error) : error :=
  EWrap (pre +:+ error_String s +:+ ": " +:+ error_String e) [s; e].
Definition invalid (verb what : string) : error :=
  wrap_in (verb +:+ ": ") Service.ErrInvalidArgument (": " +:+ what).

(** ** [types.go] *)

Record CreateOpts := mkCreateOpts { co_PlanHash : option string; co_IdempotencyKey : option string }.
Record CancelOpts := mkCancelOpts { ca_Reason : string; ca_IdempotencyKey : option string }.
Record QuestSummary := mkQuestSummary {
  sm_ID : string;
  sm_UserID : string;
  sm_AccountID : string;
  sm_Status : Status;
  sm_CreatedAt : Time;
  sm_UpdatedAt : Time;
  sm_CompletedAt : option Time;
  sm_PlanHash : string
}.
(** A zero [Plan] is [None]. *)
Record QuestState := mkQuestState {
  qs_Summary : QuestSummary;
  qs_Goal : Goal;
  qs_Plan : option Plan;
  qs_Events : list Event
}.
Record Account := mkAccount {
  acc_ID : string;
  acc_UserID : string;
  acc_Email : string;
  acc_DisplayName : string;
  acc_CreatedAt : Time;
  acc_DisabledAt : option Time
}.
Record BearerToken := mkBearerToken {
  bt_ID : string;
  bt_Token : string;
  bt_Label : string;
  bt_Scope : string;
  bt_CreatedAt : Time
}.
Record Token := mkToken {
  to_ID : string;
  to_UserID : string;
  to_Scope : string;
  to_Label : string;
  to_CreatedAt : Time;
  to_LastSeen : option Time;
  to_RevokedAt : option Time
}.

(** ** [standard.go]: the store seam

    The service's row types are the store's field for field, and one record
    stands for both.  Every method is a store call: it may fail, and says
    how many statements it ran. *)

Record IdemLookup := mkIdemLookup {
  lk_Found : bool;
  lk_PayloadMatch : bool;
  lk_Expired : bool;
  lk_TargetID : string;
  lk_PrevErr : string
}.
Class StoreBackend (B : Type) := {
  sb_CreateQuest : QuestRow → SqlOf B unit;
  sb_GetQuest : string → string → SqlOf B QuestRow;
  sb_ListQuests : string → QuestListFilter → SqlOf B (list QuestRow);
  sb_UpdateQuestStatus : string → string → Status → option Time → Time → SqlOf B unit;
  sb_ListAccounts : string → SqlOf B (list AccountRow);
  sb_GetAccountByEmail : string → string → SqlOf B AccountRow;
  sb_BindAccountToUser : string → string → SqlOf B string;
  sb_ListQuestEvents : string → string → Z → SqlOf B (list Event);
  sb_GetIdempotencyResult : string → string → string → string → Time → SqlOf B IdemLookup;
  sb_PutIdempotencyResult :
    string → string → string → string → string → option error → Z → Time → SqlOf B unit;
  sb_WriteAuditEvent : AuditEventInput → SqlOf B unit;
  sb_WriteQuestEvent : string → string → Event → SqlOf B unit;
  sb_InsertToken : TokenRow → SqlOf B unit;
  sb_ListTokensForUser : string → SqlOf B (list TokenRow);
  sb_RevokeToken : string → string → Time → SqlOf B unit
}.

(** One database: the engine's tables and the multi-user ones. *)
Record Stores (St B : Type) := mkStores { st_snipes : St; st_tenants : B }.
Arguments mkStores {St B} _ _.
Arguments st_snipes {St B} _.
Arguments st_tenants {St B} _.
Definition on_snipes {St B A} (f : Faults → nat → St → res A * nat * St)
    (fl : Faults) (n : nat) (s : Stores St B) : res A * nat * Stores St B :=
  let '(r, n', st) := f fl n (st_snipes s) in (r, n', mkStores st (st_tenants s)).
Definition on_tenants {St B A} (f : SqlOf B A) (fl : Faults) (n : nat) (s : Stores St B)
    : res A * nat * Stores St B :=
  let '(r, n', b) := f fl n (st_tenants s) in (r, n', mkStores (st_snipes s) b).

#[export, refine] Instance stores_snipes St B `{!SnipeStore St} : SnipeStore (Stores St B) := {|
  ss_wf s := ss_wf (st_snipes s);
  ss_row s := ss_row (st_snipes s);
  ss_events s := ss_events (st_snipes s);
  ss_create s := on_snipes (ss_create s);
  ss_get id := on_snipes (ss_get id);
  ss_transition s ev := on_snipes (ss_transition s ev);
  ss_append id ev := on_snipes (ss_append id ev);
  ss_venue ref := on_snipes (ss_venue ref);
  ss_observe o := on_snipes (ss_observe o);
  ss_create_law := _; ss_get_law := _; ss_transition_law := _; ss_append_law := _;
  ss_venue_law := _; ss_observe_law := _; ss_transition_ok := _; ss_get_ok := _
|}.
Proof.
  - intros s fl n st H1 H2. pose proof (ss_create_law s fl n (st_snipes st) H1 H2) as H. unfold on_snipes.
    destruct (ss_create _ _ _ _) as [[[]] ]; destruct st; cbn in *; [done|]. by destruct H as [? ->].
  - intros id fl n st H1. pose proof (ss_get_law id fl n (st_snipes st) H1) as H. unfold on_snipes.
    destruct (ss_get _ _ _ _) as [[[]] ]; destruct st; cbn in *; by destruct H as [-> ?].
  - intros s ev fl n st H1 H2 H3. pose proof (ss_transition_law s ev fl n (st_snipes st) H1 H2 H3) as H.
    unfold on_snipes. destruct (ss_transition _ _ _ _ _) as [[[]] ]; destruct st; cbn in *; [done|]. by destruct H as [? ->].
  - intros id ev fl n st H1 H2. pose proof (ss_append_law id ev fl n (st_snipes st) H1 H2) as H.
    unfold on_snipes. destruct (ss_append _ _ _ _ _) as [[[]] ]; destruct st; cbn in *; [done|]. by destruct H as [? ->].
  - intros ref fl n st H1. pose proof (ss_venue_law ref fl n (st_snipes st) H1) as H. unfold on_snipes.
    destruct (ss_venue _ _ _ _) as [[]]; destruct st; cbn in *. by rewrite H.
  - intros o fl n st H1. pose proof (ss_observe_law o fl n (st_snipes st) H1) as H. unfold on_snipes.
    by destruct (ss_observe _ _ _ _) as [[]].
  - intros s ev fl n st H1 H2 H3 H4. pose proof (ss_transition_ok s ev fl n (st_snipes st) H1 H2 H3 H4) as H.
    unfold on_snipes. by destruct (ss_transition _ _ _ _ _) as [[[]] ].
  - intros id s fl n st H1 H2 H3. pose proof (ss_get_ok id s fl n (st_snipes st) H1 H2 H3) as H.
    unfold on_snipes. by destruct (ss_get _ _ _ _) as [[[]] ].
Defined.

(** ** [audit.go]: error codes *)

Definition error_codes : list (error * string) :=
  [(Service.ErrNotFound, "not_found"); (Service.ErrUnauthorized, "unauthorized");
   (Service.ErrForbidden, "forbidden"); (Service.ErrConflict, "conflict");
   (Service.ErrInvalidPlanHash, "invalid_plan_hash"); (Service.ErrVenueNotFound, "venue_not_found");
   (Service.ErrVenueAmbiguous, "venue_ambiguous");
   (Service.ErrUpstreamUnavailable, "upstream_unavailable");
   (Service.ErrInvalidArgument, "invalid_argument"); (Service.ErrTokenExpired, "token_expired");
   (Service.ErrTokenRevoked, "token_revoked"); (Service.ErrInviteExpired, "invite_expired");
   (Service.ErrInviteConsumed, "invite_consumed");
   (Service.ErrIdempotencyConflict, "idempotency_conflict");
   (Service.ErrNotImplemented, "not_implemented")].
(** The first sentinel the error wraps. *)
Definition first_match {A} (e : error) (table : list (error * A)) : option A :=
  snd <$> find (λ sc, errors_is e (fst sc)) table.
Definition errorCodeFor (err : option error) : string :=
  match err with
  | None => ""
  | Some e => match first_match e error_codes with Some code => code | None => "internal" end
  end.

Definition actionVenueResolve : string := "venue.resolve".
Definition actionQuestPlan : string := "quest.plan".
Definition actionQuestCreate : string := "quest.create".
Definition actionQuestGet : string := "quest.get".
Definition actionQuestList : string := "quest.list".
Definition actionQuestCancel : string := "quest.cancel".
Definition actionQuestSubscribe : string := "quest.subscribe".
Definition actionAccountLogin : string := "account.login".
Definition actionAccountList : string := "account.list".
Definition actionUserInvite : string := "user.invite".
Definition actionTokenIssue : string := "token.issue".
Definition actionTokenRevoke : string := "token.revoke".
Definition actionTokenList : string := "token.list".
Definition actionUserList : string := "user.list".

(** ** [standard_quest.go]: mapping errors *)

Definition mapResolverError (e : error) : error :=
  if errors_is e ErrVenueNotFound then wrap_two "" Service.ErrVenueNotFound e
  else if errors_is e ErrVenueAmbiguous then wrap_two "" Service.ErrVenueAmbiguous e
  else if errors_is e ErrInvalidURL || errors_is e ErrNotResyHost || errors_is e ErrNotVenueURL
       then wrap_two "" Service.ErrInvalidArgument e
  else wrap_two "" Service.ErrUpstreamUnavailable e.
(** Both branches of the code return the error. *)
Definition mapStoreNotFound (e : error) : error := e.
(** [strings.Contains]. *)
Fixpoint contains (sub s : string) : bool :=
  starts_with sub s || match s with EmptyString => false | String _ s' => contains sub s' end.
Definition replay_sentinels : list error :=
  [Service.ErrInvalidPlanHash; Service.ErrNotFound; Service.ErrInvalidArgument; Service.ErrVenueNotFound;
   Service.ErrVenueAmbiguous; Service.ErrUpstreamUnavailable].
Definition replayServiceErr (persisted : string) : error :=
  match find (λ s, contains (error_String s) persisted) replay_sentinels with
  | Some s => wrap_in "" s (" (replay: " +:+ persisted +:+ ")")
  | None => ENew ("service: idempotent replay: " +:+ persisted)
  end.

(** ** [goal_codec.go] *)

Definition encodeVQ : option VenueQuery → venueQueryJSON := encodeVenueQuery.
Definition decodeVQ : venueQueryJSON → res (option VenueQuery) := decodeVenueQuery.
Definition parsePriorityJSON : string → TimePriority := parseTimePriority.
Definition marshalGoalJSON (g : Goal) : goalJSONShape :=
  mkGoalJSON (encodeVQ (g_VenueQuery g)) (date_String (g_Date g)) (g_Party g)
    (mkTimeWindowJSON (wall_String (tw_Start (g_TimePrefs g))) (wall_String (tw_End (g_TimePrefs g)))
       (priority_String (tw_Priority (g_TimePrefs g))))
    (g_AccountID g)
    (mkConstraints (c_TableTypes (g_Constraints g)) (c_AnyTable (g_Constraints g))).
Definition in_unmarshal {A} (what : string) (m : res A) : res A :=
  match m with Ok a => Ok a | Err e => Err (wrap ("unmarshalGoalJSON" +:+ what +:+ ": ") e) end.
Definition unmarshalGoalJSON (raw : goalJSONShape) : res Goal :=
  vq ← in_unmarshal "" (decodeVQ (gj_VenueQuery raw));
  d ← in_unmarshal " date" (ParseDate (gj_Date raw));
  start ← in_unmarshal " time_prefs.start" (ParseWallTime (twj_Start (gj_TimePrefs raw)));
  end_ ← in_unmarshal " time_prefs.end" (ParseWallTime (twj_End (gj_TimePrefs raw)));
  Ok (mkGoal vq d (gj_Party raw)
        (mkTimeWindow start end_ (parsePriorityJSON (twj_Priority (gj_TimePrefs raw))))
        (gj_AccountID raw) (gj_Constraints raw)).
(** The text [json.Marshal] gives: fields in order, [omitempty] ones left
    out when empty. *)
Definition json_object (fields : list string) : string := "{" +:+ str_join "," fields +:+ "}".
Definition json_field (k v : string) : string := json_string k +:+ ":" +:+ v.
Definition omit_empty (k v : string) : list string :=
  if is_empty v then [] else [json_field k (json_string v)].
Definition goal_json_text (j : goalJSONShape) : string :=
  let q := gj_VenueQuery j in
  let w := gj_TimePrefs j in
  let c := gj_Constraints j in
  json_object
    [json_field "venue_query"
       (json_object (json_field "kind" (json_string (vqj_Kind q)) :: omit_empty "url" (vqj_URL q)
          ++ omit_empty "slug" (vqj_Slug q) ++ omit_empty "city" (vqj_City q) ++ omit_empty "name" (vqj_Name q)));
     json_field "date" (json_string (gj_Date j));
     json_field "party" (json_int (gj_Party j));
     json_field "time_prefs"
       (json_object [json_field "start" (json_string (twj_Start w)); json_field "end" (json_string (twj_End w));
                     json_field "priority" (json_string (twj_Priority w))]);
     json_field "account_id" (json_string (gj_AccountID j));
     json_field "constraints"
       (json_object
          ((match c_TableTypes c with
            | [] => []
            | l => [json_field "table_types" ("[" +:+ str_join "," (map json_string l) +:+ "]")]
            end)
           ++ (if c_AnyTable c then [json_field "any_table" "true"] else [])))].
Definition payloadHashFor (s : string) : string := sha256_hex s.

(** ** [standard_auth.go]: base32 of a token *)

Definition base32_char (n : Z) : ascii :=
  ascii_of_nat (Z.to_nat (if n <? 26 then n + 65 else n + 24)).
(** Groups of five bits, most significant first; the last is zero-padded. *)
Fixpoint byte_bits (k : nat) (b : Z) : list Z :=
  match k with O => [] | S k' => (b / 2 ^ Z.of_nat k') mod 2 :: byte_bits k' b end.
Fixpoint base32_groups (bits : list Z) : string :=
  match bits with
  | [] => ""
  | a :: b :: c :: d :: e :: rest =>
      String (base32_char (16 * a + 8 * b + 4 * c + 2 * d + e)) (base32_groups rest)
  | [a] => String (base32_char (16 * a)) ""
  | [a; b] => String (base32_char (16 * a + 8 * b)) ""
  | [a; b; c] => String (base32_char (16 * a + 8 * b + 4 * c)) ""
  | [a; b; c; d] => String (base32_char (16 * a + 8 * b + 4 * c + 2 * d)) ""
  end.
Definition tokenBase32 (raw : list Z) : string := base32_groups (concat (map (byte_bits 8) raw)).
Definition tokenPlaintextBytes : nat := 32.
Definition tokenIDBytes : nat := 8.

(** With apostrophes for the quotes. *)
Example goal_json_example :
  map_str (λ c, if (nat_of_ascii c =? 34)%nat then "'" else c)%char (goal_json_text (marshalGoalJSON (sample_goal ["Bar"])))
  = "{'venue_query':{'kind':'slug','slug':'carbone','city':'ny'},'date':'2026-06-09','party':2,'time_prefs':{'start':'18:30:00','end':'21:00:00','priority':'later'},'account_id':'acct-1','constraints':{'table_types':['Bar']}}".
Proof. vm_compute. reflexivity. Qed.
Example base32_example : tokenBase32 [102; 111; 111; 98; 97; 114] = "MZXW6YTBOI".
Proof. vm_compute. reflexivity. Qed.

(** ** The verbs *)

Record SEnv := mkSEnv {
  sv_env : Env;
  sv_resolve : nat → option VenueQuery → res Venue;
  sv_calendar : option (nat → VenueRef → DateRange → res Calendar);
  sv_auth : option (nat → string → string → res string);
  sv_rand : nat → nat → res (list Z);
  sv_blake2b : string → list Z;
  sv_scope : string;
  sv_persist : bool;
  sv_ip : string → option string;
  sv_lower : string → string
}.

(** What a keyed verb returns: an id, and an error or none. *)
Definition outcome_id : Type := string * option error.

Section Standard.
Context {St B : Type} `{!SnipeStore St} `{!StoreBackend B} (senv : SEnv).
Notation env := (sv_env senv).
Notation W := (World (Stores St B)).
Notation SM := (@M (Stores St B)).

Definition tenant_call {A} (m : SqlOf B A) : SM A := store_call env (on_tenants m).
(** A call to the resolver, the provider, the auth backend or the random
    source: it takes its time, and answers as it likes. *)
Definition outside {A} (f : nat → res A) : SM A := λ w, (f (w_step w), tick env w).
(** [fmt.Errorf("<verb>: %w: <what>", ErrInvalidArgument)]. *)
Definition reject {A} (verb what : string) : SM A := fail (invalid verb what).

(** *** [audit.go] *)

(** The write's own failure is logged and dropped. *)
Definition audit (userID action targetID : string) (err : option error) : SM unit :=
  _ ← attempt (tenant_call (sb_WriteAuditEvent
        (mkAuditEventInput userID None action targetID
           (match err with None => true | Some _ => false end) (errorCodeFor err) "" "" "")));
  mret tt.
Definition error_of {A} (r : res A) : option error := match r with Ok _ => None | Err e => Some e end.
(** [defer func() { s.audit(ctx, userID, action, target, retErr) }()]. *)
Definition audited {A} (userID action : string) (target : res A → string) (m : SM A) : SM A := λ w,
  let '(r, w1) := m w in (r, (audit userID action (target r) (error_of r) w1).2).
Definition writeQuestEvent (userID questID : string) (evt : Event) : SM unit :=
  if sv_persist senv
  then _ ← attempt (tenant_call (sb_WriteQuestEvent userID questID evt)); mret tt
  else mret tt.

(** *** [ctxauth.go] *)

Definition RequireOperatorScope : SM unit :=
  if str_eqb (sv_scope senv) "operator" then mret tt
  else fail (wrap_in "" Service.ErrForbidden ": operator scope required").

(** *** [standard_quest.go]: venues and plans *)

Definition resolve (q : option VenueQuery) : SM Venue := outside (λ k, sv_resolve senv k q).
Definition queryAuditTarget (q : option VenueQuery) : string :=
  match q with None => "" | Some q => venueQuery_String q end.
Definition ResolveVenue (userID : string) (q : option VenueQuery) : SM Venue :=
  if is_empty userID then reject "ResolveVenue" "userID is required"
  else
    r ← attempt (resolve q);
    match r with
    | Err e =>
        _ ← audit userID actionVenueResolve (queryAuditTarget q) (Some (mapResolverError e));
        fail (mapResolverError e)
    | Ok v => _ ← audit userID actionVenueResolve (venueRef_String (venue_AsRef v)) None; mret v
    end.

Definition no_calendar : Calendar := mkCalendar (mkVenueRef "" "") [].
(** Best effort: no provider, or one that fails, leaves the zero calendar. *)
Definition calendar_snapshot (v : Venue) (g : Goal) : SM Calendar :=
  match sv_calendar senv with
  | None => mret no_calendar
  | Some cal =>
      r ← attempt (outside (λ k, cal k (venue_AsRef v) (mkDateRange (g_Date g) (g_Date g) (g_Party g))));
      mret (match r with Ok c => c | Err _ => no_calendar end)
  end.
Definition plan_input (g : Goal) (v : Venue) (n : Time) (snap : Calendar) : PlanInput :=
  mkPlanInput g v n snap None None zero_time.
Definition PlanQuest (userID : string) (g : Goal) : SM Plan :=
  if is_empty userID then reject "PlanQuest" "userID is required"
  else
    n ← now env;
    match goal_Validate (sv_ip senv) (sv_lower senv) g n with
    | Some e =>
        let wrapped := wrap_two "PlanQuest: " Service.ErrInvalidArgument e in
        _ ← audit userID actionQuestPlan "" (Some wrapped);
        fail wrapped
    | None =>
        r ← attempt (resolve (g_VenueQuery g));
        match r with
        | Err e =>
            _ ← audit userID actionQuestPlan "" (Some (mapResolverError e));
            fail (mapResolverError e)
        | Ok venue =>
            snap ← calendar_snapshot venue g;
            match BuildPlan (plan_input g venue n snap) with
            | Err e =>
                _ ← audit userID actionQuestPlan "" (Some (wrap "PlanQuest: " e));
                fail (wrap "PlanQuest: " e)
            | Ok plan => _ ← audit userID actionQuestPlan (p_Hash plan) None; mret plan
            end
        end
    end.

(** *** [standard_quest.go]: idempotency *)

Definition idempotencyTTL : Z := 24 * hour.
Definition scopeCreateQuest : string := "create_quest".
Definition scopeCancelQuest : string := "cancel_quest".
Definition recordIdempotency (userID scope : string) (key : option string) (payloadHash : string)
    (targetID : string) (errVal : option error) (n : Time) : SM unit :=
  match key with
  | None => mret tt
  | Some k =>
      if is_empty k then mret tt
      else
        _ ← attempt (tenant_call
              (sb_PutIdempotencyResult userID scope k payloadHash targetID errVal idempotencyTTL n));
        mret tt
  end.
Definition replay_of (l : IdemLookup) : outcome_id :=
  (lk_TargetID l, if is_empty (lk_PrevErr l) then None else Some (replayServiceErr (lk_PrevErr l))).
(** The pre-check: an answer, or [None] to execute. *)
Definition precheck (verb userID scope : string) (key : option string) (payloadHash : string) (n : Time)
    (conflict : string → IdemLookup → string) : SM (option outcome_id) :=
  match key with
  | None => mret None
  | Some k =>
      if is_empty k then mret None
      else
        r ← attempt (tenant_call (sb_GetIdempotencyResult userID scope k payloadHash n));
        mret (match r with
              | Err e => Some ("", Some (wrap (verb +:+ " idempotency lookup: ") e))
              | Ok l =>
                  if lk_Found l && negb (lk_Expired l) then
                    if negb (lk_PayloadMatch l)
                    then Some ("", Some (wrap_in (verb +:+ ": ") Service.ErrIdempotencyConflict
                                           (": idempotency key " +:+ conflict k l)))
                    else Some (replay_of l)
                  else None
              end)
  end.
(** Every exit after the pre-check records what it returns, then returns
    it; a plain error comes with the id [on_error]. *)
Definition keyed (verb userID scope : string) (key : option string) (payloadHash : string) (n : Time)
    (conflict : string → IdemLookup → string) (on_error : string) (work : SM outcome_id)
    : SM outcome_id :=
  pre ← precheck verb userID scope key payloadHash n conflict;
  match pre with
  | Some a => mret a
  | None =>
      r ← attempt work;
      let a := match r with Ok a => a | Err e => (on_error, Some e) end in
      _ ← recordIdempotency userID scope key payloadHash (fst a) (snd a) n;
      mret a
  end.

(** *** [standard_quest.go]: creating *)

Definition intentFromPlan (userID : string) (plan : Plan) (g : Goal) : Intent :=
  let table := match c_TableTypes (g_Constraints g) with
               | t :: _ => if c_AnyTable (g_Constraints g) then "" else t
               | [] => ""
               end in
  mkIntent userID (venue_AsRef (p_Venue plan)) (g_Date g) (g_Party g)
    [mkSlotPreference (tw_Start (g_TimePrefs g)) table] (p_Strategy plan).
(** Four random bytes, in hex. *)
Definition newQuestID : SM string :=
  buf ← wrapped "service.newQuestID: " (outside (λ k, sv_rand senv k 4%nat));
  mret ("q_" +:+ hex_encode buf).
Definition findAccountByID (userID id : string) : SM AccountRow :=
  accts ← tenant_call (sb_ListAccounts userID);
  match find (λ a, str_eqb (a_ID a) id) accts with
  | Some a => mret a
  | None => fail Service.ErrNotFound
  end.
(** By email, else by id; anything but a found account is an error. *)
Definition create_account (userID : string) (g : Goal) : SM AccountRow :=
  r ← attempt (tenant_call (sb_GetAccountByEmail userID (g_AccountID g)));
  match r with
  | Ok a => mret a
  | Err e =>
      if errors_is e Service.ErrNotFound then
        r2 ← attempt (findAccountByID userID (g_AccountID g));
        match r2 with
        | Ok a => mret a
        | Err _ => fail (wrap ("CreateQuest account " +:+ g_AccountID g +:+ ": ") Service.ErrNotFound)
        end
      else fail (wrap "CreateQuest: " e)
  end.
Definition check_plan_hash (opts : CreateOpts) (plan : Plan) : SM unit :=
  match co_PlanHash opts with
  | Some h =>
      if str_eqb h (p_Hash plan) then mret tt
      else fail (wrap_in "CreateQuest: " Service.ErrInvalidPlanHash
                   (" (caller=" +:+ fmt_q h +:+ " service=" +:+ fmt_q (p_Hash plan) +:+ ")"))
  | None => mret tt
  end.
Definition new_row (questID userID : string) (acct : AccountRow) (g : Goal) (plan : Plan) (n : Time) : QuestRow :=
  mkQuestRow questID userID (a_ID acct) (marshalGoalJSON g) (p_Hash plan) StatusSubmitted n n None.
(** Everything between the pre-check and the recording. *)
Definition create_work (userID : string) (g : Goal) (opts : CreateOpts) (n : Time) : SM outcome_id :=
  plan ← PlanQuest userID g;
  _ ← check_plan_hash opts plan;
  acct ← create_account userID g;
  questID ← wrapped "CreateQuest: " newQuestID;
  _ ← wrapped "CreateQuest persist: " (tenant_call (sb_CreateQuest (new_row questID userID acct g plan n)));
  r ← attempt (wrapped "CreateQuest engine submit: " (Submit env questID (intentFromPlan userID plan g)));
  match r with
  | Err e => mret (questID, Some e)
  | Ok _ =>
      _ ← writeQuestEvent userID questID (mkEvent EventSubmitted n []);
      mret (questID, None)
  end.
Definition goal_conflict (k : string) (_ : IdemLookup) : string :=
  fmt_q k +:+ " previously used with a different goal".
Definition goal_payload (g : Goal) : string := payloadHashFor (goal_json_text (marshalGoalJSON g)).
(** The audit row of a verb that returns an id and an error at once. *)
Definition audited_id (userID action : string) (target : string → string) (m : SM outcome_id) : SM outcome_id :=
  λ w, let '(r, w1) := m w in
       match r with
       | Ok (q, e) => (r, (audit userID action (target q) e w1).2)
       | Err e => (r, (audit userID action (target "") (Some e) w1).2)
       end.
Definition CreateQuest (userID : string) (g : Goal) (opts : CreateOpts) : SM outcome_id :=
  if is_empty userID then mret ("", Some (invalid "CreateQuest" "userID is required"))
  else
    audited_id userID actionQuestCreate (λ q, q)
      (n ← now env;
       keyed "CreateQuest" userID scopeCreateQuest (co_IdempotencyKey opts) (goal_payload g) n goal_conflict ""
         (create_work userID g opts n)).

(** *** [standard_quest.go]: reading *)

Definition summaryFromRow (r : QuestRow) : QuestSummary :=
  mkQuestSummary (q_ID r) (q_UserID r) (q_AccountID r) (q_Status r) (q_CreatedAt r) (q_UpdatedAt r)
    (q_CompletedAt r) (q_PlanHash r).
Definition defaultEventLimit : Z := 50.
Definition GetQuest (userID questID : string) : SM QuestState :=
  if is_empty userID then reject "GetQuest" "userID is required"
  else
    audited userID actionQuestGet (λ _, questID)
      (r ← attempt (tenant_call (sb_GetQuest userID questID));
       match r with
       | Err e => fail (mapStoreNotFound e)
       | Ok row =>
           goal ← wrapped "GetQuest decode goal: " (λ w, (unmarshalGoalJSON (q_GoalJSON row), w));
           events ← wrapped "GetQuest events: "
                      (tenant_call (sb_ListQuestEvents userID questID defaultEventLimit));
           plan ← attempt (PlanQuest userID goal);
           mret (mkQuestState (summaryFromRow row) goal (match plan with Ok p => Some p | Err _ => None end)
                   events)
       end).
Definition ListQuests (userID : string) (filter : QuestListFilter) : SM (list QuestSummary) :=
  if is_empty userID then reject "ListQuests" "userID is required"
  else
    audited userID actionQuestList (λ _, "")
      (rows ← wrapped "ListQuests: " (tenant_call (sb_ListQuests userID filter));
       mret (map summaryFromRow rows)).

(** *** [standard_quest.go]: cancelling *)

Definition cancel_conflict (k : string) (l : IdemLookup) : string :=
  fmt_q k +:+ " previously used to cancel " +:+ fmt_q (lk_TargetID l).
Definition cancel_work (userID questID : string) (opts : CancelOpts) (n : Time) : SM outcome_id :=
  r ← attempt (tenant_call (sb_GetQuest userID questID));
  match r with
  | Err e => fail (mapStoreNotFound e)
  | Ok row =>
      if IsTerminal (q_Status row) then mret (questID, None)
      else
        r ← attempt (tenant_call (sb_UpdateQuestStatus userID questID StatusCanceled (Some n) n));
        match r with
        | Err e => fail (wrap "CancelQuest: " (mapStoreNotFound e))
        | Ok _ =>
            _ ← writeQuestEvent userID questID
                  (mkEvent EventCanceled n [("reason", VString (ca_Reason opts))]);
            mret (questID, None)
        end
  end.
(** The id of the pair is only what is recorded; the caller gets the error. *)
Definition CancelQuest (userID questID : string) (opts : CancelOpts) : SM outcome_id :=
  if is_empty userID then mret ("", Some (invalid "CancelQuest" "userID is required"))
  else
    audited_id userID actionQuestCancel (λ _, questID)
      (n ← now env;
       keyed "CancelQuest" userID scopeCancelQuest (ca_IdempotencyKey opts) (payloadHashFor questID) n
         cancel_conflict questID (cancel_work userID questID opts n)).

(** *** [standard_auth.go]: accounts *)

Definition login_body (userID accountEmail password : string) : SM string :=
  if is_empty accountEmail || is_empty password then reject "Login" "email and password are required"
  else
    match sv_auth senv with
    | None => fail Service.ErrNotImplemented
    | Some auth =>
        resolvedEmail ← wrapped "Login: " (outside (λ k, auth k accountEmail password));
        r ← attempt (tenant_call (sb_BindAccountToUser userID resolvedEmail));
        match r with
        | Ok acctID => mret acctID
        | Err e =>
            if errors_is e Service.ErrNotFound
            then fail (wrap_in "Login: " Service.ErrUpstreamUnavailable " (no account row materialized after auth)")
            else fail (wrap "Login bind account: " e)
        end
    end.
Definition Login (userID accountEmail password : string) : SM string :=
  if is_empty userID then reject "Login" "userID is required"
  else
    audited userID actionAccountLogin
      (λ r, match r with Ok id => if is_empty id then accountEmail else id | Err _ => accountEmail end)
      (login_body userID accountEmail password).
Definition account_view (r : AccountRow) : Account :=
  mkAccount (a_ID r) (a_UserID r) (a_ResyEmail r) (a_DisplayName r) (a_CreatedAt r) (a_DisabledAt r).
Definition ListAccounts (userID : string) : SM (list Account) :=
  if is_empty userID then reject "ListAccounts" "userID is required"
  else
    audited userID actionAccountList (λ _, "")
      (rows ← wrapped "ListAccounts: " (tenant_call (sb_ListAccounts userID));
       mret (map account_view rows)).

(** *** [standard_auth.go]: tokens *)

Definition issue_body (userID label scope : string) : SM BearerToken :=
  _ ← wrapped "IssueToken: " RequireOperatorScope;
  if is_empty userID then reject "IssueToken" "userID is required"
  else if is_empty label then reject "IssueToken" "label is required"
  else if negb (str_eqb scope "user" || str_eqb scope "operator")
  then reject "IssueToken" ("scope must be 'user' or 'operator', got " +:+ fmt_q scope)
  else
    raw ← wrapped "IssueToken: " (outside (λ k, sv_rand senv k tokenPlaintextBytes));
    let plaintext := "tok_" +:+ tokenBase32 raw in
    idBuf ← wrapped "IssueToken: " (outside (λ k, sv_rand senv k tokenIDBytes));
    let tokenID := "tok_" +:+ hex_encode idBuf in
    n ← now env;
    let n := to_utc n in
    _ ← wrapped "IssueToken: " (tenant_call (sb_InsertToken
          (mkTokenRow tokenID userID (sv_blake2b senv plaintext) scope label n None None)));
    mret (mkBearerToken tokenID plaintext label scope n).
Definition IssueToken (userID label scope : string) : SM BearerToken :=
  audited userID actionTokenIssue
    (λ r, match r with Ok t => if is_empty (bt_ID t) then label else bt_ID t | Err _ => label end)
    (issue_body userID label scope).
Definition RevokeToken (userID tokenID : string) : SM unit :=
  audited userID actionTokenRevoke (λ _, tokenID)
    (_ ← wrapped "RevokeToken: " RequireOperatorScope;
     if is_empty userID then reject "RevokeToken" "userID is required"
     else if is_empty tokenID then reject "RevokeToken" "tokenID is required"
     else
       n ← now env;
       r ← attempt (tenant_call (sb_RevokeToken userID tokenID (to_utc n)));
       match r with
       | Ok _ => mret tt
       | Err e => fail (if errors_is e Service.ErrNotFound then Service.ErrNotFound else wrap "RevokeToken: " e)
       end).
Definition token_view (r : TokenRow) : Token :=
  mkToken (t_ID r) (t_UserID r) (t_Scopes r) (t_Label r) (t_CreatedAt r) (t_LastSeen r) (t_RevokedAt r).
Definition ListTokens (userID : string) : SM (list Token) :=
  audited userID actionTokenList (λ _, "")
    (_ ← wrapped "ListTokens: " RequireOperatorScope;
     if is_empty userID then reject "ListTokens" "userID is required"
     else
       recs ← wrapped "ListTokens: " (tenant_call (sb_ListTokensForUser userID));
       mret (map token_view recs)).
(** The verbs not written yet. *)
Definition InviteUser (userID email role : string) : SM unit :=
  _ ← audit userID actionUserInvite email (Some Service.ErrNotImplemented);
  fail Service.ErrNotImplemented.
Definition AcceptInvite (token email password : string) : SM unit := fail Service.ErrNotImplemented.
Definition ListUsers (userID : string) : SM unit :=
  _ ← audit userID actionUserList "" (Some Service.ErrNotImplemented);
  fail Service.ErrNotImplemented.
End Standard.
