(* ===== verification/ServiceSteps.v ===== *)
(** * What the service's steps do to the world

    A relation between worlds that every backend call, clock reading and
    outside call respects is respected by the verbs built from them. *)

From S2P Require Import Prelude GoTime GoFormat Types Status Slots Drop Json Hash Codec Strategy Plan Goal.
From S2P Require Import Sql Sqlite Quests Accounts Tokens Engine Service.

#[local] Existing Instances m_ret m_bind.
#[local] Create HintDb steady.

Section Steady.
Context {St B : Type} `{!SnipeStore St} `{!StoreBackend B}.
Notation W := (World (Stores St B)).
Notation SM := (@M (Stores St B)).
Notation tenants w := (st_tenants (w_store w)).
(** [R] relates worlds whose tenant tables [RB] relates and that otherwise
    differ by the clock and the statement counter. *)
Context (R : W → W → Prop) (RB : B → B → Prop) `{!PreOrder R} `{!Reflexive RB}.
(** The users and actions whose audit rows are allowed for. *)
Context (who : string → string → Prop).
Hypothesis R_step : ∀ env w b n,
  RB (tenants w) b → R w (set_store (mkStores (st_snipes (w_store w)) b) n (tick env w)).

Definition steady {A} (m : SM A) : Prop := ∀ w, R w (m w).2.
Lemma steady_ret {A} (a : A) : steady (mret a : SM A).
Proof. intros w. reflexivity. Qed.
Lemma steady_fail {A} e : steady (fail e : SM A).
Proof. intros w. reflexivity. Qed.
Lemma steady_pure {A} (r : res A) : steady (λ w, (r, w)).
Proof. intros w. reflexivity. Qed.
Lemma steady_bind {A C} (m : SM A) (f : A → SM C) : steady m → (∀ a, steady (f a)) → steady (m ≫= f).
Proof.
  intros Hm Hf w. unfold mbind, m_bind. specialize (Hm w). destruct (m w) as [[a|e] w']; [|done].
  etrans; [exact Hm|apply Hf].
Qed.
Lemma steady_attempt {A} (m : SM A) : steady m → steady (attempt m).
Proof. intros Hm w. unfold attempt. specialize (Hm w). by destruct (m w). Qed.
Lemma steady_wrapped {A} pre (m : SM A) : steady m → steady (wrapped pre m).
Proof. intros Hm w. unfold wrapped. specialize (Hm w). by destruct (m w) as [[]]. Qed.
Lemma steady_tenant {A} senv (m : SqlOf B A) : moves RB m → steady (tenant_call senv m).
Proof.
  intros Hm w. unfold tenant_call, store_call, on_tenants.
  set (fl := if en_done _ _ then _ else _). specialize (Hm fl (w_sql w) (tenants w)).
  destruct (m fl (w_sql w) (tenants w)) as [[r n] b]. by apply R_step.
Qed.
Lemma steady_tick env w : R w (tick env w).
Proof.
  pose proof (R_step env w (tenants w) (w_sql w) (reflexivity _)) as H. by destruct w as [[]].
Qed.
Lemma steady_outside {A} senv (f : nat → res A) : steady (outside senv f).
Proof. intros w. apply steady_tick. Qed.
Lemma steady_now env : steady (now env : SM Time).
Proof. intros w. apply steady_tick. Qed.
Hint Resolve steady_ret steady_fail steady_pure steady_tenant steady_outside steady_now : steady.
Ltac steady_go :=
  repeat first
    [ progress auto with steady
    | apply steady_bind; [|intros ?]
    | apply steady_attempt | apply steady_wrapped
    | match goal with |- steady (match ?x with _ => _ end) => destruct x end ].

Hypothesis RB_audit : ∀ e, who (ai_UserID e) (ai_Action e) → moves RB (sb_WriteAuditEvent e).
Lemma steady_audit senv u a t e : who u a → steady (audit senv u a t e).
Proof. intros H. unfold audit. steady_go. Qed.
Hint Resolve steady_audit : steady.
Lemma steady_audited {A} senv u a t (m : SM A) : who u a → steady m → steady (audited senv u a t m).
Proof.
  intros Hw Hm w. unfold audited. specialize (Hm w). destruct (m w) as [r w1]. etrans; [exact Hm|by apply steady_audit].
Qed.
Lemma steady_audited_id senv u a t (m : SM outcome_id) :
  who u a → steady m → steady (audited_id senv u a t m).
Proof.
  intros Hw Hm w. unfold audited_id. specialize (Hm w).
  destruct (m w) as [[[q e]|e] w1]; (etrans; [exact Hm|by apply steady_audit]).
Qed.
Lemma steady_plan senv u g : who u actionQuestPlan → steady (PlanQuest senv u g).
Proof. intros H. unfold PlanQuest, reject, resolve, calendar_snapshot. steady_go. Qed.
Hypothesis RB_event : ∀ u q e, moves RB (sb_WriteQuestEvent u q e).
Lemma steady_event senv u q e : steady (writeQuestEvent senv u q e).
Proof. unfold writeQuestEvent. steady_go. Qed.
Lemma steady_record senv u sc k p t e n :
  (∀ k, moves RB (sb_PutIdempotencyResult u sc k p t e idempotencyTTL n)) →
  steady (recordIdempotency senv u sc k p t e n).
Proof. intros H. unfold recordIdempotency. steady_go. Qed.
Lemma steady_precheck senv verb u sc k p n c :
  (∀ k, moves RB (sb_GetIdempotencyResult u sc k p n)) → steady (precheck senv verb u sc k p n c).
Proof. intros H. unfold precheck. steady_go. Qed.
Hypothesis RB_accounts : ∀ u, moves RB (sb_ListAccounts u).
Hypothesis RB_account : ∀ u e, moves RB (sb_GetAccountByEmail u e).
Lemma steady_account senv u g : steady (create_account senv u g).
Proof. unfold create_account, findAccountByID. steady_go. Qed.
Lemma steady_newid senv : steady (newQuestID senv).
Proof. unfold newQuestID. steady_go. Qed.
Lemma steady_check opts p : steady (check_plan_hash opts p).
Proof. unfold check_plan_hash. steady_go. Qed.
End Steady.
