(* ===== verification/Adapter.v ===== *)
(** * [cmd/resy-snipe/service_store_adapter.go]: the store behind the service

    The multi-user tables as a [StoreBackend].  Rows pass through field by
    field; [store.ErrNotFound] becomes [service.ErrNotFound] where the
    adapter folds it.  ([ListEvents] is a stub nobody calls.) *)

From S2P Require Import Prelude GoTime GoFormat Types Status Slots Drop Json Hash Codec Sql Sqlite SqliteStore.
From S2P Require Import Tenant Quests QuestsProofs Accounts Idempotency Tokens Engine EngineProofs Service.

(** [errors.Is(err, store.ErrNotFound)] gives the service's bare sentinel. *)
Definition fold_not_found {A} (m : TSQL A) : TSQL A := λ fl n db,
  match m fl n db with
  | (Ok a, n', db') => (Ok a, n', db')
  | (Err e, n', db') => (Err (if errors_is e Store.ErrNotFound then Service.ErrNotFound else e), n', db')
  end.
Definition to_lookup (l : IdempotencyLookup) : IdemLookup :=
  mkIdemLookup (il_Found l) (il_PayloadMatch l) (il_Expired l) (il_TargetID l) (il_ResultErr l).

(** SQLite's clock, which stamps the audit rows. *)
Class SqliteClock := sqlite_now : nat → Z.

Definition adapter_CreateQuest (q : QuestRow) : TSQL unit := Quests.CreateQuest q.
Definition adapter_GetQuest (u q : string) : TSQL QuestRow := fold_not_found (Quests.GetQuest u q).
Definition adapter_ListQuests (u : string) (f : QuestListFilter) : TSQL (list QuestRow) :=
  Quests.ListQuests u f.
Definition adapter_UpdateQuestStatus (u q : string) (st : Status) (c : option Time) (t : Time) : TSQL unit :=
  fold_not_found (Quests.UpdateQuestStatus u q st c t).
Definition adapter_ListAccounts (u : string) : TSQL (list AccountRow) := ListAccountsForUser u.
Definition adapter_GetAccountByEmail (u e : string) : TSQL AccountRow := fold_not_found (GetAccountByEmail u e).
Definition adapter_BindAccountToUser (u e : string) : TSQL string :=
  fold_not_found (BindLegacyAccountToUser u e).
Definition adapter_ListQuestEvents (u q : string) (l : Z) : TSQL (list Event) := ListQuestEvents u q l.
Definition adapter_GetIdempotencyResult (u sc k p : string) (t : Time) : TSQL IdemLookup :=
  l ← GetIdempotencyResult u sc k p t; mret (to_lookup l).
Definition adapter_PutIdempotencyResult (u sc k p tg : string) (e : option error) (ttl : Z) (t : Time)
    : TSQL unit := PutIdempotencyResult u sc k p tg e ttl t.
Definition adapter_WriteAuditEvent {clk : SqliteClock} (e : AuditEventInput) : TSQL unit :=
  WriteAuditEvent sqlite_now e.
Definition adapter_WriteQuestEvent (u q : string) (e : Event) : TSQL unit := WriteQuestEvent u q e.
Definition adapter_InsertToken (t : TokenRow) : TSQL unit := InsertToken t.
Definition adapter_ListTokensForUser (u : string) : TSQL (list TokenRow) := ListTokensForUser u.
Definition adapter_RevokeToken (u i : string) (t : Time) : TSQL unit := fold_not_found (Tokens.RevokeToken u i t).
#[export] Instance serviceStoreAdapter {clk : SqliteClock} : StoreBackend TenantDB := {|
  sb_CreateQuest := adapter_CreateQuest;
  sb_GetQuest := adapter_GetQuest;
  sb_ListQuests := adapter_ListQuests;
  sb_UpdateQuestStatus := adapter_UpdateQuestStatus;
  sb_ListAccounts := adapter_ListAccounts;
  sb_GetAccountByEmail := adapter_GetAccountByEmail;
  sb_BindAccountToUser := adapter_BindAccountToUser;
  sb_ListQuestEvents := adapter_ListQuestEvents;
  sb_GetIdempotencyResult := adapter_GetIdempotencyResult;
  sb_PutIdempotencyResult := adapter_PutIdempotencyResult;
  sb_WriteAuditEvent := adapter_WriteAuditEvent;
  sb_WriteQuestEvent := adapter_WriteQuestEvent;
  sb_InsertToken := adapter_InsertToken;
  sb_ListTokensForUser := adapter_ListTokensForUser;
  sb_RevokeToken := adapter_RevokeToken
|}.
#[global] Arguments adapter_CreateQuest /.
#[global] Arguments adapter_GetQuest /.
#[global] Arguments adapter_ListQuests /.
#[global] Arguments adapter_UpdateQuestStatus /.
#[global] Arguments adapter_ListAccounts /.
#[global] Arguments adapter_GetAccountByEmail /.
#[global] Arguments adapter_GetIdempotencyResult /.
#[global] Arguments adapter_PutIdempotencyResult /.
#[global] Arguments adapter_WriteAuditEvent /.
#[global] Arguments adapter_WriteQuestEvent /.

Lemma moves_fold {A} (R : TenantDB → TenantDB → Prop) (m : TSQL A) : moves R m → moves R (fold_not_found m).
Proof. intros Hm fl n db. unfold fold_not_found. specialize (Hm fl n db). by destruct (m fl n db) as [[[]]]. Qed.
#[export] Hint Resolve moves_fold : snipe.
(** The lookup of a key changes nothing. *)
Lemma tenant_get_reads {clk : SqliteClock} u sc k p t : moves eq (sb_GetIdempotencyResult u sc k p t).
Proof.
  cbn. apply moves_bind; [by intros ??? -> | |intros; by apply moves_ret]. unfold GetIdempotencyResult.
  destruct (_ || _); [by apply moves_of|].
  apply moves_bind; [by intros ??? -> |by apply moves_ctx, moves_query|intros row].
  apply moves_bind; [by intros ??? -> |by apply moves_of|intros [l|]; [by apply moves_ret|]].
  apply moves_bind; [by intros ??? -> |by apply moves_ctx, moves_query|intros row'].
  apply moves_bind; [by intros ??? -> |by apply moves_of|intros [l|]; by apply moves_ret].
Qed.

(** ** A daemon with two users *)

#[export] Instance sample_clock : SqliteClock := λ n, t_ns drop_ny + Z.of_nat n * second.
Definition sample_senv : SEnv :=
  mkSEnv sample_env (λ _ _, Ok (mkVenue "resy" "6194" "Carbone" (Some NewYork2026))) None None
    (λ k n, Ok (repeat (Z.of_nat k) n)) (λ _, []) "user" true (λ _, None) (λ s, s).
Definition ann_goal (party : Z) : Goal :=
  mkGoal (Some (VenueQuerySlug "carbone" "ny")) (mkDate 2026 6 9) party evening "ann@example.com"
    (mkConstraints [] false).
Definition sample_world : World (Stores DB TenantDB) :=
  mkWorld (mkStores empty_db two_tenants) 0%nat 0%nat (t_ns drop_ny - 60 * second) stored_sample [] [].
Definition keyed_create (party : Z) (w : World (Stores DB TenantDB)) :=
  CreateQuest (SnipeStore0 := store_laws) sample_senv "usr_1" (ann_goal party)
    (mkCreateOpts None (Some "k1")) w.
Definition created_world : World (Stores DB TenantDB) := (keyed_create 2 sample_world).2.
Example create_example :
  (keyed_create 2 sample_world).1 = Ok ("q_06060606", None)
  ∧ map qr_status (tb_quests (st_tenants (w_store created_world))) = ["pending"]
  ∧ map au_action (tb_audit (st_tenants (w_store created_world))) = ["quest.plan"; "quest.create"]
  ∧ length (w_emitted created_world) = 1%nat.
Proof. vm_compute. split_all; reflexivity. Qed.
