(* ===== verification/Replay.v ===== *)
(** * A keyed verb runs once

    What the service asks of a store for its idempotency keys, as a class;
    the theorem that a keyed [CreateQuest] or [CancelQuest] takes effect once
    a day, if its outcome was recorded, against the class; and the tables of the multi-user store as an
    instance of it. *)

From S2P Require Import Prelude GoTime GoFormat Millis Types Status Slots Sha256 Drop Json Hash Codec Strategy Plan.
From S2P Require Import Text Url Goal Sql Sqlite SqliteStore Tenant Quests QuestsProofs Idempotency IdempotencyProofs.
From S2P Require Import Accounts Tokens Engine Resolver Service ServiceSteps Adapter.

#[local] Existing Instances m_ret m_bind.

Definition err_text (e : option error) : string := match e with Some e => error_String e | None => "" end.
(** What the store recalls at [later] of an outcome recorded at [n]. *)
Definition recalled (target : string) (e : option error) (n later : Time) (exact : bool) : IdemLookup :=
  mkIdemLookup true exact (negb (time_before later (expiry n idempotencyTTL))) target (err_text e).

(** The answer of a call under the faults [fl]: as expected, or an error,
    which without a fault it is not. *)
Definition or_disturbed {A} (fl : Faults) (P : A → Prop) (r : res A) : Prop :=
  match r with Ok a => P a | Err _ => ¬ no_faults fl end.

(** [ib_alike u sc k]: the same answers for that key of that user, now and
    after it is recorded; nothing but a [Put] under the key disturbs it.
    [ib_unused]: the user exists and never used the key.  [ib_other]: two
    payloads have different digests under the key. *)
Class IdempotentBackend (B : Type) `{!StoreBackend B} := {
  ib_alike : string → string → string → B → B → Prop;
  ib_unused : string → string → string → B → Prop;
  ib_other : string → string → string → string → string → Prop;
  ib_alike_equiv u sc k :: Equivalence (ib_alike u sc k);
  ib_unused_alike u sc k b b' : ib_alike u sc k b b' → ib_unused u sc k b → ib_unused u sc k b';
  ib_get_reads u sc k p t : moves eq (sb_GetIdempotencyResult u sc k p t);
  ib_get_unused u sc k p t fl n b :
    ib_unused u sc k b → u ≠ "" → sc ≠ "" → k ≠ "" →
    or_disturbed fl (λ l, lk_Found l = false) (sb_GetIdempotencyResult u sc k p t fl n b).1.1;
  ib_put_get u sc k p target e n fl i b :
    ib_unused u sc k b → u ≠ "" → sc ≠ "" → k ≠ "" →
    four_digit_year (t_ns n) → four_digit_year (t_ns n + idempotencyTTL) →
    let b' := (sb_PutIdempotencyResult u sc k p target e idempotencyTTL n fl i b).2 in
    (ib_unused u sc k b' ∧ ¬ no_faults fl) ∨
    ∀ b'' fl' j later, ib_alike u sc k b' b'' →
    or_disturbed fl' (eq (recalled target e n later true)) (sb_GetIdempotencyResult u sc k p later fl' j b'').1.1 ∧
    (∀ p', ib_other u sc k p p' →
       or_disturbed fl' (eq (recalled target e n later false))
         (sb_GetIdempotencyResult u sc k p' later fl' j b'').1.1);
  ib_create u sc k q : moves (ib_alike u sc k) (sb_CreateQuest q);
  ib_quest u sc k v q : moves (ib_alike u sc k) (sb_GetQuest v q);
  ib_update u sc k v q st c t : moves (ib_alike u sc k) (sb_UpdateQuestStatus v q st c t);
  ib_accounts u sc k v : moves (ib_alike u sc k) (sb_ListAccounts v);
  ib_account u sc k v e : moves (ib_alike u sc k) (sb_GetAccountByEmail v e);
  ib_audit u sc k e : moves (ib_alike u sc k) (sb_WriteAuditEvent e);
  ib_event u sc k v q e : moves (ib_alike u sc k) (sb_WriteQuestEvent v q e)
}.

Section Replay.
Context {St B : Type} `{!SnipeStore St} `{!StoreBackend B} `{!IdempotentBackend B} (u sc k : string).
Notation W := (World (Stores St B)).
Notation SM := (@M (Stores St B)).
Notation tenants w := (st_tenants (w_store w)).

(** Steps that leave the recorded outcomes alone. *)
Notation same_key_answers := (λ w w' : W, ib_alike u sc k (tenants w) (tenants w')).
Notation quiet := (steady same_key_answers).
#[local] Instance same_preorder : PreOrder same_key_answers.
Proof. constructor. 1: by intros w. intros w1 w2 w3 H1 H2. by etrans. Qed.
Lemma same_step env (w : W) b n :
  ib_alike u sc k (tenants w) b → same_key_answers w (set_store (mkStores (st_snipes (w_store w)) b) n (tick env w)).
Proof. done. Qed.
Lemma quiet_snipes {A} env (f : Faults → nat → St → res A * nat * St) :
  quiet (store_call env (on_snipes (B:=B) f)).
Proof.
  intros w. unfold store_call, on_snipes. destruct (f _ _ (st_snipes (w_store w))) as [[r n] st]. reflexivity.
Qed.
Lemma quiet_bind {A C} (m : SM A) (f : A → SM C) : quiet m → (∀ a, quiet (f a)) → quiet (m ≫= f).
Proof. apply (steady_bind _ (PreOrder0 := same_preorder)). Qed.
Lemma quiet_submit env id i : quiet (Submit env id i : SM SnipeState).
Proof.
  unfold Submit. apply quiet_bind; [intros w; reflexivity|]. intros n.
  do 2 (apply quiet_bind; [apply steady_wrapped, quiet_snipes|intros ?]).
  apply quiet_bind; [intros w; reflexivity|]. intros ? w. reflexivity.
Qed.
Lemma quiet_audit senv v a t e : quiet (audit (St:=St) (B:=B) senv v a t e).
Proof. apply (steady_audit _ _ (λ _ _, True) same_step); intros; [apply ib_audit|done]. Qed.
Lemma quiet_create_work senv v g opts n : quiet (create_work (St:=St) (B:=B) senv v g opts n).
Proof.
  unfold create_work.
  apply quiet_bind; [apply (steady_plan _ _ (λ _ _, True) same_step); intros; [apply ib_audit|done]|intros plan].
  apply quiet_bind; [apply (steady_check _ (PreOrder0 := same_preorder))|intros _].
  apply quiet_bind.
  { apply (steady_account _ _ same_step); intros; [apply ib_accounts|apply ib_account]. }
  intros acct.
  apply quiet_bind; [apply steady_wrapped, (steady_newid _ _ same_step)|intros id].
  apply quiet_bind; [apply steady_wrapped, (steady_tenant _ _ same_step), ib_create|intros _].
  apply quiet_bind; [apply steady_attempt, steady_wrapped, quiet_submit|intros [s|e]].
  - apply quiet_bind; [apply (steady_event _ _ same_step); intros; apply ib_event|].
    intros ?. apply (steady_ret _ (PreOrder0 := same_preorder)).
  - apply (steady_ret _ (PreOrder0 := same_preorder)).
Qed.

(** ** Running and replaying *)

(** Nothing fails and the context is not cancelled. *)
Definition undisturbed (env : Env) : Prop := no_faults (en_faults env) ∧ ∀ k, en_done env k = false.
(** Only the clock and the statement counter moved. *)
Record idle (w w' : W) : Prop := {
  idle_store : w_store w' = w_store w;
  idle_inner : w_inner w' = w_inner w;
  idle_emitted : w_emitted w' = w_emitted w;
  idle_calls : w_calls w' = w_calls w
}.
Lemma tenant_call_clean {A} senv (m : SqlOf B A) (w : W) :
  undisturbed (sv_env senv) →
  tenant_call senv m w =
    let '(r, n, b) := m (en_faults (sv_env senv)) (w_sql w) (tenants w) in
    (r, set_store (mkStores (st_snipes (w_store w)) b) n (tick (sv_env senv) w)).
Proof.
  intros [_ Hd]. unfold tenant_call, store_call, on_tenants. rewrite Hd.
  by destruct (m _ (w_sql w) (tenants w)) as [[r n] b].
Qed.
Context (senv : SEnv).
Hypothesis Hargs : u ≠ "" ∧ sc ≠ "" ∧ k ≠ "".

(** A cancelled context fails every statement of a call. *)
Lemma tenant_call_any {A} (m : SqlOf B A) (w : W) :
  ∃ fl, (undisturbed (sv_env senv) → no_faults fl) ∧
    tenant_call senv m w =
      let '(r, n, b) := m fl (w_sql w) (tenants w) in
      (r, set_store (mkStores (st_snipes (w_store w)) b) n (tick (sv_env senv) w)).
Proof.
  exists (if en_done (sv_env senv) (w_step w) then λ _, Some (ctx_error (sv_env senv)) else en_faults (sv_env senv)).
  split; [intros [Hf Hd]; by rewrite Hd|]. unfold tenant_call, store_call, on_tenants.
  by destruct (m _ (w_sql w) (tenants w)) as [[r n] b].
Qed.
(** The lookup of the pre-check. *)
Lemma precheck_any verb p n conflict (w : W) :
  ∃ fl w', (undisturbed (sv_env senv) → no_faults fl) ∧ idle w w' ∧
    precheck senv verb u sc (Some k) p n conflict w
    = (Ok (match (sb_GetIdempotencyResult u sc k p n fl (w_sql w) (tenants w)).1.1 with
           | Err e => Some ("", Some (wrap (verb +:+ " idempotency lookup: ") e))
           | Ok l =>
               if lk_Found l && negb (lk_Expired l) then
                 if negb (lk_PayloadMatch l)
                 then Some ("", Some (wrap_in (verb +:+ ": ") Service.ErrIdempotencyConflict
                                        (": idempotency key " +:+ conflict k l)))
                 else Some (replay_of l)
               else None
           end), w').
Proof.
  destruct (tenant_call_any (sb_GetIdempotencyResult u sc k p n) w) as (fl & Hfl & E). exists fl.
  unfold precheck, is_empty. rewrite str_eqb_neq by apply Hargs. unfold mbind, m_bind, attempt. rewrite E.
  pose proof (ib_get_reads u sc k p n fl (w_sql w) (tenants w)) as Hr.
  destruct (sb_GetIdempotencyResult u sc k p n fl (w_sql w) (tenants w)) as [[r i] b]. cbn in Hr |- *. subst b.
  eexists. split; [done|]. split; [|done]. split; try done. by destruct w as [[]].
Qed.
(** The first use of a key: its outcome is recorded, or it was disturbed and
    the key is as unused as before. *)
Lemma keyed_first verb p n conflict oe work (w : W) :
  quiet work → ib_unused u sc k (tenants w) →
  ∃ a w', keyed senv verb u sc (Some k) p n conflict oe work w = (Ok a, w') ∧
    ((ib_unused u sc k (tenants w') ∧ ¬ undisturbed (sv_env senv)) ∨
     ∃ b i fl, ib_unused u sc k b ∧ (undisturbed (sv_env senv) → no_faults fl) ∧
       ib_alike u sc k (sb_PutIdempotencyResult u sc k p (fst a) (snd a) idempotencyTTL n fl i b).2 (tenants w')).
Proof.
  intros Hq Hu. destruct Hargs as (H1 & H2 & H3).
  destruct (precheck_any verb p n conflict w) as (fl & w1 & Hfl & Hi & E).
  pose proof (ib_get_unused u sc k p n fl (w_sql w) (tenants w) Hu H1 H2 H3) as Hl.
  unfold keyed, mbind, m_bind. rewrite E.
  destruct (sb_GetIdempotencyResult u sc k p n fl (w_sql w) (tenants w)) as [[[l|e] i0] b0]; cbn in Hl; cbn [fst].
  2: { do 2 eexists. split; [done|]. left. split; [by rewrite (idle_store _ _ Hi)|]. intros H. by apply Hl, Hfl. }
  rewrite Hl. cbn [andb]. pose proof (Hq w1) as Hq1. unfold attempt. destruct (work w1) as [r w2] eqn:Ew.
  cbn [snd] in Hq1. set (a := match r with Ok a => a | Err e => (oe, Some e) end).
  assert (Hu2 : ib_unused u sc k (tenants w2)).
  { eapply ib_unused_alike; [exact Hq1|]. by rewrite (idle_store _ _ Hi). }
  assert (Hrec : ∃ w3 fl3, recordIdempotency senv u sc (Some k) p (fst a) (snd a) n w2 = (Ok tt, w3) ∧
    (undisturbed (sv_env senv) → no_faults fl3) ∧
    tenants w3 = (sb_PutIdempotencyResult u sc k p (fst a) (snd a) idempotencyTTL n fl3 (w_sql w2) (tenants w2)).2).
  { destruct (tenant_call_any (sb_PutIdempotencyResult u sc k p (fst a) (snd a) idempotencyTTL n) w2)
      as (fl3 & Hfl3 & E3).
    unfold recordIdempotency, is_empty. rewrite str_eqb_neq by done. unfold mbind, m_bind, attempt. rewrite E3.
    destruct (sb_PutIdempotencyResult u sc k p (fst a) (snd a) idempotencyTTL n fl3 (w_sql w2) (tenants w2))
      as [[r3 i3] b3] eqn:Ep.
    eexists _, fl3. split; [reflexivity|]. split; [done|]. by rewrite Ep. }
  destruct Hrec as (w3 & fl3 & Er & Hfl3 & Et). exists a, w3.
  split; [unfold a in Er |- *; destruct r; cbv beta iota zeta in Er |- *; by rewrite Er|].
  right. exists (tenants w2), (w_sql w2), fl3. by rewrite Et.
Qed.
(** A live record answers, unless the lookup fails, and nothing else
    happens. *)
Lemma keyed_again verb p n conflict oe work (w : W) l :
  (∀ fl, or_disturbed fl (eq l) (sb_GetIdempotencyResult u sc k p n fl (w_sql w) (tenants w)).1.1) →
  lk_Found l = true → lk_Expired l = false →
  ∃ a w', keyed senv verb u sc (Some k) p n conflict oe work w = (Ok a, w') ∧ idle w w' ∧
    (a = (if lk_PayloadMatch l then replay_of l
          else ("", Some (wrap_in (verb +:+ ": ") Service.ErrIdempotencyConflict
                            (": idempotency key " +:+ conflict k l)))) ∨
     (¬ undisturbed (sv_env senv) ∧ fst a = "" ∧ is_Some (snd a))).
Proof.
  intros El Hf He. destruct (precheck_any verb p n conflict w) as (fl & w' & Hfl & Hi & E).
  unfold keyed, mbind, m_bind. rewrite E. specialize (El fl).
  destruct (sb_GetIdempotencyResult u sc k p n fl (w_sql w) (tenants w)).1.1 as [l'|e]; cbn in El |- *.
  - subst l'. rewrite Hf, He. cbn [andb negb].
    destruct (lk_PayloadMatch l); do 2 eexists; (split; [done|]); (split; [done|]); by left.
  - do 2 eexists. split; [done|]. split; [done|]. right. split; [|by split].
    intros H. by apply El, Hfl.
Qed.
End Replay.

(** ** The theorem *)

Section Once.
Context {St B : Type} `{!SnipeStore St} `{!StoreBackend B} `{!IdempotentBackend B}.
Notation W := (World (Stores St B)).
Notation tenants w := (st_tenants (w_store w)).

(** The instant the verb reads from the clock. *)
Definition clock_at (senv : SEnv) (w : W) : Time :=
  mkTime (w_now w + en_tick (sv_env senv) (w_step w)) (en_loc (sv_env senv)).
Definition keyed_opts (planHash : option string) (k : string) : CreateOpts := mkCreateOpts planHash (Some k).
(** An id and an error as they come back: an error by its text. *)
Definition replayed (e e' : option error) : Prop :=
  match e with
  | None => e' = None
  | Some e => error_String e ≠ "" → e' = Some (replayServiceErr (error_String e))
  end.
(** The verb wrote its audit row and nothing else. *)
Definition only_audited (senv : SEnv) (u q : string) (e : option error) (w w' : W) : Prop :=
  ∃ w0, idle w w0 ∧ w' = (audit senv u actionQuestCreate q e w0).2.

Lemma create_run senv u g opts (w : W) :
  u ≠ "" →
  CreateQuest senv u g opts w =
    audited_id senv u actionQuestCreate (λ q, q)
      (keyed senv "CreateQuest" u scopeCreateQuest (co_IdempotencyKey opts) (goal_payload g) (clock_at senv w)
         goal_conflict "" (create_work senv u g opts (clock_at senv w)) ∘ λ _, tick (sv_env senv) w) w.
Proof.
  intros Hu. unfold CreateQuest, is_empty. rewrite str_eqb_neq by done. reflexivity.
Qed.

(** A call under a key that was used already: it does nothing but write its
    audit row, and its answer is [P], unless the call was disturbed, which
    may end it in an error. *)
Definition only_answers (senv : SEnv) (u : string) (g : Goal) (opts : CreateOpts) (w : W)
    (P : string → option error → Prop) : Prop :=
  ∃ q e w', CreateQuest senv u g opts w = (Ok (q, e), w') ∧ only_audited senv u q e w w' ∧
    (P q e ∨ ¬ undisturbed (sv_env senv) ∧ q = "" ∧ is_Some e).
Lemma used_key_answers senv u g h k (w : W) l (P : string → option error → Prop) :
  u ≠ "" → k ≠ "" →
  (∀ fl, or_disturbed fl (eq l) (sb_GetIdempotencyResult u scopeCreateQuest k (goal_payload g) (clock_at senv w) fl
           (w_sql w) (tenants w)).1.1) →
  lk_Found l = true → lk_Expired l = false →
  (let a := if lk_PayloadMatch l then replay_of l
            else ("", Some (wrap_in ("CreateQuest" +:+ ": ") Service.ErrIdempotencyConflict
                              (": idempotency key " +:+ goal_conflict k l))) in P (fst a) (snd a)) →
  only_answers senv u g (keyed_opts h k) w P.
Proof.
  intros Hu Hk El Hf He HP.
  destruct (keyed_again u scopeCreateQuest k senv ltac:(done) "CreateQuest" (goal_payload g) (clock_at senv w)
              goal_conflict "" (create_work senv u g (keyed_opts h k) (clock_at senv w)) (tick (sv_env senv) w) l)
    as ([q e] & w0 & E & Hi & Ha); [done..|].
  exists q, e. eexists. split; [|split].
  - rewrite create_run by done. unfold audited_id, compose. cbn [keyed_opts co_IdempotencyKey]. rewrite E. reflexivity.
  - exists w0. split; [|done]. by destruct Hi.
  - destruct Ha as [Ha|Ha]; [left|by right]. cbv zeta in HP. by rewrite <- Ha in HP.
Qed.

(** C4. A keyed [CreateQuest] takes effect once a day, if it was recorded.
    When the user first uses a key, either the call is disturbed, by a fault
    or a cancellation, and leaves the key as unused as it was, so that a
    retry executes again ([lost_record_runs_twice]), or its outcome is
    recorded.  As long as nothing else records an outcome under the key, a
    second call with the same goal, at any time less than 24 hours (to the
    millisecond) after the first and whatever plan hash it carries, then
    returns the same quest id, without planning, storing or scheduling
    anything: only its audit row is written.  An error comes back made again
    from its text, which is not always the sentinel it was.  A call with
    another goal under the key gets [ErrIdempotencyConflict], and again only
    its audit row is written.  A second call that is disturbed itself may end
    in an error instead; it does no more than that. *)
Theorem CreateQuest_once senv u g h k (w : W) :
  u ≠ "" → k ≠ "" → ib_unused u scopeCreateQuest k (tenants w) →
  four_digit_year (t_ns (clock_at senv w)) →
  four_digit_year (t_ns (clock_at senv w) + idempotencyTTL) →
  ∃ q e w1, CreateQuest senv u g (keyed_opts h k) w = (Ok (q, e), w1) ∧
  ((¬ undisturbed (sv_env senv) ∧ ib_unused u scopeCreateQuest k (tenants w1)) ∨
   ∀ senv' g' h' (w' : W),
     ib_alike u scopeCreateQuest k (tenants w1) (tenants w') →
     time_before (clock_at senv' w') (expiry (clock_at senv w) idempotencyTTL) = true →
     (goal_payload g' = goal_payload g →
        only_answers senv' u g' (keyed_opts h' k) w' (λ q' e', q' = q ∧ replayed e e')) ∧
     (ib_other u scopeCreateQuest k (goal_payload g) (goal_payload g') →
        only_answers senv' u g' (keyed_opts h' k) w'
          (λ q' e', q' = "" ∧ ∃ e0, e' = Some e0 ∧ errors_is e0 Service.ErrIdempotencyConflict = true))).
Proof.
  intros Hu Hk Hun Hy1 Hy2. set (n := clock_at senv w) in *.
  destruct (keyed_first u scopeCreateQuest k senv ltac:(done) "CreateQuest" (goal_payload g) n goal_conflict ""
              (create_work senv u g (keyed_opts h k) n) (tick (sv_env senv) w)) as ([q e] & w1 & E & Hrec).
  { apply quiet_create_work. } { exact Hun. }
  exists q, e. eexists. split.
  { rewrite create_run by done. unfold audited_id, compose. fold n. cbn [keyed_opts co_IdempotencyKey].
    rewrite E. reflexivity. }
  pose proof (quiet_audit u scopeCreateQuest k senv u actionQuestCreate q e w1) as Hq.
  destruct Hrec as [[Hun' Hd]|(b & i & fl & Hb & Hfl & Hal)].
  { left. split; [done|]. by eapply ib_unused_alike; [exact Hq|]. }
  cbn [fst snd] in Hal.
  destruct (ib_put_get u scopeCreateQuest k (goal_payload g) q e n fl i b Hb Hu ltac:(done) Hk Hy1 Hy2)
    as [[Hl Hnf]|Hget].
  { left. split; [intros H; by apply Hnf, Hfl|]. eapply ib_unused_alike; [exact Hq|].
    by eapply ib_unused_alike; [exact Hal|]. }
  right. intros senv' g' h' w' Hal' Ht.
  assert (Ha2 : ib_alike u scopeCreateQuest k
    (sb_PutIdempotencyResult u scopeCreateQuest k (goal_payload g) q e idempotencyTTL n fl i b).2 (tenants w')).
  { etrans; [exact Hal|]. etrans; [exact Hq|exact Hal']. }
  split; intros Hp.
  - eapply (used_key_answers _ _ _ _ _ _ (recalled q e n (clock_at senv' w') true)); try done.
    + intros fl'. rewrite Hp. by apply Hget.
    + cbn. by rewrite Ht.
    + cbn. split; [done|]. destruct e as [e|]; cbn; [|done]. intros He. unfold is_empty. by rewrite str_eqb_neq.
  - eapply (used_key_answers _ _ _ _ _ _ (recalled q e n (clock_at senv' w') false)); try done.
    + intros fl'. by apply Hget.
    + cbn. by rewrite Ht.
    + cbn. split; [done|]. by eexists.
Qed.
End Once.

(** ** The multi-user store as a backend *)

Section Tenants.
Context {clk : SqliteClock}.

Definition unused_key (u sc k : string) (d : TenantDB) : Prop :=
  has_user u d = true ∧ idem_wf d ∧
  ∀ r, r ∈ tb_idem d →
    same_key u sc (HashIdempotencyPlain u sc k) r = false ∧ ∀ p, ik_key r ≠ HashIdempotencyKey u sc k p.
Definition same_answers (u sc k : string) (d d' : TenantDB) : Prop :=
  (unused_key u sc k d ↔ unused_key u sc k d') ∧
  ∀ p t fl n, (sb_GetIdempotencyResult u sc k p t fl n d).1.1 = (sb_GetIdempotencyResult u sc k p t fl n d').1.1.
#[export] Instance same_answers_equiv u sc k : Equivalence (same_answers u sc k).
Proof.
  split.
  - intros d. by split.
  - intros d d' [H1 H2]. split; [by symmetry|]. intros. by rewrite H2.
  - intros d d' d'' [H1 H2] [H3 H4]. split; [by etrans|]. intros. by rewrite H2.
Qed.
(** The idempotency calls look at these two tables. *)
Definition same_idem (d d' : TenantDB) : Prop := tb_idem d = tb_idem d' ∧ tb_users d = tb_users d'.
Lemma same_idem_answers u sc k d d' : same_idem d d' → same_answers u sc k d d'.
Proof.
  intros [Hi Hu]. split.
  - unfold unused_key, has_user. rewrite Hi, Hu. split; intros (H1 & [H2 H3] & H4); split_all; try done;
      by split; rewrite ?Hi || rewrite <- ?Hi.
  - intros p t fl n.
    assert (Ha : agrees (λ d d', tb_idem d = tb_idem d') (GetIdempotencyResult u sc k p t)).
    { unfold GetIdempotencyResult. destruct (_ || _); [by apply agrees_of|].
      apply agrees_bind; [apply agrees_ctx, agrees_query; by intros ? ? ->|intros row].
      apply agrees_bind; [apply agrees_of|intros [l|]; [by apply agrees_ret|]].
      apply agrees_bind; [apply agrees_ctx, agrees_query; by intros ? ? ->|intros row'].
      apply agrees_bind; [apply agrees_of|intros [l|]; by apply agrees_ret]. }
    destruct (Ha fl n d d' Hi) as [E _]. cbn. unfold mbind, sql_bind.
    destruct (GetIdempotencyResult u sc k p t fl n d) as [[r i] b], (GetIdempotencyResult u sc k p t fl n d') as [[r' i'] b'].
    cbn in E. injection E as -> ->. by destruct r'.
Qed.
#[export] Instance same_idem_preorder : PreOrder same_idem.
Proof. split; [by split|]. intros ? ? ? [] []. split; by etrans. Qed.
Lemma idem_moves {A} u sc k (m : TSQL A) : moves same_idem m → moves (same_answers u sc k) m.
Proof. intros Hm fl n d. apply same_idem_answers, Hm. Qed.
Ltac idem_step :=
  first [ by apply moves_query | by apply moves_of | by apply moves_ret
        | apply moves_fold | apply moves_ctx | apply moves_tx; [reflexivity|]
        | apply moves_bind; [by intros ? ? ? ? ?; etrans| |intros ?]
        | apply moves_stmt; [reflexivity|intros ? ? _]
        | case_goal ].
Lemma lookup_agrees u sc k p t fl n d l :
  (GetIdempotencyResult u sc k p t fl n d).1.1 = Ok l →
  (sb_GetIdempotencyResult u sc k p t fl n d).1.1 = Ok (to_lookup l).
Proof.
  intros H. cbn. unfold mbind, sql_bind. destruct (GetIdempotencyResult u sc k p t fl n d) as [[r i] b].
  cbn in H. by subst r.
Qed.
Lemma unused_ours u sc k p d : unused_key u sc k d → key_is_ours u sc k p d.
Proof. intros (_ & _ & H) r Hr E. by destruct (proj2 (H r Hr) p). Qed.
Lemma unused_none u sc k p d :
  unused_key u sc k d →
  find (exact_idem u (HashIdempotencyKey u sc k p)) (tb_idem d) = None ∧
  List.filter (same_key u sc (HashIdempotencyPlain u sc k)) (tb_idem d) = [].
Proof.
  intros (_ & _ & H). split.
  - destruct (find _ _) as [r|] eqn:E; [|done]. apply find_spec in E as [Hin Hr]. exfalso.
    unfold exact_idem in Hr. apply andb_true_iff in Hr as [Hr%bool_decide_eq_true_1 _]. by apply (proj2 (H r Hin) p).
  - destruct (List.filter _ _) as [|r l] eqn:E; [done|]. exfalso.
    assert (Hin : In r (r :: l)) by by left. rewrite <- E in Hin. apply filter_In in Hin as [Hin Hr].
    apply list_elem_of_In in Hin. by rewrite (proj1 (H r Hin)) in Hr.
Qed.
(** A lookup answers as if nothing failed, or with an error. *)
Lemma lookup_any u sc k p t fl n d l :
  (GetIdempotencyResult u sc k p t (λ _, None) n d).1.1 = Ok l →
  or_disturbed fl (eq (to_lookup l)) (sb_GetIdempotencyResult u sc k p t fl n d).1.1.
Proof.
  cbn. unfold mbind, sql_bind, GetIdempotencyResult. destruct (_ || _); [done|]. run_sql.
  destruct (fl n) as [e|] eqn:E1; [intros _ H; by rewrite H in E1|].
  destruct (scanIdempotencyRow _ _) as [[?|]|?]; cbn; [by intros [= ->]| |done].
  destruct (fl (S n)) as [e|] eqn:E2; [intros _ H; by rewrite H in E2|].
  destruct (scanIdempotencyRow _ _) as [[?|]|?]; cbn; [by intros [= ->]|by intros [= ->]|done].
Qed.
Lemma tenant_get_unused u sc k p t fl n d :
  unused_key u sc k d → u ≠ "" → sc ≠ "" → k ≠ "" →
  or_disturbed fl (λ l, lk_Found l = false) (sb_GetIdempotencyResult u sc k p t fl n d).1.1.
Proof.
  intros Hun H1 H2 H3. destruct (unused_none u sc k p d Hun) as [E1 E2].
  pose proof (lookup_any u sc k p t fl n d no_lookup) as H.
  destruct (sb_GetIdempotencyResult u sc k p t fl n d).1.1; cbn in H |- *; [rewrite <- H; [done|]|apply H];
    unfold GetIdempotencyResult; rewrite args_nonempty by done; run_sql; rewrite E1; cbv beta iota;
    cbn [scanIdempotencyRow]; by rewrite E2.
Qed.
Lemma tenant_put_get u sc k p target e n fl i d :
  unused_key u sc k d → u ≠ "" → sc ≠ "" → k ≠ "" →
  four_digit_year (t_ns n) → four_digit_year (t_ns n + idempotencyTTL) →
  let d' := (sb_PutIdempotencyResult u sc k p target e idempotencyTTL n fl i d).2 in
  (unused_key u sc k d' ∧ ¬ no_faults fl) ∨
  ∀ d'' fl' j later, same_answers u sc k d' d'' →
  or_disturbed fl' (eq (recalled target e n later true)) (sb_GetIdempotencyResult u sc k p later fl' j d'').1.1 ∧
  (∀ p', HashIdempotencyKey u sc k p' ≠ HashIdempotencyKey u sc k p →
     or_disturbed fl' (eq (recalled target e n later false))
       (sb_GetIdempotencyResult u sc k p' later fl' j d'').1.1).
Proof.
  intros Hun H1 H2 H3 Hy1 Hy2 d'. destruct (fl i) as [e0|] eqn:Ef.
  { left. split; [|intros H; by rewrite H in Ef]. unfold d'. cbn. unfold PutIdempotencyResult.
    rewrite args_nonempty by done. run_sql. by rewrite Ef. }
  right. intros d'' fl' j later [_ Hal].
  assert (Ed : d' = (upsert_idem (idem_row u sc k p target e idempotencyTTL n) d).2).
  { unfold d'. cbn. unfold PutIdempotencyResult. rewrite args_nonempty by done. run_sql. rewrite Ef.
    unfold upsert_idem. destruct (existsb _ _); [done|]. cbn [idem_row ik_user]. by rewrite (proj1 Hun). }
  split.
  - rewrite <- Hal, Ed.
    apply (lookup_any u sc k p later fl' j _ (answer_at target e idempotencyTTL n later true)).
    apply get_same; [done|done|apply Hun|by apply unused_ours|apply Hun|done].
  - intros p' Hp. rewrite <- Hal, Ed.
    apply (lookup_any u sc k p' later fl' j _ (answer_at target e idempotencyTTL n later false)).
    apply get_conflict; [done|done|apply Hun|by apply unused_ours|apply Hun|done|done|by apply unused_none|].
    intros x c Hx Hs. destruct Hun as (_ & _ & Hun). by rewrite (proj1 (Hun x Hx)) in Hs.
Qed.

#[export, refine] Instance tenant_replay : IdempotentBackend TenantDB := {|
  ib_alike := same_answers;
  ib_unused := unused_key;
  ib_other u sc k p p' := HashIdempotencyKey u sc k p' ≠ HashIdempotencyKey u sc k p;
  ib_alike_equiv := same_answers_equiv;
  ib_get_reads := tenant_get_reads;
  ib_get_unused := tenant_get_unused;
  ib_put_get := tenant_put_get;
  ib_unused_alike := _; ib_create := _; ib_quest := _; ib_update := _; ib_accounts := _; ib_account := _;
  ib_audit := _; ib_event := _
|}.
Proof.
  - intros u sc k b b' [H _]. apply H.
  - intros u sc k q. apply idem_moves. cbn. unfold Quests.CreateQuest. repeat idem_step.
    unfold insert_quest. by repeat case_goal.
  - intros u sc k v q. apply idem_moves. cbn. unfold Quests.GetQuest. repeat idem_step.
  - intros u sc k v q st c t. apply idem_moves. cbn. unfold Quests.UpdateQuestStatus. repeat idem_step. by split.
  - intros u sc k v. apply idem_moves. cbn. unfold ListAccountsForUser. repeat idem_step.
  - intros u sc k v e. apply idem_moves. cbn. unfold GetAccountByEmail. repeat idem_step.
  - intros u sc k e. apply idem_moves. cbn. intros fl n d. unfold WriteAuditEvent.
    do 2 (destruct (is_empty _); [reflexivity|]). unfold stmt. destruct (fl n); [reflexivity|].
    unfold insert_audit. by destruct (negb _).
  - intros u sc k v q e. apply idem_moves. cbn. unfold Quests.WriteQuestEvent. repeat idem_step.
    unfold insert_quest_event. by case_goal.
Defined.
End Tenants.

(** A retry gets the quest that was created; a retry for three gets a
    conflict. *)
Lemma unused_sample : unused_key "usr_1" scopeCreateQuest "k1" two_tenants.
Proof.
  split; [reflexivity|]. split; [exact two_tenants_idem|]. intros r Hr. destruct (not_elem_of_nil r Hr).
Qed.
Lemma CreateQuest_once_witness :
  (keyed_create 2 created_world).1 = Ok ("q_06060606", None) ∧
  ∃ e, (keyed_create 3 created_world).1 = Ok ("", Some e) ∧ errors_is e Service.ErrIdempotencyConflict = true.
Proof.
  pose proof (CreateQuest_once (SnipeStore0 := store_laws) sample_senv "usr_1" (ann_goal 2) None "k1" sample_world
    ltac:(discriminate) ltac:(discriminate) unused_sample
    ltac:(vm_compute; split; congruence) ltac:(vm_compute; split; congruence)) as (q & e & w1 & E & H).
  assert (Ew : w1 = created_world) by exact (eq_sym (f_equal snd E)).
  assert (Eq : Ok (q, e) = (keyed_create 2 sample_world).1) by exact (eq_sym (f_equal fst E)).
  rewrite (proj1 create_example) in Eq. injection Eq as -> ->. subst w1.
  assert (Hc : undisturbed (sv_env sample_senv)) by exact (conj (λ _, eq_refl) (λ _, eq_refl)).
  destruct H as [[Hd _]|H]; [by destruct (Hd Hc)|]. split.
  - destruct (H sample_senv (ann_goal 2) None created_world (reflexivity _) ltac:(vm_compute; reflexivity))
      as [Hs _]. destruct (Hs eq_refl) as (q' & e' & w2 & E2 & _ & [[-> ->]|[Hd _]]); [|by destruct (Hd Hc)].
    exact (f_equal fst E2).
  - destruct (H sample_senv (ann_goal 3) None created_world (reflexivity _) ltac:(vm_compute; reflexivity))
      as [_ Hs].
    assert (Ho : HashIdempotencyKey "usr_1" scopeCreateQuest "k1" (goal_payload (ann_goal 3))
                 ≠ HashIdempotencyKey "usr_1" scopeCreateQuest "k1" (goal_payload (ann_goal 2)))
      by (vm_compute; discriminate).
    destruct (Hs Ho) as (q' & e' & w2 & E2 & _ & [(-> & e0 & -> & He)|[Hd _]]); [|by destruct (Hd Hc)].
    exists e0. split; [exact (f_equal fst E2)|exact He].
Defined.

(** What a lost record costs: the ninth statement, which records the outcome,
    fails, the caller is told nothing, and the retry creates a second
    quest. *)
Definition full_disk : SEnv :=
  mkSEnv (mkEnv (λ n, if (n =? 8)%nat then Some (ENew "disk full") else None) (en_tick (sv_env sample_senv)) (en_done (sv_env sample_senv))
            (en_deadline (sv_env sample_senv)) (en_timer_first (sv_env sample_senv)) (en_loc (sv_env sample_senv)) (en_provider (sv_env sample_senv))
            (en_policy (sv_env sample_senv)))
    (sv_resolve sample_senv) None None (sv_rand sample_senv) (sv_blake2b sample_senv) "user" true
    (sv_ip sample_senv) (sv_lower sample_senv).
Lemma lost_record_runs_twice :
  let first := CreateQuest (SnipeStore0 := store_laws) full_disk "usr_1" (ann_goal 2) (keyed_opts None "k1")
                 sample_world in
  first.1 = Ok ("q_06060606", None) ∧
  (keyed_create 2 first.2).1 = Ok ("q_14141414", None) ∧
  map qr_id (tb_quests (st_tenants (w_store (keyed_create 2 first.2).2))) = ["q_06060606"; "q_14141414"].
Proof. vm_compute. split_all; reflexivity. Qed.
