(* ===== verification/ServiceProofs.v ===== *)
(** * What creating and cancelling a quest can do

    [CreateQuest] and [CancelQuest] over the multi-user store, whatever
    fails: the rows they may write, for whom, and what a returned success
    means. *)

From S2P Require Import Prelude GoTime GoFormat Millis Types Status Slots Drop Sha256 Json Hash Codec Strategy Plan.
From S2P Require Import Text Url Goal Sql Sqlite SqliteStore Tenant Quests QuestsProofs Idempotency Accounts Tokens.
From S2P Require Import Engine EngineProofs Resolver Service ServiceSteps Adapter Replay.

#[local] Existing Instances m_ret m_bind.

Section Verbs.
Context {St : Type} `{!SnipeStore St} {clk : SqliteClock} (senv : SEnv).
Notation W := (World (Stores St TenantDB)).
Notation SM := (@M (Stores St TenantDB)).
Notation tenants w := (st_tenants (w_store w)).
Notation snipes w := (st_snipes (w_store w)).

(** ** Steps that touch neither quests, accounts, users, nor snipes *)

Record same_books (d d' : TenantDB) : Prop := {
  sb_quests : tb_quests d' = tb_quests d;
  sb_accts : tb_accounts d' = tb_accounts d;
  sb_users : tb_users d' = tb_users d;
  sb_tokens : tb_tokens d' = tb_tokens d
}.
#[local] Instance same_books_preorder : PreOrder same_books.
Proof. split; [by split|]. intros ? ? ? [] []. split; by etrans. Qed.
Record bookless (w w' : W) : Prop := {
  bl_books : same_books (tenants w) (tenants w');
  bl_snipes : snipes w' = snipes w;
  bl_emitted : w_emitted w' = w_emitted w
}.
#[local] Instance bookless_preorder : PreOrder bookless.
Proof. split; [by split|]. intros ? ? ? [] []. split; by etrans. Qed.
Lemma bookless_step env (w : W) b n :
  same_books (tenants w) b → bookless w (set_store (mkStores (snipes w) b) n (tick env w)).
Proof. by split. Qed.
Notation idle := (steady bookless).

Ltac books_step :=
  first [ by apply moves_query | by apply moves_of | by apply moves_ret
        | apply moves_fold | apply moves_ctx | apply moves_tx; [reflexivity|]
        | apply moves_bind; [by intros ? ? ? ? ?; etrans| |intros ?]
        | apply moves_stmt; [reflexivity|intros ? ? _]
        | case_goal ].
Lemma books_audit e : moves same_books (sb_WriteAuditEvent e).
Proof.
  cbn. intros fl n d. unfold WriteAuditEvent. do 2 (destruct (is_empty _); [reflexivity|]).
  unfold stmt. destruct (fl n); [reflexivity|]. unfold insert_audit. by destruct (negb _).
Qed.
Lemma books_event u q e : moves same_books (sb_WriteQuestEvent u q e).
Proof.
  cbn. unfold Quests.WriteQuestEvent. repeat books_step. unfold insert_quest_event. by case_goal.
Qed.
Lemma books_accounts u : moves same_books (sb_ListAccounts u).
Proof. cbn. unfold ListAccountsForUser. repeat books_step. Qed.
Lemma books_account u e : moves same_books (sb_GetAccountByEmail u e).
Proof. cbn. unfold GetAccountByEmail. repeat books_step. Qed.
Lemma books_quest u q : moves same_books (sb_GetQuest u q).
Proof. cbn. unfold Quests.GetQuest. repeat books_step. Qed.
Lemma books_get u sc k p t : moves same_books (sb_GetIdempotencyResult u sc k p t).
Proof. cbn. unfold GetIdempotencyResult. repeat books_step. Qed.
Lemma books_put u sc k p tg e ttl t : moves same_books (sb_PutIdempotencyResult u sc k p tg e ttl t).
Proof.
  cbn. unfold PutIdempotencyResult. repeat books_step. unfold upsert_idem. by repeat case_goal.
Qed.

Lemma idle_bind {A C} (m : SM A) (f : A → SM C) : idle m → (∀ a, idle (f a)) → idle (m ≫= f).
Proof. apply (steady_bind _). Qed.
Lemma idle_audited {A} u a t (m : SM A) : idle m → idle (audited senv u a t m).
Proof. apply (steady_audited _ _ (λ _ _, True) bookless_step); [intros; apply books_audit|done]. Qed.
Lemma idle_plan u g : idle (PlanQuest senv u g : SM Plan).
Proof. apply (steady_plan _ _ (λ _ _, True) bookless_step); [intros; apply books_audit|done]. Qed.
Lemma idle_account u g : idle (create_account senv u g : SM AccountRow).
Proof. apply (steady_account _ _ bookless_step); [apply books_accounts|apply books_account]. Qed.

(** ** Inversion of the steps of [create_work] *)

Lemma bind_inv {A C} (m : SM A) (f : A → SM C) w r w' :
  (m ≫= f) w = (r, w') →
  (∃ e, m w = (Err e, w') ∧ r = Err e) ∨ (∃ a w1, m w = (Ok a, w1) ∧ f a w1 = (r, w')).
Proof.
  unfold mbind, m_bind. destruct (m w) as [[a|e] w1]; intros H; [right; by exists a, w1|left].
  injection H as <- <-. by exists e.
Qed.
Lemma wrapped_inv {A} pre (m : SM A) w r w' :
  wrapped pre m w = (r, w') → ∃ r0, m w = (r0, w') ∧ r = match r0 with Ok a => Ok a | Err e => Err (wrap pre e) end.
Proof. unfold wrapped. destruct (m w) as [[a|e] w1]; intros [= <- <-]; by eexists. Qed.
Lemma attempt_inv {A} (m : SM A) w r w' :
  attempt m w = (r, w') → ∃ r0, m w = (r0, w') ∧ r = Ok r0.
Proof. unfold attempt. destruct (m w) as [r0 w1]; intros [= <- <-]; by eexists. Qed.
Lemma tenant_inv {A} (m : TSQL A) (w : W) r w' :
  tenant_call senv m w = (r, w') →
  ∃ fl n d, m fl (w_sql w) (tenants w) = (r, n, d) ∧
    w' = set_store (mkStores (snipes w) d) n (tick (sv_env senv) w).
Proof.
  unfold tenant_call, store_call, on_tenants. set (fl := if en_done _ _ then _ else _).
  destruct (m fl (w_sql w) (tenants w)) as [[r0 n] d] eqn:E. intros [= <- <-]. by exists fl, n, d.
Qed.
Lemma steady_run {A} (m : SM A) w r w' : idle m → m w = (r, w') → bookless w w'.
Proof. intros Hm E. specialize (Hm w). by rewrite E in Hm. Qed.

Lemma plan_Ok u g (w : W) p w' :
  PlanQuest senv u g w = (Ok p, w') →
  ∃ venue n snap, goal_Validate (sv_ip senv) (sv_lower senv) g n = None ∧
    BuildPlan (plan_input g venue n snap) = Ok p.
Proof.
  unfold PlanQuest. destruct (is_empty u); [done|]. intros H.
  apply bind_inv in H as [(e & _ & [=])|(n & w1 & _ & H)].
  destruct (goal_Validate _ _ g n) as [e|] eqn:Ev.
  { apply bind_inv in H as [(? & _ & [=])|(? & ? & _ & [=])]. }
  apply bind_inv in H as [(e & _ & [=])|(r & w2 & _ & H)]. destruct r as [venue|e].
  2: { apply bind_inv in H as [(? & _ & [=])|(? & ? & _ & [=])]. }
  apply bind_inv in H as [(e & _ & [=])|(snap & w3 & _ & H)].
  destruct (BuildPlan _) as [plan|e] eqn:Eb.
  2: { apply bind_inv in H as [(? & _ & [=])|(? & ? & _ & [=])]. }
  apply bind_inv in H as [(e & _ & [=])|(? & w4 & _ & [= <- <-])]. by exists venue, n, snap.
Qed.
(** The account belongs to the caller and is the one the goal names. *)
Definition owns_account (u : string) (g : Goal) (a : AccountRow) (d : TenantDB) : Prop :=
  ∃ r, r ∈ tb_accounts d ∧ ac_user r = Some u ∧ a = account_of r ∧
       (ac_email r = g_AccountID g ∨ ac_id r = g_AccountID g).
Lemma bound_true u r : bound_to u r = true → ac_user r = Some u.
Proof. apply bool_decide_eq_true_1. Qed.
Lemma account_Ok u g (w : W) a w' :
  create_account senv u g w = (Ok a, w') → owns_account u g a (tenants w).
Proof.
  unfold create_account. intros H. apply bind_inv in H as [(e & _ & [=])|(r & w1 & H1 & H)].
  apply attempt_inv in H1 as (r0 & H1 & [= <-]). apply tenant_inv in H1 as (fl & n & d & H1 & ->).
  destruct r as [a0|e].
  - injection H as <- <-. cbn in H1. unfold fold_not_found, GetAccountByEmail in H1.
    destruct (is_empty u || is_empty (g_AccountID g)); [by run_sql; cbn in H1|].
    revert H1. run_sql. destruct (fl (w_sql w)); [done|].
    destruct (find (is_account u (g_AccountID g)) (tb_accounts (tenants w))) as [r|] eqn:Ef; [|done].
    intros [= <- _ _]. apply find_spec in Ef as [Hin Hr]. unfold is_account in Hr.
    apply andb_true_iff in Hr as [Hb%bound_true He%str_eqb_true]. exists r. by split_all; [..|left].
  - destruct (errors_is e _); [|done]. apply bind_inv in H as [(e' & _ & [=])|(r & w2 & H2 & H)].
    destruct r as [a2|e2]; [|done]. injection H as <- <-.
    apply attempt_inv in H2 as (r0 & H2 & [= <-]).
    assert (Hd : same_books (tenants w) d).
    { pose proof (books_account u (g_AccountID g) fl (w_sql w) (tenants w)) as Hb. by rewrite H1 in Hb. }
    unfold findAccountByID in H2. apply bind_inv in H2 as [(e' & _ & [=])|(accts & w3 & H2 & H3)].
    destruct (find _ accts) as [a'|] eqn:Ef; [|done]. injection H3 as <- <-.
    apply find_spec in Ef as [Hin Heq%str_eqb_true].
    apply tenant_inv in H2 as (fl2 & n2 & d2 & H2 & ->). cbn in H2. unfold ListAccountsForUser in H2.
    destruct (is_empty u); [by run_sql; cbn in H2|]. revert H2. run_sql.
    destruct (fl2 _); [done|]. intros [= <- _ _]. apply list_elem_of_fmap in Hin as (r & -> & Hin).
    rewrite merge_sort_Permutation in Hin. apply list_elem_of_In, filter_In in Hin as [Hin Hb%bound_true].
    apply list_elem_of_In in Hin. cbn in Hin. rewrite (sb_accts _ _ Hd) in Hin.
    exists r. split_all; try done. by right.
Qed.

Lemma snipes_inv {A} (f : Faults → nat → St → res A * nat * St) (w : W) r w' :
  store_call (sv_env senv) (on_snipes f) w = (r, w') → tenants w' = tenants w ∧ w_emitted w' = w_emitted w.
Proof.
  unfold store_call, on_snipes. destruct (f _ _ (snipes w)) as [[r0 n] st]. by intros [= <- <-].
Qed.
(** The notification that announces a scheduled quest. *)
Definition submitted_note (id : string) (i : Intent) (at_ : Time) : Notification :=
  mkNotification id None StatusSubmitted (mkEvent EventSubmitted at_ (submitted_attrs id i)).
Lemma submit_inv id i (w : W) r w' :
  Submit (sv_env senv) id i w = (r, w') →
  tenants w' = tenants w ∧
  match r with
  | Ok _ => ∃ at_, w_emitted w' = w_emitted w ++ [submitted_note id i at_]
  | Err _ => w_emitted w' = w_emitted w
  end.
Proof.
  unfold Submit. intros H. apply bind_inv in H as [(e & [=] & _)|(n & w1 & [= <- <-] & H)].
  apply bind_inv in H as [(e & H & ->)|(? & w2 & H2 & H)].
  { apply wrapped_inv in H as (r0 & H & _). by apply (snipes_inv (ss_create _)) in H. }
  apply wrapped_inv in H2 as (r0 & H2 & _). apply (snipes_inv (ss_create _)) in H2 as [T2 E2].
  apply bind_inv in H as [(e & H & ->)|(? & w3 & H3 & H)].
  { apply wrapped_inv in H as (r1 & H & _). apply (snipes_inv (ss_append _ _)) in H as [T3 E3].
    split; [exact (eq_trans T3 T2)|exact (eq_trans E3 E2)]. }
  apply wrapped_inv in H3 as (r1 & H3 & _). apply (snipes_inv (ss_append _ _)) in H3 as [T3 E3].
  apply bind_inv in H as [(e & [=] & _)|(? & w4 & [= <- <-] & H)].
  apply bind_inv in H as [(e & [=] & _)|(? & w5 & [= <- <-] & [= <- <-])].
  split; [exact (eq_trans T3 T2)|]. eexists. cbn. rewrite E3, E2. reflexivity.
Qed.
Lemma persist_inv q (w : W) r w' :
  tenant_call senv (sb_CreateQuest q) w = (r, w') →
  w_emitted w' = w_emitted w ∧ snipes w' = snipes w ∧
  match r with
  | Ok _ => (∀ x, x ∈ tb_quests (tenants w) → qr_id x ≠ q_ID q) ∧
            tenants w' = with_quests (tb_quests (tenants w) ++ [quest_rec q]) (tenants w)
  | Err _ => tenants w' = tenants w
  end.
Proof.
  intros H. apply tenant_inv in H as (fl & n & d & H & ->). split; [done|]. split; [done|].
  cbn in H |- *. unfold Quests.CreateQuest in H. destruct (_ || _) in H; [by injection H as <- <- <-|].
  revert H. run_sql. destruct (fl _); [by intros [= <- _ <-]|]. unfold insert_quest.
  destruct (existsb _ _) eqn:Ex; [by intros [= <- _ <-]|]. destruct (negb _); [by intros [= <- _ <-]|].
  intros [= <- _ <-]. split; [|done]. intros x Hx Hid. apply not_true_iff_false in Ex. apply Ex, existsb_exists.
  exists x. split; [by apply list_elem_of_In|]. cbn. rewrite Hid. apply str_eqb_refl.
Qed.

(** What a call that writes a quest has established. *)
Record creates (u : string) (g : Goal) (opts : CreateOpts) (id : string) (row : QuestRow) (plan : Plan)
    (d : TenantDB) : Prop := {
  cr_plan : ∃ venue n snap, goal_Validate (sv_ip senv) (sv_lower senv) g n = None ∧
              BuildPlan (plan_input g venue n snap) = Ok plan;
  cr_hash : ∀ h, co_PlanHash opts = Some h → h = p_Hash plan;
  cr_account : ∃ acct n, owns_account u g acct d ∧ row = new_row id u acct g plan n;
  cr_fresh : ∀ x, x ∈ tb_quests d → qr_id x ≠ id
}.
(** One more quest row, and its notification if it was scheduled. *)
Definition created (u : string) (g : Goal) (opts : CreateOpts) (id : string) (e : option error) (w w' : W) : Prop :=
  ∃ row plan, creates u g opts id row plan (tenants w) ∧
    same_books (with_quests (tb_quests (tenants w) ++ [quest_rec row]) (tenants w)) (tenants w') ∧
    match e with
    | None => ∃ at_, w_emitted w' = w_emitted w ++ [submitted_note id (intentFromPlan u plan g) at_]
    | Some _ => w_emitted w' = w_emitted w
    end.
Definition nothing_created (w w' : W) : Prop :=
  same_books (tenants w) (tenants w') ∧ w_emitted w' = w_emitted w.

Lemma check_inv opts p (w : W) r w' :
  check_plan_hash opts p w = (r, w') →
  w' = w ∧ match r with Ok _ => ∀ h, co_PlanHash opts = Some h → h = p_Hash p | Err _ => True end.
Proof.
  unfold check_plan_hash. destruct (co_PlanHash opts) as [h|]; [|by intros [= <- <-]].
  destruct (str_eqb h _) eqn:E; [|by intros [= <- <-]]. intros [= <- <-]. apply str_eqb_true in E.
  split; [done|]. by intros h' [= <-].
Qed.
Lemma bookless_nothing w w' : bookless w w' → nothing_created w w'.
Proof. intros []. by split. Qed.
Lemma create_work_inv u g opts n (w : W) r w' :
  create_work senv u g opts n w = (r, w') →
  (∃ e, r = Err e ∧ nothing_created w w') ∨ (∃ id e, r = Ok (id, e) ∧ created u g opts id e w w').
Proof.
  unfold create_work. intros H.
  apply bind_inv in H as [(e & H & ->)|(plan & w1 & H1 & H)].
  { left. exists e. split; [done|]. by eapply bookless_nothing, steady_run; [apply idle_plan|]. }
  pose proof (steady_run _ _ _ _ (idle_plan u g) H1) as B1. apply plan_Ok in H1.
  apply bind_inv in H as [(e & H & ->)|([] & w2 & H2 & H)].
  { apply check_inv in H as [-> _]. left. exists e. split; [done|by apply bookless_nothing]. }
  apply check_inv in H2 as [-> Hh].
  apply bind_inv in H as [(e & H & ->)|(acct & w3 & H3 & H)].
  { left. exists e. split; [done|]. eapply bookless_nothing; etrans; [exact B1|].
    by eapply steady_run; [apply idle_account|]. }
  pose proof (steady_run _ _ _ _ (idle_account u g) H3) as B3. apply account_Ok in H3.
  assert (B13 : bookless w w3) by by etrans.
  apply bind_inv in H as [(e & H & ->)|(id & w4 & H4 & H)].
  { apply wrapped_inv in H as (r0 & H & _). left. exists e. split; [done|].
    eapply bookless_nothing; etrans; [exact B13|]. eapply steady_run; [apply (steady_newid _ _ bookless_step)|exact H]. }
  apply wrapped_inv in H4 as (r0 & H4 & _).
  assert (B4 : bookless w w4).
  { etrans; [exact B13|]. eapply steady_run; [apply (steady_newid _ _ bookless_step)|exact H4]. }
  apply bind_inv in H as [(e & H & ->)|([] & w5 & H5 & H)].
  { apply wrapped_inv in H as (r1 & H & Hr1). apply persist_inv in H as (E & _ & T). left. exists e. split; [done|].
    destruct r1; [done|]. split; [rewrite T; apply B4|rewrite E; apply B4]. }
  apply wrapped_inv in H5 as (r1 & H5 & Hr1). destruct r1 as [[]|]; [|done]. apply persist_inv in H5 as (E5 & _ & Hf & T5).
  apply bind_inv in H as [(e & H & ->)|(rs & w6 & H6 & H)]; [by apply attempt_inv in H as (? & _ & [=])|].
  apply attempt_inv in H6 as (r2 & H6 & [= <-]). apply wrapped_inv in H6 as (r3 & H6 & ->).
  apply submit_inv in H6 as [T6 E6].
  destruct B4 as [[Q4 A4 U4 K4] _ M4]. destruct B1 as [[Q1 A1 U1 K1] _ _].
  assert (Hc : creates u g opts id (new_row id u acct g plan n) plan (tenants w)).
  { split; [done|done| |].
    - exists acct, n. split; [|done]. destruct H3 as (x & Hx & Hx'). exists x. split; [by rewrite <- A1|done].
    - rewrite <- Q4. exact Hf. }
  assert (Hb : same_books (with_quests (tb_quests (tenants w) ++ [quest_rec (new_row id u acct g plan n)]) (tenants w)) (tenants w6)).
  { rewrite T6, T5. split; cbn; congruence. }
  right. destruct r3 as [s|e]; cbv beta iota in H.
  - apply bind_inv in H as [(e & H & ->)|([] & w7 & H7 & [= <- <-])].
    { unfold writeQuestEvent in H. destruct (sv_persist senv); [|done].
      apply bind_inv in H as [(e' & H & _)|(? & ? & _ & [=])]. by apply attempt_inv in H as (? & _ & [=]). }
    assert (B7 : bookless w6 w7).
    { eapply steady_run; [apply (steady_event _ _ bookless_step); apply books_event|exact H7]. }
    exists id, None. split; [done|]. exists (new_row id u acct g plan n), plan. split; [exact Hc|].
    split; [etrans; [exact Hb|apply B7]|]. destruct E6 as [at_ E6]. exists at_.
    rewrite (bl_emitted _ _ B7), E6, E5, M4. done.
  - injection H as <- <-. exists id. eexists. split; [done|]. exists (new_row id u acct g plan n), plan.
    split; [exact Hc|]. split; [exact Hb|]. rewrite E6, E5. exact M4.
Qed.

(** ** The keyed verbs *)

Lemma tenants_preorder : PreOrder (λ w w' : W, tenants w' = tenants w).
Proof. constructor; [by intros w|]. intros w1 w2 w3 H1 H2. congruence. Qed.
Definition is_keyed (key : option string) : Prop := ∃ k, key = Some k ∧ k ≠ "".
(** The key was used by this user for this request, the use ended without an
    error, and its record is not expired. *)
Definition recorded_success (u sc : string) (key : option string) (p : string) (n : Time) (d : TenantDB) : Prop :=
  ∃ k row expires, key = Some k ∧ k ≠ "" ∧ find (exact_idem u (HashIdempotencyKey u sc k p)) (tb_idem d) = Some row ∧
    null_string (ik_err row) = "" ∧ parse_expires (ik_expires row) = Ok expires ∧ time_before n expires = true.
Lemma lookup_success u sc k p n fl i d l :
  (sb_GetIdempotencyResult u sc k p n fl i d).1.1 = Ok l → k ≠ "" →
  lk_PayloadMatch l = true → lk_Expired l = false → lk_PrevErr l = "" → recorded_success u sc (Some k) p n d.
Proof.
  intros H Hk. revert H. cbn. unfold GetIdempotencyResult. run_sql. destruct (_ || _); [done|].
  destruct (fl i); [done|]. destruct (find _ _) as [row|] eqn:Ef; cbn.
  - destruct (parse_expires (ik_expires row)) as [expires|e] eqn:Ep; cbn; [|done]. intros [= <-]. cbn.
    intros _ He%negb_false_iff Hr. by exists k, row, expires.
  - destruct (fl (S i)); [done|]. destruct (latest _) as [row|]; cbn; [|by intros [= <-]].
    destruct (parse_expires (ik_expires row)); cbn; [|done]. by intros [= <-].
Qed.
Lemma keyed_inv verb u sc key p n conflict oe work (w : W) r w' :
  keyed senv verb u sc key p n conflict oe work w = (r, w') →
  ∃ a, r = Ok a ∧
    ((bookless w w' ∧ is_keyed key ∧ (snd a = None → recorded_success u sc key p n (tenants w))) ∨
     ∃ w1 w2 rw, bookless w w1 ∧ tenants w1 = tenants w ∧ work w1 = (rw, w2) ∧ bookless w2 w' ∧
       a = match rw with Ok a => a | Err e => (oe, Some e) end).
Proof.
  assert (Hpre : idle (precheck senv verb u sc key p n conflict)).
  { apply (steady_precheck _ _ bookless_step). intros k. apply books_get. }
  assert (Hread : steady (λ w w' : W, tenants w' = tenants w) (precheck senv verb u sc key p n conflict)).
  { apply (steady_precheck _ (λ d d', d' = d) (PreOrder0 := tenants_preorder)); [done|].
    intros k fl i d. symmetry. exact (tenant_get_reads u sc k p n fl i d). }
  unfold keyed. intros H. apply bind_inv in H as [(e & H & ->)|(pre & w1 & H1 & H)].
  { exfalso. unfold precheck in H. destruct key as [k|]; [|done]. destruct (is_empty k); [done|].
    apply bind_inv in H as [(e' & H & _)|(? & ? & _ & [=])]. by apply attempt_inv in H as (? & _ & [=]). }
  pose proof (steady_run _ _ _ _ Hpre H1) as B1.
  specialize (Hread w). rewrite H1 in Hread. cbn in Hread. destruct pre as [a|].
  - injection H as <- <-. exists a. split; [done|]. left. split; [done|]. unfold precheck in H1.
    destruct key as [k|]; [|done]. destruct (is_empty k) eqn:Ek; [done|].
    assert (Hk : k ≠ "") by by intros ->. split; [by exists k|]. intros Ha.
    apply bind_inv in H1 as [(e & _ & [=])|(r1 & w2 & H2 & [= H1 _])]. apply attempt_inv in H2 as (r2 & H2 & [= <-]).
    unfold tenant_call, store_call, on_tenants in H2.
    destruct (sb_GetIdempotencyResult u sc k p n _ (w_sql w) (tenants w)) as [[r3 i3] d3] eqn:Eg.
    injection H2 as <- _. destruct r3 as [l|e]; [|by injection H1 as <-].
    destruct (lk_Found l && negb (lk_Expired l)) eqn:Ef; [|done]. apply andb_true_iff in Ef as [_ Ef%negb_true_iff].
    destruct (lk_PayloadMatch l) eqn:Em; injection H1 as <-; [|done]. cbn in Ha.
    destruct (is_empty (lk_PrevErr l)) eqn:Ee; [|done].
    eapply lookup_success; [by rewrite Eg|done..|by apply str_eqb_true].
  - apply bind_inv in H as [(e & H & _)|(rw & w2 & H2 & H)]; [by apply attempt_inv in H as (? & _ & [=])|].
    apply attempt_inv in H2 as (rw' & H2 & [= <-]).
    apply bind_inv in H as [(e & H & _)|([] & w3 & H3 & [= <- <-])].
    { exfalso. unfold recordIdempotency in H. destruct key as [k|]; [|done]. destruct (is_empty k); [done|].
      apply bind_inv in H as [(e' & H & _)|(? & ? & _ & [=])]. by apply attempt_inv in H as (? & _ & [=]). }
    eexists. split; [done|]. right. exists w1, w2, rw. split_all; try done.
    eapply steady_run; [|exact H3]. apply (steady_record _ _ bookless_step). intros k. apply books_put.
Qed.
Lemma audited_id_inv u action t (m : SM outcome_id) (w : W) r w' :
  audited_id senv u action t m w = (r, w') → ∃ w1, m w = (r, w1) ∧ bookless w1 w'.
Proof.
  assert (Ha : ∀ x e w1, bookless w1 (audit senv u action x e w1).2).
  { intros x e w1. apply (steady_audit _ _ (λ _ _, True) bookless_step); [intros; apply books_audit|done]. }
  unfold audited_id. destruct (m w) as [[[q e]|e] w1]; intros [= <- <-]; exists w1; by split.
Qed.
Lemma created_after u g opts id e w w1 w2 w' :
  bookless w w1 → created u g opts id e w1 w2 → bookless w2 w' → created u g opts id e w w'.
Proof.
  intros [[Q A U K] _ M] (row & plan & [Hp Hh (acct & n & Ho & Hr) Hf] & Hb & He) B2.
  exists row, plan. split; [|split].
  - split; [done|done| |by rewrite <- Q].
    exists acct, n. split; [|done]. destruct Ho as (x & Hx & Hx'). exists x. by rewrite <- A.
  - etrans; [|exact (bl_books _ _ B2)]. destruct Hb as [HQ HA HU HK]. cbn in *.
    split; cbn; congruence.
  - rewrite <- M. destruct e; [by rewrite (bl_emitted _ _ B2)|]. destruct He as [at_ He].
    exists at_. by rewrite (bl_emitted _ _ B2).
Qed.
Lemma nothing_after w w1 w2 w' :
  bookless w w1 → nothing_created w1 w2 → bookless w2 w' → nothing_created w w'.
Proof.
  intros [B1 _ M1] [B2 M2] [B3 _ M3]. split; [etrans; [exact B1|]; by etrans|congruence].
Qed.

(** One quest created, or none; none without an error only when a key is
    replayed. *)
Definition create_effect (u : string) (g : Goal) (opts : CreateOpts) (id : string) (e : option error) (w w' : W) : Prop :=
  created u g opts id e w w' ∨ (nothing_created w w' ∧ (e = None → is_keyed (co_IdempotencyKey opts))).
Lemma CreateQuest_inv u g opts (w : W) r w' :
  CreateQuest senv u g opts w = (r, w') → ∃ id e, r = Ok (id, e) ∧ create_effect u g opts id e w w'.
Proof.
  unfold CreateQuest, create_effect. destruct (is_empty u).
  { intros [= <- <-]. do 2 eexists. split; [done|]. right. split; [by split|done]. }
  intros H. apply audited_id_inv in H as (w0 & H & B0).
  apply bind_inv in H as [(e & [=] & _)|(n & w1 & [= <- <-] & H)].
  assert (B1 : bookless w (tick (sv_env senv) w)) by apply (steady_tick _ _ bookless_step).
  apply keyed_inv in H as ([id e] & -> & H). exists id, e. split; [done|].
  destruct H as [(B & Hk & _)|(w2 & w3 & rw & B2 & _ & Hw & B3 & Ha)].
  - right. split; [|done]. apply bookless_nothing. etrans; [exact B1|]. by etrans.
  - assert (B12 : bookless w w2) by by etrans. assert (B30 : bookless w3 w') by by etrans.
    apply create_work_inv in Hw as [(e0 & -> & Hn)|(id0 & e0 & -> & Hc)]; cbv beta iota in Ha.
    + injection Ha as -> ->. right. split; [|done]. by eapply nothing_after.
    + injection Ha as -> ->. left. by eapply created_after.
Qed.
Lemma create_effect_after u g opts id e w w1 w2 w' :
  bookless w w1 → create_effect u g opts id e w1 w2 → bookless w2 w' → create_effect u g opts id e w w'.
Proof. intros B1 [H|[H Hk]] B2; [left; by eapply created_after|right; split; [by eapply nothing_after|done]]. Qed.
(** C3. Whatever fails and whenever the caller gives up, [CreateQuest]
    either writes no quest and announces none, or writes exactly one quest
    row and touches no account, user or token: the row is the caller's,
    under a fresh id that is returned, for an account bound to the caller
    and named by the goal, with the hash of a plan built from the goal,
    validated, and, if the caller pinned a hash, equal to it; and the snipe
    is announced if and only if no error is returned.  A success that writes
    nothing is only ever the replay of a key. *)
Theorem CreateQuest_safe u g opts (w : W) r w' :
  CreateQuest senv u g opts w = (r, w') →
  ∃ id e, r = Ok (id, e) ∧
    (created u g opts id e w w' ∨
     (nothing_created w w' ∧ (e = None → is_keyed (co_IdempotencyKey opts)))).
Proof. intros H. apply CreateQuest_inv in H as (id & e & -> & H). by exists id, e. Qed.

(** ** Cancelling *)

Definition canceled_row (t : Time) (q : QuestRow) : QuestRow :=
  mkQuestRow (q_ID q) (q_UserID q) (q_AccountID q) (q_GoalJSON q) (q_PlanHash q) StatusCanceled
    (q_CreatedAt q) (to_milli t) (Some (to_milli t)).
(** The caller's live quest becomes cancelled. *)
Definition cancels (u q : string) (w w' : W) : Prop :=
  ∃ row t, quest_map (tenants w) !! q = Some row ∧ q_UserID row = u ∧ IsTerminal (q_Status row) = false ∧
    quest_map (tenants w') = <[q := canceled_row t row]> (quest_map (tenants w)).
(** The caller's quest is there and over. *)
Definition over (u q : string) (d : TenantDB) : Prop :=
  ∃ row, quest_map d !! q = Some row ∧ q_UserID row = u ∧ IsTerminal (q_Status row) = true.
Lemma get_inv u q (w : W) r w' :
  quests_wf (tenants w) → tenant_call senv (sb_GetQuest u q) w = (r, w') →
  tenants w' = tenants w ∧ snipes w' = snipes w ∧ w_emitted w' = w_emitted w ∧
  match r with
  | Ok row => quest_map (tenants w) !! q = Some row ∧ q_UserID row = u
  | Err _ => True
  end.
Proof.
  intros Hwf H. apply tenant_inv in H as (fl & n & d & H & ->). split; [|do 2 (split; [done|])].
  { assert (Hr : moves eq (fold_not_found (Quests.GetQuest u q))).
    { apply moves_fold. unfold Quests.GetQuest.
      apply moves_bind; [by intros ??? -> |by apply moves_ctx, moves_query|intros; by apply moves_of]. }
    specialize (Hr fl (w_sql w) (tenants w)). cbn in H. rewrite H in Hr. done. }
  destruct r as [row|e]; [|done]. cbn in H. unfold fold_not_found, Quests.GetQuest in H. revert H. run_sql. destruct (fl _); [done|].
  pose proof (find_quest u q (tenants w) (qw_ids _ Hwf)) as Hq.
  destruct (find (is_quest u q) (tb_quests (tenants w))) as [x|]; [|done].
  destruct Hq as (Hin & Hid & Hu & Hm). rewrite (wf_scan _ _ Hwf Hin). intros [= <- _ _]. by split.
Qed.
Lemma update_inv u q (n : Time) (w : W) r w' :
  quests_wf (tenants w) →
  tenant_call senv (sb_UpdateQuestStatus u q StatusCanceled (Some n) n) w = (r, w') →
  snipes w' = snipes w ∧ w_emitted w' = w_emitted w ∧ quests_wf (tenants w') ∧
  match r with
  | Ok _ => ∃ row, quest_map (tenants w) !! q = Some row ∧ q_UserID row = u ∧
              quest_map (tenants w') = <[q := canceled_row n row]> (quest_map (tenants w))
  | Err _ => quest_map (tenants w') = quest_map (tenants w)
  end.
Proof.
  intros Hwf H. apply tenant_inv in H as (fl & i & d & H & ->). do 2 (split; [done|]).
  pose proof (quest_op_wf (OpUpdate u q StatusCanceled (Some n) n) fl (w_sql w) (tenants w) Hwf) as Hwf'.
  cbn in H |- *. unfold fold_not_found in H. cbn [run_quest_op] in Hwf'. revert H Hwf'.
  unfold Quests.UpdateQuestStatus. run_sql. destruct (fl _); [by intros [= <- _ <-]|].
  pose proof (quest_map_update u q (statusDBString StatusCanceled) (unix_milli n) (Some (unix_milli n))
                (tenants w) (qw_ids _ Hwf)) as Hm.
  pose proof (find_quest u q (tenants w) (qw_ids _ Hwf)) as Hq.
  pose proof (count_find (is_quest u q) (tb_quests (tenants w))) as Hc.
  unfold update_quest in *. cbn [snd fst] in *.
  destruct (find (is_quest u q) (tb_quests (tenants w))) as [x|].
  - destruct (_ =? 0) eqn:E0.
    { apply Z.eqb_eq in E0. destruct Hc as [Hc _]. by discriminate Hc; lia. }
    destruct Hq as (_ & _ & Hu & Hx). intros [= <- _ <-] Hwf'. split; [exact Hwf'|].
    exists (row_of x). rewrite Hx in Hm. cbn [row_of q_UserID] in Hm. rewrite bool_decide_eq_true_2 in Hm by done.
    split; [done|]. split; [done|]. exact Hm.
  - assert (E0 : Z.of_nat (length (List.filter (is_quest u q) (tb_quests (tenants w)))) =? 0 = true)
      by (apply Z.eqb_eq; destruct Hc as [_ Hc]; rewrite Hc by done; done).
    rewrite E0. intros [= <- _ <-] Hwf'. split; [exact Hwf'|].
    etrans; [exact Hm|]. destruct (quest_map (tenants w) !! q) as [row|]; [|done].
    by rewrite bool_decide_eq_false_2 by by apply Hq.
Qed.
Lemma books_map (w w' : W) : same_books (tenants w) (tenants w') → quest_map (tenants w') = quest_map (tenants w).
Proof. intros [Q _ _ _]. unfold quest_map. by rewrite Q. Qed.
Lemma cancel_work_inv u q opts n (w : W) r w' :
  quests_wf (tenants w) →
  cancel_work senv u q opts n w = (r, w') →
  snipes w' = snipes w ∧ w_emitted w' = w_emitted w ∧
  (quest_map (tenants w') = quest_map (tenants w) ∨ cancels u q w w') ∧
  match r with Ok (_, e) => e = None ∧ over u q (tenants w') | Err _ => True end.
Proof.
  intros Hwf. unfold cancel_work. intros H.
  apply bind_inv in H as [(e & H & _)|(r1 & w1 & H1 & H)]; [by apply attempt_inv in H as (? & _ & [=])|].
  apply attempt_inv in H1 as (r1' & H1 & [= <-]). apply get_inv in H1 as (T1 & S1 & E1 & Hr1); [|done].
  destruct r1 as [row|e].
  2: { injection H as <- <-. rewrite T1. split_all; [done|done|by left|done]. }
  destruct Hr1 as [Hrow Hu]. destruct (IsTerminal (q_Status row)) eqn:Et.
  { injection H as <- <-. rewrite T1. split_all; [done|done|by left|done|]. by exists row. }
  apply bind_inv in H as [(e & H & _)|(r2 & w2 & H2 & H)]; [by apply attempt_inv in H as (? & _ & [=])|].
  apply attempt_inv in H2 as (r2' & H2 & [= <-]).
  apply update_inv in H2 as (S2 & E2 & Hwf2 & Hr2); [|by rewrite T1]. rewrite T1 in Hr2.
  destruct r2 as [[]|e]; cbv beta iota in H.
  2: { injection H as <- <-. split_all; [congruence|congruence|by left|done]. }
  destruct Hr2 as (row' & Hrow' & _ & Hm). rewrite Hrow in Hrow'. injection Hrow' as <-.
  assert (B3 : bookless w2 w' ∧ r = Ok (q, None)).
  { apply bind_inv in H as [(e & H & _)|([] & w3 & H3 & [= <- <-])].
    - exfalso. unfold writeQuestEvent in H. destruct (sv_persist senv); [|done].
      apply bind_inv in H as [(e' & H & _)|(? & ? & _ & [=])]. by apply attempt_inv in H as (? & _ & [=]).
    - split; [|done]. eapply steady_run; [apply (steady_event _ _ bookless_step); apply books_event|exact H3]. }
  destruct B3 as [[B3 S3 E3] ->]. apply books_map in B3. rewrite Hm in B3.
  split_all; [congruence|congruence| |done|].
  - right. by exists row, n.
  - exists (canceled_row n row). rewrite B3, lookup_insert_eq. by split_all.
Qed.

(** At most the caller's own live quest cancelled; a success that does not
    repeat a recorded one leaves it over. *)
Definition cancel_effect (u q : string) (opts : CancelOpts) (e : option error) (w w' : W) : Prop :=
  snipes w' = snipes w ∧ w_emitted w' = w_emitted w ∧
  (quest_map (tenants w') = quest_map (tenants w) ∨ cancels u q w w') ∧
  (e = None →
   over u q (tenants w') ∨
   recorded_success u scopeCancelQuest (ca_IdempotencyKey opts) (payloadHashFor q) (clock_at senv w) (tenants w)).
Lemma CancelQuest_inv u q opts (w : W) r w' :
  quests_wf (tenants w) →
  CancelQuest senv u q opts w = (r, w') → ∃ id e, r = Ok (id, e) ∧ cancel_effect u q opts e w w'.
Proof.
  intros Hwf. unfold CancelQuest, cancel_effect. destruct (is_empty u).
  { intros [= <- <-]. do 2 eexists. split_all; [done|done|done|by left|done]. }
  intros H. apply audited_id_inv in H as (w0 & H & [B0 S0 E0]). apply books_map in B0.
  apply bind_inv in H as [(e & [=] & _)|(n & w1 & [= <- <-] & H)].
  assert (B1 : bookless w (tick (sv_env senv) w)) by apply (steady_tick _ _ bookless_step).
  apply keyed_inv in H as ([id e] & -> & H). exists id, e. split; [done|].
  destruct H as [([B S E] & _ & Hk)|(w2 & w3 & rw & [B2 S2 E2] & T2 & Hw & [B3 S3 E3] & Ha)].
  - apply books_map in B. cbn in B, S, E. rewrite B0, B. split_all; [congruence|congruence|by left|by right; apply Hk].
  - apply cancel_work_inv in Hw as (S4 & E4 & Hm & Hr); [|by rewrite T2].
    apply books_map in B3. rewrite T2 in Hm. cbn in T2, S2, E2, Hm. unfold over. rewrite B0, B3.
    split_all; [congruence|congruence| |].
    + destruct Hm as [Hm|(row & t & H1 & H2 & H3 & H4)]; [by left|right].
      exists row, t. rewrite T2 in H1, H4. cbn in H1, H4. rewrite B0, B3. by split_all.
    + destruct rw as [[id' e']|e']; [|by injection Ha as -> ->]. injection Ha as -> ->. intros _. left. apply Hr.
Qed.
(** C9. Whatever fails, [CancelQuest] announces nothing and leaves every
    quest as it was, except that it may cancel the caller's own quest of
    that id, which was not over, stamping the instant it was cancelled; a
    quest that is over, or another user's, is never changed.  When it reports
    success, the caller owns a quest of that id and it is over, unless the
    key already stood recorded, unexpired, with a success for this very
    quest, which is then repeated without looking at it. *)
Theorem CancelQuest_safe u q opts (w : W) r w' :
  quests_wf (tenants w) →
  CancelQuest senv u q opts w = (r, w') →
  ∃ id e, r = Ok (id, e) ∧ snipes w' = snipes w ∧ w_emitted w' = w_emitted w ∧
    (quest_map (tenants w') = quest_map (tenants w) ∨ cancels u q w w') ∧
    (e = None →
     over u q (tenants w') ∨
     recorded_success u scopeCancelQuest (ca_IdempotencyKey opts) (payloadHashFor q) (clock_at senv w) (tenants w)).
Proof. intros Hwf H. apply CancelQuest_inv in H as (id & e & -> & H); [|done]. by exists id, e. Qed.
End Verbs.

(** ** Ann's quest *)

#[local] Existing Instance store_laws.
Definition create_opts : CreateOpts := mkCreateOpts None (Some "k1").
Lemma CreateQuest_safe_witness :
  ∃ row plan, creates sample_senv "usr_1" (ann_goal 2) create_opts "q_06060606" row plan two_tenants.
Proof.
  assert (E : CreateQuest sample_senv "usr_1" (ann_goal 2) create_opts sample_world
              = (Ok ("q_06060606", None), created_world)) by (vm_compute; reflexivity).
  pose proof (CreateQuest_safe _ _ _ _ _ _ _ E) as (id & e & Er & H). injection Er as <- <-.
  destruct H as [(row & plan & Hc & _)|[[[Hq _ _ _] _] _]]; [by exists row, plan|].
  exfalso. revert Hq. vm_compute. discriminate.
Defined.
Definition quest_world : World (Stores DB TenantDB) :=
  mkWorld (mkStores empty_db with_one_quest) 0%nat 0%nat (t_ns drop_ny + second) stored_sample [] [].
Lemma with_one_quest_wf : quests_wf with_one_quest.
Proof. apply quest_op_wf, two_tenants_wf. Qed.
Definition cancel_run :=
  CancelQuest sample_senv "usr_1" "q_1" (mkCancelOpts "no longer needed" None) quest_world.
Definition canceled_world : World (Stores DB TenantDB) := cancel_run.2.
Lemma CancelQuest_safe_witness : over "usr_1" "q_1" (st_tenants (w_store canceled_world)).
Proof.
  assert (E : CancelQuest sample_senv "usr_1" "q_1" (mkCancelOpts "no longer needed" None) quest_world
              = (Ok ("q_1", None), canceled_world)) by (vm_compute; reflexivity).
  pose proof (CancelQuest_safe _ _ _ _ quest_world _ _ with_one_quest_wf E) as (id & e & Er & _ & _ & _ & H).
  injection Er as <- <-. destruct (H eq_refl) as [Ho|(k & _ & _ & [=] & _)]. exact Ho.
Defined.
