(* ===== verification/QuestText.v ===== *)
(** * What the quest and venue commands read and print

    The pure part of [cmd/resy-snipe]'s [resolve.go], [quest_plan.go],
    [quest_create.go] and [quest_ops.go]: the flags of each command, venue
    queries, goals, filters, and the tables and JSON documents they print.
    The names of zones, the layout of [text/tabwriter] and the tables of
    package [unicode] are arguments; usage text is not modelled. *)

From S2P Require Import Prelude Text Url Flags GoTime GoFormat Types Status Slots Codec Json JsonText Resolver.
From S2P Require Import Sql Tenant Quests Accounts Service.
From Stdlib Require Import Ascii SpecFloat.
From S2P Require Import Prompts.

(** ** Indented JSON: [json.Encoder] with [SetIndent] of two spaces *)

Fixpoint spaces (n : nat) : string := match n with O => "" | S n => "  " +:+ spaces n end.
Fixpoint json_indent (depth : nat) (j : json) : string :=
  let inner l := nl +:+ spaces (S depth) +:+ str_join ("," +:+ nl +:+ spaces (S depth)) l +:+ nl +:+ spaces depth in
  match j with
  | JArr [] => "[]"
  | JObj [] => "{}"
  | JArr l => "[" +:+ inner ((fix go l := match l with [] => [] | x :: l' => json_indent (S depth) x :: go l' end) l) +:+ "]"
  | JObj m =>
      "{" +:+ inner ((fix go m := match m with
                                  | [] => []
                                  | (k, x) :: m' => (json_string k +:+ ": " +:+ json_indent (S depth) x) :: go m'
                                  end) m) +:+ "}"
  | _ => json_text j
  end.
Definition encoded (j : json) : string := json_indent 0 j +:+ nl.
Definition JInt (z : Z) : json := JNum (fmt_d z).
Definition rfc3339_utc (t : Time) : string := fmt_rfc3339 (t_ns t).
(** [time.Time.MarshalJSON]. *)
Definition time_json (t : Time) : res json :=
  if (t_year t <? 0) || (9999 <? t_year t)
  then Err (ENew "json: error calling MarshalJSON for type time.Time: Time.MarshalJSON: year outside of range [0,9999]")
  else if 86400 <=? Z.abs (zone_offset t)
  then Err (ENew "json: error calling MarshalJSON for type time.Time: Time.MarshalJSON: timezone hour outside of range [0,23]")
  else Ok (JStr (fmt_rfc3339nano_in t)).

(** ** Words *)

Section Words.
Context (ip : string → option string) (lower : string → string).
Notation Lower := (ToLower lower).

Inductive Format := FormatTable | FormatJSON.
Definition format_of (raw : string) : option Format :=
  let f := Lower (TrimSpace raw) in
  if str_eqb f "table" then Some FormatTable else if str_eqb f "json" then Some FormatJSON else None.
Definition bad_format (pre raw : string) : error := ENew (pre +:+ "invalid -format " +:+ fmt_q raw +:+ " (want table|json)").
Definition parseQuestFormat (raw : string) : res Format :=
  match format_of raw with Some f => Ok f | None => Err (bad_format "" raw) end.

(** *** [resolve.go] *)

Record resolveOpts := mkResolveOpts { ro_query : string; ro_format : Format; ro_noCache : bool }.
Definition resolve_flags : FlagSet := NewFlagSet [("format", FString "table"); ("no-cache", FBool false)].
(** The positional arguments of [venue resolve], [quest plan] and
    [quest create], joined. *)
Definition joined_venue (missing empty : error) (rest : list string) : res string :=
  match rest with
  | [] => Err missing
  | _ => let q := TrimSpace (str_join " " rest) in if is_empty q then Err empty else Ok q
  end.
Definition parseResolveFlags (args : list string) : res resolveOpts :=
  match Parse resolve_flags args with
  | Err e => Err (wrap "parse flags: " e)
  | Ok (fs, rest) =>
      query ← joined_venue (ENew "resolve: missing query argument") (ENew "resolve: empty query") rest;
      match format_of (get_string fs "format") with
      | None => Err (bad_format "resolve: " (get_string fs "format"))
      | Some f => Ok (mkResolveOpts query f (get_bool fs "no-cache"))
      end
  end.
Definition is_url (trimmed : string) : bool :=
  let l := Lower trimmed in starts_with "http://" l || starts_with "https://" l.
Definition slug_city (sep : ascii) (trimmed : string) : res VenueQuery :=
  let slug := Lower (TrimSpace (before sep trimmed)) in
  let city := Lower (TrimSpace (after sep trimmed)) in
  if is_empty slug || is_empty city
  then Err (ENew ("slug+city: both sides of " +:+ fmt_q (String sep "") +:+ " are required (got slug=" +:+ fmt_q slug
                  +:+ " city=" +:+ fmt_q city +:+ ")"))
  else Ok (VenueQuerySlug slug city).
Definition buildVenueQuery (raw : string) : res VenueQuery :=
  let trimmed := TrimSpace raw in
  if is_empty trimmed then Err (ENew "query is empty")
  else if is_url trimmed then '(u, _) ← ParseResyURL ip lower trimmed; Ok (VenueQueryURL u)
  else if has_char "+" trimmed then slug_city "+" trimmed
  else if has_char ":" trimmed then slug_city ":" trimmed
  else Ok (VenueQueryName trimmed).
Definition zone_or (unset : string) (v : Venue) : string := match v_TZ v with Some l => loc_name l | None => unset end.
Definition renderVenue (v : Venue) (f : Format) : string :=
  match f with
  | FormatJSON =>
      encoded (JObj [("name", JStr (v_Name v)); ("provider", JStr (v_Provider v)); ("ref", JStr (v_Ref v));
                     ("tz", JStr (zone_or "" v))])
  | FormatTable =>
      "Resolved venue:" +:+ nl +:+ "  Name:     " +:+ v_Name v +:+ nl +:+ "  Provider: " +:+ v_Provider v +:+ nl
      +:+ "  Ref:      " +:+ v_Ref v +:+ nl +:+ "  TZ:       " +:+ zone_or "<unset>" v +:+ nl
  end.
Fixpoint candidate_lines (i : Z) (l : list Venue) : string :=
  match l with
  | [] => ""
  | v :: l' =>
      "  " +:+ fmt_d i +:+ ") " +:+ v_Name v +:+ " (" +:+ v_Provider v +:+ ":" +:+ v_Ref v +:+ ", tz=" +:+ zone_or "<unset>" v
      +:+ ")" +:+ nl +:+ candidate_lines (i + 1) l'
  end.
(** [errors.As] with an [*AmbiguousError]. *)
Fixpoint as_ambiguous (e : error) : option (string * list Venue) :=
  match e with
  | EAmbiguous q cands => Some (q, cands)
  | EWrap _ l =>
      (fix go l := match l with
                   | [] => None
                   | x :: l' => match as_ambiguous x with Some r => Some r | None => go l' end
                   end) l
  | _ => None
  end.
(** What is printed of a failed resolution, and the error returned. *)
Definition renderResolveError (e : error) : string * error :=
  match as_ambiguous e with
  | Some (q, cands) =>
      ("Multiple matches — please be more specific:" +:+ nl +:+ candidate_lines 1 cands,
       ENew ("ambiguous query " +:+ fmt_q q +:+ " (" +:+ fmt_d (Z.of_nat (length cands)) +:+ " candidates)"))
  | None =>
      if errors_is e ErrVenueNotFound then ("Venue not found." +:+ nl, e)
      else ("Resolve failed: " +:+ error_String e +:+ nl, e)
  end.

(** *** [quest_plan.go]: flags and goals *)

Record questPlanOpts := mkQuestPlanOpts {
  qo_venueQuery : string;
  qo_date : string;
  qo_party : Z;
  qo_timeWindow : string;
  qo_priority : string;
  qo_tables : string;
  qo_account : string;
  qo_user : string;
  qo_format : Format
}.
Definition plan_flags : list (string * FlagValue) := [
  ("date", FString ""); ("party", FInt 0); ("time", FString ""); ("priority", FString "earlier"); ("tables", FString "");
  ("account", FString ""); ("user", FString ""); ("format", FString "table")].
Definition plan_opts (fs : FlagSet) (rest : list string) : res questPlanOpts :=
  query ← joined_venue (ENew "missing venue argument") (ENew "empty venue argument") rest;
  match format_of (get_string fs "format") with
  | None => Err (bad_format "" (get_string fs "format"))
  | Some f =>
      Ok (mkQuestPlanOpts query (TrimSpace (get_string fs "date")) (get_int fs "party") (TrimSpace (get_string fs "time"))
            (Lower (TrimSpace (get_string fs "priority"))) (TrimSpace (get_string fs "tables"))
            (TrimSpace (get_string fs "account")) (TrimSpace (get_string fs "user")) f)
  end.
Definition parseQuestPlanFlags (args : list string) : res questPlanOpts :=
  match Parse (NewFlagSet plan_flags) args with
  | Err e => Err (wrap "parse flags: " e)
  | Ok (fs, rest) => plan_opts fs rest
  end.
Record questCreateOpts := mkQuestCreateOpts { qc_plan : questPlanOpts; qc_yes : bool; qc_idempotencyKey : string }.
Definition create_flags : list (string * FlagValue) := plan_flags ++ [("yes", FBool false); ("idempotency-key", FString "")].
Definition parseQuestCreateFlags (args : list string) : res questCreateOpts :=
  match Parse (NewFlagSet create_flags) args with
  | Err e => Err (wrap "parse flags: " e)
  | Ok (fs, rest) =>
      o ← plan_opts fs rest;
      Ok (mkQuestCreateOpts o (get_bool fs "yes") (TrimSpace (get_string fs "idempotency-key")))
  end.
Definition buildVenueQueryWithHints (raw : string) : res (VenueQuery * option URLHints) :=
  let trimmed := TrimSpace raw in
  if is_empty trimmed then Err (ENew "query is empty")
  else if is_url trimmed then '(u, hints) ← ParseResyURL ip lower trimmed; Ok (VenueQueryURL u, Some hints)
  else q ← buildVenueQuery trimmed; Ok (q, None).
Definition parsePriorityFlag (s : string) : res TimePriority :=
  let p := Lower (TrimSpace s) in
  if is_empty p || str_eqb p "earlier" then Ok PriorityEarlier
  else if str_eqb p "later" then Ok PriorityLater
  else if str_eqb p "none" then Ok PriorityNone
  else Err (ENew ("-priority " +:+ fmt_q s +:+ ": want earlier|later|none")).
(** [strings.Split] on two points. *)
Fixpoint split_dots (s : string) : list string :=
  match s with
  | String "." (String "." s') => "" :: split_dots s'
  | String c s' => match split_dots s' with x :: l => String c x :: l | [] => [String c ""] end
  | "" => [""]
  end.
Definition parseTimeWindowFlag (raw priority : string) : res TimeWindow :=
  match split_dots raw with
  | [a; b] =>
      match ParseWallTime (TrimSpace a) with
      | Err e => Err (wrap "-time start: " e)
      | Ok start =>
          match ParseWallTime (TrimSpace b) with
          | Err e => Err (wrap "-time end: " e)
          | Ok end_ => prio ← parsePriorityFlag priority; Ok (mkTimeWindow start end_ prio)
          end
      end
  | _ => Err (ENew ("-time " +:+ fmt_q raw +:+ ": expected HH:MM..HH:MM"))
  end.
Definition buildConstraintsFromFlag (raw : string) : Constraints :=
  if is_empty raw then mkConstraints [] true
  else match parseCommaList raw with [] => mkConstraints [] true | l => mkConstraints l false end.
Definition goal_date (o : questPlanOpts) (hints : option URLHints) : res Date :=
  if negb (is_empty (qo_date o)) then
    match ParseDate (qo_date o) with Ok d => Ok d | Err e => Err (wrap "-date: " e) end
  else match hints ≫= uh_Date with
       | Some d => Ok d
       | None => Err (ENew "-date is required when the URL has no ?date= hint")
       end.
Definition goal_party (o : questPlanOpts) (hints : option URLHints) : res Z :=
  if 0 <? qo_party o then Ok (qo_party o)
  else match hints ≫= uh_Party with
       | Some p => Ok p
       | None => Err (ENew "-party is required when the URL has no ?seats= hint")
       end.
Definition buildGoalFromOpts (o : questPlanOpts) (query : VenueQuery) (hints : option URLHints) : res Goal :=
  if is_empty (qo_account o) then Err (ENew "-account is required")
  else if is_empty (qo_user o) then Err (ENew "-user is required")
  else if is_empty (qo_timeWindow o) then Err (ENew "-time HH:MM..HH:MM is required")
  else
    date ← goal_date o hints;
    party ← goal_party o hints;
    window ← parseTimeWindowFlag (qo_timeWindow o) (qo_priority o);
    Ok (mkGoal (Some query) date party window (qo_account o) (buildConstraintsFromFlag (qo_tables o))).
End Words.

(** *** [quest_ops.go]: filters *)

Definition add_status (s : Status) (l : list Status) : list Status := if bool_decide (s ∈ l) then l else l ++ [s].
Definition status_words : list (list string * list Status) := [
  (["submitted"; "pending"], [StatusSubmitted]); (["scheduled"], [StatusScheduled]); (["discovering"], [StatusDiscovering]);
  (["awaiting"], [StatusAwaiting]); (["finding"], [StatusFinding]); (["booking"], [StatusBooking]);
  (["firing"], [StatusAwaiting; StatusFinding; StatusBooking]); (["booked"], [StatusBooked]); (["failed"], [StatusFailed]);
  (["canceled"], [StatusCanceled]); (["expired"], [StatusExpired])].
Fixpoint parse_statuses (lower : string → string) (toks : list string) (out : list Status) : res (list Status) :=
  match toks with
  | [] => Ok out
  | tok :: toks =>
      let t := ToLower lower (TrimSpace tok) in
      if is_empty t then parse_statuses lower toks out
      else match find (λ row, existsb (str_eqb t) row.1) status_words with
           | Some (_, l) => parse_statuses lower toks (foldl (λ out s, add_status s out) out l)
           | None => Err (ENew ("unknown status " +:+ fmt_q tok +:+ " (want one of: submitted|scheduled|discovering|awaiting|finding|booking|booked|failed|canceled|expired, or aliases pending|firing)"))
           end
  end.
Definition parseStatusList (lower : string → string) (raw : string) : res (list Status) :=
  let trimmed := TrimSpace raw in
  if is_empty trimmed then Ok [] else parse_statuses lower (split_on "," trimmed) [].
Definition parseOptionalTime (raw : string) : res (option Time) :=
  let trimmed := TrimSpace raw in
  if is_empty trimmed then Ok None
  else match parse_rfc3339nano trimmed with
       | Some t => Ok (Some t)
       | None => Err (wrap ("invalid RFC3339 timestamp " +:+ fmt_q raw +:+ ": ") (ENew "parsing time"))
       end.
Definition defaultQuestListLimit : Z := 50.

(** ** Rendering *)

Definition shortWallTime (w : WallTime) : string := fmt_pad 2 (w_hour w) +:+ ":" +:+ fmt_pad 2 (w_minute w).
Definition nonEmpty (s fallback : string) : string := if blank s then fallback else s.
Definition planTZ (v : Venue) : Location := match v_TZ v with Some l => l | None => UTC end.
Definition shortHash (h : string) : string :=
  if is_empty h then "(unset)"
  else let body := TrimPrefix h "sha256:" in
       if (String.length body <=? 8)%nat then body else String.substring 0 8 body +:+ "…".
Definition formatSigning (required : bool) : string :=
  if required then "required (high-demand window)" else "probably not required".
(** [t.UTC().Format("2006-01-02T15:04Z")] and its zoneless part. *)
Definition fmt_minute (ns : Z) : string :=
  fmt_utc_date ns +:+ "T" +:+ append_int 2 (t_hour (utc ns)) +:+ ":" +:+ append_int 2 (t_minute (utc ns)).
Definition formatStrategy (r : option ReleaseStrategy) : string :=
  match r with
  | Some (ExplicitRelease _) => "Explicit (release time known for this venue)"
  | Some (DiscoveredRelease from until) =>
      "Discovered (probe " +:+ fmt_minute (t_ns from) +:+ "Z.." +:+ fmt_minute (t_ns until) +:+ "Z)"
  | Some (ContinuousRelease until) => "Continuous (until " +:+ fmt_minute (t_ns until) +:+ "Z)"
  | None => "(no strategy)"
  end.
Definition formatTimePrefs (g : Goal) : string :=
  match ExpandSlots (g_TimePrefs g) (mkConstraints [] true) with
  | Ok (s :: l) => str_join ", " (map (λ p, shortWallTime (sp_Time p)) (s :: l))
  | _ =>
      shortWallTime (tw_Start (g_TimePrefs g)) +:+ ".." +:+ shortWallTime (tw_End (g_TimePrefs g))
      +:+ " (" +:+ priority_String (tw_Priority (g_TimePrefs g)) +:+ ")"
  end.
(** [t.Format("Mon")]. *)
Definition weekday (t : Time) : string :=
  nth (Z.to_nat ((local_secs t / 86400 + 4) mod 7)) ["Sun"; "Mon"; "Tue"; "Wed"; "Thu"; "Fri"; "Sat"] "".
(** [d.Truncate(24 * time.Hour)], and the days in it. *)
Definition days_of (d : Z) : Z :=
  float_trunc (float_div (duration_Hours (d - Z.rem d (24 * hour))) (float_of 24)).

Section Render.
Context (abbreviation : Time → string) (tabwriter : string → string).

Definition formatDropMoment (t : Time) (tz : Location) (now : Time) : string :=
  if is_zero_time t then "(unset)"
  else
    let local := in_loc t tz in
    let days := days_of (time_sub local now) in
    let rel := if 0 <? days then fmt_d days +:+ " days from now"
               else if days <? 0 then fmt_d (- days) +:+ " days ago" else "today" in
    fmt_minute (face_ns local) +:+ " " +:+ abbreviation local +:+ " (" +:+ rel +:+ ")".
Fixpoint note_lines (first : bool) (l : list string) : string :=
  match l with
  | [] => ""
  | n :: l' => (if first then "  notes:" else "       ") +:+ "        - " +:+ n +:+ nl +:+ note_lines false l'
  end.
Definition renderPlanTable (p : Plan) (now : Time) : string :=
  let v := p_Venue p in
  let g := p_Goal p in
  "PLAN" +:+ nl
  +:+ "  venue:        " +:+ nonEmpty (v_Name v) "(unknown)" +:+ " (" +:+ v_Provider v +:+ ":" +:+ v_Ref v +:+ ")" +:+ nl
  +:+ "  date:         " +:+ date_String (g_Date g) +:+ " (" +:+ weekday (date_In (g_Date g) (planTZ v)) +:+ ")" +:+ nl
  +:+ "  party:        " +:+ fmt_d (g_Party g) +:+ nl
  +:+ "  time prefs:   " +:+ formatTimePrefs g +:+ nl
  +:+ "  drop moment:  " +:+ formatDropMoment (p_DropMoment p) (planTZ v) now +:+ nl
  +:+ "  strategy:     " +:+ formatStrategy (p_Strategy p) +:+ nl
  +:+ "  signing:      " +:+ formatSigning (p_SigningRequired p) +:+ nl
  +:+ "  fire windows: " +:+ fmt_d (Z.of_nat (length (p_FireSchedule p))) +:+ nl
  +:+ "  hash:         " +:+ shortHash (p_Hash p) +:+ nl
  +:+ match p_Notes p with [] => "  notes:        —" +:+ nl | l => note_lines true l end.

(** *** The plan as JSON: [encoding/json] on the structs of [domain] *)

Definition omit (empty : bool) (k : string) (j : json) : list (string * json) := if empty then [] else [(k, j)].
Definition wall_json (w : WallTime) : json :=
  JObj [("Hour", JInt (w_hour w)); ("Minute", JInt (w_minute w)); ("Second", JInt (w_second w))].
Definition priority_int (p : TimePriority) : Z := match p with PriorityNone => 0 | PriorityEarlier => 1 | PriorityLater => 2 end.
Definition query_json (q : option VenueQuery) : json :=
  match q with
  | None => JNull
  | Some (VenueQueryURL u) => JObj [("URL", JStr u)]
  | Some (VenueQuerySlug s c) => JObj [("Slug", JStr s); ("City", JStr c)]
  | Some (VenueQueryName n) => JObj [("Name", JStr n)]
  end.
Definition goal_json (g : Goal) : json :=
  let w := g_TimePrefs g in
  let c := g_Constraints g in
  JObj [("venue_query", query_json (g_VenueQuery g));
        ("date", JObj [("Year", JInt (d_year (g_Date g))); ("Month", JInt (d_month (g_Date g))); ("Day", JInt (d_day (g_Date g)))]);
        ("party", JInt (g_Party g));
        ("time_prefs", JObj [("start", wall_json (tw_Start w)); ("end", wall_json (tw_End w)); ("priority", JInt (priority_int (tw_Priority w)))]);
        ("account_id", JStr (g_AccountID g));
        ("constraints", JObj (omit (match c_TableTypes c with [] => true | _ => false end) "table_types" (JArr (map JStr (c_TableTypes c)))
                              ++ omit (negb (c_AnyTable c)) "any_table" (JBool true)))].
(** A [*time.Location] has no exported field. *)
Definition venue_json (v : Venue) : json :=
  JObj [("Provider", JStr (v_Provider v)); ("Ref", JStr (v_Ref v)); ("Name", JStr (v_Name v));
        ("TZ", match v_TZ v with Some _ => JObj [] | None => JNull end)].
Definition strategy_json (r : option ReleaseStrategy) : res json :=
  match r with
  | None => Ok JNull
  | Some (ExplicitRelease a) => j ← time_json a; Ok (JObj [("At", j)])
  | Some (DiscoveredRelease f u) => j ← time_json f; k ← time_json u; Ok (JObj [("ProbeFrom", j); ("ProbeUntil", k)])
  | Some (ContinuousRelease u) => j ← time_json u; Ok (JObj [("Until", j)])
  end.
Fixpoint times_json (l : list Time) : res (list json) :=
  match l with [] => Ok [] | t :: l => j ← time_json t; js ← times_json l; Ok (j :: js) end.
Definition plan_json (p : Plan) : res json :=
  drop ← time_json (p_DropMoment p);
  strategy ← strategy_json (p_Strategy p);
  fires ← times_json (p_FireSchedule p);
  at_ ← time_json (p_ComputedAt p);
  Ok (JObj ([("goal", goal_json (p_Goal p)); ("venue", venue_json (p_Venue p)); ("drop_moment", drop); ("strategy", strategy)]
            ++ omit (match fires with [] => true | _ => false end) "fire_schedule" (JArr fires)
            ++ [("signing_required", JBool (p_SigningRequired p))]
            ++ omit (is_empty (p_Hash p)) "hash" (JStr (p_Hash p))
            ++ omit (match p_Notes p with [] => true | _ => false end) "notes" (JArr (map JStr (p_Notes p)))
            ++ [("plan_hash_version", JInt (p_PlanHashVersion p)); ("computed_at", at_)])).
Definition renderPlanJSON (p : Plan) : res string :=
  match plan_json p with Ok j => Ok (encoded j) | Err e => Err (wrap "render json: " e) end.
Definition render_plan (f : Format) (p : Plan) (now : Time) : res string :=
  match f with FormatJSON => renderPlanJSON p | FormatTable => Ok (renderPlanTable p now) end.

(** *** [quest_ops.go]: lists and states *)

Definition completed_text (unset : string) (t : option Time) : string := match t with Some t => rfc3339_utc t | None => unset end.
Definition questSummaryJSON (r : QuestSummary) : json :=
  JObj [("account_id", JStr (sm_AccountID r));
        ("completed_at", match sm_CompletedAt r with Some t => JStr (rfc3339_utc t) | None => JNull end);
        ("created_at", JStr (rfc3339_utc (sm_CreatedAt r))); ("id", JStr (sm_ID r)); ("plan_hash", JStr (sm_PlanHash r));
        ("status", JStr (status_String (sm_Status r))); ("updated_at", JStr (rfc3339_utc (sm_UpdatedAt r)));
        ("user_id", JStr (sm_UserID r))].
Definition accountDisplay (id : string) : string := if is_empty id then "-" else id.
Definition goalVenueDisplay (g : Goal) : string := match g_VenueQuery g with None => "-" | Some q => venueQuery_String q end.
Definition eventsJSON (evs : list Event) : json :=
  JArr (map (λ e, JObj [("at", JStr (rfc3339_utc (e_At e))); ("type", JStr (e_Type e))]) evs).
Definition tab : string := String (ascii_of_nat 9) "".
Definition list_row (r : QuestSummary) : string :=
  str_join tab [sm_ID r; accountDisplay (sm_AccountID r); "-"; "-"; status_String (sm_Status r); rfc3339_utc (sm_CreatedAt r);
                completed_text "-" (sm_CompletedAt r)] +:+ nl.
Definition renderQuestList (rows : list QuestSummary) (f : Format) : string :=
  match rows with
  | [] => "(no quests)" +:+ nl
  | _ =>
      match f with
      | FormatJSON => encoded (JArr (map questSummaryJSON rows))
      | FormatTable =>
          tabwriter (str_join tab ["ID"; "ACCOUNT"; "VENUE"; "DATE"; "STATUS"; "CREATED"; "COMPLETED"] +:+ nl
                     +:+ String.concat "" (map list_row rows))
      end
  end.
(** A zero [Plan]. *)
Definition plan_hash_of (p : option Plan) : string := match p with Some p => p_Hash p | None => "" end.
Definition plan_drop_of (p : option Plan) : Time := match p with Some p => p_DropMoment p | None => zero_time end.
Definition plan_signing_of (p : option Plan) : bool := match p with Some p => p_SigningRequired p | None => false end.
Definition plan_fires_of (p : option Plan) : Z := match p with Some p => Z.of_nat (length (p_FireSchedule p)) | None => 0 end.
Definition renderQuestState (s : QuestState) (f : Format) : string :=
  let m := qs_Summary s in
  let g := qs_Goal s in
  let p := qs_Plan s in
  match f with
  | FormatJSON =>
      encoded (JObj [
        ("events", eventsJSON (qs_Events s));
        ("goal", JObj [("account_id", JStr (g_AccountID g)); ("date", JStr (date_String (g_Date g))); ("party", JInt (g_Party g));
                       ("time_end", JStr (wall_String (tw_End (g_TimePrefs g)))); ("time_start", JStr (wall_String (tw_Start (g_TimePrefs g))));
                       ("venue", JStr (goalVenueDisplay g))]);
        ("plan", JObj [("drop_moment", JStr (rfc3339_utc (plan_drop_of p))); ("fire_count", JInt (plan_fires_of p));
                       ("hash", JStr (plan_hash_of p)); ("signing_required", JBool (plan_signing_of p))]);
        ("summary", questSummaryJSON m)])
  | FormatTable =>
      "Quest " +:+ sm_ID m +:+ nl +:+ "  Status:    " +:+ status_String (sm_Status m) +:+ nl
      +:+ "  Account:   " +:+ accountDisplay (sm_AccountID m) +:+ nl +:+ "  User:      " +:+ sm_UserID m +:+ nl
      +:+ "  Plan hash: " +:+ sm_PlanHash m +:+ nl +:+ "  Created:   " +:+ rfc3339_utc (sm_CreatedAt m) +:+ nl
      +:+ "  Updated:   " +:+ rfc3339_utc (sm_UpdatedAt m) +:+ nl
      +:+ match sm_CompletedAt m with Some t => "  Completed: " +:+ rfc3339_utc t +:+ nl | None => "" end
      +:+ "Goal:" +:+ nl +:+ "  Venue: " +:+ goalVenueDisplay g +:+ nl +:+ "  Date:  " +:+ date_String (g_Date g) +:+ nl
      +:+ "  Party: " +:+ fmt_d (g_Party g) +:+ nl
      +:+ "  Time:  " +:+ wall_String (tw_Start (g_TimePrefs g)) +:+ ".." +:+ wall_String (tw_End (g_TimePrefs g)) +:+ nl
      +:+ "Plan:" +:+ nl +:+ "  Hash:        " +:+ plan_hash_of p +:+ nl
      +:+ (if is_zero_time (plan_drop_of p) then "" else "  Drop moment: " +:+ rfc3339_utc (plan_drop_of p) +:+ nl)
      +:+ "  Signing:     " +:+ json_bool (plan_signing_of p) +:+ nl +:+ "  Fire slots:  " +:+ fmt_d (plan_fires_of p) +:+ nl
      +:+ "Events:" +:+ nl
      +:+ match qs_Events s with
          | [] => "  (no events recorded yet)" +:+ nl
          | evs => tabwriter ("  AT" +:+ tab +:+ "TYPE" +:+ nl
                              +:+ String.concat "" (map (λ e, "  " +:+ rfc3339_utc (e_At e) +:+ tab +:+ e_Type e +:+ nl) evs))
          end
  end.
End Render.
