(* ===== verification/QuestCli.v ===== *)
(** * The quest and venue commands of [cmd/resy-snipe]

    [venue resolve], [quest plan|create|list|get|cancel] over the service and
    the resolver: flags, the confirmation, the verb, what is printed and the
    error that sets the exit code.  Opening the database is an argument, and
    so is what it answers; logging is left out. *)

From S2P Require Import Prelude Text Url Flags GoTime GoFormat Types Status Slots Codec Json JsonText Resolver Cache.
From S2P Require Import Sql Sqlite SqliteStore Tenant Quests Accounts Engine Service Adapter Terminal Prompts QuestText.
From Stdlib Require Import Ascii.

#[local] Existing Instances cm_ret cm_bind.

Section Commands.
Context {St : Type} `{!SnipeStore St} {clk : SqliteClock} (senv : SEnv).
Context (abbreviation : Time → string) (tabwriter : string → string).
(** What opening the service's and the user table's databases answers. *)
Context (open_service open_seed : option error).
Notation W := (World (Stores St TenantDB)).
Notation CM := (CM W).
Notation ip := (sv_ip senv).
Notation lower := (sv_lower senv).

Definition verb {A} (m : @M (Stores St TenantDB) A) : CM A := on_world m.
Definition clock_now : CM Time := verb (now (sv_env senv)).
Definition opened (pre : string) (e : option error) : CM unit :=
  match e with Some e => c_fail (wrap pre e) | None => mret tt end.
Definition answer : CM string := read_line.

(** ** [quest plan] *)

(** Plan, and print the plan or why there is none. *)
Definition preview (o : questPlanOpts) (goal : Goal) : CM Plan :=
  r ← c_attempt (verb (PlanQuest senv (qo_user o) goal));
  match r with
  | Err e => _ ← put ("Plan failed: " +:+ error_String e +:+ nl); c_fail e
  | Ok plan =>
      n ← match qo_format o with FormatTable => clock_now | FormatJSON => mret zero_time end;
      text ← of_res (render_plan abbreviation (qo_format o) plan n);
      _ ← put text;
      mret plan
  end.
Definition runQuestPlanCmd (args : list string) : CM unit :=
  o ← of_res (parseQuestPlanFlags lower args);
  '(query, hints) ← c_wrapped "quest plan: " (of_res (buildVenueQueryWithHints ip lower (qo_venueQuery o)));
  goal ← c_wrapped "quest plan: " (of_res (buildGoalFromOpts lower o query hints));
  _ ← opened "quest plan bootstrap: " open_service;
  _ ← preview o goal;
  mret tt.

(** ** [quest create] *)

(** Whether the user wants it: the flag, or an answer on standard input. *)
Definition confirmed (yes : bool) (question pre : string) : CM bool :=
  if yes then mret true
  else
    _ ← put question;
    raw ← c_wrapped pre answer;
    mret (is_yes lower raw).
Definition commit_opts (o : questCreateOpts) (plan : Plan) : CreateOpts :=
  mkCreateOpts (Some (p_Hash plan)) (if is_empty (qc_idempotencyKey o) then None else Some (qc_idempotencyKey o)).
Definition create_failed (e : error) : string :=
  if errors_is e Service.ErrInvalidPlanHash
  then "the plan changed between preview and create — re-run `quest create`" +:+ nl
  else if errors_is e Service.ErrConflict || errors_is e Service.ErrIdempotencyConflict
  then "idempotency conflict: " +:+ error_String e +:+ nl
  else "Create failed: " +:+ error_String e +:+ nl.
Definition commit_quest (o : questCreateOpts) (goal : Goal) (plan : Plan) : CM unit :=
  '(id, e) ← verb (CreateQuest senv (qo_user (qc_plan o)) goal (commit_opts o plan));
  match e with
  | Some e => _ ← put (create_failed e); c_fail (wrap "quest create: " e)
  | None =>
      n ← clock_now;
      put ("created quest " +:+ id +:+ " · scheduled at "
           +:+ formatDropMoment abbreviation (p_DropMoment plan) (planTZ (p_Venue plan)) n +:+ nl)
  end.
Definition runQuestCreateCmd (args : list string) : CM unit :=
  o ← of_res (parseQuestCreateFlags lower args);
  '(query, hints) ← c_wrapped "quest create: " (of_res (buildVenueQueryWithHints ip lower (qo_venueQuery (qc_plan o))));
  goal ← c_wrapped "quest create: " (of_res (buildGoalFromOpts lower (qc_plan o) query hints));
  _ ← opened "quest create bootstrap: " open_service;
  plan ← preview (qc_plan o) goal;
  go ← confirmed (qc_yes o) "Create this quest? [y/N]: " "quest create: prompt: ";
  if go : bool then commit_quest o goal plan
  else put_line "canceled, no quest created".

(** ** [quest list|get|cancel] *)

Definition list_users : CM (list UserRow) := verb (tenant_call senv Accounts.ListUsers).
Definition resolveDefaultUserViaStore : CM string :=
  _ ← opened "resolve default user: " open_seed;
  rows ← c_wrapped "list users: " list_users;
  match rows with
  | [] => c_fail (ENew "no users in DB — run `resy-snipe user seed --email <email>` to mint the operator")
  | [r] => mret (u_ID r)
  | _ => c_fail (ENew ("multiple users in DB (" +:+ fmt_d (Z.of_nat (length rows)) +:+ ") — specify -user explicitly"))
  end.
Definition resolveQuestUser (raw : string) : CM string :=
  let trimmed := TrimSpace raw in
  if is_empty trimmed then resolveDefaultUserViaStore else mret trimmed.

Definition list_flags : FlagSet := NewFlagSet [
  ("status", FString ""); ("account", FString ""); ("since", FString ""); ("until", FString "");
  ("limit", FInt defaultQuestListLimit); ("user", FString ""); ("format", FString "table")].
Definition list_filter (fs : FlagSet) : res (QuestListFilter * Format) :=
  statuses ← parseStatusList lower (get_string fs "status");
  since ← match parseOptionalTime (get_string fs "since") with Ok t => Ok t | Err e => Err (wrap "-since: " e) end;
  until ← match parseOptionalTime (get_string fs "until") with Ok t => Ok t | Err e => Err (wrap "-until: " e) end;
  format ← parseQuestFormat lower (get_string fs "format");
  if get_int fs "limit" <=? 0 then Err (ENew ("-limit must be > 0 (got " +:+ fmt_d (get_int fs "limit") +:+ ")"))
  else
    let acct := TrimSpace (get_string fs "account") in
    Ok (mkQuestListFilter statuses (if is_empty acct then None else Some acct) since until (get_int fs "limit") "", format).
Definition runQuestListCmd (args : list string) : CM unit :=
  '(fs, _) ← c_wrapped "quest list: " (of_res (Parse list_flags args));
  '(filter, format) ← c_wrapped "quest list: " (of_res (list_filter fs));
  _ ← opened "quest list bootstrap: " open_service;
  userID ← c_wrapped "quest list: " (resolveQuestUser (get_string fs "user"));
  rows ← c_wrapped "quest list: " (verb (ListQuests senv userID filter));
  put (renderQuestList tabwriter rows format).

Definition get_flags : FlagSet := NewFlagSet [("user", FString ""); ("format", FString "table")].
Definition cancel_flags : FlagSet := NewFlagSet [("reason", FString ""); ("user", FString ""); ("yes", FBool false)].
(** [%v] of a slice of strings. *)
Definition fmt_slice (l : list string) : string := "[" +:+ str_join " " l +:+ "]".
(** The one positional argument of [quest get] and [quest cancel]. *)
Definition quest_arg (cmd : string) (rest : list string) : res string :=
  match rest with
  | [] => Err (ENew (cmd +:+ ": missing <questID> positional argument"))
  | [a] => let q := TrimSpace a in if is_empty q then Err (ENew (cmd +:+ ": questID is required")) else Ok q
  | _ :: extra => Err (ENew (cmd +:+ ": unexpected extra arguments: " +:+ fmt_slice extra))
  end.
Definition not_found_line (questID : string) (e : error) : string :=
  if errors_is e Service.ErrNotFound then "quest not found: " +:+ questID +:+ nl else "".
Definition runQuestGetCmd (args : list string) : CM unit :=
  '(fs, rest) ← c_wrapped "quest get: " (of_res (parse_anywhere get_flags args));
  questID ← of_res (quest_arg "quest get" rest);
  format ← c_wrapped "quest get: " (of_res (parseQuestFormat lower (get_string fs "format")));
  _ ← opened "quest get bootstrap: " open_service;
  userID ← c_wrapped "quest get: " (resolveQuestUser (get_string fs "user"));
  r ← c_attempt (verb (GetQuest senv userID questID));
  match r with
  | Err e => _ ← put (not_found_line questID e); c_fail (wrap "quest get: " e)
  | Ok state => put (renderQuestState tabwriter state format)
  end.
Definition cancel_quest (fs : FlagSet) (questID : string) : CM unit :=
  _ ← opened "quest cancel bootstrap: " open_service;
  userID ← c_wrapped "quest cancel: " (resolveQuestUser (get_string fs "user"));
  '(_, e) ← verb (CancelQuest senv userID questID (mkCancelOpts (get_string fs "reason") None));
  match e with
  | Some e => _ ← put (not_found_line questID e); c_fail (wrap "quest cancel: " e)
  | None => put ("canceled " +:+ questID +:+ nl)
  end.
Definition runQuestCancelCmd (args : list string) : CM unit :=
  '(fs, rest) ← c_wrapped "quest cancel: " (of_res (parse_anywhere cancel_flags args));
  questID ← of_res (quest_arg "quest cancel" rest);
  go ← confirmed (get_bool fs "yes") ("Cancel quest " +:+ questID +:+ "? [y/N]: ") "quest cancel: prompt: ";
  if go : bool then cancel_quest fs questID
  else put_line "aborted (no changes made)".
End Commands.

(** ** [venue resolve] *)

(** With [-no-cache], over the shim whose reads all miss. *)
Definition noCacheReadShim (on : bool) (env : REnv) : REnv :=
  mkREnv (re_faults env) (re_now env) (re_ttl env) (re_venue env) (re_name env) (re_load env) (re_ip env) (re_lower env) on.
Definition runResolveCmd (env : REnv) (open_backend : option error) (args : list string) : Terminal.CM RWorld unit :=
  o ← of_res (parseResolveFlags (re_lower env) args);
  query ← c_wrapped "resolve: " (of_res (buildVenueQuery (re_ip env) (re_lower env) (ro_query o)));
  _ ← match open_backend with Some e => c_fail (wrap "resolve bootstrap: " e) | None => mret tt end;
  r ← c_attempt (on_world (Resolve (noCacheReadShim (ro_noCache o) env) (Some query)));
  match r with
  | Err e => let '(text, e') := renderResolveError e in _ ← put text; c_fail e'
  | Ok v => put (renderVenue v (ro_format o))
  end.

