(* ===== verification/QuestCliProofs.v ===== *)
(** * What the quest commands do to the quests

    [quest create] and [quest cancel] act only on the word of their user:
    what they plan, show and ask changes no quest, and what they then create
    is the plan that was shown. *)

From S2P Require Import Prelude Text Url Flags GoTime GoFormat Types Status Slots Drop Codec Strategy Plan Resolver.
From S2P Require Import Goal Sql Sqlite SqliteStore Tenant Quests QuestsProofs Accounts Engine EngineProofs Service ServiceSteps.
From S2P Require Import Adapter ServiceProofs Terminal Prompts QuestText QuestCli.
From Stdlib Require Import Ascii.

#[local] Existing Instances cm_ret cm_bind.

Section Proofs.
Context {St : Type} `{!SnipeStore St} {clk : SqliteClock} (senv : SEnv).
Context (abbreviation : Time → string) (tabwriter : string → string).
Context (open_service open_seed : option error).
Notation W := (World (Stores St TenantDB)).
Notation CM := (CM W).
Notation ip := (sv_ip senv).
Notation lower := (sv_lower senv).
Notation tenants w := (st_tenants (w_store w)).
Notation world t := (tm_world t : W).
Notation snipes_of w := (st_snipes (w_store w)).
#[local] Instance same_books_pre : PreOrder same_books.
Proof. split; [by split|]. intros ? ? ? [] []. split; by etrans. Qed.
#[local] Instance bookless_pre : PreOrder (bookless (St := St)).
Proof. split; [by split|]. intros ? ? ? [] []. split; [by etrans|congruence|congruence]. Qed.

(** ** Steps that only print *)

(** The world is as it was and nothing was read. *)
Record printed (s : string) (t t' : Term W) : Prop := {
  pt_world : bookless (world t) (world t');
  pt_in : tm_in t' = tm_in t;
  pt_end : tm_end t' = tm_end t;
  pt_out : tm_out t' = tm_out t +:+ s
}.
Lemma printed_refl t : printed "" t t.
Proof. split; [done..|by rewrite append_nil_r]. Qed.
Lemma printed_trans s1 s2 t1 t2 t3 : printed s1 t1 t2 → printed s2 t2 t3 → printed (s1 +:+ s2) t1 t3.
Proof. intros [] []. split; [by etrans|congruence|congruence|]. rewrite <- append_assoc. congruence. Qed.
Lemma verb_inv {A} (m : @M (Stores St TenantDB) A) (t : Term W) r t' :
  verb m t = (r, t') → ∃ w, m (world t) = (r, w) ∧ t' = mkTerm w (tm_in t) (tm_end t) (tm_out t).
Proof. unfold verb, on_world. destruct (m (world t)) as [r0 w]. intros [= <- <-]. by exists w. Qed.
Lemma verb_printed {A} (m : @M (Stores St TenantDB) A) t r t' : steady bookless m → verb m t = (r, t') → printed "" t t'.
Proof.
  intros Hm (w & E & ->)%verb_inv. specialize (Hm (world t)). rewrite E in Hm. split; [exact Hm|done|done|by rewrite append_nil_r].
Qed.
Lemma opened_inv pre e (t : Term W) r t' : opened pre e t = (r, t') → t' = t ∧ match r with Ok _ => e = None | Err _ => True end.
Proof. unfold opened. destruct e; by intros [= <- <-]. Qed.
Lemma idle_clock : steady bookless (now (sv_env senv) : @M (Stores St TenantDB) Time).
Proof. apply (steady_now _ _ bookless_step). Qed.

(** The plan, printed; or nothing but a reason. *)
Lemma preview_inv o goal t r t' :
  preview senv abbreviation o goal t = (r, t') →
  ∃ s, printed s t t' ∧ match r with Ok p => ∃ n, render_plan abbreviation (qo_format o) p n = Ok s | Err _ => True end.
Proof.
  unfold preview. intros H.
  apply cm_bind_inv in H as [(e & H & ->)|(rp & t1 & H1 & H)]; [by apply attempt_cm_inv in H as (? & _ & [=])|].
  apply attempt_cm_inv in H1 as (r0 & H1 & [= <-]). apply verb_printed in H1; [|apply idle_plan].
  destruct rp as [p|e].
  2: { injection H as <- <-. eexists. split; [|done]. eapply printed_trans; [exact H1|]. by split. }
  assert (Hn : ∀ r1 t2, match qo_format o with FormatTable => clock_now senv | FormatJSON => mret zero_time end t1 = (r1, t2) → printed "" t1 t2).
  { destruct (qo_format o); intros r1 t2 Hc; [|injection Hc as <- <-; apply printed_refl].
    eapply verb_printed; [apply idle_clock|exact Hc]. }
  apply cm_bind_inv in H as [(e & H & ->)|(n & t2 & H2 & H)].
  { eexists. split; [|done]. eapply printed_trans; [exact H1|by eapply Hn]. }
  apply Hn in H2. apply cm_bind_inv in H as [(e & H & ->)|(text & t3 & H3 & H)].
  { injection H as _ <-. eexists. split; [|done]. eapply printed_trans; [exact H1|exact H2]. }
  injection H3 as Ht <-. injection H as <- <-. exists text. split; [|by exists n].
  apply (printed_trans "" text t t1); [exact H1|]. apply (printed_trans "" text t1 t2); [exact H2|by split].
Qed.

(** ** The confirmation *)

Definition agrees (yes : bool) (t : Term W) : bool := yes || is_yes lower (first_line t).
Lemma confirmed_inv yes question pre t r t' :
  confirmed senv yes question pre t = (r, t') →
  world t' = world t ∧ (∃ s, tm_out t' = tm_out t +:+ s) ∧ match r with Ok b => b = agrees yes t | Err _ => True end.
Proof.
  unfold confirmed. destruct yes; [intros [= <- <-]; split_all; [done|by exists ""; rewrite append_nil_r|done]|]. intros H.
  apply cm_bind_inv in H as [(e & [=] & _)|([] & t1 & [= <-] & H)].
  assert (Hr : ∀ r1 t2, c_wrapped pre answer (mkTerm (world t) (tm_in t) (tm_end t) (tm_out t +:+ question)) = (r1, t2) →
    world t2 = world t ∧ tm_out t2 = tm_out t +:+ question ∧ match r1 with Ok l => l = first_line t | Err _ => True end).
  { intros r1 t2 (r0 & Hl & ->)%wrapped_cm_inv. apply read_line_inv in Hl as (? & ? & ?). by destruct r0. }
  apply cm_bind_inv in H as [(e & H & ->)|(raw & t2 & H2 & H)].
  { apply Hr in H as (? & ? & _). split_all; [done|by eexists|done]. }
  apply Hr in H2 as (E1 & E2 & ->). injection H as <- <-. split_all; [done|by eexists|done].
Qed.

(** ** [quest create] *)

(** The request the arguments make. *)
Definition create_request (args : list string) : res (questCreateOpts * Goal) :=
  o ← parseQuestCreateFlags lower args;
  '(query, hints) ← buildVenueQueryWithHints ip lower (qo_venueQuery (qc_plan o));
  goal ← buildGoalFromOpts lower (qc_plan o) query hints;
  Ok (o, goal).
Lemma key_given o plan : is_keyed (co_IdempotencyKey (commit_opts o plan)) → qc_idempotencyKey o ≠ "".
Proof. intros (k & Hk & Hne) E. cbn in Hk. by rewrite E in Hk. Qed.
Lemma commit_inv o goal plan t r t' :
  commit_quest senv abbreviation o goal plan t = (r, t') →
  ∃ id e s, create_effect senv (qo_user (qc_plan o)) goal (commit_opts o plan) id e (world t) (world t') ∧
    tm_out t' = tm_out t +:+ s ∧ (e = None ↔ r = Ok tt).
Proof.
  unfold commit_quest. intros H. apply cm_bind_inv in H as [(e & H & ->)|([id e] & t1 & H1 & H)].
  { apply verb_inv in H as (w & H & _). by apply CreateQuest_inv in H as (? & ? & [=] & _). }
  apply verb_inv in H1 as (w & H1 & ->). apply CreateQuest_inv in H1 as (id' & e' & [= <- <-] & H1).
  destruct e as [e|].
  - injection H as <- <-. exists id, (Some e), (create_failed e). by split_all.
  - apply cm_bind_inv in H as [(e & H & ->)|(n & t2 & H2 & H)]; [by apply verb_inv in H as (? & [=] & _)|].
    apply verb_printed in H2; [|apply idle_clock]. injection H as <- <-. exists id, None. eexists. split; [|split; [|done]].
    + eapply create_effect_after; [reflexivity|exact H1|apply H2].
    + cbn. rewrite (pt_out _ _ _ H2), append_nil_r. done.
Qed.
Definition shows (f : Format) (p : Plan) (t t' : Term W) : Prop :=
  ∃ n text rest, render_plan abbreviation f p n = Ok text ∧ tm_out t' = tm_out t +:+ text +:+ rest.

(** C13. [quest create] does what it showed and was told.  Arguments that make
    no request change nothing.  A request creates no quest and announces
    none unless the user agrees, by the flag or by answering yes; then it may
    create one, for the goal and the user of the arguments, with the hash of
    the plan that was printed, and reports success exactly when the quest was
    scheduled.  A success that creates nothing was declined, or replays an
    idempotency key. *)
Theorem quest_create_asks args (t : Term W) r t' :
  runQuestCreateCmd senv abbreviation open_service args t = (r, t') →
  match create_request args with
  | Err _ => is_Ok r = false ∧ t' = t
  | Ok (o, goal) =>
      (nothing_created (world t) (world t') ∧ (r = Ok tt → agrees (qc_yes o) t = false ∨ qc_idempotencyKey o ≠ "")) ∨
      (agrees (qc_yes o) t = true ∧ ∃ plan id e,
         shows (qo_format (qc_plan o)) plan t t' ∧
         created senv (qo_user (qc_plan o)) goal (commit_opts o plan) id e (world t) (world t') ∧ (e = None ↔ r = Ok tt))
  end.
Proof.
  unfold runQuestCreateCmd, create_request. intros H.
  apply cm_bind_inv in H as [(e & H & ->)|(o & t1 & H1 & H)]; [injection H as H <-; by rewrite H|].
  injection H1 as -> <-. cbn [mbind outcome_bind].
  apply cm_bind_inv in H as [(e & H & ->)|([q h] & t1 & H1 & H)].
  { apply wrapped_cm_inv in H as (r0 & H & Hr). injection H as <- <-. by destruct (buildVenueQueryWithHints _ _ _). }
  apply wrapped_cm_inv in H1 as (r0 & H1 & Hr). injection H1 as <- <-.
  destruct (buildVenueQueryWithHints _ _ _) as [[q' h']|]; [|done]. injection Hr as <- <-. cbn [mbind outcome_bind].
  apply cm_bind_inv in H as [(e & H & ->)|(goal & t1 & H1 & H)].
  { apply wrapped_cm_inv in H as (r0 & H & Hr). injection H as <- <-. by destruct (buildGoalFromOpts _ _ _ _). }
  apply wrapped_cm_inv in H1 as (r0 & H1 & Hr). injection H1 as <- <-.
  destruct (buildGoalFromOpts _ _ _ _) as [goal'|]; [|done]. injection Hr as <-. cbn [mbind outcome_bind].
  assert (Hquiet : ∀ s t2, printed s t t2 → nothing_created (world t) (world t2)) by (intros s t2 B; apply bookless_nothing, B).
  apply cm_bind_inv in H as [(e & H & ->)|([] & t1 & H1 & H)]; [apply opened_inv in H as [-> _]; by left|].
  apply opened_inv in H1 as [-> _].
  apply cm_bind_inv in H as [(e & H & ->)|(plan & t1 & H1 & H)].
  { apply preview_inv in H as (s & B & _). left. by split; [eapply Hquiet|]. }
  apply preview_inv in H1 as (text & B & n & Ht).
  assert (Ha : agrees (qc_yes o) t1 = agrees (qc_yes o) t) by (unfold agrees, first_line; by rewrite (pt_in _ _ _ B)).
  apply cm_bind_inv in H as [(e & H & ->)|(go & t2 & H2 & H)].
  { apply confirmed_inv in H as (E & _). left. rewrite E. by split; [eapply Hquiet|]. }
  apply confirmed_inv in H2 as (E2 & [s2 O2] & Hgo). rewrite Ha in Hgo. destruct go.
  - apply commit_inv in H as (id & e & s3 & He & O3 & Hr). rewrite E2 in He.
    destruct (create_effect_after _ _ _ _ _ _ _ _ _ _ (pt_world _ _ _ B) He ltac:(reflexivity)) as [Hc|[Hn Hk]].
    + right. split; [done|]. exists plan, id, e. split; [|by split].
      exists n, text, (s2 +:+ s3). split; [done|]. rewrite O3, O2, (pt_out _ _ _ B). by rewrite !append_assoc.
    + left. split; [done|]. intros Hok. right. apply (key_given o plan), Hk. by apply Hr.
  - injection H as <- <-. left. split; [cbn; rewrite E2; exact (Hquiet _ _ B)|]. intros _. by left.
Qed.
(** ** [quest cancel] *)

(** Whom a command acts for: the user of the flag, or the only one there is. *)
Definition acts_for (raw : string) (d : TenantDB) (u : string) : Prop :=
  if is_empty (TrimSpace raw) then ∃ r, tb_users d = [r] ∧ us_id r = u else u = TrimSpace raw.
Lemma idle_users : steady bookless (tenant_call senv Accounts.ListUsers : @M (Stores St TenantDB) (list UserRow)).
Proof.
  apply (steady_tenant _ _ bookless_step). unfold Accounts.ListUsers.
  apply moves_bind; [by intros ? ? ? ? ?; etrans|by apply moves_ctx, moves_query|intros; by apply moves_of].
Qed.
Lemma users_same (t : Term W) r t' : list_users senv t = (r, t') → tenants (world t') = tenants (world t).
Proof.
  intros (w & H & ->)%verb_inv. apply tenant_inv in H as (fl & n & d & H & ->). cbn.
  assert (Hm : moves eq Accounts.ListUsers).
  { unfold Accounts.ListUsers. apply moves_bind; [by intros ??? -> |by apply moves_ctx, moves_query|intros; by apply moves_of]. }
  specialize (Hm fl (w_sql (world t)) (tenants (world t))). by rewrite H in Hm.
Qed.
Lemma list_users_inv (t : Term W) l t' :
  list_users senv t = (Ok l, t') → Forall2 (λ x y, user_row x = Ok y) (merge_sort first_user (tb_users (tenants (world t)))) l.
Proof.
  intros (w & H & ->)%verb_inv. apply tenant_inv in H as (fl & n & d & H & ->). revert H. unfold Accounts.ListUsers. run_sql.
  destruct (fl _); [done|]. intros H. injection H as H <- <-. by apply each_Ok.
Qed.
Lemma sole_user d (r : UserRow) : Forall2 (λ x y, user_row x = Ok y) (merge_sort first_user (tb_users d)) [r] → acts_for "" d (u_ID r).
Proof.
  intros H. pose proof (merge_sort_Permutation first_user (tb_users d)) as P.
  apply Forall2_cons_inv_r in H as (x & l & Hx & Hl & E). apply Forall2_nil_inv_r in Hl as ->. rewrite E in P.
  symmetry in P. apply Permutation_singleton_r in P. exists x. split; [done|].
  unfold user_row in Hx. destruct (in_user _ _ _); [|done]. cbn [mbind outcome_bind] in Hx.
  destruct (match us_disabled_at x with Some _ => _ | None => _ end); [|done]. by injection Hx as <-.
Qed.

Lemma user_inv raw t r t' :
  resolveQuestUser senv open_seed raw t = (r, t') →
  bookless (world t) (world t') ∧ tenants (world t') = tenants (world t) ∧
  match r with Ok u => acts_for raw (tenants (world t)) u | Err _ => True end.
Proof.
  unfold resolveQuestUser, acts_for. destruct (is_empty (TrimSpace raw)) eqn:Er.
  2: { intros [= <- <-]. by split_all. }
  unfold resolveDefaultUserViaStore. intros H.
  apply cm_bind_inv in H as [(e & H & ->)|([] & t1 & H1 & H)].
  { apply opened_inv in H as [-> _]. by split_all. }
  apply opened_inv in H1 as [-> _].
  assert (Hu : ∀ r1 t1, c_wrapped "list users: " (list_users senv) t = (r1, t1) → bookless (world t) (world t1) ∧ tenants (world t1) = tenants (world t)).
  { intros r1 t1 (r0 & Hl & _)%wrapped_cm_inv. split; [|by eapply users_same]. apply verb_printed in Hl; [|apply idle_users]. apply Hl. }
  apply cm_bind_inv in H as [(e & H & ->)|(rows & t1 & H1 & H)]; [by apply Hu in H as []|].
  pose proof (Hu _ _ H1) as [B O]. apply wrapped_cm_inv in H1 as (r0 & H1 & Hr). destruct r0 as [l|]; [|done]. injection Hr as ->.
  apply list_users_inv in H1. destruct l as [|x [|y l]]; injection H as <- <-; split_all; try done. by apply sole_user in H1.
Qed.
Definition cancel_request (args : list string) : res (FlagSet * string) :=
  match parse_anywhere cancel_flags args with
  | Err e => Err (wrap "quest cancel: " e)
  | Ok (fs, rest) => q ← quest_arg "quest cancel" rest; Ok (fs, q)
  end.

(** C14. [quest cancel] asks before it cancels.  Arguments that make no request
    change nothing, and a request its user does not agree to, by the flag or
    by answering yes, leaves the service alone.  One that is agreed to
    announces nothing and changes no quest but the one named, which it may
    cancel if it is a live quest of the user of the flag or of the only user
    there is; after a success that user owns the quest and it is over. *)
Theorem quest_cancel_asks args (t : Term W) r t' :
  quests_wf (tenants (world t)) →
  runQuestCancelCmd senv open_service open_seed args t = (r, t') →
  match cancel_request args with
  | Err _ => is_Ok r = false ∧ t' = t
  | Ok (fs, q) =>
      if agrees (get_bool fs "yes") t then
        snipes_of (world t') = snipes_of (world t) ∧ w_emitted (world t') = w_emitted (world t) ∧
        (quest_map (tenants (world t')) = quest_map (tenants (world t)) ∨
         ∃ u, acts_for (get_string fs "user") (tenants (world t)) u ∧ cancels u q (world t) (world t')) ∧
        (r = Ok tt → ∃ u, acts_for (get_string fs "user") (tenants (world t)) u ∧ over u q (tenants (world t')))
      else world t' = world t
  end.
Proof.
  intros Hwf. unfold runQuestCancelCmd, cancel_request. intros H.
  apply cm_bind_inv in H as [(e & H & ->)|([fs rest] & t1 & H1 & H)].
  { apply wrapped_cm_inv in H as (r0 & H & Hr). injection H as <- <-. by destruct (parse_anywhere _ _) as [[? ?]|]. }
  apply wrapped_cm_inv in H1 as (r0 & H1 & Hr). injection H1 as <- <-.
  destruct (parse_anywhere _ _) as [[fs' rest']|]; [|done]. injection Hr as <- <-.
  apply cm_bind_inv in H as [(e & H & ->)|(q & t1 & H1 & H)]; [injection H as H <-; by rewrite H|].
  injection H1 as -> <-. cbn [mbind outcome_bind].
  apply cm_bind_inv in H as [(e & H & ->)|(go & t1 & H1 & H)].
  { apply confirmed_inv in H as (E & _). destruct (agrees _ _); rewrite E; [split_all; [done|done|by left|done]|done]. }
  apply confirmed_inv in H1 as (E1 & _ & <-). destruct go; [|injection H as _ <-; exact E1].
  unfold cancel_quest in H. assert (Hsame : ∀ w, bookless (world t) w →
    snipes_of w = snipes_of (world t) ∧ w_emitted w = w_emitted (world t) ∧ quest_map (tenants w) = quest_map (tenants (world t))).
  { intros w [B S E]. split_all; [done|done|by apply books_map]. }
  apply cm_bind_inv in H as [(e & H & ->)|([] & t2 & H2 & H)].
  { apply opened_inv in H as [-> _]. rewrite E1. split_all; [done|done|by left|done]. }
  apply opened_inv in H2 as [-> _].
  apply cm_bind_inv in H as [(e & H & ->)|(u & t2 & H2 & H)].
  { apply wrapped_cm_inv in H as (r0 & H & _). apply user_inv in H as (B & _). rewrite E1 in B. apply Hsame in B as (? & ? & ?).
    split_all; [done|done|by left|done]. }
  apply wrapped_cm_inv in H2 as (r0 & H2 & Hr). destruct r0 as [u'|]; [|done]. injection Hr as <-.
  apply user_inv in H2 as (B & T2 & Hu). rewrite E1 in B, T2, Hu. pose proof (Hsame _ B) as (S2 & M2 & Q2).
  assert (Hwf2 : quests_wf (tenants (world t2))) by by rewrite T2.
  apply cm_bind_inv in H as [(e & H & ->)|([id e] & t3 & H3 & H)].
  { apply verb_inv in H as (w & H & _). by apply CancelQuest_inv in H as (? & ? & [=] & _). }
  apply verb_inv in H3 as (w & H3 & ->). apply CancelQuest_inv in H3 as (id' & e' & [= <- <-] & S3 & M3 & Q3 & O3); [|done].
  assert (Hw : world t' = w ∧ (r = Ok tt → e = None)) by (destruct e; by injection H as <- <-). destruct Hw as [-> Hr].
  split_all; [congruence|congruence| |].
  - destruct Q3 as [Q3|(row & tt0 & C1 & C2 & C3 & C4)]; [left; congruence|right]. exists u. split; [done|].
    exists row, tt0. rewrite Q2 in C1, C4. by split_all.
  - intros Hok. apply Hr in Hok. exists u. split; [done|]. destruct (O3 Hok) as [|(k & _ & _ & [=] & _)]. done.
Qed.
End Proofs.

(** ** Ann's quest, from her terminal *)

#[local] Existing Instance store_laws.
Definition ann_args : list string :=
  ["-date"; "2026-06-09"; "-party"; "2"; "-time"; "18:30..21:00"; "-account"; "ann@example.com"; "-user"; "usr_1"; "carbone+ny"].
Definition ann_types (answer : string) : Term (World (Stores DB TenantDB)) := mkTerm sample_world answer None "".
Definition ann_window : TimeWindow := mkTimeWindow (mkWallTime 18 30 0) (mkWallTime 21 0 0) PriorityEarlier.
Definition edt (t : Time) : string := "EDT".
Definition ann_create (answer : string) := runQuestCreateCmd sample_senv edt None ann_args (ann_types answer).
Lemma quest_create_asks_witness :
  let '(r, t') := ann_create ("Yes" +:+ nl) in
  ∃ plan id, r = Ok tt ∧
    created sample_senv "usr_1" (mkGoal (Some (VenueQuerySlug "carbone" "ny")) (mkDate 2026 6 9) 2 ann_window "ann@example.com" (mkConstraints [] true))
      (mkCreateOpts (Some (p_Hash plan)) None) id None sample_world (tm_world t').
Proof.
  assert (Er : (ann_create ("Yes" +:+ nl)).1 = Ok tt) by (vm_compute; reflexivity).
  pose proof (quest_create_asks sample_senv edt None ann_args (ann_types ("Yes" +:+ nl)) _ _ (surjective_pairing _)) as H.
  fold (ann_create ("Yes" +:+ nl)) in H. destruct (ann_create ("Yes" +:+ nl)) as [r t']. cbn [fst snd] in Er, H.
  assert (Eq : create_request sample_senv ann_args = Ok (
    mkQuestCreateOpts (mkQuestPlanOpts "carbone+ny" "2026-06-09" 2 "18:30..21:00" "earlier" "" "ann@example.com" "usr_1" FormatTable) false "",
    mkGoal (Some (VenueQuerySlug "carbone" "ny")) (mkDate 2026 6 9) 2 ann_window
      "ann@example.com" (mkConstraints [] true))) by (vm_compute; reflexivity).
  rewrite Eq in H. destruct H as [[_ H]|(_ & plan & id & e & _ & Hc & He)].
  - exfalso. destruct (H Er) as [Ha|Hk]; [by vm_compute in Ha|by apply Hk].
  - apply He in Er as Ee. subst e. exists plan, id. split; [exact Er|exact Hc].
Defined.

(** ** A venue that can already be booked

    The plan is a continuous one, whose drop moment, and with it the hash, is
    the time of planning; so the plan that is shown is never the one that is
    created. *)
Definition open_senv : SEnv :=
  mkSEnv (sv_env sample_senv) (sv_resolve sample_senv)
    (Some (λ _ v _, Ok (mkCalendar v [mkCalendarDay (mkDate 2026 6 9) true])))
    (sv_auth sample_senv) (sv_rand sample_senv) (sv_blake2b sample_senv) "user" true (sv_ip sample_senv) (sv_lower sample_senv).
Definition ann_insists := runQuestCreateCmd open_senv edt None ("-yes" :: ann_args) (ann_types "").
Lemma bookable_venue_refused :
  is_Ok ann_insists.1 = false ∧ tb_quests (st_tenants (w_store (tm_world ann_insists.2))) = []
  ∧ (∃ pre, tm_out ann_insists.2 = pre +:+ "the plan changed between preview and create — re-run `quest create`" +:+ nl).
Proof.
  split; [vm_compute; reflexivity|]. split; [vm_compute; reflexivity|].
  exists (tm_out (preview open_senv edt (mkQuestPlanOpts "carbone+ny" "2026-06-09" 2 "18:30..21:00" "earlier" "" "ann@example.com" "usr_1" FormatTable)
    (mkGoal (Some (VenueQuerySlug "carbone" "ny")) (mkDate 2026 6 9) 2 ann_window
      "ann@example.com" (mkConstraints [] true)) (ann_types "")).2).
  vm_compute. reflexivity.
Qed.
(** The documented order, the venue before the flags, makes every flag a word
    of the venue. *)
Lemma venue_first_refused :
  runQuestPlanCmd sample_senv edt None ("carbone+ny" :: take 10 ann_args) (ann_types "")
  = (Err (wrap "quest plan: " (ENew "-account is required")), ann_types "").
Proof. vm_compute. reflexivity. Qed.
(** [quest cancel q_1 -user usr_1 -yes], the quest before the flags. *)
Definition ann_cancels := runQuestCancelCmd sample_senv None None ["q_1"; "-user"; "usr_1"; "-yes"] (mkTerm quest_world "" None "").
Lemma quest_cancel_asks_witness :
  ann_cancels.1 = Ok tt ∧ over "usr_1" "q_1" (st_tenants (w_store (tm_world ann_cancels.2))).
Proof.
  assert (Er : ann_cancels.1 = Ok tt) by (vm_compute; reflexivity). split; [exact Er|].
  pose proof (quest_cancel_asks sample_senv None None ["q_1"; "-user"; "usr_1"; "-yes"] (mkTerm quest_world "" None "") _ _
                with_one_quest_wf (surjective_pairing _)) as H.
  fold ann_cancels in H. destruct ann_cancels as [r t']. cbn [fst snd] in Er, H.
  destruct (cancel_request _) as [[fs q]|e] eqn:E; [|by vm_compute in E]. vm_compute in E. injection E as <- <-.
  destruct (agrees _ _ _) eqn:Ea; [|by vm_compute in Ea]. destruct H as (_ & _ & _ & H). destruct (H Er) as (u & Hu & Ho).
  unfold acts_for in Hu. vm_compute in Hu. subst u. exact Ho.
Defined.
