(* ===== verification/UserCli.v ===== *)
(** * The user commands: [cmd/resy-snipe/user.go]

    [user seed|list|invite|accept-invite] over the multi-user tables, and what
    a seeding changes in them.  Opening and migrating the database is an
    argument, and so is what it answers. *)

From S2P Require Import Prelude Text Url Flags GoTime GoFormat Types Status Slots Codec Drop Json Hash.
From S2P Require Import Sql Sqlite SqliteStore Tenant Accounts Quests Engine EngineProofs Service ServiceSteps Adapter ServiceProofs.
From S2P Require Import Terminal Prompts Resolver QuestText QuestCli QuestCliProofs.

#[local] Existing Instances cm_ret cm_bind.

Section Users.
Context {St : Type} `{!SnipeStore St} {clk : SqliteClock} (senv : SEnv).
Context (tabwriter : string → string) (open_seed : option error).
Notation W := (World (Stores St TenantDB)).
Notation CM := (CM W).
Notation lower := (sv_lower senv).
Notation verb := (verb (St := St)).

Definition notImplementedMsg : string :=
  "requires the daemon Service layer (coming in M1-10). For now, use 'user seed' to create the operator and direct DB operations for additional users.".
Definition printUserUsage : CM unit :=
  put ("Usage: resy-snipe user <subcommand> [flags]" +:+ nl +:+ nl +:+ "Subcommands:" +:+ nl
       +:+ "  seed           Mint the operator (first-run admin) and bind v1 accounts." +:+ nl
       +:+ "  list           List every homelab user." +:+ nl
       +:+ "  invite         Issue an invite for a new tenant (requires daemon Service; coming in M1-10)." +:+ nl
       +:+ "  accept-invite  Redeem an invite token (requires daemon Service; coming in M1-10)." +:+ nl).

(** The email of the flag, or of the prompt. *)
Definition seed_email (flag : string) : CM string :=
  let email := TrimSpace flag in
  if is_empty email then
    got ← c_wrapped "user seed: prompt email: " (promptRaw "Operator email" ""); mret (TrimSpace got)
  else mret email.
Definition seed_flags : FlagSet := NewFlagSet [("email", FString "")].
(** The two writes. *)
Definition seed (email : string) : CM (string * Z) :=
  uid ← c_wrapped "user seed: " (verb (tenant_call senv (SeedOperator lower sqlite_now (mkSeedOpts email "" ""))));
  n ← c_wrapped "user seed: backfill: " (verb (tenant_call senv (BackfillOperatorAccounts uid)));
  mret (uid, n).
Definition seeded_line (uid email : string) (n : Z) : string :=
  "Seeded operator " +:+ uid +:+ " (" +:+ email +:+ "); bound " +:+ fmt_d n +:+ " v1 account row(s)." +:+ nl.
Definition runUserSeed (args : list string) : CM unit :=
  '(fs, _) ← c_wrapped "user seed: " (of_res (Parse seed_flags args));
  email ← seed_email (get_string fs "email");
  if is_empty email then c_fail (ENew "user seed: email is required")
  else
    _ ← opened "user seed: " open_seed;
    '(uid, n) ← seed email;
    put (seeded_line uid email n).

Definition user_stamp (t : Time) : string := rfc3339_utc t.
Definition user_line (r : UserRow) : string :=
  str_join tab [u_ID r; u_Email r; u_Role r; if is_zero_time (u_CreatedAt r) then "-" else user_stamp (u_CreatedAt r);
                match u_InvitedBy r with Some i => i | None => "-" end;
                match u_DisabledAt r with Some t => user_stamp t | None => "-" end] +:+ nl.
Definition runUserList (args : list string) : CM unit :=
  _ ← c_wrapped "user list: " (of_res (Parse (NewFlagSet []) args));
  _ ← opened "user list: " open_seed;
  rows ← c_wrapped "user list: " (verb (tenant_call senv Accounts.ListUsers));
  match rows with
  | [] => put_line "(no users yet — run `resy-snipe user seed --email <email>` to mint the operator)"
  | _ => put (tabwriter (str_join tab ["ID"; "EMAIL"; "ROLE"; "CREATED"; "INVITED_BY"; "DISABLED"] +:+ nl
                         +:+ String.concat "" (map user_line rows)))
  end.

Definition validRole (r : string) : bool :=
  let r := ToLower lower (TrimSpace r) in existsb (str_eqb r) ["admin"; "user"; "readonly"].
(** The one positional argument. *)
Definition one_arg (cmd name : string) (rest : list string) : res string :=
  match rest with
  | [] => Err (ENew (cmd +:+ ": missing <" +:+ name +:+ "> positional argument"))
  | [a] => let q := TrimSpace a in if is_empty q then Err (ENew (cmd +:+ ": " +:+ name +:+ " is required")) else Ok q
  | _ :: extra => Err (ENew (cmd +:+ ": unexpected extra arguments: " +:+ fmt_slice extra))
  end.
(** [service.Stub]: every method answers so. *)
Definition Stub : res unit := Err Service.ErrNotImplemented.
Definition stubbed (cmd : string) (r : res unit) : CM unit :=
  match r with
  | Err e => c_fail (if errors_is e Service.ErrNotImplemented then ENew (cmd +:+ ": " +:+ notImplementedMsg)
                     else wrap (cmd +:+ ": ") e)
  | Ok _ => mret tt
  end.
Definition runUserInvite (args : list string) : CM unit :=
  '(fs, rest) ← c_wrapped "user invite: " (of_res (parse_anywhere (NewFlagSet [("role", FString "user")]) args));
  _ ← of_res (one_arg "user invite" "email" rest);
  if negb (validRole (get_string fs "role"))
  then c_fail (ENew ("user invite: invalid --role " +:+ fmt_q (get_string fs "role") +:+ " (want user|admin|readonly)"))
  else stubbed "user invite" Stub.
Definition runUserAcceptInvite (args : list string) : CM unit :=
  '(_, rest) ← c_wrapped "user accept-invite: " (of_res (parse_anywhere (NewFlagSet []) args));
  _ ← of_res (one_arg "user accept-invite" "token" rest);
  stubbed "user accept-invite" Stub.

Definition runUserCmd (args : list string) : CM unit :=
  match args with
  | [] => _ ← printUserUsage;
          c_fail (ENew "user: missing sub-subcommand (want one of: seed, list, invite, accept-invite)")
  | sub :: rest =>
      if str_eqb sub "seed" then runUserSeed rest
      else if str_eqb sub "list" then runUserList rest
      else if str_eqb sub "invite" then runUserInvite rest
      else if str_eqb sub "accept-invite" then runUserAcceptInvite rest
      else if existsb (str_eqb sub) ["-h"; "--help"; "help"] then printUserUsage
      else _ ← printUserUsage; c_fail (ENew ("user: unknown sub-subcommand " +:+ fmt_q sub))
  end.
End Users.

(** ** What a seeding changes *)

Section Proofs.
Context {St : Type} `{!SnipeStore St} {clk : SqliteClock} (senv : SEnv).
Context (open_seed : option error).
Notation W := (World (Stores St TenantDB)).
Notation tenants t := (st_tenants (w_store (tm_world t : W))).
Notation snipes_of t := (st_snipes (w_store (tm_world t : W))).

(** At most one user is added: the operator, where there was none. *)
Definition operator_added (email : string) (d d' : TenantDB) : Prop :=
  d' = d ∨ ∃ r, us_email r = email ∧ us_role r = "admin" ∧ us_invited_by r = None ∧
    Forall (λ x, us_invited_by x ≠ None) (tb_users d) ∧ d' = with_users (tb_users d ++ [r]) d.
Definition bind_unowned (u : string) (d : TenantDB) : TenantDB :=
  with_accounts (map (λ r, if unowned r then set_owner u r else r) (tb_accounts d)) d.
Definition owned_now (u email : string) (n : Z) (d d' : TenantDB) : Prop :=
  ∃ d1, operator_added email d d1 ∧ (∃ x, x ∈ tb_users d1 ∧ us_email x = email ∧ us_id x = u) ∧
    d' = bind_unowned u d1 ∧ n = Z.of_nat (length (List.filter unowned (tb_accounts d))).

Lemma insert_operator_adds r d : us_role r = "admin" → us_invited_by r = None →
  operator_added (us_email r) d (insert_operator r d).2.
Proof.
  intros Ha Hi. unfold insert_operator. destruct (existsb _ _) eqn:E; [by left|]. right. exists r. split_all; try done.
  apply Forall_forall. intros x Hx Hn. apply list_elem_of_In in Hx.
  assert (H : existsb (λ x, str_eqb (us_id x) (us_id r) || str_eqb (us_email x) (us_email r)
    || bool_decide (us_invited_by x = None)) (tb_users d) = true).
  { apply existsb_exists. exists x. split; [done|]. rewrite bool_decide_eq_true_2 by done. by rewrite !orb_true_r. }
  congruence.
Qed.
Lemma seed_operator_spec lower now email fl n d :
  let '(r, _, d') := SeedOperator lower now (mkSeedOpts email "" "") fl n d in
  operator_added (TrimSpace email) d d' ∧
  match r with Ok u => ∃ x, x ∈ tb_users d' ∧ us_email x = TrimSpace email ∧ us_id x = u | Err _ => True end.
Proof.
  unfold SeedOperator, seed_failed. cbn [so_Email so_UserID so_PasswordHash]. run_sql.
  destruct (is_empty (TrimSpace email)); [split; [by left|done]|]. destruct (fl n); [split; [by left|done]|].
  set (op := mkUserRec _ _ _ _ _ _ _). pose proof (insert_operator_adds op d eq_refl eq_refl) as Ho.
  assert (Hk : insert_operator op d = (Ok tt, (insert_operator op d).2)) by (unfold insert_operator; by destruct (existsb _ _)).
  rewrite Hk. set (d1 := (insert_operator op d).2) in *. cbv beta iota. destruct (fl (S n)); [by split|].
  destruct (find _ (tb_users d1)) as [x|] eqn:E; cbn; [|by split]. split; [done|]. apply find_some in E as [Hx He].
  exists x. split; [by apply list_elem_of_In|]. split; [by apply str_eqb_true|done].
Qed.
Lemma bind_none u d : List.filter unowned (tb_accounts d) = [] → bind_unowned u d = d.
Proof.
  intros H. unfold bind_unowned. assert (E : map (λ r, if unowned r then set_owner u r else r) (tb_accounts d) = tb_accounts d).
  { revert H. induction (tb_accounts d) as [|a l IH]; [done|]. cbn. destruct (unowned a); [done|]. intros H. by rewrite IH. }
  rewrite E. by destruct d.
Qed.
Lemma backfill_spec u fl n d :
  let '(r, _, d') := BackfillOperatorAccounts u fl n d in
  match r with
  | Ok k => d' = bind_unowned u d ∧ k = Z.of_nat (length (List.filter unowned (tb_accounts d)))
  | Err _ => d' = d
  end.
Proof.
  unfold BackfillOperatorAccounts, seed_failed. run_sql. destruct (is_empty _); [done|]. destruct (fl n); [done|].
  unfold claim. destruct (Z.eqb_spec (Z.of_nat (length (List.filter unowned (tb_accounts d)))) 0) as [E|E].
  - split; [|done]. destruct (List.filter unowned (tb_accounts d)) eqn:F; [by rewrite bind_none|cbn in E; lia].
  - destruct (negb (unique_owner _)); [done|]. by destruct (negb (has_user u d)).
Qed.
Lemma added_accounts email d d' : operator_added email d d' → tb_accounts d' = tb_accounts d.
Proof. by intros [-> | (r & _ & _ & _ & _ & ->)]. Qed.
Lemma owned_all u email n d d' : owned_now u email n d d' → Forall (λ a, unowned a = false) (tb_accounts d').
Proof.
  intros (d1 & _ & _ & -> & _). cbn. apply Forall_map, Forall_forall. intros a _. by destruct (unowned a) eqn:E.
Qed.

(** The two writes, over the terminal. *)
Lemma seed_call {A} (m : SqlOf TenantDB A) (t : Term W) r t' :
  verb (tenant_call senv m) t = (r, t') →
  ∃ fl k k', m fl k (tenants t) = (r, k', tenants t') ∧ snipes_of t' = snipes_of t ∧ tm_out t' = tm_out t.
Proof.
  intros (w & H & ->)%verb_inv. apply tenant_inv in H as (fl & n & d & H & ->). by exists fl, (w_sql (tm_world t)), n.
Qed.
Lemma seed_inv email (t : Term W) r t' :
  seed senv email t = (r, t') →
  snipes_of t' = snipes_of t ∧ tm_out t' = tm_out t ∧
  match r with
  | Ok (u, n) => owned_now u (TrimSpace email) n (tenants t) (tenants t')
  | Err _ => operator_added (TrimSpace email) (tenants t) (tenants t')
  end.
Proof.
  unfold seed. intros H. apply cm_bind_inv in H as [(e & H & ->)|(u & t1 & H1 & H)].
  { apply wrapped_cm_inv in H as (r0 & H & _). apply seed_call in H as (fl & k & k' & H & Hs & Ho).
    pose proof (seed_operator_spec (sv_lower senv) sqlite_now email fl k (tenants t)) as Hp. rewrite H in Hp. by destruct Hp. }
  apply wrapped_cm_inv in H1 as (r0 & H1 & E). destruct r0 as [u'|]; [|done]. injection E as ->.
  apply seed_call in H1 as (fl & k & k' & H1 & Hs1 & Ho1).
  pose proof (seed_operator_spec (sv_lower senv) sqlite_now email fl k (tenants t)) as Hp. rewrite H1 in Hp. destruct Hp as [Ha Hu].
  apply cm_bind_inv in H as [(e & H & ->)|(n & t2 & H2 & H)]; [|injection H as <- <-].
  - apply wrapped_cm_inv in H as (r0 & H & E). apply seed_call in H as (fl2 & k2 & k2' & H & Hs & Ho).
    pose proof (backfill_spec u' fl2 k2 (tenants t1)) as Hp. rewrite H in Hp. destruct r0; [done|]. rewrite Hp.
    split_all; [congruence|congruence|done].
  - apply wrapped_cm_inv in H2 as (r0 & H2 & E). destruct r0 as [n'|]; [|done]. injection E as ->.
    apply seed_call in H2 as (fl2 & k2 & k2' & H2 & Hs & Ho).
    pose proof (backfill_spec u' fl2 k2 (tenants t1)) as Hp. rewrite H2 in Hp. destruct Hp as [-> ->].
    split; [congruence|]. split; [congruence|]. exists (tenants t1). by rewrite (added_accounts _ _ _ Ha).
Qed.
Lemma seed_email_inv flag (t : Term W) r t' :
  seed_email flag t = (r, t') →
  tm_world t' = tm_world t ∧ (∃ s, tm_out t' = tm_out t +:+ s).
Proof.
  assert (Hn : ∃ s, tm_out t = tm_out t +:+ s) by (exists ""; by rewrite append_nil_r).
  unfold seed_email. cbv zeta. destruct (is_empty _).
  - intros H. apply cm_bind_inv in H as [(e & H & ->)|(g & t1 & H1 & [= <- <-])].
    + apply wrapped_cm_inv in H as (r0 & H & _). by apply prompt_inv in H as (? & ? & _).
    + apply wrapped_cm_inv in H1 as (r0 & H1 & _). apply prompt_inv in H1 as (? & ? & _).
      done.
  - by intros [= <- <-].
Qed.

(** [user seed] makes the tables belong to somebody.  When it succeeds
    there is a user with the email given, one row was added for them at most
    and only where there was no operator, every account nobody owned is
    theirs, and what is printed is their id and the number of those
    accounts; every other account and the snipes are as before.  When it
    fails no account has changed hands, and at most that operator was
    added. *)
Theorem user_seed_binds args (t : Term W) r t' :
  runUserSeed senv open_seed args t = (r, t') →
  snipes_of t' = snipes_of t ∧
  match r with
  | Ok _ => ∃ u email n s, owned_now u (TrimSpace email) n (tenants t) (tenants t') ∧
      Forall (λ a, unowned a = false) (tb_accounts (tenants t')) ∧
      tm_out t' = tm_out t +:+ s +:+ seeded_line u email n
  | Err _ => tenants t' = tenants t ∨ ∃ email, operator_added email (tenants t) (tenants t')
  end.
Proof.
  unfold runUserSeed. intros H. apply cm_bind_inv in H as [(e & H & ->)|([fs rest] & t1 & H1 & H)].
  { apply wrapped_cm_inv in H as (r0 & [= _ <-] & _). split; [done|by left]. }
  apply wrapped_cm_inv in H1 as (r0 & [= _ <-] & _).
  apply cm_bind_inv in H as [(e & H & ->)|(email & t2 & H2 & H)].
  { apply seed_email_inv in H as (E & _). rewrite E. split; [done|by left]. }
  apply seed_email_inv in H2 as (E2 & s & O2). destruct (is_empty email).
  { injection H as <- <-. rewrite E2. split; [done|by left]. }
  apply cm_bind_inv in H as [(e & H & ->)|([] & t3 & H3 & H)].
  { apply opened_inv in H as [-> _]. rewrite E2. split; [done|by left]. }
  apply opened_inv in H3 as [-> _].
  apply cm_bind_inv in H as [(e & H & ->)|([u n] & t4 & H4 & H)].
  { apply seed_inv in H as (Es & _ & Ha). rewrite E2 in *. split; [done|]. right. by eexists. }
  apply seed_inv in H4 as (Es & Eo & Ha). rewrite E2 in *. injection H as <- <-. cbn.
  split; [done|]. exists u, email, n, s. split; [done|]. split; [by eapply owned_all|]. by rewrite Eo, O2, append_assoc.
Qed.
End Proofs.

(** ** A first run, and one too many *)

#[local] Existing Instance store_laws.
Definition legacy_account : AccountRec := mkAccountRec "acct_1" None "ann@example.com" "" 0 None.
Definition seed_world (users : list UserRec) : Term (World (Stores DB TenantDB)) :=
  mkTerm (mkWorld (mkStores empty_db (with_users users (with_accounts [legacy_account] empty_tenants))) 0%nat 0%nat
            (t_ns drop_ny) stored_sample [] []) ("ann@example.com" +:+ nl) None "".
Definition owner_of (t : Term (World (Stores DB TenantDB))) : list (option string) :=
  map ac_user (tb_accounts (st_tenants (w_store (tm_world t)))).
Lemma user_seed_binds_witness :
  let '(r, t') := runUserSeed sample_senv None [] (seed_world []) in
  r = Ok tt ∧ Forall (λ a, unowned a = false) (tb_accounts (st_tenants (w_store (tm_world t')))) ∧
  length (tb_users (st_tenants (w_store (tm_world t')))) = 1%nat.
Proof.
  assert (Er : (runUserSeed sample_senv None [] (seed_world [])).1 = Ok tt) by (vm_compute; reflexivity).
  assert (En : length (tb_users (st_tenants (w_store (tm_world (runUserSeed sample_senv None [] (seed_world [])).2)))) = 1%nat)
    by (vm_compute; reflexivity).
  pose proof (user_seed_binds sample_senv None [] (seed_world []) _ _ (surjective_pairing _)) as H.
  destruct (runUserSeed sample_senv None [] (seed_world [])) as [r t']. cbn [fst snd] in *. subst r.
  destruct H as (_ & u & email & n & s & _ & Ha & _). split; [reflexivity|]. split; [exact Ha|exact En].
Defined.
(** A guest's address passes for the operator's: the accounts nobody owns
    become the guest's, who is announced as the operator. *)
Definition operator_row : UserRec := mkUserRec "usr_op" "op@example.com" "" "admin" None (StampInt 0) None.
Definition guest_row : UserRec := mkUserRec "usr_bob" "bob@example.com" "" "readonly" (Some "usr_op") (StampInt 1) None.
Definition guest_seeded := runUserSeed sample_senv None ["-email"; "bob@example.com"] (seed_world [operator_row; guest_row]).
Lemma guest_seeded_as_operator :
  guest_seeded.1 = Ok tt ∧ owner_of guest_seeded.2 = [Some "usr_bob"] ∧
  tm_out guest_seeded.2 = "Seeded operator usr_bob (bob@example.com); bound 1 v1 account row(s)." +:+ nl.
Proof. vm_compute. split_all; reflexivity. Qed.
