(* ===== verification/Stream.v ===== *)
(** * [service.SubscribeQuest]: replay, then live

    The gate and the replay on the caller's goroutine, then the live phase:
    notifications arriving on the engine's goroutine, staged in a channel of
    64 and delivered by the pump, in any interleaving.  A delivered event is
    a call of the caller's callback. *)

From S2P Require Import Prelude GoTime GoFormat Types Status Slots Drop Json Hash Codec Sql Sqlite SqliteStore.
From S2P Require Import Tenant Quests QuestsProofs Accounts Tokens Engine EngineProofs Service ServiceSteps Adapter ServiceProofs.

#[local] Existing Instances m_ret m_bind.

(** ** The program *)

Definition isTerminalEvent (t : EventType) : bool :=
  existsb (str_eqb t) [EventBooked; EventFailed; EventCanceled; EventExpired].
Definition liveBuf : nat := 64.

(** How the call stands after the replay: returned, or subscribed. *)
Inductive Opened :=
| Returned (delivered : list Event) (err : option error)
| Live (delivered : list Event).

Section Stream.
Context {St B : Type} `{!SnipeStore St} `{!StoreBackend B} (senv : SEnv) (userID questID : string).
Notation env := (sv_env senv).
Notation W := (World (Stores St B)).
Notation SM := (@M (Stores St B)).

Definition gone (e : error) : bool := errors_is e Canceled || errors_is e DeadlineExceeded.
(** The history, stopping where the context is found done. *)
Fixpoint replay (delivered history : list Event) : SM (list Event * bool) :=
  match history with
  | [] => mret (delivered, false)
  | ev :: rest =>
      c ← ctx_Err env;
      match c with
      | Some _ => mret (delivered, true)
      | None => replay (delivered ++ [ev]) rest
      end
  end.
(** Up to [s.engine.Subscribe]; [cb] says whether there is a callback. *)
Definition subscribe_open (cb : bool) : SM Opened :=
  if is_empty userID then mret (Returned [] (Some (invalid "SubscribeQuest" "userID is required")))
  else if negb cb then mret (Returned [] (Some (invalid "SubscribeQuest" "callback is required")))
  else
    r ← attempt (tenant_call senv (sb_GetQuest userID questID));
    match r with
    | Err e =>
        if gone e then mret (Returned [] None)
        else
          _ ← audit senv userID actionQuestSubscribe questID (Some (mapStoreNotFound e));
          mret (Returned [] (Some (mapStoreNotFound e)))
    | Ok row =>
        _ ← audit senv userID actionQuestSubscribe questID None;
        h ← attempt (tenant_call senv (sb_ListQuestEvents userID questID 0));
        match h with
        | Err e =>
            mret (Returned [] (if gone e then None else Some (wrap "SubscribeQuest replay: " e)))
        | Ok history =>
            '(delivered, stopped) ← replay [] history;
            mret (if stopped || IsTerminal (q_Status row) then Returned delivered None else Live delivered)
        end
    end.

(** The live phase: what the engine's goroutine and the pump's select do. *)
Record Sub := mkSub {
  su_buf : list Event;
  su_delivered : list Event;
  su_dropped : list Event;
  su_open : bool
}.
Definition live_start (delivered : list Event) : Sub := mkSub [] delivered [] true.
Inductive SubInput :=
| Emitted (n : Notification)
| Pumped
| ContextDone.
(** The subscriber callback, which also persists the event. *)
Definition on_emit (n : Notification) (s : Sub) (w : W) : Sub * W :=
  if negb (str_eqb (n_SnipeID n) questID) then (s, w)
  else
    let w := (writeQuestEvent senv userID questID (n_Event n) w).2 in
    if (length (su_buf s) <? liveBuf)%nat
    then (mkSub (su_buf s ++ [n_Event n]) (su_delivered s) (su_dropped s) true, w)
    else (mkSub (su_buf s) (su_delivered s) (su_dropped s ++ [n_Event n]) true, w).
Definition pump (s : Sub) : Sub :=
  match su_buf s with
  | [] => s
  | ev :: rest =>
      mkSub rest (su_delivered s ++ [ev]) (su_dropped s) (negb (isTerminalEvent (e_Type ev)))
  end.
(** After the return the subscription is cancelled and nothing arrives. *)
Definition live_step (i : SubInput) (sw : Sub * W) : Sub * W :=
  let '(s, w) := sw in
  if negb (su_open s) then (s, w)
  else
    match i with
    | Emitted n => on_emit n s w
    | Pumped => (pump s, w)
    | ContextDone => (mkSub (su_buf s) (su_delivered s) (su_dropped s) false, w)
    end.
Definition live_run (l : list SubInput) (sw : Sub * W) : Sub * W := fold_left (λ sw i, live_step i sw) l sw.

(** ** The stream *)

(** The quest's own events among the inputs, in order. *)
Definition own_event (i : SubInput) : option Event :=
  match i with
  | Emitted n => if str_eqb (n_SnipeID n) questID then Some (n_Event n) else None
  | _ => None
  end.
Definition own_events (l : list SubInput) : list Event := omap own_event l.
Definition no_terminal (l : list Event) : Prop := Forall (λ e, isTerminalEvent (e_Type e) = false) l.
(** After some inputs from a history [H]: [D] is what the pump delivered.
    What it delivered, holds and dropped is every event of [M], and only a
    full channel drops. *)
Record streamed (H : list Event) (M : list Event) (s : Sub) (D : list Event) : Prop := {
  sm_delivered : su_delivered s = H ++ D;
  sm_order : sublist (D ++ su_buf s) M;
  sm_buffer : (length (su_buf s) ≤ liveBuf)%nat;
  sm_drops : su_open s = true → su_dropped s ≠ [] ∨ D ++ su_buf s = M;
  sm_account : su_open s = true → (D ++ su_buf s) ++ su_dropped s ≡ₚ M;
  sm_full : su_dropped s ≠ [] → (liveBuf < length M)%nat;
  sm_last : su_open s = true → no_terminal D;
  sm_tail : ∃ D0, no_terminal D0 ∧ (D = D0 ∨ ∃ e, D = D0 ++ [e] ∧ isTerminalEvent (e_Type e) = true ∧ su_open s = false)
}.
Lemma own_events_app l l' : own_events (l ++ l') = own_events l ++ own_events l'.
Proof. apply omap_app. Qed.
Lemma streamed_start H : streamed H [] (live_start H) [].
Proof.
  split; cbn; try done; [by rewrite app_nil_r|lia|by right|by constructor|].
  exists []. split; [constructor|by left].
Qed.
Lemma streamed_more H M M' s D :
  streamed H M s D → su_open s = false → streamed H (M ++ M') s D.
Proof.
  intros [Hd Ho Hb Hdr Hac Hf Hl Ht] Hc. split; try done; try (by rewrite Hc).
  - etrans; [exact Ho|]. by apply sublist_inserts_r.
  - intros H0. rewrite length_app. specialize (Hf H0). lia.
Qed.
Lemma streamed_emit H M s D w n :
  streamed H M s D → su_open s = true → n_SnipeID n = questID →
  streamed H (M ++ [n_Event n]) (on_emit n s w).1 D.
Proof.
  intros [Hd Ho Hb Hdr Hac Hf Hl Ht] Hop Hn. unfold on_emit. rewrite Hn, str_eqb_refl. cbn [negb].
  specialize (Hdr Hop). specialize (Hl Hop). specialize (Hac Hop).
  destruct (length (su_buf s) <? liveBuf)%nat eqn:E; cbn [fst].
  - apply Nat.ltb_lt in E. split; cbn [su_delivered su_buf su_dropped su_open]; try done.
    + rewrite app_assoc. by apply sublist_app.
    + rewrite length_app. cbn. lia.
    + intros _. destruct Hdr as [|<-]; [by left|right]. by rewrite app_assoc.
    + intros _. rewrite <- Hac. solve_Permutation.
    + intros H0. rewrite length_app. specialize (Hf H0). lia.
    + exists D. split; [done|by left].
  - apply Nat.ltb_ge in E. split; cbn [su_delivered su_buf su_dropped su_open]; try done.
    + etrans; [exact Ho|]. by apply sublist_inserts_r.
    + intros _. left. by destruct (su_dropped s).
    + intros _. by rewrite app_assoc, Hac.
    + intros _. rewrite length_app. cbn. apply sublist_length in Ho. rewrite length_app in Ho. lia.
    + exists D. split; [done|by left].
Qed.
Lemma streamed_pump H M s D :
  streamed H M s D → su_open s = true → ∃ D', streamed H M (pump s) D'.
Proof.
  intros [Hd Ho Hb Hdr Hac Hf Hl Ht] Hop. unfold pump. destruct (su_buf s) as [|ev rest] eqn:E.
  { exists D. split; try done; rewrite ?E; done. }
  exists (D ++ [ev]). split; cbn [su_delivered su_buf su_dropped su_open].
  - by rewrite Hd, app_assoc.
  - by rewrite <- app_assoc.
  - cbn in Hb. lia.
  - intros _. rewrite <- app_assoc. by apply Hdr.
  - intros _. rewrite <- (app_assoc D). by apply Hac.
  - done.
  - intros Ht'. apply negb_true_iff in Ht'. apply Forall_app. split; [by apply Hl|by constructor].
  - destruct (isTerminalEvent (e_Type ev)) eqn:Et.
    + exists D. split; [by apply Hl|]. right. by exists ev.
    + exists (D ++ [ev]). split; [|by left]. apply Forall_app. split; [by apply Hl|by constructor].
Qed.
Lemma streamed_step H M s D w i :
  streamed H M s D → ∃ D', streamed H (M ++ own_events [i]) (live_step i (s, w)).1 D'.
Proof.
  intros Hs. unfold live_step. destruct (su_open s) eqn:Hop; cbn [negb].
  2: { exists D. by apply streamed_more. }
  destruct i as [n| |].
  - unfold own_events. cbn [omap list_omap own_event]. destruct (str_eqb (n_SnipeID n) questID) eqn:En.
    + exists D. apply streamed_emit; [done|done|by apply str_eqb_true].
    + exists D. unfold on_emit. rewrite En. cbn. by rewrite app_nil_r.
  - cbn. rewrite app_nil_r. by eapply streamed_pump.
  - cbn. rewrite app_nil_r. exists D. destruct Hs as [Hd Ho Hb Hdr Hac Hf Hl Ht].
    split; cbn [su_delivered su_buf su_dropped su_open]; try done.
    destruct Ht as (D0 & H0 & Ht). exists D0. split; [done|]. destruct Ht as [|(e & He & Hte & _)]; [by left|].
    right. by exists e.
Qed.
Lemma streamed_run H l : ∀ M s D w,
  streamed H M s D → ∃ D', streamed H (M ++ own_events l) (live_run l (s, w)).1 D'.
Proof.
  induction l as [|i l IH]; intros M s D w Hs; [exists D; cbn; by rewrite app_nil_r|].
  destruct (streamed_step H M s D w i Hs) as [D' Hs'].
  unfold live_run in *. cbn [fold_left]. destruct (live_step i (s, w)) as [s' w'] eqn:E.
  destruct (IH _ s' D' w' Hs') as [D'' H''].
  exists D''. by rewrite (own_events_app [i] l : own_events (i :: l) = _), app_assoc.
Qed.
(** What the replay hands over: all of the history unless it is stopped. *)
Lemma replay_prefix history : ∀ delivered (w : W) r w',
  replay delivered history w = (r, w') →
  ∃ h, r = Ok h ∧ h.1 `prefix_of` delivered ++ history ∧ (h.2 = false → h.1 = delivered ++ history) ∧
       w_store w' = w_store w.
Proof.
  induction history as [|ev rest IH]; intros delivered w r w'; cbn.
  - intros [= <- <-]. eexists. split; [done|]. cbn. by rewrite app_nil_r.
  - unfold mbind, m_bind, ctx_Err at 1. destruct (en_done env (w_step w)).
    + intros [= <- <-]. eexists. split; [done|]. cbn. split; [by apply prefix_app_r|done].
    + intros H. apply IH in H as (h & -> & Hp & Hf & Hw). exists h. rewrite <- app_assoc in Hp, Hf. by split_all.
Qed.
End Stream.

Section Subscribe.
Context {St : Type} `{!SnipeStore St} {clk : SqliteClock} (senv : SEnv).
Notation W := (World (Stores St TenantDB)).
Notation tenants w := (st_tenants (w_store w)).

(** The events stored for the caller's quest, oldest first. *)
Definition history_of (u q : string) (d : TenantDB) : list Event := map event_of (select_events u q 0 d).
Definition live_quest (u q : string) (d : TenantDB) : Prop :=
  ∃ row, quest_map d !! q = Some row ∧ q_UserID row = u ∧ IsTerminal (q_Status row) = false.
Lemma audit_events e : moves (λ d d', tb_events d' = tb_events d) (sb_WriteAuditEvent e).
Proof.
  cbn. intros fl n d. unfold WriteAuditEvent. do 2 (destruct (is_empty _); [done|]).
  unfold stmt. destruct (fl n); [done|]. unfold insert_audit. by destruct (negb _).
Qed.
Lemma audit_keeps u a t e (w : W) :
  ∃ w', audit senv u a t e w = (Ok tt, w') ∧ tb_events (tenants w') = tb_events (tenants w).
Proof.
  unfold audit, mbind, m_bind, attempt. destruct (tenant_call _ _ w) as [r w'] eqn:E.
  exists w'. split; [done|]. apply tenant_inv in E as (fl & n & d & E & ->). cbn.
  pose proof (audit_events (mkAuditEventInput u None a t (match e with None => true | Some _ => false end)
    (errorCodeFor e) "" "" "") fl (w_sql w) (tenants w)) as H. by rewrite E in H.
Qed.
Lemma list_events_inv u q (w : W) r w' :
  tenant_call senv (sb_ListQuestEvents u q 0) w = (r, w') →
  match r with Ok l => l = history_of u q (tenants w) | Err _ => True end.
Proof.
  intros H. apply tenant_inv in H as (fl & n & d & H & ->). destruct r; [|done]. revert H. cbn.
  unfold adapter_ListQuestEvents, ListQuestEvents. run_sql. destruct (fl _); [done|]. by intros [= <- _ _].
Qed.
Lemma history_same u q d d' : tb_events d' = tb_events d → history_of u q d' = history_of u q d.
Proof. intros H. unfold history_of, select_events. by rewrite H. Qed.

Lemma subscribe_open_inv u q cb (w : W) r w1 :
  quests_wf (tenants w) → subscribe_open senv u q cb w = (r, w1) →
  ∃ o, r = Ok o ∧
    match o with
    | Returned delivered e => delivered `prefix_of` history_of u q (tenants w) ∧
        (delivered ≠ [] → ∃ row, quest_map (tenants w) !! q = Some row ∧ q_UserID row = u)
    | Live delivered => delivered = history_of u q (tenants w) ∧ live_quest u q (tenants w)
    end.
Proof.
  intros Hwf. unfold subscribe_open. destruct (is_empty u).
  { intros [= <- <-]. eexists. split; [done|]. by split; [apply prefix_nil|]. }
  destruct (negb cb).
  { intros [= <- <-]. eexists. split; [done|]. by split; [apply prefix_nil|]. }
  intros H. apply bind_inv in H as [(e & H & _)|(r0 & w2 & H2 & H)]; [by apply attempt_inv in H as (? & _ & [=])|].
  apply attempt_inv in H2 as (r0' & H2 & [= <-]). apply get_inv in H2 as (T2 & _ & _ & Hr); [|done].
  destruct r0 as [row|e].
  2: { destruct (gone e); [injection H as <- <-; eexists; split; [done|]; by split; [apply prefix_nil|]|].
       destruct (audit_keeps u actionQuestSubscribe q (Some (mapStoreNotFound e)) w2) as (w3 & E3 & _).
       unfold mbind, m_bind in H. rewrite E3 in H. injection H as <- <-. eexists. split; [done|].
       by split; [apply prefix_nil|]. }
  destruct Hr as [Hrow Hu].
  destruct (audit_keeps u actionQuestSubscribe q None w2) as (w3 & E3 & T3).
  unfold mbind at 1, m_bind at 1 in H. rewrite E3 in H. cbv beta iota in H.
  apply bind_inv in H as [(e & H & _)|(h & w4 & H4 & H)]; [by apply attempt_inv in H as (? & _ & [=])|].
  apply attempt_inv in H4 as (h' & H4 & [= <-]). apply list_events_inv in H4.
  destruct h as [history|e].
  2: { injection H as <- <-. eexists. split; [done|]. by split; [apply prefix_nil|]. }
  rewrite (history_same u q (tenants w) (tenants w3)) in H4 by by rewrite T3, T2. subst history.
  apply bind_inv in H as [(e & H & ->)|([d stopped] & w5 & H5 & [= <- <-])].
  { apply replay_prefix in H as (? & [=] & _). }
  apply replay_prefix in H5 as (h & [= <-] & Hp & Hf & _). cbn [fst snd app] in Hp, Hf.
  eexists. split; [done|]. destruct stopped, (IsTerminal (q_Status row)) eqn:Et; cbn [orb];
    try (split; [exact Hp|by exists row]). split; [by apply Hf|]. by exists row.
Qed.

(** C12. A subscriber gets the quest's own story.  Only the owner of a
    quest gets any event.  A call that reaches the live phase has delivered
    the stored history as it is, oldest first, of a quest that is not over:
    what the table holds, terminal events and repeated ones included
    ([subscribers_write_twice]).  From then on, whatever the interleaving of
    the engine's notifications, the pump and a cancellation, what is
    delivered after the history is, with what the channel still holds, a
    subsequence of that quest's notifications in their order, never one of
    another quest.  Missing from it is exactly what was dropped: nothing as
    long as no more than the channel's 64 have come, and events that found
    the channel full after that.  A terminal event of the live phase ends the
    call, and nothing follows it.  A call that returns earlier has delivered
    a prefix of the history. *)
Theorem SubscribeQuest_stream u q cb (w : W) r w1 :
  quests_wf (tenants w) → subscribe_open senv u q cb w = (r, w1) →
  let H := history_of u q (tenants w) in
  ∃ o, r = Ok o ∧
    match o with
    | Returned delivered _ => delivered `prefix_of` H ∧
        (delivered ≠ [] → ∃ row, quest_map (tenants w) !! q = Some row ∧ q_UserID row = u)
    | Live delivered => delivered = H ∧ live_quest u q (tenants w) ∧
        ∀ l s w', live_run senv u q l (live_start delivered, w1) = (s, w') →
          ∃ D, streamed H (own_events q l) s D ∧
               (su_open s = true → (length (own_events q l) ≤ liveBuf)%nat → D ++ su_buf s = own_events q l)
    end.
Proof.
  intros Hwf E H. apply subscribe_open_inv in E as (o & -> & Ho); [|done]. exists o. split; [done|].
  destruct o as [d e|d]; [done|]. destruct Ho as [-> Hq]. split; [done|]. split; [done|].
  intros l s w' El. destruct (streamed_run senv u q H l [] (live_start H) [] w1 (streamed_start H)) as [D HD].
  unfold H in *. rewrite El in HD. cbn [fst app] in HD. exists D. split; [exact HD|].
  intros Hop Hlen. destruct HD as [_ _ _ Hdr _ Hf _ _]. destruct (Hdr Hop) as [Hd|Hd]; [|done].
  specialize (Hf Hd). lia.
Qed.
End Subscribe.

(** ** A subscriber on Ann's quest *)

#[local] Existing Instance store_laws.
Definition note (id ty : string) : Notification :=
  mkNotification id (Some StatusSubmitted) StatusScheduled (mkEvent ty (to_utc drop_ny) []).
Definition live_inputs : list SubInput :=
  [Emitted (note "q_1" EventScheduled); Emitted (note "q_9" EventFailed); Pumped;
   Emitted (note "q_1" EventBooked); Pumped; Emitted (note "q_1" EventFailed); Pumped].
Definition opened_world : World (Stores DB TenantDB) := (subscribe_open sample_senv "usr_1" "q_1" true quest_world).2.
Definition live_end : Sub * World (Stores DB TenantDB) :=
  live_run sample_senv "usr_1" "q_1" live_inputs (live_start [], opened_world).
Lemma SubscribeQuest_stream_witness :
  ∃ D, streamed [] (own_events "q_1" live_inputs) live_end.1 D ∧
       map e_Type (su_delivered live_end.1) = [EventScheduled; EventBooked].
Proof.
  assert (E : subscribe_open sample_senv "usr_1" "q_1" true quest_world = (Ok (Live []), opened_world))
    by (vm_compute; reflexivity).
  pose proof (SubscribeQuest_stream _ _ _ _ quest_world _ _ with_one_quest_wf E) as (o & Eo & Ho).
  injection Eo as <-. destruct Ho as (EH & _ & Ho).
  assert (El : live_run sample_senv "usr_1" "q_1" live_inputs (live_start [], opened_world) = (live_end.1, live_end.2))
    by (apply surjective_pairing).
  destruct (Ho _ _ _ El) as (D & HD & _). rewrite <- EH in HD. exists D. split; [exact HD|vm_compute; reflexivity].
Defined.
(** Every open subscription persists the event it sees: two of them store it
    twice. *)
Lemma subscribers_write_twice :
  let once := on_emit sample_senv "usr_1" "q_1" (note "q_1" EventScheduled) (live_start []) opened_world in
  let twice := on_emit sample_senv "usr_1" "q_1" (note "q_1" EventScheduled) (live_start []) once.2 in
  map qe_type (tb_events (st_tenants (w_store twice.2))) = [EventScheduled; EventScheduled].
Proof. vm_compute. reflexivity. Qed.
