(* ===== verification/AuditTrail.v ===== *)
(** * Every verb leaves its audit row

    What [audit.go] writes for each verb of the service, over the multi-user
    store. *)

From S2P Require Import Prelude GoTime GoFormat Millis Types Status Slots Drop Sha256 Json Hash Codec Strategy Plan.
From S2P Require Import Text Url Goal Sql Sqlite SqliteStore Tenant Quests QuestsProofs Idempotency Accounts Tokens.
From S2P Require Import Engine EngineProofs Resolver Service ServiceSteps Adapter Replay ServiceProofs Stream.

#[local] Existing Instances m_ret m_bind.
Create HintDb trail.

(** ** The verbs *)

Inductive Verb :=
| VResolve (q : option VenueQuery)
| VPlan (g : Goal)
| VCreate (g : Goal) (opts : CreateOpts)
| VGet (q : string)
| VList (f : QuestListFilter)
| VCancel (q : string) (opts : CancelOpts)
| VLogin (email password : string)
| VListAccounts
| VIssue (label scope : string)
| VRevoke (id : string)
| VListTokens
| VInvite (email role : string)
| VListUsers
| VSubscribe (q : string) (cb : bool) (live : list SubInput)
| VAccept (token email password : string).
Definition verb_action (v : Verb) : string :=
  match v with
  | VResolve _ => actionVenueResolve
  | VPlan _ => actionQuestPlan
  | VCreate _ _ => actionQuestCreate
  | VGet _ => actionQuestGet
  | VList _ => actionQuestList
  | VCancel _ _ => actionQuestCancel
  | VLogin _ _ => actionAccountLogin
  | VListAccounts => actionAccountList
  | VIssue _ _ => actionTokenIssue
  | VRevoke _ => actionTokenRevoke
  | VListTokens => actionTokenList
  | VInvite _ _ => actionUserInvite
  | VListUsers => actionUserList
  | VSubscribe _ _ _ => actionQuestSubscribe
  | VAccept _ _ _ => ""
  end.
(** Accepting an invitation writes no row, nor does a subscription without a
    callback. *)
Definition leaves_row (v : Verb) : bool :=
  match v with VSubscribe _ cb _ => cb | VAccept _ _ _ => false | _ => true end.
(** Only creating and reading a quest plan one on the way. *)
Definition plans_inside (v : Verb) : bool := match v with VCreate _ _ | VGet _ => true | _ => false end.

Section Trail.
Context {St : Type} `{!SnipeStore St} {clk : SqliteClock} (senv : SEnv) (u : string).
Notation W := (World (Stores St TenantDB)).
Notation SM := (@M (Stores St TenantDB)).
Notation tenants w := (st_tenants (w_store w)).

(** The error a verb returns. *)
Definition returned {A} (m : SM A) : SM (option error) := λ w, let '(r, w') := m w in (Ok (error_of r), w').
Definition returned_id (m : SM outcome_id) : SM (option error) := λ w,
  let '(r, w') := m w in (Ok (match r with Ok (_, e) => e | Err e => Some e end), w').
(** A subscription: the opening, then whatever happens while it lasts, which
    ends without an error. *)
Definition subscription (q : string) (cb : bool) (l : list SubInput) : SM (option error) := λ w,
  let '(r, w1) := subscribe_open senv u q cb w in
  match r with
  | Ok (Live delivered) => (Ok None, (live_run senv u q l (live_start delivered, w1)).2)
  | Ok (Returned _ e) => (Ok e, w1)
  | Err e => (Ok (Some e), w1)
  end.
Definition run_verb (v : Verb) : SM (option error) :=
  match v with
  | VResolve q => returned (ResolveVenue senv u q)
  | VPlan g => returned (PlanQuest senv u g)
  | VCreate g opts => returned_id (CreateQuest senv u g opts)
  | VGet q => returned (GetQuest senv u q)
  | VList f => returned (ListQuests senv u f)
  | VCancel q opts => returned_id (CancelQuest senv u q opts)
  | VLogin e p => returned (Login senv u e p)
  | VListAccounts => returned (ListAccounts senv u)
  | VIssue l s => returned (IssueToken senv u l s)
  | VRevoke id => returned (RevokeToken senv u id)
  | VListTokens => returned (ListTokens senv u)
  | VInvite e r => returned (InviteUser senv u e r)
  | VListUsers => returned (ListUsers senv u)
  | VSubscribe q cb l => subscription q cb l
  | VAccept t e p => returned (AcceptInvite t e p)
  end.

(** ** What is written on the way *)

(** The users stay, and the log gains rows of this user that satisfy [P]. *)
Definition logs (P : AuditRec → Prop) (d d' : TenantDB) : Prop :=
  tb_users d' = tb_users d ∧
  ∃ rows, tb_audit d' = tb_audit d ++ rows ∧ Forall (λ r, au_user r = u ∧ P r) rows.
#[local] Instance logs_preorder P : PreOrder (logs P).
Proof.
  split.
  - intros d. split; [done|]. exists []. by rewrite app_nil_r.
  - intros d d' d'' [U1 (r1 & E1 & F1)] [U2 (r2 & E2 & F2)]. split; [congruence|].
    exists (r1 ++ r2). rewrite E2, E1, app_assoc. split; [done|by apply Forall_app].
Qed.
Lemma logs_same P d d' : tb_users d' = tb_users d → tb_audit d' = tb_audit d → logs P d d'.
Proof. intros H1 H2. split; [done|]. exists []. by rewrite app_nil_r. Qed.
Definition logs_w (P : AuditRec → Prop) (w w' : W) : Prop := logs P (tenants w) (tenants w').
#[local] Instance logs_w_preorder P : PreOrder (logs_w P).
Proof. constructor; [intros w; unfold logs_w; reflexivity|]. intros w1 w2 w3 H1 H2. unfold logs_w in *. by etrans. Qed.
Lemma logs_step P env (w : W) b n :
  logs P (tenants w) b → logs_w P w (set_store (mkStores (st_snipes (w_store w)) b) n (tick env w)).
Proof. done. Qed.
Definition nothing_logged : AuditRec → Prop := λ _, False.
Definition plan_logged : AuditRec → Prop := λ r, au_action r = actionQuestPlan.
Definition inside (v : Verb) : AuditRec → Prop := if plans_inside v then plan_logged else nothing_logged.

(** No backend call but the audit write itself touches users or log. *)
Ltac log_step :=
  first [ by apply moves_query | by apply moves_of | by apply moves_ret
        | apply moves_fold | apply moves_ctx | apply moves_tx; [reflexivity|]
        | apply moves_bind; [by intros ? ? ? ? ?; etrans| |intros ?]
        | apply moves_stmt; [reflexivity|intros ? ? _]
        | case_goal ].
Ltac log_same := by apply logs_same.
Section Calls.
Context (P : AuditRec → Prop).
Lemma log_event v q e : moves (logs P) (sb_WriteQuestEvent v q e).
Proof. cbn. unfold Quests.WriteQuestEvent. repeat log_step. unfold insert_quest_event. case_goal; log_same. Qed.
Lemma log_create q : moves (logs P) (sb_CreateQuest q).
Proof. cbn. unfold Quests.CreateQuest. repeat log_step. unfold insert_quest. repeat case_goal; log_same. Qed.
Lemma log_get q : moves (logs P) (sb_GetQuest u q).
Proof. cbn. unfold Quests.GetQuest. repeat log_step. Qed.
Lemma log_list f : moves (logs P) (sb_ListQuests u f).
Proof. cbn. unfold Quests.ListQuests. repeat log_step. Qed.
Lemma log_update q st c t : moves (logs P) (sb_UpdateQuestStatus u q st c t).
Proof. cbn. unfold Quests.UpdateQuestStatus. repeat log_step. log_same. Qed.
Lemma log_accounts v : moves (logs P) (sb_ListAccounts v).
Proof. cbn. unfold ListAccountsForUser. repeat log_step. Qed.
Lemma log_account v e : moves (logs P) (sb_GetAccountByEmail v e).
Proof. cbn. unfold GetAccountByEmail. repeat log_step. Qed.
Lemma log_bind e : moves (logs P) (sb_BindAccountToUser u e).
Proof.
  cbn. unfold adapter_BindAccountToUser, BindLegacyAccountToUser. repeat log_step.
  unfold claim. repeat case_goal; log_same.
Qed.
Lemma log_events q l : moves (logs P) (sb_ListQuestEvents u q l).
Proof. cbn. unfold adapter_ListQuestEvents, ListQuestEvents. repeat log_step. Qed.
Lemma log_lookup sc k p t : moves (logs P) (sb_GetIdempotencyResult u sc k p t).
Proof. cbn. unfold GetIdempotencyResult. repeat log_step. Qed.
Lemma log_put sc k p tg e ttl t : moves (logs P) (sb_PutIdempotencyResult u sc k p tg e ttl t).
Proof.
  cbn. unfold PutIdempotencyResult. repeat log_step. unfold upsert_idem. repeat case_goal; log_same.
Qed.
Lemma log_insert_token t : moves (logs P) (sb_InsertToken t).
Proof.
  cbn. unfold adapter_InsertToken, InsertToken. repeat log_step. unfold insert_token. repeat case_goal; log_same.
Qed.
Lemma log_tokens : moves (logs P) (sb_ListTokensForUser u).
Proof. cbn. unfold adapter_ListTokensForUser, ListTokensForUser. repeat log_step. Qed.
Lemma log_revoke id t : moves (logs P) (sb_RevokeToken u id t).
Proof. cbn. unfold adapter_RevokeToken, Tokens.RevokeToken. repeat log_step. log_same. Qed.
End Calls.

(** ** The verb's own row *)

Hypothesis Hclean : undisturbed (sv_env senv).
Hypothesis Hu : u ≠ "".

(** The row of a verb that returned [e]. *)
Definition describes (action : string) (e : option error) (r : AuditRec) : Prop :=
  au_user r = u ∧ au_action r = action ∧ au_ok r = (match e with None => 1 | Some _ => 0 end) ∧
  au_code r = nullable (errorCodeFor e).
(** [m] logs rows that satisfy [P], then its own. *)
Definition trail {A} (P : AuditRec → Prop) (action : string) (err : res A → option error) (m : SM A) : Prop :=
  ∀ w, has_user u (tenants w) = true →
  ∃ rows row, tb_audit (tenants (m w).2) = tb_audit (tenants w) ++ rows ++ [row] ∧
    describes action (err (m w).1) row ∧ Forall (λ r, au_user r = u ∧ P r) rows.
Lemma audit_row action t e (w : W) :
  action ≠ "" → has_user u (tenants w) = true →
  ∃ w' row, audit senv u action t e w = (Ok tt, w') ∧
    tb_audit (tenants w') = tb_audit (tenants w) ++ [row] ∧ describes action e row.
Proof.
  intros Ha Hh. unfold audit, mbind, m_bind, attempt. rewrite tenant_call_clean by done.
  cbn [sb_WriteAuditEvent serviceStoreAdapter adapter_WriteAuditEvent].
  unfold WriteAuditEvent, is_empty. cbn [ai_UserID ai_Action]. rewrite !str_eqb_neq by done.
  unfold stmt. rewrite (proj1 Hclean). unfold insert_audit. cbn [ai_UserID ai_TargetUserID]. rewrite Hh.
  cbn [andb negb]. eexists _, _. split; [reflexivity|]. split; [reflexivity|].
  unfold describes. cbn. by destruct e.
Qed.
Lemma logs_user P d d' : logs P d d' → has_user u d = true → has_user u d' = true.
Proof. intros [E _] H. unfold has_user in *. by rewrite E. Qed.

(** A deferred audit row. *)
Lemma trail_audited {A} P action t (m : SM A) :
  action ≠ "" → steady (logs_w P) m → trail P action error_of (audited senv u action t m).
Proof.
  intros Ha Hm w Hh. unfold audited. specialize (Hm w). destruct (m w) as [r w1]. cbn [snd fst] in *.
  destruct (audit_row action (t r) (error_of r) w1 Ha (logs_user _ _ _ Hm Hh)) as (w2 & row & E & Er & Hd).
  rewrite E. cbn [snd]. destruct Hm as [_ (rows & El & Hrows)]. exists rows, row.
  rewrite Er, El, <- app_assoc. done.
Qed.
Definition err_of (r : res outcome_id) : option error :=
  match r with Ok (_, e) => e | Err e => Some e end.
Lemma trail_audited_id P action t (m : SM outcome_id) :
  action ≠ "" → steady (logs_w P) m → trail P action err_of (audited_id senv u action t m).
Proof.
  intros Ha Hm w Hh. unfold audited_id. specialize (Hm w). destruct (m w) as [r w1]. cbn [snd fst] in *.
  destruct Hm as [Hus (rows & El & Hrows)]. assert (Hh1 : has_user u (tenants w1) = true) by (unfold has_user; by rewrite Hus).
  destruct r as [[q e]|e].
  - destruct (audit_row action (t q) e w1 Ha Hh1) as (w2 & row & E & Er & Hd). rewrite E. exists rows, row.
    cbn [fst snd]. rewrite Er, El, <- app_assoc. done.
  - destruct (audit_row action (t "") (Some e) w1 Ha Hh1) as (w2 & row & E & Er & Hd). rewrite E. exists rows, row.
    cbn [fst snd]. rewrite Er, El, <- app_assoc. done.
Qed.
(** A row written just before the return. *)
Lemma trail_return {A} P action t e (r : res A) :
  action ≠ "" → error_of r = e → trail P action error_of (_ ← audit senv u action t e; ((λ w, (r, w)) : SM A)).
Proof.
  intros Ha He w Hh. destruct (audit_row action t e w Ha Hh) as (w2 & row & E & Er & Hd).
  unfold mbind, m_bind. rewrite E. cbn [fst snd]. rewrite He, Er. exists [], row. by split_all.
Qed.
Lemma trail_after {A C} P action (m : SM A) (f : A → SM C) :
  (∀ w, ∃ a, (m w).1 = Ok a) → steady (logs_w P) m → (∀ a, trail P action error_of (f a)) →
  trail P action error_of (m ≫= f).
Proof.
  intros Hok Hm Hf w Hh. unfold mbind, m_bind. specialize (Hok w). specialize (Hm w).
  destruct (m w) as [r w1]. cbn [fst snd] in *. destruct Hok as [a ->].
  destruct (Hf a w1 (logs_user _ _ _ Hm Hh)) as (rows & row & E & Hd & Hrows).
  destruct Hm as [_ (rows1 & E1 & H1)]. exists (rows1 ++ rows), row. rewrite E, E1, <- !app_assoc.
  split; [done|]. split; [done|]. by apply Forall_app.
Qed.

(** ** The bodies *)

Notation calm P := (steady (logs_w P)).
#[local] Hint Resolve log_event log_create log_get log_list log_update log_accounts log_account log_bind log_events
  log_lookup log_put log_insert_token log_tokens log_revoke : trail.
Ltac calm_go :=
  repeat first
    [ apply (steady_ret _) | apply (steady_fail _) | apply (steady_pure _)
    | apply (steady_tenant _ _ (logs_step _)); solve [auto with trail]
    | apply (steady_outside _ _ (logs_step _)) | apply (steady_now _ _ (logs_step _))
    | apply (steady_event _ _ (logs_step _)); solve [auto with trail]
    | apply (steady_bind _); [|intros ?]
    | apply steady_attempt | apply steady_wrapped
    | match goal with |- steady _ (match ?x with _ => _ end) => destruct x end ].
Lemma calm_login e p : calm nothing_logged (login_body senv u e p).
Proof. unfold login_body, reject. calm_go. Qed.
Lemma calm_issue l s : calm nothing_logged (issue_body senv u l s).
Proof. unfold issue_body, RequireOperatorScope, reject. calm_go. Qed.
Lemma calm_cancel P q opts n : calm P (cancel_work senv u q opts n).
Proof. unfold cancel_work. calm_go. Qed.
Lemma log_audit_plan e :
  ai_UserID e = u ∧ ai_Action e = actionQuestPlan → moves (logs plan_logged) (sb_WriteAuditEvent e).
Proof.
  intros [Hue Hae]. cbn. intros fl n d. unfold adapter_WriteAuditEvent, WriteAuditEvent.
  do 2 (destruct (is_empty _); [reflexivity|]). unfold stmt. destruct (fl n); [reflexivity|].
  unfold insert_audit. destruct (negb _); [reflexivity|]. split; [done|]. eexists [_]. split; [reflexivity|].
  by repeat constructor.
Qed.
Lemma calm_plan g : calm plan_logged (PlanQuest senv u g).
Proof.
  apply (steady_plan _ _ (λ v a, v = u ∧ a = actionQuestPlan) (logs_step _)); [apply log_audit_plan|done].
Qed.
Lemma calm_submit P id i : calm P (Submit (sv_env senv) id i : SM SnipeState).
Proof.
  intros w. destruct (Submit (sv_env senv) id i w) as [r w'] eqn:E. apply submit_inv in E as [T _].
  cbn [snd]. unfold logs_w. rewrite T. reflexivity.
Qed.
Lemma calm_create g opts n : calm plan_logged (create_work senv u g opts n).
Proof.
  unfold create_work. apply (steady_bind _); [apply calm_plan|intros plan].
  apply (steady_bind _); [apply (steady_check _)|intros _].
  apply (steady_bind _).
  { apply (steady_account _ _ (logs_step _)); auto with trail. }
  intros acct. apply (steady_bind _); [apply steady_wrapped, (steady_newid _ _ (logs_step _))|intros id].
  apply (steady_bind _); [apply steady_wrapped, (steady_tenant _ _ (logs_step _)), log_create|intros _].
  apply (steady_bind _); [apply steady_attempt, steady_wrapped, calm_submit|intros []]; calm_go.
Qed.
Lemma calm_keyed P verb sc key p n c oe work :
  calm P work → calm P (keyed senv verb u sc key p n c oe work).
Proof.
  intros Hw. unfold keyed. apply (steady_bind _).
  { apply (steady_precheck _ _ (logs_step _)). auto with trail. }
  intros [a|]; [apply (steady_ret _)|]. apply (steady_bind _); [by apply steady_attempt|intros r].
  apply (steady_bind _); [|intros _; apply (steady_ret _)].
  apply (steady_record _ _ (logs_step _)). auto with trail.
Qed.
Lemma calm_get q : calm plan_logged
  (r ← attempt (tenant_call senv (sb_GetQuest u q));
   match r with
   | Err e => fail (mapStoreNotFound e)
   | Ok row =>
       goal ← wrapped "GetQuest decode goal: " (λ w, (unmarshalGoalJSON (q_GoalJSON row), w));
       events ← wrapped "GetQuest events: " (tenant_call senv (sb_ListQuestEvents u q defaultEventLimit));
       plan ← attempt (PlanQuest senv u goal);
       mret (mkQuestState (summaryFromRow row) goal (match plan with Ok p => Some p | Err _ => None end) events)
   end : SM QuestState).
Proof. calm_go. apply calm_plan. Qed.
(** A query that may fail, audited with its error or followed by an audited
    return. *)
Lemma trail_outside {A C} (m : SM A) action (f : res A → SM C) P :
  steady (logs_w P) m → (∀ r, trail P action error_of (f r)) →
  trail P action error_of (r ← attempt m; f r).
Proof.
  intros Hm Hf. apply trail_after; [|by apply steady_attempt|done].
  intros w. unfold attempt. destruct (m w) as [r w']. by eexists.
Qed.
Lemma trail_resolve q : trail nothing_logged actionVenueResolve error_of (ResolveVenue senv u q).
Proof.
  unfold ResolveVenue, is_empty. rewrite str_eqb_neq by done.
  apply trail_outside; [apply (steady_outside _ _ (logs_step _))|]. intros [v|e]; by apply trail_return.
Qed.
Lemma trail_plan g : trail nothing_logged actionQuestPlan error_of (PlanQuest senv u g).
Proof.
  unfold PlanQuest, is_empty. rewrite str_eqb_neq by done.
  apply trail_after; [intros w; by eexists|apply (steady_now _ _ (logs_step _))|intros n].
  case_match; [by apply trail_return|].
  apply trail_outside; [apply (steady_outside _ _ (logs_step _))|]. intros [v|e]; [|by apply trail_return].
  apply trail_after; [| |intros snap; case_match; by apply trail_return].
  - intros w. unfold calendar_snapshot. case_match; [|by eexists].
    unfold mbind, m_bind, attempt, outside. by eexists.
  - unfold calendar_snapshot. calm_go.
Qed.
(** Opening a subscription: the row is written once the owner is known, and
    what follows it never fails. *)
Definition opening_error (r : res Opened) : option error :=
  match r with Ok (Live _) => None | Ok (Returned _ e) => e | Err e => Some e end.
Lemma get_answers q (w : W) :
  ∃ r w', attempt (tenant_call senv (sb_GetQuest u q)) w = (Ok r, w') ∧
    match r with Err e => gone e = false | Ok _ => True end.
Proof.
  unfold attempt. rewrite tenant_call_clean by done. cbn [sb_GetQuest serviceStoreAdapter adapter_GetQuest].
  unfold fold_not_found, Quests.GetQuest. run_sql. rewrite (proj1 Hclean).
  destruct (find _ _) as [r|]; cbn [scanQuestRow]; [|do 2 eexists; split; [done|by vm_compute]].
  destruct (parseStatusDB (qr_status r)) as [st|e] eqn:Es; do 2 eexists; (split; [done|]); [done|].
  unfold parseStatusDB in Es. repeat case_match; simplify_eq; by vm_compute.
Qed.
Lemma replay_calm P delivered history : calm P (replay senv delivered history).
Proof.
  revert delivered. induction history as [|ev rest IH]; intros delivered; cbn; [apply (steady_ret _)|].
  apply (steady_bind _); [intros w; unfold logs_w; reflexivity|]. intros []; [apply (steady_ret _)|apply IH].
Qed.
Lemma trail_open q : trail nothing_logged actionQuestSubscribe opening_error (subscribe_open senv u q true).
Proof.
  intros w Hh. enough (H : ∃ r w' own, subscribe_open senv u q true w = (r, w') ∧
    tb_audit (tenants w') = tb_audit (tenants w) ++ [own] ∧ describes actionQuestSubscribe (opening_error r) own).
  { destruct H as (r & w' & own & -> & El & Hd). exists [], own. by split_all. }
  unfold subscribe_open, is_empty. rewrite str_eqb_neq by done. cbn [negb].
  destruct (get_answers q w) as (r & w1 & E & Hr). unfold mbind at 1, m_bind at 1. rewrite E.
  assert (H1 : logs_w nothing_logged w w1).
  { pose proof (steady_attempt _ _ (steady_tenant _ _ (logs_step nothing_logged) senv _ (log_get _ q)) w) as H.
    by rewrite E in H. }
  assert (Hh1 : has_user u (tenants w1) = true) by by eapply logs_user.
  destruct H1 as [_ (rows & El & Hrows)]. assert (rows = []) as -> by (destruct Hrows as [|? ? [_ []]]; done).
  rewrite app_nil_r in El. destruct r as [row|e].
  2: { rewrite Hr. destruct (audit_row actionQuestSubscribe q (Some (mapStoreNotFound e)) w1 ltac:(done) Hh1)
         as (w2 & own & E2 & Er & Hd). unfold mbind, m_bind. rewrite E2.
       eexists _, _, own. split; [reflexivity|]. by rewrite Er, El. }
  destruct (audit_row actionQuestSubscribe q None w1 ltac:(done) Hh1) as (w2 & own & E2 & Er & Hd).
  unfold mbind at 1, m_bind at 1. rewrite E2. cbv beta iota.
  set (rest := h ← attempt _; _).
  assert (Hc : steady (logs_w nothing_logged) rest ∧ opening_error (rest w2).1 = None).
  { split; [unfold rest; calm_go; apply replay_calm|].
    unfold rest, mbind, m_bind, attempt. rewrite tenant_call_clean by done.
    cbn [sb_ListQuestEvents serviceStoreAdapter adapter_ListQuestEvents].
    unfold adapter_ListQuestEvents, ListQuestEvents. run_sql. rewrite (proj1 Hclean).
    assert (Hp : ∀ h D (w : W), ∃ w', replay senv D h w = (Ok (D ++ h, false), w')).
    { intros h. induction h as [|ev h IH]; intros D v; cbn; [eexists; by rewrite app_nil_r|].
      unfold mbind, m_bind, ctx_Err. rewrite (proj2 Hclean). destruct (IH (D ++ [ev]) (tick (sv_env senv) v)) as [v' Ev].
      exists v'. by rewrite Ev, <- app_assoc. }
    match goal with |- context [replay senv [] ?h ?v] => destruct (Hp h [] v) as [w' ->] end.
    by destruct (IsTerminal _). }
  destruct Hc as [Hc He]. specialize (Hc w2). destruct (rest w2) as [r w3]. cbn [fst snd] in *.
  exists r, w3, own. split; [done|].
  destruct Hc as [_ (more & Em & Hm)]. assert (more = []) as -> by (destruct Hm as [|? ? [_ []]]; done).
  split; [by rewrite Em, Er, El, app_nil_r|]. by rewrite He.
Qed.
Lemma live_calm q l s (w : W) : logs_w nothing_logged w (live_run senv u q l (s, w)).2.
Proof.
  unfold live_run. revert s w. induction l as [|i l IH]; intros s w; [unfold logs_w; reflexivity|].
  cbn [fold_left]. destruct (live_step senv u q i (s, w)) as [s1 w1] eqn:E. etrans; [|apply IH].
  unfold live_step in E. destruct (negb _); [injection E as _ <-; unfold logs_w; reflexivity|].
  destruct i as [n| |]; try (injection E as _ <-; unfold logs_w; reflexivity).
  unfold on_emit in E. destruct (negb _); [injection E as _ <-; unfold logs_w; reflexivity|].
  assert (H : logs_w nothing_logged w (writeQuestEvent senv u q (n_Event n) w).2)
    by (apply (steady_event _ _ (logs_step _)); auto with trail).
  destruct (_ <? _)%nat; by injection E as _ <-.
Qed.

(** ** The theorem *)

Lemma trail_returned {A} P action (m : SM A) (w : W) :
  trail P action error_of m → has_user u (tenants w) = true →
  ∃ e w' rows row, returned m w = (Ok e, w') ∧ tb_audit (tenants w') = tb_audit (tenants w) ++ rows ++ [row] ∧
    describes action e row ∧ Forall (λ r, au_user r = u ∧ P r) rows.
Proof.
  intros Hm Hh. destruct (Hm w Hh) as (rows & row & H). unfold returned. destruct (m w) as [r w'].
  eexists _, _, rows, row. split; [reflexivity|]. exact H.
Qed.
Lemma trail_returned_id P action (m : SM outcome_id) (w : W) :
  trail P action err_of m → has_user u (tenants w) = true →
  ∃ e w' rows row, returned_id m w = (Ok e, w') ∧ tb_audit (tenants w') = tb_audit (tenants w) ++ rows ++ [row] ∧
    describes action e row ∧ Forall (λ r, au_user r = u ∧ P r) rows.
Proof.
  intros Hm Hh. destruct (Hm w Hh) as (rows & row & H). unfold returned_id. destruct (m w) as [r w'].
  eexists _, _, rows, row. split; [reflexivity|]. exact H.
Qed.
Ltac trail_verb :=
  unfold CreateQuest, CancelQuest, GetQuest, ListQuests, Login, ListAccounts, IssueToken, RevokeToken, ListTokens,
    RequireOperatorScope, reject, is_empty;
  rewrite ?(str_eqb_neq u "") by done;
  first [apply trail_audited | apply trail_audited_id]; [done|].
(** C15. Every verb leaves exactly one row of its own in the audit log: with a
    database that answers, a context that lasts and a user that exists,
    whatever the verb does and returns, the log afterwards is the log before,
    followed by the row of the verb - the user, the action, whether it
    succeeded and the code of the error it returned.  Two calls leave none,
    and both are refused: accepting an invitation, which is not implemented,
    and a subscription without a callback.  A subscription writes its row
    when it opens and none while it lasts.  Only creating and reading a quest
    add more, and then only rows of the plan they compute on the way. *)
Theorem audit_trail (v : Verb) (w : W) :
  has_user u (tenants w) = true →
  ∃ e w' rows own, run_verb v w = (Ok e, w') ∧ tb_audit (tenants w') = tb_audit (tenants w) ++ rows ++ own ∧
    (if leaves_row v then ∃ row, own = [row] ∧ describes (verb_action v) e row else own = [] ∧ e ≠ None) ∧
    Forall (λ r, au_user r = u ∧ if plans_inside v then au_action r = actionQuestPlan else False) rows.
Proof.
  intros Hh. destruct (leaves_row v) eqn:Hv.
  2: { destruct v as [| | | | | | | | | | | | |q [] l|]; try discriminate Hv.
       - exists (Some (invalid "SubscribeQuest" "callback is required")), w, [], []. unfold run_verb, subscription.
         unfold subscribe_open, is_empty. rewrite str_eqb_neq by done. by rewrite app_nil_r.
       - exists (Some Service.ErrNotImplemented), w, [], []. by rewrite app_nil_r. }
  enough (H : ∃ e w' rows row, run_verb v w = (Ok e, w') ∧
    tb_audit (tenants w') = tb_audit (tenants w) ++ rows ++ [row] ∧ describes (verb_action v) e row ∧
    Forall (λ r, au_user r = u ∧ inside v r) rows).
  { destruct H as (e & w' & rows & row & E & El & Hd & Hr). exists e, w', rows, [row]. split; [done|]. split; [done|].
    split; [by exists row|]. unfold inside in Hr. by destruct v. }
  destruct v; try discriminate Hv; cbn [run_verb verb_action];
    try (apply trail_returned || apply trail_returned_id); try done; unfold inside; cbn [plans_inside].
  - apply trail_resolve.
  - apply trail_plan.
  - trail_verb. apply steady_bind; [apply _|apply (steady_now _ _ (logs_step _))|intros n].
    apply calm_keyed, calm_create.
  - trail_verb. apply calm_get.
  - trail_verb. calm_go.
  - trail_verb. apply steady_bind; [apply _|apply (steady_now _ _ (logs_step _))|intros n].
    apply calm_keyed, calm_cancel.
  - trail_verb. apply calm_login.
  - trail_verb. calm_go.
  - trail_verb. apply calm_issue.
  - trail_verb. calm_go.
  - trail_verb. calm_go.
  - by apply trail_return.
  - by apply trail_return.
  - cbn in Hv. subst cb. destruct (trail_open q w Hh) as (rows & row & El & Hd & Hr). unfold subscription.
    destruct (subscribe_open senv u q true w) as [[[D e|D]|e] w1]; cbn [fst snd opening_error] in *;
      eexists _, _, rows, row; (split; [reflexivity|]); [by split_all| |by split_all].
    destruct (live_calm q live (live_start D) w1) as [_ (more & Em & Hm)].
    assert (more = []) as -> by (destruct Hm as [|? ? [_ []]]; done). rewrite Em, app_nil_r. by split_all.
Qed.
End Trail.

(** ** A log with one quest canceled *)

#[local] Existing Instance store_laws.

Lemma audit_trail_witness :
  ∃ row, tb_audit (st_tenants (w_store canceled_world)) = tb_audit with_one_quest ++ [row] ∧
    au_user row = "usr_1" ∧ au_action row = "quest.cancel" ∧ au_ok row = 1.
Proof.
  assert (E : run_verb sample_senv "usr_1" (VCancel "q_1" (mkCancelOpts "no longer needed" None)) quest_world
              = (Ok None, canceled_world)) by (vm_compute; reflexivity).
  assert (C : undisturbed (sv_env sample_senv)) by (split; [intros ?; reflexivity|intros ?; reflexivity]).
  assert (N : "usr_1" ≠ "") by done.
  assert (U : has_user "usr_1" (st_tenants (w_store quest_world)) = true) by (vm_compute; reflexivity).
  destruct (audit_trail sample_senv "usr_1" C N (VCancel "q_1" (mkCancelOpts "no longer needed" None)) quest_world U)
    as (e & w' & rows & own & Er & Hl & (row & -> & Hu & Ha & Ho & _) & Hrows).
  pose proof (eq_trans (eq_sym E) Er) as Eq. injection Eq as <- <-.
  destruct rows as [|r rows]; [|by inversion Hrows as [|? ? [_ []]]].
  exists row. split; [exact Hl|]. split; [exact Hu|]. split; [exact Ha|exact Ho].
Defined.
