(* ===== verification/Transport.v ===== *)
(** * [transport/http]: the daemon's wire conversions and error table

    [wire.go] and [errors.go] of the server, the goal, plan and quest shapes
    it reads and writes, and the query string of a listing.  The text of
    [time]'s and [json]'s own errors is not modelled. *)

From S2P Require Import Prelude Text Json JsonText GoTime GoFormat Types Status Slots Drop Hash Codec Wire.
From Stdlib Require Import Ascii.
From S2P Require Import Strategy Plan Sql Tenant Quests Accounts Tokens Engine Resolver Service.

(** [Time.String], with the abbreviations of the zone database. *)
Definition fmt_zone_offset (off : Z) : string :=
  let z := Z.quot off 60 in
  (if z <? 0 then "-" else "+") +:+ append_int 2 (Z.quot (Z.abs z) 60) +:+ append_int 2 (Z.rem (Z.abs z) 60).
Definition time_String (abbreviation : Time → string) (t : Time) : string :=
  fmt_utc_date (face_ns t) +:+ " " +:+ fmt_utc_clock (face_ns t) +:+ fmt_frac (t_nsec (utc (face_ns t)))
  +:+ " " +:+ fmt_zone_offset (zone_offset t)
  +:+ " " +:+ (if str_eqb (loc_name (t_loc t)) "UTC" then "UTC" else abbreviation t).
(** [slog.Value.String]. *)
Definition attr_String (abbreviation : Time → string) (v : AttrValue) : string :=
  match v with VString s => s | VInt z => fmt_d z | VTime t => time_String abbreviation t end.
Definition parsing_error : string := "parsing time".

Module Transport.

(** ** [wire.go] *)

Definition encodeVenueQuery (q : option VenueQuery) : venueQueryWire :=
  match q with
  | Some (VenueQueryURL u) => mkVenueQueryWire "url" u "" "" ""
  | Some (VenueQuerySlug s c) => mkVenueQueryWire "slug" "" s c ""
  | Some (VenueQueryName n) => mkVenueQueryWire "name" "" "" "" n
  | None => mkVenueQueryWire "nil" "" "" "" ""
  end.
(** [fmt.Errorf("%w: <what>", service.ErrInvalidArgument)]. *)
Definition bad_request (what : string) : error := wrap_in "" Service.ErrInvalidArgument (": " +:+ what).
Definition decodeVenueQuery (w : venueQueryWire) : res VenueQuery :=
  let k := vqw_Kind w in
  if str_eqb k "url" then Ok (VenueQueryURL (vqw_URL w))
  else if str_eqb k "slug" then Ok (VenueQuerySlug (vqw_Slug w) (vqw_City w))
  else if str_eqb k "name" then Ok (VenueQueryName (vqw_Name w))
  else if is_empty k then Err (bad_request "venue_query.kind is required")
  else Err (bad_request ("unknown venue_query.kind " +:+ fmt_q k)).
Definition encodeGoal (g : Goal) : goalWire :=
  mkGoalWire (encodeVenueQuery (g_VenueQuery g)) (date_String (g_Date g)) (g_Party g)
    (mkTimeWindowWire (wall_String (tw_Start (g_TimePrefs g))) (wall_String (tw_End (g_TimePrefs g)))
       (priority_String (tw_Priority (g_TimePrefs g))))
    (g_AccountID g)
    (mkConstraintsWire (c_TableTypes (g_Constraints g)) (c_AnyTable (g_Constraints g))).
Definition parsePriorityWire (s : string) : TimePriority :=
  if str_eqb s "earlier" then PriorityEarlier else if str_eqb s "later" then PriorityLater else PriorityNone.
(** A parse error becomes text behind [ErrInvalidArgument]. *)
Definition in_field {A} (name : string) (m : res A) : res A :=
  match m with Ok a => Ok a | Err e => Err (bad_request (name +:+ ": " +:+ error_String e)) end.
Definition decodeGoal (w : goalWire) : res Goal :=
  vq ← decodeVenueQuery (gw_VenueQuery w);
  d ← in_field "date" (ParseDate (gw_Date w));
  start ← in_field "time_prefs.start" (ParseWallTime (tww_Start (gw_TimePrefs w)));
  end_ ← in_field "time_prefs.end" (ParseWallTime (tww_End (gw_TimePrefs w)));
  Ok (mkGoal (Some vq) d (gw_Party w)
        (mkTimeWindow start end_ (parsePriorityWire (tww_Priority (gw_TimePrefs w)))) (gw_AccountID w)
        (mkConstraints (cw_TableTypes (gw_Constraints w)) (cw_AnyTable (gw_Constraints w)))).
Definition encodeVenue (v : Venue) : venueWire :=
  mkVenueWire (v_Provider v) (v_Ref v) (v_Name v) (match v_TZ v with Some l => loc_name l | None => "" end).
Definition rfc3339 (t : Time) : string := if is_zero_time t then "" else fmt_rfc3339 (t_ns t).
Definition parseRFC3339 (s : string) : res Time :=
  if is_empty s then Ok zero_time
  else match parse_rfc3339nano s with Some t => Ok t | None => Err (bad_request parsing_error) end.
Definition encodeStrategy (s : option ReleaseStrategy) : strategyWire :=
  match s with
  | Some (ExplicitRelease a) => mkStrategyWire "explicit" (rfc3339 a) "" "" ""
  | Some (DiscoveredRelease f u) => mkStrategyWire "discovered" "" (rfc3339 f) (rfc3339 u) ""
  | Some (ContinuousRelease u) => mkStrategyWire "continuous" "" "" "" (rfc3339 u)
  | None => mkStrategyWire "nil" "" "" "" ""
  end.
Definition encodePlan (p : Plan) : planWire :=
  mkPlanWire (encodeGoal (p_Goal p)) (encodeVenue (p_Venue p)) (rfc3339 (p_DropMoment p))
    (encodeStrategy (p_Strategy p)) (map rfc3339 (p_FireSchedule p)) (p_SigningRequired p) (p_Hash p)
    (p_Notes p) (p_PlanHashVersion p) (rfc3339 (p_ComputedAt p)).
(** The zero values a failed plan leaves. *)
Definition zero_goal : Goal :=
  mkGoal None (mkDate 0 0 0) 0 (mkTimeWindow (mkWallTime 0 0 0) (mkWallTime 0 0 0) PriorityNone) ""
    (mkConstraints [] false).
Definition zero_plan : Plan := mkPlan zero_goal (mkVenue "" "" "" None) zero_time None [] false "" [] 0 zero_time.
Definition encodeQuestSummary (q : QuestSummary) : questSummaryWire :=
  mkQuestSummaryWire (sm_ID q) (sm_UserID q) (sm_AccountID q) (status_String (sm_Status q))
    (rfc3339 (sm_CreatedAt q)) (rfc3339 (sm_UpdatedAt q)) (rfc3339 <$> sm_CompletedAt q) (sm_PlanHash q).
Definition encodeEvent (abbreviation : Time → string) (e : Event) : eventWire :=
  mkEventWire (e_Type e) (rfc3339 (e_At e))
    (fold_left (λ m a, <[a.1 := attr_String abbreviation a.2]> m) (e_Attrs e) ∅).
Definition encodeQuestState (abbreviation : Time → string) (q : QuestState) : questStateWire :=
  mkQuestStateWire (encodeQuestSummary (qs_Summary q)) (encodeGoal (qs_Goal q))
    (encodePlan (default zero_plan (qs_Plan q))) (map (encodeEvent abbreviation) (qs_Events q)).
Definition encodeAccount (a : Account) : accountWire :=
  mkAccountWire (acc_ID a) (acc_UserID a) (acc_Email a) (acc_DisplayName a) (rfc3339 (acc_CreatedAt a))
    (rfc3339 <$> acc_DisabledAt a).
Definition decodeJSON {A} `{WireCodec A} (body : string) : res A :=
  if is_empty body then Err (bad_request "request body is empty")
  else match Unmarshal body with Some a => Ok a | None => Err (bad_request "json") end.
Definition ensureNonEmpty (name value : string) : res unit :=
  if is_empty value then Err (bad_request (name +:+ " is required")) else Ok tt.

(** The loop over the bytes, a field at a time: empty ones are dropped. *)
Fixpoint split_go (field s : string) : list string :=
  match s with
  | EmptyString => if is_empty field then [] else [field]
  | String c s' =>
      if Ascii.eqb c "," then (if is_empty field then split_go "" s' else field :: split_go "" s')
      else split_go (field +:+ String c "") s'
  end.
Definition splitCSV (s : string) : list string := split_go "" s.
Definition statusFromString (s : string) : option Status :=
  find (λ st, str_eqb (status_String st) s) AllStatuses.
Fixpoint parse_statuses (l : list string) : res (list Status) :=
  match l with
  | [] => Ok []
  | raw :: l' =>
      match statusFromString raw with
      | None => Err (bad_request ("unknown status " +:+ fmt_q raw))
      | Some st => rest ← parse_statuses l'; Ok (st :: rest)
      end
  end.
Definition parseStatusList (s : string) : res (list Status) :=
  if is_empty s then Ok [] else parse_statuses (splitCSV s).

(** ** [errors.go] *)

Record ErrorMapping := mkErrorMapping { em_Status : Z; em_Code : string }.
Definition mapping_table : list (error * ErrorMapping) :=
  [(Service.ErrTokenExpired, mkErrorMapping 401 "token_expired");
   (Service.ErrTokenRevoked, mkErrorMapping 401 "token_revoked");
   (Service.ErrUnauthorized, mkErrorMapping 401 "unauthenticated");
   (Service.ErrForbidden, mkErrorMapping 403 "forbidden");
   (Service.ErrVenueNotFound, mkErrorMapping 404 "venue_not_found");
   (Service.ErrNotFound, mkErrorMapping 404 "not_found");
   (Service.ErrVenueAmbiguous, mkErrorMapping 409 "venue_ambiguous");
   (Service.ErrInviteConsumed, mkErrorMapping 409 "invite_consumed");
   (Service.ErrIdempotencyConflict, mkErrorMapping 409 "idempotency_conflict");
   (Service.ErrConflict, mkErrorMapping 409 "conflict");
   (Service.ErrInviteExpired, mkErrorMapping 410 "invite_expired");
   (Service.ErrInvalidPlanHash, mkErrorMapping 422 "plan_hash_mismatch");
   (Service.ErrInvalidArgument, mkErrorMapping 422 "validation_failed");
   (Providers.ErrRateLimited, mkErrorMapping 429 "rate_limited");
   (Providers.ErrAuthExpired, mkErrorMapping 502 "provider_session_expired");
   (Service.ErrUpstreamUnavailable, mkErrorMapping 502 "provider_unavailable")].
Definition MapError (e : error) : ErrorMapping :=
  default (mkErrorMapping 500 "internal") (first_match e mapping_table).
(** A response: status, content type if set, and body. *)
Record Response := mkResponse { rs_Status : Z; rs_ContentType : option string; rs_Body : string }.
(** [json.NewEncoder(w).Encode] ends the document with a newline. *)
Definition json_body {A} `{WireCodec A} (a : A) : string := Marshal a +:+ nl.
Definition WriteErrorDetails (e : error) (details : gmap string json) : Response :=
  let m := MapError e in
  mkResponse (em_Status m) (Some "application/json")
    (json_body (mkErrorEnvelope (em_Code m)
       (if em_Status m =? 500 then "internal server error" else error_String e) details)).
Definition WriteError (e : error) : Response := WriteErrorDetails e ∅.
Definition WriteJSON {A} `{WireCodec A} (status : Z) (a : A) : Response :=
  mkResponse (if status =? 0 then 200 else status) (Some "application/json") (json_body a).
Definition NoContent : Response := mkResponse 204 None "".

(** ** [quests.go]: the query of a listing *)

(** [url.Values]; [Get] is the first value of a key, or empty. *)
Notation Values := (list (string * string)) (only parsing).
Definition Get (q : Values) (k : string) : string := default "" (map_get k q).
(** [strconv.Atoi]. *)
Definition Atoi (s : string) : option Z := parse_int64 s.
Definition parseListFilter (q : Values) : res QuestListFilter :=
  statuses ← parseStatusList (Get q "status");
  since ← (match parseRFC3339 (Get q "since") with
           | Ok t => Ok t | Err e => Err (wrap "list_quests: since: " e) end : res Time);
  until ← (match parseRFC3339 (Get q "until") with
           | Ok t => Ok t | Err e => Err (wrap "list_quests: until: " e) end : res Time);
  limit ← (if is_empty (Get q "limit") then Ok 0
           else match Atoi (Get q "limit") with
                | Some n => Ok n | None => Err (bad_request "limit: strconv.Atoi") end : res Z);
  Ok (mkQuestListFilter statuses (if is_empty (Get q "account_id") then None else Some (Get q "account_id"))
        (if is_zero_time since then None else Some since) (if is_zero_time until then None else Some until)
        limit (Get q "cursor")).
End Transport.
