(* ===== verification/Proxy.v ===== *)
(** * [transport/http]: proxies and probes

    [proxy.go] (who is calling, behind which proxy) and [health.go] (the
    liveness and readiness probes and the loopback gate) without the metrics
    text, which is [fmt] and [strconv] on a float. *)

From S2P Require Import Prelude Text Url NetIP GoTime GoFormat Types Json JsonText Wire Service Transport.
From Stdlib Require Import Ascii.

(** What the handlers read of an [*http.Request]; [ib_Header] is
    [Header.Get], and [r.TLS] is only compared with nil. *)
Record Inbound := mkInbound {
  ib_RemoteAddr : string;
  ib_Scheme : option string;
  ib_TLS : bool;
  ib_Host : string;
  ib_Header : string → string
}.

(** ** [proxy.go] *)

Record TrustedProxies := mkTrustedProxies { tp_nets : list IPNet }.
Definition defaultTrustedCIDRs : list string :=
  ["127.0.0.0/8"; "::1/128"; "10.0.0.0/8"; "172.16.0.0/12"; "192.168.0.0/16"; "fd00::/8"].
Fixpoint parse_nets (cidrs : list string) : res (list IPNet) :=
  match cidrs with
  | [] => Ok []
  | raw :: l =>
      let s := TrimSpace raw in
      if is_empty s then parse_nets l
      else match ParseCIDR s with
           | None => Err (wrap ("trusted_proxies: parse " +:+ fmt_q s +:+ ": ") (ENew "invalid CIDR address"))
           | Some n => nets ← parse_nets l; Ok (n :: nets)
           end
  end.
Definition ParseTrustedProxies (cidrs : list string) : res TrustedProxies :=
  nets ← parse_nets cidrs; Ok (mkTrustedProxies nets).
(** [None] is the panic. *)
Definition DefaultTrustedProxies : option TrustedProxies :=
  match ParseTrustedProxies defaultTrustedCIDRs with Ok tp => Some tp | Err _ => None end.
Definition hostFromRemote (remoteAddr : string) : string :=
  if is_empty remoteAddr then ""
  else match SplitHostPort remoteAddr with
       | Some host => host
       | None => TrimSuffix (TrimPrefix (TrimSpace remoteAddr) "[") "]"
       end.
Definition Trusts (tp : TrustedProxies) (remoteAddr : string) : bool :=
  match tp_nets tp with
  | [] => false
  | nets =>
      let host := hostFromRemote remoteAddr in
      if is_empty host then false
      else match ParseIP host with
           | None => false
           | Some ip => existsb (λ n, Contains n ip) nets
           end
  end.
Record ClientInfo := mkClientInfo { ci_IP : string; ci_Proto : string; ci_Host : string }.
Definition requestProto (r : Inbound) : string :=
  match ib_Scheme r with
  | Some s => if is_empty s then (if ib_TLS r then "https" else "http") else s
  | None => if ib_TLS r then "https" else "http"
  end.
Fixpoint first_nonblank (parts : list string) : string :=
  match parts with
  | [] => ""
  | p :: l => let s := TrimSpace p in if is_empty s then first_nonblank l else s
  end.
Definition leftmostXFF (header : string) : string :=
  if is_empty header then "" else first_nonblank (split_on "," header).
Definition or_header (s old : string) : string := if is_empty s then old else s.
Definition resolve (tp : TrustedProxies) (r : Inbound) : ClientInfo :=
  let info := mkClientInfo (hostFromRemote (ib_RemoteAddr r)) (requestProto r) (ib_Host r) in
  if negb (Trusts tp (ib_RemoteAddr r)) then info
  else mkClientInfo
         (or_header (leftmostXFF (ib_Header r "X-Forwarded-For")) (ci_IP info))
         (or_header (TrimSpace (ib_Header r "X-Forwarded-Proto")) (ci_Proto info))
         (or_header (TrimSpace (ib_Header r "X-Forwarded-Host")) (ci_Host info)).
(** The context carries the [ClientInfo], if any, to the handler. *)
Definition Middleware {A} (tp : TrustedProxies) (next : option ClientInfo → Inbound → A)
    (ctx : option ClientInfo) (r : Inbound) : A := next (Some (resolve tp r)) r.
Definition ClientInfoFrom (ctx : option ClientInfo) : ClientInfo := default (mkClientInfo "" "" "") ctx.
Definition ClientIP (ctx : option ClientInfo) : string := ci_IP (ClientInfoFrom ctx).
Definition ClientProto (ctx : option ClientInfo) : string := ci_Proto (ClientInfoFrom ctx).
Definition ClientHost (ctx : option ClientInfo) : string := ci_Host (ClientInfoFrom ctx).

(** ** [health.go] *)

Definition isLoopback (remoteAddr : string) : bool :=
  let host := default remoteAddr (SplitHostPort remoteAddr) in
  if is_empty host then false
  else match ParseIP host with None => false | Some ip => IsLoopback ip end.
Definition LoopbackOnly (next : Inbound → Transport.Response) (r : Inbound) : Transport.Response :=
  if negb (isLoopback (ib_RemoteAddr r))
  then Transport.WriteError (wrap "loopback-only endpoint: " Service.ErrForbidden)
  else next r.
Definition healthzHandler : Transport.Response :=
  Transport.WriteJSON 200 ({[ "status" := "ok" ]} : gmap string string).
(** The argument is what [CheckReady] returned. *)
Definition readyzHandler (checked : option error) : Transport.Response :=
  match checked with
  | Some e =>
      Transport.WriteJSON 503 (<["status" := "not_ready"]> {[ "reason" := error_String e ]} : gmap string string)
  | None => Transport.WriteJSON 200 ({[ "status" := "ready" ]} : gmap string string)
  end.
(** [serve.go]: the daemon's own check; the arguments are whether there is a
    database handle and what pinging it returned. *)
Definition CheckReady (db : bool) (ping : option error) : option error :=
  if negb db then Some (ENew "daemon: db not initialized") else wrap "daemon: db ping: " <$> ping.

Example proxy_examples :
  let tp := default (mkTrustedProxies []) DefaultTrustedProxies in
  let r addr h := mkInbound addr None false "daemon:7765" (λ k, if str_eqb k "X-Forwarded-For" then h else "") in
  map ci_IP (map (resolve tp) [r "10.1.2.3:99" " , 203.0.113.7 , 10.0.0.1"; r "8.8.8.8:99" "203.0.113.7"; r "[::1]:5" ",,"])
  = ["203.0.113.7"; "8.8.8.8"; "::1"].
Proof. vm_compute. reflexivity. Qed.

(** ** Who is trusted *)

(** A port as a listener prints it. *)
Definition peer (a b c d port : Z) : string := dotted a b c d +:+ ":" +:+ fmt_d port.
Lemma dotted_nonempty a b c d : is_empty (dotted a b c d) = true → False.
Proof.
  unfold is_empty, str_eqb, dotted. intros E%bool_decide_eq_true_1.
  apply (f_equal String.length) in E. rewrite !length_append in E. cbn in E. lia.
Qed.
Lemma hostFromRemote_peer a b c d port : hostFromRemote (peer a b c d port) = dotted a b c d.
Proof.
  unfold hostFromRemote, peer. rewrite SplitHostPort_plain by (apply free_dotted || apply free_fmt_d; reflexivity).
  unfold is_empty, str_eqb. rewrite bool_decide_eq_false_2; [done|]. intros E.
  apply (f_equal String.length) in E. rewrite !length_append in E. cbn in E. lia.
Qed.
Lemma untrusted_direct tp r :
  Trusts tp (ib_RemoteAddr r) = false →
  resolve tp r = mkClientInfo (hostFromRemote (ib_RemoteAddr r)) (requestProto r) (ib_Host r).
Proof. intros H. unfold resolve. by rewrite H. Qed.
Definition with_headers (r : Inbound) (h : string → string) : Inbound :=
  mkInbound (ib_RemoteAddr r) (ib_Scheme r) (ib_TLS r) (ib_Host r) h.
Lemma To4_mapped a b c d : To4 (v4InV6Prefix ++ [a; b; c; d]) = Some [a; b; c; d].
Proof. reflexivity. Qed.
(** The private ranges and the loopback range. *)
Definition private (a b : Z) : bool :=
  (a =? 127) || (a =? 10) || (a =? 172) && (16 <=? b) && (b <=? 31) || (a =? 192) && (b =? 168).
Definition default_nets : list IPNet := Eval vm_compute in
  match DefaultTrustedProxies with Some tp => tp_nets tp | None => [] end.
Lemma default_proxies : DefaultTrustedProxies = Some (mkTrustedProxies default_nets).
Proof. vm_compute. reflexivity. Qed.
Lemma masks x :
  0 ≤ x < 256 →
  Z.land x 255 = x ∧ Z.land x 0 = 0 ∧ (16 =? Z.land x 240) = (16 <=? x) && (x <=? 31).
Proof.
  intros Hx.
  assert (H : all_below 256 (λ x, (Z.land x 255 =? x) && Bool.eqb (16 =? Z.land x 240) ((16 <=? x) && (x <=? 31))) = true)
    by (vm_compute; reflexivity).
  apply (all_below_spec _ _ H) in Hx. zb. split_all; [done|apply Z.land_0_r|by apply eqb_prop].
Qed.
Lemma decide_bytes (n1 n2 n3 n4 a b c d : Z) :
  bool_decide ([n1; n2; n3; n4] = [a; b; c; d]) = (n1 =? a) && (n2 =? b) && (n3 =? c) && (n4 =? d).
Proof.
  destruct (Z.eqb_spec n1 a), (Z.eqb_spec n2 b), (Z.eqb_spec n3 c), (Z.eqb_spec n4 d); cbn;
    apply bool_decide_eq_true_2 || apply bool_decide_eq_false_2; congruence.
Qed.
Lemma private_contains a b c d :
  0 ≤ a < 256 → 0 ≤ b < 256 →
  existsb (λ n, Contains n (v4InV6Prefix ++ [a; b; c; d])) default_nets = private a b.
Proof.
  intros Ha Hb. destruct (masks a Ha) as (Ea & _ & _), (masks b Hb) as (Eb & Eb0 & E16).
  unfold default_nets. cbn [existsb]. unfold Contains, networkNumberAndMask. rewrite To4_mapped. cbn [n_IP n_Mask].
  repeat match goal with |- context [To4 ?l] => let r := eval vm_compute in (To4 l) in change (To4 l) with r end.
  unfold mask_with, id, default. cbn [length Nat.eqb andb orb zip_with].
  change (Z.land 16 240) with 16. rewrite !decide_bytes, Ea, Eb, !Z.land_0_r, E16. cbn [Z.land Pos.land Z.eqb Pos.eqb andb].
  unfold private. rewrite !(Z.eqb_sym _ a), !(Z.eqb_sym _ b), !andb_true_r, orb_false_r.
  change (Z.land 127 255) with 127. change (Z.land 10 255) with 10. change (Z.land 172 255) with 172.
  change (Z.land 192 255) with 192. change (Z.land 168 255) with 168.
  by destruct (a =? 127), (a =? 10), (a =? 172), (a =? 192), (16 <=? b), (b <=? 31), (b =? 168).
Qed.

(** Who the daemon thinks is calling.  With the default allow-list a peer
    in a loopback or private IPv4 range speaks for its client: each
    forwarding header that is not blank replaces its own part of the
    identity, the address by the first entry that is not blank.  Any other
    peer is taken for what its connection shows, whatever headers it sends. *)
Theorem proxy_identity tp a b c d port r :
  DefaultTrustedProxies = Some tp →
  0 ≤ a < 256 → 0 ≤ b < 256 → 0 ≤ c < 256 → 0 ≤ d < 256 → ib_RemoteAddr r = peer a b c d port →
  resolve tp r =
    if private a b
    then mkClientInfo (or_header (leftmostXFF (ib_Header r "X-Forwarded-For")) (dotted a b c d))
           (or_header (TrimSpace (ib_Header r "X-Forwarded-Proto")) (requestProto r))
           (or_header (TrimSpace (ib_Header r "X-Forwarded-Host")) (ib_Host r))
    else mkClientInfo (dotted a b c d) (requestProto r) (ib_Host r).
Proof.
  intros Htp Ha Hb Hc Hd Hr. rewrite default_proxies in Htp. injection Htp as <-.
  assert (Ht : Trusts (mkTrustedProxies default_nets) (ib_RemoteAddr r) = private a b).
  { rewrite Hr. unfold Trusts. rewrite hostFromRemote_peer, ParseIP_dotted by done.
    destruct (is_empty _) eqn:E; [by apply dotted_nonempty in E|]. exact (private_contains a b c d Ha Hb). }
  unfold resolve. rewrite Ht, Hr, hostFromRemote_peer. by destruct (private a b).
Qed.
Lemma proxy_identity_witness :
  resolve (mkTrustedProxies default_nets)
    (mkInbound "203.0.113.9:443" None false "snipe.local" (λ _, "127.0.0.1"))
  = mkClientInfo "203.0.113.9" "http" "snipe.local".
Proof.
  exact (proxy_identity (mkTrustedProxies default_nets) 203 0 113 9 443
           (mkInbound "203.0.113.9:443" None false "snipe.local" (λ _, "127.0.0.1"))
           default_proxies ltac:(lia) ltac:(lia) ltac:(lia) ltac:(lia) eq_refl).
Defined.

(** The gate looks at the connection only: a proxy on the same host lets
    every one of its clients through. *)
Lemma gate_ignores_headers next r h a b c d port :
  0 ≤ a < 256 → 0 ≤ b < 256 → 0 ≤ c < 256 → 0 ≤ d < 256 → ib_RemoteAddr r = peer a b c d port →
  LoopbackOnly next (with_headers r h)
  = if a =? 127 then next (with_headers r h)
    else Transport.WriteError (wrap "loopback-only endpoint: " Service.ErrForbidden).
Proof.
  intros Ha Hb Hc Hd Hr. unfold LoopbackOnly, isLoopback, with_headers. cbn [ib_RemoteAddr]. rewrite Hr. unfold peer.
  rewrite SplitHostPort_plain by (apply free_dotted || apply free_fmt_d; reflexivity). cbn [default].
  unfold id. rewrite ParseIP_dotted by done. destruct (is_empty _) eqn:E; [by apply dotted_nonempty in E|].
  unfold IsLoopback. rewrite To4_mapped. cbn [head]. destruct (Z.eqb_spec a 127) as [->|Hn]; [done|].
  by rewrite bool_decide_eq_false_2 by congruence.
Qed.
