(* ===== verification/Config.v ===== *)
(** * [internal/daemon]: configuration

    [config.go], [config_toml.go] and [parseServeFlags] of
    [cmd/resy-snipe/serve.go]: the defaults, the layers laid over them and
    the validation.  Decoding TOML is a third-party package's, and so an
    argument; the flags of [serve] arrive parsed.  The text of the errors
    of [netip] and [strconv] is not modelled. *)

From S2P Require Import Prelude Text Url NetIP GoTime GoFormat Types Codec Json JsonText Wire Transport Proxy.
From Stdlib Require Import Ascii.

Record DaemonConfig := mkDaemonConfig {
  Bind : string; DataDir : string; LogFormat : string; LogLevel : string; ShutdownDrainSeconds : Z
}.
Record SecretsConfig := mkSecretsConfig {
  Mode : string; Keyfile : string; Argon2IDMemoryKB : Z; Argon2IDTime : Z; Argon2IDParallel : Z
}.
Record HTTPConfig := mkHTTPConfig { BasePath : string; TrustedProxies : list string; ExternalURL : string }.
Record SignerConfig := mkSignerConfig { Bin : string; RestartBackoffSeconds : Z }.
Record EngineConfig := mkEngineConfig { MaxConcurrentBookings : Z; DefaultLookaheadDays : Z }.
Record Config := mkConfig {
  c_Daemon : DaemonConfig; c_Secrets : SecretsConfig; c_HTTP : HTTPConfig; c_Signer : SignerConfig; c_Engine : EngineConfig
}.

(** ** Defaults *)

(** [filepath.Join] of clean elements below an arbitrary first one, whose
    cleaning is the argument. *)
Section Defaults.
Context (Clean : string → string) (getenv : string → string) (home : option string).
Definition defaultDataDir : string :=
  if negb (is_empty (getenv "XDG_DATA_HOME")) then Clean (getenv "XDG_DATA_HOME" +:+ "/resy-snipe")
  else match home with
       | Some h => if is_empty h then "./.resy-snipe" else Clean (h +:+ "/.local/share/resy-snipe")
       | None => "./.resy-snipe"
       end.
Definition DefaultConfig : Config :=
  mkConfig
    (mkDaemonConfig "127.0.0.1:7765" defaultDataDir "json" "info" 15)
    (mkSecretsConfig "passphrase" "" (64 * 1024) 3 1)
    (mkHTTPConfig "/" ["127.0.0.0/8"; "::1/128"; "10.0.0.0/8"; "172.16.0.0/12"; "192.168.0.0/16"; "fc00::/7"] "")
    (mkSignerConfig "" 5)
    (mkEngineConfig 8 60).
End Defaults.

(** ** Validation *)

(** A [*ValidationError]: never with an empty list. *)
Notation Violations := (list string) (only parsing).
Definition check (ok : bool) (violation : string) : Violations := if ok then [] else [violation].
Definition among (l : list string) (s : string) : bool := existsb (str_eqb s) l.
Definition violations (c : Config) : Violations :=
  let d := c_Daemon c in let s := c_Secrets c in let h := c_HTTP c in
  concat
    [check (bool_decide (is_Some (ParseAddrPort (Bind d)))) ("daemon.bind " +:+ fmt_q (Bind d) +:+ " is not a valid host:port");
     check (among ["json"; "text"] (LogFormat d)) ("daemon.log_format " +:+ fmt_q (LogFormat d) +:+ ": want " +:+ fmt_q "json" +:+ " or " +:+ fmt_q "text");
     check (among ["debug"; "info"; "warn"; "error"] (LogLevel d)) ("daemon.log_level " +:+ fmt_q (LogLevel d) +:+ ": want one of debug/info/warn/error");
     check (0 <=? ShutdownDrainSeconds d) ("daemon.shutdown_drain_seconds " +:+ fmt_d (ShutdownDrainSeconds d) +:+ ": must be >= 0");
     check (negb (is_empty (TrimSpace (DataDir d)))) "daemon.data_dir is empty";
     check (among ["passphrase"; "keyfile"; "insecure"] (Mode s)) ("secrets.mode " +:+ fmt_q (Mode s) +:+ ": want " +:+ fmt_q "passphrase" +:+ ", " +:+ fmt_q "keyfile" +:+ ", or " +:+ fmt_q "insecure");
     check (negb (str_eqb (Mode s) "keyfile" && is_empty (TrimSpace (Keyfile s))))
       "secrets.mode=keyfile but secrets.keyfile is empty";
     check (8 * 1024 <=? Argon2IDMemoryKB s) ("secrets.argon2id_memory_kb " +:+ fmt_d (Argon2IDMemoryKB s) +:+ ": minimum is 8192 (8 MiB)");
     check (1 <=? Argon2IDTime s) ("secrets.argon2id_time " +:+ fmt_d (Argon2IDTime s) +:+ ": must be >= 1");
     check (1 <=? Argon2IDParallel s) ("secrets.argon2id_parallel " +:+ fmt_d (Argon2IDParallel s) +:+ ": must be >= 1");
     check (starts_with "/" (BasePath h)) ("http.base_path " +:+ fmt_q (BasePath h) +:+ ": must start with " +:+ fmt_q "/");
     concat (map (λ cidr, check (bool_decide (is_Some (ParsePrefix cidr)))
                            ("http.trusted_proxies entry " +:+ fmt_q cidr +:+ " is not a CIDR")) (TrustedProxies h));
     check (0 <=? RestartBackoffSeconds (c_Signer c))
       ("signer.restart_backoff_seconds " +:+ fmt_d (RestartBackoffSeconds (c_Signer c)) +:+ ": must be >= 0");
     check (1 <=? MaxConcurrentBookings (c_Engine c))
       ("engine.max_concurrent_bookings " +:+ fmt_d (MaxConcurrentBookings (c_Engine c)) +:+ ": must be >= 1");
     check (1 <=? DefaultLookaheadDays (c_Engine c))
       ("engine.default_lookahead_days " +:+ fmt_d (DefaultLookaheadDays (c_Engine c)) +:+ ": must be >= 1")].
Definition ErrInvalidConfig : error := ESentinel "config: invalid".
(** The error, which [errors.Is] takes for [ErrInvalidConfig]. *)
Definition validation_error (v : Violations) : error :=
  EWrap ("config: " +:+ fmt_d (Z.of_nat (length v)) +:+ " violation(s):" +:+ nl +:+ "  - " +:+ str_join (nl +:+ "  - ") v)
    [ErrInvalidConfig].
Definition report (v : Violations) : option error := match v with [] => None | _ => Some (validation_error v) end.
Definition Validate (c : Config) : option error := report (violations c).

(** ** Layers *)

Definition splitCSV (s : string) : list string :=
  filter (λ t, negb (is_empty t)) (map TrimSpace (split_on "," s)).
Section Env.
Context (getenv : string → string).
Definition envString (key old : string) : string := let v := getenv key in if is_empty v then old else v.
(** The value left behind and the violation, if any. *)
Definition envInt (key : string) (old : Z) : Z * Violations :=
  let raw := getenv key in
  if is_empty raw then (old, [])
  else match Transport.Atoi raw with
       | Some n => (n, [])
       | None => (old, [key +:+ "=" +:+ fmt_q raw +:+ " is not an integer"])
       end.
Definition ApplyEnv (c : Config) : Config * option error :=
  let d := c_Daemon c in let s := c_Secrets c in let h := c_HTTP c in
  let drain := envInt "RESY_SNIPE_SHUTDOWN_DRAIN" (ShutdownDrainSeconds d) in
  let mem := envInt "RESY_SNIPE_ARGON2_MEM" (Argon2IDMemoryKB s) in
  let time := envInt "RESY_SNIPE_ARGON2_TIME" (Argon2IDTime s) in
  let parallel := envInt "RESY_SNIPE_ARGON2_PARALLEL" (Argon2IDParallel s) in
  let backoff := envInt "RESY_SNIPE_SIGNER_BACKOFF" (RestartBackoffSeconds (c_Signer c)) in
  let bookings := envInt "RESY_SNIPE_MAX_BOOKINGS" (MaxConcurrentBookings (c_Engine c)) in
  let lookahead := envInt "RESY_SNIPE_LOOKAHEAD_DAYS" (DefaultLookaheadDays (c_Engine c)) in
  (mkConfig
     (mkDaemonConfig (envString "RESY_SNIPE_BIND" (Bind d)) (envString "RESY_SNIPE_DATA_DIR" (DataDir d))
        (envString "RESY_SNIPE_LOG_FORMAT" (LogFormat d)) (envString "RESY_SNIPE_LOG_LEVEL" (LogLevel d)) drain.1)
     (mkSecretsConfig (envString "RESY_SNIPE_SECRETS_MODE" (Mode s)) (envString "RESY_SNIPE_KEYFILE" (Keyfile s))
        mem.1 time.1 parallel.1)
     (mkHTTPConfig (envString "RESY_SNIPE_BASE_PATH" (BasePath h))
        (let raw := getenv "RESY_SNIPE_TRUSTED_PROXIES" in if is_empty raw then TrustedProxies h else splitCSV raw)
        (envString "RESY_SNIPE_EXTERNAL_URL" (ExternalURL h)))
     (mkSignerConfig (envString "RESY_SNIPE_SIGNER_BIN" (Bin (c_Signer c))) backoff.1)
     (mkEngineConfig bookings.1 lookahead.1),
   report (concat [drain.2; mem.2; time.2; parallel.2; backoff.2; bookings.2; lookahead.2])).
End Env.

(** What the TOML package makes of a document over a configuration: the new
    one and the keys it did not know, or its error. *)
Definition TomlDecode : Type := string → Config → Config * (res (list string)).
Section Toml.
Context (toml : TomlDecode).
Definition ApplyTOML (doc : string) (c : Config) : Config * option error :=
  let '(c', r) := toml doc c in
  (c', match r with
       | Err e => Some (wrap "config: parse TOML: " e)
       | Ok [] => None
       | Ok keys => Some (validation_error (map (λ k, "unknown config key " +:+ fmt_q k) keys))
       end).
(** What opening the file gives: its text, no such file, or another error. *)
Inductive Opened := FileText (doc : string) | NotExist | OpenError (e : error).
Definition ApplyTOMLFile (path : string) (f : Opened) (c : Config) : Config * option error :=
  match f with
  | NotExist => (c, None)
  | OpenError e => (c, Some (wrap ("config: open " +:+ path +:+ ": ") e))
  | FileText doc => let '(c', r) := ApplyTOML doc c in (c', wrap ("config: " +:+ path +:+ ": ") <$> r)
  end.
(** [parseServeFlags], with the flags parsed. *)
Record ServeFlags := mkServeFlags { sf_config : string; sf_bind : string; sf_insecure : bool }.
Definition ErrNotExist : error := ESentinel "file does not exist".
Definition with_bind (bind : string) (c : Config) : Config :=
  let d := c_Daemon c in
  mkConfig (mkDaemonConfig bind (DataDir d) (LogFormat d) (LogLevel d) (ShutdownDrainSeconds d))
    (c_Secrets c) (c_HTTP c) (c_Signer c) (c_Engine c).
Definition file_layer (defaults : Config) (file : string → Opened) (fs : ServeFlags) : Config * option error :=
  if is_empty (sf_config fs) then (defaults, None)
  else ApplyTOMLFile (sf_config fs) (file (sf_config fs)) defaults.
Definition parseServeFlags (defaults : Config) (getenv : string → string) (file : string → Opened) (fs : ServeFlags)
    : res (Config * bool) :=
  let '(c, e) := file_layer defaults file fs in
  match (e ← e; if errors_is e ErrNotExist then None else Some e) with
  | Some e => Err (wrap "serve: config: " e)
  | None =>
      let '(c, e) := ApplyEnv getenv c in
      match e with
      | Some e => Err (wrap "serve: env: " e)
      | None =>
          let c := if is_empty (sf_bind fs) then c else with_bind (sf_bind fs) c in
          match Validate c with
          | Some e => Err (wrap "serve: invalid config: " e)
          | None => Ok (c, sf_insecure fs)
          end
      end
  end.
End Toml.

(** ** What a valid configuration is *)

Record config_ok (c : Config) : Prop := {
  ok_bind : is_Some (ParseAddrPort (Bind (c_Daemon c)));
  ok_log_format : LogFormat (c_Daemon c) ∈ ["json"; "text"];
  ok_log_level : LogLevel (c_Daemon c) ∈ ["debug"; "info"; "warn"; "error"];
  ok_drain : 0 ≤ ShutdownDrainSeconds (c_Daemon c);
  ok_data_dir : TrimSpace (DataDir (c_Daemon c)) ≠ "";
  ok_mode : Mode (c_Secrets c) ∈ ["passphrase"; "keyfile"; "insecure"];
  ok_keyfile : Mode (c_Secrets c) = "keyfile" → TrimSpace (Keyfile (c_Secrets c)) ≠ "";
  ok_memory : 8192 ≤ Argon2IDMemoryKB (c_Secrets c);
  ok_time : 1 ≤ Argon2IDTime (c_Secrets c);
  ok_parallel : 1 ≤ Argon2IDParallel (c_Secrets c);
  ok_base_path : starts_with "/" (BasePath (c_HTTP c)) = true;
  ok_proxies : Forall (λ s, is_Some (ParsePrefix s)) (TrustedProxies (c_HTTP c));
  ok_backoff : 0 ≤ RestartBackoffSeconds (c_Signer c);
  ok_bookings : 1 ≤ MaxConcurrentBookings (c_Engine c);
  ok_lookahead : 1 ≤ DefaultLookaheadDays (c_Engine c)
}.
Lemma check_nil b v : check b v = [] ↔ b = true.
Proof. by destruct b. Qed.
Lemma among_spec l s : among l s = true ↔ s ∈ l.
Proof.
  unfold among. induction l as [|x l IH]; cbn; [by split; [|intros ?%elem_of_nil]|].
  rewrite orb_true_iff, IH, elem_of_cons. unfold str_eqb. by rewrite bool_decide_eq_true.
Qed.
Lemma nonempty_spec s : negb (is_empty s) = true ↔ s ≠ "".
Proof. unfold is_empty, str_eqb. rewrite negb_true_iff, bool_decide_eq_false. done. Qed.
Lemma concat_checks {A} (p : A → bool) (f : A → string) l :
  concat (map (λ x, check (p x) (f x)) l) = [] ↔ Forall (λ x, p x = true) l.
Proof.
  induction l as [|x l IH]; cbn; [done|]. rewrite app_nil, check_nil, IH, Forall_cons. done.
Qed.
Lemma report_None v : report v = None ↔ v = [].
Proof. by destruct v. Qed.

Lemma unless_empty a b t : negb (str_eqb a b && is_empty t) = true ↔ (a = b → t ≠ "").
Proof.
  unfold is_empty, str_eqb. rewrite negb_true_iff, andb_false_iff, !bool_decide_eq_false. split.
  - intros [H|H]; [done|auto].
  - intros H. destruct (decide (a = b)); auto.
Qed.
(** [Validate] reports every violation there is. *)
Lemma Validate_ok c : Validate c = None ↔ config_ok c.
Proof.
  unfold Validate. rewrite report_None. unfold violations. cbn [concat].
  repeat rewrite app_nil, ?check_nil.
  rewrite concat_checks, unless_empty, !among_spec, nonempty_spec, !Z.leb_le, !bool_decide_eq_true.
  assert (HF : ∀ l, Forall (λ x, bool_decide (is_Some (ParsePrefix x)) = true) l ↔ Forall (λ x, is_Some (ParsePrefix x)) l).
  { intros l. apply Forall_iff. intros x. apply bool_decide_eq_true. }
  rewrite HF. split.
  - intros H. destruct_and! H. by constructor.
  - intros []. by repeat split.
Qed.
Lemma parse_nets_ok l :
  Forall (λ s, is_Some (ParsePrefix s)) l → ∃ nets, parse_nets l = Ok nets ∧ length nets = length l.
Proof.
  induction 1 as [|s l [r Hr] _ (nets & IH & Hlen)]; [by exists []|]. apply ParsePrefix_CIDR in Hr as (Ht & He & n & Hn).
  exists (n :: nets). cbn [parse_nets]. rewrite Ht, He, Hn, IH. cbn. by rewrite Hlen.
Qed.

(** C33. A daemon that gets past its configuration gets past its proxies: what
    [serve] accepts is inside every bound [Validate] checks, its listener
    address is the [-bind] flag, else the environment's, else the file's,
    and the allow-list of trusted proxies it names parses entry by entry,
    none of them skipped. *)
Theorem serve_config_usable toml defaults getenv file fs c insecure :
  parseServeFlags toml defaults getenv file fs = Ok (c, insecure) →
  config_ok c ∧ insecure = sf_insecure fs ∧
  (∃ tp, ParseTrustedProxies (TrustedProxies (c_HTTP c)) = Ok tp
         ∧ length (tp_nets tp) = length (TrustedProxies (c_HTTP c))) ∧
  Bind (c_Daemon c) =
    if is_empty (sf_bind fs)
    then envString getenv "RESY_SNIPE_BIND" (Bind (c_Daemon (file_layer toml defaults file fs).1))
    else sf_bind fs.
Proof.
  unfold parseServeFlags. intros H.
  destruct (file_layer _ _ _ _) as [layer e] eqn:El.
  destruct (e ≫= _) eqn:Ee; [done|].
  destruct (ApplyEnv getenv layer) as [c1 [e1|]] eqn:Eenv; [done|].
  destruct (Validate _) eqn:Ev; [done|]. injection H as <- <-. apply Validate_ok in Ev. split_all.
  - done.
  - done.
  - destruct (parse_nets_ok _ (ok_proxies _ Ev)) as (nets & Hn & Hlen). exists (mkTrustedProxies nets).
    unfold ParseTrustedProxies. by rewrite Hn.
  - unfold ApplyEnv in Eenv. injection Eenv as <- _. by destruct (is_empty (sf_bind fs)).
Qed.
Definition example_serve : res (Config * bool) :=
  parseServeFlags (λ _ c, (c, Ok [])) (DefaultConfig (λ s, s) (λ _, "") (Some "/root"))
    (λ k, if str_eqb k "RESY_SNIPE_TRUSTED_PROXIES" then " 10.0.0.0/8 ,, fd00::/8" else "") (λ _, NotExist)
    (mkServeFlags "/etc/resy-snipe/config.toml" "[::1]:80" false).
Definition example_config : Config := Eval vm_compute in
  match example_serve with Ok (c, _) => c | Err _ => DefaultConfig (λ s, s) (λ _, "") None end.
Lemma serve_config_usable_witness : Bind (c_Daemon example_config) = "[::1]:80" ∧ config_ok example_config.
Proof.
  assert (H : example_serve = Ok (example_config, false)) by (vm_compute; reflexivity).
  unfold example_serve in H. split; [reflexivity|]. exact (proj1 (serve_config_usable _ _ _ _ _ _ _ H)).
Defined.
