(* ===== verification/Boot.v ===== *)
(** * [internal/daemon]: boot and shutdown

    [boot.go], the lock ([flock_unix.go]), the sources of the passphrase
    ([unlock.go]) and the banner ([banner.go]).  The machine keeps what the
    process holds (the lock, the database handle, the sealer), the tables of
    Secrets and the versions of the schema, which the runner of Migrate
    brings up to date on the way; what a migration makes of the tables is an
    argument, and files, locks and the terminal answer as the environment
    decides.  The prompt and the clearing of the variable that held the
    passphrase are left out. *)

From S2P Require Import Prelude Text GoTime GoFormat Types Sql Migrate Secrets Config.

(** What the daemon holds, how often it told its supervisor it is ready, and
    the database with the number of its next statement. *)
Record Held := mkHeld {
  h_lock : bool; h_db : bool; h_sealer : option Sealer; h_ready : nat; h_banner : list string;
  h_tick : nat; h_data : SchemaDB SecretsDB
}.
Inductive PassphraseSource :=
| envPassphraseSource
| stdinPassphraseSource
| keyfileSource (path : string)
| otherSource (describe : string).
Inductive FlockAnswer := FlockOk | FlockWouldBlock | FlockError (e : error).
(** The answers of everything outside, one per call.  [be_tty] is [None] when
    standard input is no terminal. *)
Record BootEnv := mkBootEnv {
  be_mkdir : option error;
  be_lockfile : option error;
  be_flock : FlockAnswer;
  be_open : option error;
  be_exec : string → SecretsDB → res SecretsDB;
  be_walk : list Z → list Z;
  be_files : res (list Entry);
  be_dockerenv : bool;
  be_faults : Faults;
  be_stat : string → res FileInfo;
  be_fopen : string → option error;
  be_read : string → res string;
  be_prompt : option error;
  be_tty : option (res string);
  be_other : string → res string;
  be_mlock : option error;
  be_close_sealer : option error;
  be_close_db : option error;
  be_close_lock : option error
}.
Record Options := mkOptions {
  op_Getenv : string → string;
  op_PassphraseSource : option PassphraseSource;
  op_AllowInsecure : bool;
  op_Notify : bool;
  op_Version : string;
  op_Commit : string
}.
Definition Describe (s : PassphraseSource) : string :=
  match s with
  | envPassphraseSource => "passphrase (env)"
  | stdinPassphraseSource => "passphrase (stdin)"
  | keyfileSource path => "keyfile " +:+ path
  | otherSource d => d
  end.

Section Boot.
Context (Clean : string → string) (IDKey : string → string → string)
        (rand : nat → nat → res string) (clock : nat → Time) (env : BootEnv).

(** ** Steps *)

Definition B (A : Type) : Type := Held → res A * Held.
#[local] Instance b_ret : MRet B := λ A a h, (Ok a, h).
#[local] Instance b_bind : MBind B := λ A X k m h,
  match m h with (Ok a, h') => k a h' | (Err e, h') => (Err e, h') end.
Definition failed {A} (e : error) : B A := λ h, (Err e, h).
Definition returned {A} (r : res A) : B A := λ h, (r, h).
Definition set_lock (b : bool) (h : Held) : Held :=
  mkHeld b (h_db h) (h_sealer h) (h_ready h) (h_banner h) (h_tick h) (h_data h).
Definition set_db (b : bool) (h : Held) : Held :=
  mkHeld (h_lock h) b (h_sealer h) (h_ready h) (h_banner h) (h_tick h) (h_data h).
Definition set_sealer (s : option Sealer) (h : Held) : Held :=
  mkHeld (h_lock h) (h_db h) s (h_ready h) (h_banner h) (h_tick h) (h_data h).
Definition set_data (n : nat) (d : SchemaDB SecretsDB) (h : Held) : Held :=
  mkHeld (h_lock h) (h_db h) (h_sealer h) (h_ready h) (h_banner h) n d.
(** The first error, if any. *)
Definition first_error (es : list (option error)) : option error := head (omap id es).
(** [Close]: each resource that is held is let go, whatever the others say. *)
Definition Close (h : Held) : option error * Held :=
  (first_error [(if h_sealer h then be_close_sealer env else None);
                (if h_db h then be_close_db env else None);
                (if h_lock h then be_close_lock env else None)],
   set_lock false (set_db false (set_sealer None h))).
(** [_ = d.Close(); return nil, err]. *)
Definition close_with {A} (e : error) : B A := λ h, (Err e, (Close h).2).
Definition or_close {A} (r : res A) : B A := match r with Ok a => mret a | Err e => close_with e end.
Definition step_or_close (r : option error) : B unit := match r with None => mret tt | Some e => close_with e end.
(** A step of the database, after whose failure everything is closed. *)
Definition on_schema {A} (m : SqlOf (SchemaDB SecretsDB) A) : B A := λ h,
  let '(r, n, d) := m (be_faults env) (h_tick h) (h_data h) in or_close r (set_data n d h).
Definition on_data {A} (m : SqlOf SecretsDB A) : B A :=
  on_schema (λ fl n d, let '(r, n, x) := m fl n (sd_data d) in (r, n, mkSchemaDB (sd_versions d) x)).

(** ** [unlock.go] *)

Definition ResolvePassphraseSource (cfg : Config) (opts : Options) : res PassphraseSource :=
  match op_PassphraseSource opts with
  | Some s => Ok s
  | None =>
      let s := c_Secrets cfg in
      if str_eqb (Mode s) "passphrase" then
        Ok (if is_empty (op_Getenv opts "RESY_SNIPE_PASSPHRASE") then stdinPassphraseSource else envPassphraseSource)
      else if str_eqb (Mode s) "keyfile" then
        if is_empty (TrimSpace (Keyfile s)) then Err (ENew "daemon: secrets.mode=keyfile but no keyfile path")
        else Ok (keyfileSource (Clean (Keyfile s)))
      else if str_eqb (Mode s) "insecure" then Err (ENew "daemon: secrets.mode=insecure handled separately")
      else Err (ENew ("daemon: unknown secrets.mode " +:+ fmt_q (Mode s)))
  end.

Definition ErrUseKeyfile : error := ESentinel "daemon: use keyfile source".
Definition env_passphrase (getenv : string → string) : res string :=
  let v := getenv "RESY_SNIPE_PASSPHRASE" in
  if is_empty v then Err (ENew "daemon: RESY_SNIPE_PASSPHRASE is unset") else Ok v.
Definition stdin_passphrase : res string :=
  match be_prompt env with
  | Some e => Err (wrap "daemon: write prompt: " e)
  | None =>
      match be_tty env with
      | None => Err (ENew "daemon: stdin is not a terminal; pass --keyfile or set RESY_SNIPE_PASSPHRASE")
      | Some (Err e) => Err (wrap "daemon: read passphrase: " e)
      | Some (Ok raw) => if is_empty raw then Err (ENew "daemon: empty passphrase rejected") else Ok raw
      end
  end.
Definition Passphrase (opts : Options) (s : PassphraseSource) : res string :=
  match s with
  | envPassphraseSource => env_passphrase (op_Getenv opts)
  | stdinPassphraseSource => stdin_passphrase
  | keyfileSource path => Err (EWrap (error_String ErrUseKeyfile +:+ ": " +:+ path) [ErrUseKeyfile])
  | otherSource d => be_other env d
  end.

(** ** [boot.go] *)

Definition devModeTripwire (getenv : string → string) : option error :=
  if str_eqb (getenv "RESY_SNIPE_PROD") "1"
  then Some (ENew "daemon: RESY_SNIPE_PROD=1; refusing --insecure-no-encryption")
  else if be_dockerenv env
       then Some (ENew "daemon: /.dockerenv present; refusing --insecure-no-encryption inside a container")
       else None.
Definition describeSigner (cfg : Config) : string :=
  if is_empty (Bin (c_Signer cfg)) then "noop" else "subprocess (" +:+ Bin (c_Signer cfg) +:+ ")".
Definition sealed (key : string) (meta : Meta) (desc : string) : res (Sealer * string) :=
  sealer ← NewSealer (Some key) meta;
  Ok (sealer, desc).
Definition unlockSealer (cfg : Config) (opts : Options) (meta : Meta) : res (Sealer * string) :=
  source ← ResolvePassphraseSource cfg opts;
  match source with
  | keyfileSource path =>
      match ReadKeyfile (be_mlock env) path (be_stat env path) (be_fopen env path) (be_read env path) with
      | Err e => Err (wrap "daemon: read keyfile: " e)
      | Ok key => sealed key meta (Describe source)
      end
  | _ =>
      passphrase ← Passphrase opts source;
      key ← DeriveKeyFromPassphrase IDKey (be_mlock env) passphrase (KDFSalt meta);
      sealed key meta (Describe source)
  end.
Definition ErrLockHeld : error := ESentinel "daemon: data.db lock is already held".
(** A lock file that was opened is closed again when it cannot be locked. *)
Definition acquireFileLock (path : string) : B unit := λ h,
  match be_lockfile env with
  | Some e => (Err (wrap ("daemon: open lockfile " +:+ path +:+ ": ") e), h)
  | None =>
      match be_flock env with
      | FlockWouldBlock => (Err (EWrap (error_String ErrLockHeld +:+ ": " +:+ path) [ErrLockHeld]), h)
      | FlockError e => (Err (wrap ("daemon: flock " +:+ path +:+ ": ") e), h)
      | FlockOk => (Ok tt, set_lock true h)
      end
  end.
(** A failed [store.Open] leaves no handle; the lock goes, and once more in
    the deferred call, which finds it gone. *)
Definition open_db : B unit := λ h,
  match be_open env with
  | Some e => (Err (wrap "daemon: open db: " e), set_lock false h)
  | None => (Ok tt, set_db true h)
  end.
Definition insecure_mode (cfg : Config) (opts : Options) : bool :=
  str_eqb (Mode (c_Secrets cfg)) "insecure" || op_AllowInsecure opts.
Definition hold_sealer (s : Sealer) : B unit := λ h, (Ok tt, set_sealer (Some s) h).
(** Step 5; the meta row, and how the secrets were unlocked. *)
Definition unlock (cfg : Config) (opts : Options) : B (Meta * string) :=
  if insecure_mode cfg opts then
    if negb (op_AllowInsecure opts)
    then close_with (ENew "daemon: secrets.mode=insecure requires AllowInsecureNoEncryption=true")
    else
      _ ← step_or_close (devModeTripwire (op_Getenv opts));
      meta ← on_data (LoadOrInitMeta rand clock);
      mret (meta, "dev-mode (insecure)")
  else
    _ ← on_data CheckMixedVersion;
    meta ← on_data (LoadOrInitMeta rand clock);
    '(sealer, desc) ← or_close (unlockSealer cfg opts meta);
    _ ← hold_sealer sealer;
    mret (meta, desc).
Definition or_default (s d : string) : string := if is_empty s then d else s.
(** [banner.go]; [Boot] leaves the configuration's path blank. *)
Definition formatBanner (version commit : string) (schema : Z) (bind dir db configPath signer secrets : string) : list string :=
  ["resy-snipe " +:+ or_default version "dev" +:+ " (commit " +:+ or_default commit "unknown"
     +:+ ", schema v" +:+ fmt_d schema +:+ ")";
   "  bind:       " +:+ bind;
   "  data-dir:   " +:+ dir;
   "  data-db:    " +:+ db;
   "  config:     " +:+ or_default configPath
     ("(none " +:+ bytes [226; 128; 148]%nat +:+ " built-in defaults + env + flags)");
   "  signer:     " +:+ signer;
   "  secrets:    " +:+ secrets;
   "ready."].
Definition secrets_status (cfg : Config) (opts : Options) (meta : Meta) (desc : string) : string :=
  if insecure_mode cfg opts then desc
  else "unlocked (" +:+ (if str_eqb (Mode (c_Secrets cfg)) "keyfile" then "keyfile" else "Argon2id")
       +:+ ", key-version=" +:+ fmt_d (ActiveVersion meta) +:+ ")".
Definition announce (lines : list string) (notify : bool) : B unit := λ h,
  (Ok tt, mkHeld (h_lock h) (h_db h) (h_sealer h) (h_ready h + (if notify then 1 else 0)) (h_banner h ++ lines) (h_tick h) (h_data h)).
Definition Boot (cfg : Config) (opts : Options) : B Meta :=
  match Validate cfg with
  | Some e => failed (wrap "daemon: invalid config: " e)
  | None =>
      match be_mkdir env with
      | Some e => failed (wrap ("daemon: prepare data dir " +:+ DataDir (c_Daemon cfg) +:+ ": ") e)
      | None =>
          let dbPath := Clean (DataDir (c_Daemon cfg) +:+ "/data.db") in
          _ ← acquireFileLock (dbPath +:+ ".lock");
          _ ← open_db;
          _ ← on_schema (Migrate (be_exec env) (be_walk env) (be_files env));
          schema ← on_schema AppliedMaxVersion;
          '(meta, desc) ← unlock cfg opts;
          _ ← announce (formatBanner (op_Version opts) (op_Commit opts) schema (Bind (c_Daemon cfg))
                          (DataDir (c_Daemon cfg)) dbPath "" (describeSigner cfg) (secrets_status cfg opts meta desc))
                (op_Notify opts);
          mret meta
      end
  end.
End Boot.

(** ** What a boot does to the database *)

(** Nothing, but for the row of [secrets_meta] where there was none. *)
Record meta_only (d d' : SecretsDB) : Prop := {
  mo_sessions : sx_sessions d' = sx_sessions d;
  mo_secrets : sx_secrets d' = sx_secrets d;
  mo_meta : sx_meta d' = sx_meta d ∨ (sx_meta d = None ∧ ∃ salt ms, sx_meta d' = Some (mkMetaRec salt 1 ms))
}.
Lemma meta_only_refl d : meta_only d d.
Proof. split; [done|done|by left]. Qed.
#[local] Hint Resolve meta_only_refl : core.
Definition meta_of (row : MetaRec) : Meta := mkMeta (mt_salt row) (mt_version row).
Lemma CheckMixedVersion_spec fl n d :
  ∃ r n', CheckMixedVersion fl n d = (r, n', d) ∧
  (r = Ok tt → ∀ m, sx_meta d = Some m → Forall (λ x, sc_version x = mt_version m) (sx_secrets d)).
Proof.
  unfold CheckMixedVersion. run_sql. destruct (fl n) as [e|]; [by eexists _, _|].
  destruct (sx_meta d) as [m|]; [|by eexists _, _].
  destruct (List.filter _ _) eqn:E; [|by eexists _, _]. eexists _, _. split; [done|]. intros _ ? [= <-].
  apply Forall_forall. intros x Hx%list_elem_of_In. destruct (sc_version x =? mt_version m) eqn:Ev; [by apply Z.eqb_eq|].
  assert (Hin : In x []) by (rewrite <- E; apply filter_In; split; [done|unfold stale; by rewrite Ev]). destruct Hin.
Qed.
Lemma LoadOrInitMeta_spec rand clock fl n d :
  ∃ r n' d', LoadOrInitMeta rand clock fl n d = (r, n', d') ∧ meta_only d d' ∧
  (∀ meta, r = Ok meta → ∃ row, sx_meta d' = Some row ∧ meta = meta_of row).
Proof.
  unfold LoadOrInitMeta, draw, now_ms, insert_meta. run_sql.
  destruct (rand SaltLen n) as [salt|e]; [|by eexists _, _, _]. destruct (fl (S (S n))) as [e|]; [by eexists _, _, _|].
  set (d' := match sx_meta d with Some _ => _ | None => _ end).
  assert (Hd : meta_only d d').
  { subst d'. destruct (sx_meta d) as [m|] eqn:E; [done|]. split; [done..|]. right. split; [done|]. by eexists _, _. }
  destruct (fl _) as [e|]; [by eexists _, _, _|]. destruct (sx_meta d') as [row|] eqn:E; [|by eexists _, _, _].
  destruct (negb _); [by eexists _, _, _|]. eexists _, _, _. split; [done|]. split; [done|]. intros ? [= <-]. by exists row.
Qed.

(** ** What a boot leaves behind *)

(** A machine without the daemon, then with it. *)
Definition nothing (n : nat) (d : SchemaDB SecretsDB) : Held := mkHeld false false None 0 [] n d.
Definition opened (n : nat) (d : SchemaDB SecretsDB) : Held := mkHeld true true None 0 [] n d.
Definition serving (opts : Options) (h : Held) : Prop :=
  h_lock h = true ∧ h_db h = true ∧ h_ready h = (if op_Notify opts then 1 else 0)%nat ∧ last (h_banner h) = Some "ready.".
(** The sealer of a boot: its key is the one the chosen source gives, its
    version the stored one, and every secret there is has that version. *)
Record unlocked_by (Clean : string → string) (IDKey : string → string → string) (env : BootEnv) (cfg : Config)
    (opts : Options) (meta : Meta) (d : SecretsDB) (s : Sealer) : Prop := {
  ub_key : ∃ desc, unlockSealer Clean IDKey env cfg opts meta = Ok (s, desc);
  ub_length : String.length (se_aead s) = KeyLen;
  ub_version : se_version s = ActiveVersion meta;
  ub_rows : ∀ m, sx_meta d = Some m → Forall (λ x, sc_version x = se_version s) (sx_secrets d)
}.
Definition may_be_open (env : BootEnv) (opts : Options) : Prop :=
  op_AllowInsecure opts = true ∧ be_dockerenv env = false ∧ op_Getenv opts "RESY_SNIPE_PROD" ≠ "1".

Lemma sealed_inv key meta desc s desc' :
  sealed key meta desc = Ok (s, desc') → String.length (se_aead s) = KeyLen ∧ se_version s = ActiveVersion meta.
Proof.
  unfold sealed, NewSealer. destruct (key_ok (Some key)) eqn:E; [|done]. intros [= <- _].
  split; [by apply Nat.eqb_eq|done].
Qed.
Lemma unlockSealer_inv Clean IDKey env cfg opts meta s desc :
  unlockSealer Clean IDKey env cfg opts meta = Ok (s, desc) →
  String.length (se_aead s) = KeyLen ∧ se_version s = ActiveVersion meta.
Proof.
  unfold unlockSealer. destruct (ResolvePassphraseSource Clean cfg opts) as [src|]; [|done]. cbn.
  assert (H : (passphrase ← Passphrase env opts src;
               key ← DeriveKeyFromPassphrase IDKey (be_mlock env) passphrase (KDFSalt meta);
               sealed key meta (Describe src)) = Ok (s, desc) →
              String.length (se_aead s) = KeyLen ∧ se_version s = ActiveVersion meta).
  { intros (? & _ & (? & _ & H%sealed_inv)%bind_Ok)%bind_Ok. exact H. }
  destruct src; try done. destruct (ReadKeyfile _ _ _ _ _); [|done]. apply sealed_inv.
Qed.
(** The meta row the boot reads is of the version every secret has. *)
Lemma versions_agree d d' row :
  (∀ m, sx_meta d = Some m → Forall (λ x, sc_version x = mt_version m) (sx_secrets d)) →
  meta_only d d' → sx_meta d' = Some row →
  ∀ m, sx_meta d = Some m → Forall (λ x, sc_version x = mt_version row) (sx_secrets d).
Proof.
  intros Hv Hd Hrow m Hm. destruct (mo_meta _ _ Hd) as [E|[E _]]; [|congruence].
  rewrite E, Hm in Hrow. injection Hrow as <-. auto.
Qed.
(** The schema at one version, the tables but for a first meta row. *)
Definition meta_added (d d' : SchemaDB SecretsDB) : Prop :=
  sd_versions d' = sd_versions d ∧ meta_only (sd_data d) (sd_data d').
Lemma meta_added_refl d : meta_added d d.
Proof. by split. Qed.
Lemma meta_added_in d x : meta_only (sd_data d) x → meta_added d (mkSchemaDB (sd_versions d) x).
Proof. by split. Qed.
#[local] Hint Resolve meta_added_refl meta_added_in : core.
Lemma unlock_spec Clean IDKey rand clock env cfg opts n d :
  match unlock Clean IDKey rand clock env cfg opts (opened n d) with
  | (Err _, h) => ∃ n' d', h = nothing n' d' ∧ meta_added d d'
  | (Ok (meta, _), h) =>
      ∃ n' d' s row, h = set_sealer s (opened n' d') ∧ meta_added d d' ∧ sx_meta (sd_data d') = Some row ∧ meta = meta_of row ∧
      match s with
      | Some s => insecure_mode cfg opts = false ∧ unlocked_by Clean IDKey env cfg opts meta (sd_data d) s
      | None => may_be_open env opts
      end
  end.
Proof.
  unfold unlock, on_data, on_schema, step_or_close, or_close, mbind, b_bind, mret, b_ret.
  destruct (LoadOrInitMeta_spec rand clock (be_faults env) n (sd_data d)) as (r0 & n0 & d0 & E0 & H0 & Hr0).
  destruct (insecure_mode cfg opts).
  - destruct (op_AllowInsecure opts) eqn:Ea; [|by exists n, d]. cbn. unfold devModeTripwire.
    destruct (str_eqb _ _) eqn:Ep; [by exists n, d|]. destruct (be_dockerenv env) eqn:Ed; [by exists n, d|].
    cbn. rewrite E0. destruct r0 as [meta|]; [|eexists _, _; split; [reflexivity|by apply meta_added_in]]. destruct (Hr0 meta eq_refl) as (row & Hm & Hmeta).
    unfold str_eqb in Ep. apply bool_decide_eq_false_1 in Ep.
    exists n0, (mkSchemaDB (sd_versions d) d0), None, row. split; [reflexivity|]. split; [by apply meta_added_in|]. by split_all.
  - cbn. destruct (CheckMixedVersion_spec (be_faults env) n (sd_data d)) as (r1 & n1 & E1 & H1). rewrite E1.
    destruct r1 as [[]|]; [|eexists _, _; split; [reflexivity|by apply meta_added_in]]. cbn.
    destruct (LoadOrInitMeta_spec rand clock (be_faults env) n1 (sd_data d)) as (r2 & n2 & d2 & E2 & H2 & Hr2). rewrite E2.
    destruct r2 as [meta|]; [|eexists _, _; split; [reflexivity|by apply meta_added_in]]. destruct (Hr2 meta eq_refl) as (row & Hm & Hmeta).
    destruct (unlockSealer Clean IDKey env cfg opts meta) as [[s desc]|] eqn:Eu;
      [|eexists _, _; split; [reflexivity|by apply meta_added_in]].
    exists n2, (mkSchemaDB (sd_versions d) d2), (Some s), row. split; [reflexivity|]. split; [by apply meta_added_in|]. split_all; try done.
    destruct (unlockSealer_inv _ _ _ _ _ _ _ _ Eu) as [Hl Hv]. split; [by exists desc|done|done|].
    rewrite Hv, Hmeta. by apply (versions_agree _ _ _ (H1 eq_refl) H2).
Qed.
(** What a boot makes of the database: the first of the pending migrations
    run, each whole, and after the last of them perhaps a first meta row. *)
Definition booted_over (env : BootEnv) (d d' : SchemaDB SecretsDB) : Prop :=
  ∃ d1 l, brought (be_exec env) (be_files env) d d1 l ∧
    (d' = d1 ∨ all_applied (be_files env) d l ∧ meta_added d1 d').
Lemma booted_over_refl env d : booted_over env d d.
Proof.
  exists d, []. split; [|by left]. split; [by left|by rewrite app_nil_r|done].
Qed.

(** How a boot ends, by its steps. *)
Lemma boot_spec Clean IDKey rand clock env cfg opts n d :
  match Boot Clean IDKey rand clock env cfg opts (nothing n d) with
  | (Err _, h) => ∃ n' d', h = nothing n' d' ∧ booted_over env d d'
  | (Ok meta, h) =>
      serving opts h ∧ Validate cfg = None ∧
      (∃ d1 l, brought (be_exec env) (be_files env) d d1 l ∧ all_applied (be_files env) d l ∧ meta_added d1 (h_data h) ∧
        match h_sealer h with
        | Some s => insecure_mode cfg opts = false ∧ unlocked_by Clean IDKey env cfg opts meta (sd_data d1) s
        | None => may_be_open env opts
        end) ∧
      (∃ row, sx_meta (sd_data (h_data h)) = Some row ∧ meta = meta_of row)
  end.
Proof.
  assert (Hn : ∃ n' d', nothing n d = nothing n' d' ∧ booted_over env d d')
    by (exists n, d; split; [done|apply booted_over_refl]).
  unfold Boot. destruct (Validate cfg) eqn:Ev; [done|]. destruct (be_mkdir env); [done|].
  unfold mbind, b_bind, mret, b_ret, acquireFileLock. destruct (be_lockfile env); [done|].
  destruct (be_flock env) as [| |e]; [|done|done]. unfold open_db. destruct (be_open env); [done|].
  unfold on_schema at 1. cbn [h_tick h_data set_db set_lock nothing].
  pose proof (Migrate_brings (be_exec env) (be_walk env) (be_files env) (be_faults env) n d) as H1.
  destruct (Migrate _ _ _ _ n d) as [[[[]|e] n1] d1]; destruct H1 as (l & Hb & Hall);
    [|exists n1, d1; split; [done|]; exists d1, l; split; [done|by left]]. specialize (Hall eq_refl).
  cbn [or_close mret b_ret]. unfold on_schema at 1. cbn [h_tick h_data set_data].
  assert (H2 : ∃ r n2, AppliedMaxVersion (be_faults env) n1 d1 = (r, n2, d1)).
  { unfold AppliedMaxVersion, readApplied. run_sql. destruct (be_faults env n1); [by do 2 eexists|].
    destruct (sd_versions d1); by do 2 eexists. }
  destruct H2 as (r & n2 & ->). destruct r as [schema|e]; cbn [or_close mret b_ret];
    [|exists n2, d1; split; [done|]; exists d1, l; split; [done|by left]].
  pose proof (unlock_spec Clean IDKey rand clock env cfg opts n2 d1) as H.
  match goal with |- context [unlock _ _ _ _ _ _ _ ?h] => change h with (opened n2 d1) end.
  destruct (unlock _ _ _ _ env cfg opts (opened n2 d1)) as [[[meta desc]|e] h].
  - destruct H as (n' & d' & s & row & -> & Hd & Hm & Hmeta & Hs). cbn.
    split; [done|]. split; [done|]. split; [by exists d1, l|]. by exists row.
  - destruct H as (n' & d' & -> & Hd). exists n', d'. split; [done|]. exists d1, l. split; [done|by right].
Qed.

(** C22. A boot is all or nothing.  One that fails, at whatever step, leaves
    no lock, no database handle and no key behind and announces nothing; one
    that succeeds holds the lock and the database, whose schema is up to
    date, and has announced itself once.  Unless encryption is off it holds
    the key that the chosen source gives, at the stored version, and every
    secret there is has that version.  Encryption is off only on the
    operator's explicit word, outside a container and outside production.
    Either way the tables are what the first pending migrations, each run
    whole and recorded, made of them - all of them in a boot that succeeds,
    or that gets any further - but for a first meta row.  Closing gives
    everything back whatever the single steps say. *)
Theorem boot_all_or_nothing Clean IDKey rand clock env cfg opts n d :
  match Boot Clean IDKey rand clock env cfg opts (nothing n d) with
  | (Err _, h) => ∃ n' d', h = nothing n' d' ∧ booted_over env d d'
  | (Ok meta, h) =>
      serving opts h ∧ Validate cfg = None ∧
      (∃ d1 l, brought (be_exec env) (be_files env) d d1 l ∧ all_applied (be_files env) d l ∧ meta_added d1 (h_data h) ∧
        match h_sealer h with
        | Some s => insecure_mode cfg opts = false ∧ unlocked_by Clean IDKey env cfg opts meta (sd_data d1) s
        | None => may_be_open env opts
        end) ∧
      (∃ row, sx_meta (sd_data (h_data h)) = Some row ∧ meta = meta_of row) ∧
      ∀ env', let h' := (Close env' h).2 in h_lock h' = false ∧ h_db h' = false ∧ h_sealer h' = None
  end.
Proof.
  pose proof (boot_spec Clean IDKey rand clock env cfg opts n d) as H.
  destruct (Boot _ _ _ _ _ _ _ _) as [[meta|e] h]; [|exact H]. destruct H as (? & ? & ? & ?). by split_all.
Qed.

(** The configuration can switch the derivation's cost, which the derivation
    does not look at. *)
Lemma derive_ignores_cost Clean IDKey env cfg opts meta mem time par :
  unlockSealer Clean IDKey env cfg opts meta
  = unlockSealer Clean IDKey env
      (mkConfig (c_Daemon cfg) (mkSecretsConfig (Mode (c_Secrets cfg)) (Keyfile (c_Secrets cfg)) mem time par)
         (c_HTTP cfg) (c_Signer cfg) (c_Engine cfg)) opts meta.
Proof. reflexivity. Qed.
