(* ===== verification/Server.v ===== *)
(** * [transport/http]: authentication, handlers and routes

    [auth.go], the handlers of [venues.go], [plans.go], [quests.go],
    [sse.go], [accounts.go], [tokens.go] and the catch-all of [server.go],
    over the service and the multi-user store, with the token lookup of
    [cmd/resy-snipe/serve.go].  A request arrives with its route matched;
    matching patterns, headers other than those named here and the listener
    itself are [net/http]'s. *)

From S2P Require Import Prelude Text Json JsonText GoTime GoFormat Types Status Slots Drop Hash Codec Wire.
From S2P Require Import Strategy Plan Sql Sqlite SqliteStore Tenant Quests Accounts Tokens Engine Resolver Service Adapter Stream Transport.

#[local] Existing Instances m_ret m_bind.

(** ** Requests *)

(** What the mux matched.  The route of the event stream,
    [GET /v1/quests/{id}/events], is not among them: its answer is no single
    response but the text of [event_stream]. *)
Inductive Route :=
| PostVenuesResolve
| PostQuestsPlan
| PostQuests
| GetQuests
| GetQuestsId (id : string)
| DeleteQuestsId (id : string)
| PostAccountsLogin
| GetAccounts
| PostAuthTokens
| DeleteAuthTokensId (id : string)
| GetAuthTokens
| Unrouted (method path : string).
Record Request := mkRequest {
  rq_Route : Route;
  rq_Authorization : string;
  rq_Query : list (string * string);
  rq_Body : res string
}.

(** ** [auth.go] *)

Definition ErrTokenNotFound : error := ESentinel "transport/http: token not found".
Notation Response := Transport.Response.
Definition touchInterval : Z := 1500 * millisecond.
Record TokenInfo := mkTokenInfo { ti_UserID : string; ti_Scope : string; ti_Hash : list Z }.
(** Both branches compare letters without case, and then keep the rest. *)
Definition parseBearer (header : string) : res string :=
  if is_empty header then Err (ENew "missing Authorization header")
  else if (String.length header <? 7)%nat
          || negb (str_eqb (map_str lower_char (String.substring 0 7 header)) "bearer ")
  then Err (ENew "authorization header is not a Bearer scheme")
  else
    let token := TrimSpace (String.substring 7 (String.length header - 7) header) in
    if is_empty token then Err (ENew "bearer token is empty") else Ok token.
(** [lastTouch], keyed by the digest. *)
Notation Touches := (gmap (list Z) Time).
Definition shouldTouch (hash : list Z) (now_ : Time) (t : Touches) : bool * Touches :=
  match t !! hash with
  | Some prev => if time_sub now_ prev <? touchInterval then (false, t) else (true, <[hash := now_]> t)
  | None => (true, <[hash := now_]> t)
  end.

(** ** [serve.go]: the lookup *)

Definition lookup_FindTokenByHash (h : list Z) : TSQL TokenInfo := λ fl n d,
  match Tokens.FindTokenByHash h fl n d with
  | (Ok row, n', d') => (Ok (mkTokenInfo (t_UserID row) (t_Scopes row) (t_Hash row)), n', d')
  | (Err e, n', d') => (Err (if errors_is e Store.ErrNotFound then ErrTokenNotFound else e), n', d')
  end.
Definition lookup_TouchSeen (h : list Z) (now_ : Time) : TSQL unit := TouchTokenSeen h now_.

Section Server.
Context {St : Type} `{!SnipeStore St} {clk : SqliteClock} (senv : SEnv) (abbreviation : Time → string).
Notation env := (sv_env senv).
Notation W := (World (Stores St TenantDB)).
Notation SM := (@M (Stores St TenantDB)).

(** [service.ContextWithCaller]. *)
Definition ContextWithCaller (scope : string) : SEnv :=
  mkSEnv (sv_env senv) (sv_resolve senv) (sv_calendar senv) (sv_auth senv) (sv_rand senv) (sv_blake2b senv) scope
    (sv_persist senv) (sv_ip senv) (sv_lower senv).

Definition unauthorized (verb : string) : Response :=
  Transport.WriteError (wrap (verb +:+ ": ") Service.ErrUnauthorized).
(** A step of a handler: the error is the response. *)
Definition or_else {A} (on_error : error → Response) (r : res A) (k : A → SM Response) : SM Response :=
  match r with Ok a => k a | Err e => mret (on_error e) end.
Notation "'try' x ':=' m ; k" := (or_else Transport.WriteError m (λ x, k)) (at level 200, x name, right associativity).
Definition answer {A} (on_error : error → Response) (m : SM A) (k : A → Response) : SM Response :=
  r ← attempt m; mret (match r with Ok a => k a | Err e => on_error e end).
(** A verb that returns an id and an error at once. *)
Definition answer_id (on_error : error → Response) (m : SM outcome_id) (k : string → Response) : SM Response :=
  r ← attempt m;
  mret (match r with Ok (id, None) => k id | Ok (_, Some e) => on_error e | Err e => on_error e end).
Definition detail (k v : string) : gmap string json := {[ k := JStr v ]}.
Definition read_body (verb : string) (r : Request) : res string :=
  match rq_Body r with
  | Ok b => Ok b
  | Err e => Err (wrap_in (verb +:+ ": ") Service.ErrInvalidArgument (": " +:+ error_String e))
  end.

(** ** The handlers, each for a caller [uid] with [scope] *)

Section Handlers.
Context (uid scope : string).
Notation caller := (ContextWithCaller scope).

Definition resolveVenueHandler (r : Request) : SM Response :=
  try body := read_body "resolve_venue" r;
  try req := (Transport.decodeJSON body : res resolveVenueRequest);
  try vq := Transport.decodeVenueQuery (rvr_VenueQuery req);
  if is_empty uid then mret (unauthorized "resolve_venue")
  else answer Transport.WriteError (ResolveVenue caller uid (Some vq))
         (λ v, Transport.WriteJSON 200 (Transport.encodeVenue v)).
Definition planQuestHandler (r : Request) : SM Response :=
  try body := read_body "plan_quest" r;
  try req := (Transport.decodeJSON body : res planQuestRequest);
  try goal := Transport.decodeGoal (pqr_Goal req);
  if is_empty uid then mret (unauthorized "plan_quest")
  else answer Transport.WriteError (PlanQuest caller uid goal)
         (λ p, Transport.WriteJSON 200 (mkPlanQuestResponse (Transport.encodePlan p))).
Definition createQuestHandler (r : Request) : SM Response :=
  try body := read_body "create_quest" r;
  try req := (Transport.decodeJSON body : res createQuestRequest);
  try goal := Transport.decodeGoal (cqr_Goal req);
  if is_empty uid then mret (unauthorized "create_quest")
  else answer_id Transport.WriteError
         (CreateQuest caller uid goal (mkCreateOpts (cqr_PlanHash req) (cqr_IdempotencyKey req)))
         (λ id, Transport.WriteJSON 201 (mkCreateQuestResponse id)).
Definition listQuestsHandler (r : Request) : SM Response :=
  if is_empty uid then mret (unauthorized "list_quests")
  else
    try filter := Transport.parseListFilter (rq_Query r);
    answer Transport.WriteError (ListQuests caller uid filter)
      (λ rows, Transport.WriteJSON 200 (mkListQuestsResponse (map Transport.encodeQuestSummary rows))).
Definition getQuestHandler (qid : string) (r : Request) : SM Response :=
  if is_empty uid then mret (unauthorized "get_quest")
  else
    try _x := Transport.ensureNonEmpty "quest_id" qid;
    answer (λ e, Transport.WriteErrorDetails e (detail "quest_id" qid)) (GetQuest caller uid qid)
      (λ st, Transport.WriteJSON 200 (Transport.encodeQuestState abbreviation st)).
Definition cancelQuestHandler (qid : string) (r : Request) : SM Response :=
  if is_empty uid then mret (unauthorized "cancel_quest")
  else
    try _x := Transport.ensureNonEmpty "quest_id" qid;
    try body := read_body "cancel_quest" r;
    try opts := ((if is_empty body then Ok (mkCancelOpts "" None)
                  else req ← (Transport.decodeJSON body : res cancelQuestRequest);
                       Ok (mkCancelOpts (xqr_Reason req) (xqr_IdempotencyKey req))) : res CancelOpts);
    answer_id (λ e, Transport.WriteErrorDetails e (detail "quest_id" qid)) (CancelQuest caller uid qid opts)
      (λ _, Transport.NoContent).
Definition loginHandler (r : Request) : SM Response :=
  try body := read_body "login" r;
  try req := (Transport.decodeJSON body : res loginRequest);
  if is_empty (lgr_Email req) || is_empty (lgr_Password req)
  then mret (Transport.WriteError (invalid "login" "email and password are required"))
  else if is_empty uid then mret (unauthorized "login")
  else answer Transport.WriteError (Login caller uid (lgr_Email req) (lgr_Password req))
         (λ id, Transport.WriteJSON 201 (mkLoginResponse id)).
Definition listAccountsHandler (r : Request) : SM Response :=
  if is_empty uid then mret (unauthorized "list_accounts")
  else answer Transport.WriteError (ListAccounts caller uid)
         (λ rows, Transport.WriteJSON 200 (mkListAccountsResponse (map Transport.encodeAccount rows))).

(** [json.NewDecoder(r.Body).Decode]: the first document of the body. *)
Definition decode_first {A} `{WireCodec A} (body : res string) : option A :=
  match body with
  | Err _ => None
  | Ok s => '(j, _) ← parse_value (2 * String.length s + 2) s; of_json j zero_val
  end.
(** [t.Format(time.RFC3339)], in the time's own location. *)
Definition rfc3339_in (t : Time) : string :=
  fmt_utc_date (face_ns t) +:+ "T" +:+ fmt_utc_clock (face_ns t) +:+ fmt_zone (zone_offset t).
Definition issueTokenHandler (r : Request) : SM Response :=
  match (decode_first (rq_Body r) : option issueTokenRequest) with
  | None => mret (Transport.WriteError (wrap_in "issue_token: " Service.ErrInvalidArgument ": json"))
  | Some req =>
      if is_empty uid then mret (unauthorized "issue_token")
      else answer Transport.WriteError (IssueToken caller uid (itr_Label req) (itr_Scope req))
             (λ bt, Transport.WriteJSON 201
                      (mkIssueTokenResponse (bt_ID bt) (bt_Token bt) (bt_Label bt) (bt_Scope bt) (rfc3339_in (bt_CreatedAt bt))))
  end.
Definition revokeTokenHandler (id : string) (r : Request) : SM Response :=
  if is_empty id then mret (Transport.WriteError (invalid "revoke_token" "missing id"))
  else if is_empty uid then mret (unauthorized "revoke_token")
  else answer (λ e, Transport.WriteErrorDetails e (detail "token_id" id)) (RevokeToken caller uid id)
         (λ _, Transport.NoContent).
Definition token_response (t : Token) : tokenResponse :=
  mkTokenResponse (to_ID t) (to_Scope t) (to_Label t) (rfc3339_in (to_CreatedAt t)) (rfc3339_in <$> to_LastSeen t)
    (rfc3339_in <$> to_RevokedAt t).
Definition listTokensHandler (r : Request) : SM Response :=
  if is_empty uid then mret (unauthorized "list_tokens")
  else answer Transport.WriteError (ListTokens caller uid)
         (λ toks, Transport.WriteJSON 200 (mkListTokensResponse (map token_response toks))).
(** [server.go]: whatever no pattern matches. *)
Definition notFound (method path : string) : Response :=
  Transport.WriteErrorDetails (wrap ("route " +:+ method +:+ " " +:+ path +:+ ": ") Service.ErrNotFound)
    (<["method" := JStr method]> {[ "path" := JStr path ]}).
Definition handle (r : Request) : SM Response :=
  match rq_Route r with
  | PostVenuesResolve => resolveVenueHandler r
  | PostQuestsPlan => planQuestHandler r
  | PostQuests => createQuestHandler r
  | GetQuests => listQuestsHandler r
  | GetQuestsId id => getQuestHandler id r
  | DeleteQuestsId id => cancelQuestHandler id r
  | PostAccountsLogin => loginHandler r
  | GetAccounts => listAccountsHandler r
  | PostAuthTokens => issueTokenHandler r
  | DeleteAuthTokensId id => revokeTokenHandler id r
  | GetAuthTokens => listTokensHandler r
  | Unrouted m p => mret (notFound m p)
  end.

(** *** [sse.go] *)

Definition event_frame (e : Event) : string :=
  "event: " +:+ e_Type e +:+ nl +:+ "data: " +:+ Marshal (Transport.encodeEvent abbreviation e) +:+ nl +:+ nl.
(** What is written after the headers: a frame for each event the callback
    gets, and one for the error the verb returns, if any. *)
Definition error_frame (e : option error) : string :=
  match e with
  | Some e =>
      if errors_is e Canceled || errors_is e DeadlineExceeded then ""
      else "event: error" +:+ nl +:+ "data: " +:+ Marshal (error_String e) +:+ nl +:+ nl
  | None => ""
  end.
Definition event_stream (delivered : list Event) (e : option error) : string :=
  str_join "" (map event_frame delivered) +:+ error_frame e.
(** Before the headers: a response, or the start of the subscription. *)
Definition subscribeQuestHandler (qid : string) : SM (Response + Opened) :=
  if is_empty uid then mret (inl (unauthorized "subscribe_quest"))
  else
    match Transport.ensureNonEmpty "quest_id" qid with
    | Err e => mret (inl (Transport.WriteError e))
    | Ok _ => o ← subscribe_open caller uid qid true; mret (inr o)
    end.
End Handlers.

(** ** [AuthMiddleware.Wrap] *)

Definition refused : Response := Transport.WriteError (wrap "auth: " Service.ErrUnauthorized).
(** Who the request is from, or nobody; a live token is stamped at most once
    per interval. *)
Definition authenticate (authorization : string) (t : Touches) : SM (option TokenInfo * Touches) :=
  match parseBearer authorization with
  | Err _ => mret (None, t)
  | Ok token =>
      r ← attempt (tenant_call senv (lookup_FindTokenByHash (sv_blake2b senv token)));
      match r with
      | Err _ => mret (None, t)
      | Ok info =>
          n ← now env;
          let '(touch, t) := shouldTouch (ti_Hash info) n t in
          if touch : bool
          then _ ← attempt (tenant_call senv (lookup_TouchSeen (ti_Hash info) n)); mret (Some info, t)
          else mret (Some info, t)
      end
  end.
Definition Wrap (r : Request) (t : Touches) : SM (Response * Touches) :=
  '(who, t) ← authenticate (rq_Authorization r) t;
  match who with
  | None => mret (refused, t)
  | Some info => resp ← handle (ti_UserID info) (ti_Scope info) r; mret (resp, t)
  end.
End Server.
