(* ===== verification/Client.v ===== *)
(** * [client/http]: the command line's client

    The verbs of [client.go] as a request sent and a response read, the
    decoders of [wire.go], the errors of [errors.go], and the parser of the
    event stream.  What carries a request to the daemon and its answer back
    is [send]; the URL is the route, with an id as the daemon reads it. *)

From S2P Require Import Prelude Text Json JsonText GoTime GoFormat Types Status Slots Drop Hash Codec Wire.
From Stdlib Require Import Ascii.
From S2P Require Import Strategy Plan Sql Sqlite SqliteStore Tenant Quests Accounts Tokens Url Http Engine Resolver Service Adapter Stream Transport Server.

#[local] Existing Instances m_ret m_bind.

Module Client.

(** ** [wire.go] *)

Definition encodeVenueQuery (q : option VenueQuery) : venueQueryWire :=
  match q with
  | Some (VenueQueryURL u) => mkVenueQueryWire "url" u "" "" ""
  | Some (VenueQuerySlug s c) => mkVenueQueryWire "slug" "" s c ""
  | Some (VenueQueryName n) => mkVenueQueryWire "name" "" "" "" n
  | None => mkVenueQueryWire "nil" "" "" "" ""
  end.
Definition encodeGoal (g : Goal) : goalWire :=
  mkGoalWire (encodeVenueQuery (g_VenueQuery g)) (date_String (g_Date g)) (g_Party g)
    (mkTimeWindowWire (wall_String (tw_Start (g_TimePrefs g))) (wall_String (tw_End (g_TimePrefs g)))
       (priority_String (tw_Priority (g_TimePrefs g))))
    (g_AccountID g)
    (mkConstraintsWire (c_TableTypes (g_Constraints g)) (c_AnyTable (g_Constraints g))).
Definition decodeVenueQuery (w : venueQueryWire) : res (option VenueQuery) :=
  let k := vqw_Kind w in
  if str_eqb k "url" then Ok (Some (VenueQueryURL (vqw_URL w)))
  else if str_eqb k "slug" then Ok (Some (VenueQuerySlug (vqw_Slug w) (vqw_City w)))
  else if str_eqb k "name" then Ok (Some (VenueQueryName (vqw_Name w)))
  else if is_empty k || str_eqb k "nil" then Ok None
  else Err (ENew ("decode venue_query: unknown kind " +:+ fmt_q k)).
Definition decodeWallTime (s : string) : res WallTime :=
  if is_empty s then Ok (mkWallTime 0 0 0) else ParseWallTime s.
Definition parsePriorityWire (s : string) : TimePriority :=
  if str_eqb s "earlier" then PriorityEarlier else if str_eqb s "later" then PriorityLater else PriorityNone.
(** [fmt.Errorf("<pre>: %w", err)] around a decoder. *)
Definition decoding {A} (pre : string) (m : res A) : res A :=
  match m with Ok a => Ok a | Err e => Err (wrap (pre +:+ ": ") e) end.
Definition decodeGoal (w : goalWire) : res Goal :=
  vq ← decodeVenueQuery (gw_VenueQuery w);
  d ← (if is_empty (gw_Date w) then Ok (mkDate 0 0 0) else decoding "decode goal: date" (ParseDate (gw_Date w)));
  start ← decoding "decode goal: time_prefs.start" (decodeWallTime (tww_Start (gw_TimePrefs w)));
  end_ ← decoding "decode goal: time_prefs.end" (decodeWallTime (tww_End (gw_TimePrefs w)));
  Ok (mkGoal vq d (gw_Party w)
        (mkTimeWindow start end_ (parsePriorityWire (tww_Priority (gw_TimePrefs w)))) (gw_AccountID w)
        (mkConstraints (cw_TableTypes (gw_Constraints w)) (cw_AnyTable (gw_Constraints w)))).
Definition parseRFC3339 (s : string) : res Time :=
  if is_empty s then Ok zero_time
  else match parse_rfc3339nano s with Some t => Ok t | None => Err (ENew parsing_error) end.

Section Decoders.
Context (LoadLocation : string → res Location).
Definition decodeVenue (w : venueWire) : res Venue :=
  tz ← (if is_empty (vw_TZ w) then Ok None
        else l ← decoding ("decode venue: tz " +:+ fmt_q (vw_TZ w)) (LoadLocation (vw_TZ w)); Ok (Some l)
        : res (option Location));
  Ok (mkVenue (vw_Provider w) (vw_Ref w) (vw_Name w) tz).
Definition decodeStrategy (w : strategyWire) : res (option ReleaseStrategy) :=
  let tag := sw_Tag w in
  if str_eqb tag "explicit" then
    at_ ← decoding "decode strategy.explicit.at" (parseRFC3339 (sw_At w)); Ok (Some (ExplicitRelease at_))
  else if str_eqb tag "discovered" then
    from ← decoding "decode strategy.discovered.probe_from" (parseRFC3339 (sw_ProbeFrom w));
    until ← decoding "decode strategy.discovered.probe_until" (parseRFC3339 (sw_ProbeUntil w));
    Ok (Some (DiscoveredRelease from until))
  else if str_eqb tag "continuous" then
    until ← decoding "decode strategy.continuous.until" (parseRFC3339 (sw_Until w)); Ok (Some (ContinuousRelease until))
  else if is_empty tag || str_eqb tag "nil" then Ok None
  else Err (ENew ("decode strategy: unknown tag " +:+ fmt_q tag)).
(** A loop that decodes each item and stops at the first error. *)
Fixpoint decode_each {A B} (pre : string) (f : A → res B) (i : Z) (l : list A) : res (list B) :=
  match l with
  | [] => Ok []
  | a :: l' =>
      b ← decoding (pre +:+ "[" +:+ fmt_d i +:+ "]") (f a);
      rest ← decode_each pre f (i + 1) l';
      Ok (b :: rest)
  end.
Definition decodePlan (w : planWire) : res Plan :=
  goal ← decoding "decode plan.goal" (decodeGoal (pw_Goal w));
  venue ← decoding "decode plan.venue" (decodeVenue (pw_Venue w));
  drop ← decoding "decode plan.drop_moment" (parseRFC3339 (pw_DropMoment w));
  strategy ← decoding "decode plan.strategy" (decodeStrategy (pw_Strategy w));
  fs ← decode_each "decode plan.fire_schedule" parseRFC3339 0 (pw_FireSchedule w);
  computed ← decoding "decode plan.computed_at" (parseRFC3339 (pw_ComputedAt w));
  Ok (mkPlan goal venue drop strategy fs (pw_SigningRequired w) (pw_Hash w) (pw_Notes w) (pw_PlanHashVersion w)
        computed).
Definition statusFromString (s : string) : option Status :=
  find (λ st, str_eqb (status_String st) s) AllStatuses.
Definition decode_pointer (pre : string) (p : option string) : res (option Time) :=
  match p with
  | None => Ok None
  | Some s => t ← decoding pre (parseRFC3339 s); Ok (Some t)
  end.
Definition decodeQuestSummary (w : questSummaryWire) : res QuestSummary :=
  match statusFromString (qw_Status w) with
  | None => Err (ENew ("decode quest_summary: unknown status " +:+ fmt_q (qw_Status w)))
  | Some status =>
      created ← decoding "decode quest_summary.created_at" (parseRFC3339 (qw_CreatedAt w));
      updated ← decoding "decode quest_summary.updated_at" (parseRFC3339 (qw_UpdatedAt w));
      completed ← decode_pointer "decode quest_summary.completed_at" (qw_CompletedAt w);
      Ok (mkQuestSummary (qw_ID w) (qw_UserID w) (qw_AccountID w) status created updated completed (qw_PlanHash w))
  end.
(** The attributes come in the order the map is walked; here its own. *)
Definition decodeEvent (w : eventWire) : res Event :=
  at_ ← decoding "decode event.at" (parseRFC3339 (ew_At w));
  Ok (mkEvent (ew_Type w) at_ (map (λ kv, (kv.1, VString kv.2)) (map_to_list (ew_Attrs w)))).
Definition decodeQuestState (w : questStateWire) : res QuestState :=
  summary ← decodeQuestSummary (ow_Summary w);
  goal ← decoding "decode quest_state.goal" (decodeGoal (ow_Goal w));
  plan ← decoding "decode quest_state.plan" (decodePlan (ow_Plan w));
  events ← decode_each "decode quest_state.events" decodeEvent 0 (ow_Events w);
  Ok (mkQuestState summary goal (Some plan) events).
Definition decodeAccount (w : accountWire) : res Account :=
  created ← decoding "decode account.created_at" (parseRFC3339 (aw_CreatedAt w));
  disabled ← decode_pointer "decode account.disabled_at" (aw_DisabledAt w);
  Ok (mkAccount (aw_ID w) (aw_UserID w) (aw_Email w) (aw_DisplayName w) created disabled).
(** [UserID] is not on the wire. *)
Definition decodeToken (w : tokenResponse) : res Token :=
  created ← decoding "decode token.created_at" (parseRFC3339 (tkp_CreatedAt w));
  seen ← decode_pointer "decode token.last_seen" (tkp_LastSeen w);
  revoked ← decode_pointer "decode token.revoked_at" (tkp_RevokedAt w);
  Ok (mkToken (tkp_ID w) "" (tkp_Scope w) (tkp_Label w) created seen revoked).
End Decoders.

(** ** [errors.go] *)

Definition code_table : list (string * error) :=
  [("unauthenticated", Service.ErrUnauthorized); ("token_expired", Service.ErrTokenExpired);
   ("token_revoked", Service.ErrTokenRevoked); ("forbidden", Service.ErrForbidden);
   ("not_found", Service.ErrNotFound); ("venue_not_found", Service.ErrVenueNotFound);
   ("conflict", Service.ErrConflict); ("idempotency_conflict", Service.ErrIdempotencyConflict);
   ("venue_ambiguous", Service.ErrVenueAmbiguous); ("invite_consumed", Service.ErrInviteConsumed);
   ("invite_expired", Service.ErrInviteExpired); ("validation_failed", Service.ErrInvalidArgument);
   ("plan_hash_mismatch", Service.ErrInvalidPlanHash); ("rate_limited", Providers.ErrRateLimited);
   ("provider_session_expired", Providers.ErrAuthExpired); ("provider_unavailable", Service.ErrUpstreamUnavailable)].
Definition codeToSentinel (code : string) : option error := map_get code code_table.
(** [Error], as an error: its text, wrapping its sentinel if it has one.
    The details stay with the structured view. *)
Record ClientError := mkClientError {
  ce_Status : Z;
  ce_Code : string;
  ce_Message : string;
  ce_Details : gmap string json;
  ce_sentinel : option error
}.
Definition clientError_String (e : ClientError) : string :=
  "http " +:+ fmt_d (ce_Status e) +:+ (if is_empty (ce_Code e) then "" else " " +:+ ce_Code e) +:+ ": " +:+ ce_Message e.
Definition as_error (e : ClientError) : error :=
  EWrap (clientError_String e) (match ce_sentinel e with Some s => [s] | None => [] end).
Definition parseErrorEnvelope (status : Z) (body : string) : ClientError :=
  if is_empty body then mkClientError status "" ("http " +:+ fmt_d status +:+ " with empty body") ∅ None
  else
    match (Unmarshal body : option Envelope) with
    | None => mkClientError status "" ("http " +:+ fmt_d status +:+ ": undecodable body: json") ∅ None
    | Some env => mkClientError status (en_Code env) (en_Message env) (en_Details env) (codeToSentinel (en_Code env))
    end.

(** ** [client.go] *)

Section Verbs.
Context {St : Type} `{!SnipeStore St}.
Context (LoadLocation : string → res Location) (token : string).
Notation SM := (@M (Stores St TenantDB)).
(** The round trip: the response with its whole body, or the error of
    [http.Client.Do]. *)
Context (send : Request → SM Transport.Response).

(** An id in the path, as the daemon reads it.  The verbs put it in through
    [url.PathEscape]; [resolve] assigns the text to [URL.Path], which
    [URL.String] escapes again, and the daemon's mux unescapes once.  An id
    that is a dot or two is a path to clean, for which the mux redirects. *)
Definition path_id (id : string) : string := default id (unescape EncodePath (EscapedPath (PathEscape id))).
Lemma path_id_escaped id : path_id id = PathEscape id.
Proof. unfold path_id, EscapedPath. by rewrite unescape_but. Qed.

Definition newRequest {A} `{WireCodec A} (route : Route) (q : list (string * string)) (body : option A) : Request :=
  mkRequest route (if is_empty token then "" else "Bearer " +:+ token) q
    (Ok (match body with Some a => Marshal a | None => "" end)).
Definition no_body : option json := None.
(** [out] is decoded when there is a body; without one it keeps its zero. *)
Definition do {A} `{WireCodec A} (r : Request) : SM A :=
  resp ← wrapped "httpclient: transport: " (send r);
  if (Transport.rs_Status resp <? 200) || (300 <=? Transport.rs_Status resp)
  then fail (as_error (parseErrorEnvelope (Transport.rs_Status resp) (Transport.rs_Body resp)))
  else if is_empty (Transport.rs_Body resp) then mret zero_val
  else match Unmarshal (Transport.rs_Body resp) with
       | Some a => mret a
       | None => fail (wrap "httpclient: decode response: " (ENew "json"))
       end.
(** [do] with a nil [out]. *)
Definition do_nothing (r : Request) : SM unit :=
  resp ← wrapped "httpclient: transport: " (send r);
  if (Transport.rs_Status resp <? 200) || (300 <=? Transport.rs_Status resp)
  then fail (as_error (parseErrorEnvelope (Transport.rs_Status resp) (Transport.rs_Body resp)))
  else mret tt.
Definition decoded {A} (m : res A) : SM A := λ w, (m, w).
Definition empty_id (verb what : string) : error :=
  wrap_in ("httpclient: " +:+ verb +:+ ": ") Service.ErrInvalidArgument (": empty " +:+ what +:+ " id").

Definition ResolveVenue (q : option VenueQuery) : SM Venue :=
  w ← do (newRequest PostVenuesResolve [] (Some (mkResolveVenueRequest (encodeVenueQuery q))));
  decoded (decodeVenue LoadLocation w).
Definition PlanQuest (goal : Goal) : SM Plan :=
  resp ← do (newRequest PostQuestsPlan [] (Some (mkPlanQuestRequest (encodeGoal goal))));
  decoded (decodePlan LoadLocation (pqp_Plan resp)).
Definition CreateQuest (goal : Goal) (opts : CreateOpts) : SM string :=
  resp ← do (newRequest PostQuests []
               (Some (mkCreateQuestRequest (encodeGoal goal) (co_PlanHash opts) (co_IdempotencyKey opts))));
  mret (cqp_ID resp).
Definition GetQuest (id : string) : SM QuestState :=
  if is_empty id then fail (empty_id "GetQuest" "quest")
  else w ← do (newRequest (GetQuestsId (path_id id)) [] no_body); decoded (decodeQuestState LoadLocation w).
(** [url.Values.Set] of the parameters that are given. *)
Definition filter_values (f : QuestListFilter) : list (string * string) :=
  (match lf_Status f with [] => [] | l => [("status", str_join "," (map status_String l))] end)
  ++ (match lf_AccountID f with Some a => [("account_id", a)] | None => [] end)
  ++ (match lf_Since f with Some t => [("since", fmt_rfc3339 (t_ns t))] | None => [] end)
  ++ (match lf_Until f with Some t => [("until", fmt_rfc3339 (t_ns t))] | None => [] end)
  ++ (if 0 <? lf_Limit f then [("limit", fmt_d (lf_Limit f))] else [])
  ++ (if is_empty (lf_Cursor f) then [] else [("cursor", lf_Cursor f)]).
Fixpoint all_decoded {A B} (f : A → res B) (l : list A) : res (list B) :=
  match l with
  | [] => Ok []
  | a :: l' => b ← f a; rest ← all_decoded f l'; Ok (b :: rest)
  end.
Definition ListQuests (f : QuestListFilter) : SM (list QuestSummary) :=
  resp ← do (newRequest GetQuests (filter_values f) no_body);
  decoded (all_decoded decodeQuestSummary (lqp_Quests resp)).
Definition CancelQuest (id : string) (opts : CancelOpts) : SM unit :=
  if is_empty id then fail (empty_id "CancelQuest" "quest")
  else
    do_nothing (newRequest (DeleteQuestsId (path_id id)) []
      (if negb (is_empty (ca_Reason opts)) || bool_decide (ca_IdempotencyKey opts ≠ None)
       then Some (mkCancelQuestRequest (ca_Reason opts) (ca_IdempotencyKey opts)) else None)).
Definition Login (email password : string) : SM string :=
  resp ← do (newRequest PostAccountsLogin [] (Some (mkLoginRequest email password)));
  mret (lgp_AccountID resp).
Definition ListAccounts : SM (list Account) :=
  resp ← do (newRequest GetAccounts [] no_body); decoded (all_decoded decodeAccount (lap_Accounts resp)).
Definition IssueToken (label scope : string) : SM BearerToken :=
  resp ← do (newRequest PostAuthTokens [] (Some (mkIssueTokenRequest label scope)));
  created ← decoded (decoding "httpclient: IssueToken: decode created_at" (parseRFC3339 (itp_CreatedAt resp)));
  mret (mkBearerToken (itp_ID resp) (itp_Token resp) (itp_Label resp) (itp_Scope resp) created).
Definition RevokeToken (id : string) : SM unit :=
  if is_empty id then fail (empty_id "RevokeToken" "token")
  else do_nothing (newRequest (DeleteAuthTokensId (path_id id)) [] no_body).
Definition ListTokens : SM (list Token) :=
  resp ← do (newRequest GetAuthTokens [] no_body); decoded (all_decoded decodeToken (ltp_Tokens resp)).
End Verbs.

(** *** [parseSSE] *)

(** [bufio.Scanner] by lines: a trailing carriage return is dropped, and a
    line that does not fit the buffer stops the scan. *)
Definition max_token : nat := 1024 * 1024.
Fixpoint drop_cr (s : string) : string :=
  match s with
  | EmptyString => ""
  | String c EmptyString => if byte_of c =? 13 then "" else s
  | String c s' => String c (drop_cr s')
  end.
Fixpoint scan_lines (line s : string) : list string :=
  match s with
  | EmptyString => if is_empty line then [] else [line]
  | String c s' => if byte_of c =? 10 then line :: scan_lines "" s' else scan_lines (line +:+ String c "") s'
  end.
Definition ErrTooLong : error := ESentinel "bufio.Scanner: token too long".
Section Stream.
Definition stream_error (what : string) (e : error) : error := wrap ("httpclient: subscribe: " +:+ what +:+ ": ") e.
Definition flush (evType data : string) : res (option Event) :=
  if is_empty evType && is_empty data then Ok None
  else if str_eqb evType "error" then
    Err (ENew ("httpclient: subscribe: stream error: " +:+ default data (Unmarshal data : option string)))
  else
    match (Unmarshal data : option eventWire) with
    | None => Err (stream_error "decode event" (ENew "json"))
    | Some w => match decodeEvent w with
                | Ok e => Ok (Some e)
                | Err e => Err (stream_error "decode event" e)
                end
    end.
(** The events handed to the callback, and the error returned. *)
Fixpoint read_frames (evType data : string) (got : list Event) (lines : list string) (read_error : option error)
    : list Event * option error :=
  match lines with
  | [] =>
      match read_error with
      | Some e => (got, Some (stream_error "read" e))
      | None => match flush evType data with
                | Err e => (got, Some e)
                | Ok o => (got ++ option_list o, None)
                end
      end
  | raw :: rest =>
      if (max_token <=? String.length raw)%nat then (got, Some (stream_error "read" ErrTooLong))
      else
        let line := drop_cr raw in
        if is_empty line then
          match flush evType data with
          | Err e => (got, Some e)
          | Ok o => read_frames "" "" (got ++ option_list o) rest read_error
          end
        else if starts_with "event: " line
        then read_frames (String.substring 7 (String.length line - 7) line) data got rest read_error
        else if starts_with "data: " line
        then read_frames evType
               ((if is_empty data then data else data +:+ nl) +:+ String.substring 6 (String.length line - 6) line)
               got rest read_error
        else read_frames evType data got rest read_error
  end.
Definition parseSSE (body : string) (read_error : option error) : list Event * option error :=
  read_frames "" "" [] (scan_lines "" body) read_error.
End Stream.
End Client.
