(* ===== verification/WireProofs.v ===== *)
(** * What crosses the wire

    The server's and the client's codecs are each other's inverse where they
    need to be: a goal arrives as it was sent, a plan and a quest arrive cut
    to whole seconds, an error arrives as the sentinel it was mapped from,
    and the query of a listing arrives as the filter it was made from. *)

From S2P Require Import Prelude Text Json JsonText GoTime GoFormat Types Status Slots Drop Hash Codec Wire.
From S2P Require Import Strategy Plan Sql Tenant Quests Accounts Tokens Engine Resolver Service Transport Server Client.

(** ** Text *)

(** What follows a prefix. *)
Lemma substring_all s : String.substring 0 (String.length s) s = s.
Proof. induction s as [|c s IH]; cbn; [done|]. by rewrite IH. Qed.
Lemma substring_drop p s :
  String.substring (String.length p) (String.length (p +:+ s) - String.length p) (p +:+ s) = s.
Proof.
  induction p as [|c p IH]; cbn [String.length String.append].
  - rewrite Nat.sub_0_r. apply substring_all.
  - exact IH.
Qed.
(** All strings of a body are UTF-8 text. *)
Definition text_ok {A} `{WireCodec A} (a : A) : Prop := json_ok (to_json a).
Lemma Unmarshal_Marshal {A} `{WireCodec A} (a : A) ws :
  survives a → text_ok a → skip_ws ws = "" → Unmarshal (Marshal a +:+ ws) = Some a.
Proof. intros Hs Ht Hw. unfold Unmarshal, Marshal. by rewrite parse_json_text. Qed.
Lemma Unmarshal_Marshal_plain {A} `{WireCodec A} (a : A) :
  survives a → text_ok a → Unmarshal (Marshal a) = Some a.
Proof. intros Hs Ht. rewrite <- (append_nil_r (Marshal a)). by apply Unmarshal_Marshal. Qed.
Lemma Unmarshal_body {A} `{WireCodec A} (a : A) :
  survives a → text_ok a → Unmarshal (Transport.json_body a) = Some a.
Proof. intros Hs Ht. by apply Unmarshal_Marshal. Qed.
Lemma Marshal_not_empty {A} `{WireCodec A} (a : A) : text_ok a → is_empty (Marshal a) = false.
Proof. intros Ht. unfold Marshal. destruct (text_head (to_json a) Ht) as (c & s & -> & _). by apply str_eqb_neq. Qed.
Lemma body_not_empty {A} `{WireCodec A} (a : A) : is_empty (Transport.json_body a) = false.
Proof. unfold Transport.json_body. destruct (Marshal a); by apply str_eqb_neq. Qed.
Lemma decodeJSON_Marshal {A} `{WireCodec A} (a : A) :
  survives a → text_ok a → Transport.decodeJSON (Marshal a) = Ok a.
Proof.
  intros Hs Ht. unfold Transport.decodeJSON. by rewrite Marshal_not_empty, Unmarshal_Marshal_plain by done.
Qed.

(** A document of ASCII strings and integers, decided. *)
Fixpoint plain (j : json) : bool :=
  match j with
  | JNull | JBool _ => true
  | JNum n => match parse_int64 n with Some z => str_eqb (fmt_d z) n | None => false end
  | JStr s => is_ascii s
  | JArr l => forallb plain l
  | JObj m => forallb (λ kv, is_ascii kv.1 && plain kv.2) m
  end.
Lemma plain_ok j : plain j = true → json_ok j.
Proof.
  induction j as [| |n|s|l IH|m IH] using json_tree_ind; cbn [plain]; [done..| | | |].
  - destruct (parse_int64 n) as [z|]; [|done]. intros <-%str_eqb_true. apply fmt_d_number.
  - apply ascii_utf8.
  - rewrite ok_arr. induction IH as [|x l Hx _ IH]; cbn; [done|]. intros [Ha Hb]%andb_true_iff.
    apply Forall_cons. auto.
  - rewrite ok_obj. induction IH as [|[k x] m Hx _ IH]; cbn; [done|]. intros [[Hk Ha]%andb_true_iff Hb]%andb_true_iff.
    apply Forall_cons. cbn in *. auto using ascii_utf8.
Qed.

(** ** Goals *)

Definition is_int (z : Z) : Prop := min_int64 ≤ z ≤ max_int64.
Definition sendable (g : Goal) : Prop :=
  short_date (g_Date g) = true ∧ valid_wall (tw_Start (g_TimePrefs g)) = true ∧
  valid_wall (tw_End (g_TimePrefs g)) = true ∧ is_int (g_Party g).
Lemma wall_not_empty w : valid_wall w = true → is_empty (wall_String w) = false.
Proof.
  intros H. apply str_eqb_neq. intros E. apply ParseWallTime_String in H. by rewrite E in H.
Qed.
Lemma date_not_empty d : short_date d = true → is_empty (date_String d) = false.
Proof. intros H. apply str_eqb_neq. intros E. apply ParseDate_String in H. by rewrite E in H. Qed.
Lemma goal_to_server g : sendable g → g_VenueQuery g ≠ None → Transport.decodeGoal (Client.encodeGoal g) = Ok g.
Proof.
  intros (Hd & Hs & He & _) Hq. destruct g as [[q|] d n [s e p] a [t any_t]]; [|done].
  cbn [g_Date g_TimePrefs tw_Start tw_End] in *. unfold Transport.decodeGoal, Client.encodeGoal.
  cbn -[ParseDate ParseWallTime date_String wall_String].
  rewrite ParseDate_String, !ParseWallTime_String by done. by destruct q, p.
Qed.
Lemma goal_to_client g : sendable g → Client.decodeGoal (Transport.encodeGoal g) = Ok g.
Proof.
  intros (Hd & Hs & He & _). destruct g as [q d n [s e p] a [t any_t]].
  cbn [g_Date g_TimePrefs tw_Start tw_End] in *. unfold Client.decodeGoal, Transport.encodeGoal, Client.decodeWallTime.
  cbn -[ParseDate ParseWallTime date_String wall_String is_empty].
  rewrite date_not_empty, !wall_not_empty, ParseDate_String, !ParseWallTime_String by done. by destruct q as [[]|], p.
Qed.
Lemma sendable_survives g : sendable g → survives (Client.encodeGoal g).
Proof. intros (_ & _ & _ & H). by apply goal_survives. Qed.

(** A goal crosses the wire unchanged, in text: what the client marshals
    for planning or creating a quest is decoded by the server to the same
    goal, with the same plan hash and idempotency key; and a goal the server
    shows is decoded by the client to the same goal.  The goals are those
    with a venue query, a four-digit date, times of day and a party that fits
    an [int]; their strings are UTF-8. *)
Theorem goal_crosses g h k :
  sendable g → g_VenueQuery g ≠ None → text_ok (mkCreateQuestRequest (Client.encodeGoal g) h k) →
  (∃ r, Transport.decodeJSON (Marshal (mkCreateQuestRequest (Client.encodeGoal g) h k)) = Ok r ∧
        Transport.decodeGoal (cqr_Goal r) = Ok g ∧ cqr_PlanHash r = h ∧ cqr_IdempotencyKey r = k) ∧
  Client.decodeGoal (Transport.encodeGoal g) = Ok g.
Proof.
  intros Hg Hq Ht. split; [|by apply goal_to_client]. exists (mkCreateQuestRequest (Client.encodeGoal g) h k).
  split; [|split; [by apply goal_to_server|done]].
  apply decodeJSON_Marshal; [|done]. apply createQuestRequest_survives, Hg.
Qed.

Definition wire_goal_sample : Goal :=
  mkGoal (Some (VenueQuerySlug "carbone" "nyc")) (mkDate 2027 3 14) 2
    (mkTimeWindow (mkWallTime 18 30 0) (mkWallTime 21 0 0) PriorityLater) "acct_1" (mkConstraints ["Dining Room"] false).
Lemma wire_goal_sample_sendable : sendable wire_goal_sample.
Proof. repeat split; vm_compute; congruence. Qed.
Lemma goal_crosses_witness :
  Client.decodeGoal (Transport.encodeGoal wire_goal_sample) = Ok wire_goal_sample.
Proof.
  apply (goal_crosses wire_goal_sample (Some "sha256:00") (Some "k1")).
  - exact wire_goal_sample_sendable.
  - discriminate.
  - apply plain_ok. vm_compute. reflexivity.
Defined.

(** ** Times, plans and quests *)

(** What is left of an instant: whole seconds, in UTC. *)
Definition cut (t : Time) : Time := if is_zero_time t then zero_time else mkTime (t_ns t / second * second) UTC.
Lemma rfc3339_cut ns : fmt_rfc3339 ns = fmt_rfc3339nano (ns / second * second).
Proof.
  assert (Hu : t_unix (utc ns) = t_unix (utc (ns / second * second))).
  { unfold t_unix, utc. cbn. rewrite Z.div_mul; [done|]. unfold second. lia. }
  assert (Hn : t_nsec (utc (ns / second * second)) = 0).
  { unfold t_nsec, utc. cbn. apply Z.mod_mul. unfold second. lia. }
  unfold fmt_rfc3339, fmt_rfc3339nano. rewrite Hn. cbn [fmt_frac]. unfold fmt_utc_date, fmt_utc_clock.
  assert (Hl : local_secs (utc ns) = local_secs (utc (ns / second * second))).
  { unfold local_secs. rewrite Hu. done. }
  unfold t_year, t_month, t_day, t_hour, t_minute, t_second, t_date. rewrite <- Hl. reflexivity.
Qed.
Lemma time_text ns :
  four_digit_year ns →
  is_empty (fmt_rfc3339 ns) = false ∧ parse_rfc3339nano (fmt_rfc3339 ns) = Some (utc (ns / second * second)).
Proof.
  intros Hy. rewrite rfc3339_cut.
  assert (Hc : four_digit_year (ns / second * second)).
  { unfold four_digit_year, t_year, t_date in *.
    assert (Hl : local_secs (utc ns) = local_secs (utc (ns / second * second))).
    { unfold local_secs, t_unix, utc. cbn. rewrite Z.div_mul; [done|]. unfold second. lia. }
    by rewrite <- Hl. }
  pose proof (parse_fmt_rfc3339nano _ Hc) as Hp. split; [|done].
  apply str_eqb_neq. intros E. by rewrite E in Hp.
Qed.
Definition wire_time (t : Time) : Prop := is_zero_time t = true ∨ four_digit_year (t_ns t).
Lemma time_to_client t : wire_time t → Client.parseRFC3339 (Transport.rfc3339 t) = Ok (cut t).
Proof.
  intros Ht. unfold Transport.rfc3339, Client.parseRFC3339, cut. destruct (is_zero_time t) eqn:E; [done|].
  destruct Ht as [|Hy]; [congruence|]. by destruct (time_text _ Hy) as [-> ->].
Qed.
Definition cut_strategy (s : ReleaseStrategy) : ReleaseStrategy :=
  match s with
  | ExplicitRelease a => ExplicitRelease (cut a)
  | DiscoveredRelease f u => DiscoveredRelease (cut f) (cut u)
  | ContinuousRelease u => ContinuousRelease (cut u)
  end.
Definition cut_plan (p : Plan) : Plan :=
  mkPlan (p_Goal p) (p_Venue p) (cut (p_DropMoment p)) (cut_strategy <$> p_Strategy p) (map cut (p_FireSchedule p))
    (p_SigningRequired p) (p_Hash p) (p_Notes p) (p_PlanHashVersion p) (cut (p_ComputedAt p)).
Definition cut_summary (s : QuestSummary) : QuestSummary :=
  mkQuestSummary (sm_ID s) (sm_UserID s) (sm_AccountID s) (sm_Status s) (cut (sm_CreatedAt s)) (cut (sm_UpdatedAt s))
    (cut <$> sm_CompletedAt s) (sm_PlanHash s).
(** An event's attributes become text, one to a key, the last one given. *)
Definition last_attrs (abbreviation : Time → string) (l : list Attr) : gmap string string :=
  fold_left (λ m a, <[a.1 := attr_String abbreviation a.2]> m) l ∅.
Definition cut_event (abbreviation : Time → string) (e : Event) : Event :=
  mkEvent (e_Type e) (cut (e_At e))
    (map (λ kv, (kv.1, VString kv.2)) (map_to_list (last_attrs abbreviation (e_Attrs e)))).
Definition strategy_times (s : ReleaseStrategy) : list Time :=
  match s with ExplicitRelease a => [a] | DiscoveredRelease f u => [f; u] | ContinuousRelease u => [u] end.
Definition plan_times (p : Plan) : list Time :=
  p_DropMoment p :: p_ComputedAt p :: default [] (strategy_times <$> p_Strategy p) ++ p_FireSchedule p.
Definition summary_times (s : QuestSummary) : list Time :=
  sm_CreatedAt s :: sm_UpdatedAt s :: option_list (sm_CompletedAt s).

Section Crossing.
Context (LoadLocation : string → res Location) (abbreviation : Time → string).

(** The client knows the venue's zone by its name. *)
Definition same_zone (v : Venue) : Prop :=
  match v_TZ v with Some l => loc_name l ≠ "" ∧ LoadLocation (loc_name l) = Ok l | None => True end.
Record plan_sendable (p : Plan) : Prop := {
  ps_goal : sendable (p_Goal p);
  ps_zone : same_zone (p_Venue p);
  ps_times : Forall wire_time (plan_times p);
  ps_version : is_int (p_PlanHashVersion p)
}.

Lemma decoding_Ok {A} pre (a : A) m : m = Ok a → Client.decoding pre m = Ok a.
Proof. by intros ->. Qed.
Lemma decoding_time pre t : wire_time t → Client.decoding pre (Client.parseRFC3339 (Transport.rfc3339 t)) = Ok (cut t).
Proof. intros Ht. by apply decoding_Ok, time_to_client. Qed.
Lemma decode_each_map {A B C} pre (f : B → res C) (g : A → B) (h : A → C) (l : list A) i :
  Forall (λ a, f (g a) = Ok (h a)) l → Client.decode_each pre f i (map g l) = Ok (map h l).
Proof.
  intros Hl. revert i. induction Hl as [|a l Ha _ IH]; intros i; [done|]. cbn [map Client.decode_each].
  by rewrite (decoding_Ok _ (h a)), IH.
Qed.
Lemma venue_to_client v : same_zone v → Client.decodeVenue LoadLocation (Transport.encodeVenue v) = Ok v.
Proof.
  destruct v as [pr rf n [l|]]; unfold same_zone, Client.decodeVenue, Transport.encodeVenue; cbn; [|done].
  intros [Hn%str_eqb_neq Hl]. unfold is_empty in *. by rewrite Hn, Hl.
Qed.
Lemma strategy_to_client s :
  Forall wire_time (default [] (strategy_times <$> s)) →
  Client.decodeStrategy (Transport.encodeStrategy s) = Ok (cut_strategy <$> s).
Proof.
  destruct s as [[a|f u|u]|]; cbn -[Client.decodeStrategy Transport.encodeStrategy]; [| | |done];
    rewrite ?Forall_cons; intros H; unfold Client.decodeStrategy, Transport.encodeStrategy;
    cbn -[Client.decoding Transport.rfc3339]; by rewrite !decoding_time by apply H.
Qed.
Lemma plan_to_client p :
  plan_sendable p → Client.decodePlan LoadLocation (Transport.encodePlan p) = Ok (cut_plan p).
Proof.
  intros [Hg Hz Ht _]. unfold plan_times in Ht. rewrite !Forall_cons, Forall_app in Ht.
  destruct Ht as (Hd & Hc & Hs & Hf). unfold Client.decodePlan, Transport.encodePlan.
  cbn [pw_Goal pw_Venue pw_DropMoment pw_Strategy pw_FireSchedule pw_ComputedAt].
  rewrite (decoding_Ok _ _ _ (goal_to_client _ Hg)). cbn [mbind outcome_bind].
  rewrite (decoding_Ok _ _ _ (venue_to_client _ Hz)). cbn [mbind outcome_bind].
  rewrite (decoding_time _ _ Hd). cbn [mbind outcome_bind].
  rewrite (decoding_Ok _ _ _ (strategy_to_client _ Hs)). cbn [mbind outcome_bind].
  rewrite (decode_each_map _ _ _ cut). 2: { eapply Forall_impl; [exact Hf|]. apply time_to_client. }
  cbn [mbind outcome_bind]. by rewrite (decoding_time _ _ Hc).
Qed.

Lemma status_to_client st : Client.statusFromString (status_String st) = Some st.
Proof. by destruct st. Qed.
Lemma pointer_to_client pre p :
  Forall wire_time (option_list p) → Client.decode_pointer pre (Transport.rfc3339 <$> p) = Ok (cut <$> p).
Proof.
  destruct p as [t|]; cbn -[Client.decoding]; [|done]. rewrite Forall_singleton. intros Ht. by rewrite decoding_time.
Qed.
Lemma summary_to_client s :
  Forall wire_time (summary_times s) → Client.decodeQuestSummary (Transport.encodeQuestSummary s) = Ok (cut_summary s).
Proof.
  unfold summary_times. rewrite !Forall_cons. intros (Hc & Hu & Hd).
  unfold Client.decodeQuestSummary, Transport.encodeQuestSummary.
  cbn [qw_Status qw_CreatedAt qw_UpdatedAt qw_CompletedAt]. rewrite status_to_client.
  by rewrite !decoding_time, pointer_to_client by done.
Qed.
Lemma event_to_client e :
  wire_time (e_At e) → Client.decodeEvent (Transport.encodeEvent abbreviation e) = Ok (cut_event abbreviation e).
Proof. intros Ht. unfold Client.decodeEvent, Transport.encodeEvent. cbn [ew_At]. by rewrite decoding_time. Qed.

Record state_sendable (st : QuestState) : Prop := {
  ss_summary : Forall wire_time (summary_times (qs_Summary st));
  ss_goal : sendable (qs_Goal st);
  ss_plan : match qs_Plan st with Some p => plan_sendable p | None => True end;
  ss_events : Forall (λ e, wire_time (e_At e)) (qs_Events st)
}.
Definition cut_state (st : QuestState) : QuestState :=
  mkQuestState (cut_summary (qs_Summary st)) (qs_Goal st) (cut_plan <$> qs_Plan st)
    (map (cut_event abbreviation) (qs_Events st)).
(** The zero plan has no date to read. *)
Definition no_date : error :=
  wrap "decode plan.goal: " (wrap "decode goal: date: " (wrap ("date " +:+ fmt_q "0000-00-00" +:+ ": ") (ENew parsing_error))).
Lemma zero_plan_unreadable :
  Client.decodePlan LoadLocation (Transport.encodePlan Transport.zero_plan) = Err no_date.
Proof. vm_compute. reflexivity. Qed.
Lemma state_to_client st :
  state_sendable st →
  Client.decodeQuestState LoadLocation (Transport.encodeQuestState abbreviation st)
    = match qs_Plan st with
      | Some _ => Ok (cut_state st)
      | None => Err (wrap "decode quest_state.plan: " no_date)
      end.
Proof.
  intros [Hs Hg Hp He]. unfold Client.decodeQuestState, Transport.encodeQuestState, cut_state.
  cbn [ow_Summary ow_Goal ow_Plan ow_Events]. rewrite summary_to_client by done. cbn [mbind outcome_bind].
  rewrite (decoding_Ok _ _ _ (goal_to_client _ Hg)). cbn [mbind outcome_bind].
  destruct (qs_Plan st) as [p|]; cbn [default]; [|by rewrite zero_plan_unreadable].
  rewrite (decoding_Ok _ _ _ (plan_to_client _ Hp)). cbn [mbind outcome_bind].
  rewrite (decode_each_map _ _ _ (cut_event abbreviation)); [done|].
  eapply Forall_impl; [exact He|]. apply event_to_client.
Qed.

(** C34. A quest crosses the wire, in text: what the client unmarshals from the
    daemon's answer decodes to the quest the service gave, every time cut to
    whole seconds and every event's attributes rendered, with the same goal,
    statuses, plan hash and signing; but when the service has no plan for the
    quest, the client refuses the whole answer, for the zero plan it is sent
    has no date. *)
Theorem quest_crosses st :
  state_sendable st → text_ok (Transport.encodeQuestState abbreviation st) →
  ∃ w, Unmarshal (Transport.json_body (Transport.encodeQuestState abbreviation st)) = Some w ∧
       match qs_Plan st with
       | Some _ => Client.decodeQuestState LoadLocation w = Ok (cut_state st)
       | None => Client.decodeQuestState LoadLocation w = Err (wrap "decode quest_state.plan: " no_date)
       end.
Proof.
  intros Hs Ht. exists (Transport.encodeQuestState abbreviation st). split.
  - apply Unmarshal_body; [|done]. destruct Hs as [_ (_ & _ & _ & Hg) Hp _].
    apply state_survives; [exact Hg|]. destruct (qs_Plan st) as [p|] eqn:E.
    + destruct Hp as [(_ & _ & _ & Hq) _ _ Hv]. cbn. rewrite E. apply plan_survives; [exact Hq|exact Hv].
    + cbn. rewrite E. apply plan_survives; vm_compute; split; discriminate.
  - rewrite state_to_client by done. by destruct (qs_Plan st).
Qed.
End Crossing.

Definition wire_zone : Location := mkLocation "Europe/Paris" 3600 [].
Definition wire_zones (name : string) : res Location :=
  if str_eqb name "Europe/Paris" then Ok wire_zone else Err (ENew "unknown time zone").
Definition wire_moment : Time := mkTime 1805000000250000000 wire_zone.
Definition wire_plan_sample : Plan :=
  mkPlan wire_goal_sample (mkVenue "resy" "834" "Carbone" (Some wire_zone)) wire_moment
    (Some (DiscoveredRelease wire_moment wire_moment)) [wire_moment] true "sha256:00" ["n"] 1 wire_moment.
Definition wire_state_sample (plan : option Plan) : QuestState :=
  mkQuestState
    (mkQuestSummary "q_1" "usr_1" "acct_1" StatusScheduled wire_moment wire_moment None "sha256:00")
    wire_goal_sample plan [mkEvent "note" wire_moment [("from", VString "a"); ("n", VInt 2)]].
Lemma wire_moment_ok : wire_time wire_moment.
Proof. right. vm_compute. split; [discriminate|reflexivity]. Qed.
Ltac moments := repeat (apply Forall_cons; split; [exact wire_moment_ok|]); by apply Forall_nil.
Lemma wire_state_sendable (planned : bool) :
  state_sendable wire_zones (wire_state_sample (if planned then Some wire_plan_sample else None)).
Proof.
  pose proof wire_goal_sample_sendable as Hg.
  assert (Hp : plan_sendable wire_zones wire_plan_sample).
  { split; [exact Hg|split; [discriminate|reflexivity]|moments|vm_compute; split; discriminate]. }
  destruct planned; (split; [moments|exact Hg| |moments]); [exact Hp|exact I].
Qed.
Lemma quest_crosses_witness :
  (∃ w, Unmarshal (Transport.json_body (Transport.encodeQuestState (λ _, "CET") (wire_state_sample (Some wire_plan_sample))))
          = Some w ∧
        Client.decodeQuestState wire_zones w = Ok (cut_state (λ _, "CET") (wire_state_sample (Some wire_plan_sample)))) ∧
  ∃ w, Unmarshal (Transport.json_body (Transport.encodeQuestState (λ _, "CET") (wire_state_sample None))) = Some w ∧
       Client.decodeQuestState wire_zones w = Err (wrap "decode quest_state.plan: " no_date).
Proof.
  split.
  - apply (quest_crosses wire_zones (λ _, "CET") (wire_state_sample (Some wire_plan_sample)));
      [exact (wire_state_sendable true)|apply plain_ok; vm_compute; reflexivity].
  - apply (quest_crosses wire_zones (λ _, "CET") (wire_state_sample None));
      [exact (wire_state_sendable false)|apply plain_ok; vm_compute; reflexivity].
Defined.
