(* ===== verification/Answers.v ===== *)
(** * Errors and listings over the wire

    An error of the service reaches the client as the sentinel the server's
    table names it by, and as nothing else; the query string of a listing
    reaches the server as the filter it was made from. *)

From S2P Require Import Prelude Text Json JsonText GoTime GoFormat Types Status Slots Drop Hash Codec Wire.
From Stdlib Require Import Ascii.
From S2P Require Import Strategy Plan Sql Tenant Quests Accounts Tokens Engine Resolver Service Transport Server Client WireProofs.

(** ** Errors *)

(** The sentinel a response is named after. *)
Definition named_after (e : error) : option error :=
  fst <$> find (λ sm, errors_is e (fst sm)) Transport.mapping_table.
Lemma named_after_mapping e :
  match named_after e with
  | Some s => (s, Transport.MapError e) ∈ Transport.mapping_table ∧ errors_is e s = true
  | None => Transport.MapError e = Transport.mkErrorMapping 500 "internal"
  end.
Proof.
  unfold named_after, Transport.MapError, first_match.
  destruct (find _ _) as [[s m]|] eqn:E; cbn; [|done]. apply find_some in E as [Hin Hs].
  split; [by apply list_elem_of_In|done].
Qed.
(** The two tables agree row by row. *)
Definition row_agrees (sm : error * Transport.ErrorMapping) : Prop :=
  Client.codeToSentinel (Transport.em_Code sm.2) = Some sm.1 ∧ 400 ≤ Transport.em_Status sm.2 < 600 ∧
  Transport.em_Status sm.2 ≠ 500 ∧ match sm.1 with ESentinel _ => True | _ => False end.
Lemma tables_agree : Forall row_agrees Transport.mapping_table.
Proof.
  repeat apply Forall_cons_2; try apply Forall_nil_2; (split; [reflexivity|]); repeat split; cbn; congruence || lia.
Qed.
Lemma named_after_agrees e s :
  named_after e = Some s →
  ∃ m, Transport.MapError e = m ∧ Client.codeToSentinel (Transport.em_Code m) = Some s ∧
       400 ≤ Transport.em_Status m < 600 ∧ Transport.em_Status m ≠ 500 ∧ (∃ t, s = ESentinel t).
Proof.
  intros E. pose proof (named_after_mapping e) as H. rewrite E in H. destruct H as [Hin _].
  pose proof tables_agree as Ha. rewrite Forall_forall in Ha. destruct (Ha _ Hin) as (Hc & Hs & Hn & Ht).
  exists (Transport.MapError e). split; [done|]. split; [done|]. split; [done|]. split; [done|].
  cbn in Ht. destruct s; naive_solver.
Qed.
Lemma unnamed_internal e : named_after e = None → Transport.MapError e = Transport.mkErrorMapping 500 "internal".
Proof. intros E. pose proof (named_after_mapping e) as H. by rewrite E in H. Qed.
Lemma error_status e d : 400 ≤ Transport.rs_Status (Transport.WriteErrorDetails e d).
Proof.
  change (400 ≤ Transport.em_Status (Transport.MapError e)). destruct (named_after e) as [s|] eqn:E.
  - apply named_after_agrees in E as (m & -> & _ & Hs & _). lia.
  - rewrite unnamed_internal by done. cbn. lia.
Qed.
(** What the client makes of a response to [e]. *)
Definition received (e : error) (details : gmap string json) : Client.ClientError :=
  let r := Transport.WriteErrorDetails e details in
  Client.parseErrorEnvelope (Transport.rs_Status r) (Transport.rs_Body r).
Definition shown (e : error) : string :=
  match named_after e with Some _ => error_String e | None => "internal server error" end.
Definition details_text (details : gmap string json) : Prop := map_Forall (λ k j, utf8 k ∧ json_ok j) details.
Lemma mapping_text m : m = Transport.mkErrorMapping 500 "internal" ∨ (∃ s, (s, m) ∈ Transport.mapping_table) →
  utf8 (Transport.em_Code m).
Proof.
  intros H. apply ascii_utf8. assert (Hd : Forall (λ sm : error * Transport.ErrorMapping,
    is_ascii (Transport.em_Code sm.2) = true) Transport.mapping_table).
  { repeat apply Forall_cons_2; try apply Forall_nil_2; reflexivity. }
  rewrite Forall_forall in Hd. destruct H as [->|[s Hin]]; [done|]. by apply (Hd _ Hin).
Qed.
Lemma details_ok d : details_text d → text_ok d.
Proof.
  intros Hd. unfold text_ok. cbn. apply ok_obj. apply Forall_forall. intros [k j] Hin.
  rewrite merge_sort_Permutation in Hin. apply list_elem_of_fmap in Hin as ([k' j'] & E & Hin). injection E as -> ->.
  apply elem_of_map_to_list in Hin. by apply (Hd k' j').
Qed.
Lemma received_is e d :
  details_text d → utf8 (shown e) →
  received e d = Client.mkClientError (Transport.em_Status (Transport.MapError e)) (Transport.em_Code (Transport.MapError e))
                   (shown e) d (named_after e).
Proof.
  intros Hd Hu. unfold received, Client.parseErrorEnvelope, Transport.WriteErrorDetails.
  cbn [Transport.rs_Status Transport.rs_Body].
  assert (Hm : (if Transport.em_Status (Transport.MapError e) =? 500 then "internal server error" else error_String e) = shown e).
  { unfold shown. destruct (named_after e) as [s|] eqn:E; [|by rewrite unnamed_internal].
    apply named_after_agrees in E as (m & -> & _ & _ & Hn & _). by apply Z.eqb_neq in Hn as ->. }
  rewrite Hm, body_not_empty. set (env := mkErrorEnvelope _ _ _).
  assert (Hc : utf8 (Transport.em_Code (Transport.MapError e))).
  { apply mapping_text. pose proof (named_after_mapping e) as H. destruct (named_after e) as [s|]; [right|by left].
    exists s. apply H. }
  rewrite (Unmarshal_body env); [|apply envelope_survives|].
  - subst env. cbn [en_Code en_Message en_Details]. f_equal. destruct (named_after e) as [s|] eqn:E.
    + apply named_after_agrees in E as (m & -> & E & _). exact E.
    + by rewrite unnamed_internal.
  - pose proof (details_ok _ Hd) as Hj. unfold text_ok in *. subst env. cbn [to_json wire_envelope concat] in *.
    unfold fld_omit, fld. cbn [en_Code en_Message en_Details]. destruct (no_entries d); cbn [app].
    all: apply ok_obj; repeat (apply Forall_cons; split); try apply Forall_nil; repeat split; try done; by apply ascii_utf8.
Qed.

(** C35. An error survives the wire by its sentinel: whatever the service
    returns, the response is no success (its status is between 400 and 599),
    and what the client makes of it carries the same code, message and
    details, matches exactly the one sentinel that the server's table named
    it by, and nothing at all when the error was internal; and the client is
    told nothing about an internal error: any two give the same response.
    The one sentinel of a rate limit is the provider's, not the unavailable
    upstream a comment of the client promises as well. *)
Theorem errors_cross e d :
  details_text d → utf8 (shown e) →
  400 ≤ Transport.rs_Status (Transport.WriteErrorDetails e d) < 600 ∧
  Client.ce_Message (received e d) = shown e ∧ Client.ce_Details (received e d) = d ∧
  Client.ce_Code (received e d) = Transport.em_Code (Transport.MapError e) ∧
  (∀ t, errors_is (Client.as_error (received e d)) (ESentinel t) = true ↔ named_after e = Some (ESentinel t)) ∧
  (∀ s, named_after e = Some s → errors_is e s = true) ∧
  (∀ e', named_after e = None → named_after e' = None →
     Transport.WriteErrorDetails e' d = Transport.WriteErrorDetails e d).
Proof.
  intros Hd Hu. rewrite (received_is e d) by done. cbn [Client.ce_Message Client.ce_Details Client.ce_Code].
  split; [|split; [done|split; [done|split; [done|split; [|split]]]]].
  - change (400 ≤ Transport.em_Status (Transport.MapError e) < 600). destruct (named_after e) as [s|] eqn:E.
    + apply named_after_agrees in E as (m & -> & _ & Hs & _). exact Hs.
    + rewrite unnamed_internal by done. cbn. lia.
  - intros t. unfold Client.as_error. cbn [Client.ce_sentinel errors_is is_sentinel].
    destruct (named_after e) as [s|] eqn:E; cbn [existsb]; [|done].
    apply named_after_agrees in E as (_ & _ & _ & _ & _ & t' & ->). cbn [is_sentinel]. rewrite orb_false_r.
    rewrite bool_decide_eq_true. naive_solver.
  - intros s E. pose proof (named_after_mapping e) as H. rewrite E in H. apply H.
  - intros e' He He'. unfold Transport.WriteErrorDetails. by rewrite !unnamed_internal.
Qed.
Lemma errors_cross_witness :
  let e := wrap "GetQuest: " Service.ErrNotFound in
  let d : gmap string json := {[ "quest_id" := JStr "q1" ]} in
  400 ≤ Transport.rs_Status (Transport.WriteErrorDetails e d) < 600.
Proof.
  intros e d. apply (errors_cross e d); [|apply ascii_utf8; reflexivity].
  intros k j E. unfold d in E. apply lookup_singleton_Some in E as [<- <-]. split; [by apply ascii_utf8|].
  apply (ascii_utf8 "q1"). reflexivity.
Defined.

(** ** Listings *)

Definition no_comma (w : string) : bool := str_all (λ c, negb (Ascii.eqb c ",")) w.
Lemma split_go_word w field rest :
  no_comma w = true → Transport.split_go field (w +:+ rest) = Transport.split_go (field +:+ w) rest.
Proof.
  revert field. induction w as [|c w IH]; intros field Hw; [by rewrite append_nil_r|].
  cbn in Hw. apply andb_true_iff in Hw as [Hc Hw]. apply negb_true_iff in Hc. cbn. rewrite Hc, IH by done.
  by rewrite append_assoc.
Qed.
Lemma splitCSV_join l :
  Forall (λ w, no_comma w = true ∧ is_empty w = false) l → Transport.splitCSV (str_join "," l) = l.
Proof.
  unfold Transport.splitCSV. induction l as [|w [|w' l] IH]; [done| |]; intros [[Hw He] Hl]%Forall_cons.
  - cbn. rewrite <- (append_nil_r w) at 1. rewrite split_go_word by done. cbn. by rewrite He.
  - change (str_join "," (w :: w' :: l)) with (w +:+ "," +:+ str_join "," (w' :: l)).
    rewrite split_go_word by done. cbn [String.append Transport.split_go]. change ("," =? ",")%char with true. cbn iota. by rewrite He, IH.
Qed.
Lemma status_words l : Forall (λ w, no_comma w = true ∧ is_empty w = false) (map status_String l).
Proof. apply Forall_fmap, Forall_true. by intros []. Qed.
Lemma parse_statuses_names l : Transport.parse_statuses (map status_String l) = Ok l.
Proof. induction l as [|st l IH]; [done|]. cbn. rewrite IH. by destruct st. Qed.
Lemma parseStatusList_join l : Transport.parseStatusList (str_join "," (map status_String l)) = Ok l.
Proof.
  destruct l as [|st l]; [done|]. unfold Transport.parseStatusList. rewrite splitCSV_join by apply status_words.
  replace (is_empty _) with false by (destruct l, st; reflexivity). apply parse_statuses_names.
Qed.

Definition since_of (t : Time) : option Time :=
  let t := utc (t_ns t / second * second) in if is_zero_time t then None else Some t.
(** The filter the server lists by. *)
Definition received_filter (f : QuestListFilter) : QuestListFilter :=
  mkQuestListFilter (lf_Status f) (match lf_AccountID f with Some "" => None | a => a end)
    (lf_Since f ≫= since_of) (lf_Until f ≫= since_of) (Z.max 0 (lf_Limit f)) (lf_Cursor f).
Section Query.
Context (f : QuestListFilter).
Notation got := (Transport.Get (Client.filter_values f)).
Ltac by_cases := unfold Client.filter_values; destruct (lf_Status f), (lf_AccountID f), (lf_Since f), (lf_Until f),
  (0 <? lf_Limit f), (is_empty (lf_Cursor f)) eqn:?; try reflexivity.
Lemma get_status : got "status" = str_join "," (map status_String (lf_Status f)).
Proof. by_cases. Qed.
Lemma get_account : got "account_id" = default "" (lf_AccountID f).
Proof. by_cases. Qed.
Lemma get_since : got "since" = default "" (fmt_rfc3339 ∘ t_ns <$> lf_Since f).
Proof. by_cases. Qed.
Lemma get_until : got "until" = default "" (fmt_rfc3339 ∘ t_ns <$> lf_Until f).
Proof. by_cases. Qed.
Lemma get_limit : got "limit" = if 0 <? lf_Limit f then fmt_d (lf_Limit f) else "".
Proof. by_cases. Qed.
Lemma get_cursor : got "cursor" = lf_Cursor f.
Proof. by_cases; symmetry; by apply str_eqb_true. Qed.
End Query.
Lemma since_text t :
  from_option (λ t, four_digit_year (t_ns t)) True t →
  ∃ r, Transport.parseRFC3339 (default "" (fmt_rfc3339 ∘ t_ns <$> t)) = Ok r ∧
       (if is_zero_time r then None else Some r) = t ≫= since_of.
Proof.
  destruct t as [t|]; cbn; [|by exists zero_time]. intros [He Hp]%time_text. exists (utc (t_ns t / second * second)).
  unfold Transport.parseRFC3339. by rewrite He, Hp.
Qed.
Lemma limit_text n : n ≤ max_int64 →
  let s := if 0 <? n then fmt_d n else "" in
  (if is_empty s then Ok 0
   else match Transport.Atoi s with
        | Some n => Ok n | None => Err (Transport.bad_request "limit: strconv.Atoi") end : res Z) = Ok (Z.max 0 n).
Proof.
  intros Hn. destruct (0 <? n) eqn:E; cbn zeta; zb; [|cbn; f_equal; lia].
  assert (Hp : parse_int64 (fmt_d n) = Some n) by (apply parse_int64_fmt; unfold min_int64; lia).
  replace (is_empty (fmt_d n)) with false.
  - unfold Transport.Atoi. rewrite Hp. f_equal. lia.
  - symmetry. apply str_eqb_neq. intros Ee. by rewrite Ee in Hp.
Qed.

(** The query string of a listing is read back as the filter it was made
    from: the same statuses in the same order, the account if it has a name,
    the window cut to whole seconds (the zero instant is no bound), the limit
    with every non-positive one as none, and the cursor as it is. *)
Theorem filter_crosses f :
  from_option (λ t, four_digit_year (t_ns t)) True (lf_Since f) →
  from_option (λ t, four_digit_year (t_ns t)) True (lf_Until f) →
  lf_Limit f ≤ max_int64 →
  Transport.parseListFilter (Client.filter_values f) = Ok (received_filter f).
Proof.
  intros Hs Hu Hl. unfold Transport.parseListFilter, received_filter.
  rewrite get_status, get_account, get_since, get_until, get_limit, get_cursor, parseStatusList_join.
  apply since_text in Hs as (s & -> & <-), Hu as (u & -> & <-). cbn [mbind outcome_bind].
  rewrite (limit_text _ Hl). cbn [mbind outcome_bind]. do 2 f_equal.
  by destruct (lf_AccountID f) as [[|c a]|].
Qed.
Lemma filter_crosses_witness :
  let f := mkQuestListFilter [StatusSubmitted; StatusBooked] (Some "acct") (Some (utc 1500000000)) None 25 "c1" in
  Transport.parseListFilter (Client.filter_values f)
    = Ok (mkQuestListFilter [StatusSubmitted; StatusBooked] (Some "acct") (Some (utc 1000000000)) None 25 "c1").
Proof. intros f. apply (filter_crosses f); [vm_compute; split; [discriminate|reflexivity]|done|vm_compute; discriminate]. Defined.
