(* ===== verification/Gate.v ===== *)
(** * Who a request acts as

    The daemon answers a request only for the bearer of a live token, and as
    that token's user; everyone else is refused and changes nothing.  A token
    that was revoked is no longer live. *)

From S2P Require Import Prelude Text Json JsonText GoTime GoFormat Types Status Slots Drop Hash Codec Wire.
From S2P Require Import Strategy Plan Goal Sql Sqlite SqliteStore Tenant Quests Accounts Tokens Engine Resolver Service.
From S2P Require Import ServiceSteps Adapter Replay Stream Transport Server EngineProofs QuestsProofs.

#[local] Existing Instances m_ret m_bind.

(** The row of the live token a header carries. *)
Definition caller_of (senv : SEnv) (authorization : string) (d : TenantDB) : option TokenRec :=
  match parseBearer authorization with
  | Ok token =>
      let h := sv_blake2b senv token in
      if no_hash h then None else find (live_hash h) (tb_tokens d)
  | Err _ => None
  end.
Definition info_of (r : TokenRec) : TokenInfo := mkTokenInfo (tk_user r) (tk_scopes r) (tk_hash r).

Section Gate.
Context {St : Type} `{!SnipeStore St} {clk : SqliteClock} (senv : SEnv) (abbreviation : Time → string).
Notation env := (sv_env senv).
Notation W := (World (Stores St TenantDB)).
Notation SM := (@M (Stores St TenantDB)).
Notation tenants w := (st_tenants (w_store w)).

(** ** A handler always answers *)

Definition answers {A} (m : SM A) : Prop := ∀ w, ∃ a w', m w = (Ok a, w').
Lemma answers_ret {A} (a : A) : answers (mret a : SM A).
Proof. intros w. by exists a, w. Qed.
Lemma answers_attempt {A} (m : SM A) : answers (attempt m).
Proof. intros w. unfold attempt. destruct (m w) as [r w']. by exists r, w'. Qed.
Lemma answers_now : answers (now env : SM Time).
Proof. intros w. unfold now. eauto. Qed.
Lemma answers_bind {A B} (m : SM A) (k : A → SM B) : answers m → (∀ a, answers (k a)) → answers (m ≫= k).
Proof. intros Hm Hk w. destruct (Hm w) as (a & w' & E). destruct (Hk a w') as (b & w2 & E2). exists b, w2. unfold mbind, m_bind. by rewrite E. Qed.
Lemma answers_answer {A} f (m : SM A) k : answers (answer f m k).
Proof. apply answers_bind; [apply answers_attempt|intros r; apply answers_ret]. Qed.
Lemma answers_answer_id f (m : SM outcome_id) k : answers (answer_id f m k).
Proof. apply answers_bind; [apply answers_attempt|intros r; apply answers_ret]. Qed.
Lemma answers_or_else {A} f (r : res A) (k : A → SM Transport.Response) : (∀ a, answers (k a)) → answers (or_else f r k).
Proof. intros Hk. destruct r; [apply Hk|apply answers_ret]. Qed.
Create HintDb answers.
Hint Resolve answers_ret answers_attempt answers_now answers_bind answers_answer answers_answer_id answers_or_else : answers.
Lemma handle_answers uid scope r : answers (handle senv abbreviation uid scope r).
Proof.
  unfold handle, resolveVenueHandler, planQuestHandler, createQuestHandler, listQuestsHandler, getQuestHandler,
    cancelQuestHandler, loginHandler, listAccountsHandler, issueTokenHandler, revokeTokenHandler, listTokensHandler.
  destruct (rq_Route r); try destruct (decode_first _); repeat (apply answers_or_else; intros ?);
    repeat match goal with |- answers (if ?b then _ else _) => destruct b end; auto with answers;
    repeat (apply answers_or_else; intros ?); auto with answers.
Qed.

(** ** The lookup and the stamp *)

Definition stamp_live (h : list Z) (s : Z) (d : TenantDB) : TenantDB :=
  with_tokens (map (λ r, if live_hash h r then stamp_seen s r else r) (tb_tokens d)) d.
Definition touched (h : list Z) (d d' : TenantDB) : Prop := d' = d ∨ ∃ s, d' = stamp_live h s d.
Lemma lookup_cases h fl n d :
  ∃ r n', lookup_FindTokenByHash h fl n d = (r, n', d) ∧
    match r with
    | Ok info => ∃ row, no_hash h = false ∧ find (live_hash h) (tb_tokens d) = Some row ∧ info = info_of row
    | Err _ => no_faults fl → no_hash h = true ∨ find (live_hash h) (tb_tokens d) = None
    end.
Proof.
  unfold lookup_FindTokenByHash, FindTokenByHash. destruct (no_hash h) eqn:Eh.
  { do 2 eexists. split; [reflexivity|]. by left. }
  run_sql. destruct (fl n) as [e|] eqn:Ef; [do 2 eexists; split; [done|]; intros Hf; by rewrite Hf in Ef|].
  destruct (find _ _) as [row|] eqn:Er; cbn; do 2 eexists; (split; [done|]); [by exists row|by right].
Qed.
Lemma stamp_touches h now_ : moves (touched h) (lookup_TouchSeen h now_).
Proof.
  intros fl n d. unfold lookup_TouchSeen, TouchTokenSeen. destruct (no_hash h); [by left|].
  destruct (is_zero_time now_); [by left|]. run_sql. destruct (fl n); [by left|]. right. by eexists.
Qed.
(** The worlds before and after authenticating the bearer of [h]. *)
Definition stamped (h : list Z) (w w' : W) : Prop :=
  st_snipes (w_store w') = st_snipes (w_store w) ∧ w_inner w' = w_inner w ∧ w_emitted w' = w_emitted w ∧
  w_calls w' = w_calls w ∧ touched h (tenants w) (tenants w').
Lemma tenant_call_stamps {A} h (m : SqlOf TenantDB A) (w : W) :
  moves (touched h) m → stamped h w (tenant_call senv m w).2.
Proof.
  intros Hm. unfold tenant_call, store_call, on_tenants. set (fl := if en_done _ _ then _ else _).
  specialize (Hm fl (w_sql w) (tenants w)). by destruct (m fl (w_sql w) (tenants w)) as [[r n] b].
Qed.
Lemma live_digest h l row : find (live_hash h) l = Some row → tk_hash row = h.
Proof. intros [_ H]%find_some. unfold live_hash in H. apply andb_true_iff in H as [H _]. by apply bool_decide_eq_true in H. Qed.
Lemma lookup_world h (w : W) :
  let '(r, w1) := tenant_call senv (lookup_FindTokenByHash h) w in
  idle w w1 ∧
  match r with
  | Ok info => ∃ row, no_hash h = false ∧ find (live_hash h) (tb_tokens (tenants w)) = Some row ∧ info = info_of row
  | Err _ => undisturbed env → no_hash h = true ∨ find (live_hash h) (tb_tokens (tenants w)) = None
  end.
Proof.
  unfold tenant_call, store_call, on_tenants. set (fl := if en_done _ _ then _ else _).
  destruct (lookup_cases h fl (w_sql w) (tenants w)) as (r & n' & E & Hr). rewrite E.
  split; [split; try done; by destruct w as [[]]|]. destruct r as [info|e]; [done|].
  intros [Hf Hd]. apply Hr. subst fl. by rewrite Hd.
Qed.
Lemma stamped_after h (w w1 w2 : W) : idle w w1 → stamped h w1 w2 → stamped h w w2.
Proof. intros [Hs Hi He Hc]. unfold stamped. by rewrite Hs, Hi, He, Hc. Qed.
Lemma authenticate_cases auth t (w : W) :
  ∃ who t' w', authenticate senv auth t w = (Ok (who, t'), w') ∧
    match who with
    | None => t' = t ∧ idle w w' ∧ (undisturbed env → caller_of senv auth (tenants w) = None)
    | Some info => ∃ row, caller_of senv auth (tenants w) = Some row ∧ info = info_of row ∧
                          stamped (tk_hash row) w w'
    end.
Proof.
  unfold authenticate, caller_of. destruct (parseBearer auth) as [tok|e].
  2: { exists None, t, w. split; [done|]. split; [done|]. split; [by split|done]. }
  set (h := sv_blake2b senv tok). unfold mbind, m_bind, attempt.
  pose proof (lookup_world h w) as Hl. destruct (tenant_call senv (lookup_FindTokenByHash h) w) as [r w1].
  destruct Hl as [Hi Hr]. destruct r as [info|e].
  2: { exists None, t, w1. split; [done|]. split; [done|]. split; [done|]. intros Hu.
       destruct (Hr Hu) as [->| ->]; [done|by destruct (no_hash h)]. }
  destruct Hr as (row & -> & Hf & ->). rewrite Hf. cbn [now].
  destruct (shouldTouch _ _ t) as [[|] t'].
  - pose proof (tenant_call_stamps h (lookup_TouchSeen h (mkTime (w_now (tick env w1)) (en_loc env))) (tick env w1)
      (stamp_touches _ _)) as Hs. cbn [ti_Hash info_of]. rewrite (live_digest _ _ _ Hf).
    destruct (tenant_call senv _ (tick env w1)) as [r2 w2]. exists (Some (info_of row)), t', w2.
    split; [done|]. exists row. split; [done|]. split; [done|]. cbn in Hs. rewrite (live_digest _ _ _ Hf). by eapply stamped_after.
  - exists (Some (info_of row)), t', (tick env w1). split; [done|]. exists row. split; [done|]. split; [done|].
    eapply stamped_after; [exact Hi|]. repeat split; try done. by left.
Qed.

(** ** The gate *)

Lemma Wrap_refuses r t (w : W) :
  ∀ t' w', authenticate senv (rq_Authorization r) t w = (Ok (None, t'), w') →
  Wrap senv abbreviation r t w = (Ok (refused, t'), w').
Proof. intros t' w' E. unfold Wrap, mbind, m_bind. by rewrite E. Qed.
Lemma Wrap_admits r t (w : W) info t' w1 :
  authenticate senv (rq_Authorization r) t w = (Ok (Some info, t'), w1) →
  ∃ resp w', handle senv abbreviation (ti_UserID info) (ti_Scope info) r w1 = (Ok resp, w') ∧
             Wrap senv abbreviation r t w = (Ok (resp, t'), w').
Proof.
  intros E. destruct (handle_answers (ti_UserID info) (ti_Scope info) r w1) as (resp & w' & Eh).
  exists resp, w'. split; [done|]. unfold Wrap, mbind, m_bind. rewrite E. by rewrite Eh.
Qed.

(** C17. Nothing behind the gate runs for a stranger.  Every request is
    answered.  One without the bearer of a live token is answered 401, the
    same whatever is wrong with it, and leaves the stores and the stamps as
    they were.  One that carries a live token is handled with that token's
    own user and scope, in a world that differs from the one before only in
    when that token was last seen; it can still be refused, changing
    nothing, only when the lookup fails. *)
Theorem auth_gate r t (w : W) :
  Transport.rs_Status refused = 401 ∧
  ∃ resp t' w', Wrap senv abbreviation r t w = (Ok (resp, t'), w') ∧
    match caller_of senv (rq_Authorization r) (tenants w) with
    | None => resp = refused ∧ t' = t ∧ idle w w'
    | Some row =>
        (∃ w1, stamped (tk_hash row) w w1 ∧ handle senv abbreviation (tk_user row) (tk_scopes row) r w1 = (Ok resp, w'))
        ∨ (¬ undisturbed env ∧ resp = refused ∧ t' = t ∧ idle w w')
    end.
Proof.
  split; [reflexivity|].
  destruct (authenticate_cases (rq_Authorization r) t w) as (who & t' & w1 & E & H). destruct who as [info|].
  - destruct H as (row & -> & -> & Hs). destruct (Wrap_admits r t w _ _ _ E) as (resp & w' & Eh & Ew).
    exists resp, t', w'. split; [done|]. left. by exists w1.
  - destruct H as (-> & Hi & Hn). exists refused, t, w1. split; [by apply Wrap_refuses|].
    destruct (caller_of _ _ _) as [row|] eqn:Ec; [|done]. right. split; [|done]. intros Hu. specialize (Hn Hu). congruence.
Qed.
End Gate.

(** ** How often a token is stamped *)

(** The requests of a run, each with its token's digest and its instant; the
    ones that write a stamp, and what is remembered at the end. *)
Fixpoint stamps (reqs : list (list Z * Time)) (t : Touches) : list (list Z * Time) :=
  match reqs with
  | [] => []
  | (h, n) :: reqs' =>
      let '(write, t') := shouldTouch h n t in
      if write : bool then (h, n) :: stamps reqs' t' else stamps reqs' t'
  end.
Definition touches_after (reqs : list (list Z * Time)) (t : Touches) : Touches :=
  fold_left (λ t hn, (shouldTouch hn.1 hn.2 t).2) reqs t.
Lemma time_sub_least n p d : 0 < d → d ≤ time_sub n p → d ≤ t_ns n - t_ns p.
Proof. unfold time_sub, max_int64, min_int64. intros Hd H. repeat case_goal; zb; lia. Qed.
Lemma touch_cases h n t :
  (∃ p, t !! h = Some p ∧ time_sub n p < touchInterval ∧ shouldTouch h n t = (false, t))
  ∨ ((∀ p, t !! h = Some p → touchInterval ≤ t_ns n - t_ns p) ∧ shouldTouch h n t = (true, <[h := n]> t)).
Proof.
  unfold shouldTouch. destruct (t !! h) as [p|]; [|right; by split].
  destruct (time_sub n p <? touchInterval) eqn:E; zb; [left; by exists p|right].
  split; [|done]. intros p' [= <-]. by apply time_sub_least.
Qed.
Lemma stamps_later reqs t h p :
  t !! h = Some p → Forall (λ s, s.1 = h → touchInterval ≤ t_ns s.2 - t_ns p) (stamps reqs t).
Proof.
  revert t p. induction reqs as [|[h' n] reqs IH]; intros t p Ht; cbn [stamps]; [constructor|].
  destruct (touch_cases h' n t) as [(q & _ & _ & ->)|[Hd ->]]; [by apply IH|]. constructor.
  - cbn. intros ->. by apply Hd.
  - destruct (decide (h' = h)) as [->|Hn]; [|by apply IH; rewrite lookup_insert_ne].
    eapply Forall_impl; [apply (IH _ n); by rewrite lookup_insert_eq|]. cbn. intros [h2 n2] H2 E. specialize (H2 E).
    specialize (Hd p Ht). cbn in *. unfold touchInterval, millisecond in *. lia.
Qed.
Lemma stamps_app a b t : stamps (a ++ b) t = stamps a t ++ stamps b (touches_after a t).
Proof.
  revert t. induction a as [|[h n] a IH]; intros t; [done|]. cbn [stamps app]. unfold touches_after. cbn [fold_left fst snd].
  destruct (shouldTouch h n t) as [[|] t']; cbn [snd]; by rewrite IH.
Qed.
Lemma remembered_stamped reqs t h p :
  touches_after reqs t !! h = Some p → (h, p) ∈ stamps reqs t ∨ t !! h = Some p.
Proof.
  revert t. induction reqs as [|[h' n] reqs IH]; intros t; [by right|]. cbn [stamps]. unfold touches_after. cbn [fold_left fst snd].
  destruct (touch_cases h' n t) as [(q & _ & _ & ->)|[_ ->]]; cbn [snd]; intros [H|H]%IH; [by left|by right| |].
  - left. by right.
  - destruct (decide (h' = h)) as [->|Hn]; [|right; by rewrite lookup_insert_ne in H].
    rewrite lookup_insert_eq in H. injection H as ->. left. by left.
Qed.

(** The write of a token's last use is bounded both ways: in any run of
    requests, whatever their order in time, two writes for one token lie at
    least 1.5 seconds apart; and every request either causes the write itself
    or comes less than 1.5 seconds after one for its token. *)
Theorem touch_rate reqs :
  ForallOrdPairs (λ a b, a.1 = b.1 → touchInterval ≤ t_ns b.2 - t_ns a.2) (stamps reqs ∅) ∧
  ∀ before h n after, reqs = before ++ (h, n) :: after →
    (h, n) ∈ stamps reqs ∅ ∨ ∃ p, (h, p) ∈ stamps reqs ∅ ∧ time_sub n p < touchInterval.
Proof.
  split.
  - generalize (∅ : Touches). induction reqs as [|[h n] reqs IH]; intros t; cbn [stamps]; [constructor|].
    destruct (touch_cases h n t) as [(q & _ & _ & ->)|[_ ->]]; [apply IH|]. constructor; [|apply IH].
    eapply Forall_impl; [apply (stamps_later reqs (<[h:=n]> t) h n); by rewrite lookup_insert_eq|].
    cbn. intros s Hs E. by apply Hs.
  - intros before h n after ->. rewrite stamps_app. cbn [stamps].
    destruct (touch_cases h n (touches_after before ∅)) as [(p & Hp & Hd & ->)|[_ ->]].
    + right. exists p. split; [|done]. apply remembered_stamped in Hp as [Hp|Hp]; [|by rewrite lookup_empty in Hp].
      apply elem_of_app. by left.
    + left. apply elem_of_app. right. by left.
Qed.
Lemma touch_rate_witness :
  let run := [([1], utc 0); ([2], utc second); ([1], utc second); ([1], utc (2 * second))] in
  stamps run ∅ = [([1], utc 0); ([2], utc second); ([1], utc (2 * second))] ∧
  ([1], utc second) ∉ stamps run ∅ ∧ ∃ p, ([1], p) ∈ stamps run ∅ ∧ time_sub (utc second) p < touchInterval.
Proof.
  intros run. assert (E : stamps run ∅ = [([1], utc 0); ([2], utc second); ([1], utc (2 * second))]) by (vm_compute; reflexivity).
  assert (Hn : ([1], utc second) ∉ stamps run ∅).
  { rewrite E. rewrite !not_elem_of_cons. repeat split; try discriminate. apply not_elem_of_nil. }
  split; [exact E|]. split; [exact Hn|].
  destruct (proj2 (touch_rate run) [([1], utc 0); ([2], utc second)] [1] (utc second) [([1], utc (2 * second))] eq_refl)
    as [H|H]; [destruct (Hn H)|exact H].
Defined.

(** ** A daemon with a token *)

Definition gate_senv : SEnv :=
  mkSEnv sample_env (λ _ _, Ok (mkVenue "resy" "6194" "Carbone" (Some NewYork2026))) None None
    (λ k n, Ok (repeat (Z.of_nat k) n)) (λ s, map byte_of (String.list_ascii_of_string s)) "" true (λ _, None) (λ s, s).
Definition gate_token : TokenRec :=
  mkTokenRec "tok_1" "usr_1" (map byte_of (String.list_ascii_of_string "tok_A")) "operator" "laptop" 0 None None.
Definition gate_world : World (Stores DB TenantDB) :=
  mkWorld (mkStores empty_db (with_tokens [gate_token] two_tenants)) 0%nat 0%nat (t_ns drop_ny - 60 * second)
    stored_sample [] [].
Definition ask (route : Route) (body : string) : Request := mkRequest route "bearer tok_A" [] (Ok body).
Example gate_example :
  (Wrap (SnipeStore0 := store_laws) gate_senv (λ _, "EDT") (ask (Unrouted "PUT" "/v1/x") "") ∅ gate_world).1
    = Ok (notFound "PUT" "/v1/x", {[ tk_hash gate_token := mkTime (w_now gate_world + 2 * second) (en_loc sample_env) ]})
  ∧ (Wrap (SnipeStore0 := store_laws) gate_senv (λ _, "EDT")
       (mkRequest PostQuests "Bearer nobody" [] (Ok "")) ∅ gate_world).1 = Ok (refused, ∅).
Proof. split; vm_compute; reflexivity. Qed.
