(* ===== verification/Verbs.v ===== *)
(** * What every request keeps

    A relation between databases that each call of the store respects is
    respected by every verb of the service, by every handler, and so by any
    run of requests. *)

From S2P Require Import Prelude Text Json JsonText GoTime GoFormat Types Status Slots Drop Hash Codec Wire.
From S2P Require Import Strategy Plan Goal Sql Sqlite SqliteStore Tenant Quests Accounts Tokens Engine Resolver Service.
From S2P Require Import ServiceSteps Adapter Replay ServiceProofs Stream Transport Server Gate.

#[local] Existing Instances m_ret m_bind.

Section Verbs.
Context {St : Type} `{!SnipeStore St} {clk : SqliteClock} (abbreviation : Time → string).
Notation W := (World (Stores St TenantDB)).
Notation SM := (@M (Stores St TenantDB)).
Notation tenants w := (st_tenants (w_store w)).
Context (RB : TenantDB → TenantDB → Prop) `{!PreOrder RB}.

(** The calls of the store that write. *)
Record writes_keep : Prop := {
  keep_create q : moves RB (sb_CreateQuest q);
  keep_status u q st c t : moves RB (sb_UpdateQuestStatus u q st c t);
  keep_bind u e : moves RB (sb_BindAccountToUser u e);
  keep_put u sc k p tg e ttl t : moves RB (sb_PutIdempotencyResult u sc k p tg e ttl t);
  keep_audit e : moves RB (sb_WriteAuditEvent e);
  keep_event u q e : moves RB (sb_WriteQuestEvent u q e);
  keep_insert t : moves RB (sb_InsertToken t);
  keep_revoke u i t : moves RB (sb_RevokeToken u i t);
  keep_touch h t : moves RB (lookup_TouchSeen h t)
}.
Hypothesis Hkeep : writes_keep.

(** The calls that only read. *)
Create HintDb keeps.
Ltac read_step :=
  first [ by apply moves_query | by apply moves_of | by apply moves_ret | apply moves_fold | apply moves_ctx
        | apply moves_bind; [by intros ? ? ? ? ?; etrans| |intros ?] | case_goal ].
Lemma keep_get u q : moves RB (sb_GetQuest u q).
Proof. cbn. unfold Quests.GetQuest. repeat read_step. Qed.
Lemma keep_list u f : moves RB (sb_ListQuests u f).
Proof. cbn. unfold Quests.ListQuests. repeat read_step. Qed.
Lemma keep_accounts u : moves RB (sb_ListAccounts u).
Proof. cbn. unfold ListAccountsForUser. repeat read_step. Qed.
Lemma keep_account u e : moves RB (sb_GetAccountByEmail u e).
Proof. cbn. unfold GetAccountByEmail. repeat read_step. Qed.
Lemma keep_events u q l : moves RB (sb_ListQuestEvents u q l).
Proof. cbn. unfold adapter_ListQuestEvents, ListQuestEvents. repeat read_step. Qed.
Lemma keep_lookup u sc k p t : moves RB (sb_GetIdempotencyResult u sc k p t).
Proof. cbn. unfold Idempotency.GetIdempotencyResult. repeat read_step. Qed.
Lemma keep_tokens u : moves RB (sb_ListTokensForUser u).
Proof. cbn. unfold adapter_ListTokensForUser, ListTokensForUser. repeat read_step. Qed.
Lemma keep_find h : moves RB (lookup_FindTokenByHash h).
Proof. intros fl n d. destruct (lookup_cases h fl n d) as (r & n' & -> & _). reflexivity. Qed.
Hint Resolve keep_create keep_status keep_bind keep_put keep_audit keep_event keep_insert keep_revoke keep_touch
  keep_get keep_list keep_accounts keep_account keep_events keep_lookup keep_tokens keep_find : keeps.

Definition kept (w w' : W) : Prop := RB (tenants w) (tenants w').
#[local] Instance kept_preorder : PreOrder kept.
Proof. constructor; [intros w; unfold kept; reflexivity|]. intros w1 w2 w3 H1 H2. unfold kept in *. by etrans. Qed.
Lemma kept_step env (w : W) b n :
  RB (tenants w) b → kept w (set_store (mkStores (st_snipes (w_store w)) b) n (tick env w)).
Proof. done. Qed.
Notation calm := (steady kept).
Definition anyone : string → string → Prop := λ _ _, True.

Ltac holds_go :=
  repeat first
    [ apply (steady_ret _) | apply (steady_fail _) | apply (steady_pure _)
    | apply (steady_tenant _ _ kept_step); solve [auto with keeps]
    | apply (steady_outside _ _ kept_step) | apply (steady_now _ _ kept_step)
    | apply (steady_event _ _ kept_step); solve [auto with keeps]
    | apply (steady_audit _ _ anyone kept_step); solve [auto with keeps | done]
    | apply (steady_audited _ _ anyone kept_step); [solve [auto with keeps]|done|]
    | apply (steady_audited_id _ _ anyone kept_step); [solve [auto with keeps]|done|]
    | apply (steady_bind _); [|intros ?]
    | apply steady_attempt | apply steady_wrapped
    | match goal with |- steady _ (match ?x with _ => _ end) => destruct x end ].

Section Verb.
Context (senv : SEnv) (u : string).
Lemma holds_audit action t e : calm (audit senv u action t e).
Proof. apply (steady_audit _ _ anyone kept_step); [auto with keeps|done]. Qed.
Lemma holds_plan g : calm (PlanQuest senv u g).
Proof. apply (steady_plan _ _ anyone kept_step); [auto with keeps|done]. Qed.
Lemma holds_submit id i : calm (Submit (sv_env senv) id i : SM SnipeState).
Proof.
  intros w. destruct (Submit (sv_env senv) id i w) as [r w'] eqn:E. apply submit_inv in E as [T _].
  cbn [snd]. unfold kept. rewrite T. reflexivity.
Qed.
Lemma holds_create_work g opts n : calm (create_work senv u g opts n).
Proof.
  unfold create_work. apply (steady_bind _); [apply holds_plan|intros plan].
  apply (steady_bind _); [apply (steady_check _)|intros _].
  apply (steady_bind _); [apply (steady_account _ _ kept_step); auto with keeps|intros acct].
  apply (steady_bind _); [apply steady_wrapped, (steady_newid _ _ kept_step)|intros id].
  apply (steady_bind _); [holds_go|intros _].
  apply (steady_bind _); [apply steady_attempt, steady_wrapped, holds_submit|intros []]; holds_go.
Qed.
Lemma holds_keyed verb sc key p n c oe work : calm work → calm (keyed senv verb u sc key p n c oe work).
Proof.
  intros Hw. unfold keyed. apply (steady_bind _); [apply (steady_precheck _ _ kept_step); auto with keeps|].
  intros [a|]; [apply (steady_ret _)|]. apply (steady_bind _); [by apply steady_attempt|intros r].
  apply (steady_bind _); [|intros _; apply (steady_ret _)]. apply (steady_record _ _ kept_step). auto with keeps.
Qed.
Lemma holds_keyed_verb action target verb sc key p c oe (work : Time → SM outcome_id) :
  (∀ n, calm (work n)) →
  calm (audited_id senv u action target (n ← now (sv_env senv); keyed senv verb u sc key p n c oe (work n))).
Proof.
  intros Hw. apply (steady_audited_id _ _ anyone kept_step); [auto with keeps|done|].
  apply (steady_bind _); [apply (steady_now _ _ kept_step)|intros n]. by apply holds_keyed.
Qed.
Lemma holds_resolve q : calm (ResolveVenue senv u q).
Proof. unfold ResolveVenue, reject, resolve. holds_go. Qed.
Lemma holds_create g opts : calm (CreateQuest senv u g opts).
Proof.
  unfold CreateQuest. destruct (is_empty u); [apply (steady_ret _)|]. apply holds_keyed_verb. intros n. apply holds_create_work.
Qed.
Lemma holds_get q : calm (GetQuest senv u q).
Proof. unfold GetQuest, reject. holds_go. apply holds_plan. Qed.
Lemma holds_list f : calm (ListQuests senv u f).
Proof. unfold ListQuests, reject. holds_go. Qed.
Lemma holds_cancel q opts : calm (CancelQuest senv u q opts).
Proof.
  unfold CancelQuest. destruct (is_empty u); [apply (steady_ret _)|]. apply holds_keyed_verb. intros n.
  unfold cancel_work. holds_go.
Qed.
Lemma holds_login e p : calm (Login senv u e p).
Proof. unfold Login, login_body, reject. holds_go. Qed.
Lemma holds_accounts : calm (ListAccounts senv u).
Proof. unfold ListAccounts, reject. holds_go. Qed.
Lemma holds_issue l s : calm (IssueToken senv u l s).
Proof. unfold IssueToken, issue_body, RequireOperatorScope, reject. holds_go. Qed.
Lemma holds_revoke id : calm (RevokeToken senv u id).
Proof. unfold RevokeToken, RequireOperatorScope, reject. holds_go. Qed.
Lemma holds_tokens : calm (ListTokens senv u).
Proof. unfold ListTokens, RequireOperatorScope, reject. holds_go. Qed.
Hint Resolve holds_plan holds_resolve holds_create holds_get holds_list holds_cancel holds_login holds_accounts holds_issue
  holds_revoke holds_tokens : keeps.
End Verb.

(** ** Handlers and runs *)

Section Handlers.
Context (senv : SEnv).
Lemma holds_answer {A} f (m : SM A) k : calm m → calm (answer f m k).
Proof. intros Hm. unfold answer. apply (steady_bind _); [by apply steady_attempt|intros r; apply (steady_ret _)]. Qed.
Lemma holds_answer_id f (m : SM outcome_id) k : calm m → calm (answer_id f m k).
Proof. intros Hm. unfold answer_id. apply (steady_bind _); [by apply steady_attempt|intros r; apply (steady_ret _)]. Qed.
Lemma holds_or_else {A} f (r : res A) (k : A → SM Transport.Response) : (∀ a, calm (k a)) → calm (or_else f r k).
Proof. intros Hk. destruct r; [apply Hk|apply (steady_ret _)]. Qed.
Ltac handler_go :=
  repeat first
    [ apply (steady_ret _) | apply holds_or_else; intros ? | apply holds_answer | apply holds_answer_id
    | apply holds_plan | apply holds_resolve | apply holds_create | apply holds_get | apply holds_list | apply holds_cancel
    | apply holds_login | apply holds_accounts | apply holds_issue | apply holds_revoke | apply holds_tokens
    | match goal with |- steady _ (match ?x with _ => _ end) => destruct x end ].
Lemma holds_handle uid scope r : calm (handle senv abbreviation uid scope r).
Proof.
  unfold handle, resolveVenueHandler, planQuestHandler, createQuestHandler, listQuestsHandler, getQuestHandler,
    cancelQuestHandler, loginHandler, listAccountsHandler, issueTokenHandler, revokeTokenHandler, listTokensHandler.
  destruct (rq_Route r); handler_go.
Qed.
Lemma holds_Wrap r t : calm (Wrap senv abbreviation r t).
Proof.
  unfold Wrap, authenticate. apply (steady_bind _).
  - destruct (parseBearer _); [|apply (steady_ret _)]. apply (steady_bind _); [holds_go|intros [info|e]]; [|apply (steady_ret _)].
    apply (steady_bind _); [apply (steady_now _ _ kept_step)|intros n]. destruct (shouldTouch _ _ _) as [[] t'];
    [|apply (steady_ret _)]. apply (steady_bind _); [holds_go|intros _; apply (steady_ret _)].
  - intros [[info|] t']; [|apply (steady_ret _)]. apply (steady_bind _); [apply holds_handle|intros resp; apply (steady_ret _)].
Qed.
End Handlers.
End Verbs.

(** A run: requests one after the other, each in the environment it finds
    (the clock, the provider, the caller of other goroutines). *)
Section Run.
Context {St : Type} `{!SnipeStore St} {clk : SqliteClock} (abbreviation : Time → string).
Notation W := (World (Stores St TenantDB)).
Fixpoint serve (reqs : list (SEnv * Request)) (t : Touches) (w : W) : list Transport.Response * Touches * W :=
  match reqs with
  | [] => ([], t, w)
  | (senv, r) :: reqs' =>
      match Wrap senv abbreviation r t w with
      | (Ok (resp, t'), w') => let '(l, t'', w'') := serve reqs' t' w' in (resp :: l, t'', w'')
      | (Err _, w') => serve reqs' t w'
      end
  end.
Lemma serve_keeps (RB : TenantDB → TenantDB → Prop) `{!PreOrder RB} reqs t w :
  writes_keep RB → RB (st_tenants (w_store w)) (st_tenants (w_store (serve reqs t w).2)).
Proof.
  intros Hk. revert t w. induction reqs as [|[senv r] reqs IH]; intros t w; [reflexivity|]. cbn [serve].
  pose proof (holds_Wrap abbreviation RB Hk senv r t w) as H. unfold kept in H.
  destruct (Wrap senv abbreviation r t w) as [[[resp t']|e] w']; cbn [snd] in H.
  - specialize (IH t' w'). destruct (serve reqs t' w') as [[l t''] w'']. cbn [snd] in *. by etrans.
  - etrans; [exact H|apply IH].
Qed.
(** Without a live token no run of requests changes anything. *)
Definition no_live_token (d : TenantDB) : Prop := ∀ r, r ∈ tb_tokens d → tk_revoked r ≠ None.
Lemma serve_refuses reqs t w :
  no_live_token (st_tenants (w_store w)) →
  w_store (serve reqs t w).2 = w_store w ∧ Forall (eq refused) (serve reqs t w).1.1.
Proof.
  revert t w. induction reqs as [|[senv r] reqs IH]; intros t w Hn; [by split; [|constructor]|]. cbn [serve].
  destruct (authenticate_cases senv (rq_Authorization r) t w) as (who & t' & w' & E & H). destruct who as [info|].
  - exfalso. destruct H as (row & Hc & _). unfold caller_of in Hc. destruct (parseBearer _); [|done].
    destruct (no_hash _); [done|]. apply find_some in Hc as [Hin Hl]. apply list_elem_of_In in Hin.
    unfold live_hash in Hl. apply andb_true_iff in Hl as [_ Hl%bool_decide_eq_true]. by apply (Hn row).
  - destruct H as (-> & Hi & _). rewrite (Wrap_refuses senv abbreviation r t w _ _ E).
    destruct (IH t w') as [Es Hr]; [by rewrite (idle_store _ _ Hi)|].
    destruct (serve reqs t w') as [[l t''] w'']. cbn [fst snd] in *. split; [by rewrite Es, (idle_store _ _ Hi)|by constructor].
Qed.
End Run.
