(* ===== verification/Revoke.v ===== *)
(** * A revoked token stays refused

    Revoking is final: once a DELETE of a token is answered 204, no run of
    requests, by anyone, brings its bearer back. *)

From S2P Require Import Prelude Text Json JsonText GoTime GoFormat Types Status Slots Drop Hash Codec Wire.
From S2P Require Import Strategy Plan Goal Sql Sqlite SqliteStore Tenant Quests Accounts Idempotency Tokens Engine Resolver.
From S2P Require Import Service ServiceSteps Adapter Replay ServiceProofs Stream Transport Server Client Answers Gate Verbs.

#[local] Existing Instances m_ret m_bind.

(** The digest is taken, and by revoked tokens only. *)
Definition dead (h : list Z) (d : TenantDB) : Prop :=
  (∃ r, r ∈ tb_tokens d ∧ tk_hash r = h) ∧ ∀ r, r ∈ tb_tokens d → tk_hash r = h → tk_revoked r ≠ None.
Definition keeps_dead (h : list Z) (d d' : TenantDB) : Prop := dead h d → dead h d'.
#[local] Instance keeps_dead_preorder h : PreOrder (keeps_dead h).
Proof. split; [intros d H; exact H|]. intros d d' d'' H1 H2 H. by apply H2, H1. Qed.
Lemma same_tokens_dead h d d' : tb_tokens d' = tb_tokens d → keeps_dead h d d'.
Proof. unfold keeps_dead, dead. intros ->. done. Qed.
Lemma dead_not_live h d : dead h d → find (live_hash h) (tb_tokens d) = None.
Proof.
  intros [_ Hd]. destruct (find _ _) as [r|] eqn:E; [|done]. apply find_some in E as [Hin Hl].
  unfold live_hash in Hl. apply andb_true_iff in Hl as [Hh%bool_decide_eq_true Hr%bool_decide_eq_true].
  apply list_elem_of_In in Hin. by destruct (Hd r Hin Hh).
Qed.
Lemma update_dead h hit f d :
  (∀ r, tk_hash (f r) = tk_hash r) → (∀ r, hit r = true → tk_revoked r ≠ None → tk_revoked (f r) ≠ None) →
  keeps_dead h d (update_tokens hit f d).2.
Proof.
  intros Hf Hr [(r0 & Hin & Hh) Hd]. cbn.
  assert (Hm : ∀ r, tk_hash (if hit r then f r else r) = tk_hash r) by (intros r; by destruct (hit r)).
  split.
  - exists (if hit r0 then f r0 else r0). split; [|by rewrite Hm].
    apply list_elem_of_fmap. by exists r0.
  - cbn. intros r Hr' E. apply list_elem_of_fmap in Hr' as (r1 & -> & H1). rewrite Hm in E.
    specialize (Hd r1 H1 E). destruct (hit r1) eqn:Eh; [by apply Hr|done].
Qed.
(** The digest of a token is unique. *)
Lemma insert_dead h r d : keeps_dead h d (insert_token r d).2.
Proof.
  unfold insert_token. destruct (existsb _ _); [by apply same_tokens_dead|].
  destruct (existsb _ _) eqn:Eu; [by apply same_tokens_dead|]. destruct (negb _); [by apply same_tokens_dead|].
  intros [(r0 & Hin & Hh) Hd]. cbn. split.
  - exists r0. split; [|done]. apply elem_of_app. by left.
  - cbn. intros r' [Hr| ->%list_elem_of_singleton]%elem_of_app E; [by apply Hd|]. exfalso.
    assert (existsb (λ x, bool_decide (tk_hash x = tk_hash r)) (tb_tokens d) = true); [|congruence].
    apply existsb_exists. exists r0. split; [by apply list_elem_of_In|]. apply bool_decide_eq_true. congruence.
Qed.
Section Dead.
Context {clk : SqliteClock} (h : list Z).
Ltac dead_step :=
  first [ by apply moves_query | by apply moves_of | by apply moves_ret
        | apply moves_fold | apply moves_ctx | apply moves_tx; [reflexivity|]
        | apply moves_bind; [by intros ? ? ? ? ?; etrans| |intros ?]
        | apply moves_stmt; [reflexivity|intros ? ? _]
        | case_goal ].
Ltac same := by apply same_tokens_dead.
Lemma dead_kept : writes_keep (keeps_dead h).
Proof.
  split.
  - intros q. cbn. unfold Quests.CreateQuest. repeat dead_step. unfold insert_quest. repeat case_goal; same.
  - intros u q st c t. cbn. unfold Quests.UpdateQuestStatus. repeat dead_step. same.
  - intros u e. cbn. unfold adapter_BindAccountToUser, BindLegacyAccountToUser. repeat dead_step.
    unfold claim. repeat case_goal; same.
  - intros. cbn. unfold adapter_PutIdempotencyResult, PutIdempotencyResult. repeat dead_step.
    unfold upsert_idem. repeat case_goal; same.
  - intros e. cbn. intros fl n d. unfold adapter_WriteAuditEvent, WriteAuditEvent.
    do 2 (destruct (is_empty _); [reflexivity|]). unfold stmt. destruct (fl n); [reflexivity|].
    unfold insert_audit. destruct (negb _); [reflexivity|]. same.
  - intros u q e. cbn. unfold Quests.WriteQuestEvent. repeat dead_step. unfold insert_quest_event. case_goal; same.
  - intros t. cbn. unfold adapter_InsertToken, InsertToken. repeat dead_step. apply insert_dead.
  - intros u i t. cbn. unfold adapter_RevokeToken, Tokens.RevokeToken. repeat dead_step. by apply update_dead.
  - intros h' t. unfold lookup_TouchSeen, TouchTokenSeen. repeat dead_step. by apply update_dead.
Qed.
End Dead.

Section Revoked.
Context {St : Type} `{!SnipeStore St} {clk : SqliteClock} (abbreviation : Time → string).
Notation W := (World (Stores St TenantDB)).
Notation tenants w := (st_tenants (w_store w)).

(** No two tokens share a digest. *)
Definition digests_unique (d : TenantDB) : Prop := NoDup (tk_hash <$> tb_tokens d).
Lemma digest_inj d r r' : digests_unique d → r ∈ tb_tokens d → r' ∈ tb_tokens d → tk_hash r = tk_hash r' → r = r'.
Proof.
  unfold digests_unique. intros Hn. induction (tb_tokens d) as [|x l IH]; [by intros []%not_elem_of_nil|].
  cbn in Hn. apply NoDup_cons in Hn as [Hx Hn]. rewrite !elem_of_cons. intros [->|H1] [->|H2] E; [done|..|by apply IH].
  - destruct Hx. rewrite E. by apply list_elem_of_fmap_2.
  - destruct Hx. rewrite <- E. by apply list_elem_of_fmap_2.
Qed.
Lemma revoke_rows u now_ row d :
  digests_unique d → row ∈ tb_tokens d → tk_user row = u →
  dead (tk_hash row) (update_tokens (is_live_token u (tk_id row)) (stamp_revoked (t_unix now_)) d).2.
Proof.
  intros Hn Hin <-. split.
  - exists (if is_live_token (tk_user row) (tk_id row) row then stamp_revoked (t_unix now_) row else row).
    split; [apply list_elem_of_fmap; by exists row|by destruct (is_live_token _ _ _)].
  - cbn. intros r Hr E. apply list_elem_of_fmap in Hr as (r1 & -> & H1).
    assert (r1 = row) as -> by (eapply digest_inj; [exact Hn|done|done|]; by destruct (is_live_token _ _ r1)).
    destruct (is_live_token _ _ row) eqn:Eh; [done|]. unfold is_live_token in Eh.
    rewrite !str_eqb_refl in Eh. cbn in Eh. by apply bool_decide_eq_false in Eh.
Qed.
Lemma revoke_call_kills senv u now_ row (w w1 : W) :
  digests_unique (tenants w) → row ∈ tb_tokens (tenants w) → tk_user row = u →
  tenant_call senv (sb_RevokeToken u (tk_id row) now_) w = (Ok tt, w1) → dead (tk_hash row) (tenants w1).
Proof.
  intros Hn Hin Hu. unfold tenant_call, store_call, on_tenants. set (fl := if en_done _ _ then _ else _).
  cbn [sb_RevokeToken serviceStoreAdapter]. unfold adapter_RevokeToken, fold_not_found, Tokens.RevokeToken.
  destruct (_ || _); [done|]. destruct (is_zero_time _); [done|]. run_sql. destruct (fl _); [done|].
  cbn [update_tokens]. destruct (Z.of_nat _ =? 0); [done|]. intros [= <-]. by apply revoke_rows.
Qed.
Lemma revoke_kills senv u row (w w1 : W) :
  digests_unique (tenants w) → row ∈ tb_tokens (tenants w) → tk_user row = u →
  RevokeToken senv u (tk_id row) w = (Ok tt, w1) → dead (tk_hash row) (tenants w1).
Proof.
  intros Hn Hin Hu. unfold RevokeToken, audited.
  match goal with |- (let '(_, _) := ?x in _) = _ → _ => destruct x as [r w0] eqn:E end. intros H.
  injection H as -> <-.
  assert (Hd : dead (tk_hash row) (tenants w0)).
  { revert E. unfold RequireOperatorScope. unfold mbind, m_bind, wrapped. destruct (str_eqb _ _); [|done]. cbn [mret m_ret].
    destruct (is_empty u); [done|]. destruct (is_empty _); [done|]. unfold now, attempt.
    pose proof (revoke_call_kills senv u (to_utc (mkTime (w_now (tick (sv_env senv) w)) (en_loc (sv_env senv)))) row
      (tick (sv_env senv) w)) as Hk.
    destruct (tenant_call senv _ (tick (sv_env senv) w)) as [[[]|e] w2]; [|done]. intros [= <-].
    by apply Hk. }
  pose proof (holds_audit (keeps_dead (tk_hash row)) (dead_kept _) senv u actionTokenRevoke (tk_id row) None w0) as H.
  by apply H.
Qed.
Lemma error_not_204 e d : Transport.rs_Status (Transport.WriteErrorDetails e d) = 204 → False.
Proof. intros H. pose proof (error_status e d). lia. Qed.
Lemma revoked_204 senv u scope id r (w w1 : W) resp :
  rq_Route r = DeleteAuthTokensId id → handle senv abbreviation u scope r w = (Ok resp, w1) →
  Transport.rs_Status resp = 204 → RevokeToken (ContextWithCaller senv scope) u id w = (Ok tt, w1).
Proof.
  intros Hr. unfold handle. rewrite Hr. unfold revokeTokenHandler, unauthorized, Transport.WriteError.
  destruct (is_empty id); [intros [= <- <-] H; by apply error_not_204 in H|].
  destruct (is_empty u); [intros [= <- <-] H; by apply error_not_204 in H|].
  unfold answer, attempt, mbind, m_bind. destruct (RevokeToken _ _ _ w) as [[[]|e] w2]; intros [= <- <-]; [done|].
  intros H. by apply error_not_204 in H.
Qed.

(** C18. Revoking is final.  When a DELETE of a token is answered 204 to the
    token's user (as a live one is to its bearer with operator scope), then
    whatever run of requests follows, by whomever and with whatever errors,
    whoever presents that token is refused with 401 and changes nothing. *)
Theorem revoked_refused senv scope row r t (w w1 : W) resp :
  digests_unique (tenants w) → row ∈ tb_tokens (tenants w) → rq_Route r = DeleteAuthTokensId (tk_id row) →
  handle senv abbreviation (tk_user row) scope r w = (Ok resp, w1) → Transport.rs_Status resp = 204 →
  ∀ reqs senv' r' token, parseBearer (rq_Authorization r') = Ok token → sv_blake2b senv' token = tk_hash row →
  let '(_, t2, w2) := serve abbreviation reqs t w1 in
  ∃ w3, Wrap senv' abbreviation r' t2 w2 = (Ok (refused, t2), w3) ∧ idle w2 w3.
Proof.
  intros Hn Hin Hr Hh Hs reqs senv' r' token Hp Hb.
  apply (revoked_204 _ _ _ _ _ _ _ _ Hr Hh) in Hs. apply revoke_kills in Hs; [|done..].
  pose proof (serve_keeps abbreviation (keeps_dead (tk_hash row)) reqs t w1 (dead_kept _) Hs) as Hd.
  destruct (serve abbreviation reqs t w1) as [[l t2] w2]. cbn [snd] in Hd.
  destruct (authenticate_cases senv' (rq_Authorization r') t2 w2) as (who & t3 & w3 & E & H). destruct who as [info|].
  - exfalso. destruct H as (row' & Hc & _). unfold caller_of in Hc. rewrite Hp, Hb, dead_not_live in Hc by done.
    by destruct (no_hash _).
  - destruct H as (-> & Hi & _). exists w3. split; [|done]. by apply Wrap_refuses.
Qed.
End Revoked.
#[local] Existing Instance store_laws.
Definition revoke_ask : Request := ask (DeleteAuthTokensId "tok_1") "".
Definition revoked_world : World (Stores DB TenantDB) :=
  (handle gate_senv (λ _, "EDT") "usr_1" "operator" revoke_ask gate_world).2.
Lemma revoked_refused_witness :
  ∃ w3, Wrap gate_senv (λ _, "EDT") (ask GetQuests "") ∅ revoked_world = (Ok (refused, ∅), w3) ∧ idle revoked_world w3.
Proof.
  assert (E : handle gate_senv (λ _, "EDT") "usr_1" "operator" revoke_ask gate_world
              = (Ok Transport.NoContent, revoked_world)) by (vm_compute; reflexivity).
  exact (revoked_refused (λ _, "EDT") gate_senv "operator" gate_token revoke_ask ∅ gate_world revoked_world _
           (NoDup_singleton _) (list_elem_of_here _ _) eq_refl E eq_refl [] gate_senv (ask GetQuests "") "tok_A"
           ltac:(vm_compute; reflexivity) ltac:(vm_compute; reflexivity)).
Defined.
