(* ===== verification/Remote.v ===== *)
(** * The quest verbs over HTTP

    What the command line calls is what the service does: a verb of the
    client, sent to a daemon that knows its token, is the service's verb run
    as the token's user, with its result read back and its error received. *)

From S2P Require Import Prelude Text Json JsonText GoTime GoFormat Types Status Slots Drop Hash Codec Wire Url Http.
From S2P Require Import Strategy Plan Goal Sql Sqlite SqliteStore Tenant Quests Accounts Idempotency Tokens Engine Resolver.
From S2P Require Import Service ServiceSteps Adapter Replay ServiceProofs Stream Transport Server Client WireProofs Answers Gate.

#[local] Existing Instances m_ret m_bind.

(** A token that can be sent: not empty, no space around it. *)
Lemma parseBearer_token token : TrimSpace token = token → token ≠ "" → parseBearer ("Bearer " +:+ token) = Ok token.
Proof.
  intros Ht Hn. unfold parseBearer. change (is_empty ("Bearer " +:+ token)) with false.
  pose proof (substring_drop "Bearer " token) as Hs. change (String.length "Bearer ") with 7%nat in Hs. rewrite Hs, Ht.
  replace (_ || _) with false by (unfold String.append; cbn [String.length String.substring];
    by replace (String.substring 0 0 token) with "" by by destruct token).
  unfold is_empty. by rewrite str_eqb_neq.
Qed.

Section Remote.
Context {St : Type} `{!SnipeStore St} {clk : SqliteClock} (senv : SEnv) (abbreviation : Time → string).
Context (LoadLocation : string → res Location) (token : string) (t : Touches).
Notation W := (World (Stores St TenantDB)).
Notation SM := (@M (Stores St TenantDB)).
Notation tenants w := (st_tenants (w_store w)).

(** The daemon as the client sees it: nothing is lost on the way. *)
Definition send (r : Request) : SM Transport.Response :=
  '(resp, _) ← Wrap senv abbreviation r t; mret resp.
(** What the client has of a verb's outcome. *)
Definition read_back {A B} (details : gmap string json) (read : A → res B) (x : res A * W) : res B * W :=
  match x with
  | (Ok a, w) => (read a, w)
  | (Err e, w) => (Err (Client.as_error (received e details)), w)
  end.
(** A verb that returns an id and an error at once has either. *)
Definition id_or_error (x : res outcome_id * W) : res string * W :=
  match x with
  | (Ok (id, None), w) => (Ok id, w)
  | (Ok (_, Some e), w) | (Err e, w) => (Err e, w)
  end.
(** A value the client can read: UTF-8 text and numbers that fit. *)
Definition readable {C} `{WireCodec C} (c : C) : Prop := survives c ∧ text_ok c.

Section Do.
Context (r : Request) (w w1 : W).
Lemma do_reply {C} `{WireCodec C} (status : Z) (c : C) w2 :
  200 ≤ status < 300 → readable c → send r w = (Ok (Transport.WriteJSON status c), w2) →
  (Client.do send r : SM C) w = (Ok c, w2).
Proof.
  intros Hs [Hc Ht] E. unfold Client.do, wrapped, mbind, m_bind. rewrite E.
  assert (Hz : (if status =? 0 then 200 else status) = status) by (destruct (status =? 0) eqn:E0; zb; lia).
  unfold Transport.WriteJSON. cbn [Transport.rs_Status Transport.rs_Body]. rewrite Hz.
  replace ((status <? 200) || (300 <=? status)) with false.
  - rewrite body_not_empty, Unmarshal_body by done. done.
  - symmetry. apply orb_false_iff. split; zb; lia.
Qed.
Lemma do_error {C} `{WireCodec C} e d w2 :
  send r w = (Ok (Transport.WriteErrorDetails e d), w2) →
  (Client.do send r : SM C) w = (Err (Client.as_error (received e d)), w2).
Proof.
  intros E. unfold Client.do, wrapped, mbind, m_bind. rewrite E.
  replace (_ || _) with true; [done|]. symmetry. apply orb_true_iff. right. zb.
  pose proof (error_status e d). lia.
Qed.
Lemma do_answer {A C} `{WireCodec C} (m : SM A) (k : A → C) status d :
  200 ≤ status < 300 → (∀ a, (m w1).1 = Ok a → readable (k a)) →
  send r w = answer (λ e, Transport.WriteErrorDetails e d) m (λ a, Transport.WriteJSON status (k a)) w1 →
  (Client.do send r : SM C) w = read_back d (λ a, Ok (k a)) (m w1).
Proof.
  intros Hs Hk. unfold answer, attempt, mbind, m_bind. destruct (m w1) as [[a|e] w2]; cbn [fst] in Hk; intros E.
  - eapply do_reply; [exact Hs|by apply Hk|exact E].
  - by apply do_error.
Qed.
Lemma do_answer_id {C} `{WireCodec C} (m : SM outcome_id) (k : string → C) status d :
  200 ≤ status < 300 → (∀ id, (m w1).1 = Ok (id, None) → readable (k id)) →
  send r w = answer_id (λ e, Transport.WriteErrorDetails e d) m (λ a, Transport.WriteJSON status (k a)) w1 →
  (Client.do send r : SM C) w = read_back d (λ a, Ok (k a)) (id_or_error (m w1)).
Proof.
  intros Hs Hk. unfold answer_id, attempt, mbind, m_bind.
  destruct (m w1) as [[[id [e|]]|e] w2]; cbn [fst] in Hk; intros E.
  - by apply do_error.
  - eapply do_reply; [exact Hs|by apply Hk|exact E].
  - by apply do_error.
Qed.
Lemma do_nothing_id (m : SM outcome_id) d :
  send r w = answer_id (λ e, Transport.WriteErrorDetails e d) m (λ _, Transport.NoContent) w1 →
  Client.do_nothing send r w = read_back d (λ _, Ok tt) (id_or_error (m w1)).
Proof.
  unfold Client.do_nothing, wrapped, answer_id, attempt, mbind, m_bind.
  assert (He : ∀ e, (Transport.rs_Status (Transport.WriteErrorDetails e d) <? 200)
                    || (300 <=? Transport.rs_Status (Transport.WriteErrorDetails e d)) = true).
  { intros e. apply orb_true_iff. right. zb. pose proof (error_status e d). lia. }
  destruct (m w1) as [[[id [e|]]|e] w2]; intros E;
    [change (send r w = (Ok (Transport.WriteErrorDetails e d), w2)) in E|
    |change (send r w = (Ok (Transport.WriteErrorDetails e d), w2)) in E]; rewrite E; [by rewrite He|done|by rewrite He].
Qed.
End Do.

(** ** Past the gate *)

Hypothesis Hclean : undisturbed (sv_env senv).
Hypothesis Htoken : TrimSpace token = token ∧ token ≠ "".
Context (row : TokenRec) (w : W).
Hypothesis Hrow : caller_of senv ("Bearer " +:+ token) (tenants w) = Some row.
Hypothesis Huser : tk_user row ≠ "".
Notation u := (tk_user row).
Notation svc := (ContextWithCaller senv (tk_scopes row)).

Lemma admitted : ∃ w1, stamped (tk_hash row) w w1 ∧
  ∀ r, rq_Authorization r = "Bearer " +:+ token → send r w = handle senv abbreviation u (tk_scopes row) r w1.
Proof.
  destruct (authenticate_cases senv ("Bearer " +:+ token) t w) as (who & t' & w1 & E & H). destruct who as [info|].
  - destruct H as (row' & Hr & -> & Hs). assert (row' = row) as -> by congruence. exists w1. split; [done|].
    intros r Hr'. rewrite <- Hr' in E. destruct (Wrap_admits senv abbreviation r t w _ _ _ E) as (resp & w' & Eh & Ew).
    cbn in Eh. rewrite Eh. unfold send, mbind, m_bind. by rewrite Ew.
  - destruct H as (_ & _ & Hn). specialize (Hn Hclean). congruence.
Qed.
Lemma request_header {A} `{WireCodec A} route q (body : option A) :
  rq_Authorization (Client.newRequest token route q body) = "Bearer " +:+ token.
Proof. cbn. unfold is_empty. by rewrite str_eqb_neq by apply Htoken. Qed.
Lemma user_named : is_empty u = false.
Proof. by apply str_eqb_neq. Qed.

Section Handled.
Context (w1 : W).
Notation handled r := (handle senv abbreviation u (tk_scopes row) r w1).
Lemma handled_plan g :
  sendable g → g_VenueQuery g ≠ None → text_ok (mkPlanQuestRequest (Client.encodeGoal g)) →
  handled (Client.newRequest token PostQuestsPlan [] (Some (mkPlanQuestRequest (Client.encodeGoal g))))
  = answer Transport.WriteError (PlanQuest svc u g)
      (λ p, Transport.WriteJSON 200 (mkPlanQuestResponse (Transport.encodePlan p))) w1.
Proof.
  intros Hg Hq Ht. unfold handle, Client.newRequest. cbn [rq_Route]. unfold planQuestHandler, read_body. cbn [rq_Body or_else].
  rewrite decodeJSON_Marshal by (done || apply planQuestRequest_survives, Hg). cbn [or_else pqr_Goal].
  rewrite goal_to_server by done. cbn [or_else]. by rewrite user_named.
Qed.
Lemma handled_create g opts :
  let req := mkCreateQuestRequest (Client.encodeGoal g) (co_PlanHash opts) (co_IdempotencyKey opts) in
  sendable g → g_VenueQuery g ≠ None → text_ok req →
  handled (Client.newRequest token PostQuests [] (Some req))
  = answer_id Transport.WriteError (CreateQuest svc u g opts)
      (λ id, Transport.WriteJSON 201 (mkCreateQuestResponse id)) w1.
Proof.
  intros req Hg Hq Ht. unfold handle, Client.newRequest. cbn [rq_Route]. unfold createQuestHandler, read_body. cbn [rq_Body or_else].
  rewrite decodeJSON_Marshal by (done || apply createQuestRequest_survives, Hg). subst req. cbn [or_else cqr_Goal].
  rewrite goal_to_server by done. cbn [or_else cqr_PlanHash cqr_IdempotencyKey]. rewrite user_named. by destruct opts.
Qed.
Lemma handled_get q :
  q ≠ "" →
  handled (Client.newRequest token (GetQuestsId q) [] Client.no_body)
  = answer (λ e, Transport.WriteErrorDetails e (detail "quest_id" q)) (GetQuest svc u q)
      (λ st, Transport.WriteJSON 200 (Transport.encodeQuestState abbreviation st)) w1.
Proof.
  intros Hq. unfold handle, Client.newRequest. cbn [rq_Route]. unfold getQuestHandler, Transport.ensureNonEmpty.
  rewrite user_named. unfold is_empty. by rewrite str_eqb_neq.
Qed.
Lemma handled_list f filter :
  Transport.parseListFilter (Client.filter_values f) = Ok filter →
  handled (Client.newRequest token GetQuests (Client.filter_values f) Client.no_body)
  = answer Transport.WriteError (ListQuests svc u filter)
      (λ rows, Transport.WriteJSON 200 (mkListQuestsResponse (map Transport.encodeQuestSummary rows))) w1.
Proof.
  intros Hf. unfold handle, Client.newRequest. cbn [rq_Route]. unfold listQuestsHandler. cbn [rq_Query].
  by rewrite user_named, Hf.
Qed.
Lemma handled_cancel q opts :
  q ≠ "" → text_ok (mkCancelQuestRequest (ca_Reason opts) (ca_IdempotencyKey opts)) →
  handled (Client.newRequest token (DeleteQuestsId q) []
     (if negb (is_empty (ca_Reason opts)) || bool_decide (ca_IdempotencyKey opts ≠ None)
      then Some (mkCancelQuestRequest (ca_Reason opts) (ca_IdempotencyKey opts)) else None))
  = answer_id (λ e, Transport.WriteErrorDetails e (detail "quest_id" q)) (CancelQuest svc u q opts)
      (λ _, Transport.NoContent) w1.
Proof.
  intros Hq Ht. unfold handle, Client.newRequest. cbn [rq_Route]. unfold cancelQuestHandler, Transport.ensureNonEmpty, read_body.
  rewrite user_named. replace (is_empty q) with false by (symmetry; by apply str_eqb_neq). cbn [or_else rq_Body].
  destruct opts as [reason key]. cbn [ca_Reason ca_IdempotencyKey] in *.
  destruct (negb (is_empty reason) || bool_decide (key ≠ None)) eqn:E.
  - rewrite Marshal_not_empty by done. rewrite decodeJSON_Marshal by (done || apply cancelQuestRequest_survives). done.
  - apply orb_false_iff in E as [Er Ek]. apply negb_false_iff, str_eqb_true in Er as ->.
    destruct key as [k|]; [by apply bool_decide_eq_false in Ek; destruct Ek|]. done.
Qed.
End Handled.

(** An id that reaches a handler. *)
Definition addressable (q : string) : Prop := q ≠ "" ∧ q ≠ "." ∧ q ≠ "..".
Lemma escaped_nonempty q : q ≠ "" → PathEscape q ≠ "".
Proof. destruct q as [|c q]; [done|]. intros _. cbn. by destruct (segment_char c). Qed.
(** C16. The client is the service at a distance: against a daemon that knows
    its token, each quest verb of the client is the service's verb of the
    same arguments, run as the token's user and scope after the stamp of the
    token (of the filter that crosses, for a listing), with the result read
    back by the client's decoder and the error received by its sentinel.  A
    quest id crosses escaped, since it is escaped twice and unescaped once:
    it is the same id if no byte of it needs escaping, and the escaped text if
    one does ([escaped_id]).  The ids . and .. do not reach a handler and are
    left out. *)
Theorem verbs_over_http g opts q copts f filter :
  sendable g → g_VenueQuery g ≠ None → addressable q →
  text_ok (mkPlanQuestRequest (Client.encodeGoal g)) →
  text_ok (mkCreateQuestRequest (Client.encodeGoal g) (co_PlanHash opts) (co_IdempotencyKey opts)) →
  text_ok (mkCancelQuestRequest (ca_Reason copts) (ca_IdempotencyKey copts)) →
  Transport.parseListFilter (Client.filter_values f) = Ok filter →
  let q' := PathEscape q in
  (q' = q ↔ str_all segment_char q = true) ∧
  ∃ w1, stamped (tk_hash row) w w1 ∧
    ((∀ p, (PlanQuest svc u g w1).1 = Ok p → readable (mkPlanQuestResponse (Transport.encodePlan p))) →
     Client.PlanQuest LoadLocation token send g w
     = read_back ∅ (λ p, Client.decodePlan LoadLocation (Transport.encodePlan p)) (PlanQuest svc u g w1)) ∧
    ((∀ id, (CreateQuest svc u g opts w1).1 = Ok (id, None) → utf8 id) →
     Client.CreateQuest token send g opts w = read_back ∅ Ok (id_or_error (CreateQuest svc u g opts w1))) ∧
    ((∀ st, (GetQuest svc u q' w1).1 = Ok st → readable (Transport.encodeQuestState abbreviation st)) →
     Client.GetQuest LoadLocation token send q w
     = read_back (detail "quest_id" q')
         (λ st, Client.decodeQuestState LoadLocation (Transport.encodeQuestState abbreviation st)) (GetQuest svc u q' w1)) ∧
    ((∀ l, (ListQuests svc u filter w1).1 = Ok l →
        text_ok (mkListQuestsResponse (map Transport.encodeQuestSummary l))) →
     Client.ListQuests token send f w
     = read_back ∅ (λ l, Client.all_decoded Client.decodeQuestSummary (map Transport.encodeQuestSummary l))
         (ListQuests svc u filter w1)) ∧
    Client.CancelQuest token send q copts w
    = read_back (detail "quest_id" q') (λ _, Ok tt) (id_or_error (CancelQuest svc u q' copts w1)).
Proof.
  intros Hg Hv (Hq & _ & _) Hp Hc Hx Hf q'. split; [apply escape_but_id|]. assert (Hq' : q' ≠ "") by by apply escaped_nonempty.
  unfold Client.GetQuest, Client.CancelQuest. rewrite Client.path_id_escaped. fold q'. destruct admitted as (w1 & Hs & Hsend). exists w1. split; [done|].
  split; [|split; [|split; [|split]]].
  - intros Hr. unfold Client.PlanQuest. unfold mbind, m_bind.
    rewrite (do_answer _ w w1 (PlanQuest svc u g) (λ p, mkPlanQuestResponse (Transport.encodePlan p)) 200 ∅).
    + by destruct (PlanQuest svc u g w1) as [[p|e] w2].
    + lia.
    + exact Hr.
    + rewrite Hsend by apply request_header. by apply handled_plan.
  - intros Hr. unfold Client.CreateQuest. unfold mbind, m_bind.
    rewrite (do_answer_id _ w w1 (CreateQuest svc u g opts) mkCreateQuestResponse 201 ∅).
    + by destruct (CreateQuest svc u g opts w1) as [[[id [e|]]|e] w2].
    + lia.
    + intros id Hid. split; [apply createQuestResponse_survives|]. apply ok_obj. apply Forall_singleton.
      split; [by apply ascii_utf8|]. by apply Hr.
    + rewrite Hsend by apply request_header. by apply handled_create.
  - intros Hr. unfold is_empty. rewrite str_eqb_neq by done. unfold mbind, m_bind.
    rewrite (do_answer _ w w1 (GetQuest svc u q') (Transport.encodeQuestState abbreviation) 200 (detail "quest_id" q')).
    + by destruct (GetQuest svc u q' w1) as [[st|e] w2].
    + lia.
    + exact Hr.
    + rewrite Hsend by apply request_header. by apply handled_get.
  - intros Hr. unfold Client.ListQuests. unfold mbind, m_bind.
    rewrite (do_answer _ w w1 (ListQuests svc u filter) (λ l, mkListQuestsResponse (map Transport.encodeQuestSummary l)) 200 ∅).
    + by destruct (ListQuests svc u filter w1) as [[l|e] w2].
    + lia.
    + intros l Hl. split; [apply listQuestsResponse_survives|by apply Hr].
    + rewrite Hsend by apply request_header. by apply handled_list.
  - unfold is_empty. rewrite str_eqb_neq by done.
    apply (do_nothing_id _ w w1 (CancelQuest svc u q' copts) (detail "quest_id" q')).
    rewrite Hsend by apply request_header. by apply handled_cancel.
Qed.
End Remote.

#[local] Existing Instance store_laws.
Example escaped_id : map Client.path_id ["q_1"; "q/1"] = ["q_1"; "q%2F1"].
Proof. vm_compute. reflexivity. Qed.
Notation sample_send := (send gate_senv (λ _, "EDT") ∅).
Definition no_filter : QuestListFilter := mkQuestListFilter [] None None None 0 "".
Example remote_example :
  (Client.CreateQuest "tok_A" sample_send (ann_goal 2) (mkCreateOpts None (Some "k1")) gate_world).1 = Ok "q_09090909"
  ∧ match (Client.GetQuest (λ _, Ok NewYork2026) "tok_A" sample_send "q_1" gate_world).1 with
    | Err e => errors_is e Service.ErrNotFound | Ok _ => false end = true.
Proof. split; vm_compute; reflexivity. Qed.
Lemma verbs_over_http_witness :
  ∃ w1, stamped (tk_hash gate_token) gate_world w1 ∧
    Client.CancelQuest "tok_A" sample_send "q_1" (mkCancelOpts "no longer needed" None) gate_world
    = read_back (detail "quest_id" "q_1") (λ _, Ok tt)
        (id_or_error (CancelQuest (ContextWithCaller gate_senv "operator") "usr_1" "q_1"
           (mkCancelOpts "no longer needed" None) w1)).
Proof.
  assert (Hc : undisturbed (sv_env gate_senv)) by exact (conj (λ _, eq_refl) (λ _, eq_refl)).
  assert (Ht : TrimSpace "tok_A" = "tok_A" ∧ "tok_A" ≠ "") by (split; [vm_compute; reflexivity|discriminate]).
  assert (Hr : caller_of gate_senv ("Bearer " +:+ "tok_A") (st_tenants (w_store gate_world)) = Some gate_token)
    by (vm_compute; reflexivity).
  assert (Hu : tk_user gate_token ≠ "") by discriminate.
  assert (Hg : sendable (ann_goal 2)) by (repeat split; vm_compute; congruence).
  destruct (verbs_over_http gate_senv (λ _, "EDT") (λ _, Ok NewYork2026) "tok_A" ∅ Hc Ht gate_token gate_world Hr Hu
    (ann_goal 2) (mkCreateOpts None (Some "k1")) "q_1" (mkCancelOpts "no longer needed" None) no_filter no_filter Hg)
    as (_ & w1 & Hs & _ & _ & _ & _ & H).
  - discriminate.
  - by split_all.
  - apply plain_ok. vm_compute. reflexivity.
  - apply plain_ok. vm_compute. reflexivity.
  - apply plain_ok. vm_compute. reflexivity.
  - vm_compute. reflexivity.
  - exists w1. split; [exact Hs|exact H].
Defined.
