(* ===== verification/EventStream.v ===== *)
(** * The event stream

    What the daemon writes for a subscription is what the client's callback
    sees: every event, in order, once; then the error, if there is one.  A
    stream that breaks off gives the events that came through whole. *)

From S2P Require Import Prelude Text Json JsonText GoTime GoFormat Types Status Slots Drop Hash Codec Wire.
From Stdlib Require Import Ascii.
From S2P Require Import Strategy Plan Sql Tenant Quests Accounts Tokens Url Engine Resolver Service Transport Server Client WireProofs.

(** ** Lines *)

Definition line_char (c : ascii) : bool := negb (byte_of c =? 10) && negb (byte_of c =? 13).
Definition one_line (s : string) : bool := str_all line_char s.
Lemma one_line_append a b : one_line (a +:+ b) = one_line a && one_line b.
Proof. apply str_all_append. Qed.
Lemma wide_line c : 128 ≤ byte_of c → line_char c = true.
Proof. intros H. unfold line_char. apply andb_true_iff. split; apply negb_true_iff; zb; lia. Qed.
Lemma lead_line c : 2 ≤ utf8_width c → line_char c = true.
Proof. intros H. by apply wide_line, wide_lead. Qed.
Lemma cont_line c : cont c = true → line_char c = true.
Proof. intros H. apply wide_line. unfold cont in H. zb. lia. Qed.
Lemma second_line c c1 : utf8_second c c1 = true → line_char c1 = true.
Proof. intros [H _]%andb_true_iff. by apply cont_line. Qed.
Lemma esc_char_line c : one_line (esc_char c) = true.
Proof. by destruct c as [[] [] [] [] [] [] [] []]. Qed.
Lemma esc_line s : utf8 s → one_line (esc s) = true.
Proof.
  unfold one_line.
  induction 1 as [|c s Hc _ IH|c c1 s Hw H1 _ IH|c c1 c2 s Hw H1 H2 _ IH|c c1 c2 c3 s Hw H1 H2 H3 _ IH]; [done|..];
    cbn [esc].
  - unfold utf8_width. rewrite Hc. change (1 =? 1) with true. cbv iota.
    rewrite str_all_append, IH, andb_true_r. apply esc_char_line.
  - pose proof (unquote_lead c ltac:(lia)) as (_ & _ & _ & ->). rewrite H1, Hw. cbn [negb Z.eqb Pos.eqb str_all].
    rewrite (lead_line c) by lia. by rewrite (second_line _ _ H1).
  - pose proof (unquote_lead c ltac:(lia)) as (_ & _ & _ & ->). rewrite H1, H2, Hw. cbn [negb Z.eqb Pos.eqb].
    destruct (_ && _ && _); [by rewrite str_all_append|]. destruct (_ && _ && _); [by rewrite str_all_append|].
    cbn [str_all]. rewrite (lead_line c) by lia. by rewrite (second_line _ _ H1), (cont_line _ H2).
  - pose proof (unquote_lead c ltac:(lia)) as (_ & _ & _ & ->). rewrite H1, H2, H3, Hw. cbn [negb Z.eqb Pos.eqb str_all].
    rewrite (lead_line c) by lia. by rewrite (second_line _ _ H1), (cont_line _ H2), (cont_line _ H3).
Qed.
Lemma json_string_line s : utf8 s → one_line (json_string s) = true.
Proof. intros H. unfold json_string. by rewrite !one_line_append, esc_line. Qed.
Lemma join_line l : Forall (λ s, one_line s = true) l → one_line (str_join "," l) = true.
Proof.
  induction 1 as [|s [|s' l] Hs Hl IH]; [done|done|].
  change (str_join "," (s :: s' :: l)) with (s +:+ "," +:+ str_join "," (s' :: l)). by rewrite !one_line_append, Hs, IH.
Qed.
(** A document without numbers. *)
Fixpoint wordy (j : json) : bool :=
  match j with
  | JNum _ => false
  | JArr l => forallb wordy l
  | JObj m => forallb (λ kv, wordy kv.2) m
  | _ => true
  end.
Lemma json_text_line j : json_ok j → wordy j = true → one_line (json_text j) = true.
Proof.
  induction j as [|b|n|s|l IH|m IH] using json_tree_ind; cbn [wordy]; [done|by destruct b|done| | |].
  - intros Hs _. by apply json_string_line.
  - intros Hl%ok_arr Hw. rewrite text_arr, !one_line_append. unfold items_text. rewrite join_line; [done|].
    apply Forall_fmap. rewrite Forall_forall in *. intros x Hx. apply IH; [done|by apply Hl|].
    rewrite forallb_forall in Hw. by apply Hw, list_elem_of_In.
  - intros Hm%ok_obj Hw. rewrite text_obj, !one_line_append. unfold members_text. rewrite join_line; [done|].
    apply Forall_fmap. rewrite Forall_forall in *. intros [k x] Hx. change (one_line (json_string k +:+ ":" +:+ json_text x) = true).
    destruct (Hm _ Hx) as [Hk Hj]. rewrite (one_line_append (json_string k)), (one_line_append ":").
    rewrite json_string_line by done. rewrite forallb_forall in Hw.
    specialize (IH _ Hx Hj (Hw (k, x) (proj1 (list_elem_of_In _ _) Hx))). cbn [snd] in IH. by rewrite IH.
Qed.
Lemma event_line w : text_ok w → one_line (Marshal (w : eventWire)) = true.
Proof.
  intros Ht. apply json_text_line; [exact Ht|]. cbn [to_json wire_event concat]. unfold fld_omit, fld.
  destruct (no_entries _); [done|]. cbn. rewrite andb_true_r. apply forallb_forall. intros [k j] Hin.
  apply list_elem_of_In in Hin. rewrite merge_sort_Permutation in Hin.
  by apply list_elem_of_fmap in Hin as ([k' v] & [= -> ->] & _).
Qed.

(** ** Scanning *)

Lemma scan_line l acc rest :
  one_line l = true → Client.scan_lines acc (l +:+ nl +:+ rest) = (acc +:+ l) :: Client.scan_lines "" rest.
Proof.
  revert acc. induction l as [|c l IH]; intros acc Hl; [by rewrite append_nil_r|].
  apply andb_true_iff in Hl as [Hc Hl]. apply andb_true_iff in Hc as [Hc _]. apply negb_true_iff in Hc.
  cbn [String.append Client.scan_lines]. rewrite Hc. etransitivity; [apply (IH _ Hl)|]. by rewrite append_assoc.
Qed.
Lemma scan_last l acc : one_line l = true → Client.scan_lines acc l = if is_empty (acc +:+ l) then [] else [acc +:+ l].
Proof.
  revert acc. induction l as [|c l IH]; intros acc Hl; [by rewrite append_nil_r|].
  apply andb_true_iff in Hl as [Hc Hl]. apply andb_true_iff in Hc as [Hc _]. apply negb_true_iff in Hc.
  cbn [Client.scan_lines]. rewrite Hc, IH by done. by rewrite append_assoc.
Qed.
Lemma drop_cr_line l : one_line l = true → Client.drop_cr l = l.
Proof.
  induction l as [|c l IH]; [done|]. intros [Hc Hl]%andb_true_iff. apply andb_true_iff in Hc as [_ Hc].
  apply negb_true_iff in Hc. cbn [Client.drop_cr]. destruct l as [|d l]; [by rewrite Hc|]. by rewrite IH.
Qed.

(** ** Frames *)

Section Stream.
Context (abbreviation : Time → string).
Notation data e := (Marshal (Transport.encodeEvent abbreviation e)).
Notation short s := (String.length s < Client.max_token)%nat.
Definition type_line (e : Event) : string := "event: " +:+ e_Type e.
Definition data_line (e : Event) : string := "data: " +:+ data e.
(** An event that fits a frame: a type of its own on one line, text, a time
    that can be written, and lines within the scanner's buffer. *)
Record streamable (e : Event) : Prop := {
  se_type : e_Type e ≠ "" ∧ e_Type e ≠ "error" ∧ one_line (e_Type e) = true;
  se_time : wire_time (e_At e);
  se_text : text_ok (Transport.encodeEvent abbreviation e);
  se_size : short (type_line e) ∧ short (data_line e)
}.
Lemma frame_text e rest :
  event_frame abbreviation e +:+ rest = type_line e +:+ nl +:+ (data_line e +:+ nl +:+ (nl +:+ rest)).
Proof. unfold event_frame, type_line, data_line. by rewrite !append_assoc. Qed.
Lemma type_one_line e : streamable e → one_line (type_line e) = true.
Proof. intros [(_ & _ & H) _ _ _]. unfold type_line. by rewrite one_line_append, H. Qed.
Lemma data_one_line e : streamable e → one_line (data_line e) = true.
Proof. intros [_ _ H _]. unfold data_line. by rewrite one_line_append, event_line. Qed.
Lemma frame_lines e rest :
  streamable e →
  Client.scan_lines "" (event_frame abbreviation e +:+ rest) = type_line e :: data_line e :: "" :: Client.scan_lines "" rest.
Proof.
  intros He. rewrite frame_text, scan_line by by apply type_one_line.
  rewrite scan_line by by apply data_one_line. done.
Qed.
Lemma not_long s : short s → (Client.max_token <=? String.length s)%nat = false.
Proof. intros H. by apply Nat.leb_gt. Qed.
Lemma read_type t ev d got rest err :
  one_line t = true → short ("event: " +:+ t) →
  Client.read_frames ev d got (("event: " +:+ t) :: rest) err = Client.read_frames t d got rest err.
Proof.
  intros Ht Hs. cbn [Client.read_frames]. rewrite not_long by done.
  rewrite drop_cr_line by by rewrite one_line_append, Ht.
  change (is_empty ("event: " +:+ t)) with false. cbv iota.
  replace (starts_with "event: " ("event: " +:+ t)) with true by reflexivity.
  by rewrite (substring_drop "event: " t : String.substring 7 (_ - 7) _ = t).
Qed.
Lemma read_data d ev got rest err :
  one_line d = true → short ("data: " +:+ d) →
  Client.read_frames ev "" got (("data: " +:+ d) :: rest) err = Client.read_frames ev d got rest err.
Proof.
  intros Hd Hs. cbn [Client.read_frames]. rewrite not_long by done.
  rewrite drop_cr_line by by rewrite one_line_append, Hd.
  change (is_empty ("data: " +:+ d)) with false. cbv iota.
  replace (starts_with "event: " ("data: " +:+ d)) with false by reflexivity.
  replace (starts_with "data: " ("data: " +:+ d)) with true by reflexivity.
  by rewrite (substring_drop "data: " d : String.substring 6 (_ - 6) _ = d).
Qed.
Lemma read_blank ev d got rest err :
  Client.read_frames ev d got ("" :: rest) err =
  match Client.flush ev d with
  | Err e => (got, Some e)
  | Ok o => Client.read_frames "" "" (got ++ option_list o) rest err
  end.
Proof. cbn [Client.read_frames]. rewrite not_long; [done|]. unfold Client.max_token. cbn [String.length]. lia. Qed.
Lemma flush_event e : streamable e → Client.flush (e_Type e) (data e) = Ok (Some (cut_event abbreviation e)).
Proof.
  intros [(H1 & H2 & _) Ht Hx _]. unfold Client.flush, is_empty. rewrite !(str_eqb_neq (e_Type e)) by done. cbn [andb].
  rewrite Unmarshal_Marshal_plain; [|apply event_survives|exact Hx]. by rewrite event_to_client.
Qed.
Lemma read_event e got rest err :
  streamable e →
  Client.read_frames "" "" got (type_line e :: data_line e :: "" :: rest) err
  = Client.read_frames "" "" (got ++ [cut_event abbreviation e]) rest err.
Proof.
  intros He. pose proof He as [(_ & _ & Hl) _ Hx [Hs Hd]]. unfold type_line, data_line in *.
  rewrite read_type, read_data, read_blank, flush_event by (done || by apply event_line). done.
Qed.

(** ** Streams *)

Lemma join_cons a l : str_join "" (a :: l) = a +:+ str_join "" l.
Proof. destruct l; cbn; [by rewrite append_nil_r|done]. Qed.
Definition frames (evs : list Event) : string := str_join "" (map (event_frame abbreviation) evs).
Lemma frames_cons e evs rest :
  frames (e :: evs) +:+ rest = event_frame abbreviation e +:+ (frames evs +:+ rest).
Proof. unfold frames. cbn [map]. by rewrite join_cons, append_assoc. Qed.
Lemma read_events evs got rest err :
  Forall streamable evs →
  Client.read_frames "" "" got (Client.scan_lines "" (frames evs +:+ rest)) err
  = Client.read_frames "" "" (got ++ map (cut_event abbreviation) evs) (Client.scan_lines "" rest) err.
Proof.
  intros He. revert got. induction He as [|e evs He Hevs IH]; intros got; [by rewrite app_nil_r|].
  rewrite frames_cons, frame_lines, read_event, IH by done. by rewrite <- app_assoc.
Qed.
(** What the client returns when the service's verb ends with [e]. *)
Definition stream_end (e : option error) : option error :=
  match e with
  | Some e =>
      if errors_is e Canceled || errors_is e DeadlineExceeded then None
      else Some (ENew ("httpclient: subscribe: stream error: " +:+ error_String e))
  | None => None
  end.
Definition tellable (e : option error) : Prop :=
  match e with Some e => utf8 (error_String e) ∧ short ("data: " +:+ Marshal (error_String e)) | None => True end.
Lemma read_nothing got : Client.read_frames "" "" got (Client.scan_lines "" "") None = (got, None).
Proof. change (Client.read_frames "" "" got (Client.scan_lines "" "") None) with (got ++ [], None : option error). by rewrite app_nil_r. Qed.
Lemma read_error got e :
  tellable e → Client.read_frames "" "" got (Client.scan_lines "" (error_frame e)) None = (got, stream_end e).
Proof.
  destruct e as [e|]; [|intros _; apply read_nothing]. cbn [error_frame stream_end tellable]. intros [Hu Hs].
  destruct (_ || _); [apply read_nothing|].
  assert (Hl : one_line (Marshal (error_String e)) = true) by by apply json_string_line.
  assert (E : Client.scan_lines "" ("event: error" +:+ nl +:+ "data: " +:+ Marshal (error_String e) +:+ nl +:+ nl)
              = ["event: error"; "data: " +:+ Marshal (error_String e); ""]).
  { rewrite scan_line by done. f_equal.
    change (nl +:+ nl) with (nl +:+ (nl +:+ "")). rewrite <- (append_assoc "data: ").
    rewrite scan_line by by rewrite one_line_append, Hl. done. }
  rewrite E. change "event: error" with ("event: " +:+ "error").
  rewrite read_type, read_data, read_blank; [|done|done|done|unfold Client.max_token; cbn [String.length String.append]; lia].
  unfold Client.flush. change (is_empty "error" && _) with false. cbv iota. rewrite str_eqb_refl.
  rewrite Unmarshal_Marshal_plain; [done|apply string_survives|exact Hu].
Qed.

(** *** A stream that breaks off *)

Definition filled (l : string) : Prop := one_line l = true ∧ l ≠ "" ∧ short l.
Lemma read_filled ev d got lines cause :
  Forall filled lines →
  Client.read_frames ev d got lines (Some cause) = (got, Some (Client.stream_error "read" cause)).
Proof.
  intros Hl. revert ev d. induction Hl as [|l lines (H1 & H2 & H3) Hl IH]; intros ev d; [done|].
  cbn [Client.read_frames]. rewrite not_long, drop_cr_line by done. unfold is_empty at 1. rewrite str_eqb_neq by done.
  destruct (starts_with "event: " l); [apply IH|]. destruct (starts_with "data: " l); apply IH.
Qed.
Lemma prefix_split p q a b :
  p +:+ q = a +:+ b → (∃ r, r ≠ "" ∧ a = p +:+ r) ∨ ∃ r, p = a +:+ r ∧ r +:+ q = b.
Proof.
  revert a. induction p as [|c p IH]; intros [|d a] E; cbn in *.
  - right. by exists "".
  - left. by exists (String d a).
  - right. by exists (String c p).
  - injection E as -> E. apply IH in E as [(r & Hr & ->)|(r & -> & Hr)]; [left|right]; by exists r.
Qed.
Lemma part_filled p r l : one_line l = true → short l → l = p +:+ r → Forall filled (Client.scan_lines "" p).
Proof.
  intros Hl Hs ->. rewrite one_line_append in Hl. apply andb_true_iff in Hl as [Hp _].
  rewrite scan_last by done. cbn [String.append]. destruct (is_empty p) eqn:E; [constructor|].
  apply Forall_singleton. split; [done|]. split; [intros ->; discriminate|]. rewrite length_append in Hs. lia.
Qed.
Lemma nl_part p x : nl = p +:+ x → x ≠ "" → p = "".
Proof.
  unfold nl. destruct p as [|c [|d p]]; cbn [String.append]; intros E Hx; [done| |discriminate].
  injection E as _ E. by destruct Hx.
Qed.
Lemma part_of_frame e p r :
  streamable e → r ≠ "" → event_frame abbreviation e = p +:+ r → Forall filled (Client.scan_lines "" p).
Proof.
  intros He Hr E. pose proof (type_one_line e He) as Ht. pose proof (data_one_line e He) as Hd.
  destruct He as [_ _ _ [Hs1 Hs2]].
  assert (Hft : filled (type_line e)) by (split; [done|]; split; [discriminate|done]).
  assert (Hfd : filled (data_line e)) by (split; [done|]; split; [discriminate|done]).
  assert (F : p +:+ r = type_line e +:+ (nl +:+ (data_line e +:+ (nl +:+ nl)))).
  { rewrite <- E, <- (append_nil_r (event_frame _ e)), frame_text. by rewrite append_nil_r. }
  assert (Hwhole : ∀ l, filled l → Forall filled (Client.scan_lines "" l)).
  { intros l (H1 & H2 & H3). apply (part_filled _ "" l); [done..|]. by rewrite append_nil_r. }
  apply prefix_split in F as [(x & _ & F)|(p1 & -> & F)]; [exact (part_filled _ _ _ Ht Hs1 F)|].
  apply prefix_split in F as [(x & Hx & F)|(p2 & -> & F)].
  { rewrite (nl_part _ _ F Hx), append_nil_r. by apply Hwhole. }
  rewrite scan_line by done. constructor; [done|].
  apply prefix_split in F as [(x & _ & F)|(p3 & -> & F)]; [exact (part_filled _ _ _ Hd Hs2 F)|].
  apply prefix_split in F as [(x & Hx & F)|(p4 & -> & F)].
  { rewrite (nl_part _ _ F Hx), append_nil_r. by apply Hwhole. }
  rewrite scan_line by done. constructor; [done|].
  rewrite <- (append_nil_r nl) in F. apply prefix_split in F as [(x & Hx & F)|(p5 & -> & F)].
  { rewrite (nl_part _ _ F Hx). constructor. }
  destruct p5; [by cbn in F|done].
Qed.

(** C19. The stream carries the events.  The client that reads a whole stream
    hands its callback each event the service delivered, once and in order,
    its time cut to whole seconds and its attributes as text, and returns
    nothing when the subscription ended quietly or the text of the error it
    ended with.  If the connection breaks anywhere in between, it hands over
    exactly the events whose frames came through whole, and returns the
    error of the connection. *)
Theorem stream_over_http evs :
  Forall streamable evs →
  (∀ e, tellable e →
     Client.parseSSE (event_stream abbreviation evs e) None = (map (cut_event abbreviation) evs, stream_end e)) ∧
  ∀ p r cause, p +:+ r = event_stream abbreviation evs None →
    ∃ whole rest part, evs = whole ++ rest ∧ p = frames whole +:+ part ∧
      match rest with [] => part = "" | e :: _ => ∃ q, q ≠ "" ∧ event_frame abbreviation e = part +:+ q end ∧
      Client.parseSSE p (Some cause)
        = (map (cut_event abbreviation) whole, Some (Client.stream_error "read" cause)).
Proof.
  intros He. split.
  - intros e Ht. unfold Client.parseSSE, event_stream. by rewrite (read_events evs [] _ _ He), read_error.
  - intros p r cause. unfold event_stream. cbn [error_frame]. rewrite append_nil_r. intros E.
    assert (H : ∃ whole rest part, evs = whole ++ rest ∧ p = frames whole +:+ part ∧
      match rest with [] => part = "" | e :: _ => ∃ q, q ≠ "" ∧ event_frame abbreviation e = part +:+ q end).
    { clear He. revert p E. induction evs as [|e l IH]; intros p E.
      - exists [], [], "". destruct p; done.
      - cbn [map] in E. rewrite join_cons in E. apply prefix_split in E as [(q & Hq & E)|(p' & -> & E)].
        + exists [], (e :: l), p. split; [done|]. split; [done|]. by exists q.
        + apply IH in E as (whole & rest & part & -> & -> & H). exists (e :: whole), rest, part.
          split; [done|]. split; [|done]. by rewrite frames_cons. }
    destruct H as (whole & rest & part & -> & -> & H). exists whole, rest, part. split; [done|]. split; [done|]. split; [done|].
    apply Forall_app in He as [Hw Hr]. unfold Client.parseSSE. rewrite (read_events whole [] _ _ Hw). cbn [app].
    apply read_filled. destruct rest as [|e rest]; [subst part; constructor|]. destruct H as (q & Hq & E').
    apply Forall_cons_1 in Hr as [Hr _]. by eapply part_of_frame.
Qed.
End Stream.

Definition stream_sample : list Event :=
  [mkEvent EventSubmitted (utc 1805000000250000000) []; mkEvent EventFound (utc 1805000001250000000) [("slots", VInt 2)]].
Lemma stream_over_http_witness :
  Client.parseSSE (event_stream (λ _, "UTC") stream_sample (Some (ENew "boom"))) None
    = ([mkEvent EventSubmitted (utc 1805000000000000000) [];
        mkEvent EventFound (utc 1805000001000000000) [("slots", VString "2")]],
       Some (ENew "httpclient: subscribe: stream error: boom")).
Proof.
  assert (Hs : ∀ n, (n < 1000)%nat → (n < Client.max_token)%nat) by (unfold Client.max_token; lia).
  apply (stream_over_http (λ _, "UTC") stream_sample).
  - repeat (apply Forall_cons; split); [..|by apply Forall_nil]; split.
    all: try (split; apply Hs; vm_compute; lia).
    all: try (apply plain_ok; vm_compute; reflexivity).
    all: try (right; vm_compute; split; [discriminate|reflexivity]).
    all: repeat split; done.
  - split; [by apply ascii_utf8|apply Hs; vm_compute; lia].
Defined.
