(* ===== verification/DaemonCli.v ===== *)
(** * The commands that boot the daemon

    [cmd/resy-snipe/migrate_secrets.go]: [migrate-secrets] boots without
    serving, runs the migration of Secrets and lets go of everything.
    [runServeCmd] of [cmd/resy-snipe/serve.go] with [Server.Run] of
    [transport/http/server.go]: flags, boot, the wiring that can fail, the
    listener, the requests handled over the booted tables, one after the
    other, by the gate and the handlers of Server, and the release of
    everything.  Decoding TOML, files, the terminal, the cipher, the
    derivation, the requests and what listening, [Serve] and [Shutdown] of
    [net/http] answer are arguments; the usage texts are not modelled. *)

From S2P Require Import Prelude Text GoTime GoFormat Types Slots Drop Json Hash Codec ResyWire Sql Sqlite SqliteStore Tenant Accounts Sessions.
From S2P Require Import Migrate Secrets SecretsProofs NetIP Flags Config Proxy Boot Terminal.
From S2P Require Import Tokens Engine Service Adapter Server Gate Verbs.

#[local] Existing Instances cm_ret cm_bind.

(** ** [migrate-secrets] *)

Definition migrate_flags : FlagSet := NewFlagSet [("config", FString ""); ("dry-run", FBool false)].
(** [fmt]'s [%v] of a slice of strings. *)
Definition fmt_strings (l : list string) : string := "[" +:+ str_join " " l +:+ "]".

Section Command.
Context (Clean : string → string) (IDKey : string → string → string)
        (aead_Seal : string → string → string → string → string)
        (rand : nat → nat → res string) (clock : nat → Time) (env : BootEnv).
Context (toml : TomlDecode) (defaults : Config) (getenv : string → string) (file : string → Opened).
Notation CM := (CM Held).

Definition loadDaemonConfig (path : string) : res Config :=
  let '(c, e) := if is_empty path then (defaults, None) else ApplyTOMLFile toml path (file path) defaults in
  match e with
  | Some e => Err (wrap "config: " e)
  | None =>
      let '(c, e) := ApplyEnv getenv c in
      match e with
      | Some e => Err (wrap "config env: " e)
      | None => match Validate c with Some e => Err (wrap "config: " e) | None => Ok c end
      end
  end.
(** The source of the passphrase is the terminal, whatever the configuration
    says. *)
Definition migrate_options : Options := mkOptions getenv (Some stdinPassphraseSource) false false "" "".
Definition boot (cfg : Config) : CM unit :=
  r ← c_attempt (on_world (Boot Clean IDKey rand clock env cfg migrate_options));
  match r with
  | Ok _ => mret tt
  | Err e =>
      c_fail (if errors_is e ErrLockHeld
              then ENew "migrate-secrets: daemon appears to be running (data.db.lock held); stop `resy-snipe serve` and retry"
              else wrap "migrate-secrets: boot: " e)
  end.
(** [defer d.Close()]. *)
Definition closing {A} (m : CM A) : CM A := λ t,
  let '(r, t) := m t in (r, mkTerm (Close env (tm_world t)).2 (tm_in t) (tm_end t) (tm_out t)).
Definition migration (s : Sealer) (dry : bool) : CM MigrationReport :=
  on_world (λ h,
    let '(r, n, d) := MigratePlaintextSessions aead_Seal rand clock s dry (be_faults env) (h_tick h) (sd_data (h_data h)) in
    (r, set_data n (mkSchemaDB (sd_versions (h_data h)) d) h)).
Definition report_lines (dry : bool) (report : MigrationReport) : string :=
  "migrate-secrets: " +:+ (if dry then "would-migrate" else "migrated") +:+ "=" +:+ fmt_d (mr_Migrated report)
  +:+ " skipped=" +:+ fmt_d (mr_Skipped report) +:+ " errors=" +:+ fmt_d (Z.of_nat (length (mr_Errors report))) +:+ nl
  +:+ String.concat "" (imap (λ i e, "  error[" +:+ fmt_d (Z.of_nat i) +:+ "]: " +:+ error_String e +:+ nl) (mr_Errors report)).
Definition migrate_booted (dry : bool) : CM unit :=
  held ← on_world (λ h, (Ok h, h));
  match h_sealer held with
  | None => c_fail (ENew ("migrate-secrets: cannot run in insecure mode " +:+ bytes [226; 128; 148]%nat
                          +:+ " secrets sealing is required to migrate plaintext JWTs"))
  | Some s =>
      report ← c_wrapped "migrate-secrets: " (migration s dry);
      put (report_lines dry report)
  end.
Definition runMigrateSecretsCmd (args : list string) : CM unit :=
  '(fs, rest) ← c_wrapped "migrate-secrets: " (of_res (Parse migrate_flags args));
  match rest with
  | _ :: _ => c_fail (ENew ("migrate-secrets: unexpected positional args: " +:+ fmt_strings rest))
  | [] =>
      cfg ← c_wrapped "migrate-secrets: " (of_res (loadDaemonConfig (get_string fs "config")));
      _ ← boot cfg;
      closing (migrate_booted (get_bool fs "dry-run"))
  end.

(** ** What a run leaves behind *)

Lemma migration_failed s dry fl n d :
  is_Ok (MigratePlaintextSessions aead_Seal rand clock s dry fl n d).1.1 = false ∨ dry = true →
  (MigratePlaintextSessions aead_Seal rand clock s dry fl n d).2 = d.
Proof.
  unfold MigratePlaintextSessions, rolled_back, in_tx, ctx_err, query, stmt. destruct dry, (fl n); try done.
  - intros _. by destruct (migrate_all _ _ _ _ _ _ _) as [[? ?] ?].
  - destruct (migrate_all _ _ _ _ _ _ _) as [[[r|e] n2] d2]; [|done]. destruct (fl n2); [done|]. by intros [|].
Qed.
(** The key of this boot is the passphrase typed at the terminal. *)
Lemma migrate_key cfg meta s desc :
  unlockSealer Clean IDKey env cfg migrate_options meta = Ok (s, desc) →
  ∃ p, be_tty env = Some (Ok p) ∧ p ≠ "" ∧ se_aead s = IDKey p (KDFSalt meta).
Proof.
  unfold unlockSealer. cbn. unfold stdin_passphrase. destruct (be_prompt env); [done|]. destruct (be_tty env) as [[p|e]|]; [|done..].
  destruct (is_empty p) eqn:Ep; [done|]. cbn. unfold DeriveKeyFromPassphrase. rewrite Ep.
  destruct (negb _); [done|]. unfold newKey. destruct (negb _); [done|]. destruct (be_mlock env); [done|]. cbn.
  unfold sealed, NewSealer, key_ok. destruct (_ =? _)%nat; [|done]. intros [= <- _]. exists p. split_all; try done. by intros ->.
Qed.
(** A process that holds nothing. *)
Definition released (h : Held) : Prop := h_lock h = false ∧ h_db h = false ∧ h_sealer h = None.
(** What a run that reported did: once the schema was up to date it migrated
    the sessions, with a key made of the typed passphrase and the stored salt
    and of the version of every secret. *)
Definition migrated (dry : bool) (d : SchemaDB SecretsDB) (t t' : Term Held) : Prop :=
  ∃ p row s report n1 l d0 d1 n2,
    brought (be_exec env) (be_files env) d d0 l ∧ all_applied (be_files env) d l ∧
    meta_added d0 d1 ∧ sx_meta (sd_data d1) = Some row ∧
    be_tty env = Some (Ok p) ∧ p ≠ "" ∧ se_aead s = IDKey p (mt_salt row) ∧ se_version s = mt_version row ∧
    (∀ m, sx_meta (sd_data d0) = Some m → Forall (λ x, sc_version x = se_version s) (sx_secrets (sd_data d0))) ∧
    sd_versions (h_data (tm_world t')) = sd_versions d1 ∧
    MigratePlaintextSessions aead_Seal rand clock s dry (be_faults env) n1 (sd_data d1)
    = (Ok report, n2, sd_data (h_data (tm_world t'))) ∧
    tm_out t' = tm_out t +:+ report_lines dry report.
Lemma booted_run dry cfg n d t :
  tm_world t = nothing n d →
  match (_ ← boot cfg; closing (migrate_booted dry)) t with
  | (Err _, t') => booted_over env d (h_data (tm_world t')) ∧ tm_out t' = tm_out t
  | (Ok _, t') => migrated dry d t t' ∧ (dry = true → booted_over env d (h_data (tm_world t')))
  end ∧ released (tm_world ((_ ← boot cfg; closing (migrate_booted dry)) t).2).
Proof.
  intros Ht. unfold boot, c_attempt, on_world, mbind, cm_bind. rewrite Ht.
  pose proof (boot_spec Clean IDKey rand clock env cfg migrate_options n d) as Hb.
  destruct (Boot _ _ _ _ _ _ _ _) as [[meta|e] h].
  2: { destruct Hb as (n' & d' & -> & Hd). by destruct (errors_is e ErrLockHeld). }
  destruct Hb as (_ & _ & (d0 & l & Hb & Hall & Hd & Hs) & row & Hm & ->).
  destruct (h_sealer h) as [s|] eqn:Es; [|by destruct Hs].
  destruct Hs as [_ [[desc Hk] _ Hv Hrows]]. apply migrate_key in Hk as (p & Hp & Hpe & Hkey).
  unfold closing, migrate_booted, migration, mbind, cm_bind, mret, cm_ret, on_world, c_wrapped, put. cbn. rewrite Es. cbn.
  assert (Hd' : ∀ x, x = sd_data (h_data h) → booted_over env d (mkSchemaDB (sd_versions (h_data h)) x)).
  { intros x ->. exists d0, l. split; [done|]. right. split; [done|]. by destruct (h_data h). }
  pose proof (migration_failed s dry (be_faults env) (h_tick h) (sd_data (h_data h))) as Hf.
  destruct (MigratePlaintextSessions aead_Seal rand clock s dry (be_faults env) (h_tick h) (sd_data (h_data h)))
    as [[[report|e] n2] d2] eqn:E; cbn in *.
  - split; [|done]. split; [|intros ->; apply Hd', Hf; by right].
    by exists p, row, s, report, (h_tick h), l, d0, (h_data h), n2.
  - split; [|done]. split; [|done]. apply Hd', Hf. by left.
Qed.

(** C25. [migrate-secrets] is safe to run and to repeat.  However it ends, the
    process holds no lock, no handle and no key.  When it fails, or for a dry
    run, the tables are as its boot left them: what the first pending
    migrations of the schema made of them - nothing where none is pending -
    and perhaps a first meta row.  When it reports, the report is the
    migration's, run once the schema was up to date with the key made of the
    passphrase typed at the terminal and the stored salt, of the version that
    every secret already has. *)
Theorem migrate_secrets_safe args n d t :
  tm_world t = nothing n d →
  match runMigrateSecretsCmd args t with
  | (Err _, t') => released (tm_world t') ∧ booted_over env d (h_data (tm_world t'))
  | (Ok _, t') =>
      released (tm_world t') ∧
      ∃ fs, Parse migrate_flags args = Ok (fs, []) ∧ let dry := get_bool fs "dry-run" in
        migrated dry d t t' ∧ (dry = true → booted_over env d (h_data (tm_world t')))
  end.
Proof.
  intros Ht. unfold runMigrateSecretsCmd, c_wrapped, of_res.
  assert (H0 : released (tm_world t) ∧ booted_over env d (h_data (tm_world t)))
    by (rewrite Ht; split; [done|apply booted_over_refl]).
  unfold mbind at 1, cm_bind at 1. destruct (Parse migrate_flags args) as [[fs [|a rest]]|e]; [|done..].
  unfold mbind at 1, cm_bind at 1. destruct (loadDaemonConfig _) as [cfg|e]; [|done].
  destruct (booted_run (get_bool fs "dry-run") cfg n d t Ht) as [H Hr].
  destruct ((_ ← boot cfg; _) t) as [[[]|e] t']; [|by destruct H]. split; [done|]. by exists fs.
Qed.
End Command.

(** Where no migration is pending, the schema stays as it is. *)
Lemma booted_over_current env d d' :
  (∀ migs, loadMigrations (be_files env) = Ok migs → pending (recorded d).*1 migs = []) →
  booted_over env d d' → meta_only (sd_data d) (sd_data d').
Proof.
  intros Hn (d1 & l & [Hl _ Hr] & Hd). assert (l = []) as ->.
  { destruct Hl as [->|(migs & El & Hp)]; [done|]. rewrite (Hn migs El) in Hp. by apply prefix_nil_inv in Hp. }
  injection Hr as Hr. destruct Hd as [->|(_ & _ & Hm)]; rewrite Hr; [split; [done|done|by left]|done].
Qed.

(** ** A database with one plaintext token *)

Definition typed_key (passphrase salt : string) : string := old_key.
Definition keyfile_text : string := repeated "62" 32 +:+ nl.
Definition keyfile_env (tty : option (res string)) : BootEnv :=
  mkBootEnv None None FlockOk None (λ _ x, Ok x) (λ l, l) embedded false ok_faults (λ _, Ok (mkFileInfo false 256)) (λ _, None)
    (λ _, Ok keyfile_text) None tty (λ _, Ok "") None None None None.
Definition keyfile_vars (k : string) : string :=
  if str_eqb k "RESY_SNIPE_SECRETS_MODE" then "keyfile"
  else if str_eqb k "RESY_SNIPE_KEYFILE" then "/etc/resy-snipe/secret.key" else "".
Definition toy_schema : SchemaDB SecretsDB := mkSchemaDB (Some [(1, "initial"); (2, "v2_multi_user"); (3, "idempotency")]) toy_db.
Definition idle_term : Term Held := mkTerm (nothing 0 toy_schema) "" None "".
Definition migrate_run (tty : option (res string)) (args : list string) : res unit * Term Held :=
  runMigrateSecretsCmd (λ s, s) typed_key toy_Seal toy_rand toy_clock (keyfile_env tty) (λ _ c, (c, Ok []))
    (DefaultConfig (λ s, s) keyfile_vars (Some "/root")) keyfile_vars (λ _, NotExist) args idle_term.
Definition migrated_term : Term Held := Eval vm_compute in (migrate_run (Some (Ok "open sesame")) []).2.
Lemma migrate_secrets_safe_witness :
  released (tm_world migrated_term) ∧
  tm_out migrated_term = "migrate-secrets: migrated=1 skipped=0 errors=0" +:+ nl ∧
  booted_over (keyfile_env (Some (Ok "open sesame"))) toy_schema
    (h_data (tm_world (migrate_run (Some (Ok "open sesame")) ["-dry-run"]).2)) ∧
  booted_over (keyfile_env None) toy_schema (h_data (tm_world (migrate_run None []).2)).
Proof.
  pose proof (λ tty args, migrate_secrets_safe (λ s, s) typed_key toy_Seal toy_rand toy_clock (keyfile_env tty) (λ _ c, (c, Ok []))
    (DefaultConfig (λ s, s) keyfile_vars (Some "/root")) keyfile_vars (λ _, NotExist) args 0%nat toy_schema idle_term eq_refl) as H.
  assert (E : migrate_run (Some (Ok "open sesame")) [] = (Ok tt, migrated_term)) by (vm_compute; reflexivity).
  split; [|split; [vm_compute; reflexivity|split]].
  - pose proof (H (Some (Ok "open sesame")) []) as H1. unfold migrate_run in E. rewrite E in H1. exact (proj1 H1).
  - pose proof (H (Some (Ok "open sesame")) ["-dry-run"]) as H1. unfold migrate_run.
    destruct (runMigrateSecretsCmd _ _ _ _ _ _ _ _ _ _ _ _) as [[[]|e] t'] eqn:E1; [|exact (proj2 H1)].
    destruct H1 as (_ & fs & Hp & _ & Hd). apply Hd. vm_compute in Hp. injection Hp as <-. reflexivity.
  - pose proof (H None []) as H1. unfold migrate_run.
    destruct (runMigrateSecretsCmd _ _ _ _ _ _ _ _ _ _ _ _) as [[[]|e] t'] eqn:E1; [|exact (proj2 H1)].
    vm_compute in E1. discriminate E1.
Defined.
Definition example_keyfile_config : Config := Eval vm_compute in
  match loadDaemonConfig (λ _ c, (c, Ok [])) (DefaultConfig (λ s, s) keyfile_vars (Some "/root")) keyfile_vars (λ _, NotExist) "" with
  | Ok c => c
  | Err _ => DefaultConfig (λ s, s) keyfile_vars None
  end.
Definition served : res Meta * Held :=
  Boot (λ s, s) typed_key toy_rand toy_clock (keyfile_env None) example_keyfile_config
    (mkOptions keyfile_vars None false true "" "") (nothing 0 (h_data (tm_world migrated_term))).
(** With [mode = keyfile] the command still asks for a passphrase.  The
    daemon then boots with the key of the file: boot opens no secret, and so
    does not notice; the token is sealed under a key nothing will use
    again, and its plaintext is gone. *)
Lemma keyfile_tokens_lost :
  is_Ok served.1 = true ∧ nth 7 (h_banner served.2) "" = "ready." ∧
  nth 6 (h_banner served.2) "" = "  secrets:    unlocked (keyfile, key-version=1)" ∧
  match h_sealer served.2 with
  | Some s => (Open toy_Open s "usr_1" "acct_1" KindResySessionJWT ok_faults 0%nat (sd_data (h_data served.2))).1.1 = Err tampered
  | None => False
  end ∧
  map sn_jwt (sd_sessions (sx_sessions (sd_data (h_data served.2)))) = [""].
Proof. vm_compute. by repeat split. Qed.

(** ** [serve] *)

Definition ErrServerClosed : error := ESentinel "http: Server closed".
Definition serve_flags : FlagSet := NewFlagSet [
  ("config", FString "/etc/resy-snipe/config.toml"); ("bind", FString ""); ("insecure-no-encryption", FBool false)].
Definition serve_args (fs : FlagSet) : ServeFlags :=
  mkServeFlags (get_string fs "config") (get_string fs "bind") (get_bool fs "insecure-no-encryption").
(** [time.Duration(seconds) * time.Second], and the default. *)
Definition drain_time (cfg : Config) : Z :=
  let drain := wrap64 (ShutdownDrainSeconds (c_Daemon cfg) * second) in
  if drain <=? 0 then 15 * second else drain.

(** ** [Server.Run] *)

(** What listening answers; what [Serve] returns if it does before the
    context is cancelled; what [Shutdown] answers within a time, and what
    [Serve] returns then. *)
Record Listening := mkListening {
  li_listen : option error;
  li_served : option (option error);
  li_shutdown : Z → option error;
  li_exit : option error
}.
Definition unless_closed (e : option error) : option error :=
  match e with Some e => if errors_is e ErrServerClosed then None else Some e | None => None end.
(** How a run that listens ends; the drain is at most this long. *)
Definition run_end (li : Listening) (drain : Z) : option error :=
  match li_served li with
  | Some e => unless_closed e
  | None => match li_shutdown li drain with Some e => Some e | None => unless_closed (li_exit li) end
  end.
(** Requests are handled from the moment it listens until it ends. *)
Definition Server_Run {W} (handling : CM W unit) (li : Listening) (drain : Z) : CM W (option error) :=
  let drain := if drain <=? 0 then 15 * second else drain in
  match li_listen li with
  | Some e => mret (Some e)
  | None => _ ← handling; mret (run_end li drain)
  end.

(** ** [serve.go] *)

(** The tables that the service writes, inside the database. *)
Definition with_tenant (x : TenantDB) (d : SchemaDB SecretsDB) : SchemaDB SecretsDB :=
  mkSchemaDB (sd_versions d)
    (mkSecretsDB (mkSessionDB x (sd_sessions (sx_sessions (sd_data d)))) (sx_secrets (sd_data d)) (sx_meta (sd_data d))).
Lemma with_tenant_same d : with_tenant (sx_tenant (sd_data d)) d = d.
Proof. by destruct d as [v [[x ss] sc m]]. Qed.

Section Serve.
Context {St : Type} `{!SnipeStore St} {clk : SqliteClock} (abbreviation : Time → string).
Context (Clean : string → string) (IDKey : string → string → string)
        (rand : nat → nat → res string) (clock : nat → Time) (env : BootEnv).
Context (toml : TomlDecode) (defaults : Config) (getenv : string → string) (file : string → Opened).
Context (version commit : string) (li : Listening).
(** The requests that come in and what each finds, and the engine's side of
    the world they run in. *)
Context (reqs : list (SEnv * Request)) (start : World (Stores St TenantDB)).
Notation CM := (CM Held).

Definition serve_options (insecure : bool) : Options := mkOptions getenv None insecure false version commit.
(** The part of [composeServer] that can fail. *)
Definition composeServer (cfg : Config) : res Proxy.TrustedProxies :=
  match ParseTrustedProxies (Config.TrustedProxies (c_HTTP cfg)) with
  | Err e => Err (wrap "trusted_proxies: " e)
  | Ok tp => Ok tp
  end.
(** The service over the booted tables. *)
Definition over (d : SchemaDB SecretsDB) : World (Stores St TenantDB) :=
  set_store (mkStores (st_snipes (w_store start)) (sx_tenant (sd_data d))) (w_sql start) start.
Definition after_requests (d : SchemaDB SecretsDB) : SchemaDB SecretsDB :=
  with_tenant (st_tenants (w_store (serve abbreviation reqs ∅ (over d)).2)) d.
Definition handle_requests : CM unit :=
  on_world (λ h, (Ok tt, set_data (h_tick h) (after_requests (h_data h)) h)).
Definition serve_until_closed (cfg : Config) : CM unit :=
  _ ← c_wrapped "serve: compose: " (of_res (composeServer cfg));
  e ← Server_Run handle_requests li (drain_time cfg);
  match e with
  | None => mret tt
  | Some e => if errors_is e ErrServerClosed then mret tt else c_fail (wrap "serve: listener: " e)
  end.
Definition runServeCmd (args : list string) : CM unit :=
  '(fs, _) ← of_res (Parse serve_flags args);
  '(cfg, insecure) ← of_res (parseServeFlags toml defaults getenv file (serve_args fs));
  _ ← c_wrapped "serve: boot: " (on_world (Boot Clean IDKey rand clock env cfg (serve_options insecure)));
  closing env (serve_until_closed cfg).

(** ** What it leaves *)

Lemma compose_ok cfg : Validate cfg = None → ∃ tp, composeServer cfg = Ok tp.
Proof.
  intros H%Validate_ok. destruct (parse_nets_ok _ (ok_proxies _ H)) as (nets & Hn & _).
  unfold composeServer, ParseTrustedProxies. rewrite Hn. by eexists.
Qed.
Lemma drain_positive cfg : 0 < drain_time cfg.
Proof. unfold drain_time, second. case_match eqn:E; [lia|]. by apply Z.leb_gt in E. Qed.
(** How the listener ends the command. *)
Definition stopped (cfg : Config) : res unit :=
  match (match li_listen li with Some e => Some e | None => run_end li (drain_time cfg) end) with
  | None => Ok tt
  | Some e => if errors_is e ErrServerClosed then Ok tt else Err (wrap "serve: listener: " e)
  end.
Definition listening : bool := match li_listen li with None => true | Some _ => false end.
Lemma serve_until_closed_spec cfg t :
  Validate cfg = None →
  serve_until_closed cfg t = (stopped cfg, if listening then (handle_requests t).2 else t).
Proof.
  intros H%compose_ok. destruct H as [tp H].
  unfold serve_until_closed, Server_Run, stopped, listening, mbind, cm_bind, c_wrapped, of_res. rewrite H.
  assert (Hd : (drain_time cfg <=? 0) = false) by (apply Z.leb_gt, drain_positive). rewrite Hd.
  destruct (li_listen li) as [e|]; cbn; [by destruct (is_sentinel _ e)|].
  destruct (run_end li (drain_time cfg)) as [e|]; [|done]. by destruct (is_sentinel _ e).
Qed.
End Serve.

(** A drain asked for is the drain given, up to what a [Duration] holds; more
    wraps around, to the default or to anything positive. *)
Lemma drain_exact cfg : 0 < ShutdownDrainSeconds (c_Daemon cfg) ≤ 9223372036 → drain_time cfg = ShutdownDrainSeconds (c_Daemon cfg) * second.
Proof.
  intros H. unfold drain_time, wrap64, second. rewrite Z.mod_small by lia.
  destruct (Z.leb_spec (ShutdownDrainSeconds (c_Daemon cfg) * 1000000000 + 2 ^ 63 - 2 ^ 63) 0); lia.
Qed.

(** ** A daemon with a keyfile *)

#[local] Existing Instance store_laws.
(** Someone asks for the quests of a database without tokens. *)
Definition asked : list (SEnv * Request) := [(gate_senv, ask GetQuests "")].
Definition serve_run (li : Listening) (getenv : string → string) (args : list string) : res unit * Term Held :=
  runServeCmd (λ _, "EDT") (λ s, s) typed_key toy_rand toy_clock (keyfile_env None) (λ _ c, (c, Ok []))
    (DefaultConfig (λ s, s) getenv (Some "/root")) getenv (λ _, NotExist) "dev" "unknown" li asked gate_world args idle_term.
Definition drained : Listening := mkListening None None (λ d, if d =? 15 * second then None else Some DeadlineExceeded) (Some ErrServerClosed).
Definition busy_port : Listening := mkListening (Some (ENew "listen tcp: address already in use")) None (λ _, None) None.
Lemma toy_tokens d1 : booted_over (keyfile_env None) toy_schema d1 → no_live_token (sx_tenant (sd_data d1)).
Proof.
  intros (d0 & l & [_ _ Hr] & Hd). assert (E : sd_data d0 = toy_db).
  { change (run_bodies (λ _ x, Ok x) l toy_db = Ok (sd_data d0)) in Hr. clear Hd. induction l as [|m l IH]; [|by apply IH].
    cbn in Hr. by injection Hr. }
  assert (Et : tb_tokens (sx_tenant (sd_data d1)) = []).
  { destruct Hd as [->|(_ & _ & [Hs _ _])]; unfold sx_tenant; [by rewrite E|by rewrite Hs, E]. }
  intros r. rewrite Et. by intros ?%not_elem_of_nil.
Qed.
