(* ===== verification/Main.v ===== *)
(** * The command line: [cmd/resy-snipe/main.go]

    Which command the arguments name, the levels of the log, and [run] up to
    where it stops for want of a user; the live half is in LoginCli and
    Snipe.  [time.Local] and [unicode]'s lower case are arguments; the log
    itself is not modelled. *)

From S2P Require Import Prelude Text Flags NetIP GoTime GoFormat Types Codec Terminal Prompts Proxy Config.

#[local] Existing Instances cm_ret cm_bind.

(** ** Commands *)

Inductive Command :=
| CmdResolve | CmdQuestPlan | CmdQuestCreate | CmdQuestList | CmdQuestGet | CmdQuestCancel
| CmdUser | CmdServe | CmdMigrateSecrets | CmdLogin | CmdSnipe.
Definition quest_command (sub : string) : option Command :=
  if str_eqb sub "plan" then Some CmdQuestPlan
  else if str_eqb sub "create" then Some CmdQuestCreate
  else if str_eqb sub "list" then Some CmdQuestList
  else if str_eqb sub "get" then Some CmdQuestGet
  else if str_eqb sub "cancel" then Some CmdQuestCancel
  else None.
Definition one_word (args : list string) : Command * list string :=
  match args with
  | [] => (CmdSnipe, args)
  | w :: rest =>
      if str_eqb w "user" then (CmdUser, rest)
      else if str_eqb w "serve" then (CmdServe, rest)
      else if str_eqb w "migrate-secrets" then (CmdMigrateSecrets, rest)
      else if str_eqb w "login" then (CmdLogin, rest)
      else (CmdSnipe, args)
  end.
(** The command and its arguments; what names no command is a snipe. *)
Definition dispatch (args : list string) : Command * list string :=
  match args with
  | w :: sub :: rest =>
      if str_eqb w "venue" && str_eqb sub "resolve" then (CmdResolve, rest)
      else if str_eqb w "quest" then
        match quest_command sub with Some c => (c, rest) | None => one_word args end
      else one_word args
  | _ => one_word args
  end.

Section Run.
Context (Local : Location) (lower : string → string).

(** ** Log levels, as [slog] numbers them *)

Definition LevelDebug : Z := -4.
Definition LevelInfo : Z := 0.
Definition LevelWarn : Z := 4.
Definition LevelError : Z := 8.
Definition parseLogLevel (s : string) : res Z :=
  let l := ToLower lower (TrimSpace s) in
  if str_eqb l "debug" then Ok LevelDebug
  else if str_eqb l "" || str_eqb l "info" then Ok LevelInfo
  else if str_eqb l "warn" || str_eqb l "warning" then Ok LevelWarn
  else if str_eqb l "error" then Ok LevelError
  else Err (ENew ("invalid --log-level " +:+ fmt_q s +:+ " (want debug|info|warn|error)")).
(** [t.Format(time.RFC3339)] in the time's location. *)
Definition fmt_rfc3339_in (t : Time) : string :=
  fmt_utc_date (face_ns t) +:+ "T" +:+ fmt_utc_clock (face_ns t) +:+ fmt_zone (zone_offset t).
Definition arrow : string := bytes [226; 134; 146]%nat.
Definition releaseSummary (r : option ReleaseStrategy) : string :=
  match r with
  | Some (ExplicitRelease at_) => "explicit@" +:+ fmt_rfc3339_in at_
  | Some (DiscoveredRelease from until) => "discovered[" +:+ fmt_rfc3339_in from +:+ arrow +:+ fmt_rfc3339_in until +:+ "]"
  | Some (ContinuousRelease until) => "continuous" +:+ arrow +:+ fmt_rfc3339_in until
  | None => "<unknown>"
  end.

(** ** [run], without a subcommand *)

Section Preview.
Context {W : Type}.
(** The options and the intent they make, at the clock's [now]. *)
Definition assemble (now : Time) (args : list string) : CM W (cliOptions * Intent) :=
  o ← of_res (parseFlags args);
  _ ← of_res (parseLogLevel (logLevel o));
  let now := in_loc now Local in
  let o := applyDefaults o now in
  o ← (if interactive o then c_wrapped "interactive prompt: " (runInteractive o) else mret o);
  i ← of_res (toIntent Local lower o now);
  mret (o, i).
(** [None] is a dry run; a user to snipe for otherwise. *)
Definition preview (now : Time) (args : list string) : CM W (option (string * Intent)) :=
  '(o, i) ← assemble now args;
  mret (if blank (o_user o) then None else Some (o_user o, i)).
End Preview.

(** ** What they mean *)

(** A level that validation lets into a configuration is one of the log's:
    [serve] drops the error of [parseLogLevel]. *)
Lemma serve_level_known c : config_ok c → is_Ok (parseLogLevel (LogLevel (c_Daemon c))) = true.
Proof.
  intros H. pose proof (ok_log_level c H) as Hl. rewrite !elem_of_cons, elem_of_nil in Hl.
  by destruct Hl as [->|[->|[->|[->|[]]]]]; vm_compute.
Qed.
(** A run touches nothing but the terminal before it has a user. *)
Lemma read_line_world {W} (t : Term W) : tm_world (read_line t).2 = tm_world t.
Proof. destruct (read_line t) as [r t'] eqn:E. by apply read_line_inv in E as (? & _). Qed.
Lemma promptRaw_world {W} label d (t : Term W) : tm_world (promptRaw label d t).2 = tm_world t.
Proof. destruct (promptRaw label d t) as [r t'] eqn:E. by apply prompt_inv in E as (? & _). Qed.
Lemma ask_world {W A} label d (accept : string → A + string) (t : Term W) : tm_world (ask label d accept t).2 = tm_world t.
Proof.
  unfold ask. generalize (S (String.length (tm_in t))) as n. intros n. revert t.
  induction n as [|n IH]; intros t; [done|]. cbn [ask_loop]. unfold mbind at 1, cm_bind.
  pose proof (promptRaw_world label d t) as H. destruct (promptRaw label d t) as [[raw|e] t1]; [|done].
  destruct (accept raw); [done|]. unfold mbind, cm_bind, put. by rewrite IH.
Qed.
Definition keeps_world {W A} (m : CM W A) : Prop := ∀ t, tm_world (m t).2 = tm_world t.
Lemma world_bind {W A B} (m : CM W A) (k : A → CM W B) :
  keeps_world m → (∀ a, keeps_world (k a)) → keeps_world (m ≫= k).
Proof.
  intros Hm Hk t. unfold mbind, cm_bind. specialize (Hm t). destruct (m t) as [[a|e] t1]; [|done]. by rewrite Hk.
Qed.
Lemma world_wrapped {W A} pre (m : CM W A) : keeps_world m → keeps_world (c_wrapped pre m).
Proof. intros H t. specialize (H t). unfold c_wrapped. by destruct (m t). Qed.
Lemma runInteractive_world {W} o : keeps_world (runInteractive (W := W) o).
Proof.
  unfold runInteractive, promptVenue, promptTableTypes.
  repeat (apply world_bind; [|intros ?]); intros t;
    first [apply ask_world|apply promptRaw_world|apply read_line_world|done].
Qed.
Lemma assemble_world {W} now args : keeps_world (assemble (W := W) now args).
Proof.
  unfold assemble. repeat (apply world_bind; [|intros ?]); try done.
  destruct (interactive _); [apply world_wrapped, runInteractive_world|done].
Qed.

(** ** The defaults *)

Lemma local_date t : let u := utc (face_ns t) in (t_year u, t_month u, t_day u) = t_date t.
Proof.
  unfold t_year, t_month, t_day. cbn zeta. replace (t_date (utc (face_ns t))) with (t_date t).
  { by destruct (t_date t) as [[y m] d]. }
  unfold t_date, local_secs, t_unix, face_ns, zone_offset, utc. cbn [t_ns t_loc]. rewrite offset_at_utc, Z.add_0_r.
  rewrite Z.div_add by (unfold second; lia). done.
Qed.
Lemma parse_fmt_date t : four_digit_year (face_ns t) → parse_ymd (fmt_date t) = Some (t_date t).
Proof.
  intros H. unfold parse_ymd, fmt_date. rewrite <- (append_nil_r (fmt_utc_date _)), take_date_fmt by done. cbn [mbind option_bind].
  pose proof (utc_fields (face_ns t)) as [-> _]. cbn [at_end]. by rewrite <- local_date.
Qed.
Lemma defaults_filled now o :
  partySize o < 0 → blank (resDate o) = true → blank (resTimes o) = true →
  blank (snipeDate o) = true → blank (snipeTime o) = true →
  applyDefaults o now
  = let week := fmt_date (add_date now 0 0 7) in
    mkCliOptions (interactive o) week 2 (venueID o) "18:45:00" (tableTypes o) week "00:00"
      (releaseStrategy o) (retryWindow o) (logLevel o) (o_user o) (snipeTimeProvided o) (releaseStrategyProvided o).
Proof.
  intros Hp Hd Ht Hs Hst. unfold applyDefaults. rewrite Hd, Ht, Hs, Hst. apply Z.ltb_lt in Hp. by rewrite Hp.
Qed.
Lemma one_time tables : slot_prefs tables ["18:45:00"] = Ok (slots_at tables (mkWallTime 18 45 0)).
Proof.
  cbn [slot_prefs]. assert (ParseWallTime "18:45:00" = Ok (mkWallTime 18 45 0)) as -> by (vm_compute; reflexivity).
  cbn [mbind outcome_bind]. by rewrite app_nil_r.
Qed.
Lemma intent_for_two o now y m d r :
  partySize o = 2 → 0 < venueID o → resTimes o = "18:45:00" → TrimSpace (resDate o) = resDate o →
  parse_ymd (resDate o) = Some (y, m, d) → buildRelease Local lower o now = Ok r →
  toIntent Local lower o now
  = Ok (mkIntent "" (mkVenueRef "resy" (fmt_d (venueID o))) (mkDate y m d) 2
          (slots_at (parseTableTypesInput (tableTypes o)) (mkWallTime 18 45 0)) (Some r)).
Proof.
  intros Hp Hv Ht Htrim Hd Hr. unfold toIntent, blank. rewrite Hp, Ht, Htrim, Hr. apply Z.leb_gt in Hv. rewrite Hv.
  destruct (is_empty (resDate o)) eqn:Ee; [apply str_eqb_true in Ee; by rewrite Ee in Hd|].
  unfold ParseDate. rewrite Hd. assert (parseCommaList "18:45:00" = ["18:45:00"]) as -> by (vm_compute; reflexivity).
  cbn [mbind outcome_bind]. rewrite one_time. reflexivity.
Qed.
(** What a run with a venue and no more makes of its defaults: a table for
    two at 18:45 in a week's time, released at midnight of that very day. *)
Theorem defaults_intent now o :
  partySize o < 0 → 0 < venueID o → blank (resDate o) = true → blank (resTimes o) = true →
  blank (snipeDate o) = true → blank (snipeTime o) = true → known_strategy lower (chosen_strategy o) →
  let week := add_date now 0 0 7 in let '(y, m, d) := t_date week in
  four_digit_year (face_ns week) →
  ∃ at_ r, buildScheduledTime Local (fmt_date week) "00:00" = Ok at_ ∧ released at_ now (retryWindow o) (Some r) ∧
    toIntent Local lower (applyDefaults o now) now
    = Ok (mkIntent "" (mkVenueRef "resy" (fmt_d (venueID o))) (mkDate y m d) 2
            (slots_at (parseTableTypesInput (tableTypes o)) (mkWallTime 18 45 0)) (Some r)).
Proof.
  intros Hp Hv Hd Ht Hs Hst Hk. cbv zeta. rewrite (defaults_filled now o Hp Hd Ht Hs Hst). cbv zeta.
  generalize (parse_fmt_date (add_date now 0 0 7)). destruct (t_date (add_date now 0 0 7)) as [[y m] d].
  generalize (face_ns (add_date now 0 0 7)) as ns. generalize (fmt_date (add_date now 0 0 7)) as week. intros week ns Hf Hy.
  specialize (Hf Hy).
  assert (Htrim : TrimSpace week = week) by (by eapply TrimSpace_word, parse_ymd_word).
  assert (Hmid : TrimSpace "00:00" = "00:00") by (vm_compute; reflexivity).
  assert (Hhm : is_Some (parse_hm "00:00")) by (exists (0, 0, 0); vm_compute; reflexivity).
  assert (Hymd : is_Some (parse_ymd week)) by (rewrite Hf; by exists (y, m, d)).
  pose proof (scheduled_ok Local week "00:00" Htrim Hmid Hymd Hhm) as Ha.
  destruct (buildScheduledTime Local week "00:00") as [at_|] eqn:Ea; [|done].
  set (o' := mkCliOptions _ _ _ _ _ _ _ _ _ _ _ _ _ _).
  destruct (buildRelease_ok Local lower o' now at_ Ea Hk) as (r & Er & Hr). exists at_, r. split; [done|]. split; [done|].
  exact (intent_for_two o' now y m d r eq_refl Hv eq_refl Htrim Hf Er).
Qed.
End Run.

(** A word that is no command, or one after a flag, starts a snipe. *)
Example dispatch_words :
  dispatch ["quest"; "plan"; "-venue-id"; "834"] = (CmdQuestPlan, ["-venue-id"; "834"]) ∧
  dispatch ["venue"; "resolve"] = (CmdResolve, []) ∧
  dispatch ["login"; "extra"] = (CmdLogin, ["extra"]) ∧
  dispatch ["quest"; "crate"] = (CmdSnipe, ["quest"; "crate"]) ∧
  dispatch ["quest"] = (CmdSnipe, ["quest"]) ∧
  dispatch ["-log-level"; "debug"; "login"] = (CmdSnipe, ["-log-level"; "debug"; "login"]).
Proof. by vm_compute. Qed.

(** Twenty past noon on a Saturday. *)
Definition saturday : Time := go_date 2026 6 20 12 20 0 0 UTC.
Definition dry (args : list string) : res (option (string * Intent)) :=
  (preview UTC (λ s, s) saturday args (mkTerm tt "" None "")).1.
Definition hello_options : cliOptions :=
  match parseFlags ["-venue-id"; "38660"] with Ok o => o | Err _ => asked end.
Lemma defaults_intent_witness :
  match toIntent UTC (λ s, s) (applyDefaults hello_options saturday) saturday with
  | Ok i => i_Date i = mkDate 2026 6 27 ∧ i_PartySize i = 2
  | Err _ => False
  end.
Proof.
  assert (Hk : known_strategy (λ s, s) (chosen_strategy hello_options))
    by (unfold known_strategy; rewrite !elem_of_cons; right; left; vm_compute; reflexivity).
  assert (Hy : four_digit_year (face_ns (add_date saturday 0 0 7))) by (vm_compute; split; [discriminate|reflexivity]).
  destruct (defaults_intent UTC (λ s, s) saturday hello_options eq_refl eq_refl eq_refl eq_refl eq_refl eq_refl Hk Hy)
    as (at_ & r & _ & _ & E).
  vm_compute in E |- *. by split.
Defined.
(** The first example of the README: the snipe meant for midnight tonight
    waits for the midnight that begins the day of the reservation. *)
Example hello_world :
  match dry ["-user"; "phall@example.com"; "-venue-id"; "38660"; "-res-times"; "18:30,19:00"; "-snipe-time"; "00:00"] with
  | Ok (Some (user, i)) =>
      user = "phall@example.com" ∧ i_Date i = mkDate 2026 6 27 ∧
      i_Release i = Some (ExplicitRelease (go_date 2026 6 27 0 0 0 0 UTC))
  | _ => False
  end.
Proof. by vm_compute. Qed.
(** Without [-venue-id] nothing runs, the example of the comment neither. *)
Example venue_required : dry ["-snipe-time"; "00:00"] = Err (ENew "venue-id is required").
Proof. by vm_compute. Qed.
(** A command behind a flag is not seen: a dry run, and success. *)
Example late_command : dry ["-venue-id"; "38660"; "login"] = Ok None.
Proof. by vm_compute. Qed.
